(* ===== verification/_CoqProject ===== *)
-Q . S2P
Prelude.v
GoStr.v
Float64.v
Json.v
Provider.v
Sampling.v
Regex.v
Failure.v
Tool.v
Conversation.v
Context.v
Compaction.v
World.v
Stream.v
Summary.v
GoPath.v
ContextFile.v
Agent.v
Outside.v
AgentSpec.v
AgentRun.v
Termination.v
Scenario.v
RunClaims.v
CallClaims.v
CompactionClaims.v
Entries.v
EntriesClaims.v
Session.v
SessionSpec.v
SessionClaims.v
Bus.v
RunManager.v
RunManagerSpec.v
RunManagerSteps.v
RunManagerClaims.v
Addr.v
Net.v
NetClaims.v
OpenAI.v
OpenAIClaims.v
Search.v
SearchEngine.v
SearchClaims.v
Threads.v
Tables.v
Subagent.v
SubagentClaims.v
Files.v
FilesClaims.v
Pool.v
PoolClaims.v
Api.v
ToolChoice.v
ToolChoiceClaims.v
Config.v
Configuration.v
Providers.v
ProvidersClaims.v
Sandbox.v
ConfigurationClaims.v
SandboxClaims.v
ModelsApi.v
Settings.v
ConfigInvariant.v
Hub.v
Host.v
HostClaims.v
HostSim.v
Lifecycle.v
Projects.v
LifecycleClaims.v
SettingsClaims.v
McpMessage.v
McpClient.v
McpClaims.v
Auth.v
Preview.v
Builtin.v
Asking.v
