(* ===== verification/Prelude.v ===== *)
(** * Eika: a verification development

    Eika is a harness for coding agents: a server that keeps sessions, runs an
    agent loop for each against a model endpoint and a set of tools, stores
    what happened, publishes events, and guards what a sandbox can reach. The
    files here model its own logic, Go source file by Go source file, and
    prove what makes it correct. Every definition that models code carries a
    comment with the source file and lines it translates.

    ** The program's parts, and the files that model them

    - [Prelude], [GoStr], [Float64], [Json], [Regex], [GoPath], [Addr]: what
      the program uses of the language and its standard library: 64-bit
      integers, byte strings and UTF-8, float64 and its shortest decimal, the
      JSON encoder and scanner, regular expressions by derivatives, lexical
      paths, and IP addresses.
    - [Provider], [Sampling], [Failure] (internal/provider): messages and their
      wire form, sampling settings, error values, and which failures ask for a
      retry or mean that a request did not fit. [Provider] also has the contract
      with an endpoint: every tool call is answered before the next message.
    - [Tool] (internal/tool): the registry.
    - [Conversation], [Context], [Compaction],
      [Summary], [Stream], [Agent] (internal/agent): the agent
      loop. [World] is its state and its effects: a state monad that may run
      out of fuel, over a conversation, the durable log, two queues, and the
      events; the endpoint, the tools, the store, the clock, and what other
      goroutines queue are functions of a step counter (the record [Env]), so
      a theorem over every [Env] is one over every interleaving with them.
    - [ContextFile] (internal/contextfile): the instructions files of a
      workspace.
    - [Entries] (internal/store entries.go and sessions.go): the tree of
      entries, as the transactions on two tables. [Session]
      (internal/session): the codec of messages and compactions, loading,
      appending, where a run can continue, and the outline of a tree.
    - [Bus] (internal/event): subscriptions with bounded channels, and the
      goroutines that use them, as a step relation.
    - [RunManager] (internal/server run_manager.go): which session runs what,
      what waits between runs, and how runs begin, end, are joined, and are
      aborted, as a step relation over every interleaving; one step of it is a
      whole run of [Agent].
    - [Net] (internal/netguard and internal/egress): which addresses and hosts
      a sandbox may reach, and the proxy's decisions.
    - [OpenAI] (internal/provider/openai): how a stream of chunks becomes the
      events of a response, over the chunks the SDK decodes.
    - [Search], [SearchEngine] (internal/search): the cache, the quotas and
      cooldowns, the chain of web providers, and the paced sources, over the
      answers of the services.
    - [Threads] is a small language of goroutines, programs of atomic actions
      that branch and spawn, with their interleavings as a step relation and
      a rely-guarantee logic for invariants of all of them.
      [Tables] (internal/store workspaces.go, subagents.go) are the
      rows, and [Subagent] (internal/subagent, and worktree.go of
      internal/workspace) the spawner whose operations are such goroutines;
      git, containers, and what a child does are given.
    - [Files] (internal/executor, internal/executor/local, internal/eikad
      path.go and files.go): how a path is confined to a root, lexically and
      through symbolic links, and reading and writing, over a tree of
      directories, files, and links.
    - [Pool] (internal/mcp pool.go, server.go, conn.go, and the retries of
      tools.go): the connections to MCP servers, each opened, used, failed,
      replaced, and closed by goroutines of [Threads]; the protocol client is
      given. [McpMessage] and [McpClient] (jsonrpc.go, sse.go, headers.go,
      client.go, ops.go, stdio.go) are that client: the messages and events it
      reads, and its requests, goroutines, and closing, as programs of
      [Threads] over a transport given by how it answers.
    - [ToolChoice] (internal/mcp tools.go, internal/server
      tools.go): what the tools of an MCP server are called and described as,
      and which tools a session's run offers.
    - [Config] (internal/store providers.go, models.go, profiles.go,
      settings.go): the tables of what the user configures, with what the
      schema's keys do. [Configuration] (internal/server configuration.go): the
      layers a run's configuration is resolved from. [Settings] (settings.go,
      compaction.go, search.go): what each key of the settings accepts, and
      what is read of it. [ModelsApi], [Providers], [Sandbox]
      (models.go, profiles.go, providers.go, sandbox.go, and internal/secret):
      the handlers of the API over those tables, with what they check.
      [Api] (json.go) is what a
      handler fails with.
    - [Hub], [Host] (internal/workspace and its hub): the Docker host of the
      workspaces and the git repositories they push to, over a daemon and a
      sandbox given by what they answer ([Engine]). [Lifecycle] (internal/server
      workspaces.go, idle.go) creates, starts, stops, and destroys workspaces
      with their rows; [Projects] (projects.go) is the table of projects, its
      handlers, and what the API does with git in a workspace. Their programs
      are of the state and error monad of [Prelude], which has Hoare triples
      for them.
    - [Auth] (internal/server auth.go, password.go, and internal/store auth.go):
      the password, the sessions of browsers, and the check in front of the API,
      as programs of [Threads]; hash functions are parameters. [Preview]
      (previews.go, routes.go): the tickets and sessions of previews, and which
      handler a request reaches.
    - [Builtin] (internal/tool/builtin, internal/executor/sandbox, internal/eikad
      exec.go): the tools the agent has, and how a command is run in a sandbox,
      its output streamed, read, and shown, over processes that are given.
      [Asking] (questions.go, ask.go, and internal/mcp elicit.go): the questions
      of the agent and the input MCP servers ask for, one broker over a class
      of questions, as programs of [Threads].
    The agent calls the stream, the summariser, and the compaction; its store
    is an interface, whose two operations [Session] implements on [Entries];
    the run manager runs agents and hands messages to their queues.

    ** What is shown

    - The agent loop ([RunClaims], with the simulation of
      [Outside], [AgentSpec], [AgentRun]): a run leaves a session
      that can be resumed whatever fails, delivers each user message once,
      sends only well-formed requests, keeps the log and the conversation
      equal, and terminates when the endpoint stops asking for tools
      ([Termination]).
    - Calls and compactions ([CallClaims], [CompactionClaims]): what a stream
      reads to, how often a call is tried, that a compaction changes
      everything or nothing, where it cuts, and that a request fits.
    - The store ([EntriesClaims], [SessionSpec],
      [SessionClaims]): the entries form a tree, appending and forking change
      one path, a path is a chain of ancestors, what was appended is what is
      loaded, and both ways to decide where a run can continue agree.
    - The server ([Bus], [RunManagerSpec], [RunManagerSteps],
      [RunManagerClaims]): what a subscriber reads accounts for all it wanted,
      one run per session, sessions stay valid, and no accepted message is
      lost, outside the executions shown to lose one.
    - The network ([NetClaims]): the guard against a table of
      address blocks, what the proxy connects, and what it remembers.
    - A response ([OpenAIClaims]): reading a stream emits what its chunks
      spell out, with the calls put together from their fragments.
    - Search ([SearchClaims]): the cache is a bounded
      list with the least recently used entry evicted, no quota is exceeded,
      and a web search fails over along the configured chain.
    - Subagents ([SubagentClaims]): in every interleaving the
      limits of children hold, and a shutdown that has seen its children done
      is final.
    - Files ([FilesClaims]): what the daemon opens and writes is
      under its root, except through a link whose target does not exist.
    - The pool ([PoolClaims]): in every interleaving no client is
      lost and no channel closed twice, and a closed pool opens nothing; two
      executions show where closing waits forever and where a change of a
      server is missed.
    - Configuration ([ConfigurationClaims], [ConfigInvariant],
      [SettingsClaims]): the first layer that sets a value gives it; every
      session's configuration resolves after whatever requests; every setting
      the harness reads is of its type and used.
    - Providers and sandboxes ([ProvidersClaims], [SandboxClaims],
      [ToolChoiceClaims]): a key goes to its own endpoint
      alone; a container is confined as checked; renaming a model keeps what
      names it, except for two kinds of names; a run offers what was chosen.
    - Workspaces ([HostClaims], [LifecycleClaims]): a failed creation leaves
      nothing, whatever became of the request; a destroyed workspace has
      nothing left; a proxied container has one way out; what Docker keeps of a
      workspace is enough to find it again; the hub serves what was granted
      last; the idle sweep stops no workspace in use. The laws of Docker are
      classes of [HostClaims], and the daemon in memory of [HostSim] meets them.
      Two theorems show where deleting and creating a project go wrong.
    - The MCP client ([McpClaims]): in every interleaving a response reaches
      the request it answers, and a request whose connection is reported to
      have ended ends in every fair run; streams of events read back, and what
      is put into headers stays one header; one execution shows a request that
      closing the client leaves waiting.
    - Access ([Auth], [Preview]): in every interleaving who is let in
      presented a token that was issued to somebody who gave or chose the
      password, setup is claimed once, a change of the password ends the other
      sessions but one of a login that overlaps it, a preview forwards only
      ports that were opened, and the routes of the API need a token.
    - Commands ([Builtin]): whatever the interleaving of its two streams, a
      command's call ends and shows the start and the end of what was received,
      which is all of it or eight megabytes; a huge timeout is none at all.
    - Asking ([Asking]): in every interleaving a question is answered once at
      most and by an answer it accepts, whoever waits can be answered, and once
      the runs have ended every call ends.
    [Scenario] has the concrete environments on which witnesses evaluate.

    ** Bounds and fuel

    A run takes fuel for its turns and rounds; [run_terminates] gives an amount
    that is enough. The loop of a model call has fuel 4 and [call_returns]
    shows that it never runs out. Scanners have the length of their input as
    fuel. Integers are 64 bits wide where the code's sums can reach the width;
    token counts and lengths, which cannot, are mathematical integers.

    ** What is not modelled

    HTTP, processes, terminals, file watches, Docker, and git; the HTTP
    transports of MCP and its authorization; the SDK behind the OpenAI adapter; SQL other than
    what the statements on the modelled tables mean; the HTTP services of web
    search; the image codecs and cryptography of the standard library; the
    decoding of requests and the encoding of answers. They are parameters of
    the model where a modelled part relies on them. *)

From Stdlib Require Export ZArith Lia Bool.
From stdpp Require Export base tactics list strings gmap pretty.
From stdpp Require Import options.

Open Scope Z_scope.
Declare Scope eika_scope.
Delimit Scope eika_scope with eika.
Open Scope eika_scope.

(** ** Machine integers *)

(** Go's [int] and [time.Duration] are 64-bit two's complement. *)
Definition wrap64 (z : Z) : Z := (z + 2 ^ 63) mod 2 ^ 64 - 2 ^ 63.

Lemma wrap64_small z : - 2 ^ 63 <= z < 2 ^ 63 -> wrap64 z = z.
Proof. intros H. unfold wrap64. rewrite Z.mod_small; lia. Qed.

Lemma wrap64_range z : - 2 ^ 63 <= wrap64 z < 2 ^ 63.
Proof.
  unfold wrap64.
  pose proof (Z.mod_pos_bound (z + 2 ^ 63) (2 ^ 64) ltac:(lia)). lia.
Qed.

(** ** Sums and folds over lists of sizes *)

Definition sumZ (l : list Z) : Z := foldr Z.add 0 l.

Lemma sumZ_app l k : sumZ (l ++ k) = sumZ l + sumZ k.
Proof. induction l as [|x l IH]; simpl; [done|]. unfold sumZ in *. simpl. lia. Qed.

Lemma sumZ_nonneg l : Forall (fun x => 0 <= x) l -> 0 <= sumZ l.
Proof. induction 1; unfold sumZ in *; simpl; lia. Qed.

(** ** Lists *)

Lemma last_snoc_cases {A} (l : list A) : l = [] \/ exists k x, l = k ++ [x].
Proof.
  induction l as [|x l IH] using rev_ind; [by left|right; eauto].
Qed.

Lemma drop_S_lookup {A} (l : list A) n x :
  l !! n = Some x -> drop n l = x :: drop (S n) l.
Proof.
  intros H. rewrite (drop_S l x n H). done.
Qed.

Lemma take_drop_app {A} (l : list A) n : take n l ++ drop n l = l.
Proof. apply take_drop. Qed.

Lemma filter_head {A} (P : A -> Prop) `{forall x, Decision (P x)} l x k :
  base.filter P l = x :: k -> P x /\ x ∈ l.
Proof.
  intros E. apply (list_elem_of_filter P l x). rewrite E. apply elem_of_cons. by left.
Qed.

(** Removing the first occurrence of an element, as [slices.Delete] at the
    position [slices.Index] finds. *)
Fixpoint remove_first `{EqDecision A} (x : A) (l : list A) : list A :=
  match l with
  | [] => []
  | y :: l' => if decide (x = y) then l' else y :: remove_first x l'
  end.

Lemma remove_first_head `{EqDecision A} (x : A) l : remove_first x (x :: l) = l.
Proof. simpl. by rewrite decide_True. Qed.

Lemma remove_first_not_in `{EqDecision A} (x : A) l : x ∉ l -> remove_first x l = l.
Proof.
  induction l as [|y l IH]; [done|]. intros H. apply not_elem_of_cons in H as [H1 H2].
  simpl. rewrite decide_False by done. by rewrite IH.
Qed.

Lemma remove_first_Permutation `{EqDecision A} (x : A) l :
  x ∈ l -> l ≡ₚ x :: remove_first x l.
Proof.
  induction l as [|y l IH]; [by intros ?%not_elem_of_nil|].
  intros [->|H]%elem_of_cons; simpl.
  - by rewrite decide_True.
  - case_decide as E; [by subst|]. rewrite (IH H) at 1. apply Permutation_swap.
Qed.

(** Sub-multiset of lists, with the laws [remove_first] obeys. *)
Lemma remove_first_submseteq `{EqDecision A} (x : A) l k :
  l ⊆+ k -> remove_first x l ⊆+ remove_first x k.
Proof.
  intros H. destruct (decide (x ∈ l)) as [Hl|Hl].
  - assert (Hk : x ∈ k) by (by eapply elem_of_submseteq).
    rewrite (remove_first_Permutation x l Hl), (remove_first_Permutation x k Hk) in H.
    by apply (submseteq_app_inv_l _ _ [x]) in H.
  - rewrite (remove_first_not_in x l Hl).
    destruct (decide (x ∈ k)) as [Hk|Hk]; [|by rewrite (remove_first_not_in x k Hk)].
    rewrite (remove_first_Permutation x k Hk) in H.
    apply submseteq_cons_r in H as [?|(l' & Hl' & _)]; [done|].
    exfalso. apply Hl. rewrite Hl'. apply elem_of_cons. by left.
Qed.

(** ** Programs over a state that can fail

    A program gives what it returns or fails with, and the state it leaves. *)
Definition EM (S E A : Type) : Type := S -> (A + E) * S.

Section programs.
Context {S E : Type}.

Definition ret {A} (a : A) : EM S E A := fun s => (inl a, s).
Definition fails {A} (e : E) : EM S E A := fun s => (inr e, s).
#[export] Instance EM_bind : MBind (EM S E) := fun A B (k : A -> EM S E B) (m : EM S E A) s =>
  match m s with (inl a, s') => k a s' | (inr e, s') => (inr e, s') end.
(** What a program returns or fails with, as a value. *)
Definition attempt {A} (m : EM S E A) : EM S E (A + E) := fun s => let '(r, s') := m s in (inl r, s').
Definition lift {A} (r : A + E) : EM S E A := match r with inl a => ret a | inr e => fails e end.
Definition look {A} (f : S -> A) : EM S E A := fun s => (inl (f s), s).
Definition update (f : S -> S) : EM S E unit := fun s => (inl tt, f s).

(** From the states of [P], the answer and the state it leaves are of [Q]. *)
Definition triple {A} (P : S -> Prop) (m : EM S E A) (Q : A + E -> S -> Prop) : Prop :=
  forall s r s', m s = (r, s') -> P s -> Q r s'.

Lemma triple_bind {A B} P (m : EM S E A) (k : A -> EM S E B) R Q :
  triple P m R -> (forall a, triple (R (inl a)) (k a) Q) -> (forall e s, R (inr e) s -> Q (inr e) s) -> triple P (m ≫= k) Q.
Proof.
  intros Hm Hk He s r s' E' HP. unfold mbind, EM_bind in E'. destruct (m s) as [[a|e] s1] eqn:Em.
  - exact (Hk a s1 r s' E' (Hm _ _ _ Em HP)).
  - injection E' as <- <-. apply He. exact (Hm _ _ _ Em HP).
Qed.

Lemma triple_conseq {A} (P P' : S -> Prop) (m : EM S E A) (Q Q' : A + E -> S -> Prop) :
  triple P' m Q' -> (forall s, P s -> P' s) -> (forall r s, Q' r s -> Q r s) -> triple P m Q.
Proof. intros Hm HP HQ s r s' E' Hs. apply HQ. exact (Hm _ _ _ E' (HP _ Hs)). Qed.

Lemma triple_ret {A} (a : A) (P : S -> Prop) Q : (forall s, P s -> Q (inl a) s) -> triple P (ret a) Q.
Proof. intros HQ s r s' [= <- <-]. apply HQ. Qed.

Lemma triple_fails {A} e (P : S -> Prop) (Q : A + E -> S -> Prop) :
  (forall s, P s -> Q (inr e) s) -> triple P (fails e) Q.
Proof. intros HQ s r s' [= <- <-]. apply HQ. Qed.

Lemma triple_attempt {A} P (m : EM S E A) (Q : (A + E) + E -> S -> Prop) :
  triple P m (fun r => Q (inl r)) -> triple P (attempt m) Q.
Proof. intros Hm s r s' E' HP. unfold attempt in E'. destruct (m s) as [r' s1] eqn:Em. injection E' as <- <-. exact (Hm _ _ _ Em HP). Qed.

Lemma triple_if {A} (b : bool) P (m n : EM S E A) Q :
  (b = true -> triple P m Q) -> (b = false -> triple P n Q) -> triple P (if b then m else n) Q.
Proof. destruct b; auto. Qed.

Lemma triple_and {A} (P : S -> Prop) (fact : Prop) (m : EM S E A) Q :
  (fact -> triple P m Q) -> triple (fun s => P s /\ fact) m Q.
Proof. intros Hm s r s' E' [HP Hf]. by eapply Hm. Qed.

Lemma triple_look {A} (f : S -> A) (P : S -> Prop) Q : (forall s, P s -> Q (inl (f s)) s) -> triple P (look f) Q.
Proof. intros HQ s r s' [= <- <-]. apply HQ. Qed.

Lemma triple_update f (P : S -> Prop) Q : (forall s, P s -> Q (inl tt) (f s)) -> triple P (update f) Q.
Proof. intros HQ s r s' [= <- <-]. apply HQ. Qed.

Lemma triple_lift {A} (x : A + E) (P : S -> Prop) Q : (forall s, P s -> Q x s) -> triple P (lift x) Q.
Proof. destruct x; [apply triple_ret|apply triple_fails]. Qed.

(** A program that leaves only states related to the one it began in. *)
Definition keeps {A} (R : relation S) (m : EM S E A) : Prop := forall s r s', m s = (r, s') -> R s s'.

Lemma keeps_ret {A} R `{!Reflexive R} (a : A) : keeps R (ret a).
Proof. by intros s r s' [= <- <-]. Qed.
Lemma keeps_fails {A} R `{!Reflexive R} e : keeps R (fails e : EM S E A).
Proof. by intros s r s' [= <- <-]. Qed.
Lemma keeps_look {A} R `{!Reflexive R} (f : S -> A) : keeps R (look f).
Proof. by intros s r s' [= <- <-]. Qed.
Lemma keeps_lift {A} R `{!Reflexive R} (x : A + E) : keeps R (lift x).
Proof. destruct x; [by apply keeps_ret|by apply keeps_fails]. Qed.
Lemma keeps_update R f : (forall s, R s (f s)) -> keeps R (update f).
Proof. intros Hf s r s' [= <- <-]. apply Hf. Qed.
Lemma keeps_attempt {A} R (m : EM S E A) : keeps R m -> keeps R (attempt m).
Proof. intros Hm s r s' E'. unfold attempt in E'. destruct (m s) as [r' s1] eqn:Em. injection E' as <- <-. by eapply Hm. Qed.
Lemma keeps_bind {A B} R `{!Transitive R} (m : EM S E A) (k : A -> EM S E B) : keeps R m -> (forall a, keeps R (k a)) -> keeps R (m ≫= k).
Proof.
  intros Hm Hk s r s' E'. unfold mbind, EM_bind in E'. destruct (m s) as [[a|e] s1] eqn:Em.
  - etrans; [by eapply Hm|by eapply Hk].
  - injection E' as <- <-. by eapply Hm.
Qed.
Lemma keeps_if {A} R (b : bool) (m n : EM S E A) : keeps R m -> keeps R n -> keeps R (if b then m else n).
Proof. by destruct b. Qed.
Lemma keeps_triple {A} R (m : EM S E A) s0 : keeps R m -> Transitive R -> triple (R s0) m (fun _ => R s0).
Proof. intros Hm HR s r s' E' Hs. etrans; [exact Hs|by eapply Hm]. Qed.

(** A program that runs whatever the state. *)
Lemma triple_any {A} (P : S -> Prop) (m : EM S E A) : triple P m (fun _ _ => True).
Proof. by intros s r s'. Qed.
End programs.

(** ** Automation shared by the components *)

Create HintDb eika.
Create Rewrite HintDb eika.

(** Split on the boolean tests and matches of the goal, simplifying. *)
Ltac go_cases :=
  repeat (case_match; simplify_eq/=; try done).

(** Turn boolean comparisons of the hypotheses into propositions for [lia]. *)
Ltac bool_lia :=
  repeat match goal with
  | H : (_ <? _)%Z = true |- _ => apply Z.ltb_lt in H
  | H : (_ <? _)%Z = false |- _ => apply Z.ltb_ge in H
  | H : (_ <=? _)%Z = true |- _ => apply Z.leb_le in H
  | H : (_ <=? _)%Z = false |- _ => apply Z.leb_gt in H
  | H : (_ =? _)%Z = true |- _ => apply Z.eqb_eq in H
  | H : (_ =? _)%Z = false |- _ => apply Z.eqb_neq in H
  | H : (_ <? _)%nat = true |- _ => apply Nat.ltb_lt in H
  | H : (_ <? _)%nat = false |- _ => apply Nat.ltb_ge in H
  | H : (_ <=? _)%nat = true |- _ => apply Nat.leb_le in H
  | H : (_ <=? _)%nat = false |- _ => apply Nat.leb_gt in H
  | H : (_ =? _)%nat = true |- _ => apply Nat.eqb_eq in H
  | H : (_ =? _)%nat = false |- _ => apply Nat.eqb_neq in H
  | H : (_ && _)%bool = true |- _ => apply andb_true_iff in H as [? ?]
  | H : (_ || _)%bool = false |- _ => apply orb_false_iff in H as [? ?]
  | H : negb _ = true |- _ => apply negb_true_iff in H
  | H : negb _ = false |- _ => apply negb_false_iff in H
  end; try lia.
