(* ===== verification/GoStr.v ===== *)
(** Go strings: the functions of Go's [strings], [strconv], and
    [unicode/utf8] packages the program calls, on byte strings. A Go string is
    a sequence of bytes, which is what [string] is here. *)
From S2P Require Import Prelude.
From stdpp Require Import options.

(** ** Bytes *)

Definition byte_of (a : Ascii.ascii) : Z := Z.of_N (Ascii.N_of_ascii a).

Definition of_byte (z : Z) : Ascii.ascii := Ascii.ascii_of_N (Z.to_N z).

Fixpoint bytes_of (s : string) : list Z :=
  match s with
  | EmptyString => []
  | String a s' => byte_of a :: bytes_of s'
  end.

Definition of_bytes (l : list Z) : string :=
  foldr (fun z s => String (of_byte z) s) EmptyString l.

Definition chr (z : Z) : string := String (of_byte z) EmptyString.

(** A double quote, a newline, and two newlines. *)
Definition dq : string := chr 34.
Definition nl : string := chr 10.
Definition nl2 : string := nl +:+ nl.

Definition str_len (s : string) : Z := Z.of_nat (String.length s).

(** ** package strings *)

Fixpoint str_drop (n : nat) (s : string) : string :=
  match n, s with
  | O, _ => s
  | S n', EmptyString => EmptyString
  | S n', String _ s' => str_drop n' s'
  end.

Fixpoint str_take (n : nat) (s : string) : string :=
  match n, s with
  | O, _ => EmptyString
  | S n', EmptyString => EmptyString
  | S n', String a s' => String a (str_take n' s')
  end.

Definition has_prefix (s p : string) : bool := String.prefix p s.

Definition has_suffix (s p : string) : bool :=
  (String.length p <=? String.length s)%nat &&
  String.eqb (str_drop (String.length s - String.length p) s) p.

Definition trim_prefix (s p : string) : string :=
  if has_prefix s p then str_drop (String.length p) s else s.

Definition trim_suffix (s p : string) : string :=
  if has_suffix s p then str_take (String.length s - String.length p) s else s.

(** [strings.Join elems sep]. *)
Definition join (elems : list string) (sep : string) : string :=
  String.concat sep elems.

(** [strings.Split s sep] for a one-byte separator. *)
Fixpoint split_go (c : Ascii.ascii) (acc s : string) : list string :=
  match s with
  | EmptyString => [acc]
  | String a s' =>
      if Ascii.eqb a c then acc :: split_go c EmptyString s'
      else split_go c (acc +:+ String a EmptyString) s'
  end.

Definition split (s : string) (c : Ascii.ascii) : list string := split_go c EmptyString s.

(** [strconv.Itoa]. *)
Definition itoa (z : Z) : string := pretty z.

(** [strconv.Atoi]: an optional sign and decimal digits that fit 64 bits. *)
Fixpoint atoi_digits (acc : Z) (l : list Z) : option Z :=
  match l with
  | [] => Some acc
  | b :: l' => if (48 <=? b) && (b <=? 57) then atoi_digits (acc * 10 + (b - 48)) l' else None
  end.
Definition atoi_unsigned (l : list Z) : option Z := match l with [] => None | _ => atoi_digits 0 l end.
Definition Atoi (s : string) : option Z :=
  v ← match bytes_of s with
      | 45 :: l => Z.opp <$> atoi_unsigned l
      | 43 :: l => atoi_unsigned l
      | l => atoi_unsigned l
      end;
  if (- 2 ^ 63 <=? v) && (v <? 2 ^ 63) then Some v else None.

(** ** package unicode/utf8 *)

Definition rune_error : Z := 65533.

Definition cont (b : Z) : bool := (128 <=? b) && (b <=? 191).

(** One decoded character: its code point and the bytes it took. *)
Record seg := Seg { seg_rune : Z; seg_bytes : list Z; seg_ok : bool }.

Definition bad_seg (b : Z) : seg := Seg rune_error [b] false.

(** [utf8.DecodeRune]. An invalid encoding is one byte wide. *)
Definition decode_rune (b0 : Z) (l : list Z) : seg :=
  if b0 <? 128 then Seg b0 [b0] true else
  if (194 <=? b0) && (b0 <=? 223) then
    match l with
    | b1 :: _ => if cont b1 then Seg ((b0 - 192) * 64 + (b1 - 128)) [b0; b1] true else bad_seg b0
    | _ => bad_seg b0
    end
  else if (224 <=? b0) && (b0 <=? 239) then
    match l with
    | b1 :: b2 :: _ =>
        let lo := if b0 =? 224 then 160 else 128 in
        let hi := if b0 =? 237 then 159 else 191 in
        if (lo <=? b1) && (b1 <=? hi) && cont b2
        then Seg ((b0 - 224) * 4096 + (b1 - 128) * 64 + (b2 - 128)) [b0; b1; b2] true
        else bad_seg b0
    | _ => bad_seg b0
    end
  else if (240 <=? b0) && (b0 <=? 244) then
    match l with
    | b1 :: b2 :: b3 :: _ =>
        let lo := if b0 =? 240 then 144 else 128 in
        let hi := if b0 =? 244 then 143 else 191 in
        if (lo <=? b1) && (b1 <=? hi) && cont b2 && cont b3
        then Seg ((b0 - 240) * 262144 + (b1 - 128) * 4096 + (b2 - 128) * 64 + (b3 - 128))
                 [b0; b1; b2; b3] true
        else bad_seg b0
    | _ => bad_seg b0
    end
  else bad_seg b0.

(** A string cut into characters, as [range] over it does. *)
Fixpoint segs_go (fuel : nat) (l : list Z) : list seg :=
  match fuel, l with
  | S fuel', b0 :: l' =>
      let s := decode_rune b0 l' in
      s :: segs_go fuel' (drop (length (seg_bytes s)) l)
  | _, _ => []
  end.

Definition segs (l : list Z) : list seg := segs_go (length l) l.

(** [[]rune(s)]. *)
Definition runes (s : string) : list Z := map seg_rune (segs (bytes_of s)).

(** [utf8.AppendRune]: surrogates and values out of range encode as U+FFFD. *)
Definition encode_rune (r : Z) : list Z :=
  let r := if (r <? 0) || (1114111 <? r) || ((55296 <=? r) && (r <=? 57343))
           then rune_error else r in
  if r <? 128 then [r]
  else if r <? 2048 then [192 + r / 64; 128 + r mod 64]
  else if r <? 65536 then [224 + r / 4096; 128 + (r / 64) mod 64; 128 + r mod 64]
  else [240 + r / 262144; 128 + (r / 4096) mod 64; 128 + (r / 64) mod 64; 128 + r mod 64].

(** [string(runes)]. *)
Definition string_of_runes (l : list Z) : string := of_bytes (concat (map encode_rune l)).

(** [unicode.IsSpace]. *)
Definition is_space (r : Z) : bool :=
  ((9 <=? r) && (r <=? 13)) || (r =? 32) || (r =? 133) || (r =? 160) ||
  (r =? 5760) || ((8192 <=? r) && (r <=? 8202)) || (r =? 8232) || (r =? 8233) ||
  (r =? 8239) || (r =? 8287) || (r =? 12288).

Fixpoint drop_spaces (l : list seg) : list seg :=
  match l with
  | s :: l' => if is_space (seg_rune s) then drop_spaces l' else l
  | [] => []
  end.

(** [strings.TrimSpace]. *)
Definition trim_space (s : string) : string :=
  of_bytes (concat (map seg_bytes (rev (drop_spaces (rev (drop_spaces (segs (bytes_of s)))))))).

(** [strings.TrimRight s c] for a one-byte cutset. *)
Fixpoint drop_byte (c : Z) (l : list Z) : list Z :=
  match l with
  | b :: l' => if b =? c then drop_byte c l' else l
  | [] => []
  end.

Definition trim_right (s : string) (c : Z) : string :=
  of_bytes (rev (drop_byte c (rev (bytes_of s)))).

(** [strings.ToLower] on ASCII bytes. *)
Definition lower_byte (b : Z) : Z := if (65 <=? b) && (b <=? 90) then b + 32 else b.

(** The position just after the first occurrence of [sub] in [s]. *)
Fixpoint find_after (fuel : nat) (s sub : string) : option string :=
  if String.prefix sub s then Some (str_drop (String.length sub) s)
  else match fuel, s with
       | S fuel', String _ s' => find_after fuel' s' sub
       | _, _ => None
       end.

(** The [%q] verb of package fmt. A character outside ASCII that decodes is
    taken to be printable. *)
Definition hex_lower (n : Z) : Z := if n <? 10 then 48 + n else 87 + n.

Definition go_quote_seg (s : seg) : list Z :=
  let r := seg_rune s in
  if negb (seg_ok s) then
    concat (map (fun b => [92; 120; hex_lower (b / 16); hex_lower (b mod 16)]) (seg_bytes s))
  else if (r =? 34) || (r =? 92) then [92; r]
  else if r =? 7 then [92; 97] else if r =? 8 then [92; 98]
  else if r =? 9 then [92; 116] else if r =? 10 then [92; 110]
  else if r =? 11 then [92; 118] else if r =? 12 then [92; 102]
  else if r =? 13 then [92; 114]
  else if (r <? 32) || (r =? 127) then [92; 120; hex_lower (r / 16); hex_lower (r mod 16)]
  else seg_bytes s.

Definition go_quote (s : string) : string :=
  of_bytes (34 :: concat (map go_quote_seg (segs (bytes_of s))) ++ [34]).

(** ** Laws *)

Lemma str_app_cons a s t : String a s +:+ t = String a (s +:+ t).
Proof. done. Qed.

Lemma str_app_nil t : EmptyString +:+ t = t.
Proof. done. Qed.

Lemma byte_of_range a : 0 <= byte_of a < 256.
Proof.
  unfold byte_of. pose proof (Ascii.N_ascii_bounded a). lia.
Qed.

Lemma of_byte_of a : of_byte (byte_of a) = a.
Proof. unfold of_byte, byte_of. rewrite N2Z.id. apply Ascii.ascii_N_embedding. Qed.

Lemma byte_of_of_byte z : 0 <= z < 256 -> byte_of (of_byte z) = z.
Proof.
  intros H. unfold of_byte, byte_of. rewrite Ascii.N_ascii_embedding by lia. lia.
Qed.

Lemma of_bytes_of s : of_bytes (bytes_of s) = s.
Proof. induction s as [|a s IH]; [done|]. simpl. rewrite of_byte_of. f_equal. exact IH. Qed.

Lemma bytes_of_bytes l : Forall (fun z => 0 <= z < 256) l -> bytes_of (of_bytes l) = l.
Proof.
  induction 1 as [|z l Hz Hl IH]; [done|]. simpl. rewrite byte_of_of_byte by done. by f_equal.
Qed.

Lemma bytes_of_range s : Forall (fun z => 0 <= z < 256) (bytes_of s).
Proof. induction s as [|a s IH]; constructor; [apply byte_of_range|exact IH]. Qed.

Lemma bytes_of_app s t : bytes_of (s +:+ t) = bytes_of s ++ bytes_of t.
Proof. induction s as [|a s IH]; [done|]. rewrite str_app_cons. simpl. by rewrite <- IH. Qed.

Lemma bytes_of_inj s t : bytes_of s = bytes_of t -> s = t.
Proof. intros H. by rewrite <- (of_bytes_of s), <- (of_bytes_of t), H. Qed.

Lemma length_bytes_of s : length (bytes_of s) = String.length s.
Proof. induction s as [|a s IH]; simpl; congruence. Qed.

Lemma str_app_empty_r s : s +:+ EmptyString = s.
Proof. induction s as [|a s IH]; [done|]. rewrite ?str_app_cons. simpl. by rewrite IH. Qed.

Lemma str_app_assoc (s t u : string) : s +:+ (t +:+ u) = (s +:+ t) +:+ u.
Proof. apply bytes_of_inj. rewrite !bytes_of_app. apply app_assoc. Qed.

Lemma str_length_app s t : String.length (s +:+ t) = (String.length s + String.length t)%nat.
Proof. induction s as [|a s IH]; [done|]. rewrite ?str_app_cons. simpl. by rewrite IH. Qed.

Lemma str_len_nonneg s : 0 <= str_len s.
Proof. unfold str_len. lia. Qed.

Lemma prefix_app p s : String.prefix p (p +:+ s) = true.
Proof.
  induction p as [|a p IH]; [by destruct s|]. rewrite str_app_cons. simpl.
  destruct (Ascii.ascii_dec a a); [exact IH|done].
Qed.

Lemma str_drop_app p s : str_drop (String.length p) (p +:+ s) = s.
Proof. induction p as [|a p IH]; [done|]. rewrite str_app_cons. exact IH. Qed.

Lemma str_take_app p s : str_take (String.length p) (p +:+ s) = p.
Proof. induction p as [|a p IH]; [by destruct s|]. rewrite str_app_cons. simpl. f_equal. exact IH. Qed.

Lemma trim_prefix_app p s : trim_prefix (p +:+ s) p = s.
Proof. unfold trim_prefix, has_prefix. by rewrite prefix_app, str_drop_app. Qed.

Lemma has_suffix_app s p : has_suffix (s +:+ p) p = true.
Proof.
  unfold has_suffix. rewrite str_length_app.
  replace (_ + _ - _)%nat with (String.length s) by lia.
  rewrite str_drop_app, String.eqb_refl. apply andb_true_iff; split; [|done].
  apply Nat.leb_le. lia.
Qed.

Lemma trim_suffix_app s p : trim_suffix (s +:+ p) p = s.
Proof.
  unfold trim_suffix. rewrite has_suffix_app, str_length_app.
  replace (_ + _ - _)%nat with (String.length s) by lia. apply str_take_app.
Qed.

(** ** Base64 *)

(** The character of six bits, in the standard alphabet or the URL one. *)
Definition b64_char (url : bool) (n : Z) : Z :=
  if n <? 26 then 65 + n else if n <? 52 then 71 + n else if n <? 62 then n - 4
  else if n =? 62 then (if url then 45 else 43) else (if url then 95 else 47).
Definition b64_value (url : bool) (c : Z) : option Z :=
  if (65 <=? c) && (c <=? 90) then Some (c - 65)
  else if (97 <=? c) && (c <=? 122) then Some (c - 71)
  else if (48 <=? c) && (c <=? 57) then Some (c + 4)
  else if c =? (if url then 45 else 43) then Some 62
  else if c =? (if url then 95 else 47) then Some 63
  else None.

(** Three bytes are four characters; [pad] is [StdPadding] or none. *)
Fixpoint b64_bytes (url pad : bool) (l : list Z) : list Z :=
  let c := b64_char url in
  match l with
  | [] => []
  | [a] => [c (a / 4); c (a mod 4 * 16)] ++ (if pad then [61; 61] else [])
  | [a; b] => [c (a / 4); c (a mod 4 * 16 + b / 16); c (b mod 16 * 4)] ++ (if pad then [61] else [])
  | a :: b :: d :: l' => c (a / 4) :: c (a mod 4 * 16 + b / 16) :: c (b mod 16 * 4 + d / 64) :: c (d mod 64) :: b64_bytes url pad l'
  end.
Definition b64_encode (url pad : bool) (s : string) : string := of_bytes (b64_bytes url pad (bytes_of s)).

(** Without padding, as [RawStdEncoding] and [RawURLEncoding] decode: line
    ends are skipped, and the bits of the last character that are left over
    are not looked at. *)
Fixpoint b64_unbytes (url : bool) (l : list Z) : option (list Z) :=
  match l with
  | [] => Some []
  | [_] => None
  | [c1; c2] => v1 ← b64_value url c1; v2 ← b64_value url c2; Some [v1 * 4 + v2 / 16]
  | [c1; c2; c3] =>
      v1 ← b64_value url c1; v2 ← b64_value url c2; v3 ← b64_value url c3;
      Some [v1 * 4 + v2 / 16; v2 mod 16 * 16 + v3 / 4]
  | c1 :: c2 :: c3 :: c4 :: l' =>
      v1 ← b64_value url c1; v2 ← b64_value url c2; v3 ← b64_value url c3; v4 ← b64_value url c4;
      r ← b64_unbytes url l';
      Some (v1 * 4 + v2 / 16 :: v2 mod 16 * 16 + v3 / 4 :: v3 mod 4 * 64 + v4 :: r)
  end.
Definition b64_decode (url : bool) (s : string) : option string :=
  of_bytes <$> b64_unbytes url (base.filter (fun b => b <> 10 /\ b <> 13) (bytes_of s)).

Lemma b64_value_char url n : 0 <= n < 64 -> b64_value url (b64_char url n) = Some n.
Proof.
  intros Hn. assert (H : Forall (fun n => b64_value url (b64_char url n) = Some n) (map Z.of_nat (seq 0 64))).
  { destruct url; apply List.Forall_forall; intros x Hx; vm_compute in Hx; repeat destruct Hx as [<-|Hx]; done. }
  rewrite List.Forall_forall in H. apply H. apply in_map_iff. exists (Z.to_nat n). split; [lia|]. apply in_seq. lia.
Qed.

Lemma b64_char_range url n : 0 <= n < 64 -> 43 <= b64_char url n <= 122.
Proof. intros Hn. unfold b64_char. repeat case_match; lia. Qed.

Lemma bytes3_ind (P : list Z -> Prop) :
  P [] -> (forall a, P [a]) -> (forall a b, P [a; b]) -> (forall a b c l, P l -> P (a :: b :: c :: l)) -> forall l, P l.
Proof. intros H0 H1 H2 H3. fix IH 1. intros [|a [|b [|c l]]]; [apply H0|apply H1|apply H2|apply H3, IH]. Qed.

Lemma b64_bytes_range url pad l : Forall (fun b => 0 <= b < 256) l -> Forall (fun c => 43 <= c <= 122) (b64_bytes url pad l).
Proof.
  induction l as [|a|a b|a b c l IH] using bytes3_ind; intros Hl; cbn [b64_bytes]; rewrite ?Forall_cons in Hl; [constructor|..].
  1,2: destruct pad; cbn [app]; repeat constructor; try lia; apply b64_char_range; Z.div_mod_to_equations; lia.
  destruct Hl as (Ha & Hb & Hc & Hl). repeat (constructor; [apply b64_char_range; Z.div_mod_to_equations; lia|]). by apply IH.
Qed.

Lemma b64_unbytes_bytes url l : Forall (fun b => 0 <= b < 256) l -> b64_unbytes url (b64_bytes url false l) = Some l.
Proof.
  induction l as [|a|a b|a b c l IH] using bytes3_ind; intros Hl; cbn [b64_bytes b64_unbytes app]; rewrite ?Forall_cons in Hl; [done|..].
  1,2: rewrite !b64_value_char by (Z.div_mod_to_equations; lia); cbn; repeat f_equal; Z.div_mod_to_equations; lia.
  destruct Hl as (Ha & Hb & Hc & Hl). rewrite !b64_value_char by (Z.div_mod_to_equations; lia). cbn. rewrite IH by done. cbn.
  repeat f_equal; Z.div_mod_to_equations; lia.
Qed.

Lemma filter_all {A} (P : A -> Prop) `{forall x, Decision (P x)} l : Forall P l -> base.filter P l = l.
Proof. induction 1 as [|x l Hx Hl IH]; [done|]. rewrite filter_cons_True by done. by rewrite IH. Qed.

Lemma b64_decode_encode url s : b64_decode url (b64_encode url false s) = Some s.
Proof.
  unfold b64_decode, b64_encode. pose proof (b64_bytes_range url false _ (bytes_of_range s)) as Hr.
  rewrite bytes_of_bytes by (eapply Forall_impl; [exact Hr|]; cbn; lia).
  rewrite filter_all by (eapply Forall_impl; [exact Hr|]; cbn; lia).
  rewrite b64_unbytes_bytes by apply bytes_of_range. cbn. f_equal. apply of_bytes_of.
Qed.

(** Padding is no character of the alphabet. *)
Lemma b64_padding url l : Forall (fun b => 0 <= b < 256) l -> base.filter (fun c => c <> 61) (b64_bytes url true l) = b64_bytes url false l.
Proof.
  assert (Hc : forall n, 0 <= n < 64 -> b64_char url n <> 61) by (intros n Hn; unfold b64_char; destruct url; repeat case_match; lia).
  induction l as [|a|a b|a b c l IH] using bytes3_ind; intros Hl; cbn [b64_bytes app]; rewrite ?Forall_cons in Hl; [done|..];
    rewrite !filter_cons_True by (apply Hc; Z.div_mod_to_equations; lia).
  1,2: by rewrite !filter_cons_False by (intros H; by apply H).
  rewrite IH by apply Hl. done.
Qed.
Lemma b64_encode_inj url s t : b64_encode url true s = b64_encode url true t -> s = t.
Proof.
  intros H. apply (f_equal bytes_of) in H. unfold b64_encode in H.
  assert (Hr : forall x, bytes_of (of_bytes (b64_bytes url true (bytes_of x))) = b64_bytes url true (bytes_of x)).
  { intros x. apply bytes_of_bytes. eapply Forall_impl; [apply b64_bytes_range, bytes_of_range|]. cbn. lia. }
  rewrite !Hr in H. apply (f_equal (base.filter (fun c => c <> 61))) in H. rewrite !b64_padding in H by apply bytes_of_range.
  apply (f_equal (b64_unbytes url)) in H. rewrite !b64_unbytes_bytes in H by apply bytes_of_range. injection H as H. by apply bytes_of_inj.
Qed.

(** ** Text without white space *)

Lemma segs_ascii l : Forall (fun b => b < 128) l -> segs l = map (fun b => Seg b [b] true) l.
Proof.
  unfold segs. induction 1 as [|b l Hb _ IH]; [done|]. cbn [length segs_go map]. unfold decode_rune.
  rewrite (proj2 (Z.ltb_lt b 128)) by done. cbn [seg_bytes length drop]. f_equal. exact IH.
Qed.
Lemma drop_no_spaces l : Forall (fun g => is_space (seg_rune g) = false) l -> drop_spaces l = l.
Proof. destruct 1 as [|g l Hg _]; [done|]. cbn. by rewrite Hg. Qed.
Lemma trim_space_plain s : Forall (fun b => b < 128 /\ is_space b = false) (bytes_of s) -> trim_space s = s.
Proof.
  intros Hs. unfold trim_space. rewrite segs_ascii by (eapply Forall_impl; [exact Hs|by intros b []]).
  assert (Hg : Forall (fun g => is_space (seg_rune g) = false) (map (fun b => Seg b [b] true) (bytes_of s))).
  { apply Forall_fmap. eapply Forall_impl; [exact Hs|by intros b []]. }
  rewrite (drop_no_spaces _ Hg), drop_no_spaces, rev_involutive by (by apply Forall_rev).
  rewrite map_map. rewrite <- (of_bytes_of s) at 2. f_equal. clear. by induction (bytes_of s) as [|b l IH]; [|cbn; f_equal; exact IH].
Qed.

(** Decimal digits. *)
Lemma pretty_N_char_digit n : (n < 10)%N -> 48 <= byte_of (pretty.pretty_N_char n) <= 57.
Proof.
  intros Hn. assert (H : forallb (fun k => let b := byte_of (pretty.pretty_N_char (N.of_nat k)) in (48 <=? b) && (b <=? 57)) (seq 0 10) = true)
    by by vm_compute.
  rewrite forallb_forall in H. specialize (H (N.to_nat n)). rewrite N2Nat.id in H. cbv zeta in H. apply andb_true_iff in H; [lia|]. apply in_seq. lia.
Qed.
Lemma pretty_N_go_digits n s : Forall (fun b => 48 <= b <= 57) (bytes_of s) -> Forall (fun b => 48 <= b <= 57) (bytes_of (pretty.pretty_N_go n s)).
Proof.
  revert s. induction (N.lt_wf_0 n) as [n _ IH]; intros s Hs. destruct (decide (n = 0%N)) as [->|Hn]; [done|].
  rewrite pretty.pretty_N_go_step by lia. apply IH; [apply N.div_lt; lia|]. cbn. constructor; [|done].
  apply pretty_N_char_digit, N.mod_lt. lia.
Qed.
Lemma itoa_digits z : 0 <= z -> Forall (fun b => 48 <= b <= 57) (bytes_of (itoa z)).
Proof.
  intros Hz. destruct z as [|p|p]; [|change (itoa (Z.pos p)) with (pretty (N.pos p))|lia].
  - apply Forall_singleton. vm_compute. split; discriminate.
  - unfold pretty, pretty.pretty_N. case_decide; [done|]. by apply pretty_N_go_digits.
Qed.

(** ** Splitting and joining *)

Lemma split_go_acc c acc s :
  exists h t, split s c = h :: t /\ split_go c acc s = (acc +:+ h) :: t.
Proof.
  unfold split. revert acc. induction s as [|a s IH]; intros acc.
  - exists EmptyString, []. cbn. by rewrite str_app_empty_r.
  - cbn [split_go]. destruct (Ascii.eqb a c) eqn:E.
    + exists EmptyString, (split_go c EmptyString s). by rewrite str_app_empty_r.
    + destruct (IH (EmptyString +:+ String a EmptyString)) as (h1 & t1 & E1 & ->).
      destruct (IH (acc +:+ String a EmptyString)) as (h2 & t2 & E2 & ->).
      rewrite E1 in E2. injection E2 as <- <-.
      exists ((EmptyString +:+ String a EmptyString) +:+ h1), t1. split; [done|]. by rewrite <- str_app_assoc.
Qed.

Lemma split_ne c s : split s c <> [].
Proof. destruct (split_go_acc c EmptyString s) as (h & t & -> & _). done. Qed.

Lemma split_cons c a s h t :
  a <> c -> split s c = h :: t -> split (String a s) c = String a h :: t.
Proof.
  intros Ha Hs. unfold split. cbn [split_go]. rewrite (proj2 (Ascii.eqb_neq a c) Ha).
  destruct (split_go_acc c (EmptyString +:+ String a EmptyString) s) as (h' & t' & E & ->).
  rewrite Hs in E. by injection E as <- <-.
Qed.

Lemma split_sep c s : split (String c s) c = EmptyString :: split s c.
Proof. unfold split. cbn [split_go]. by rewrite Ascii.eqb_refl. Qed.

Lemma split_app c x s : split (x +:+ String c s) c = split x c ++ split s c.
Proof.
  induction x as [|a x IH]; [by rewrite str_app_nil, split_sep|]. rewrite str_app_cons.
  destruct (decide (a = c)) as [->|Ha]; [by rewrite !split_sep, IH|].
  destruct (split_go_acc c EmptyString x) as (h & t & E & _).
  rewrite (split_cons c a x h t Ha E). apply split_cons; [done|]. by rewrite IH, E.
Qed.

Lemma join_cons h t sep : t <> [] -> join (h :: t) sep = h +:+ sep +:+ join t sep.
Proof. by destruct t. Qed.

Lemma join_split c s : join (split s c) (String c EmptyString) = s.
Proof.
  induction s as [|a s IH]; [done|]. destruct (decide (a = c)) as [->|Ha].
  - rewrite split_sep, join_cons by apply split_ne. by rewrite IH.
  - destruct (split_go_acc c EmptyString s) as (h & t & E & _). rewrite (split_cons c a s h t Ha E).
    rewrite E in IH. destruct t as [|t1 t]; [unfold join in *; simpl in *; congruence|].
    rewrite join_cons in * by done. rewrite str_app_cons. congruence.
Qed.

(** Parts in which the separator is not. *)
Definition without (c : Ascii.ascii) (s : string) : Prop := Forall (fun b => b <> byte_of c) (bytes_of s).
Lemma split_one c s : without c s -> split s c = [s].
Proof.
  induction s as [|a s IH]; intros Hs; [done|]. apply Forall_cons in Hs as [Ha Hs]. apply split_cons; [by intros ->|by apply IH].
Qed.
Lemma split_parts c l : l <> [] -> Forall (without c) l -> split (join l (String c EmptyString)) c = l.
Proof.
  intros Hne Hl. induction Hl as [|s l Hs Hl IH]; [done|]. destruct l as [|s' l]; [by apply split_one|].
  rewrite join_cons by done. change (String c EmptyString +:+ join (s' :: l) (String c EmptyString)) with (String c (join (s' :: l) (String c EmptyString))).
  rewrite split_app, split_one, IH by done. done.
Qed.

(** ** Hexadecimal *)

(** [hex.EncodeToString]. *)
Definition hex_string (l : list Z) : string :=
  of_bytes (concat (map (fun b => [hex_lower (b / 16); hex_lower (b mod 16)]) l)).

Lemma hex_lower_inj m n : 0 <= m < 16 -> 0 <= n < 16 -> hex_lower m = hex_lower n -> m = n.
Proof. unfold hex_lower. intros Hm Hn. repeat case_match; lia. Qed.
Lemma hex_string_inj l k : Forall (fun b => 0 <= b < 256) l -> Forall (fun b => 0 <= b < 256) k -> hex_string l = hex_string k -> l = k.
Proof.
  intros Hl Hk He. unfold hex_string in He. apply (f_equal bytes_of) in He.
  assert (Hr : forall x, Forall (fun b => 0 <= b < 256) x -> Forall (fun z => 0 <= z < 256) (concat (map (fun b => [hex_lower (b / 16); hex_lower (b mod 16)]) x))).
  { induction 1 as [|b x Hb Hx IH]; [constructor|]. cbn. repeat constructor; try done; unfold hex_lower; case_match; Z.div_mod_to_equations; lia. }
  rewrite !bytes_of_bytes in He by (by apply Hr). clear Hr. revert k Hk He. induction Hl as [|b l Hb Hl IH]; intros [|d k] Hk He; [done..|].
  apply Forall_cons in Hk as [Hd Hk]. cbn in He. injection He as H1 H2 H3. f_equal; [|by apply IH].
  apply hex_lower_inj in H1; [|Z.div_mod_to_equations; lia..]. apply hex_lower_inj in H2; [|Z.div_mod_to_equations; lia..].
  Z.div_mod_to_equations; lia.
Qed.
