(* ===== verification/Float64.v ===== *)
(** Go's [float64]: IEEE-754 binary64 arithmetic and its text as
    [encoding/json] writes it, executable on the Standard Library's
    specification floats. *)
From Stdlib Require Import SpecFloat.
From S2P Require Import Prelude GoStr.
From stdpp Require Import options.

Definition float64 : Set := spec_float.

Definition f64_of_Z (z : Z) : float64 := binary_normalize 53 1024 z 0 false.
Definition f64_mul (x y : float64) : float64 := SFmul 53 1024 x y.
Definition f64_div (x y : float64) : float64 := SFdiv 53 1024 x y.
Definition f64_leb (x y : float64) : bool := SFleb x y.
Definition f64_ltb (x y : float64) : bool := SFltb x y.
Definition f64_zero : float64 := S754_zero false.

(** The double nearest to the decimal [m * 10^-d]. *)
Definition f64_lit (m : Z) (d : Z) : float64 := f64_div (f64_of_Z m) (f64_of_Z (10 ^ d)).

(** [f == 0], for either zero. *)
Definition f64_is_zero (x : float64) : bool := SFeqb x f64_zero.

(** [f > 0]; false for NaN. *)
Definition f64_pos (x : float64) : bool := f64_ltb f64_zero x.

#[export] Instance float64_eq_dec : EqDecision float64.
Proof. unfold EqDecision, Decision. repeat decide equality. Defined.

(** ** Text

    The shortest decimal that reads back as the number, as
    [strconv.FormatFloat(f, fmt, -1, 64)] finds it, in the format
    [encoding/json] chooses by magnitude. *)
Section text.
(** A positive rational, as numerator and denominator. *)
Local Definition scaled2 (m e : Z) : Z * Z :=
  if 0 <=? e then (m * 2 ^ e, 1) else (m, 2 ^ (- e)).

Local Definition times10 (q : Z * Z) (k : Z) : Z * Z :=
  if 0 <=? k then (q.1 * 10 ^ k, q.2) else (q.1, q.2 * 10 ^ (- k)).

Local Definition rle (a b : Z * Z) : bool := a.1 * b.2 <=? b.1 * a.2.
Local Definition rlt (a b : Z * Z) : bool := a.1 * b.2 <? b.1 * a.2.

(** The decimal exponent [k] with [10^(k-1) <= x < 10^k]. *)
Fixpoint dec_exp (fuel : nat) (x : Z * Z) (k : Z) : Z :=
  match fuel with
  | O => k
  | S fuel' =>
      if rlt x (times10 (1, 1) (k - 1)) then dec_exp fuel' x (k - 1)
      else if rle (times10 (1, 1) k) x then dec_exp fuel' x (k + 1)
      else k
  end.

(** The digits and decimal exponent of the shortest decimal in the rounding
    interval of [m * 2^e], trying [p] digits, then more. *)
Fixpoint shortest (fuel : nat) (x lo hi : Z * Z) (incl : bool) (k p : Z) : Z * Z :=
  match fuel with
  | O => (0, 0)
  | S fuel' =>
      let y := times10 x (p - k) in
      let d := y.1 / y.2 in
      let inside c := let v := times10 (c, 1) (k - p) in
                      if incl then rle lo v && rle v hi else rlt lo v && rlt v hi in
      let near_up := 2 * d * y.2 + y.2 <? 2 * y.1 in
      let first := if near_up then d + 1 else d in
      let second := if near_up then d else d + 1 in
      if inside first then (first, k - p)
      else if inside second then (second, k - p)
      else shortest fuel' x lo hi incl k (p + 1)
  end.

Fixpoint strip_zeros (fuel : nat) (d e : Z) : Z * Z :=
  match fuel with
  | O => (d, e)
  | S fuel' => if (d mod 10 =? 0) && (0 <? d) then strip_zeros fuel' (d / 10) (e + 1) else (d, e)
  end.

Definition f64_digits (m : positive) (e : Z) : Z * Z :=
  let m := Z.pos m in
  let x := scaled2 m e in
  let lo := if (m =? 2 ^ 52) && (-1074 <? e) then scaled2 (4 * m - 1) (e - 2)
            else scaled2 (2 * m - 1) (e - 1) in
  let hi := scaled2 (2 * m + 1) (e - 1) in
  let k := dec_exp 10 x ((Z.log2 m + e) * 30103 / 100000 + 1) in
  let '(d, t) := shortest 18 x lo hi (Z.even m) k 1 in
  strip_zeros 20 d t.

Local Definition zeros (n : Z) : string := of_bytes (repeat 48 (Z.to_nat n)).

(** [json.Marshal] of a [float64]: [None] for NaN and infinities, which it
    refuses. *)
Definition f64_text (x : float64) : option string :=
  match x with
  | S754_zero false => Some (chr 48)
  | S754_zero true => Some (chr 45 +:+ chr 48)
  | S754_finite s m e =>
      let '(d, t) := f64_digits m e in
      let ds := itoa d in
      let n := Z.of_nat (String.length ds) in
      let sign := if s then chr 45 else EmptyString in
      let abs := S754_finite false m e in
      if f64_ltb abs (f64_lit 1 6) || f64_leb (f64_of_Z (10 ^ 21)) abs then
        let ex := n + t - 1 in
        let frac := str_drop 1 ds in
        let mant := str_take 1 ds +:+
                    (if String.eqb frac EmptyString then EmptyString else chr 46 +:+ frac) in
        let exs := if ex <? 0 then chr 45 +:+ itoa (- ex)
                   else chr 43 +:+ (if ex <? 10 then chr 48 else EmptyString) +:+ itoa ex in
        Some (sign +:+ mant +:+ chr 101 +:+ exs)
      else if 0 <=? t then Some (sign +:+ ds +:+ zeros t)
      else if 0 <? n + t then
        Some (sign +:+ str_take (Z.to_nat (n + t)) ds +:+ chr 46 +:+ str_drop (Z.to_nat (n + t)) ds)
      else Some (sign +:+ chr 48 +:+ chr 46 +:+ zeros (- (n + t)) +:+ ds)
  | _ => None
  end.
End text.

Example f64_text_tenth : f64_text (f64_lit 1 1) = Some "0.1"%string.
Proof. vm_compute. reflexivity. Qed.

Example f64_text_large : f64_text (f64_of_Z (3 * 10 ^ 22)) = Some "3e+22"%string.
Proof. vm_compute. reflexivity. Qed.

Example f64_text_frac : f64_text (f64_lit 123456 3) = Some "123.456"%string.
Proof. vm_compute. reflexivity. Qed.

Example f64_text_int : f64_text (f64_of_Z 1500) = Some "1500"%string.
Proof. vm_compute. reflexivity. Qed.

(** ** Subtraction and conversion to [int] *)

Definition f64_sub (x y : float64) : float64 := SFsub 53 1024 x y.

(** [int(x)] truncates; what does not fit is the least integer, as the
    hardware Go compiles for on amd64 gives. *)
Definition f64_to_int (x : float64) : Z :=
  match x with
  | S754_zero _ => 0
  | S754_finite s m e =>
      let z := (if 0 <=? e then Z.pos m * 2 ^ e else Z.pos m / 2 ^ (- e)) in
      let z := if s then - z else z in
      if (- 2 ^ 63 <=? z) && (z <? 2 ^ 63) then z else - 2 ^ 63
  | _ => - 2 ^ 63
  end.

Example f64_to_int_truncates : (f64_to_int (f64_lit 129 1), f64_to_int (f64_lit (-129) 1)) = (12, -12).
Proof. vm_compute. reflexivity. Qed.
