(* ===== verification/Json.v ===== *)
(** Go's [encoding/json] on text: quoting a string, validating a document,
    and compacting one, as [json.Marshal], [json.Valid], and the encoder's
    treatment of a [json.RawMessage] do it. *)
From S2P Require Import Prelude GoStr.
From stdpp Require Import options.

(** ** Quoting *)

Definition hex_digit (n : Z) : Z := if n <? 10 then 48 + n else 87 + n.

(** The [\u00XX] escape of a byte. *)
Definition u_escape (b : Z) : list Z := [92; 117; 48; 48; hex_digit (b / 16); hex_digit (b mod 16)].

(** One character inside a JSON string, with HTML escaping on. *)
Definition quote_seg (s : seg) : list Z :=
  let r := seg_rune s in
  if negb (seg_ok s) then [92; 117; 102; 102; 102; 100]
  else if (r =? 34) || (r =? 92) then [92; r]
  else if r =? 8 then [92; 98]
  else if r =? 12 then [92; 102]
  else if r =? 10 then [92; 110]
  else if r =? 13 then [92; 114]
  else if r =? 9 then [92; 116]
  else if (r <? 32) || (r =? 60) || (r =? 62) || (r =? 38) then u_escape r
  else if (r =? 8232) || (r =? 8233) then [92; 117; 50; 48; 50; hex_digit (r - 8224)]
  else seg_bytes s.

Definition quote_bytes (l : list Z) : list Z :=
  34 :: concat (map quote_seg (segs l)) ++ [34].

(** [json.Marshal] of a string. *)
Definition quote (s : string) : string := of_bytes (quote_bytes (bytes_of s)).

(** ** Scanning *)

Definition is_ws (b : Z) : bool := (b =? 32) || (b =? 9) || (b =? 10) || (b =? 13).
Definition is_digit (b : Z) : bool := (48 <=? b) && (b <=? 57).
Definition is_hex (b : Z) : bool :=
  is_digit b || ((97 <=? b) && (b <=? 102)) || ((65 <=? b) && (b <=? 70)).

Fixpoint skip_ws (l : list Z) : list Z :=
  match l with
  | b :: l' => if is_ws b then skip_ws l' else l
  | [] => []
  end.

Fixpoint take_digits (l : list Z) : list Z * list Z :=
  match l with
  | b :: l' => if is_digit b then let '(d, r) := take_digits l' in (b :: d, r) else ([], l)
  | [] => ([], [])
  end.

(** A number's integer part: [0], or digits that do not start with [0]. *)
Definition scan_int (l : list Z) : option (list Z * list Z) :=
  match l with
  | b :: l' =>
      if b =? 48 then Some ([48], l')
      else if is_digit b then Some (take_digits l) else None
  | [] => None
  end.

Definition scan_frac (l : list Z) : option (list Z * list Z) :=
  match l with
  | b :: l' =>
      if b =? 46 then
        match take_digits l' with
        | ([], _) => None
        | (d, r) => Some (46 :: d, r)
        end
      else Some ([], l)
  | [] => Some ([], [])
  end.

Definition scan_exp (l : list Z) : option (list Z * list Z) :=
  match l with
  | b :: l' =>
      if (b =? 101) || (b =? 69) then
        let '(sign, l2) := match l' with
                           | c :: l2 => if (c =? 43) || (c =? 45) then ([c], l2) else ([], l')
                           | [] => ([], [])
                           end in
        match take_digits l2 with
        | ([], _) => None
        | (d, r) => Some (b :: sign ++ d, r)
        end
      else Some ([], l)
  | [] => Some ([], [])
  end.

Definition scan_number (l : list Z) : option (list Z * list Z) :=
  let '(sign, l1) := match l with
                     | b :: l' => if b =? 45 then ([45], l') else ([], l)
                     | [] => ([], [])
                     end in
  '(i, l2) ← scan_int l1;
  '(f, l3) ← scan_frac l2;
  '(e, l4) ← scan_exp l3;
  Some (sign ++ i ++ f ++ e, l4).

(** A string after its opening quote, up to and with its closing one,
    compacted; with [esc], HTML characters are escaped. *)
Fixpoint scan_string (esc : bool) (fuel : nat) (l : list Z) : option (list Z * list Z) :=
  match fuel, l with
  | S fuel', b :: l' =>
      if b =? 34 then Some ([34], l')
      else if b <? 32 then None
      else if b =? 92 then
        match l' with
        | c :: l2 =>
            if c =? 117 then
              match l2 with
              | h1 :: h2 :: h3 :: h4 :: l3 =>
                  if is_hex h1 && is_hex h2 && is_hex h3 && is_hex h4 then
                    '(o, r) ← scan_string esc fuel' l3; Some ([92; 117; h1; h2; h3; h4] ++ o, r)
                  else None
              | _ => None
              end
            else if (c =? 34) || (c =? 92) || (c =? 47) || (c =? 98) || (c =? 102) ||
                    (c =? 110) || (c =? 114) || (c =? 116) then
              '(o, r) ← scan_string esc fuel' l2; Some ([92; c] ++ o, r)
            else None
        | [] => None
        end
      else if esc && ((b =? 60) || (b =? 62) || (b =? 38)) then
        '(o, r) ← scan_string esc fuel' l'; Some (u_escape b ++ o, r)
      else
        match l with
        | 226 :: 128 :: c :: l3 =>
            if esc && ((c =? 168) || (c =? 169)) then
              '(o, r) ← scan_string esc fuel' l3;
              Some ([92; 117; 50; 48; 50; hex_digit (c - 160)] ++ o, r)
            else '(o, r) ← scan_string esc fuel' l'; Some (b :: o, r)
        | _ => '(o, r) ← scan_string esc fuel' l'; Some (b :: o, r)
        end
  | _, _ => None
  end.

Fixpoint scan_lit (w l : list Z) : option (list Z) :=
  match w, l with
  | [], _ => Some l
  | c :: w', b :: l' => if c =? b then scan_lit w' l' else None
  | _, [] => None
  end.

(** The deepest nesting Go's scanner accepts. *)
Definition max_nesting : Z := 10000.

(** A value at nesting [depth], compacted, and what follows it. *)
Fixpoint scan_value (esc : bool) (fuel : nat) (depth : Z) (l : list Z) {struct fuel} : option (list Z * list Z) :=
  match fuel with
  | O => None
  | S fuel' =>
      match skip_ws l with
      | [] => None
      | b :: l' =>
          if b =? 34 then '(o, r) ← scan_string esc (S (length l')) l'; Some (34 :: o, r)
          else if b =? 123 then
            if max_nesting <? depth + 1 then None else
            match skip_ws l' with
            | 125 :: r => Some ([123; 125], r)
            | _ => '(o, r) ← scan_members esc fuel' (depth + 1) l'; Some (123 :: o, r)
            end
          else if b =? 91 then
            if max_nesting <? depth + 1 then None else
            match skip_ws l' with
            | 93 :: r => Some ([91; 93], r)
            | _ => '(o, r) ← scan_elements esc fuel' (depth + 1) l'; Some (91 :: o, r)
            end
          else if b =? 116 then r ← scan_lit [114; 117; 101] l'; Some ([116; 114; 117; 101], r)
          else if b =? 102 then
            r ← scan_lit [97; 108; 115; 101] l'; Some ([102; 97; 108; 115; 101], r)
          else if b =? 110 then r ← scan_lit [117; 108; 108] l'; Some ([110; 117; 108; 108], r)
          else scan_number (b :: l')
      end
  end
with scan_members (esc : bool) (fuel : nat) (depth : Z) (l : list Z) {struct fuel} : option (list Z * list Z) :=
  match fuel with
  | O => None
  | S fuel' =>
      match skip_ws l with
      | 34 :: l1 =>
          '(k, l2) ← scan_string esc (S (length l1)) l1;
          match skip_ws l2 with
          | 58 :: l3 =>
              '(v, l4) ← scan_value esc fuel' depth l3;
              match skip_ws l4 with
              | 44 :: l5 => '(o, r) ← scan_members esc fuel' depth l5; Some (34 :: k ++ 58 :: v ++ 44 :: o, r)
              | 125 :: r => Some (34 :: k ++ 58 :: v ++ [125], r)
              | _ => None
              end
          | _ => None
          end
      | _ => None
      end
  end
with scan_elements (esc : bool) (fuel : nat) (depth : Z) (l : list Z) {struct fuel} : option (list Z * list Z) :=
  match fuel with
  | O => None
  | S fuel' =>
      '(v, l1) ← scan_value esc fuel' depth l;
      match skip_ws l1 with
      | 44 :: l2 => '(o, r) ← scan_elements esc fuel' depth l2; Some (v ++ 44 :: o, r)
      | 93 :: r => Some (v ++ [93], r)
      | _ => None
      end
  end.

(** The whole document [s], compacted, or [None] when it is not JSON. Every
    level of the scan consumes a byte, so the length bounds the fuel. *)
Definition compact (s : string) : option string :=
  let l := bytes_of s in
  '(o, r) ← scan_value true (S (2 * length l)) 0 l;
  match skip_ws r with
  | [] => Some (of_bytes o)
  | _ => None
  end.

(** [json.Valid]. *)
Definition json_valid (s : string) : bool :=
  match compact s with Some _ => true | None => false end.

(** ** Decoding strings and objects *)

Definition hex_value (b : Z) : Z :=
  if b <=? 57 then b - 48 else if b <=? 70 then b - 55 else b - 87.

Definition hex4 (h1 h2 h3 h4 : Z) : Z :=
  hex_value h1 * 4096 + hex_value h2 * 256 + hex_value h3 * 16 + hex_value h4.

Definition is_surrogate (r : Z) : bool := (55296 <=? r) && (r <=? 57343).

(** The bytes a string's content stands for: escapes decoded, and what is not
    UTF-8 replaced by U+FFFD. *)
Fixpoint unquote_go (fuel : nat) (l : list Z) : list Z :=
  match fuel, l with
  | S fuel', b :: l' =>
      if b =? 92 then
        match l' with
        | c :: l2 =>
            if c =? 117 then
              match l2 with
              | h1 :: h2 :: h3 :: h4 :: l3 =>
                  let r := hex4 h1 h2 h3 h4 in
                  if is_surrogate r then
                    match l3 with
                    | 92 :: 117 :: k1 :: k2 :: k3 :: k4 :: l4 =>
                        let r2 := hex4 k1 k2 k3 k4 in
                        if (r <=? 56319) && (56320 <=? r2) && (r2 <=? 57343)
                        then encode_rune (65536 + (r - 55296) * 1024 + (r2 - 56320)) ++ unquote_go fuel' l4
                        else encode_rune rune_error ++ unquote_go fuel' l3
                    | _ => encode_rune rune_error ++ unquote_go fuel' l3
                    end
                  else encode_rune r ++ unquote_go fuel' l3
              | _ => []
              end
            else
              let d := if c =? 98 then 8 else if c =? 102 then 12 else if c =? 110 then 10
                       else if c =? 114 then 13 else if c =? 116 then 9 else c in
              d :: unquote_go fuel' l2
        | [] => []
        end
      else
        let s := decode_rune b l' in
        (if seg_ok s then seg_bytes s else encode_rune rune_error) ++
        unquote_go fuel' (drop (length (seg_bytes s)) l)
  | _, _ => []
  end.

Definition unquote_bytes (l : list Z) : list Z := unquote_go (length l) l.

(** [json.Unmarshal] of a document that is one string. *)
Definition unquote (s : string) : option string :=
  match skip_ws (bytes_of s) with
  | 34 :: l =>
      '(o, r) ← scan_string false (S (length l)) l;
      match skip_ws r with
      | [] => Some (of_bytes (unquote_bytes (removelast o)))
      | _ => None
      end
  | _ => None
  end.

(** The members of an object in order: each key decoded, each value
    compacted as [json.Compact] does it. *)
Fixpoint scan_pairs (fuel : nat) (l : list Z) : option (list (string * string)) :=
  match fuel with
  | O => None
  | S fuel' =>
      match skip_ws l with
      | 34 :: l1 =>
          '(k, l2) ← scan_string false (S (length l1)) l1;
          match skip_ws l2 with
          | 58 :: l3 =>
              '(v, l4) ← scan_value false (S (2 * length l3)) 1 l3;
              let p := (of_bytes (unquote_bytes (removelast k)), of_bytes v) in
              match skip_ws l4 with
              | 44 :: l5 => ps ← scan_pairs fuel' l5; Some (p :: ps)
              | 125 :: _ => Some [p]
              | _ => None
              end
          | _ => None
          end
      | _ => None
      end
  end.

Definition object_pairs (s : string) : option (list (string * string)) :=
  match skip_ws (bytes_of s) with
  | 123 :: l =>
      match skip_ws l with
      | 125 :: _ => Some []
      | _ => scan_pairs (S (length l)) l
      end
  | _ => None
  end.

(** ** Objects *)

(** A member [key: value] of an encoded struct. *)
Definition member (key value : string) : string := quote key +:+ chr 58 +:+ value.

Definition obj (members : list string) : string :=
  chr 123 +:+ join members (chr 44) +:+ chr 125.

Definition arr (elems : list string) : string :=
  chr 91 +:+ join elems (chr 44) +:+ chr 93.

Definition json_bool (b : bool) : string := if b then "true" else "false".

(** A member that [omitempty] leaves out when [keep] is false. *)
Definition opt_member (keep : bool) (key value : string) : list string :=
  if keep then [member key value] else [].

Definition nonempty (s : string) : bool := negb (String.eqb s EmptyString).

(** ** Facts *)

Lemma json_valid_compact s : json_valid s = true <-> exists o, compact s = Some o.
Proof.
  unfold json_valid. destruct (compact s); split; try done.
  - eauto.
  - by intros [? ?].
Qed.

Example valid_object : json_valid (of_bytes [123; 34; 97; 34; 58; 32; 91; 49; 44; 50; 46; 53; 93; 125]) = true.
Proof. vm_compute. reflexivity. Qed.

Example invalid_truncated : json_valid (of_bytes [123; 34; 97; 34; 58]) = false.
Proof. vm_compute. reflexivity. Qed.

Example invalid_leading_zero : json_valid "012" = false.
Proof. vm_compute. reflexivity. Qed.

Example quote_newline : quote (chr 97 +:+ nl) = of_bytes [34; 97; 92; 110; 34].
Proof. vm_compute. reflexivity. Qed.

(** ** Decoding structs

    [json.Unmarshal] takes a member whatever the case of its name, and the last
    one of several. *)

(** [foldName] of a name of ASCII letters: the long s and the Kelvin sign are
    other cases of s and k. *)
Fixpoint fold_bytes (l : list Z) : list Z :=
  match l with
  | 197 :: 191 :: l' => 115 :: fold_bytes l'
  | 226 :: 132 :: 170 :: l' => 107 :: fold_bytes l'
  | b :: l' => (if (65 <=? b) && (b <=? 90) then b + 32 else b) :: fold_bytes l'
  | [] => []
  end.
Definition same_name (k k' : string) : bool := bool_decide (fold_bytes (bytes_of k) = fold_bytes (bytes_of k')).

Definition null : string := "null".
(** The values a document gives a member, in order. *)
Definition values_of (k : string) (l : list (string * string)) : list string :=
  omap (fun p => if same_name k p.1 then Some p.2 else None) l.
(** A [json.RawMessage] takes the last of them, null included; a value of
    another kind the last that is not null. *)
Definition raw_of (k : string) (l : list (string * string)) : option string := last (values_of k l).
Definition not_null (v : string) : bool := negb (String.eqb v null).
Definition value_of (k : string) (l : list (string * string)) : option string := last (List.filter not_null (values_of k l)).
(** A pointer takes the last as well, and null makes it nil again. *)
Definition pointer_of (k : string) (l : list (string * string)) : option string :=
  match raw_of k l with Some v => if not_null v then Some v else None | None => None end.

(** The members of a struct that is decoded: null has none, and what is no
    object does not decode. *)
Definition members_of (s : string) : option (list (string * string)) :=
  match compact s with
  | Some c => if String.eqb c null then Some [] else object_pairs c
  | None => None
  end.

(** Every value of the member is one that decodes. *)
Definition all_decode {T} (dec : string -> option T) (k : string) (l : list (string * string)) : bool :=
  forallb (fun v => negb (not_null v) || bool_decide (is_Some (dec v))) (values_of k l).
(** The value a struct's field gets, its zero value when there is none. *)
Definition field_of {T} (dec : string -> option T) (zero : T) (k : string) (l : list (string * string)) : option T :=
  if all_decode dec k l then Some (match value_of k l with Some v => default zero (dec v) | None => zero end) else None.

(** A number of an [int] field: no fraction, no exponent, in range. *)
Definition all_digits (l : list Z) : bool := match l with [] => false | _ => forallb is_digit l end.
Definition digits_value (l : list Z) : Z := foldl (fun a d => 10 * a + (d - 48)) 0 l.
Definition dec_integer (s : string) : option Z :=
  let '(neg, l) := match bytes_of s with 45 :: l => (true, l) | l => (false, l) end in
  if all_digits l then
    let n := if (neg : bool) then - digits_value l else digits_value l in
    if (- 2 ^ 63 <=? n) && (n <? 2 ^ 63) then Some n else None
  else None.

(** The elements of an array, each as it is spelled. *)
Fixpoint scan_items (fuel : nat) (l : list Z) : option (list string) :=
  match fuel with
  | O => None
  | S fuel' =>
      '(v, l1) ← scan_value false (S (2 * length l)) 1 l;
      match skip_ws l1 with
      | 44 :: l2 => vs ← scan_items fuel' l2; Some (of_bytes v :: vs)
      | 93 :: _ => Some [of_bytes v]
      | _ => None
      end
  end.
Definition array_items (s : string) : option (list string) :=
  match skip_ws (bytes_of s) with
  | 91 :: l => match skip_ws l with 93 :: _ => Some [] | _ => scan_items (S (length l)) l end
  | _ => None
  end.
(** An element of a list of strings that is null is the empty one. *)
Definition dec_item (s : string) : option string := if not_null s then unquote s else Some EmptyString.
Definition dec_string_list (s : string) : option (list string) := l ← array_items s; mapM dec_item l.
