(* ===== verification/Provider.v ===== *)
(** Package [provider] (internal/provider): the message and request types the
    loop and a model provider exchange, sampling parameters and how layers of
    them combine, tool-call arguments and their safe JSON form, the events of
    a response stream, and provider failures. *)
From S2P Require Import Prelude GoStr Float64 Json.
From stdpp Require Import options.

(** ** Models and efforts *)

(* @src internal/provider/provider.go 38-39 MaxReasoningEffortLen *)
Definition MaxReasoningEffortLen : Z := 32.

(** A rune of an effort: letters, digits, hyphens, and underscores. *)
Definition effort_rune (r : Z) : bool :=
  ((97 <=? r) && (r <=? 122)) || ((65 <=? r) && (r <=? 90)) ||
  ((48 <=? r) && (r <=? 57)) || (r =? 95) || (r =? 45).

(* @src internal/provider/provider.go 41-59 ValidReasoningEffort *)
Definition ValidReasoningEffort (effort : string) : bool :=
  if MaxReasoningEffortLen <? str_len effort then false
  else forallb effort_rune (runes effort).

(* @src internal/provider/provider.go 61-64 EffortNone *)
Definition EffortNone : string := "none".

(* @src internal/provider/provider.go 66-86 ThinkingSwitch *)
Definition ThinkingSwitch : Set := string.
Definition SwitchReasoningEffort : ThinkingSwitch := "reasoning_effort".
Definition SwitchTemplate : ThinkingSwitch := "chat_template_kwargs".
Definition SwitchThinking : ThinkingSwitch := "thinking".

(* @src internal/provider/provider.go 88-96 ValidThinkingSwitch *)
Definition ValidThinkingSwitch (s : ThinkingSwitch) : bool :=
  String.eqb s EmptyString || String.eqb s SwitchReasoningEffort ||
  String.eqb s SwitchTemplate || String.eqb s SwitchThinking.

(** ** Usage and timings *)

(* @src internal/provider/provider.go 317-322 Usage *)
Record Usage := mkUsage { InputTokens : Z; OutputTokens : Z; TotalTokens : Z }.

Definition zeroUsage : Usage := mkUsage 0 0 0.

#[export] Instance Usage_eq_dec : EqDecision Usage.
Proof. solve_decision. Defined.

(* @src internal/provider/provider.go 324-336 TimingSource *)
Definition TimingSource : Set := string.
Definition TimedByEndpoint : TimingSource := "endpoint".
Definition TimedByHarness : TimingSource := "harness".

(* @src internal/provider/provider.go 338-357 Timings *)
Record Timings := mkTimings {
  PromptTokens : Z;
  PromptMS : float64;
  DecodeTokens : Z;
  DecodeMS : float64;
  TSource : TimingSource;
}.

Definition zeroTimings : Timings := mkTimings 0 f64_zero 0 f64_zero EmptyString.

#[export] Instance Timings_eq_dec : EqDecision Timings.
Proof. solve_decision. Defined.

(* @src internal/provider/provider.go 359-360 Timings.HasPrompt *)
Definition HasPrompt (t : Timings) : bool := (0 <? PromptTokens t) && f64_pos (PromptMS t).

(* @src internal/provider/provider.go 362-363 Timings.HasDecode *)
Definition HasDecode (t : Timings) : bool := (0 <? DecodeTokens t) && f64_pos (DecodeMS t).

(* @src internal/provider/provider.go 365-366 Timings.Known *)
Definition Known (t : Timings) : bool := HasPrompt t || HasDecode t.

(** ** Messages *)

(* @src internal/provider/provider.go 98-109 Role *)
Definition Role : Set := string.
Definition RoleUser : Role := "user".
Definition RoleAssistant : Role := "assistant".
Definition RoleTool : Role := "tool".

(* @src internal/provider/provider.go 138-147 Image *)
Record Image := mkImage { MediaType : string; Data : string; Width : Z; Height : Z }.

#[export] Instance Image_eq_dec : EqDecision Image.
Proof. solve_decision. Defined.

(* @src internal/provider/provider.go 168-170 ToolArguments *)
Definition ToolArguments : Set := string.

(* @src internal/provider/provider.go 223-228 ToolCall *)
Record ToolCall := mkToolCall { CallID : string; CallName : string; Arguments : ToolArguments }.

#[export] Instance ToolCall_eq_dec : EqDecision ToolCall.
Proof. solve_decision. Defined.

(* @src internal/provider/provider.go 155-166 MessageMetrics *)
Record MessageMetrics := mkMetrics {
  MRunID : string;
  MUsage : Usage;
  MContext : Usage;
  GenerationMS : Z;
  MContextWindow : Z;
  MTimings : option Timings;
}.

#[export] Instance MessageMetrics_eq_dec : EqDecision MessageMetrics.
Proof. solve_decision. Defined.

(* @src internal/provider/provider.go 111-136 Message *)
Record Message := mkMessage {
  MRole : Role;
  Content : string;
  Images : list Image;
  Reasoning : string;
  ToolCalls : list ToolCall;
  ToolCallID : string;
  IsError : bool;
  Metrics : option MessageMetrics;
  Summary : bool;
}.

#[export] Instance Message_eq_dec : EqDecision Message.
Proof. solve_decision. Defined.

Definition zeroMessage : Message :=
  mkMessage EmptyString EmptyString [] EmptyString [] EmptyString false None false.

(* @src internal/provider/provider.go 149-153 Message.Empty *)
Definition Empty (m : Message) : bool :=
  String.eqb (Content m) EmptyString && (length (Images m) =? 0)%nat.

(* @src internal/provider/provider.go 266-269 UserMessage *)
Definition UserMessage (text : string) : Message :=
  mkMessage RoleUser text [] EmptyString [] EmptyString false None false.

(* @src internal/provider/provider.go 271-275 AssistantMessage *)
Definition AssistantMessage (text : string) (calls : list ToolCall) : Message :=
  mkMessage RoleAssistant text [] EmptyString calls EmptyString false None false.

(* @src internal/provider/provider.go 277-281 AssistantMessageWithReasoning *)
Definition AssistantMessageWithReasoning (text reasoning : string) (calls : list ToolCall) : Message :=
  mkMessage RoleAssistant text [] reasoning calls EmptyString false None false.

(* @src internal/provider/provider.go 283-286 ToolResultMessage *)
Definition ToolResultMessage (callID content : string) (isError : bool) : Message :=
  mkMessage RoleTool content [] EmptyString [] callID isError None false.

(** Field updates of a message value. *)
Definition with_metrics (mm : option MessageMetrics) (m : Message) : Message :=
  mkMessage (MRole m) (Content m) (Images m) (Reasoning m) (ToolCalls m) (ToolCallID m)
    (IsError m) mm (Summary m).

Definition with_reasoning (r : string) (m : Message) : Message :=
  mkMessage (MRole m) (Content m) (Images m) r (ToolCalls m) (ToolCallID m)
    (IsError m) (Metrics m) (Summary m).

Definition with_images (imgs : list Image) (m : Message) : Message :=
  mkMessage (MRole m) (Content m) imgs (Reasoning m) (ToolCalls m) (ToolCallID m)
    (IsError m) (Metrics m) (Summary m).

Definition with_content (c : string) (m : Message) : Message :=
  mkMessage (MRole m) c (Images m) (Reasoning m) (ToolCalls m) (ToolCallID m)
    (IsError m) (Metrics m) (Summary m).

Definition with_calls (cs : list ToolCall) (m : Message) : Message :=
  mkMessage (MRole m) (Content m) (Images m) (Reasoning m) cs (ToolCallID m)
    (IsError m) (Metrics m) (Summary m).

(** ** Tool-call arguments *)

(* @src internal/provider/provider.go 190-202 ToolArguments.JSON *)
Definition args_JSON (a : ToolArguments) : string * bool :=
  let raw := if String.eqb a EmptyString then chr 123 +:+ chr 125 else a in
  if json_valid raw then (raw, false) else (quote a, true).

(** ** Message JSON

    The wire form of a message: the fields in declaration order, without the
    empty ones its [omitempty] tags leave out. *)

Definition usage_json (u : Usage) : string :=
  obj [member "input_tokens" (itoa (InputTokens u));
       member "output_tokens" (itoa (OutputTokens u));
       member "total_tokens" (itoa (TotalTokens u))].

(** [None] when a duration is not a number JSON can carry. *)
Definition timings_json (t : Timings) : option string :=
  let num f k := if f64_is_zero f then Some []
                 else txt ← f64_text f; Some [member k txt] in
  p ← num (PromptMS t) "prompt_ms"%string;
  d ← num (DecodeMS t) "decode_ms"%string;
  Some (obj (opt_member (negb (PromptTokens t =? 0)) "prompt_tokens" (itoa (PromptTokens t)) ++ p ++
             opt_member (negb (DecodeTokens t =? 0)) "decode_tokens" (itoa (DecodeTokens t)) ++ d ++
             opt_member (nonempty (TSource t)) "source" (quote (TSource t)))).

Definition metrics_json (mm : MessageMetrics) : option string :=
  t ← match MTimings mm with
      | None => Some []
      | Some t => txt ← timings_json t; Some [member "timings" txt]
      end;
  Some (obj ([member "run_id" (quote (MRunID mm));
              member "usage" (usage_json (MUsage mm));
              member "context" (usage_json (MContext mm));
              member "generation_ms" (itoa (GenerationMS mm));
              member "context_window" (itoa (MContextWindow mm))] ++ t)).

(** The encoder compacts what a [MarshalJSON] method returns. *)
Definition raw_json (raw : string) : string := default raw (compact raw).

(* @src internal/provider/provider.go 230-245 ToolCall.MarshalJSON *)
Definition call_json (c : ToolCall) : string :=
  let '(arguments, malformed) := args_JSON (Arguments c) in
  obj ([member "id" (quote (CallID c));
        member "name" (quote (CallName c));
        member "arguments" (raw_json arguments)] ++
       opt_member malformed "arguments_malformed" "true").

(** Standard base64 with padding, as [encoding/json] writes a [[]byte]. *)
Definition b64_digit (n : Z) : Z :=
  if n <? 26 then 65 + n else if n <? 52 then 71 + n else if n <? 62 then n - 4
  else if n =? 62 then 43 else 47.

Fixpoint base64 (l : list Z) : list Z :=
  match l with
  | [] => []
  | [a] => [b64_digit (a / 4); b64_digit ((a mod 4) * 16); 61; 61]
  | [a; b] => [b64_digit (a / 4); b64_digit ((a mod 4) * 16 + b / 16); b64_digit ((b mod 16) * 4); 61]
  | a :: b :: c :: l' =>
      b64_digit (a / 4) :: b64_digit ((a mod 4) * 16 + b / 16) ::
      b64_digit ((b mod 16) * 4 + c / 64) :: b64_digit (c mod 64) :: base64 l'
  end.

Definition image_json (i : Image) : string :=
  obj [member "media_type" (quote (MediaType i));
       member "data" (dq +:+ of_bytes (base64 (bytes_of (Data i))) +:+ dq);
       member "width" (itoa (Width i));
       member "height" (itoa (Height i))].

(** [json.Marshal] of a message, by the tags of its fields. *)
(* @src internal/provider/provider.go 114-136 Message *)
Definition message_json (m : Message) : option string :=
  metrics ← match Metrics m with
            | None => Some []
            | Some mm => txt ← metrics_json mm; Some [member "metrics" txt]
            end;
  Some (obj ([member "role" (quote (MRole m))] ++
    opt_member (nonempty (Content m)) "content" (quote (Content m)) ++
    opt_member (0 <? length (Images m))%nat "images" (arr (map image_json (Images m))) ++
    opt_member (nonempty (Reasoning m)) "reasoning" (quote (Reasoning m)) ++
    opt_member (0 <? length (ToolCalls m))%nat "tool_calls" (arr (map call_json (ToolCalls m))) ++
    opt_member (nonempty (ToolCallID m)) "tool_call_id" (quote (ToolCallID m)) ++
    opt_member (IsError m) "is_error" "true" ++
    metrics ++
    opt_member (Summary m) "summary" "true")).

Definition is_tool (m : Message) : bool := bool_decide (MRole m = RoleTool).

(** The calls a message leaves unanswered, given the ones before it; [None]
    for a message no endpoint accepts there. *)
Definition accept (pending : list string) (m : Message) : option (list string) :=
  if is_tool m then
    if bool_decide (ToolCallID m ∈ pending) then Some (remove_first (ToolCallID m) pending) else None
  else match pending with
       | [] => Some (map CallID (ToolCalls m))
       | _ => None
       end.

Fixpoint accepts (pending : list string) (msgs : list Message) : option (list string) :=
  match msgs with
  | [] => Some pending
  | m :: msgs' => pending' ← accept pending m; accepts pending' msgs'
  end.

(** A conversation that may be sent, and continued. *)
Definition well_formed (msgs : list Message) : Prop := accepts [] msgs = Some [].

#[export] Instance well_formed_dec msgs : Decision (well_formed msgs).
Proof. unfold well_formed. apply _. Defined.

(** A message a user may add: not a tool result, and asking for no tools. *)
Definition plain (m : Message) : Prop := is_tool m = false /\ ToolCalls m = [].

#[export] Instance plain_dec m : Decision (plain m).
Proof. unfold plain. apply _. Defined.

Lemma accepts_app p l k : accepts p (l ++ k) = q ← accepts p l; accepts q k.
Proof.
  revert p. induction l as [|m l IH]; intros p; [done|]. cbn [accepts app].
  destruct (accept p m); [apply IH|done].
Qed.

Lemma well_formed_app l k : well_formed l -> well_formed k -> well_formed (l ++ k).
Proof. unfold well_formed. intros H1 H2. by rewrite accepts_app, H1. Qed.

Lemma accept_plain m : plain m -> accept [] m = Some [].
Proof. intros [H1 H2]. unfold accept. by rewrite H1, H2. Qed.

Lemma well_formed_plain l : Forall plain l -> well_formed l.
Proof.
  unfold well_formed. induction 1 as [|m l Hm Hl IH]; [done|].
  cbn [accepts]. by rewrite (accept_plain m Hm).
Qed.

Lemma well_formed_app_plain l k : well_formed l -> Forall plain k -> well_formed (l ++ k).
Proof. intros. apply well_formed_app; [done|by apply well_formed_plain]. Qed.

(** A conversation can be cut before any message but a tool result: both
    parts are well formed. *)
Lemma accepts_cut l m k r :
  is_tool m = false -> accepts [] (l ++ m :: k) = Some r ->
  accepts [] l = Some [] /\ accepts [] (m :: k) = Some r.
Proof.
  intros Hm H. rewrite accepts_app in H. destruct (accepts [] l) as [q|]; [|done].
  simpl in H. unfold accept in H at 1. rewrite Hm in H.
  destruct q as [|x q]; [|done]. simpl. unfold accept at 1. rewrite Hm. done.
Qed.

Lemma well_formed_cut l i m :
  well_formed l -> l !! i = Some m -> is_tool m = false ->
  well_formed (take i l) /\ well_formed (drop i l).
Proof.
  intros Hw Hi Hm. rewrite <- (take_drop i l) in Hw at 1.
  rewrite (drop_S_lookup l i m Hi) in Hw |- *. by apply (accepts_cut _ m).
Qed.

Lemma well_formed_head m l : well_formed (m :: l) -> is_tool m = false.
Proof.
  unfold well_formed. cbn [accepts]. unfold accept. destruct (is_tool m); [|done].
  case_bool_decide as E; [by apply elem_of_nil in E|done].
Qed.

(** Only the roles, the calls, and the call ids matter. *)
Lemma accepts_map (f : Message -> Message) p l :
  (forall m, MRole (f m) = MRole m) -> (forall m, ToolCalls (f m) = ToolCalls m) ->
  (forall m, ToolCallID (f m) = ToolCallID m) ->
  accepts p (map f l) = accepts p l.
Proof.
  intros H1 H2 H3. revert p. induction l as [|m l IH]; intros p; [done|]. cbn [accepts map].
  unfold accept, is_tool. rewrite H1, H2, H3.
  match goal with |- _ = ?o ≫= _ => by destruct o; [apply IH|] end.
Qed.

(** Answering the calls of an assistant message one by one, in order, ends
    with none pending. *)
Lemma accepts_results (ids : list string) (rs : list Message) :
  Forall2 (fun id r => is_tool r = true /\ ToolCallID r = id) ids rs ->
  accepts ids rs = Some [].
Proof.
  induction 1 as [|id r ids rs [Hr Hid] Hf IH]; [done|]. cbn [accepts]. unfold accept.
  rewrite Hr, Hid, bool_decide_eq_true_2 by (apply elem_of_cons; by left).
  rewrite remove_first_head. exact IH.
Qed.

#[export] Hint Resolve well_formed_app_plain well_formed_plain : eika.
