(* ===== verification/Sampling.v ===== *)
(** Sampling parameters (internal/provider/sampling.go): how a layer of
    configuration combines with a lower one, and the bounds a request
    accepts; and the request a provider receives. *)
From S2P Require Import Prelude GoStr Float64 Json Provider.
From stdpp Require Import options.

(* @src internal/provider/sampling.go 11-12 MaxStopSequences *)
Definition MaxStopSequences : Z := 16.
(* @src internal/provider/sampling.go 13-15 MaxStopSequenceLen *)
Definition MaxStopSequenceLen : Z := 256.

(** A nil pointer is [None]; a nil [Stop] is [None], and an empty list that is
    set is [Some []]. *)
(* @src internal/provider/sampling.go 18-53 Sampling *)
Record Sampling := mkSampling {
  Temperature : option float64;
  TopP : option float64;
  TopK : option Z;
  MinP : option float64;
  FrequencyPenalty : option float64;
  PresencePenalty : option float64;
  Seed : option Z;
  Stop : option (list string);
  MaxOutput : option Z;
  ReasoningEffort : option string;
}.

Definition zeroSampling : Sampling := mkSampling None None None None None None None None None None.

#[export] Instance Sampling_eq_dec : EqDecision Sampling.
Proof. solve_decision. Defined.

(* @src internal/provider/sampling.go 78-89 layer *)
Definition layer {T : Type} (upper lower : option T) : option T :=
  let from := match upper with Some _ => upper | None => lower end in
  match from with
  | None => None
  | Some v => Some v
  end.

(* @src internal/provider/sampling.go 55-76 Sampling.Over *)
Definition Over (s lower : Sampling) : Sampling :=
  let stop := match Stop s with Some l => Some l | None => Stop lower end in
  mkSampling (layer (Temperature s) (Temperature lower))
    (layer (TopP s) (TopP lower))
    (layer (TopK s) (TopK lower))
    (layer (MinP s) (MinP lower))
    (layer (FrequencyPenalty s) (FrequencyPenalty lower))
    (layer (PresencePenalty s) (PresencePenalty lower))
    (layer (Seed s) (Seed lower))
    stop
    (layer (MaxOutput s) (MaxOutput lower))
    (layer (ReasoningEffort s) (ReasoningEffort lower)).

(* @src internal/provider/sampling.go 124-128 within *)
Definition within (v : option float64) (lo hi : Z) : bool :=
  match v with
  | None => true
  | Some x => f64_leb (f64_of_Z lo) x && f64_leb x (f64_of_Z hi)
  end.

(** The first parameter no endpoint accepts, by its message. *)
(* @src internal/provider/sampling.go 91-122 Sampling.Validate *)
Definition Validate (s : Sampling) : option string :=
  if negb (within (Temperature s) 0 2) then Some "temperature must be from 0 to 2" else
  if negb (within (TopP s) 0 1) then Some "top_p must be from 0 to 1" else
  if match TopK s with Some k => k <? 1 | None => false end
  then Some "top_k must be at least 1" else
  if negb (within (MinP s) 0 1) then Some "min_p must be from 0 to 1" else
  if negb (within (FrequencyPenalty s) (-2) 2)
  then Some "frequency_penalty must be from -2 to 2" else
  if negb (within (PresencePenalty s) (-2) 2)
  then Some "presence_penalty must be from -2 to 2" else
  if MaxStopSequences <? Z.of_nat (length (default [] (Stop s)))
  then Some ("stop holds at most " +:+ itoa MaxStopSequences +:+ " sequences") else
  if match MaxOutput s with Some k => k <? 1 | None => false end
  then Some "max_output must be at least 1 token" else
  if match ReasoningEffort s with Some e => negb (ValidReasoningEffort e) | None => false end
  then Some ("reasoning_effort " +:+ go_quote (default EmptyString (ReasoningEffort s)) +:+
             " must be at most " +:+ itoa MaxReasoningEffortLen +:+
             " letters, digits, hyphens, or underscores") else
  if existsb (fun seq => String.eqb seq EmptyString || (MaxStopSequenceLen <? str_len seq))
             (default [] (Stop s))
  then Some ("stop sequences must each be 1 to " +:+ itoa MaxStopSequenceLen +:+ " bytes")
  else None.

(** ** Requests *)

(* @src internal/provider/provider.go 288-294 ToolDef *)
Record ToolDef := mkToolDef { DefName : string; DefDescription : string; DefSchema : string }.

(* @src internal/provider/provider.go 296-315 Request *)
Record Request := mkRequest {
  RModel : string;
  RSystem : string;
  RMessages : list Message;
  RTools : list ToolDef;
  RSampling : Sampling;
  RThinkingSwitch : ThinkingSwitch;
  RPreserveThinking : bool;
}.

(** ** Layering laws *)

Section layering.
Context {T : Type}.
Implicit Types a b c : option T.

Lemma layer_assoc a b c : layer (layer a b) c = layer a (layer b c).
Proof. by destruct a, b, c. Qed.

Lemma layer_None_l b : layer None b = b.
Proof. by destruct b. Qed.

Lemma layer_None_r a : layer a None = a.
Proof. by destruct a. Qed.

Lemma layer_cases a b : layer a b = a \/ (a = None /\ layer a b = b).
Proof. destruct a; [by left|right; by destruct b]. Qed.
End layering.

(** ** The acceptance predicate, field by field *)

(** A declarative reading of [Validate]: every parameter that is set is in
    its range. *)
Record acceptable (s : Sampling) : Prop := {
  acc_temperature : within (Temperature s) 0 2 = true;
  acc_top_p : within (TopP s) 0 1 = true;
  acc_top_k : forall k, TopK s = Some k -> 1 <= k;
  acc_min_p : within (MinP s) 0 1 = true;
  acc_frequency : within (FrequencyPenalty s) (-2) 2 = true;
  acc_presence : within (PresencePenalty s) (-2) 2 = true;
  acc_stop : forall l, Stop s = Some l ->
    Z.of_nat (length l) <= MaxStopSequences /\
    Forall (fun q => 1 <= str_len q <= MaxStopSequenceLen) l;
  acc_max_output : forall k, MaxOutput s = Some k -> 1 <= k;
  acc_effort : forall e, ReasoningEffort s = Some e -> ValidReasoningEffort e = true;
}.

Lemma seq_bad_false l :
  existsb (fun seq => String.eqb seq EmptyString || (MaxStopSequenceLen <? str_len seq)) l = false <->
  Forall (fun q => 1 <= str_len q <= MaxStopSequenceLen) l.
Proof.
  induction l as [|q l IH]; [by split|]. cbn [existsb].
  rewrite orb_false_iff, IH, Forall_cons, orb_false_iff, Z.ltb_ge.
  enough (String.eqb q EmptyString = false <-> 1 <= str_len q) by tauto.
  destruct q as [|a q]; [by split|]. unfold str_len. simpl. split; [lia|done].
Qed.

(** [Validate] accepts exactly the acceptable parameters. *)
Lemma Validate_None s : Validate s = None <-> acceptable s.
Proof.
  unfold Validate. split.
  - intros H. repeat (case_match; simplify_eq/=); bool_lia;
      (split; intros; simplify_eq/=; try done; try lia);
      repeat match goal with H : Stop _ = _ |- _ => rewrite H in * end; simplify_eq/=; bool_lia;
      try (split; [lia|]; by apply seq_bad_false).
    all: repeat match goal with H : ?a = Some _, H' : ?a = _ |- _ => rewrite H in H'; simplify_eq end;
      bool_lia; done.
  - intros [H1 H2 H3 H4 H5 H6 H7 H8 H9]. rewrite H1, H2, H4, H5, H6. cbn [negb].
    replace (match TopK s with Some k => k <? 1 | None => false end) with false
      by (destruct (TopK s) as [k|]; [|done]; symmetry; apply Z.ltb_ge; by apply H3).
    replace (match MaxOutput s with Some k => k <? 1 | None => false end) with false
      by (destruct (MaxOutput s) as [k|]; [|done]; symmetry; apply Z.ltb_ge; by apply H8).
    replace (match ReasoningEffort s with
             | Some e => negb (ValidReasoningEffort e) | None => false end) with false
      by (destruct (ReasoningEffort s) as [e|]; [|done]; by rewrite (H9 e)).
    destruct (Stop s) as [l|]; [|done]. destruct (H7 l eq_refl) as [Hn Hl]. cbn [default from_option id].
    replace (MaxStopSequences <? _) with false by (symmetry; apply Z.ltb_ge; exact Hn).
    by rewrite (proj2 (seq_bad_false l) Hl).
Qed.
