(* ===== verification/Regex.v ===== *)
(** Regular expressions on bytes, matched by derivatives: the fragment of
    Go's [regexp] the program's patterns use, with the case-insensitive flag
    and unanchored search. *)
From S2P Require Import Prelude GoStr.
From stdpp Require Import options.

Inductive re : Type :=
| RNone
| REps
| RByte (p : Z -> bool)
| RCat (r s : re)
| RAlt (r s : re)
| RStar (r : re).

(** What a regular expression matches, as a relation. *)
Inductive matches : re -> list Z -> Prop :=
| m_eps : matches REps []
| m_byte p b : p b = true -> matches (RByte p) [b]
| m_cat r s l k : matches r l -> matches s k -> matches (RCat r s) (l ++ k)
| m_alt_l r s l : matches r l -> matches (RAlt r s) l
| m_alt_r r s l : matches s l -> matches (RAlt r s) l
| m_star_nil r : matches (RStar r) []
| m_star_app r l k : matches r l -> matches (RStar r) k -> matches (RStar r) (l ++ k).

Fixpoint nullable (r : re) : bool :=
  match r with
  | RNone | RByte _ => false
  | REps | RStar _ => true
  | RCat r s => nullable r && nullable s
  | RAlt r s => nullable r || nullable s
  end.

(** Concatenation and choice that drop the cases that cannot match, so that
    derivatives stay small. *)
Definition cat (r s : re) : re :=
  match r with
  | RNone => RNone
  | REps => s
  | _ => RCat r s
  end.

Definition alt (r s : re) : re :=
  match r, s with
  | RNone, _ => s
  | _, RNone => r
  | _, _ => RAlt r s
  end.

Fixpoint deriv (b : Z) (r : re) : re :=
  match r with
  | RNone | REps => RNone
  | RByte p => if p b then REps else RNone
  | RCat r s => if nullable r then alt (cat (deriv b r) s) (deriv b s) else cat (deriv b r) s
  | RAlt r s => alt (deriv b r) (deriv b s)
  | RStar r' => cat (deriv b r') (RStar r')
  end.

(** Whether a prefix of [l] matches. *)
Fixpoint match_prefix (r : re) (l : list Z) : bool :=
  nullable r ||
  match l with
  | [] => false
  | b :: l' => match_prefix (deriv b r) l'
  end.

(** [Regexp.MatchString]: some substring matches. *)
Fixpoint search (r : re) (l : list Z) : bool :=
  match_prefix r l ||
  match l with
  | [] => false
  | _ :: l' => search r l'
  end.

(** ** Building patterns *)

(** One ASCII character under [(?i)]. Unicode folding adds the Kelvin sign
    for k and the long s for s. *)
Definition fold_char (b : Z) : re :=
  let b := lower_byte b in
  let base := RByte (fun c => lower_byte c =? b) in
  if b =? 107 then RAlt base (RCat (RByte (Z.eqb 226)) (RCat (RByte (Z.eqb 132)) (RByte (Z.eqb 170))))
  else if b =? 115 then RAlt base (RCat (RByte (Z.eqb 197)) (RByte (Z.eqb 191)))
  else base.

(** A literal under [(?i)]. *)
Definition lit (s : string) : re := foldr (fun b r => cat (fold_char b) r) REps (bytes_of s).

Definition opt (r : re) : re := RAlt r REps.
Definition plus (r : re) : re := RCat r (RStar r).
Definition digit : re := RByte (fun b => (48 <=? b) && (b <=? 57)).
Definition digit_or_comma : re := RByte (fun b => ((48 <=? b) && (b <=? 57)) || (b =? 44)).
Definition blank : re := RByte (fun b => (b =? 32) || ((9 <=? b) && (b <=? 10)) || ((12 <=? b) && (b <=? 13))).
Definition dot : re := RByte (fun b => negb (b =? 10)).
Definition underscore_or_space : re := RByte (fun b => (b =? 95) || (b =? 32)).
Definition seq_re (l : list re) : re := foldr RCat REps l.

(** ** Correctness of the matcher *)

Lemma nullable_correct r : nullable r = true <-> matches r [].
Proof.
  split.
  - induction r as [| |p|r IHr s IHs|r IHr s IHs|r IHr]; simpl; intros H; try done.
    + constructor.
    + apply andb_true_iff in H as [H1 H2]. apply (m_cat r s [] []); auto.
    + apply orb_true_iff in H as [H|H]; [apply m_alt_l|apply m_alt_r]; auto.
    + constructor.
  - intros H. remember [] as l eqn:E.
    induction H as [|p b Hp|r s l k H1 IH1 H2 IH2|r s l H IH|r s l H IH|r|r l k H1 IH1 H2 IH2];
      simpl; try done.
    + apply app_eq_nil in E as [-> ->]. by rewrite IH1, IH2.
    + by rewrite IH.
    + rewrite IH by done. apply orb_true_r.
Qed.

Lemma matches_none l : matches RNone l -> False.
Proof. inversion 1. Qed.

Lemma cat_matches r s l : matches (cat r s) l <-> matches (RCat r s) l.
Proof.
  destruct r; simpl; try done; split; intros H.
  - by apply matches_none in H.
  - inversion H; subst. by exfalso; eapply matches_none.
  - apply (m_cat REps s [] l); [constructor|done].
  - inversion H as [| |? ? ? ? H1 H2| | | |]; subst. by inversion H1; subst.
Qed.

Lemma alt_matches r s l : matches (alt r s) l <-> matches (RAlt r s) l.
Proof.
  assert (Hs : forall t, matches t l <-> matches (RAlt RNone t) l).
  { intros t. split; [apply m_alt_r|]. inversion 1; subst; [by exfalso; eapply matches_none|done]. }
  assert (Hr : forall t, matches t l <-> matches (RAlt t RNone) l).
  { intros t. split; [apply m_alt_l|]. inversion 1; subst; [done|by exfalso; eapply matches_none]. }
  destruct r, s; simpl; (done || apply Hs || apply Hr).
Qed.

Lemma star_cons r b l :
  matches (RStar r) (b :: l) -> exists l1 l2, l = l1 ++ l2 /\ matches r (b :: l1) /\ matches (RStar r) l2.
Proof.
  intros H. remember (RStar r) as t eqn:Et. remember (b :: l) as k eqn:Ek. revert Et Ek.
  induction H as [| | | | | |r' l1 k' H1 IH1 H2 IH2]; intros; simplify_eq.
  destruct l1 as [|b' l1]; [by apply IH2|]. simplify_eq/=. eauto.
Qed.

Lemma deriv_correct b r l : matches (deriv b r) l <-> matches r (b :: l).
Proof.
  revert l. induction r as [| |p|r IHr s IHs|r IHr s IHs|r IHr]; intros l; simpl.
  - split; intros H; by apply matches_none in H.
  - split; intros H; [by apply matches_none in H|inversion H].
  - destruct (p b) eqn:E; split; intros H.
    + inversion H; subst. by constructor.
    + inversion H; subst. constructor.
    + by apply matches_none in H.
    + inversion H; subst. congruence.
  - assert (Hcat : matches (cat (deriv b r) s) l <->
      exists l1 l2, l = l1 ++ l2 /\ matches r (b :: l1) /\ matches s l2).
    { rewrite cat_matches. split.
      - inversion 1 as [| |? ? l1 l2 H1 H2| | | |]; subst. exists l1, l2. rewrite <- IHr. done.
      - intros (l1 & l2 & -> & H1 & H2). constructor; [by apply IHr|done]. }
    assert (Hinv : matches (RCat r s) (b :: l) <->
      (exists l1 l2, l = l1 ++ l2 /\ matches r (b :: l1) /\ matches s l2) \/
      (matches r [] /\ matches s (b :: l))).
    { split.
      - inversion 1 as [| |? ? l1 l2 H1 H2 E1 E2| | | |]; subst. destruct l1 as [|b' l1].
        + right. simpl in *. by subst.
        + simplify_eq/=. left. eauto.
      - intros [(l1 & l2 & -> & H1 & H2)|[H1 H2]].
        + apply (m_cat r s (b :: l1) l2); done.
        + apply (m_cat r s [] (b :: l)); done. }
    rewrite Hinv. destruct (nullable r) eqn:En.
    + rewrite alt_matches. split.
      * inversion 1; subst; [left; by apply Hcat|right]. split; [by apply nullable_correct|by apply IHs].
      * intros [H|[_ H]]; [apply m_alt_l; by apply Hcat|apply m_alt_r; by apply IHs].
    + rewrite Hcat. split; [by left|]. intros [H|[H _]]; [done|].
      apply nullable_correct in H. congruence.
  - rewrite alt_matches. split; inversion 1; subst.
    + apply m_alt_l. by apply IHr.
    + apply m_alt_r. by apply IHs.
    + apply m_alt_l. by apply IHr.
    + apply m_alt_r. by apply IHs.
  - rewrite cat_matches. split.
    + inversion 1 as [| |? ? l1 l2 H1 H2| | | |]; subst.
      apply (m_star_app r (b :: l1) l2); [by apply IHr|done].
    + intros (l1 & l2 & -> & H1 & H2)%star_cons. constructor; [by apply IHr|done].
Qed.

Lemma match_prefix_correct r l :
  match_prefix r l = true <-> exists k s, l = k ++ s /\ matches r k.
Proof.
  revert r. induction l as [|b l IH]; intros r; simpl; rewrite orb_true_iff, nullable_correct.
  - split.
    + intros [H|?]; [|done]. by exists [], [].
    + intros (k & s & E & H). symmetry in E. apply app_eq_nil in E as [-> ->]. by left.
  - rewrite IH. split.
    + intros [H|(k & s & -> & H)]; [by exists [], (b :: l)|].
      exists (b :: k), s. split; [done|]. by apply deriv_correct.
    + intros (k & s & E & H). destruct k as [|b' k]; [by left|]. simplify_eq/=.
      right. exists k, s. split; [done|]. by apply deriv_correct.
Qed.

(** [search] finds exactly the strings with a matching substring. *)
Lemma search_correct r l :
  search r l = true <-> exists p k s, l = p ++ k ++ s /\ matches r k.
Proof.
  induction l as [|b l IH]; cbn [search]; rewrite orb_true_iff, match_prefix_correct.
  - split.
    + intros [(k & s & E & H)|?]; [|done]. exists [], k, s. done.
    + intros (p & k & s & E & H). symmetry in E. apply app_eq_nil in E as [-> E]. left. eauto.
  - split.
    + intros [(k & s & E & H)|H]; [by exists [], k, s|].
      apply IH in H as (p & k & s & -> & H). by exists (b :: p), k, s.
    + intros (p & k & s & E & H). destruct p as [|b' p]; [left; by exists k, s|].
      simplify_eq/=. right. apply IH. eauto.
Qed.
