(* ===== verification/Failure.v ===== *)
(** Failures (internal/provider/error.go and overflow.go): Go error values
    and the wrapping the program does to them, which failures ask for a retry,
    and which say that a request did not fit the model's context window. *)
From S2P Require Import Prelude GoStr Provider Regex.
From stdpp Require Import options.

(** ** Error values

    [errors.New], [fmt.Errorf] with a [%w] after a prefix or before a suffix, [errors.Join], the
    provider's own error type, a cancelled context's error, and the sentinels
    the program compares with [errors.Is]. *)
(* @src internal/provider/error.go 9-22 Error *)
Inductive GoError : Type :=
| ErrText (s : string)
| ErrWrap (prefix : string) (e : GoError)
| ErrSuffix (e : GoError) (suffix : string)
| ErrJoin (es : list GoError)
| ErrProvider (Op : string) (StatusCode : Z) (Retryable : bool) (RetryAfter : Z) (Err : GoError)
| ErrContext (s : string)
| ErrSentinel (s : string).

(* @src internal/provider/error.go 24-30 Error.Error *)
Fixpoint error_text (e : GoError) : string :=
  match e with
  | ErrText s | ErrContext s | ErrSentinel s => s
  | ErrWrap prefix e' => prefix +:+ ": " +:+ error_text e'
  | ErrSuffix e' suffix => error_text e' +:+ ": " +:+ suffix
  | ErrJoin es => join (map error_text es) nl
  | ErrProvider op status _ _ e' =>
      if status =? 0 then op +:+ ": " +:+ error_text e'
      else op +:+ ": http " +:+ itoa status +:+ ": " +:+ error_text e'
  end.

(** [errors.As] for the provider's error type: the first one of the tree, in
    preorder. *)
(* @src internal/provider/error.go 32-33 Error.Unwrap *)
Fixpoint as_provider (e : GoError) : option (bool * Z) :=
  match e with
  | ErrProvider _ _ retryable after _ => Some (retryable, after)
  | ErrWrap _ e' | ErrSuffix e' _ => as_provider e'
  | ErrJoin es =>
      (fix first (es : list GoError) : option (bool * Z) :=
         match es with
         | [] => None
         | e' :: es' => match as_provider e' with Some p => Some p | None => first es' end
         end) es
  | _ => None
  end.

(** [errors.Is] against a sentinel. *)
Fixpoint is_sentinel (s : string) (e : GoError) : bool :=
  match e with
  | ErrSentinel t => String.eqb s t
  | ErrWrap _ e' | ErrSuffix e' _ => is_sentinel s e'
  | ErrJoin es =>
      (fix any (es : list GoError) : bool :=
         match es with [] => false | e' :: es' => is_sentinel s e' || any es' end) es
  | ErrProvider _ _ _ _ e' => is_sentinel s e'
  | _ => false
  end.

(** [errors.Join]: nil arguments are dropped, and joining only nils is nil. *)
Definition errors_join (es : list (option GoError)) : option GoError :=
  match omap id es with
  | [] => None
  | l => Some (ErrJoin l)
  end.

(* @src internal/provider/error.go 35-42 Retryable *)
Definition Retryable (err : GoError) : bool :=
  match as_provider err with
  | Some (r, _) => r
  | None => false
  end.

(* @src internal/provider/error.go 44-51 RetryAfter *)
Definition RetryAfter (err : GoError) : Z :=
  match as_provider err with
  | Some (_, after) => after
  | None => 0
  end.

(** ** Context overflow *)

(* @src internal/provider/overflow.go 7-35 overflowPatterns *)
Definition overflowPatterns : list re := [
  lit "prompt is too long";
  lit "request_too_large";
  lit "input is too long for requested model";
  lit "exceeds the context window";
  seq_re [lit "exceeds "; opt (lit "the "); opt (seq_re [lit "model"; opt (lit "'"); lit "s "]);
          lit "maximum context length";
          RAlt (seq_re [lit " of "; plus digit_or_comma; lit " token"; opt (lit "s")])
               (seq_re [RStar blank; lit "("; plus digit_or_comma; lit ")"])];
  seq_re [lit "input token count"; RStar dot; lit "exceeds the maximum"];
  seq_re [lit "maximum prompt length is "; plus digit];
  lit "reduce the length of the messages";
  seq_re [lit "maximum context length is "; plus digit; lit " tokens"];
  seq_re [lit "exceeds "; opt (lit "the "); lit "maximum allowed input length of ";
          plus digit_or_comma; lit " token"; opt (lit "s")];
  seq_re [lit "input ("; plus digit; lit " tokens) is longer than the model"; opt (lit "'");
          lit "s context length ("; plus digit; lit " tokens)"];
  seq_re [lit "exceeds the limit of "; plus digit];
  lit "exceeds the available context size";
  lit "greater than the context length";
  lit "context window exceeds limit";
  lit "exceeded model token limit";
  seq_re [lit "too large for model with "; plus digit; lit " maximum context length"];
  seq_re [lit "prompt has "; plus digit_or_comma; lit " token"; opt (lit "s");
          lit ", but the configured context size is "; plus digit_or_comma; lit " token"; opt (lit "s")];
  lit "model_context_window_exceeded";
  seq_re [lit "prompt too long; exceeded "; opt (lit "max "); lit "context length"];
  lit "range of input length should be";
  seq_re [lit "context"; underscore_or_space; lit "length"; underscore_or_space; lit "exceeded"];
  lit "too many tokens";
  lit "token limit exceeded"].

(* @src internal/provider/overflow.go 37-46 notOverflowPatterns *)
Definition notOverflowPatterns : list re := [
  seq_re [RAlt (lit "Throttling error") (lit "Service unavailable"); lit ":"];
  lit "please wait";
  lit "rate limit";
  lit "too many requests"].

(* @src internal/provider/overflow.go 48-68 ContextOverflow *)
Definition ContextOverflow (err : GoError) : bool :=
  let text := bytes_of (error_text err) in
  if existsb (fun p => search p text) notOverflowPatterns then false
  else existsb (fun p => search p text) overflowPatterns.

(** White space of the regular expression [\s]. *)
Fixpoint skip_blank (s : string) : string :=
  match s with
  | String a s' =>
      let b := byte_of a in
      if (b =? 32) || ((9 <=? b) && (b <=? 10)) || ((12 <=? b) && (b <=? 13))
      then skip_blank s' else s
  | EmptyString => EmptyString
  end.

(** The block [^\s*<think>.*?</think>] with [(?s)] matches at most once, at the
    start. *)
(* @src internal/provider/overflow.go 74-78 StripReasoning *)
Definition StripReasoning (text : string) : string :=
  let t := skip_blank text in
  if has_prefix t "<think>" then
    match find_after (String.length t) (str_drop 7 t) "</think>" with
    | Some rest => rest
    | None => text
    end
  else text.

Example overflow_openai :
  ContextOverflow (ErrProvider "stream" 400 false 0
    (ErrText "This model's maximum context length is 8192 tokens")) = true.
Proof. vm_compute. reflexivity. Qed.

Example overflow_throttled :
  ContextOverflow (ErrText "Throttling error: Too many tokens, please wait") = false.
Proof. vm_compute. reflexivity. Qed.

Example strip_leading_think : StripReasoning " <think>a</think>b</think>c" = "b</think>c"%string.
Proof. vm_compute. reflexivity. Qed.
