(* ===== verification/Tool.v ===== *)
(** Package [tool] (internal/tool): the tools an agent may call, the registry
    that holds them by name, and what a call returns. What a tool does when
    it is called belongs to the tool, and is a parameter of the loop. *)
From stdpp Require Import sorting.
From S2P Require Import Prelude GoStr Provider Sampling Failure.
From stdpp Require Import options.

(** A [Tool]'s name, description, and schema, and whether it also implements
    [Standalone]. *)
(* @src internal/tool/tool.go 12-37 Tool *)
Record Tool := mkTool {
  Name : string;
  Description : string;
  Schema : string;
  Standalone : bool;
}.

#[export] Instance Tool_eq_dec : EqDecision Tool.
Proof. solve_decision. Defined.

(* @src internal/tool/tool.go 39-44 NeedsWorkspace *)
Definition NeedsWorkspace (t : Tool) : bool := negb (Standalone t).

(* @src internal/tool/tool.go 75-81 Result *)
Record Result := mkResult { ResContent : string; ResIsError : bool; ResDetails : string }.

(* @src internal/tool/tool.go 83-84 Text *)
Definition Text (content : string) : Result := mkResult content false EmptyString.

(* @src internal/tool/tool.go 86-89 Errorf *)
Definition Errorf (content : string) : Result := mkResult content true EmptyString.

(* @src internal/tool/registry.go 11-15 Registry *)
Record Registry := mkRegistry { tools : gmap string Tool }.

(** Adding a tool fails for one with no name and for a name that is taken. *)
(* @src internal/tool/registry.go 30-49 Registry.Register *)
Definition Register (r : Registry) (t : Tool) : Registry + GoError :=
  let name := Name t in
  if String.eqb name EmptyString then inr (ErrText "register tool: name is empty") else
  match tools r !! name with
  | Some _ => inr (ErrText ("register tool " +:+ name +:+ ": already registered"))
  | None => inl (mkRegistry (<[name := t]> (tools r)))
  end.

(* @src internal/tool/registry.go 17-28 NewRegistry *)
Definition NewRegistry (ts : list Tool) : Registry + GoError :=
  (fix go (r : Registry) (ts : list Tool) : Registry + GoError :=
     match ts with
     | [] => inl r
     | t :: ts' =>
         match Register r t with
         | inl r' => go r' ts'
         | inr err => inr err
         end
     end) (mkRegistry ∅) ts.

(* @src internal/tool/registry.go 51-57 Registry.Get *)
Definition Get (r : Registry) (name : string) : option Tool := tools r !! name.

(** [sort.Strings] orders by bytes. *)
Definition sorted_names (r : Registry) : list string :=
  merge_sort String.le (elements (dom (tools r))).

(* @src internal/tool/registry.go 59-73 Registry.List *)
Definition List (r : Registry) : list Tool := omap (fun n => tools r !! n) (sorted_names r).

(* @src internal/tool/registry.go 75-85 Registry.Filter *)
Definition Filter (r : Registry) (keep : Tool -> bool) : Registry :=
  mkRegistry (foldl (fun m t => if keep t then <[Name t := t]> m else m) ∅ (List r)).

(* @src internal/tool/registry.go 87-99 Registry.Schemas *)
Definition Schemas (r : Registry) : list ToolDef :=
  map (fun t => mkToolDef (Name t) (Description t) (Schema t)) (List r).

(** ** The registry's invariant *)

(** A registry files every tool under its own, non-empty name. *)
Definition registry_ok (r : Registry) : Prop :=
  forall n t, tools r !! n = Some t -> Name t = n /\ n <> EmptyString.

Lemma Register_ok r t r' : registry_ok r -> Register r t = inl r' -> registry_ok r'.
Proof.
  intros Hr H. unfold Register in H.
  destruct (String.eqb_spec (Name t) EmptyString) as [|Hne]; [done|].
  destruct (tools r !! Name t); simplify_eq. intros n t' Hn. simpl in Hn.
  rewrite lookup_insert_Some in Hn. destruct Hn as [[<- <-]|[_ Hn]]; [done|by apply Hr].
Qed.

Lemma NewRegistry_ok ts r : NewRegistry ts = inl r -> registry_ok r.
Proof.
  unfold NewRegistry. assert (H0 : registry_ok (mkRegistry ∅)) by (intros n t; simpl; by rewrite lookup_empty).
  revert H0. generalize (mkRegistry ∅). induction ts as [|t ts IH]; intros r0 H0 H; [by simplify_eq|].
  destruct (Register r0 t) eqn:E; [|done]. eapply IH, H. by eapply Register_ok.
Qed.

Lemma elem_of_List r t : registry_ok r -> t ∈ List r <-> Get r (Name t) = Some t.
Proof.
  intros Hr. unfold List, Get, sorted_names. rewrite list_elem_of_omap. split.
  - intros (n & _ & Hn). by rewrite (proj1 (Hr n t Hn)).
  - intros H. exists (Name t). split; [|done]. rewrite merge_sort_Permutation, elem_of_elements.
    apply elem_of_dom. eauto.
Qed.
