(* ===== verification/Conversation.v ===== *)
(** A session's conversation and the message queues (internal/agent:
    conversation.go and queue.go), and the events of a response. Each operation runs under its lock, so each
    is one atomic function of the state. *)
From S2P Require Import Prelude GoStr Float64 Provider Sampling Failure.
From stdpp Require Import options.

Module Conversation.

(* @src internal/agent/conversation.go 10-16 Conversation *)
Record t := mk { messages : list Message }.

(* @src internal/agent/conversation.go 18-22 NewConversation *)
Definition New (ms : list Message) : t := mk ms.

(* @src internal/agent/conversation.go 24-29 Conversation.Append *)
Definition Append (m : Message) (c : t) : t := mk (messages c ++ [m]).

(* @src internal/agent/conversation.go 31-36 Conversation.Messages *)
Definition Messages (c : t) : list Message := messages c.

(* @src internal/agent/conversation.go 38-49 Conversation.Truncate *)
Definition Truncate (n : Z) (c : t) : t :=
  let n := if n <? 0 then 0 else n in
  if n <? Z.of_nat (length (messages c)) then mk (take (Z.to_nat n) (messages c)) else c.

(* @src internal/agent/conversation.go 51-57 Conversation.Replace *)
Definition Replace (ms : list Message) (c : t) : t := mk ms.

(* @src internal/agent/conversation.go 59-64 Conversation.Len *)
Definition Len (c : t) : Z := Z.of_nat (length (messages c)).

Lemma Truncate_take n c : 0 <= n -> messages (Truncate n c) = take (Z.to_nat n) (messages c).
Proof.
  intros Hn. unfold Truncate. replace (n <? 0) with false by lia.
  destruct (n <? _) eqn:E; [done|]. bool_lia. rewrite take_ge by lia. done.
Qed.

End Conversation.

Module Queue.

(** The queue modes. *)
(* @src internal/agent/queue.go 9-19 QueueMode *)
Definition QueueMode : Set := string.
Definition QueueOneAtATime : QueueMode := "one-at-a-time".
Definition QueueAll : QueueMode := "all".

(* @src internal/agent/queue.go 21-26 queue *)
Record queue := mkQueue { messages : list Message }.

(* @src internal/agent/queue.go 28-33 queue.push *)
Definition push (msg : Message) (q : queue) : queue := mkQueue (messages q ++ [msg]).

(* @src internal/agent/queue.go 35-44 queue.unshift *)
Definition unshift (msgs : list Message) (q : queue) : queue :=
  if (length msgs =? 0)%nat then q else mkQueue (msgs ++ messages q).

(* @src internal/agent/queue.go 46-53 queue.drain *)
Definition drain (q : queue) : list Message * queue := (messages q, mkQueue []).

(* @src internal/agent/queue.go 55-68 queue.take *)
Definition take (n : Z) (q : queue) : list Message * queue :=
  if n <=? 0 then drain q else
  let n := if Z.of_nat (length (messages q)) <? n then Z.of_nat (length (messages q)) else n in
  (list.take (Z.to_nat n) (messages q), mkQueue (list.drop (Z.to_nat n) (messages q))).

(* @src internal/agent/queue.go 70-75 queue.pending *)
Definition pending (q : queue) : list Message := messages q.

(** What a queue operation takes out and what it leaves are what was there,
    in order. *)
Lemma take_split n q out q' : take n q = (out, q') -> messages q = out ++ messages q'.
Proof.
  unfold take, drain. intros H. case_match; simplify_eq/=; [by rewrite app_nil_r|].
  symmetry. apply take_drop.
Qed.

Lemma drain_split q out q' : drain q = (out, q') -> out = messages q /\ messages q' = [].
Proof. unfold drain. intros H. by simplify_eq/=. Qed.

Lemma messages_unshift msgs q : messages (unshift msgs q) = msgs ++ messages q.
Proof. unfold unshift. destruct msgs; done. Qed.

(** Giving back what [take] took restores the queue. *)
Lemma unshift_take n q out q' : take n q = (out, q') -> unshift out q' = q.
Proof.
  intros H. apply take_split in H. destruct q as [l]. simpl in H. subst l.
  destruct q' as [l']. by destruct out.
Qed.

(** A queue that gives nothing is left with nothing. *)
Lemma take_nothing n q q' : take n q = ([], q') -> messages q' = [].
Proof.
  unfold take, drain. intros H. case_match; simplify_eq/=; [done|].
  destruct (messages q) as [|m l] eqn:E; [by rewrite drop_nil|]. exfalso. bool_lia.
  case_match; bool_lia; match goal with H : list.take ?k _ = [] |- _ =>
    destruct k eqn:Ek; [|done] end; simpl in *; lia.
Qed.

Lemma take_one q m l : messages q = m :: l -> take 1 q = ([m], mkQueue l).
Proof.
  intros H. unfold take. rewrite H. cbn [length].
  destruct (Z.ltb_spec (Z.of_nat (S (length l))) 1); [lia|done].
Qed.

End Queue.

(** ** Stream events

    Each constructor carries the fields its kind sets. *)
(* @src internal/provider/provider.go 368-417 Event *)
Inductive StreamEvent : Type :=
| KindTextDelta (Text : string)
| KindReasoningDelta (ReasoningDelta : string)
| KindToolCallDelta (Index : Z) (ID Name ArgumentsDelta : string)
| KindToolCall (c : ToolCall)
| KindUsage (u : Usage) (t : Timings)
| KindDone (StopReason : string)
| KindError (Err : GoError).

(** ** What a turn has measured *)

(* @src internal/agent/response.go 14-28 generation *)
Record generation := mkGeneration {
  g_usage : Usage;
  g_elapsed : Z;
  g_context : Usage;
  g_timings : Timings;
}.

Definition zeroGeneration : generation := mkGeneration zeroUsage 0 zeroUsage zeroTimings.

Definition usage_plus (a b : Usage) : Usage :=
  mkUsage (InputTokens a + InputTokens b) (OutputTokens a + OutputTokens b)
    (TotalTokens a + TotalTokens b).

(* @src internal/agent/response.go 30-46 generation.add *)
Definition generation_add (g : generation) (u : Usage) (elapsed : Z) (t : Timings) : generation :=
  mkGeneration (usage_plus (g_usage g) u) (g_elapsed g + elapsed)
    (if bool_decide (u = zeroUsage) then g_context g else u)
    (if Known t then t else g_timings g).

(* @src internal/agent/response.go 48-56 generation.reported *)
Definition reported (g : generation) : option Timings :=
  if Known (g_timings g) then Some (g_timings g) else None.

(** [time.Duration.Microseconds] and [Milliseconds] of a count of
    nanoseconds. *)
Definition microseconds (d : Z) : Z := Z.quot d 1000.
Definition milliseconds (d : Z) : Z := Z.quot d 1000000.

(* @src internal/agent/response.go 58-70 withHarnessDecode *)
Definition withHarnessDecode (t : Timings) (u : Usage) (elapsed : Z) : Timings :=
  if HasDecode t || (OutputTokens u <? 2) || (elapsed <=? 0) then t
  else mkTimings (PromptTokens t) (PromptMS t) (OutputTokens u - 1)
         (f64_div (f64_of_Z (microseconds elapsed)) (f64_of_Z 1000)) TimedByHarness.

(** ** One response *)

(* @src internal/agent/response.go 82-88 response *)
Record response := mkResponse { r_message : Message; r_stop : string; r_usage : Usage }.

Definition zeroResponse : response := mkResponse zeroMessage EmptyString zeroUsage.

(* @src internal/agent/response.go 285-288 empty *)
Definition empty (m : Message) : bool :=
  String.eqb (Content m) EmptyString && String.eqb (Reasoning m) EmptyString &&
  (length (ToolCalls m) =? 0)%nat.

(* @src internal/agent/response.go 290-295 cutOff *)
Definition cutOff (stop : string) : bool :=
  String.eqb stop "length" || String.eqb stop "content_filter".

(** ** Facts *)

(** A harness-timed rate never replaces one the endpoint measured. *)
Lemma withHarnessDecode_keeps t u elapsed : HasDecode t = true -> withHarnessDecode t u elapsed = t.
Proof. intros H. unfold withHarnessDecode. by rewrite H. Qed.

Lemma usage_plus_assoc a b c : usage_plus a (usage_plus b c) = usage_plus (usage_plus a b) c.
Proof. unfold usage_plus. simpl. f_equal; lia. Qed.

(** Only reported responses move the measured context, and the last one
    wins. *)
Lemma generation_add_context g u e t :
  g_context (generation_add g u e t) = if bool_decide (u = zeroUsage) then g_context g else u.
Proof. done. Qed.
