(* ===== verification/Context.v ===== *)
(** A model request as the agent assembles it (internal/agent/context.go):
    sections, tool schemas, messages as they are sent, parameters, and the
    size estimate of each; and the prompts of the agent (prompt.go and
    summary.go), as the source has them. *)
From S2P Require Import Prelude GoStr Float64 Json Provider Sampling Failure Tool.
From stdpp Require Import options.

(* @src internal/agent/context.go 14-17 bytesPerToken *)
Definition bytesPerToken : Z := 4.

(* @src internal/agent/context.go 19-24 EstimateTokens *)
Definition EstimateTokens (text : string) : Z :=
  Z.quot (str_len text + bytesPerToken - 1) bytesPerToken.

(* @src internal/agent/context.go 26-39 SectionKind *)
Definition SectionKind : Set := string.
Definition SectionBase : SectionKind := "base".
Definition SectionContextFiles : SectionKind := "context_files".
Definition SectionInstructions : SectionKind := "instructions".

(* @src internal/agent/context.go 54-62 ContextFile *)
Record ContextFile := mkContextFile { CFPath : string; CFText : string; CFTokens : Z }.

(* @src internal/agent/context.go 41-52 Section *)
Record PromptSection := mkSection {
  SKind : SectionKind;
  SText : string;
  STokens : Z;
  SFiles : list ContextFile;
}.

(* @src internal/agent/prompt.go 71-74 newSection *)
Definition newSection (kind : SectionKind) (text : string) : PromptSection :=
  mkSection kind text (EstimateTokens text) [].

(* @src internal/agent/context.go 64-73 ToolSource *)
Definition ToolSource : Set := string.
Definition ToolBuiltin : ToolSource := "builtin".
Definition ToolMCP : ToolSource := "mcp".

(* @src internal/agent/context.go 75-79 mcpToolPrefix *)
Definition mcpToolPrefix : string := "mcp_".

(* @src internal/agent/context.go 81-87 sourceOf *)
Definition sourceOf (name : string) : ToolSource :=
  if has_prefix name mcpToolPrefix then ToolMCP else ToolBuiltin.

(* @src internal/agent/context.go 89-95 ToolSchema *)
Record ToolSchema := mkToolSchema { TSDef : ToolDef; TSSource : ToolSource; TSTokens : Z }.

(* @src internal/agent/context.go 97-111 Parameters *)
Record Parameters := mkParameters {
  PModel : string;
  PSampling : Sampling;
  PThinkingSwitch : ThinkingSwitch;
  PPreserveThinking : bool;
  PImageInput : bool;
}.

(* @src internal/agent/context.go 113-128 Context *)
Record Context := mkContext {
  Sections : list PromptSection;
  Tools : list ToolSchema;
  Messages : list Message;
  MessageTokens : Z;
  MessageSizes : list Z;
  CParameters : Parameters;
}.

(* @src internal/agent/context.go 130-137 Context.System *)
Definition System (c : Context) : string := join (map SText (Sections c)) nl2.

(* @src internal/agent/context.go 139-154 Context.Request *)
Definition Context_Request (c : Context) : Request :=
  let p := CParameters c in
  mkRequest (PModel p) (System c) (Messages c) (map TSDef (Tools c)) (PSampling p)
    (PThinkingSwitch p) (PPreserveThinking p).

(* @src internal/agent/context.go 255-259 pixelsPerToken *)
Definition pixelsPerToken : Z := 750.

(** [int] arithmetic wraps at 64 bits; [/] truncates toward zero. *)
(* @src internal/agent/context.go 261-268 ImageTokens *)
Definition ImageTokens (w h : Z) : Z :=
  let '(w, h) := if (w <=? 0) || (h <=? 0) then (1920, 1080) else (w, h) in
  Z.quot (wrap64 (w * h + pixelsPerToken - 1)) pixelsPerToken.

(* @src internal/agent/context.go 238-253 messageTokens *)
Definition messageTokens (m : Message) : Z :=
  let images := Images m in
  let m := with_images [] m in
  let tokens := sumZ (map (fun img => ImageTokens (Width img) (Height img)) images) in
  match message_json m with
  | None => tokens + EstimateTokens (Content m +:+ Reasoning m)
  | Some data => tokens + EstimateTokens data
  end.

(** [json.Marshal] of a tool definition: its schema is a raw document, which
    the encoder refuses when it is not JSON, and writes as [null] when it is
    nil. *)
Definition def_json (def : ToolDef) : option string :=
  schema ← if String.eqb (DefSchema def) EmptyString then Some "null"%string
           else compact (DefSchema def);
  Some (obj [member "name" (quote (DefName def));
             member "description" (quote (DefDescription def));
             member "schema" schema]).

(* @src internal/agent/context.go 227-236 ToolTokens *)
Definition ToolTokens (def : ToolDef) : Z :=
  match def_json def with
  | None => EstimateTokens (DefName def +:+ DefDescription def +:+ DefSchema def)
  | Some data => EstimateTokens data
  end.

(* @src internal/agent/context.go 270-288 withoutImages *)
Definition withoutImages (m : Message) : Message :=
  match Images m with
  | [] => m
  | imgs =>
      let n := Z.of_nat (length imgs) in
      let note := if 1 <? n
        then "[" +:+ itoa n +:+ " images omitted: the model in use does not accept images]"
        else "[1 image omitted: the model in use does not accept images]"%string in
      let m := with_images [] m in
      if String.eqb (Content m) EmptyString then with_content note m
      else with_content (Content m +:+ nl2 +:+ note) m
  end.

(** A message as a request of [c] sends it. *)
Definition prepare (p : Parameters) (m : Message) : Message :=
  let m := with_metrics None m in
  let m := if PPreserveThinking p then m else with_reasoning EmptyString m in
  if PImageInput p then m else withoutImages m.

(* @src internal/agent/context.go 172-197 Context.WithMessages *)
Definition WithMessages (c : Context) (msgs : list Message) : Context :=
  let sent := map (prepare (CParameters c)) msgs in
  let sizes := map messageTokens sent in
  mkContext (Sections c) (Tools c) sent (sumZ sizes) sizes (CParameters c).

(** ** Facts *)

Lemma EstimateTokens_bounds text :
  str_len text <= bytesPerToken * EstimateTokens text < str_len text + bytesPerToken.
Proof.
  unfold EstimateTokens, bytesPerToken. pose proof (str_len_nonneg text) as H.
  rewrite Z.quot_div_nonneg by lia.
  pose proof (Z.div_mod (str_len text + 4 - 1) 4 ltac:(lia)) as E.
  pose proof (Z.mod_pos_bound (str_len text + 4 - 1) 4 ltac:(lia)). lia.
Qed.

Lemma EstimateTokens_nonneg text : 0 <= EstimateTokens text.
Proof. pose proof (EstimateTokens_bounds text); pose proof (str_len_nonneg text). unfold bytesPerToken in *. lia. Qed.

Lemma ImageTokens_nonneg w h : w * h < 2 ^ 62 -> 0 <= ImageTokens w h.
Proof.
  intros H. unfold ImageTokens, pixelsPerToken.
  destruct ((w <=? 0) || (h <=? 0)) eqn:E; [by vm_compute|].
  apply orb_false_iff in E as [E1 E2]. bool_lia.
  rewrite wrap64_small by nia. apply Z.quot_pos; nia.
Qed.

Lemma prepare_role p m : MRole (prepare p m) = MRole m.
Proof. unfold prepare, withoutImages. go_cases. Qed.

Lemma prepare_calls p m : ToolCalls (prepare p m) = ToolCalls m.
Proof. unfold prepare, withoutImages. go_cases. Qed.

Lemma prepare_callid p m : ToolCallID (prepare p m) = ToolCallID m.
Proof. unfold prepare, withoutImages. go_cases. Qed.

Lemma prepare_metrics p m : Metrics (prepare p m) = None.
Proof. unfold prepare, withoutImages. go_cases. Qed.

Lemma length_MessageSizes c msgs : length (MessageSizes (WithMessages c msgs)) = length msgs.
Proof. simpl. by rewrite !length_map. Qed.

#[export] Hint Rewrite prepare_role prepare_calls prepare_callid prepare_metrics length_MessageSizes : eika.

(* @src internal/agent/prompt.go 10-20 WorkspacePrompt *)
Definition WorkspacePrompt : string :=
  "You are Eika, a coding agent working inside a sandboxed workspace.

Rules:
- Every file and command action goes through your tools. The workspace root is your working directory and paths are relative to it.
- Run the project's own build and test commands to check your work.
- Work in small, complete steps: change the code, run the tests, report what happened.
- Be concise. Answer in plain sentences, without preamble or summaries of what you are about to do.
- If a request is ambiguous, state the interpretation you are using, or ask when you cannot proceed without an answer.".

(* @src internal/agent/prompt.go 22-31 ChatPrompt *)
Definition ChatPrompt : string :=
  "You are Eika, an assistant in a chat with the user.

Rules:
- This chat has no workspace: there are no files to read or change and no commands to run. Use only the tools you are given; there may be none.
- When you use the web, say where an answer came from and link the pages you relied on.
- Be concise. Answer in plain sentences, without preamble or summaries of what you are about to do.
- If a request is ambiguous, state the interpretation you are using, or ask when you cannot proceed without an answer.".

(* @src internal/agent/summary.go 27-60 SummaryPrompt *)
Definition SummaryPrompt : string :=
  "The messages above are a conversation to summarize. Create a structured context checkpoint summary that another LLM will use to continue the work. Do not continue the conversation, answer questions in it, or call tools: reply with the summary alone, and write it directly rather than deliberating at length.

Use this EXACT format:

## Goal
[What is the user trying to accomplish? Can be multiple items if the session covers different tasks.]

## Constraints & Preferences
- [Any constraints, preferences, or requirements mentioned by user]
- [Or " +:+ dq +:+
  "(none)" +:+ dq +:+
  " if none were mentioned]

## Progress
### Done
- [x] [Completed tasks/changes]

### In Progress
- [ ] [Current work]

### Blocked
- [Issues preventing progress, if any]

## Key Decisions
- **[Decision]**: [Brief rationale]

## Next Steps
1. [Ordered list of what should happen next]

## Critical Context
- [Any data, examples, or references needed to continue]
- [Or " +:+ dq +:+
  "(none)" +:+ dq +:+
  " if not applicable]

Keep each section concise. Preserve exact file paths, function names, and error messages.".

(* @src internal/agent/summary.go 62-102 UpdatePrompt *)
Definition UpdatePrompt : string :=
  "The conversation above begins with an existing summary of earlier work, in <summary> tags; the messages after it are NEW. Update the existing summary with the new messages. Do not continue the conversation, answer questions in it, or call tools: reply with the updated summary alone, and write it directly rather than deliberating at length.

RULES:
- PRESERVE all existing information from the previous summary
- ADD new progress, decisions, and context from the new messages
- UPDATE the Progress section: move items from " +:+ dq +:+
  "In Progress" +:+ dq +:+
  " to " +:+ dq +:+
  "Done" +:+ dq +:+
  " when completed
- UPDATE " +:+ dq +:+
  "Next Steps" +:+ dq +:+
  " based on what was accomplished
- PRESERVE exact file paths, function names, and error messages
- If something is no longer relevant, you may remove it

Use this EXACT format:

## Goal
[Preserve existing goals, add new ones if the task expanded]

## Constraints & Preferences
- [Preserve existing, add new ones discovered]

## Progress
### Done
- [x] [Include previously done items AND newly completed items]

### In Progress
- [ ] [Current work - update based on progress]

### Blocked
- [Current blockers - remove if resolved]

## Key Decisions
- **[Decision]**: [Brief rationale] (preserve all previous, add new)

## Next Steps
1. [Update based on current state]

## Critical Context
- [Preserve important context, add new if needed]

Keep each section concise. Preserve exact file paths, function names, and error messages.".

(* @src internal/agent/summary.go 104-117 TurnPrefixPrompt *)
Definition TurnPrefixPrompt : string :=
  "The most recent user request above began a turn that is too large to keep whole. The rest of that turn (the recent work) is retained; the part above, from that request on, is the PREFIX of the turn. Do not continue the conversation or call tools: reply with a summary of the prefix alone, as context for the retained suffix:

## Original Request
[What did the user ask for in this turn?]

## Early Progress
- [Key decisions and work done in the prefix]

## Context for Suffix
- [Information needed to understand the retained recent work]

Be concise. Focus on what's needed to understand the kept suffix.".

(* @src internal/agent/summary.go 119-123 TranscriptSystemPrompt *)
Definition TranscriptSystemPrompt : string :=
  "You are a context summarization assistant. Your task is to read a conversation between a user and an AI assistant, then produce a structured summary following the exact format specified.

Do NOT continue the conversation. Do NOT respond to any questions in the conversation. ONLY output the structured summary.".
