(* ===== verification/Compaction.v ===== *)
(** Compaction (internal/agent/compaction.go): where a conversation is cut,
    what a compaction leaves of it, how large a request is estimated to be,
    and how the window bounds a request. The request that makes the summary
    and the step that applies it are in Summary.v and Agent.v. *)
From S2P Require Import Prelude GoStr Float64 Json Provider Sampling Failure Conversation Context.
From stdpp Require Import options.

(** ** Settings *)

(* @src internal/agent/compaction.go 17-24 DefaultReserveTokens *)
Definition DefaultReserveTokens : Z := 16384.
Definition DefaultKeepRecentTokens : Z := 20000.

(* @src internal/agent/compaction.go 26-28 ErrNothingToCompact *)
Definition ErrNothingToCompact : GoError :=
  ErrSentinel "nothing to compact: the conversation fits in what a compaction keeps".

(* @src internal/agent/compaction.go 53-64 CompactionPrompts *)
Record CompactionPrompts := mkPrompts { PSummary : string; PUpdate : string; PTurnPrefix : string }.

(* @src internal/agent/compaction.go 30-51 CompactionSettings *)
Record CompactionSettings := mkSettings {
  Auto : bool;
  ReserveTokens : Z;
  KeepRecentTokens : Z;
  Prompts : CompactionPrompts;
  FallbackEffort : string;
}.

(* @src internal/agent/compaction.go 125-135 scaled *)
Definition scaled (setting def window : Z) : Z :=
  let setting := if setting <=? 0 then def else setting in
  if 0 <? window then Z.min setting (Z.quot window 4) else setting.

(* @src internal/agent/compaction.go 111-117 CompactionSettings.reserveTokens *)
Definition reserveTokens (c : CompactionSettings) (window : Z) : Z :=
  scaled (ReserveTokens c) DefaultReserveTokens window.

(* @src internal/agent/compaction.go 119-123 CompactionSettings.keepRecentTokens *)
Definition keepRecentTokens (c : CompactionSettings) (window : Z) : Z :=
  scaled (KeepRecentTokens c) DefaultKeepRecentTokens window.

(** ** Compactions *)

(* @src internal/agent/compaction.go 66-81 Compaction *)
Record Compaction := mkCompaction {
  CSummary : string;
  Kept : Z;
  TokensBefore : Z;
  TokensAfter : Z;
  Reason : string;
  CUsage : Usage;
}.

#[export] Instance Compaction_eq_dec : EqDecision Compaction.
Proof. solve_decision. Defined.

(* @src internal/agent/compaction.go 97-101 summaryPrefix *)
Definition summaryPrefix : string :=
  "The conversation history before this point was compacted into the following summary:"
  +:+ nl2 +:+ "<summary>" +:+ nl.
Definition summarySuffix : string := nl +:+ "</summary>".

(* @src internal/agent/compaction.go 103-109 SummaryMessage *)
Definition SummaryMessage (summary : string) : Message :=
  mkMessage RoleUser (summaryPrefix +:+ summary +:+ summarySuffix) [] EmptyString []
    EmptyString false None true.

(* @src internal/agent/compaction.go 83-95 Compacted *)
Definition Compacted (before : list Message) (c : Compaction) : list Message :=
  let kept := Z.min (Z.max (Kept c) 0) (Z.of_nat (length before)) in
  SummaryMessage (CSummary c) ::
  map (with_metrics None) (drop (length before - Z.to_nat kept) before).

(* @src internal/agent/compaction.go 137-150 compactionPlan *)
Record compactionPlan := mkPlan {
  p_start : nat;
  p_first : nat;
  p_turnStart : option nat;
  p_stored : nat;
}.

(* @src internal/agent/compaction.go 152-153 compactionPlan.previous *)
Definition previous (p : compactionPlan) : bool := (p_start p =? 1)%nat.

(* @src internal/agent/compaction.go 155-156 compactionPlan.split *)
Definition plan_split (p : compactionPlan) : bool :=
  match p_turnStart p with Some _ => true | None => false end.

(* @src internal/agent/compaction.go 158-164 compactionPlan.historyEnd *)
Definition historyEnd (p : compactionPlan) : nat :=
  match p_turnStart p with Some t => t | None => p_first p end.

(** The message at [i]; reading past the end would panic. *)
Definition msg_at (msgs : list Message) (i : nat) : Message := nth i msgs zeroMessage.
Definition size_at (sizes : list Z) (i : nat) : Z := nth i sizes 0.

(** The places a cut may be: [start <= i < stored] where no tool result is. *)
Definition cut_places (msgs : list Message) (start stored : nat) : list nat :=
  base.filter (fun i => is_tool (msg_at msgs i) = false) (seq start (stored - start)).

(** Walking [i] back from [start + n - 1] to [start], adding up sizes: the
    first place where the total reaches [keep]. *)
Fixpoint walk_back (sizes : list Z) (start n : nat) (total keep : Z) : option nat :=
  match n with
  | O => None
  | S n' =>
      let i := (start + n')%nat in
      let total := total + size_at sizes i in
      if total <? keep then walk_back sizes start n' total keep else Some i
  end.

(** Walking [i] back from [start + n - 1] to [start]: the first user
    message. *)
Fixpoint user_before (msgs : list Message) (start n : nat) : option nat :=
  match n with
  | O => None
  | S n' =>
      let i := (start + n')%nat in
      if bool_decide (MRole (msg_at msgs i) = RoleUser) then Some i
      else user_before msgs start n'
  end.

(* @src internal/agent/compaction.go 166-217 planCompaction *)
Definition planCompaction (msgs : list Message) (sizes : list Z) (stored : nat) (keep : Z)
    : compactionPlan * bool :=
  let start := match msgs with
               | m :: _ => if Summary m then 1%nat else 0%nat
               | [] => 0%nat
               end in
  match cut_places msgs start stored with
  | [] => (mkPlan start 0 None stored, false)
  | (c0 :: _) as cuts =>
      let first := match walk_back sizes start (stored - start) 0 keep with
                   | None => c0
                   | Some i =>
                       match base.filter (fun c => i <= c)%nat cuts with
                       | c :: _ => c
                       | [] => List.last cuts c0
                       end
                   end in
      let turnStart :=
        if bool_decide (MRole (msg_at msgs first) = RoleUser) then None
        else user_before msgs start (S first - start) in
      let p := mkPlan start first turnStart stored in
      (p, plan_split p || (start <? first)%nat)
  end.

(** ** Estimates *)

(** The walk is from the newest message: [at] is an index into [msgs]. *)
(* @src internal/agent/compaction.go 307-326 lastMeasured *)
Fixpoint lastMeasured_go (n : nat) (msgs : list Message) : Z * option nat :=
  match n with
  | O => (0, None)
  | S i =>
      let m := msg_at msgs i in
      match Metrics m with
      | Some mm =>
          if bool_decide (MRole m <> RoleAssistant) then lastMeasured_go i msgs else
          let tokens := if TotalTokens (MContext mm) =? 0
                        then InputTokens (MContext mm) + OutputTokens (MContext mm)
                        else TotalTokens (MContext mm) in
          if 0 <? tokens then (tokens, Some i) else lastMeasured_go i msgs
      | None => lastMeasured_go i msgs
      end
  end.

Definition lastMeasured (msgs : list Message) : Z * option nat := lastMeasured_go (length msgs) msgs.

(* @src internal/agent/compaction.go 328-346 estimateContext *)
Definition estimateContext (c : Context) (msgs : list Message) : Z :=
  match lastMeasured msgs with
  | (_, None) =>
      sumZ (map STokens (Sections c)) + sumZ (map TSTokens (Tools c)) + sumZ (MessageSizes c)
  | (tokens, Some i) => tokens + sumZ (drop (S i) (MessageSizes c))
  end.

Definition with_max_output (n : option Z) (s : Sampling) : Sampling :=
  mkSampling (Temperature s) (TopP s) (TopK s) (MinP s) (FrequencyPenalty s)
    (PresencePenalty s) (Seed s) (Stop s) n (ReasoningEffort s).

Definition with_effort (e : option string) (s : Sampling) : Sampling :=
  mkSampling (Temperature s) (TopP s) (TopK s) (MinP s) (FrequencyPenalty s)
    (PresencePenalty s) (Seed s) (Stop s) (MaxOutput s) e.

Definition with_sampling (f : Sampling -> Sampling) (c : Context) : Context :=
  let p := CParameters c in
  mkContext (Sections c) (Tools c) (Messages c) (MessageTokens c) (MessageSizes c)
    (mkParameters (PModel p) (f (PSampling p)) (PThinkingSwitch p) (PPreserveThinking p)
       (PImageInput p)).

(* @src internal/agent/compaction.go 348-363 fit *)
Definition fit (c : Context) (tokens window : Z) : Context + GoError :=
  if window <=? 0 then inl c else
  if window <=? tokens then
    inr (ErrText ("call model: the request needs about " +:+ itoa tokens +:+
                  " tokens, which does not fit the configured window of " +:+ itoa window)) else
  match MaxOutput (PSampling (CParameters c)) with
  | Some m => if window <? tokens + m
              then inl (with_sampling (with_max_output (Some (window - tokens))) c)
              else inl c
  | None => inl c
  end.

(* @src internal/agent/compaction.go 365-367 errSilentOverflow *)
Definition errSilentOverflow : GoError :=
  ErrSentinel "call model: the endpoint filled its context window with the request and produced nothing".

(* @src internal/agent/compaction.go 369-375 silentOverflow *)
Definition silentOverflow (r : response) (window : Z) : bool :=
  (0 <? window) && cutOff (r_stop r) && (OutputTokens (r_usage r) =? 0) && empty (r_message r) &&
  f64_leb (f64_mul (f64_lit 99 2) (f64_of_Z window)) (f64_of_Z (InputTokens (r_usage r))).

(* @src internal/agent/compaction.go 299-305 Agent.shouldCompact *)
Definition shouldCompact (c : CompactionSettings) (window tokens : Z) : bool :=
  Auto c && (0 <? window) && (window - reserveTokens c window <? tokens).

(** ** Where the cut falls *)

Lemma elem_of_cut_places msgs start stored i :
  i ∈ cut_places msgs start stored <->
  (start <= i < stored)%nat /\ is_tool (msg_at msgs i) = false.
Proof.
  unfold cut_places. rewrite list_elem_of_filter, elem_of_seq. split; intros [H1 H2]; split; try done; lia.
Qed.

Lemma walk_back_range sizes start n total keep i :
  walk_back sizes start n total keep = Some i -> (start <= i < start + n)%nat.
Proof.
  revert total. induction n as [|n IH]; intros total H; [done|]. cbn [walk_back] in H.
  destruct (_ <? keep); [|simplify_eq; lia]. apply IH in H. lia.
Qed.

Lemma user_before_spec msgs start n t :
  user_before msgs start n = Some t ->
  (start <= t < start + n)%nat /\ MRole (msg_at msgs t) = RoleUser.
Proof.
  induction n as [|n IH]; intros H; [done|]. cbn [user_before] in H.
  case_bool_decide; simplify_eq; [split; [lia|done]|]. apply IH in H as [? ?]. split; [lia|done].
Qed.

Lemma last_elem {A} (d : A) l : l <> [] -> List.last l d ∈ l.
Proof.
  induction l as [|x [|y l] IH]; intros H; [done|apply elem_of_cons; by left|].
  apply elem_of_cons. right. by apply IH.
Qed.

Lemma not_user_lt msgs t i :
  MRole (msg_at msgs t) = RoleUser -> MRole (msg_at msgs i) <> RoleUser -> (t <= i)%nat -> (t < i)%nat.
Proof. intros H1 H2 H3. destruct (decide (t = i)) as [->|]; [done|lia]. Qed.

(** What a plan guarantees: it cuts inside the stored part, past its start, at
    no tool result; a split turn begins at a user message before the cut. *)
Record plan_ok (msgs : list Message) (stored : nat) (p : compactionPlan) : Prop := {
  plan_start_le : (p_start p <= 1)%nat;
  plan_start_summary : p_start p = 1%nat -> exists m l, msgs = m :: l /\ Summary m = true;
  plan_progress : (p_start p < p_first p)%nat;
  plan_first_stored : (p_first p < stored)%nat;
  plan_first_cut : is_tool (msg_at msgs (p_first p)) = false;
  plan_turn : forall t, p_turnStart p = Some t ->
    (p_start p <= t < p_first p)%nat /\ MRole (msg_at msgs t) = RoleUser;
  plan_stored : p_stored p = stored;
}.

Lemma planCompaction_sound msgs sizes stored keep p :
  planCompaction msgs sizes stored keep = (p, true) -> plan_ok msgs stored p.
Proof.
  unfold planCompaction. set (start := match msgs with [] => _ | _ => _ end).
  assert (Hs : (start <= 1)%nat /\ (start = 1%nat -> exists m l, msgs = m :: l /\ Summary m = true)).
  { subst start. destruct msgs as [|m l]; [split; [lia|done]|].
    destruct (Summary m) eqn:E; split; try lia; eauto. }
  destruct (cut_places msgs start stored) as [|c0 cuts] eqn:Ec; [done|].
  set (first := match walk_back _ _ _ _ _ with None => _ | Some _ => _ end).
  assert (Hf : first ∈ c0 :: cuts).
  { subst first. destruct (walk_back _ _ _ _ _) as [i|]; [|apply elem_of_cons; by left].
    match goal with |- context [base.filter ?P ?l] => destruct (base.filter P l) as [|c fs] eqn:Ef end;
      [by apply last_elem|]. by apply filter_head in Ef as [_ ?]. }
  rewrite <- Ec in Hf. apply elem_of_cut_places in Hf as [Hr Hcut].
  intros E. injection E as <- Hok. cbn [p_start p_first p_turnStart p_stored].
  assert (Ht : forall t,
    (if bool_decide (MRole (msg_at msgs first) = RoleUser) then None
     else user_before msgs start (S first - start)) = Some t ->
    (start <= t < first)%nat /\ MRole (msg_at msgs t) = RoleUser).
  { intros t Hb. case_bool_decide as Hu; [done|]. apply user_before_spec in Hb as [Hb Hr'].
    split; [|done]. pose proof (not_user_lt msgs t first Hr' Hu). lia. }
  split; cbn [p_start p_first p_turnStart p_stored]; try done; try (by apply Hs); try lia.
  apply orb_true_iff in Hok as [Hok|Hok]; [|by apply Nat.ltb_lt in Hok].
  unfold plan_split in Hok. cbn [p_turnStart] in Hok.
  match type of Hok with match ?o with _ => _ end = _ => destruct o as [t|] eqn:Eo; [|done] end.
  destruct (Ht t eq_refl) as [? _]. lia.
Qed.

Lemma msg_at_lookup msgs i : (i < length msgs)%nat -> msgs !! i = Some (msg_at msgs i).
Proof. intros H. unfold msg_at. rewrite nth_lookup.
  destruct (lookup_lt_is_Some_2 msgs i H) as [m E]. by rewrite E. Qed.

(** ** A compaction keeps the conversation valid *)

Lemma SummaryMessage_plain s : plain (SummaryMessage s).
Proof. done. Qed.

Lemma Compacted_kept before c n :
  (n <= length before)%nat -> Kept c = Z.of_nat (length before - n) ->
  Compacted before c = SummaryMessage (CSummary c) :: map (with_metrics None) (drop n before).
Proof.
  intros Hn Hk. unfold Compacted. rewrite Hk. do 3 f_equal. lia.
Qed.

Lemma accepts_with_metrics p l : accepts p (map (with_metrics None) l) = accepts p l.
Proof. by apply accepts_map. Qed.

Lemma Compacted_well_formed before c n :
  well_formed before -> (n <= length before)%nat -> Kept c = Z.of_nat (length before - n) ->
  (n < length before -> is_tool (msg_at before n) = false)%nat ->
  well_formed (Compacted before c).
Proof.
  intros Hw Hn Hk Hc. rewrite (Compacted_kept before c n Hn Hk).
  apply (well_formed_app [_]); [by apply well_formed_plain, Forall_singleton|].
  unfold well_formed. rewrite accepts_with_metrics.
  destruct (decide (n < length before)%nat) as [Hlt|Hge].
  - eapply well_formed_cut; [done|by apply msg_at_lookup|by apply Hc].
  - by rewrite drop_ge by lia.
Qed.

Lemma map_with_metrics_plain l : Forall plain l -> Forall plain (map (with_metrics None) l).
Proof. intros H. apply Forall_map. eapply Forall_impl; [exact H|]. intros m Hm. exact Hm. Qed.

Lemma msg_at_take msgs n i : (i < n)%nat -> msg_at (take n msgs) i = msg_at msgs i.
Proof. intros H. unfold msg_at. rewrite !nth_lookup, lookup_take_lt by done. done. Qed.

(** A conversation smaller than what a compaction keeps is left alone. *)
Lemma walk_back_none sizes start n total keep :
  Forall (fun x => 0 <= x) sizes ->
  total + sumZ (take n (drop start sizes)) < keep -> walk_back sizes start n total keep = None.
Proof.
  intros Hs. revert total. induction n as [|n IH]; intros total H; [done|]. cbn [walk_back].
  assert (E : sumZ (take (S n) (drop start sizes)) =
              sumZ (take n (drop start sizes)) + size_at sizes (start + n)).
  { unfold size_at. rewrite nth_lookup. destruct (drop start sizes !! n) as [x|] eqn:Ex.
    - rewrite (take_S_r _ _ x Ex), sumZ_app. rewrite lookup_drop in Ex. rewrite Ex.
      unfold sumZ at 2. simpl. lia.
    - rewrite !take_ge by (apply lookup_ge_None in Ex; lia).
      rewrite lookup_drop in Ex. rewrite Ex. simpl. lia. }
  rewrite E in H. pose proof (sumZ_nonneg (take n (drop start sizes))
    ltac:(by apply Forall_take, Forall_drop)) as Hp.
  replace (total + size_at sizes (start + n) <? keep) with true by lia.
  apply IH. lia.
Qed.

(** The size of the messages from [i] up to [j]. *)
Definition span (sizes : list Z) (i j : nat) : Z := sumZ (take (j - i) (drop i sizes)).

Lemma span_nonneg sizes i j : Forall (fun x => 0 <= x) sizes -> 0 <= span sizes i j.
Proof. intros H. apply sumZ_nonneg. by apply Forall_take, Forall_drop. Qed.

Lemma span_step sizes i j : (i < j)%nat -> span sizes i j = size_at sizes i + span sizes (S i) j.
Proof.
  intros H. unfold span, size_at. rewrite nth_lookup. destruct (sizes !! i) as [x|] eqn:E.
  - rewrite (drop_S_lookup sizes i x E). replace (j - i)%nat with (S (j - S i)) by lia. done.
  - apply lookup_ge_None in E. rewrite !drop_ge by lia. by rewrite !take_nil.
Qed.

Lemma span_empty sizes i j : (j <= i)%nat -> span sizes i j = 0.
Proof. intros H. unfold span. by replace (j - i)%nat with 0%nat by lia. Qed.

Lemma span_mono sizes i i' j :
  Forall (fun x => 0 <= x) sizes -> (i <= i')%nat -> span sizes i' j <= span sizes i j.
Proof.
  intros Hs H. induction H as [|i' H IH]; [lia|].
  destruct (decide (i' < j)%nat) as [Hj|Hj].
  - rewrite (span_step sizes i' j Hj) in IH.
    assert (0 <= size_at sizes i'); [|lia]. unfold size_at. rewrite nth_lookup.
    destruct (sizes !! i') as [x|] eqn:E; [|simpl; lia].
    by eapply Forall_lookup_1 in E; [|exact Hs].
  - rewrite span_empty by lia. by apply span_nonneg.
Qed.

Lemma span_last sizes i j : (i <= j)%nat -> span sizes i (S j) = size_at sizes j + span sizes i j.
Proof.
  intros Hk. remember (j - i)%nat as d eqn:Ed. revert i Hk Ed. induction d as [|d IHd]; intros i Hk Ed.
  - replace j with i by lia. by rewrite span_step, !span_empty by lia.
  - rewrite (span_step sizes i) by lia. rewrite (IHd (S i)) by lia.
    rewrite (span_step sizes i j) by lia. lia.
Qed.

Lemma walk_back_some sizes start n total keep i :
  walk_back sizes start n total keep = Some i -> total < keep ->
  keep <= total + span sizes i (start + n) /\ total + span sizes (S i) (start + n) < keep.
Proof.
  revert total. induction n as [|n IH]; intros total H Ht; [done|]. cbn [walk_back] in H.
  assert (E : forall k, (k <= start + n)%nat ->
    span sizes k (start + S n) = size_at sizes (start + n) + span sizes k (start + n)).
  { intros k Hk. replace (start + S n)%nat with (S (start + n)) by lia. by apply span_last. }
  destruct (_ <? keep) eqn:Eb.
  - bool_lia. pose proof (walk_back_range _ _ _ _ _ _ H) as Hr.
    destruct (IH _ H Eb) as [H1 H2]. rewrite !E by lia. lia.
  - simplify_eq. bool_lia. rewrite E, span_empty, span_empty by lia. lia.
Qed.

Lemma walk_back_none_inv sizes start n total keep :
  walk_back sizes start n total keep = None -> total < keep ->
  total + span sizes start (start + n) < keep.
Proof.
  intros H Ht. revert total H Ht. induction n as [|n IH]; intros total H Ht.
  - rewrite span_empty by lia. lia.
  - cbn [walk_back] in H. destruct (_ <? keep) eqn:Eb; [|done]. bool_lia.
    specialize (IH _ H Eb). replace (start + S n)%nat with (S (start + n)) by lia.
    rewrite (span_last sizes start (start + n)) by lia. lia.
Qed.

Lemma plan_first_cases msgs sizes stored keep p :
  planCompaction msgs sizes stored keep = (p, true) ->
  let cuts := cut_places msgs (p_start p) stored in
  exists c0, head cuts = Some c0 /\
  p_first p = match walk_back sizes (p_start p) (stored - p_start p) 0 keep with
              | None => c0
              | Some i => match base.filter (fun c => i <= c)%nat cuts with
                          | c :: _ => c
                          | [] => List.last cuts c0
                          end
              end.
Proof.
  unfold planCompaction. set (start := match msgs with [] => _ | _ => _ end).
  destruct (cut_places msgs start stored) as [|c0 cuts] eqn:Ec; [done|].
  intros E. injection E as <- _. cbn [p_start p_first]. exists c0. by rewrite Ec.
Qed.

Lemma cut_places_sorted msgs start stored : Sorted.StronglySorted lt (cut_places msgs start stored).
Proof.
  unfold cut_places. generalize (stored - start)%nat as n. intros n. revert start.
  induction n as [|n IH]; intros start; [constructor|]. cbn [seq]. rewrite filter_cons.
  destruct (decide _); [|apply IH]. constructor; [apply IH|].
  apply Forall_forall. intros i Hi. apply list_elem_of_filter in Hi as [_ Hi].
  apply elem_of_seq in Hi. lia.
Qed.

(** In an ascending list, the first element that passes a lower bound is the
    least one that does, and the last element is the greatest. *)
Lemma filter_head_least l i c k :
  Sorted.StronglySorted lt l -> base.filter (fun c => i <= c)%nat l = c :: k ->
  forall d, d ∈ l -> (d < c)%nat -> (d < i)%nat.
Proof.
  induction 1 as [|x l Hl IH Hx]; [done|]. rewrite filter_cons.
  destruct (decide (i <= x)%nat) as [Hix|Hix]; intros E d Hd Hdc.
  - simplify_eq. apply elem_of_cons in Hd as [->|Hd]; [lia|].
    rewrite Forall_forall in Hx. specialize (Hx d Hd). lia.
  - apply elem_of_cons in Hd as [->|Hd]; [lia|]. by apply IH.
Qed.

Lemma head_least l c :
  Sorted.StronglySorted lt l -> head l = Some c -> forall d, d ∈ l -> (c <= d)%nat.
Proof.
  destruct 1 as [|x l Hl Hx]; [done|]. intros E d Hd. simplify_eq/=.
  apply elem_of_cons in Hd as [->|Hd]; [lia|]. rewrite Forall_forall in Hx. specialize (Hx d Hd). lia.
Qed.

Lemma last_greatest l d0 :
  Sorted.StronglySorted lt l -> forall d, d ∈ l -> (d <= List.last l d0)%nat.
Proof.
  induction 1 as [|x l Hl IH Hx]; intros d Hd; [by apply not_elem_of_nil in Hd|].
  destruct l as [|y l]; [apply list_elem_of_singleton in Hd; simpl; lia|].
  change (List.last (x :: y :: l) d0) with (List.last (y :: l) d0).
  apply elem_of_cons in Hd as [->|Hd]; [|by apply IH].
  rewrite Forall_forall in Hx. transitivity y; [|apply IH; apply elem_of_cons; by left].
  specialize (Hx y ltac:(apply elem_of_cons; by left)). lia.
Qed.
