(* ===== verification/World.v ===== *)
(** The agent's state and surroundings.

    A run is a program in a state monad. The [World] is what the loop owns
    and what an observer sees of it: the conversation, the durable log of the
    store, the two queues, the events emitted, and the requests sent. The
    [Env] is everything else: the model endpoint, the tools, the store's and
    the context's failures, the clock, and the messages other goroutines
    queue, each as a function of a step counter, so that any behaviour of
    theirs over time is an environment. A theorem for every environment is a
    theorem for every interleaving at the points where the loop waits. *)
From S2P Require Import Prelude GoStr Float64 Provider Sampling Failure Tool Conversation Context Compaction.
From stdpp Require Import options.
Import Conversation.Queue(queue, mkQueue, push, unshift, drain, QueueMode, QueueOneAtATime, QueueAll).

Module Conv := Conversation.Conversation.
Module Q := Conversation.Queue.

(** ** Events *)

(** The payloads the loop emits, each on its session's topic. *)
(* @src internal/event/payload.go 14-60 TurnStart *)
(* @src internal/event/payload.go 105-163 ToolResult *)
(* @src internal/event/payload.go 184-212 CompactionStart *)
Inductive Event : Type :=
| TurnStart (RunID SessionID WorkspaceID Message : string) (Images : list Image)
| MessageDelta (RunID Text : string)
| ReasoningDelta (RunID Text : string)
| MessageReset (RunID : string)
| EvToolCall (RunID : string) (call : ToolCall)
| EvToolResult (RunID CallID Name Content : string) (IsError : bool) (Details : string) (DurationMS : Z)
| TurnProgress (RunID : string) (Usage Context : Usage) (GenerationMS ContextWindow : Z)
    (Timings : option Timings)
| TurnEnd (RunID StopReason : string) (Usage Context : Usage) (GenerationMS ContextWindow : Z)
    (Timings : option Timings)
| CompactionStart (RunID Reason : string) (TokensBefore : Z)
| CompactionEnd (RunID Reason : string) (TokensBefore TokensAfter : Z) (Summary : string) (Kept : Z)
    (Usage : Usage) (Error : string)
| RunError (RunID Message : string) (Retryable : bool).

(** The reasons a compaction happens. *)
(* @src internal/event/payload.go 172-182 CompactManual *)
Definition CompactManual : string := "manual".
Definition CompactThreshold : string := "threshold".
Definition CompactOverflow : string := "overflow".

(** ** The agent *)

(** What is stored durably, in order. *)
(* @src internal/agent/conversation.go 78-85 Store *)
Inductive StoreItem : Type :=
| SMessage (m : Message)
| SCompaction (c : Compaction).

(* @src internal/agent/context.go 302-315 ModelCall *)
Record ModelCall := mkModelCall {
  MC_RunID : string;
  MC_SessionID : string;
  MC_Context : Context;
  MC_Usage : Usage;
}.

(* @src internal/agent/conversation.go 66-71 Session *)
Record Session := mkSession { SessionID : string; WorkspaceID : string }.

(** [o_executor], [o_store], and [o_recorder] say whether those options are
    set; a nil emitter drops events, which nobody then sees, and the logger
    is left out. [o_tools] is the registry the agent was built with. *)
(* @src internal/agent/agent.go 30-86 Options *)
Record Options := mkOptions {
  o_Model : string;
  o_ContextWindow : Z;
  o_Compaction : CompactionSettings;
  o_Sampling : Sampling;
  o_ThinkingSwitch : ThinkingSwitch;
  o_PreserveThinking : bool;
  o_ImageInput : bool;
  o_BasePrompt : option string;
  o_SkipContextFiles : bool;
  o_Instructions : string;
  o_ContextDir : string;
  o_Queue : QueueMode;
  o_MaxRetries : Z;
  o_RetryBackoff : Z;
  o_executor : bool;
  o_store : bool;
  o_recorder : bool;
  o_tools : option Registry;
}.

(* @src internal/tool/tool.go 46-56 CallContext *)
Record CallContext := mkCallContext {
  CC_Exec : bool;
  CC_WorkspaceID : string;
  CC_SessionID : string;
  CC_RunID : string;
  CC_CallID : string;
}.

(** ** Surroundings *)

(** What the outside does at each step. [env_cancelled] is [ctx.Err()];
    [env_arrivals] are the calls of [Steer] ([true]) and [FollowUp] ([false])
    other goroutines make at that step; [env_sleep] is the context's error
    when it ends before the timer; a file that does not exist is [None]. *)
Record Env := mkEnv {
  env_cancelled : nat -> option GoError;
  env_arrivals : nat -> list (bool * Message);
  env_stream : nat -> Request -> list StreamEvent + GoError;
  env_tool : nat -> Tool -> CallContext -> string -> Result + GoError;
  env_store : nat -> StoreItem -> option GoError;
  env_record : nat -> ModelCall -> option GoError;
  env_sleep : nat -> Z -> option GoError;
  env_now : nat -> Z;
  env_runid : nat -> string;
  env_stat : nat -> string -> option bool + GoError;
  env_read : nat -> string -> string + GoError;
}.

(** The loop's state. [accepted] is every message [Steer] or [FollowUp] said
    yes to, [waits] every delay before a retry, and [records] every recorded
    call with the log as it was then: they are for stating what a run does,
    and the loop never reads them. *)
(* @src internal/agent/agent.go 88-101 Agent *)
Record World := mkWorld {
  tick : nat;
  conv : Conv.t;
  log : list StoreItem;
  steering : queue;
  followUps : queue;
  accepting : bool;
  gen : generation;
  events : list Event;
  requests : list Request;
  records : list (ModelCall * list StoreItem);
  accepted : list Message;
  waits : list Z;
}.

Definition set_tick x w := mkWorld x (conv w) (log w) (steering w) (followUps w) (accepting w) (gen w) (events w) (requests w) (records w) (accepted w) (waits w).
Definition set_conv x w := mkWorld (tick w) x (log w) (steering w) (followUps w) (accepting w) (gen w) (events w) (requests w) (records w) (accepted w) (waits w).
Definition set_log x w := mkWorld (tick w) (conv w) x (steering w) (followUps w) (accepting w) (gen w) (events w) (requests w) (records w) (accepted w) (waits w).
Definition set_steering x w := mkWorld (tick w) (conv w) (log w) x (followUps w) (accepting w) (gen w) (events w) (requests w) (records w) (accepted w) (waits w).
Definition set_followUps x w := mkWorld (tick w) (conv w) (log w) (steering w) x (accepting w) (gen w) (events w) (requests w) (records w) (accepted w) (waits w).
Definition set_accepting x w := mkWorld (tick w) (conv w) (log w) (steering w) (followUps w) x (gen w) (events w) (requests w) (records w) (accepted w) (waits w).
Definition set_gen x w := mkWorld (tick w) (conv w) (log w) (steering w) (followUps w) (accepting w) x (events w) (requests w) (records w) (accepted w) (waits w).
Definition set_events x w := mkWorld (tick w) (conv w) (log w) (steering w) (followUps w) (accepting w) (gen w) x (requests w) (records w) (accepted w) (waits w).
Definition set_requests x w := mkWorld (tick w) (conv w) (log w) (steering w) (followUps w) (accepting w) (gen w) (events w) x (records w) (accepted w) (waits w).
Definition set_records x w := mkWorld (tick w) (conv w) (log w) (steering w) (followUps w) (accepting w) (gen w) (events w) (requests w) x (accepted w) (waits w).
Definition set_accepted x w := mkWorld (tick w) (conv w) (log w) (steering w) (followUps w) (accepting w) (gen w) (events w) (requests w) (records w) x (waits w).
Definition set_waits x w := mkWorld (tick w) (conv w) (log w) (steering w) (followUps w) (accepting w) (gen w) (events w) (requests w) (records w) (accepted w) x.

(** ** Steering from outside *)

(* @src internal/agent/agent.go 124-134 Agent.Steer *)
Definition Steer (msg : Message) (w : World) : bool * World :=
  if negb (accepting w) then (false, w)
  else (true, set_accepted (accepted w ++ [msg]) (set_steering (push msg (steering w)) w)).

(* @src internal/agent/agent.go 136-146 Agent.FollowUp *)
Definition FollowUp (msg : Message) (w : World) : bool * World :=
  if negb (accepting w) then (false, w)
  else (true, set_accepted (accepted w ++ [msg]) (set_followUps (push msg (followUps w)) w)).

(* @src internal/agent/agent.go 148-149 Agent.PendingSteering *)
Definition PendingSteering (w : World) : list Message := Q.pending (steering w).

(* @src internal/agent/agent.go 151-153 Agent.PendingFollowUps *)
Definition PendingFollowUps (w : World) : list Message := Q.pending (followUps w).

Definition arrive (a : bool * Message) (w : World) : World :=
  if a.1 then (Steer a.2 w).2 else (FollowUp a.2 w).2.

(** ** The monad

    [None] is a computation that ran out of the fuel its loop was given. *)
Definition M (A : Type) : Type := World -> option (A * World).

#[export] Instance M_ret : MRet M := fun A x w => Some (x, w).
#[export] Instance M_bind : MBind M := fun A B f m w =>
  match m w with
  | Some (a, w') => f a w'
  | None => None
  end.

Definition out_of_fuel {A} : M A := fun _ => None.
Definition gets {A} (f : World -> A) : M A := fun w => Some (f w, w).
Definition modify (f : World -> World) : M unit := fun w => Some (tt, f w).

(** A call to the outside: the step's arrivals happen, and it answers. *)
Definition query {A} (E : Env) (f : nat -> A) : M A := fun w =>
  let t := tick w in
  Some (f t, foldl (fun w a => arrive a w) (set_tick (S t) w) (env_arrivals E t)).

(** ** Weakest preconditions

    [wp m Q w]: if [m] ends when run from [w], its result and the world it
    leaves satisfy [Q]. *)
Definition wp {A} (m : M A) (Q : A -> World -> Prop) (w : World) : Prop :=
  match m w with
  | Some (a, w') => Q a w'
  | None => True
  end.

Section wp.
Context {A B : Type}.
Implicit Types (m : M A) (Q : A -> World -> Prop).

Lemma wp_bind m (k : A -> M B) (Q : B -> World -> Prop) w :
  wp m (fun a w' => wp (k a) Q w') w -> wp (m ≫= k) Q w.
Proof. unfold wp, mbind, M_bind. by destruct (m w) as [[a w']|]. Qed.

Lemma wp_ret (x : A) Q w : Q x w -> wp (mret x) Q w.
Proof. done. Qed.

Lemma wp_mono m Q Q' w : wp m Q w -> (forall a w', Q a w' -> Q' a w') -> wp m Q' w.
Proof. unfold wp. destruct (m w) as [[a w']|]; auto. Qed.

Lemma wp_and m Q Q' w : wp m Q w -> wp m Q' w -> wp m (fun a w' => Q a w' /\ Q' a w') w.
Proof. unfold wp. destruct (m w) as [[a w']|]; auto. Qed.

Lemma wp_fuel Q w : wp out_of_fuel Q w.
Proof. done. Qed.

Lemma wp_gets (f : World -> A) Q w : Q (f w) w -> wp (gets f) Q w.
Proof. done. Qed.

Lemma wp_modify (f : World -> World) (Q : unit -> World -> Prop) w : Q tt (f w) -> wp (modify f) Q w.
Proof. done. Qed.
End wp.
