(* ===== verification/Stream.v ===== *)
(** One model response in the loop (internal/agent/response.go, and the
    helpers of agent.go it uses): emitting events, reading a provider's
    stream, and retrying a failed attempt with backoff. *)
From S2P Require Import Prelude GoStr Float64 Provider Sampling Failure Tool Conversation Context Compaction.
From S2P Require Import World.
From stdpp Require Import options.

(* @src internal/agent/agent.go 21-28 maxRetryBackoff *)
Definition defaultMaxRetries : Z := 3.
Definition defaultRetryBackoff : Z := 500 * 1000000.
Definition maxRetryBackoff : Z := 30 * 1000000000.

Section stream.
  Context (E : Env) (opts : Options) (s : Session).

(* @src internal/agent/agent.go 477-487 Agent.emit *)
Definition emit (e : Event) : M unit := modify (fun w => set_events (events w ++ [e]) w).

(** [ctx.Err()]. *)
Definition ctx_err : M (option GoError) := query E (env_cancelled E).

(** [time.Now()]. *)
Definition now : M Z := query E (env_now E).

(* @src internal/agent/agent.go 489-496 newRunID *)
Definition newRunID : M string := query E (env_runid E).

(* @src internal/agent/agent.go 466-475 Agent.fail *)
Definition fail (runID : string) (err : GoError) : M GoError :=
  _ ← emit (RunError runID (error_text err) (Retryable err));
  mret err.

(* @src internal/agent/agent.go 455-464 Agent.store *)
Definition store (m : Message) : M (option GoError) :=
  if negb (o_store opts) then mret None else
  err ← query E (fun t => env_store E t (SMessage m));
  match err with
  | Some e => mret (Some (ErrWrap "store message" e))
  | None => _ ← modify (fun w => set_log (log w ++ [SMessage m]) w); mret None
  end.

(* @src internal/agent/agent.go 446-453 Agent.append *)
Definition append (m : Message) : M (option GoError) :=
  err ← store m;
  match err with
  | Some e => mret (Some e)
  | None => _ ← modify (fun w => set_conv (Conv.Append m (conv w)) w); mret None
  end.

(** The context that survives a cancellation only changes what the store's
    write runs under. *)
(* @src internal/agent/agent.go 404-410 Agent.appendTerminal *)
Definition appendTerminal (m : Message) : M (option GoError) := append m.

(* @src internal/agent/response.go 314-321 elapsedSince *)
Definition elapsedSince (start : option Z) : M Z :=
  match start with
  | None => mret 0
  | Some t0 => t ← now; mret (t - t0)
  end.

(* @src internal/agent/response.go 297-312 Agent.emitProgress *)
Definition emitProgress (runID : string) (g : generation) (usage : Usage) (timings : Timings)
    (started : option Z) : M unit :=
  elapsed ← elapsedSince started;
  let total := generation_add g usage elapsed (withHarnessDecode timings usage elapsed) in
  emit (TurnProgress runID (g_usage total) (g_context total) (milliseconds (g_elapsed total))
          (o_ContextWindow opts) (reported total)).

(** What [stream] has read of a response so far. *)
Record partial := mkPartial {
  text : string;
  reasoning : string;
  calls : list ToolCall;
  usage : Usage;
  timings : Timings;
  stop : string;
  started : option Z;
  finished : bool;
}.

Definition start_partial : partial :=
  mkPartial EmptyString EmptyString [] zeroUsage zeroTimings EmptyString None false.

Definition with_started (p : partial) (t : option Z) : partial :=
  mkPartial (text p) (reasoning p) (calls p) (usage p) (timings p) (stop p) t (finished p).

(** The moment the response began producing tokens. *)
Definition begin (p : partial) : M partial :=
  match started p with
  | Some _ => mret p
  | None => t ← now; mret (with_started p (Some t))
  end.

(** One event of the stream. [quiet] is a nil [gen]. *)
Definition stream_event (runID : string) (quiet : bool) (p : partial) (e : StreamEvent)
    : M (partial + GoError) :=
  if finished p then mret (inr (ErrText "call model: provider sent an event after completion")) else
  match e with
  | KindTextDelta t =>
      p ← begin p;
      _ ← (if quiet then mret tt else emit (MessageDelta runID t));
      mret (inl (mkPartial (text p +:+ t) (reasoning p) (calls p) (usage p) (timings p) (stop p) (started p) false))
  | KindReasoningDelta t =>
      p ← begin p;
      _ ← (if quiet then mret tt else emit (ReasoningDelta runID t));
      mret (inl (mkPartial (text p) (reasoning p +:+ t) (calls p) (usage p) (timings p) (stop p) (started p) false))
  | KindToolCallDelta _ _ _ _ => p ← begin p; mret (inl p)
  | KindToolCall c =>
      mret (inl (mkPartial (text p) (reasoning p) (calls p ++ [c]) (usage p) (timings p) (stop p) (started p) false))
  | KindUsage u t =>
      let u := if bool_decide (u = zeroUsage) then usage p else u in
      let t := if Known t then t else timings p in
      let p := mkPartial (text p) (reasoning p) (calls p) u t (stop p) (started p) false in
      _ ← (if quiet then mret tt else g ← gets gen; emitProgress runID g u t (started p));
      mret (inl p)
  | KindDone r =>
      mret (inl (mkPartial (text p) (reasoning p) (calls p) (usage p) (timings p) r (started p) true))
  | KindError err => mret (inr (ErrWrap "call model" err))
  end.

(** The events as they arrive; other goroutines run while it waits for
    each. *)
Fixpoint stream_events (runID : string) (quiet : bool) (p : partial) (es : list StreamEvent)
    : M (partial + GoError) :=
  match es with
  | [] => mret (inl p)
  | e :: es' =>
      _ ← query E (fun _ => tt);
      r ← stream_event runID quiet p e;
      match r with
      | inr err => mret (inr err)
      | inl p => stream_events runID quiet p es'
      end
  end.

(* @src internal/agent/response.go 193-283 Agent.stream *)
Definition stream (runID : string) (req : Request) (quiet : bool) : M (response + GoError) :=
  _ ← modify (fun w => set_requests (requests w ++ [req]) w);
  evs ← query E (fun t => env_stream E t req);
  match evs with
  | inr err => mret (inr (ErrWrap "call model" err))
  | inl es =>
      r ← stream_events runID quiet start_partial es;
      match r with
      | inr err => mret (inr err)
      | inl p =>
          if negb (finished p) then
            mret (inr (ErrText "call model: provider stream closed without a completion event"))
          else if String.eqb (stop p) EmptyString then
            mret (inr (ErrText "call model: provider completion has no stop reason"))
          else
            let calls := if cutOff (stop p) then [] else calls p in
            _ ← (if quiet then mret tt else
                   elapsed ← elapsedSince (started p);
                   modify (fun w => set_gen (generation_add (gen w) (usage p) elapsed
                     (withHarnessDecode (timings p) (usage p) elapsed)) w));
            mret (inl (mkResponse (AssistantMessageWithReasoning (text p) (reasoning p) calls)
                         (stop p) (usage p)))
      end
  end.

(** How long to wait before the next attempt. *)
Definition retry_wait (backoff : Z) (err : GoError) : Z :=
  let wait := Z.min backoff maxRetryBackoff in
  if wait <? RetryAfter err then Z.min (RetryAfter err) maxRetryBackoff else wait.

(** [left] is how many retries the budget still allows. *)
Fixpoint retrying_from (left : nat) (backoff : Z) (runID : string) (reset : bool)
    (attempt : M (response + GoError)) : M (response + GoError) :=
  resp ← attempt;
  match resp with
  | inl r => mret (inl r)
  | inr err =>
      c ← ctx_err;
      match c with
      | Some e => mret (inr (ErrWrap "call model" e))
      | None =>
          if negb (Retryable err) || ContextOverflow err then mret (inr err) else
          match left with
          | O => mret (inr err)
          | S left' =>
              _ ← (if reset then emit (MessageReset runID) else mret tt);
              let wait := retry_wait backoff err in
              _ ← modify (fun w => set_waits (waits w ++ [wait]) w);
              ended ← query E (fun t => env_sleep E t wait);
              match ended with
              | Some e => mret (inr (ErrWrap "call model" e))
              | None => retrying_from left' (wrap64 (backoff * 2)) runID reset attempt
              end
          end
      end
  end.

(* @src internal/agent/response.go 158-191 Agent.retrying *)
Definition retrying (runID : string) (reset : bool) (attempt : M (response + GoError))
    : M (response + GoError) :=
  retrying_from (Z.to_nat (o_MaxRetries opts)) (o_RetryBackoff opts) runID reset attempt.

End stream.
