(* ===== verification/Summary.v ===== *)
(** Asking for a summary (internal/agent/summary.go): the conversation
    serialized as a transcript; the request, the cached form first,
    at each effort, then the transcript form; and the summary of a whole plan
    from its parts. *)
From S2P Require Import Prelude GoStr Float64 Json Provider Sampling Failure Conversation Context Compaction.
From S2P Require Import World Stream.
From stdpp Require Import options.

(* @src internal/agent/summary.go 125-135 minSummaryBudget *)
Definition minSummaryBudget : Z := 2048.
Definition transcriptToolResultRunes : Z := 2000.

(* @src internal/agent/summary.go 137-139 splitTurnSeparator *)
Definition splitTurnSeparator : string :=
  nl2 +:+ "---" +:+ nl2 +:+ "**Turn Context (split turn):**" +:+ nl2.

(* @src internal/agent/summary.go 141-154 CompactionSettings.prompts *)
Definition prompts (c : CompactionSettings) : CompactionPrompts :=
  let p := Prompts c in
  let or_builtin x d := if String.eqb (trim_space x) EmptyString then d else x in
  mkPrompts (or_builtin (PSummary p) SummaryPrompt) (or_builtin (PUpdate p) UpdatePrompt)
    (or_builtin (PTurnPrefix p) TurnPrefixPrompt).

(* @src internal/agent/summary.go 389-396 truncateRunes *)
Definition truncateRunes (text : string) (n : Z) : string :=
  let rs := runes text in
  if Z.of_nat (length rs) <=? n then text
  else string_of_runes (take (Z.to_nat n) rs) +:+ nl2 +:+
       "[... " +:+ itoa (Z.of_nat (length rs) - n) +:+ " more characters truncated]".

(** The arguments are a valid document by construction, so the decoder's
    error branches, which also write them as they are, are not reached. *)
(* @src internal/agent/summary.go 361-387 callText *)
Definition callText (c : ToolCall) : string :=
  let '(raw, _) := args_JSON (Arguments c) in
  match object_pairs raw with
  | Some ps =>
      CallName c +:+ "(" +:+ join (map (fun p => p.1 +:+ "=" +:+ p.2) ps) ", " +:+ ")"
  | None => CallName c +:+ "(" +:+ raw +:+ ")"
  end.

Definition message_text (m : Message) : list string :=
  let when (b : bool) (s : string) := if b then [s] else [] in
  if String.eqb (MRole m) RoleUser then
    when (nonempty (Content m)) ("[User]: " +:+ Content m) ++
    (let n := Z.of_nat (length (Images m)) in
     if n =? 1 then ["[User attached an image]"%string]
     else if 1 <? n then ["[User attached " +:+ itoa n +:+ " images]"] else [])
  else if String.eqb (MRole m) RoleAssistant then
    when (nonempty (Reasoning m)) ("[Assistant thinking]: " +:+ Reasoning m) ++
    when (nonempty (Content m)) ("[Assistant]: " +:+ Content m) ++
    when (0 <? length (ToolCalls m))%nat
      ("[Assistant tool calls]: " +:+ join (map callText (ToolCalls m)) "; ")
  else if String.eqb (MRole m) RoleTool then
    when (nonempty (Content m))
      ("[Tool result]: " +:+ truncateRunes (Content m) transcriptToolResultRunes)
  else [].

(* @src internal/agent/summary.go 321-359 transcript *)
Definition transcript (msgs : list Message) : string := join (concat (map message_text msgs)) nl2.

(* @src internal/agent/summary.go 308-319 transcriptContext *)
Definition transcriptContext (base : Context) (msgs : list Message) (prompt : string) : Context :=
  let c := mkContext [newSection SectionBase TranscriptSystemPrompt] [] [] 0 [] (CParameters base) in
  let text := "<conversation>" +:+ nl +:+ transcript msgs +:+ nl +:+ "</conversation>" +:+ nl2 +:+ prompt in
  WithMessages c [UserMessage text].

(* @src internal/agent/summary.go 398-401 summaryText *)
Definition summaryText (m : Message) : string :=
  trim_suffix (trim_prefix (Content m) summaryPrefix) summarySuffix.

(** A summary message carries exactly the summary it was made from. *)
Lemma summaryText_SummaryMessage s : summaryText (SummaryMessage s) = s.
Proof. unfold summaryText, SummaryMessage. cbn [Content]. by rewrite trim_prefix_app, trim_suffix_app. Qed.

Example callText_ordered :
  callText (mkToolCall "1" "bash" (of_bytes [123; 34; 98; 34; 58; 32; 49; 44; 34; 97; 34; 58; 91; 32; 50; 93; 125])) =
  "bash(b=1, a=[2])"%string.
Proof. vm_compute. reflexivity. Qed.

Example callText_malformed : callText (mkToolCall "1" "bash" "{x") = ("bash(" +:+ dq +:+ "{x" +:+ dq +:+ ")").
Proof. vm_compute. reflexivity. Qed.

(* @src internal/agent/summary.go 403-410 addUsage *)
Definition addUsage (a b : Usage) : Usage := usage_plus a b.

(* @src internal/agent/summary.go 204-216 summaryRequest *)
Record summaryRequest := mkSummaryRequest {
  sr_end : nat;
  sr_from : nat;
  sr_prompt : string;
  sr_budget : Z;
}.

(** What the attempts at one summary add up to: their usage, and the longest
    text one of them was cut off at. *)
Record progress := mkProgress { pg_usage : Usage; pg_partial : string }.

(** What one form came to: a summary, a form that cannot work ([next] says to
    try the other one), or neither. *)
Record answer := mkAnswer { an_text : string; an_next : bool; an_err : option GoError }.

Section summary.
  Context (E : Env) (opts : Options).

(** The answer of one attempt, or [None] to try the next effort. *)
Definition judge (r : response) (pg : progress) : option answer * progress :=
  let text := trim_space (StripReasoning (Content (r_message r))) in
  if nonempty text && negb (cutOff (r_stop r)) then (Some (mkAnswer text false None), pg)
  else if String.eqb text EmptyString && (0 <? length (ToolCalls (r_message r)))%nat then
    (Some (mkAnswer EmptyString true (Some (ErrText "the model called a tool instead of summarizing"))), pg)
  else if (String.length (pg_partial pg) <? String.length text)%nat then
    (None, mkProgress (pg_usage pg) text)
  else (None, pg).

(** The closure [ask] of [summary]: every effort in one form. *)
Fixpoint ask (efforts : list (option string)) (c : Context) (budget : Z) (pg : progress)
    : M (answer * progress) :=
  match efforts with
  | [] => mret (mkAnswer EmptyString false None, pg)
  | effort :: efforts' =>
      let c := with_sampling (fun sm => with_effort effort (with_max_output (Some budget) sm)) c in
      resp ← retrying E opts EmptyString false (stream E opts EmptyString (Context_Request c) true);
      match resp with
      | inr err => mret (mkAnswer EmptyString (ContextOverflow err) (Some err), pg)
      | inl r =>
          let pg := mkProgress (addUsage (pg_usage pg) (r_usage r)) (pg_partial pg) in
          match judge r pg with
          | (Some a, pg) => mret (a, pg)
          | (None, pg) => ask efforts' c budget pg
          end
      end
  end.

(* @src internal/agent/summary.go 297-306 Agent.partialSummary *)
Definition partialSummary (budget : Z) (pg : progress) : (string + GoError) * Usage :=
  if String.eqb (pg_partial pg) EmptyString then
    (inr (ErrText ("the model produced no summary within " +:+ itoa budget +:+ " output tokens")),
     pg_usage pg)
  else (inl (pg_partial pg), pg_usage pg).

Definition summary_budget (base : Context) (r : summaryRequest) : Z :=
  match MaxOutput (PSampling (CParameters base)) with
  | Some m => Z.min (sr_budget r) m
  | None => sr_budget r
  end.

Definition summary_efforts (base : Context) : list (option string) :=
  let e0 := ReasoningEffort (PSampling (CParameters base)) in
  let f := FallbackEffort (o_Compaction opts) in
  if nonempty f && bool_decide (e0 <> Some f) then [e0; Some f] else [e0].

(** The output room a form leaves in the window. *)
Definition summary_room (budget : Z) (c : Context) (msgs : list Message) : Z :=
  if 0 <? o_ContextWindow opts
  then Z.min budget (o_ContextWindow opts - estimateContext c msgs) else budget.

Definition cached_messages (msgs : list Message) (r : summaryRequest) : list Message :=
  take (sr_end r) msgs ++ [UserMessage (sr_prompt r)].

(** The transcript form, and what is left when it does not answer either. *)
Definition transcript_form (base : Context) (msgs : list Message) (r : summaryRequest)
    (efforts : list (option string)) (budget : Z) (pg : progress) : M ((string + GoError) * Usage) :=
  let need := Z.min budget minSummaryBudget in
  let c := transcriptContext base (drop (sr_from r) (take (sr_end r) msgs)) (sr_prompt r) in
  let room := summary_room budget c (Messages c) in
  if room <? need then
    mret (inr (ErrText ("the conversation to summarize does not fit the configured window of " +:+
                 itoa (o_ContextWindow opts) +:+ " with room for a summary")), pg_usage pg)
  else
    '(a, pg) ← ask efforts c room pg;
    if nonempty (an_text a) then mret (inl (an_text a), pg_usage pg)
    else match an_err a with
         | Some err => mret (inr err, pg_usage pg)
         | None => mret (partialSummary budget pg)
         end.

(* @src internal/agent/summary.go 218-295 Agent.summary *)
Definition summary (base : Context) (msgs : list Message) (r : summaryRequest)
    : M ((string + GoError) * Usage) :=
  let budget := summary_budget base r in
  let efforts := summary_efforts base in
  let need := Z.min budget minSummaryBudget in
  let pg := mkProgress zeroUsage EmptyString in
  let sent := cached_messages msgs r in
  let cached := WithMessages base sent in
  let room := summary_room budget cached sent in
  if need <=? room then
    '(a, pg) ← ask efforts cached room pg;
    if nonempty (an_text a) then mret (inl (an_text a), pg_usage pg)
    else match an_err a, an_next a with
         | Some err, false => mret (inr err, pg_usage pg)
         | _, false => mret (partialSummary budget pg)
         | _, true => transcript_form base msgs r efforts budget pg
         end
  else transcript_form base msgs r efforts budget pg.

(** The summary of the complete turns before the cut. *)
Definition summarize_history (base : Context) (msgs : list Message) (plan : compactionPlan)
    (instructions : string) : M ((string + GoError) * Usage) :=
  let p := prompts (o_Compaction opts) in
  let reserve := reserveTokens (o_Compaction opts) (o_ContextWindow opts) in
  if (p_start plan <? historyEnd plan)%nat then
    let prompt := if previous plan then PUpdate p else PSummary p in
    let instructions := trim_space instructions in
    let prompt := if nonempty instructions
                  then prompt +:+ nl2 +:+ "Additional focus: " +:+ instructions else prompt in
    '(r, u) ← summary base msgs
      (mkSummaryRequest (historyEnd plan) 0 prompt (Z.quot (reserve * 8) 10));
    mret (r, addUsage zeroUsage u)
  else if previous plan then mret (inl (summaryText (msg_at msgs 0)), zeroUsage)
  else mret (inl EmptyString, zeroUsage).

(* @src internal/agent/summary.go 156-202 Agent.summarize *)
Definition summarize (base : Context) (msgs : list Message) (plan : compactionPlan)
    (instructions : string) : M ((string + GoError) * Usage) :=
  let p := prompts (o_Compaction opts) in
  let reserve := reserveTokens (o_Compaction opts) (o_ContextWindow opts) in
  '(h, usage) ← summarize_history base msgs plan instructions;
  match h with
  | inr err => mret (inr err, usage)
  | inl history =>
      match p_turnStart plan with
      | None => mret (inl history, usage)
      | Some turnStart =>
          '(r, u) ← summary base msgs
            (mkSummaryRequest (p_first plan) turnStart (PTurnPrefix p) (Z.quot reserve 2));
          let usage := addUsage usage u in
          match r with
          | inr err => mret (inr err, usage)
          | inl prefix =>
              let history := if String.eqb history EmptyString then "No prior history."%string else history in
              mret (inl (history +:+ splitTurnSeparator +:+ prefix), usage)
          end
      end
  end.

End summary.
