(* ===== verification/GoPath.v ===== *)
(** Slash-separated paths: Go's [path.Clean] and [path.Join], which on Unix
    are also [filepath.Clean] and [filepath.Join]. A cleaned path is computed
    on its list of elements. *)
From S2P Require Import Prelude GoStr.
From stdpp Require Import options.

Definition slash : Ascii.ascii := Ascii.ascii_of_N 47.
Definition slash_s : string := chr 47.
Definition dot_s : string := "."%string.
Definition dotdot : string := ".."%string.

(** One element onto the cleaned ones before it, which are kept newest
    first. *)
Definition clean_step (rooted : bool) (acc : list string) (e : string) : list string :=
  if String.eqb e EmptyString || String.eqb e dot_s then acc
  else if String.eqb e dotdot then
    match acc with
    | [] => if rooted then [] else [dotdot]
    | x :: acc' => if String.eqb x dotdot then dotdot :: acc else acc'
    end
  else e :: acc.

(** The elements of a cleaned path, oldest first. *)
Definition clean_elems (rooted : bool) (es : list string) : list string :=
  rev (foldl (clean_step rooted) [] es).

Definition is_abs (p : string) : bool := has_prefix p slash_s.

Definition render (rooted : bool) (es : list string) : string :=
  match rooted, es with
  | true, _ => slash_s +:+ join es slash_s
  | false, [] => dot_s
  | false, _ => join es slash_s
  end.

(** [path.Clean]. *)
Definition Clean (p : string) : string :=
  if String.eqb p EmptyString then dot_s
  else let rooted := is_abs p in render rooted (clean_elems rooted (split p slash)).

(** [path.Join]. *)
Definition Join (es : list string) : string :=
  match base.filter (fun e => e <> EmptyString) es with
  | [] => EmptyString
  | es' => Clean (join es' slash_s)
  end.

Example clean_dots : Clean "a/../../b//c/./d/.." = "../b/c"%string.
Proof. vm_compute. reflexivity. Qed.

Example clean_rooted : Clean "/../a/" = "/a"%string.
Proof. vm_compute. reflexivity. Qed.

Example clean_root : Clean "/.." = "/"%string.
Proof. vm_compute. reflexivity. Qed.

(** ** What cleaning leaves *)

(** A path element: not empty, no dots alone, and no slash. *)
Definition element (e : string) : Prop :=
  e <> EmptyString /\ e <> dot_s /\ Forall (fun b => b <> 47) (bytes_of e).

(** Newest first: a run of ordinary elements above a run of [..], which only a
    relative path has. *)
Inductive cleaned (rooted : bool) : list string -> Prop :=
| cl_nil : cleaned rooted []
| cl_elem e acc : element e -> e <> dotdot -> cleaned rooted acc -> cleaned rooted (e :: acc)
| cl_up acc : rooted = false -> Forall (fun x => x = dotdot) acc -> cleaned rooted (dotdot :: acc).

Lemma cleaned_ups n : cleaned false (repeat dotdot n).
Proof.
  destruct n as [|n]; [constructor|]. simpl. apply cl_up; [done|].
  induction n; constructor; done.
Qed.

Lemma cleaned_up_all rooted acc : cleaned rooted (dotdot :: acc) -> Forall (fun x => x = dotdot) acc.
Proof. inversion 1; done. Qed.

Lemma clean_step_cleaned rooted acc e :
  cleaned rooted acc -> Forall (fun b => b <> 47) (bytes_of e) -> cleaned rooted (clean_step rooted acc e).
Proof.
  intros Hc He. unfold clean_step.
  destruct (String.eqb_spec e EmptyString) as [->|H1]; [done|].
  destruct (String.eqb_spec e dot_s) as [->|H2]; [done|]. cbn [orb].
  destruct (String.eqb_spec e dotdot) as [->|H3]; [|by apply cl_elem].
  destruct acc as [|x acc]; [destruct rooted; [constructor|by apply cl_up]|].
  destruct (String.eqb_spec x dotdot) as [->|H4].
  - inversion Hc as [|? ? _ Hx|? Hr Hall]; subst; [done|]. apply cl_up; [done|]. by constructor.
  - inversion Hc; subst; done.
Qed.

Lemma clean_fold_cleaned rooted acc es :
  cleaned rooted acc -> Forall (fun e => Forall (fun b => b <> 47) (bytes_of e)) es ->
  cleaned rooted (foldl (clean_step rooted) acc es).
Proof.
  revert acc. induction es as [|e es IH]; intros acc Hc Hes; [done|]. inversion Hes; subst.
  cbn [foldl]. apply IH; [by apply clean_step_cleaned|done].
Qed.

Lemma split_go_no_slash acc s :
  Forall (fun b => b <> 47) (bytes_of acc) ->
  Forall (fun e => Forall (fun b => b <> 47) (bytes_of e)) (split_go slash acc s).
Proof.
  revert acc. induction s as [|a s IH]; intros acc H; cbn [split_go]; [by constructor|].
  destruct (Ascii.eqb_spec a slash) as [->|Ha].
  - constructor; [done|]. by apply IH.
  - apply IH. rewrite bytes_of_app. apply Forall_app. split; [done|]. constructor; [|constructor].
    intros Hb. apply Ha. rewrite <- (of_byte_of a), Hb. reflexivity.
Qed.

(** The elements of a cleaned path never climb above a root. *)
Lemma clean_elems_rooted s :
  Forall (fun e => element e /\ e <> dotdot) (clean_elems true (split s slash)).
Proof.
  unfold clean_elems. apply Forall_rev.
  assert (H : cleaned true (foldl (clean_step true) [] (split s slash)))
    by (apply clean_fold_cleaned; [constructor|by apply split_go_no_slash]).
  revert H. generalize (foldl (clean_step true) [] (split s slash)). intros l H.
  induction H as [|e acc He Hd Hc IH|acc Hr]; [constructor|by constructor|done].
Qed.
