(* ===== verification/ContextFile.v ===== *)
(** Package [contextfile] (internal/contextfile): which context files apply
    to a directory, in what order, and how they are rendered. The workspace's
    files are read through the executor, which is a parameter: [env_stat] is
    [Stat], with [None] for a path that does not exist and whether it is a
    directory otherwise; [env_read] is [ReadFile] with its size bound. *)
From S2P Require Import Prelude GoStr GoPath Failure World.
From stdpp Require Import options.

(* @src internal/contextfile/contextfile.go 13-22 NameAgents *)
Definition NameAgents : string := "AGENTS.md".
Definition NameClaude : string := "CLAUDE.md".
Definition NameOverride : string := "AGENTS.override.md".

(* @src internal/contextfile/contextfile.go 24-27 DefaultGlobalPath *)
Definition DefaultGlobalPath : string := ".config/eika/AGENTS.md".

(* @src internal/contextfile/contextfile.go 33-37 File *)
Record File := mkFile { Path : string; FContent : string }.

#[export] Instance File_eq_dec : EqDecision File.
Proof. solve_decision. Defined.

(* @src internal/contextfile/contextfile.go 39-48 Options *)
Record CFOptions := mkCFOptions { Dir : string; GlobalPath : string }.

(** [strings.ReplaceAll s] of a backslash by a slash. *)
Definition to_slashes (s : string) : string :=
  of_bytes (map (fun b => if b =? 92 then 47 else b) (bytes_of s)).

(** The prefixes of a list, shortest first. *)
Definition prefixes {A} (l : list A) : list (list A) :=
  map (fun i => take (S i) l) (seq 0 (length l)).

(* @src internal/contextfile/contextfile.go 95-109 directories *)
Definition directories (dir : string) : list string :=
  let clean := Clean (trim_prefix (to_slashes dir) slash_s) in
  if String.eqb clean dot_s || String.eqb clean EmptyString || has_prefix clean dotdot then [dot_s]
  else dot_s :: map Join (prefixes (split clean slash)).

(* @src internal/contextfile/contextfile.go 79-93 Section *)
Definition SectionText (files : list File) : string :=
  match files with
  | [] => EmptyString
  | _ =>
      "# Workspace instructions" +:+ nl2 +:+
      "These files describe how to work in this workspace. Follow them. " +:+
      "When two files disagree, the one listed later is more specific and wins." +:+ nl +:+
      join (map (fun f => nl +:+ "## " +:+ Path f +:+ nl2 +:+ trim_right (FContent f) 10 +:+ nl) files)
        EmptyString
  end.

Section discover.
  Context (E : Env).

(* @src internal/contextfile/contextfile.go 123-146 read *)
Definition read (p : string) : M (option File + GoError) :=
  info ← query E (fun t => env_stat E t p);
  match info with
  | inl None => mret (inl None)
  | inr err => mret (inr (ErrWrap ("stat context file " +:+ p) err))
  | inl (Some true) => mret (inl None)
  | inl (Some false) =>
      data ← query E (fun t => env_read E t p);
      match data with
      | inr err => mret (inr (ErrWrap ("read context file " +:+ p) err))
      | inl data =>
          let content := trim_space data in
          if String.eqb content EmptyString then mret (inl None)
          else mret (inl (Some (mkFile p content)))
      end
  end.

Fixpoint read_first (dir : string) (names : list string) : M (option File + GoError) :=
  match names with
  | [] => mret (inl None)
  | name :: names' =>
      r ← read (Join [dir; name]);
      match r with
      | inl None => read_first dir names'
      | _ => mret r
      end
  end.

(* @src internal/contextfile/contextfile.go 111-121 readDir *)
Definition readDir (dir : string) : M (option File + GoError) :=
  read_first dir [NameOverride; NameAgents; NameClaude].

Fixpoint read_dirs (globalPath : string) (dirs : list string) (files : list File)
    : M (list File + GoError) :=
  match dirs with
  | [] => mret (inl files)
  | dir :: dirs' =>
      r ← readDir dir;
      match r with
      | inr err => mret (inr err)
      | inl (Some f) =>
          read_dirs globalPath dirs'
            (if String.eqb (Path f) globalPath then files else files ++ [f])
      | inl None => read_dirs globalPath dirs' files
      end
  end.

(* @src internal/contextfile/contextfile.go 50-77 Discover *)
Definition Discover (o : CFOptions) : M (list File + GoError) :=
  let globalPath := if String.eqb (GlobalPath o) EmptyString then DefaultGlobalPath else GlobalPath o in
  r ← read globalPath;
  match r with
  | inr err => mret (inr err)
  | inl f => read_dirs globalPath (directories (Dir o)) (match f with Some f => [f] | None => [] end)
  end.

End discover.

Example directories_nested : directories "a/b" = ["."; "a"; "a/b"]%string.
Proof. vm_compute. reflexivity. Qed.

Example directories_escape : directories "../x" = ["."]%string.
Proof. vm_compute. reflexivity. Qed.
