(* ===== verification/Agent.v ===== *)
(** The agent loop (internal/agent: agent.go, response.go, compaction.go):
    compacting the conversation, calling the model, running tools, and the
    turns of a run. *)
From S2P Require Import Prelude GoStr Float64 Json Provider Sampling Failure Tool Conversation Context.
From S2P Require Import Compaction Summary World Stream ContextFile.
From stdpp Require Import options.
Import Conversation.Queue(queue, unshift, drain, QueueAll, QueueOneAtATime).

(** The options [New] fills in. *)
(* @src internal/agent/agent.go 103-122 New *)
Definition New (o : Options) : Options :=
  mkOptions (o_Model o) (o_ContextWindow o) (o_Compaction o) (o_Sampling o) (o_ThinkingSwitch o)
    (o_PreserveThinking o) (o_ImageInput o) (o_BasePrompt o) (o_SkipContextFiles o)
    (o_Instructions o) (o_ContextDir o)
    (if String.eqb (o_Queue o) EmptyString then QueueOneAtATime else o_Queue o)
    (if o_MaxRetries o =? 0 then defaultMaxRetries else o_MaxRetries o)
    (if o_RetryBackoff o <=? 0 then defaultRetryBackoff else o_RetryBackoff o)
    (o_executor o) (o_store o) (o_recorder o) (o_tools o).

(** Which queue a turn's messages came from, to put them back. *)
Inductive queueRef := FromSteering | FromFollowUps.

Section agent.
  Context (E : Env) (opts : Options) (s : Session).

(** ** Assembling a request *)

(* @src internal/agent/context.go 205-225 Agent.base *)
Definition base (prompt : list PromptSection) : Context :=
  let defs := match o_tools opts with Some r => Schemas r | None => [] end in
  mkContext prompt
    (map (fun def => mkToolSchema def (sourceOf (DefName def)) (ToolTokens def)) defs)
    [] 0 []
    (mkParameters (o_Model opts) (o_Sampling opts) (o_ThinkingSwitch opts)
       (o_PreserveThinking opts) (o_ImageInput opts)).

(* @src internal/agent/context.go 199-203 Agent.assemble *)
Definition assemble (prompt : list PromptSection) (w : World) : Context :=
  WithMessages (base prompt) (Conv.Messages (conv w)).

(* @src internal/agent/prompt.go 33-69 Agent.prompt *)
Definition prompt : M (list PromptSection + GoError) :=
  let builtin := if o_executor opts then WorkspacePrompt else ChatPrompt in
  let text := trim_space (default builtin (o_BasePrompt opts)) in
  let sections := if nonempty text then [newSection SectionBase text] else [] in
  let instructions := trim_space (o_Instructions opts) in
  let rest := if nonempty instructions then [newSection SectionInstructions instructions] else [] in
  if o_executor opts && negb (o_SkipContextFiles opts) then
    r ← Discover E (mkCFOptions (o_ContextDir opts) EmptyString);
    match r with
    | inr err => mret (inr err)
    | inl files =>
        let text := SectionText files in
        let cf := mkSection SectionContextFiles text (EstimateTokens text)
          (map (fun f => mkContextFile (Path f) (FContent f) (EstimateTokens (FContent f))) files) in
        mret (inl (sections ++ (if nonempty text then [cf] else []) ++ rest))
    end
  else mret (inl (sections ++ rest)).

(** ** Compacting *)

(** The result is how many messages at the start of the conversation are
    stored, and the failure. *)
(* @src internal/agent/compaction.go 247-297 Agent.compact *)
Definition compact (runID : string) (prompt : list PromptSection) (stored : nat)
    (reason instructions : string) : M (nat * option GoError) :=
  msgs ← gets (fun w => Conv.Messages (conv w));
  let base := base prompt in
  let sent := WithMessages base msgs in
  let keep := keepRecentTokens (o_Compaction opts) (o_ContextWindow opts) in
  match planCompaction msgs (MessageSizes sent) stored keep with
  | (_, false) => mret (stored, Some ErrNothingToCompact)
  | (plan, true) =>
      let before := estimateContext sent msgs in
      _ ← emit (CompactionStart runID reason before);
      let failed u err :=
        let err := ErrWrap "compact conversation" err in
        _ ← emit (CompactionEnd runID reason before 0 EmptyString 0 u (error_text err));
        mret (stored, Some err) in
      '(r, u) ← summarize E opts base msgs plan instructions;
      match r with
      | inr err => failed u err
      | inl summary =>
          let kept := Z.of_nat stored - Z.of_nat (p_first plan) in
          let record := mkCompaction summary kept before 0 reason u in
          let next := Compacted (take stored msgs) record ++ drop stored msgs in
          let after := estimateContext (WithMessages base next) next in
          let record := mkCompaction summary kept before after reason u in
          err ← (if o_store opts then query E (fun t => env_store E t (SCompaction record))
                 else mret None);
          match err with
          | Some e => failed u (ErrWrap "store compaction" e)
          | None =>
              _ ← modify (fun w => if o_store opts then set_log (log w ++ [SCompaction record]) w else w);
              _ ← modify (fun w => set_conv (Conv.Replace next (conv w)) w);
              _ ← emit (CompactionEnd runID reason before after summary kept u EmptyString);
              mret (S (Z.to_nat kept), None)
          end
      end
  end.

(** [mark] is [*pendingMark]: the index of the turn's first undelivered
    message, or [None] for -1. *)
(* @src internal/agent/response.go 140-156 Agent.autoCompact *)
Definition autoCompact (runID : string) (prompt : list PromptSection) (mark : option nat)
    (reason : string) : M (option GoError * option nat) :=
  len ← gets (fun w => length (Conv.Messages (conv w)));
  let stored := default len mark in
  '(n, err) ← compact runID prompt stored reason EmptyString;
  match err with
  | Some e => mret (Some e, mark)
  | None => mret (None, match mark with Some _ => Some n | None => None end)
  end.

(* @src internal/agent/compaction.go 219-226 Agent.Compactable *)
Definition Compactable (w : World) : bool :=
  let msgs := Conv.Messages (conv w) in
  let c := WithMessages (base []) msgs in
  (planCompaction msgs (MessageSizes c) (length msgs)
     (keepRecentTokens (o_Compaction opts) (o_ContextWindow opts))).2.

(* @src internal/agent/compaction.go 228-245 Agent.Compact *)
Definition Compact (instructions : string) : M (option GoError) :=
  runID ← newRunID E;
  p ← prompt;
  match p with
  | inr err => e ← fail runID (ErrWrap "compact" err); mret (Some e)
  | inl p =>
      len ← gets (fun w => length (Conv.Messages (conv w)));
      '(_, err) ← compact runID p len CompactManual instructions;
      mret err
  end.

(** ** Calling the model *)

(** What a call comes to: the response and the request it answered, or a
    failure; and where the undelivered messages begin now. *)
Definition call_result : Type := ((response * Context) + GoError) * option nat.

(** An attempt that the window cut short counts as an overflow. *)
(* @src internal/agent/response.go 121-124 Agent.call *)
Definition check_overflow (auto : bool) (r : response + GoError) : response + GoError :=
  match r with
  | inl r => if auto && silentOverflow r (o_ContextWindow opts) then inr errSilentOverflow else inl r
  | inr err => inr err
  end.

Definition overflowed (err : GoError) : bool :=
  ContextOverflow err ||
  is_sentinel "call model: the endpoint filled its context window with the request and produced nothing" err.

(** The loop of [call]: each compaction happens at most once, so it runs at
    most three times. *)
(* @src internal/agent/response.go 100-137 Agent.call *)
Fixpoint call_loop (fuel : nat) (runID : string) (prompt : list PromptSection)
    (compacted recovered : bool) (mark : option nat) : M call_result :=
  match fuel with
  | O => out_of_fuel
  | S fuel' =>
      msgs ← gets (fun w => Conv.Messages (conv w));
      let sent := WithMessages (base prompt) msgs in
      let tokens := estimateContext sent msgs in
      if negb compacted && shouldCompact (o_Compaction opts) (o_ContextWindow opts) tokens then
        '(err, mark) ← autoCompact runID prompt mark CompactThreshold;
        c ← (match err with Some _ => ctx_err E | None => mret None end);
        match c with
        | Some e => mret (inr (ErrWrap "call model" e), mark)
        | None => call_loop fuel' runID prompt true recovered mark
        end
      else
        match fit sent tokens (o_ContextWindow opts) with
        | inr err => mret (inr err, mark)
        | inl sent =>
            resp ← retrying E opts runID true (stream E opts runID (Context_Request sent) false);
            let auto := Auto (o_Compaction opts) && negb recovered in
            match check_overflow auto resp with
            | inl r => mret (inl (r, sent), mark)
            | inr err =>
                c ← (if auto then ctx_err E else mret None);
                if negb auto || bool_decide (c <> None) || negb (overflowed err) then mret (inr err, mark)
                else
                  _ ← emit (MessageReset runID);
                  '(cerr, mark) ← autoCompact runID prompt mark CompactOverflow;
                  match cerr with
                  | Some ce => mret (inr (ErrJoin [err; ce]), mark)
                  | None => call_loop fuel' runID prompt true true mark
                  end
            end
        end
  end.

(* @src internal/agent/response.go 90-138 Agent.call *)
Definition call (runID : string) (prompt : list PromptSection) (mark : option nat) : M call_result :=
  call_loop 4 runID prompt false false mark.

(** [record] logs a failure to keep a record and goes on. *)
(* @src internal/agent/context.go 317-331 Agent.record *)
Definition record (runID : string) (c : Context) (usage : Usage) : M unit :=
  if negb (o_recorder opts) then mret tt else
  let mc := mkModelCall runID (SessionID s) c usage in
  l ← gets log;
  _ ← modify (fun w => set_records (records w ++ [(mc, l)]) w);
  _ ← query E (fun t => env_record E t mc);
  mret tt.

(** ** Running tools *)

(* @src internal/agent/agent.go 381-402 Agent.dispatch *)
Definition dispatch (runID : string) (c : ToolCall) : M (Result + GoError) :=
  match o_tools opts with
  | None => mret (inl (Errorf "no tools are available in this session"))
  | Some r =>
      match Get r (CallName c) with
      | None => mret (inl (Errorf ("unknown tool " +:+ go_quote (CallName c))))
      | Some t =>
          if negb (o_executor opts) && NeedsWorkspace t then
            mret (inl (Errorf ("this session has no workspace, so " +:+ CallName c +:+ " cannot run")))
          else
            query E (fun n => env_tool E n t
              (mkCallContext (o_executor opts) (WorkspaceID s) (SessionID s) runID (CallID c))
              (Arguments c))
      end
  end.

(* @src internal/agent/agent.go 353-379 Agent.callTool *)
Definition callTool (runID : string) (c : ToolCall) : M (Message + GoError) :=
  _ ← emit (EvToolCall runID c);
  start ← now E;
  result ← dispatch runID c;
  match result with
  | inr err => mret (inr (ErrWrap ("run tool " +:+ CallName c) err))
  | inl res =>
      stop ← now E;
      _ ← emit (EvToolResult runID (CallID c) (CallName c) (ResContent res) (ResIsError res)
                  (ResDetails res) (milliseconds (stop - start)));
      mret (inl (ToolResultMessage (CallID c) (ResContent res) (ResIsError res)))
  end.

(* @src internal/agent/agent.go 328-351 Agent.abandonToolCalls *)
Fixpoint abandonToolCalls (runID : string) (calls : list ToolCall) (cause : GoError)
    (joined : option GoError) : M (option GoError) :=
  match calls with
  | [] => mret joined
  | c :: calls' =>
      let content := "the run stopped before this tool call finished: " +:+ error_text cause in
      _ ← emit (EvToolResult runID (CallID c) (CallName c) content true EmptyString 0);
      err ← append E opts (ToolResultMessage (CallID c) content true);
      match err with
      | Some e => abandonToolCalls runID calls' cause (errors_join [joined; Some e])
      | None => abandonToolCalls runID calls' cause joined
      end
  end.

(** ** Turns *)

(** The variables of a turn. [t_mark] is [pendingMark], [None] for -1. *)
Record turnState := mkTurn {
  t_mark : option nat;
  t_pending : list Message;
  t_msgs : list Message;
  t_origin : option queueRef;
  t_steered : list Message;
}.

Definition unshift_to (q : queueRef) (msgs : list Message) (w : World) : World :=
  match q with
  | FromSteering => set_steering (unshift msgs (steering w)) w
  | FromFollowUps => set_followUps (unshift msgs (followUps w)) w
  end.

(** The closure [addPending]. *)
(* @src internal/agent/agent.go 198-204 Agent.turn *)
Definition addPending (st : turnState) (m : Message) : M turnState :=
  len ← gets (fun w => length (Conv.Messages (conv w)));
  _ ← modify (fun w => set_conv (Conv.Append m (conv w)) w);
  mret (mkTurn (Some (default len (t_mark st))) (t_pending st ++ [m]) (t_msgs st) (t_origin st)
          (t_steered st)).

Fixpoint addPendings (st : turnState) (ms : list Message) : M turnState :=
  match ms with
  | [] => mret st
  | m :: ms' => st ← addPending st m; addPendings st ms'
  end.

(** The closure [restoreFrom]: keep the first [stored] undelivered messages,
    and take the rest back. *)
(* @src internal/agent/agent.go 224-240 Agent.turn *)
Definition restoreFrom (st : turnState) (stored : nat) : M unit :=
  _ ← (match t_mark st with
       | Some mark =>
           modify (fun w => set_conv (Conv.Truncate (Z.of_nat mark + Z.of_nat stored) (conv w)) w)
       | None => mret tt
       end);
  let originStored := Nat.min stored (length (t_msgs st)) in
  _ ← (match t_origin st with
       | Some q =>
           if (originStored <? length (t_msgs st))%nat
           then modify (unshift_to q (drop originStored (t_msgs st))) else mret tt
       | None => mret tt
       end);
  let steeringStored := (stored - length (t_msgs st))%nat in
  if (steeringStored <? length (t_steered st))%nat
  then modify (fun w => set_steering (unshift (drop steeringStored (t_steered st)) (steering w)) w)
  else mret tt.

(* @src internal/agent/agent.go 412-417 Agent.drainSteering *)
Definition drainSteering : M (list Message) :=
  ms ← gets (fun w => Q.pending (steering w));
  _ ← modify (fun w => set_steering (drain (steering w)).2 w);
  mret ms.

(** Persisting the delivered messages; the index of the first the store
    refused, and why. *)
(* @src internal/agent/agent.go 257-264 Agent.turn *)
Fixpoint storePending (i : nat) (ms : list Message) : M (option (nat * GoError)) :=
  match ms with
  | [] => mret None
  | m :: ms' =>
      err ← store E opts m;
      match err with
      | Some e => mret (Some (i, e))
      | None => storePending (S i) ms'
      end
  end.

(** The calls of a reply, one by one; the failure that ends the turn. *)
(* @src internal/agent/agent.go 309-324 Agent.turn *)
Fixpoint runTools (runID : string) (calls : list ToolCall) : M (option GoError) :=
  match calls with
  | [] => mret None
  | call :: calls' =>
      c ← ctx_err E;
      match c with
      | Some err =>
          let err := ErrWrap "run turn" err in
          j ← abandonToolCalls runID calls err None;
          e ← fail runID (default err (errors_join [Some err; j]));
          mret (Some e)
      | None =>
          result ← callTool runID call;
          match result with
          | inr err =>
              j ← abandonToolCalls runID calls err None;
              e ← fail runID (default err (errors_join [Some err; j]));
              mret (Some e)
          | inl m =>
              serr ← appendTerminal E opts m;
              match serr with
              | Some err =>
                  j ← abandonToolCalls runID calls err None;
                  e ← fail runID (default err (errors_join [Some err; j]));
                  mret (Some e)
              | None => runTools runID calls'
              end
          end
      end
  end.

(** The measurements a reply carries. *)
(* @src internal/agent/agent.go 269-280 Agent.turn *)
Definition with_gen_metrics (runID : string) (g : generation) (reply : Message) : Message :=
  if bool_decide (g_context g = zeroUsage) then reply
  else with_metrics (Some (mkMetrics runID (g_usage g) (g_context g) (milliseconds (g_elapsed g))
                             (o_ContextWindow opts) (reported g))) reply.

(** Everything after a response arrived: [None] goes around the loop again. *)
(* @src internal/agent/agent.go 257-325 Agent.turn *)
Definition deliver (runID : string) (st : turnState) (resp : response) (sent : Context)
    : M (option (option GoError)) :=
  perr ← storePending 0 (t_pending st);
  match perr with
  | Some (i, err) =>
      _ ← restoreFrom st i;
      e ← fail runID err;
      mret (Some (Some e))
  | None =>
      _ ← record runID sent (r_usage resp);
      g ← gets gen;
      let reply := with_gen_metrics runID g (r_message resp) in
      aerr ← (if empty reply then mret None
              else if (length (ToolCalls reply) =? 0)%nat then append E opts reply
              else appendTerminal E opts reply);
      match aerr with
      | Some err => mret (Some (Some err))
      | None =>
          if (length (ToolCalls reply) =? 0)%nat then
            _ ← emit (TurnEnd runID (r_stop resp) (g_usage g) (g_context g)
                        (milliseconds (g_elapsed g)) (o_ContextWindow opts) (reported g));
            mret (Some None)
          else
            terr ← runTools runID (ToolCalls reply);
            match terr with
            | Some err => mret (Some (Some err))
            | None => mret None
            end
      end
  end.

(** One round of the turn's loop. *)
(* @src internal/agent/agent.go 242-325 Agent.turn *)
Definition round (runID : string) (prompt : list PromptSection) (st : turnState)
    : M (option (option GoError)) :=
  ms ← drainSteering;
  st ← addPendings st ms;
  let st := mkTurn (t_mark st) (t_pending st) (t_msgs st) (t_origin st) (t_steered st ++ ms) in
  c ← ctx_err E;
  match c with
  | Some err =>
      _ ← restoreFrom st 0;
      e ← fail runID (ErrWrap "run turn" err);
      mret (Some (Some e))
  | None =>
      '(r, mark) ← call runID prompt (t_mark st);
      let st := mkTurn mark (t_pending st) (t_msgs st) (t_origin st) (t_steered st) in
      match r with
      | inr err =>
          _ ← restoreFrom st 0;
          e ← fail runID err;
          mret (Some (Some e))
      | inl (resp, sent) => deliver runID st resp sent
      end
  end.

Fixpoint rounds (fuel : nat) (runID : string) (prompt : list PromptSection) (st : turnState)
    : M (option GoError) :=
  match fuel with
  | O => out_of_fuel
  | S fuel' =>
      r ← round runID prompt st;
      match r with
      | Some result => mret result
      | None => rounds fuel' runID prompt (mkTurn None [] [] None [])
      end
  end.

(* @src internal/agent/agent.go 187-326 Agent.turn *)
Definition turn (fuel : nat) (prompt : list PromptSection) (msgs : list Message)
    (origin : option queueRef) : M (option GoError) :=
  runID ← newRunID E;
  _ ← modify (set_gen zeroGeneration);
  st ← addPendings (mkTurn None [] msgs origin []) msgs;
  _ ← emit (TurnStart runID (SessionID s) (WorkspaceID s)
              (join (base.filter (fun t => t <> EmptyString) (map Content msgs)) nl2)
              (concat (map Images msgs)));
  rounds fuel runID prompt st.

(* @src internal/agent/agent.go 419-437 Agent.nextQueued *)
Definition nextQueued : M (list Message * option queueRef) := fun w =>
  match drain (steering w) with
  | (m :: ms, q) => Some ((m :: ms, Some FromSteering), set_steering q w)
  | ([], q) =>
      let w := set_steering q w in
      let count := if String.eqb (o_Queue opts) QueueAll then 0 else 1 in
      match Q.take count (followUps w) with
      | (m :: ms, q) => Some ((m :: ms, Some FromFollowUps), set_followUps q w)
      | ([], q) => Some (([], None), set_accepting false (set_followUps q w))
      end
  end.

(* @src internal/agent/agent.go 439-444 Agent.closeQueues *)
Definition closeQueues : M unit := modify (set_accepting false).

(** The loop of [Run]: a turn, then the next queued messages. [fuel] bounds
    both the turns and the rounds of each. *)
Fixpoint turns (fuel : nat) (prompt : list PromptSection) (msgs : list Message)
    (origin : option queueRef) : M (option GoError) :=
  match fuel with
  | O => out_of_fuel
  | S fuel' =>
      err ← turn fuel prompt msgs origin;
      match err with
      | Some e => mret (Some e)
      | None =>
          '(msgs, origin) ← nextQueued;
          match msgs with
          | [] => mret None
          | _ => turns fuel' prompt msgs origin
          end
      end
  end.

(* @src internal/agent/agent.go 155-185 Agent.Run *)
Definition Run (fuel : nat) (userMessage : Message) : M (option GoError) :=
  p ← prompt;
  match p with
  | inr err => mret (Some (ErrWrap "run agent" err))
  | inl p =>
      _ ← modify (set_accepting true);
      err ← turns fuel p (if Empty userMessage then [] else [userMessage]) None;
      _ ← closeQueues;
      mret err
  end.

(* @src internal/agent/context.go 156-170 Agent.Preview *)
Definition Preview : M (Context + GoError) :=
  p ← prompt;
  match p with
  | inr err => mret (inr (ErrWrap "preview request" err))
  | inl p => w ← gets id; mret (inl (assemble p w))
  end.

End agent.
