(* ===== verification/Outside.v ===== *)
(** What the parts of the loop that wait on the outside may change. The
    relation [outside] is everything a model call, a summary, or a pause can
    do to the world while the conversation and the log stand still: the
    clock moves, events go out, other goroutines queue messages, and
    well-formed requests are sent. *)
From S2P Require Import Prelude GoStr Float64 Provider Sampling Failure Tool Conversation Context Compaction.
From S2P Require Import World Stream Summary.
From stdpp Require Import options.

(** A partial response without the moment it began. *)
Definition forget (p : partial) : partial := with_started p None.

(** One event, without emitting. *)
Definition read_event (p : partial) (e : StreamEvent) : partial + GoError :=
  if finished p then inr (ErrText "call model: provider sent an event after completion") else
  match e with
  | KindTextDelta t =>
      inl (mkPartial (text p +:+ t) (reasoning p) (calls p) (usage p) (timings p) (stop p) None false)
  | KindReasoningDelta t =>
      inl (mkPartial (text p) (reasoning p +:+ t) (calls p) (usage p) (timings p) (stop p) None false)
  | KindToolCallDelta _ _ _ _ => inl p
  | KindToolCall c =>
      inl (mkPartial (text p) (reasoning p) (calls p ++ [c]) (usage p) (timings p) (stop p) None false)
  | KindUsage u t =>
      inl (mkPartial (text p) (reasoning p) (calls p) (if bool_decide (u = zeroUsage) then usage p else u)
             (if Known t then t else timings p) (stop p) None false)
  | KindDone r =>
      inl (mkPartial (text p) (reasoning p) (calls p) (usage p) (timings p) r None true)
  | KindError err => inr (ErrWrap "call model" err)
  end.

Fixpoint read_events (p : partial) (es : list StreamEvent) : partial + GoError :=
  match es with
  | [] => inl p
  | e :: es' => match read_event p e with inl p => read_events p es' | inr err => inr err end
  end.

(** What the events amount to. *)
Definition response_of (es : list StreamEvent) : response + GoError :=
  match read_events start_partial es with
  | inr err => inr err
  | inl p =>
      if negb (finished p) then
        inr (ErrText "call model: provider stream closed without a completion event")
      else if String.eqb (stop p) EmptyString then
        inr (ErrText "call model: provider completion has no stop reason")
      else inl (mkResponse (AssistantMessageWithReasoning (text p) (reasoning p)
                              (if cutOff (stop p) then [] else calls p)) (stop p) (usage p))
  end.

(** ** The parts of a response *)

Definition text_of (e : StreamEvent) : string := match e with KindTextDelta t => t | _ => EmptyString end.
Definition reasoning_of (e : StreamEvent) : string :=
  match e with KindReasoningDelta t => t | _ => EmptyString end.
Definition call_of (e : StreamEvent) : option ToolCall := match e with KindToolCall c => Some c | _ => None end.
Definition usage_of (e : StreamEvent) : option Usage :=
  match e with KindUsage u _ => if bool_decide (u = zeroUsage) then None else Some u | _ => None end.

Lemma str_app_nil_l (a : string) : EmptyString +:+ a = a.
Proof. done. Qed.

(** An event that neither completes the response nor fails it. *)
Definition is_part (e : StreamEvent) : bool :=
  match e with KindDone _ | KindError _ => false | _ => true end.

Definition concat_strings (l : list string) : string := foldr String.append EmptyString l.

Lemma str_app_nil_r (a : string) : a +:+ EmptyString = a.
Proof. induction a as [|c a IH]; [done|]. by rewrite str_app_cons, IH. Qed.

Lemma read_events_parts p es :
  finished p = false -> started p = None -> Forall (fun e => is_part e = true) es ->
  exists t, read_events p es = inl (mkPartial (text p +:+ concat_strings (map text_of es))
    (reasoning p +:+ concat_strings (map reasoning_of es)) (calls p ++ omap call_of es)
    (List.last (omap usage_of es) (usage p)) t (stop p) None false).
Proof.
  intros Hf Hs He. revert p Hf Hs. induction He as [|e es He Hes IH]; intros p Hf Hs.
  - exists (timings p). cbn. rewrite !str_app_nil_r, app_nil_r. destruct p; cbn in *. by subst.
  - cbn [read_events]. unfold read_event. rewrite Hf.
    assert (Hlast : forall (u : Usage) l d, List.last (u :: l) d = List.last l u).
    { intros u l. induction l as [|x l IHl] in u |- *; intros d; [done|]. cbn. destruct l; [done|]. apply IHl. }
    destruct e; try done; (match goal with |- context [read_events ?q es] => destruct (IH q) as [t' Ht] end;
      [done|done|]; exists t'; rewrite Ht; cbn [text reasoning calls usage stop map text_of reasoning_of omap call_of usage_of concat_strings foldr list_omap]; rewrite ?str_app_nil_l, ?str_app_assoc, <- ?app_assoc; try done).
    case_bool_decide; [done|]. by rewrite Hlast.
Qed.

(** After the completion nothing may follow. *)
Lemma read_events_done p es : finished p = true -> es <> [] -> exists err, read_events p es = inr err.
Proof. intros Hf. destruct es as [|e es]; [done|]. intros _. cbn. unfold read_event. rewrite Hf. eauto. Qed.

(** Only the calls the events carried are in a response. *)
Lemma read_event_calls p e p' c :
  read_event p e = inl p' -> c ∈ calls p' -> c ∈ calls p \/ call_of e = Some c.
Proof.
  unfold read_event. destruct (finished p); [done|]. destruct e; intros H Hc; simplify_eq/=; auto.
  apply elem_of_app in Hc as [?|Hc]; [by left|]. apply list_elem_of_singleton in Hc as ->. by right.
Qed.

Lemma read_events_calls p es p' c :
  read_events p es = inl p' -> c ∈ calls p' -> c ∈ calls p \/ c ∈ omap call_of es.
Proof.
  revert p. induction es as [|e es IH]; intros p H Hc; cbn [read_events] in H; [simplify_eq; by left|].
  destruct (read_event p e) as [p1|] eqn:E; [|done]. cbn. destruct (IH p1 H Hc) as [H1|H1].
  - destruct (read_event_calls _ _ _ _ E H1) as [?|He]; [by left|right]. rewrite He. apply elem_of_cons. by left.
  - right. destruct (call_of e); [apply elem_of_cons; by right|done].
Qed.

Lemma response_of_calls es r c :
  response_of es = inl r -> c ∈ ToolCalls (r_message r) -> c ∈ omap call_of es.
Proof.
  unfold response_of. destruct (read_events _ _) as [p|] eqn:E; [|done].
  destruct (negb _); [done|]. destruct (String.eqb _ _); [done|]. intros H Hc. simplify_eq/=.
  destruct (cutOff _); [by apply elem_of_nil in Hc|].
  destruct (read_events_calls _ _ _ c E Hc) as [H|?]; [by apply elem_of_nil in H|done].
Qed.

Lemma read_events_app p q es es' : read_events p es = inl q -> read_events p (es ++ es') = read_events q es'.
Proof.
  induction es as [|e es IH] in p |- *; intros H; cbn [read_events app] in *; [by simplify_eq|].
  destruct (read_event p e); [by apply IH|done].
Qed.

(** A stream that completes with a stop reason, after parts that neither
    complete nor fail it, is the response of its parts. *)
Lemma response_of_parts es stop :
  Forall (fun e => is_part e = true) es -> stop <> EmptyString ->
  response_of (es ++ [KindDone stop]) = inl (mkResponse
    (AssistantMessageWithReasoning (concat_strings (map text_of es)) (concat_strings (map reasoning_of es))
       (if cutOff stop then [] else omap call_of es))
    stop (List.last (omap usage_of es) zeroUsage)).
Proof.
  intros Hes Hs. destruct (read_events_parts start_partial es eq_refl eq_refl Hes) as [t Ht].
  unfold response_of. rewrite (read_events_app _ _ _ _ Ht). cbn. destruct (String.eqb_spec stop EmptyString); done.
Qed.

(** One that fails after its parts is the failure. *)
Lemma response_of_failure es err :
  Forall (fun e => is_part e = true) es -> response_of (es ++ [KindError err]) = inr (ErrWrap "call model" err).
Proof.
  intros Hes. destruct (read_events_parts start_partial es eq_refl eq_refl Hes) as [t Ht].
  unfold response_of. by rewrite (read_events_app _ _ _ _ Ht).
Qed.

#[local] Set Default Proof Using "Type*".

(** A message a user sends. *)
Definition user_message (m : Message) : Prop := MRole m = RoleUser /\ ToolCalls m = [].

#[export] Instance user_message_dec m : Decision (user_message m).
Proof. unfold user_message. apply _. Defined.

Lemma user_message_plain m : user_message m -> plain m.
Proof. intros [H1 H2]. split; [|done]. unfold is_tool. by rewrite H1. Qed.

Lemma user_messages_plain l : Forall user_message l -> Forall plain l.
Proof. intros H. eapply Forall_impl; [exact H|apply user_message_plain]. Qed.

(** What other goroutines queue are user messages. *)
Class UserArrivals (E : Env) : Prop :=
  user_arrivals : forall t, Forall (fun a => user_message a.2) (env_arrivals E t).

Definition request_ok (r : Request) : Prop := well_formed (RMessages r).

Record outside (w w' : World) : Prop := {
  o_accepting : accepting w' = accepting w;
  o_records : records w' = records w;
  o_queues : exists ns nf na,
    steering w' = Conversation.Queue.mkQueue (Q.messages (steering w) ++ ns) /\
    followUps w' = Conversation.Queue.mkQueue (Q.messages (followUps w) ++ nf) /\
    accepted w' = accepted w ++ na /\ na ≡ₚ ns ++ nf /\ Forall user_message na;
  o_requests : exists rs, requests w' = requests w ++ rs /\ Forall request_ok rs;
  o_tick : (tick w <= tick w')%nat;
}.

(** The conversation and the log stand still as well. *)
Record quiet (w w' : World) : Prop := {
  q_outside : outside w w';
  q_conv : conv w' = conv w;
  q_log : log w' = log w;
}.

#[export] Instance outside_refl : Reflexive outside.
Proof.
  intros w. split; try done.
  - exists [], [], []. rewrite !app_nil_r. destruct w as [? ? ? [?] [?]]; simpl. by repeat split.
  - exists []. by rewrite app_nil_r.
Qed.

#[export] Instance outside_trans : Transitive outside.
Proof.
  intros w1 w2 w3 [a1 b1 (ns1 & nf1 & na1 & c1 & d1 & e1 & f1 & g1) (rs1 & h1 & i1) j1]
    [a2 b2 (ns2 & nf2 & na2 & c2 & d2 & e2 & f2 & g2) (rs2 & h2 & i2) j2].
  split; [congruence|congruence| | |lia].
  - exists (ns1 ++ ns2), (nf1 ++ nf2), (na1 ++ na2).
    rewrite c2, d2, e2, c1, d1, e1. cbn [Q.messages]. rewrite !app_assoc. repeat split; try done.
    + rewrite f1, f2. by solve_Permutation.
    + by apply Forall_app.
  - exists (rs1 ++ rs2). rewrite h2, h1, app_assoc. split; [done|by apply Forall_app].
Qed.

#[export] Instance quiet_refl : Reflexive quiet.
Proof. intros w. by split. Qed.

#[export] Instance quiet_trans : Transitive quiet.
Proof.
  intros w1 w2 w3 [a1 b1 c1] [a2 b2 c2]. split; [by transitivity w2|congruence|congruence].
Qed.

(** ** The basic steps *)

Lemma arrive_quiet a w : user_message a.2 -> quiet w (arrive a w).
Proof.
  intros Ha. destruct a as [[] m]; unfold arrive, Steer, FollowUp; simpl in *;
    destruct (accepting w) eqn:Ea; simpl; try reflexivity; destruct w as [? ? ? [st] [fu]]; simpl in *;
    (split; [|done|done]); (split; simpl; [done|done| |exists []; by rewrite app_nil_r|done]).
  - exists [m], [], [m]. rewrite !app_nil_r. repeat split; try done. by apply Forall_singleton.
  - exists [], [m], [m]. rewrite !app_nil_r. repeat split; try done. by apply Forall_singleton.
Qed.

Lemma arrivals_quiet l w : Forall (fun a => user_message a.2) l -> quiet w (foldl (fun w a => arrive a w) w l).
Proof.
  intros H. revert w. induction H as [|a l Ha Hl IH]; intros w; cbn [foldl]; [reflexivity|].
  transitivity (arrive a w); [by apply arrive_quiet|apply IH].
Qed.

Lemma set_tick_quiet w : quiet w (set_tick (S (tick w)) w).
Proof.
  split; [|done|done]. split; simpl; try done.
  - exists [], [], []. rewrite !app_nil_r. destruct w as [? ? ? [?] [?]]; simpl. by repeat split.
  - exists []. by rewrite app_nil_r.
  - lia.
Qed.

Lemma set_events_quiet e w : quiet w (set_events e w).
Proof.
  split; [|done|done]. split; simpl; try done.
  - exists [], [], []. rewrite !app_nil_r. destruct w as [? ? ? [?] [?]]; simpl. by repeat split.
  - exists []. by rewrite app_nil_r.
Qed.

Lemma set_gen_quiet g w : quiet w (set_gen g w).
Proof.
  split; [|done|done]. split; simpl; try done.
  - exists [], [], []. rewrite !app_nil_r. destruct w as [? ? ? [?] [?]]; simpl. by repeat split.
  - exists []. by rewrite app_nil_r.
Qed.

Lemma set_waits_quiet x w : quiet w (set_waits x w).
Proof.
  split; [|done|done]. split; simpl; try done.
  - exists [], [], []. rewrite !app_nil_r. destruct w as [? ? ? [?] [?]]; simpl. by repeat split.
  - exists []. by rewrite app_nil_r.
Qed.

Lemma set_requests_quiet r w : request_ok r -> quiet w (set_requests (requests w ++ [r]) w).
Proof.
  intros H. split; [|done|done]. split; simpl; try done.
  - exists [], [], []. rewrite !app_nil_r. destruct w as [? ? ? [?] [?]]; simpl. by repeat split.
  - exists [r]. split; [done|by apply Forall_singleton].
Qed.

(** Run [m] quietly, with [P] of its result. *)
Definition quietly {A} (m : M A) (P : A -> Prop) : Prop :=
  forall w, wp m (fun a w' => quiet w w' /\ P a) w.

Section quietly.
Context {A B : Type}.

Lemma quietly_ret (a : A) (P : A -> Prop) : P a -> quietly (mret a) P.
Proof. intros H w. apply wp_ret. by split. Qed.

Lemma quietly_bind (m : M A) (k : A -> M B) (P : A -> Prop) (R : B -> Prop) :
  quietly m P -> (forall a, P a -> quietly (k a) R) -> quietly (m ≫= k) R.
Proof.
  intros Hm Hk w. apply wp_bind. eapply wp_mono; [apply Hm|]. intros a w1 [H1 Ha]. cbn beta.
  eapply wp_mono; [by apply Hk|]. intros b w2 [H2 Hb]. split; [by transitivity w1|done].
Qed.

Lemma quietly_weaken (m : M A) (P R : A -> Prop) :
  quietly m P -> (forall a, P a -> R a) -> quietly m R.
Proof. intros Hm H w. eapply wp_mono; [apply Hm|]. intros a w' [? ?]. split; [done|by apply H]. Qed.

Lemma quietly_gets (f : World -> A) : quietly (gets f) (fun _ => True).
Proof. intros w. apply wp_gets. by split. Qed.

Lemma quietly_if (b : bool) (m n : M A) P : quietly m P -> quietly n P -> quietly (if b then m else n) P.
Proof. by destruct b. Qed.
End quietly.

(** The same, from the step [t0] on. *)
Definition quietly_from {A} (t0 : nat) (m : M A) (P : A -> Prop) : Prop :=
  forall w, (t0 <= tick w)%nat -> wp m (fun a w' => quiet w w' /\ P a) w.

Lemma quietly_late {A} t0 (m : M A) P : quietly m P -> quietly_from t0 m P.
Proof. intros H w _. apply H. Qed.

Lemma quietly_early {A} (m : M A) P : quietly_from 0 m P -> quietly m P.
Proof. intros H w. apply H. lia. Qed.

Lemma quietly_from_ret {A} t0 (a : A) (P : A -> Prop) : P a -> quietly_from t0 (mret a) P.
Proof. intros H. by apply quietly_late, quietly_ret. Qed.

Lemma quietly_from_bind {A B} t0 (m : M A) (k : A -> M B) (P : A -> Prop) (R : B -> Prop) :
  quietly_from t0 m P -> (forall a, P a -> quietly_from t0 (k a) R) -> quietly_from t0 (m ≫= k) R.
Proof.
  intros Hm Hk w Ht. apply wp_bind. eapply wp_mono; [by apply Hm|]. intros a w1 [H1 Ha]. cbn beta.
  pose proof (o_tick _ _ (q_outside _ _ H1)).
  eapply wp_mono; [apply Hk; [done|lia]|]. intros b w2 [H2 Hb]. split; [by transitivity w1|done].
Qed.

Lemma quietly_modify (f : World -> World) : (forall w, quiet w (f w)) -> quietly (modify f) (fun _ => True).
Proof. intros H w. apply wp_modify. by split. Qed.

Lemma quietly_emit e : quietly (emit e) (fun _ => True).
Proof. apply quietly_modify. intros w. apply set_events_quiet. Qed.

Section steps.
Context (E : Env) `{!UserArrivals E} (opts : Options).

Lemma quietly_answer {A} (f : nat -> A) : quietly (query E f) (fun a => exists t, a = f t).
Proof.
  intros w. unfold wp, query. split; [|by eauto].
  transitivity (set_tick (S (tick w)) w); [apply set_tick_quiet|apply arrivals_quiet, user_arrivals].
Qed.

Lemma quietly_query {A} (f : nat -> A) : quietly (query E f) (fun _ => True).
Proof. eapply quietly_weaken; [apply quietly_answer|done]. Qed.

Lemma quietly_from_query {A} t0 (f : nat -> A) :
  quietly_from t0 (query E f) (fun a => exists t, (t0 <= t)%nat /\ a = f t).
Proof.
  intros w Hw. pose proof (quietly_query f w) as Hq. unfold wp, query in *. destruct Hq as [Hq _]. by eauto.
Qed.

(** ** A stream, an attempt, a retried attempt *)

(** A response the loop accepts is what an answer of the endpoint since
    [t0] means: an assistant message, without tool calls when it was cut
    off. *)
Definition response_ok (t0 : nat) (r : response) : Prop :=
  MRole (r_message r) = RoleAssistant /\
  exists t req es, (t0 <= t)%nat /\ env_stream E t req = inl es /\ response_of es = inl r.

Definition answer_ok (t0 : nat) (r : response + GoError) : Prop :=
  match r with inl r => response_ok t0 r | inr _ => True end.

Lemma quietly_elapsed st : quietly (elapsedSince E st) (fun _ => True).
Proof.
  destruct st as [t0|]; [|by apply quietly_ret]. eapply quietly_bind; [apply quietly_query|].
  intros t _. by apply quietly_ret.
Qed.

Lemma quietly_begin p : quietly (begin E p) (fun _ => True).
Proof.
  unfold begin. destruct (started p); [by apply quietly_ret|].
  eapply quietly_bind; [apply quietly_query|]. intros t _. by apply quietly_ret.
Qed.

Lemma quietly_progress runID g u t st : quietly (emitProgress E opts runID g u t st) (fun _ => True).
Proof.
  unfold emitProgress. eapply quietly_bind; [apply quietly_elapsed|]. intros e _. apply quietly_emit.
Qed.

Definition forget_sum (r : partial + GoError) : partial + GoError :=
  match r with inl p => inl (forget p) | inr err => inr err end.

Lemma begin_forget p : quietly (begin E p) (fun p' => forget p' = forget p).
Proof.
  unfold begin. destruct (started p); [by apply quietly_ret|].
  eapply quietly_bind; [apply quietly_query|]. intros t _. by apply quietly_ret.
Qed.

(** Reading an event is reading its content; the clock and the emitted
    events are all the rest. *)
Lemma quietly_stream_event runID q p e :
  quietly (stream_event E opts runID q p e) (fun r => forget_sum r = read_event (forget p) e).
Proof.
  unfold stream_event, read_event. change (finished (forget p)) with (finished p).
  destruct (finished p) eqn:Ef; [by apply quietly_ret|].
  assert (Hb : forall p', forget p' = forget p ->
    text p' = text p /\ reasoning p' = reasoning p /\ calls p' = calls p /\ usage p' = usage p /\
    timings p' = timings p /\ stop p' = stop p).
  { intros p' H. unfold forget, with_started in H. injection H; intros; by repeat split. }
  destruct e; try (by apply quietly_ret).
  - eapply quietly_bind; [apply begin_forget|]. intros p' (? & ? & ? & ? & ? & ?)%Hb.
    eapply (quietly_bind _ _ (fun _ => True)); [apply quietly_if; [by apply quietly_ret|apply quietly_emit]|].
    intros [] _. apply quietly_ret. unfold forget_sum, forget, with_started. cbn. congruence.
  - eapply quietly_bind; [apply begin_forget|]. intros p' (? & ? & ? & ? & ? & ?)%Hb.
    eapply (quietly_bind _ _ (fun _ => True)); [apply quietly_if; [by apply quietly_ret|apply quietly_emit]|].
    intros [] _. apply quietly_ret. unfold forget_sum, forget, with_started. cbn. congruence.
  - eapply quietly_bind; [apply begin_forget|]. intros p' Hp. apply quietly_ret. cbn. by rewrite Hp.
  - eapply (quietly_bind _ _ (fun _ => True)); [|intros [] _; by apply quietly_ret].
    apply quietly_if; [by apply quietly_ret|].
    eapply quietly_bind; [apply quietly_gets|]. intros g _. apply quietly_progress.
Qed.

Lemma quietly_stream_events runID q p es :
  quietly (stream_events E opts runID q p es) (fun r => forget_sum r = read_events (forget p) es).
Proof.
  revert p. induction es as [|e es IH]; intros p; cbn [stream_events read_events]; [by apply quietly_ret|].
  eapply quietly_bind; [apply quietly_query|]. intros [] _.
  eapply quietly_bind; [apply quietly_stream_event|].
  intros [p'|err] Hr; cbn in Hr; rewrite <- Hr; [apply IH|by apply quietly_ret].
Qed.

(** A stream is one request, answered now, and the response its events
    mean. *)
Lemma quietly_from_stream t0 runID req q : request_ok req ->
  quietly_from t0 (stream E opts runID req q) (fun r => exists t, (t0 <= t)%nat /\
    r = match env_stream E t req with
        | inr err => inr (ErrWrap "call model" err)
        | inl es => response_of es
        end).
Proof.
  intros Hr. unfold stream. eapply (quietly_from_bind _ _ _ (fun _ => True)).
  { apply quietly_late. intros w. apply wp_modify. split; [by apply set_requests_quiet|done]. }
  intros [] _. eapply quietly_from_bind; [apply quietly_from_query|].
  intros a (t & Ht & ->). destruct (env_stream E t req) as [es|err] eqn:Ea.
  2:{ apply quietly_from_ret. exists t. by rewrite Ea. }
  eapply quietly_from_bind; [apply quietly_late, quietly_stream_events|]. intros r Hp.
  change (forget start_partial) with start_partial in Hp.
  apply quietly_late, (quietly_weaken _ (fun r => r = response_of es)); [|intros r' ->; exists t; by rewrite Ea].
  unfold response_of. rewrite <- Hp. destruct r as [p|err]; [|by apply quietly_ret]. cbn [forget_sum].
  change (finished (forget p)) with (finished p). change (stop (forget p)) with (stop p).
  destruct (negb (finished p)); [by apply quietly_ret|].
  destruct (String.eqb (stop p) EmptyString); [by apply quietly_ret|].
  eapply (quietly_bind _ _ (fun _ => True)); [|intros [] _; by apply quietly_ret].
  apply quietly_if; [by apply quietly_ret|].
  eapply quietly_bind; [apply quietly_elapsed|]. intros e _.
  apply quietly_modify. intros w. apply set_gen_quiet.
Qed.

Lemma response_of_role es r : response_of es = inl r -> MRole (r_message r) = RoleAssistant.
Proof. unfold response_of. intros H. by repeat (case_match; simplify_eq/=). Qed.

Lemma quietly_stream t0 runID req q : request_ok req ->
  quietly_from t0 (stream E opts runID req q) (answer_ok t0).
Proof.
  intros Hr w Hw. eapply wp_mono; [by apply (quietly_from_stream t0)|]. intros r w' [Hq (t & Ht & Hv)].
  split; [done|]. destruct r as [r|err]; [|done].
  destruct (env_stream E t req) as [es|] eqn:Ee; [|done].
  split; [by eapply response_of_role|]. exists t, req, es. done.
Qed.

Lemma quietly_retrying_from t0 left backoff runID reset attempt :
  quietly_from t0 attempt (answer_ok t0) ->
  quietly_from t0 (retrying_from E left backoff runID reset attempt) (answer_ok t0).
Proof.
  intros Ha. revert backoff. induction left as [|left IH]; intros backoff; cbn [retrying_from];
    (eapply quietly_from_bind; [exact Ha|]; intros [r|err] Hr; [by apply quietly_from_ret|]);
    (eapply quietly_from_bind; [apply quietly_late, quietly_query|]; intros [e|] _; [by apply quietly_from_ret|]);
    (destruct (_ || _); [by apply quietly_from_ret|]); [by apply quietly_from_ret|].
  eapply (quietly_from_bind _ _ _ (fun _ => True)).
  { apply quietly_late, quietly_if; [apply quietly_emit|by apply quietly_ret]. }
  intros [] _. eapply (quietly_from_bind _ _ _ (fun _ => True)).
  { apply quietly_late, quietly_modify. intros w. apply set_waits_quiet. }
  intros [] _. eapply quietly_from_bind; [apply quietly_late, quietly_query|].
  intros [e|] _; [by apply quietly_from_ret|apply IH].
Qed.

Lemma quietly_retrying t0 runID reset attempt :
  quietly_from t0 attempt (answer_ok t0) ->
  quietly_from t0 (retrying E opts runID reset attempt) (answer_ok t0).
Proof. apply quietly_retrying_from. Qed.

(** ** Summaries *)

Lemma with_sampling_messages f c : Messages (with_sampling f c) = Messages c.
Proof. done. Qed.

Lemma quietly_ask efforts c budget pg :
  well_formed (Messages c) -> quietly (ask E opts efforts c budget pg) (fun _ => True).
Proof.
  revert c pg. induction efforts as [|e efforts IH]; intros c pg Hc; cbn [ask]; [by apply quietly_ret|].
  eapply quietly_bind; [by apply quietly_early, quietly_retrying, quietly_stream|].
  intros [r|err] _; [|by apply quietly_ret]. cbn zeta.
  destruct (judge _ _) as [[a|] pg']; [by apply quietly_ret|]. by apply IH.
Qed.

Lemma WithMessages_well_formed c msgs :
  well_formed msgs -> well_formed (Messages (WithMessages c msgs)).
Proof.
  unfold well_formed. intros H. cbn [Messages WithMessages].
  rewrite accepts_map; [done|intros; apply prepare_role|intros; apply prepare_calls|intros; apply prepare_callid].
Qed.

Lemma quietly_transcript_form base msgs r efforts budget pg :
  quietly (transcript_form E opts base msgs r efforts budget pg) (fun _ => True).
Proof.
  unfold transcript_form. cbn zeta. apply quietly_if; [by apply quietly_ret|].
  eapply quietly_bind; [apply quietly_ask|].
  - apply WithMessages_well_formed, well_formed_plain, Forall_singleton. done.
  - intros [a pg'] _. apply quietly_if; [by apply quietly_ret|].
    destruct (an_err a); by apply quietly_ret.
Qed.

Lemma quietly_summary base msgs r :
  well_formed (take (sr_end r) msgs) -> quietly (summary E opts base msgs r) (fun _ => True).
Proof.
  intros Hw. unfold summary. cbn zeta. apply quietly_if; [|apply quietly_transcript_form].
  eapply quietly_bind; [apply quietly_ask|].
  - apply WithMessages_well_formed, well_formed_app_plain; [done|by apply Forall_singleton].
  - intros [a pg'] _. apply quietly_if; [by apply quietly_ret|].
    destruct (an_err a), (an_next a); try (by apply quietly_ret); apply quietly_transcript_form.
Qed.

Lemma quietly_summarize base msgs plan instructions :
  well_formed (take (historyEnd plan) msgs) -> well_formed (take (p_first plan) msgs) ->
  quietly (summarize E opts base msgs plan instructions) (fun _ => True).
Proof.
  intros H1 H2. unfold summarize. cbn zeta. eapply (quietly_bind _ _ (fun _ => True)).
  - unfold summarize_history. cbn zeta. apply quietly_if.
    + eapply quietly_bind; [by apply quietly_summary|]. intros [r u] _. by apply quietly_ret.
    + apply quietly_if; by apply quietly_ret.
  - intros [[h|err] u] _; [|by apply quietly_ret]. destruct (p_turnStart plan); [|by apply quietly_ret].
    eapply quietly_bind; [by apply quietly_summary|]. intros [[x|err] u'] _; by apply quietly_ret.
Qed.
End steps.
