(* ===== verification/AgentSpec.v ===== *)
(** What the steps of the loop do to the conversation and the log: a
    compaction, a model call, a stored message, and the tool calls of a
    reply. Each specification is a weakest-precondition fact about the step
    for every environment. *)
From S2P Require Import Prelude GoStr Float64 Provider Sampling Failure Tool Conversation Context Compaction.
From S2P Require Import World Stream Summary ContextFile Agent Outside.
From stdpp Require Import options.

#[local] Set Default Proof Using "Type*".

(** ** The durable log *)

(** The conversation a log stands for: a compaction replaces what is before
    it. *)
Definition replay_item (ms : list Message) (i : StoreItem) : list Message :=
  match i with
  | SMessage m => ms ++ [m]
  | SCompaction c => Compacted ms c
  end.

Definition replay (l : list StoreItem) : list Message := foldl replay_item [] l.

Lemma replay_app l k : replay (l ++ k) = foldl replay_item (replay l) k.
Proof. apply foldl_app. Qed.

Lemma replay_messages l ms : replay (l ++ map SMessage ms) = replay l ++ ms.
Proof.
  rewrite replay_app. generalize (replay l). induction ms as [|m ms IH]; intros k; cbn [map foldl];
    [by rewrite app_nil_r|]. rewrite IH. cbn [replay_item]. by rewrite <- app_assoc.
Qed.

(** The user messages of a log, in order. *)
Definition user_item (i : StoreItem) : option Message :=
  match i with
  | SMessage m => if bool_decide (MRole m = RoleUser) then Some m else None
  | SCompaction _ => None
  end.

Definition log_users (l : list StoreItem) : list Message := omap user_item l.

Lemma log_users_app l k : log_users (l ++ k) = log_users l ++ log_users k.
Proof. apply omap_app. Qed.

Lemma log_users_users ms : Forall user_message ms -> log_users (map SMessage ms) = ms.
Proof.
  induction 1 as [|m ms [Hm _] _ IH]; [done|]. cbn. rewrite bool_decide_eq_true_2 by done. by f_equal.
Qed.

Lemma log_users_others ms : Forall (fun m => MRole m <> RoleUser) ms -> log_users (map SMessage ms) = [].
Proof. induction 1 as [|m ms Hm _ IH]; [done|]. cbn. by rewrite bool_decide_eq_false_2. Qed.

(** ** Steps that store messages *)

Definition messages_of (w : World) : list Message := Conv.Messages (conv w).

Section spec.
  Context (E : Env) `{!UserArrivals E} (opts : Options) (s : Session).

Definition logged (ms : list Message) : list StoreItem :=
  if o_store opts then map SMessage ms else [].

(** The conversation grew by [ms], and so did the log. *)
Record grew (ms : list Message) (w w' : World) : Prop := {
  g_outside : outside w w';
  g_conv : messages_of w' = messages_of w ++ ms;
  g_log : log w' = log w ++ logged ms;
}.

Lemma grew_quiet w w' : quiet w w' -> grew [] w w'.
Proof.
  intros [H1 H2 H3]. split; [done|unfold messages_of; by rewrite H2, app_nil_r|].
  rewrite H3. unfold logged. destruct (o_store opts); by rewrite app_nil_r.
Qed.

Lemma grew_trans ms ms' w w' w'' : grew ms w w' -> grew ms' w' w'' -> grew (ms ++ ms') w w''.
Proof.
  intros [a b c] [a' b' c']. split; [by transitivity w'|by rewrite b', b, app_assoc|].
  rewrite c', c. unfold logged. destruct (o_store opts); by rewrite ?map_app, <- app_assoc.
Qed.

Lemma grew_quiet_l ms w w' w'' : quiet w w' -> grew ms w' w'' -> grew ms w w''.
Proof. intros H1 H2. exact (grew_trans [] ms _ _ _ (grew_quiet _ _ H1) H2). Qed.

Lemma grew_quiet_r ms w w' w'' : grew ms w w' -> quiet w' w'' -> grew ms w w''.
Proof.
  intros H1 H2. rewrite <- (app_nil_r ms). exact (grew_trans ms [] _ _ _ H1 (grew_quiet _ _ H2)).
Qed.

(** The world with [items] logged. *)
Lemma outside_set_log l w : outside w (set_log l w).
Proof.
  split; try done.
  - exists [], [], []. rewrite !app_nil_r. destruct w as [? ? ? [?] [?]]; simpl. by repeat split.
  - exists []. by rewrite app_nil_r.
Qed.

Lemma outside_set_conv c w : outside w (set_conv c w).
Proof.
  split; try done.
  - exists [], [], []. rewrite !app_nil_r. destruct w as [? ? ? [?] [?]]; simpl. by repeat split.
  - exists []. by rewrite app_nil_r.
Qed.

Lemma wp_quietly {A} (m : M A) P (Q : A -> World -> Prop) w :
  quietly m P -> (forall a w', quiet w w' -> P a -> Q a w') -> wp m Q w.
Proof. intros Hm H. eapply wp_mono; [apply Hm|]. intros a w' [H1 H2]. by apply H. Qed.

(** Storing a message: it is in the log, or the store refused it. [ok]
    collects what the store's answer says. *)
Lemma wp_store m w :
  wp (store E opts m) (fun e w' =>
    match e with
    | None => outside w w' /\ conv w' = conv w /\ log w' = log w ++ logged [m]
    | Some _ => quiet w w' /\ o_store opts = true /\ exists t err, env_store E t (SMessage m) = Some err
    end) w.
Proof.
  unfold store, logged. destruct (o_store opts); cbn [negb].
  - apply wp_bind. eapply wp_quietly; [by apply (quietly_answer E)|]. intros e w1 H1 [t He].
    destruct e as [err|]; [apply wp_ret; by eauto 6|]. destruct H1 as [Ho Hc Hl].
    apply wp_bind, wp_modify, wp_ret. split; [etransitivity; [exact Ho|apply outside_set_log]|].
    cbn. by rewrite Hl.
  - apply wp_ret. rewrite app_nil_r. done.
Qed.

Definition tool_stores_safe : Prop :=
  forall t m, is_tool m = true -> env_store E t (SMessage m) = None.

Lemma wp_append m w :
  wp (append E opts m) (fun e w' =>
    match e with
    | None => grew [m] w w'
    | Some _ => quiet w w' /\ (tool_stores_safe -> is_tool m = false)
    end) w.
Proof.
  unfold append. apply wp_bind. eapply wp_mono; [apply wp_store|].
  intros [e|] w' H; cbn beta iota in H.
  - destruct H as (Hq & _ & t & err & He). apply wp_ret. split; [done|]. intros Hs.
    destruct (is_tool m) eqn:Em; [|done]. by rewrite (Hs t m Em) in He.
  - destruct H as (Ho & Hc & Hl). apply wp_bind, wp_modify, wp_ret.
    split; [etransitivity; [exact Ho|apply outside_set_conv]| |by rewrite <- Hl].
    unfold messages_of. cbn. by rewrite Hc.
Qed.

(** ** Compaction *)

(** What a compaction did to the conversation whose first [stored] messages
    are stored: they were replaced by the summary and the ones it keeps. *)
Record compaction_step (stored n : nat) (w w' : World) : Prop := {
  cs_outside : outside w w';
  cs_effect : exists c,
    messages_of w' = Compacted (take stored (messages_of w)) c ++ drop stored (messages_of w) /\
    log w' = log w ++ (if o_store opts then [SCompaction c] else []) /\
    n = length (Compacted (take stored (messages_of w)) c) /\
    well_formed (Compacted (take stored (messages_of w)) c) /\ (n <= stored)%nat;
}.

Lemma plan_cuts_well_formed msgs stored p :
  (stored <= length msgs)%nat -> well_formed (take stored msgs) -> plan_ok msgs stored p ->
  well_formed (take (historyEnd p) msgs) /\ well_formed (take (p_first p) msgs).
Proof.
  intros Hl Hw Hp.
  assert (Hcut : forall i, (i < stored)%nat -> is_tool (msg_at msgs i) = false -> well_formed (take i msgs)).
  { intros i Hi Ht. destruct (well_formed_cut (take stored msgs) i (msg_at msgs i)) as [H _]; try done.
    - rewrite lookup_take_lt by done. apply msg_at_lookup. lia.
    - by rewrite take_take, Nat.min_l in H by lia. }
  pose proof (plan_first_stored _ _ _ Hp) as Hf.
  split; [|by apply Hcut, (plan_first_cut _ _ _ Hp)].
  unfold historyEnd. destruct (p_turnStart p) as [t|] eqn:Et; [|by apply Hcut, (plan_first_cut _ _ _ Hp)].
  destruct (plan_turn _ _ _ Hp t Et) as [Ht Hu]. apply Hcut; [lia|]. unfold is_tool. by rewrite Hu.
Qed.

Lemma Compacted_length before c :
  0 <= Kept c <= Z.of_nat (length before) -> length (Compacted before c) = S (Z.to_nat (Kept c)).
Proof.
  intros H. unfold Compacted. rewrite length_cons, length_map, length_drop. f_equal. lia.
Qed.

Lemma wp_compact runID prompt stored reason instructions w :
  (stored <= length (messages_of w))%nat -> well_formed (take stored (messages_of w)) ->
  wp (compact E opts runID prompt stored reason instructions) (fun r w' =>
    match r.2 with
    | Some _ => r.1 = stored /\ quiet w w'
    | None => compaction_step stored r.1 w w'
    end) w.
Proof.
  intros Hl Hw. unfold compact. apply wp_bind, wp_gets. fold (messages_of w). cbn zeta.
  destruct (planCompaction _ _ _ _) as [plan ok] eqn:Ep. destruct ok; [|by apply wp_ret].
  pose proof (planCompaction_sound _ _ _ _ _ Ep) as Hp.
  destruct (plan_cuts_well_formed _ _ _ Hl Hw Hp) as [Hh Hf].
  apply wp_bind. eapply wp_quietly; [apply quietly_emit|]. intros [] w1 H1 _.
  apply wp_bind. eapply wp_quietly; [by apply quietly_summarize|]. intros [r u] w2 H2 _.
  assert (H02 : quiet w w2) by (by transitivity w1). clear w1 H1 H2.
  destruct r as [summary|err].
  2:{ apply wp_bind. eapply wp_quietly; [apply quietly_emit|]. intros [] w3 H3 _. apply wp_ret.
      split; [done|by transitivity w2]. }
  set (kept := Z.of_nat stored - Z.of_nat (p_first plan)).
  match goal with |- context [SCompaction ?r] => set (rec := r) end.
  assert (Hkept : kept = Z.of_nat (stored - p_first plan)).
  { pose proof (plan_first_stored _ _ _ Hp). unfold kept. lia. }
  assert (Hrec : Kept rec = kept) by done.
  assert (Hlt : length (take stored (messages_of w)) = stored) by (rewrite length_take; lia).
  apply wp_bind. eapply (wp_quietly _ (fun _ => True)).
  { destruct (o_store opts); [by apply (quietly_query E)|by apply quietly_ret]. }
  intros e w3 H3 _. assert (H03 : quiet w w3) by (by transitivity w2). clear w2 H02 H3.
  destruct e as [e|].
  { apply wp_bind. eapply wp_quietly; [apply quietly_emit|]. intros [] w4 H4 _. apply wp_ret.
    split; [done|by transitivity w3]. }
  apply wp_bind, wp_modify, wp_bind, wp_modify, wp_bind.
  eapply wp_quietly; [apply quietly_emit|]. intros [] w4 [Ho Hc Hlog] _. apply wp_ret. cbn [snd fst].
  destruct H03 as [Ho3 Hc3 Hl3]. split.
  - transitivity w3; [done|]. etransitivity; [|exact Ho].
    etransitivity; [|apply outside_set_conv].
    destruct (o_store opts); [apply outside_set_log|reflexivity].
  - exists rec. split; [unfold messages_of at 1; by rewrite Hc|]. rewrite Hlog, <- Hl3.
    split; [destruct (o_store opts); cbn; [done|by rewrite app_nil_r]|].
    rewrite Compacted_length by (rewrite Hlt; cbn; lia). split; [done|].
    pose proof (plan_first_stored _ _ _ Hp) as Hfs. pose proof (plan_progress _ _ _ Hp) as Hpp.
    split; [|lia].
    apply (Compacted_well_formed _ _ (p_first plan)); rewrite ?Hlt; try done; try lia.
    intros _. rewrite msg_at_take by done. apply (plan_first_cut _ _ _ Hp).
Qed.

(** ** A turn with undelivered messages *)

(** What of the conversation is stored, when the undelivered messages begin
    at [mark]. *)
Definition stored_part (mark : option nat) (w : World) : list Message :=
  match mark with
  | Some k => take k (messages_of w)
  | None => messages_of w
  end.

(** The conversation is the stored part, which is what the log stands for,
    and then the undelivered user messages [pending]. *)
Record ready (mark : option nat) (pending : list Message) (w : World) : Prop := {
  rd_wf : well_formed (stored_part mark w);
  rd_mark : (default (length (messages_of w)) mark <= length (messages_of w))%nat;
  rd_split : messages_of w = stored_part mark w ++ pending;
  rd_users : Forall user_message pending;
  rd_replay : o_store opts = true -> replay (log w) = stored_part mark w;
}.

Lemma ready_well_formed mark pending w : ready mark pending w -> well_formed (messages_of w).
Proof.
  intros [Hw _ Hs Hu _]. rewrite Hs. apply well_formed_app_plain; [done|by apply user_messages_plain].
Qed.

Lemma ready_quiet mark pending w w' : ready mark pending w -> quiet w w' -> ready mark pending w'.
Proof.
  intros [a b c d e] [_ Hc Hl]. unfold stored_part, messages_of in *.
  split; unfold stored_part, messages_of; rewrite ?Hc, ?Hl; auto.
Qed.

(** A step that leaves what is delivered and undelivered as it was; a
    compaction may have rewritten the stored part. *)
Definition settled (pending : list Message) (mark' : option nat) (w w' : World) : Prop :=
  ready mark' pending w' /\ outside w w' /\ log_users (log w') = log_users (log w).

Lemma settled_quiet mark pending w w' : ready mark pending w -> quiet w w' -> settled pending mark w w'.
Proof.
  intros H Hq. split; [by eapply ready_quiet|]. destruct Hq as [? _ Hl]. by rewrite Hl.
Qed.

Lemma settled_trans pending mark mark' w w' w'' :
  settled pending mark w w' -> settled pending mark' w' w'' -> settled pending mark' w w''.
Proof. intros (_ & b & c) (a' & b' & c'). split; [done|]. split; [by transitivity w'|congruence]. Qed.

(** A compaction of the stored part, in the middle of a turn. *)
Lemma compaction_settled mark pending w w' n :
  ready mark pending w ->
  compaction_step (default (length (messages_of w)) mark) n w w' ->
  settled pending (match mark with Some _ => Some n | None => None end) w w'.
Proof.
  intros [Hw Hle Hs Hu Hr] [Ho (c & Hm & Hl & Hn & Hcw & _)].
  assert (Ht : take (default (length (messages_of w)) mark) (messages_of w) = stored_part mark w).
  { destruct mark; cbn; [done|]. by rewrite take_ge by lia. }
  assert (Hd : drop (default (length (messages_of w)) mark) (messages_of w) = pending).
  { apply (app_inv_head (stored_part mark w)). rewrite <- Ht at 1. by rewrite take_drop. }
  rewrite Ht, Hd in *.
  assert (Hp : stored_part (match mark with Some _ => Some n | None => None end) w' =
               Compacted (stored_part mark w) c).
  { destruct mark as [k|]; cbn.
    - rewrite Hm, Hn. by rewrite take_app_length.
    - rewrite Hm. replace pending with (@nil Message); [by rewrite app_nil_r|].
      rewrite <- Hd. cbn. by rewrite drop_all. }
  split; [|split; [done|]].
  - split; rewrite ?Hp; try done.
    { destruct mark; cbn; [|lia]. rewrite Hm, length_app, Hn. lia. }
    intros Hst. rewrite Hl, Hst, replay_app. cbn. by rewrite Hr.
  - rewrite Hl, log_users_app. destruct (o_store opts); cbn; by rewrite app_nil_r.
Qed.
Lemma wp_autoCompact runID prompt mark pending reason w :
  ready mark pending w ->
  wp (autoCompact E opts runID prompt mark reason) (fun r w' => settled pending r.2 w w') w.
Proof.
  intros Hr. unfold autoCompact. apply wp_bind, wp_gets. fold (messages_of w). cbn zeta.
  apply wp_bind. eapply wp_mono; [apply wp_compact|].
  - apply Hr.
  - pose proof (rd_wf _ _ _ Hr) as Hw. destruct mark as [k|]; cbn in *; [done|].
    by rewrite take_ge by lia.
  - intros [n [e|]] w' H; cbn in H; apply wp_ret; cbn [snd].
    + destruct H as [_ Hq]. by apply settled_quiet.
    + by apply (compaction_settled mark pending w w' n).
Qed.

(** ** A model call *)

Definition call_post (t0 : nat) (prompt : list PromptSection) (pending : list Message) (w : World)
    (r : call_result) (w' : World) : Prop :=
  settled pending r.2 w w' /\
  match r.1 with
  | inl (resp, sent) => response_ok E t0 resp /\
      Messages sent = Messages (WithMessages (base opts prompt) (messages_of w'))
  | inr _ => True
  end.

Lemma fit_messages c tokens window c' : fit c tokens window = inl c' -> Messages c' = Messages c.
Proof. unfold fit. intros H. by repeat (case_match; simplify_eq/=). Qed.

Lemma quietly_ctx_err : quietly (ctx_err E) (fun _ => True).
Proof. by apply (quietly_query E). Qed.

Lemma wp_call_loop t0 fuel runID prompt compacted recovered mark pending w :
  (t0 <= tick w)%nat -> ready mark pending w ->
  wp (call_loop E opts fuel runID prompt compacted recovered mark) (call_post t0 prompt pending w) w.
Proof.
  revert compacted recovered mark w.
  induction fuel as [|fuel IH]; intros compacted recovered mark w Ht Hr; cbn [call_loop]; [apply wp_fuel|].
  assert (Hnext : forall compacted recovered mark' w', settled pending mark' w w' ->
    wp (call_loop E opts fuel runID prompt compacted recovered mark') (call_post t0 prompt pending w) w').
  { intros co re mark' w' Hs. pose proof (o_tick _ _ (proj1 (proj2 Hs))).
    eapply wp_mono; [apply IH; [lia|apply Hs]|]. intros r w'' [H1 H2].
    split; [|done]. by eapply settled_trans. }
  apply wp_bind, wp_gets. fold (messages_of w). cbn zeta. destruct (_ && shouldCompact _ _ _).
  - apply wp_bind. eapply wp_mono; [by apply wp_autoCompact|]. intros [err mark'] w1 H1. cbn [snd] in H1.
    apply wp_bind. eapply (wp_quietly _ (fun _ => True)).
    { destruct err; [apply quietly_ctx_err|by apply quietly_ret]. }
    intros c w2 H2 _.
    assert (Hs : settled pending mark' w w2).
    { eapply settled_trans; [exact H1|]. apply settled_quiet; [apply H1|done]. }
    destruct c as [e|]; [apply wp_ret; by split|by apply Hnext].
  - destruct (fit _ _ _) as [sent|err] eqn:Ef; [|apply wp_ret; split; [by apply settled_quiet|done]].
    apply fit_messages in Ef.
    apply wp_bind. eapply wp_mono.
    { apply (quietly_retrying E opts t0 runID true); [|done]. apply (quietly_stream E). unfold request_ok.
      cbn [RMessages Context_Request]. rewrite Ef.
      by apply WithMessages_well_formed, (ready_well_formed mark pending). }
    intros r w1 [H1 Hans]. pose proof (settled_quiet _ _ _ _ Hr H1) as Hs1.
    destruct (check_overflow opts _ r) as [resp|err] eqn:Ec.
    + apply wp_ret. split; [done|]. cbn. unfold check_overflow in Ec.
      destruct r as [r|]; [|done]. destruct (_ && silentOverflow _ _); [done|]. injection Ec as ->.
      split; [done|]. rewrite Ef. unfold messages_of. by rewrite (q_conv _ _ H1).
    + apply wp_bind. eapply (wp_quietly _ (fun _ => True)).
      { destruct (Auto _ && _); [apply quietly_ctx_err|by apply quietly_ret]. }
      intros c w2 H2 _.
      assert (Hs2 : settled pending mark w w2).
      { eapply settled_trans; [exact Hs1|]. apply settled_quiet; [apply Hs1|done]. }
      destruct (_ || negb _); [apply wp_ret; by split|].
      apply wp_bind. eapply wp_quietly; [apply quietly_emit|]. intros [] w3 H3 _.
      assert (Hr3 : ready mark pending w3) by (eapply ready_quiet; [apply Hs2|done]).
      apply wp_bind. eapply wp_mono; [by apply wp_autoCompact|]. intros [ce mark'] w4 H4. cbn [snd] in H4.
      assert (Hs : settled pending mark' w w4).
      { eapply settled_trans; [exact Hs2|]. eapply settled_trans; [|exact H4].
        apply settled_quiet; [apply Hs2|done]. }
      destruct ce as [ce|]; [apply wp_ret; by split|by apply Hnext].
Qed.

Lemma wp_call t0 runID prompt mark pending w :
  (t0 <= tick w)%nat -> ready mark pending w -> wp (call E opts runID prompt mark) (call_post t0 prompt pending w) w.
Proof. apply wp_call_loop. Qed.

End spec.

#[local] Set Default Proof Using "Type*".

(** A tool result that answers the call [id]. *)
Definition result_of (id : string) (r : Message) : Prop := is_tool r = true /\ ToolCallID r = id.

Lemma result_of_ToolResultMessage id content e : result_of id (ToolResultMessage id content e).
Proof. done. Qed.

Lemma results_not_user rs : Forall (fun r => is_tool r = true) rs -> log_users (map SMessage rs) = [].
Proof.
  intros H. apply log_users_others. eapply Forall_impl; [exact H|]. intros m Hm Hu.
  unfold is_tool in Hm. rewrite Hu in Hm. by apply bool_decide_eq_true in Hm.
Qed.

(** The two queues together. *)
Definition queued (w : World) : list Message := Q.messages (steering w) ++ Q.messages (followUps w).

Section turn.
  Context (E : Env) `{!UserArrivals E} (opts : Options) (s : Session).

(** ** The invariants of a run *)

(** A recorded call is of the conversation the log stood for then. *)
Definition record_ok (r : ModelCall * list StoreItem) : Prop :=
  o_store opts = true -> exists prompt,
    Messages (MC_Context r.1) = Messages (WithMessages (base opts prompt) (replay r.2)).

(** Nothing a user sent is lost or delivered twice: the user messages of the
    log, what is queued, and what is in flight are those of the start, [K],
    and the accepted ones. *)
Record tracked (K infl : list Message) (w : World) : Prop := {
  tr_requests : Forall request_ok (requests w);
  tr_records : Forall record_ok (records w);
  tr_queued : Forall user_message (queued w);
  tr_accepted : Forall user_message (accepted w);
  tr_ledger : o_store opts = true ->
    log_users (log w) ++ queued w ++ infl ≡ₚ K ++ accepted w;
}.

Lemma tracked_outside K infl w w' :
  tracked K infl w -> outside w w' -> log_users (log w') = log_users (log w) -> tracked K infl w'.
Proof.
  intros [a b c c' d] [_ Hrec (ns & nf & na & H1 & H2 & H3 & H4 & H5) (rs & Hrs & Hok) _] Hl.
  assert (Hq : queued w' ≡ₚ queued w ++ na).
  { unfold queued. rewrite H1, H2, H4. cbn. by solve_Permutation. }
  split.
  - rewrite Hrs. by apply Forall_app.
  - by rewrite Hrec.
  - rewrite Hq. by apply Forall_app.
  - rewrite H3. by apply Forall_app.
  - intros Hst. rewrite Hl, Hq, H3.
    transitivity ((log_users (log w) ++ queued w ++ infl) ++ na); [by solve_Permutation|].
    rewrite (d Hst). by solve_Permutation.
Qed.

Lemma tracked_quiet K infl w w' : tracked K infl w -> quiet w w' -> tracked K infl w'.
Proof. intros H [Ho _ Hl]. eapply tracked_outside; [exact H|exact Ho|by rewrite Hl]. Qed.

Lemma tracked_settled K infl pending mark w w' :
  tracked K infl w -> settled opts pending mark w w' -> tracked K infl w'.
Proof. intros H (_ & Ho & Hl). by eapply tracked_outside. Qed.

Lemma tracked_grew K infl ms w w' :
  tracked K infl w -> grew opts ms w w' -> log_users (map SMessage ms) = [] -> tracked K infl w'.
Proof.
  intros H [Ho _ Hl] Hms. eapply tracked_outside; [exact H|exact Ho|].
  rewrite Hl, log_users_app. unfold logged. destruct (o_store opts); rewrite ?Hms; by rewrite app_nil_r.
Qed.

(** ** Tool calls *)

(** The results [rs] the conversation grew by answer the calls, as far as the
    store let them; [sure] makes it all of them. *)
Definition answered (sure : Prop) (calls : list ToolCall) (w w' : World) : Prop :=
  exists rs, grew opts rs w w' /\ Forall (fun r => is_tool r = true) rs /\
    (sure -> Forall2 result_of (map CallID calls) rs).

Lemma answered_quiet_l (P : Prop) calls w w' w'' : quiet w w' -> answered P calls w' w'' -> answered P calls w w''.
Proof. intros Hq (rs & Hg & H). exists rs. split; [by eapply grew_quiet_l|done]. Qed.

Lemma answered_quiet_r (P : Prop) calls w w' w'' : answered P calls w w' -> quiet w' w'' -> answered P calls w w''.
Proof. intros (rs & Hg & H) Hq. exists rs. split; [by eapply grew_quiet_r|done]. Qed.

Lemma answered_weaken (P R : Prop) calls w w' : (R -> P) -> answered P calls w w' -> answered R calls w w'.
Proof. intros H (rs & Hg & Ht & Hr). exists rs. auto. Qed.

Lemma answered_nil (P : Prop) w : answered P [] w w.
Proof. exists []. split; [apply grew_quiet; reflexivity|]. split; [done|]. intros _. constructor. Qed.

Lemma answered_cons (P : Prop) c calls m w w' w'' :
  grew opts [m] w w' -> result_of (CallID c) m -> answered P calls w' w'' -> answered P (c :: calls) w w''.
Proof.
  intros Hg Hm (rs & Hg' & Ht & Hr). exists (m :: rs). split; [exact (grew_trans opts [m] rs _ _ _ Hg Hg')|].
  split; [constructor; [apply Hm|done]|]. intros HP. cbn. constructor; [done|auto].
Qed.

Lemma wp_abandonToolCalls runID calls cause joined w :
  wp (abandonToolCalls E opts runID calls cause joined)
    (fun _ w' => answered (tool_stores_safe E) calls w w') w.
Proof.
  revert joined w. induction calls as [|c calls IH]; intros joined w; cbn [abandonToolCalls].
  { apply wp_ret, answered_nil. }
  cbn zeta. apply wp_bind. eapply wp_quietly; [apply quietly_emit|]. intros [] w1 H1 _.
  apply wp_bind. eapply wp_mono; [by apply wp_append|]. intros [e|] w2 H2; cbn beta iota in H2.
  - destruct H2 as [H2 Hsafe]. eapply wp_mono; [apply IH|]. intros j w3 (rs & Hg & Ht & _).
    exists rs. split; [by eapply grew_quiet_l; [exact H1|]; eapply grew_quiet_l|].
    split; [done|]. intros Hs. by specialize (Hsafe Hs).
  - eapply wp_mono; [apply IH|]. intros j w3 H3. eapply answered_quiet_l; [exact H1|].
    by eapply answered_cons.
Qed.

Lemma quietly_dispatch runID c : quietly (dispatch E opts s runID c) (fun _ => True).
Proof.
  unfold dispatch. destruct (o_tools opts) as [r|]; [|by apply quietly_ret].
  destruct (Get r (CallName c)); [|by apply quietly_ret].
  destruct (_ && _); [by apply quietly_ret|by apply (quietly_query E)].
Qed.

Lemma quietly_callTool runID c :
  quietly (callTool E opts s runID c) (fun r => match r with inl m => result_of (CallID c) m | _ => True end).
Proof.
  unfold callTool. eapply quietly_bind; [apply quietly_emit|]. intros [] _.
  eapply quietly_bind; [by apply (quietly_query E)|]. intros t _.
  eapply quietly_bind; [apply quietly_dispatch|]. intros [res|err] _; [|by apply quietly_ret].
  eapply quietly_bind; [by apply (quietly_query E)|]. intros t' _.
  eapply quietly_bind; [apply quietly_emit|]. intros [] _. by apply quietly_ret.
Qed.

Lemma quietly_fail runID err : quietly (fail runID err) (fun _ => True).
Proof.
  unfold fail. eapply quietly_bind; [apply quietly_emit|]. intros [] _. by apply quietly_ret.
Qed.

(** Giving up on the calls a failed turn never finished. *)
Definition abandon_failing (runID : string) (calls : list ToolCall) (err : GoError) : M (option GoError) :=
  j ← abandonToolCalls E opts runID calls err None;
  e ← fail runID (default err (errors_join [Some err; j]));
  mret (Some e).

Lemma wp_abandon_failing runID calls err w :
  wp (abandon_failing runID calls err) (fun e w' => answered (e = None \/ tool_stores_safe E) calls w w') w.
Proof.
  apply wp_bind. eapply wp_mono; [apply wp_abandonToolCalls|]. intros j w1 H1.
  apply wp_bind. eapply wp_quietly; [apply quietly_fail|]. intros e w2 H2 _. apply wp_ret.
  eapply answered_quiet_r; [|exact H2]. eapply answered_weaken; [|exact H1]. by intros [?|?].
Qed.

Lemma wp_runTools runID calls w :
  wp (runTools E opts s runID calls)
    (fun e w' => answered (e = None \/ tool_stores_safe E) calls w w') w.
Proof.
  revert w. induction calls as [|c calls IH]; intros w; cbn [runTools]; [apply wp_ret, answered_nil|].
  apply wp_bind. eapply wp_quietly; [by apply (quietly_query E)|]. intros [err|] w1 H1 _.
  { eapply wp_mono; [apply (wp_abandon_failing runID (c :: calls))|]. intros e w2. by apply answered_quiet_l. }
  apply wp_bind. eapply wp_quietly; [apply quietly_callTool|]. intros [m|err] w2 H2 Hm;
    assert (H02 : quiet w w2) by (by transitivity w1).
  2:{ eapply wp_mono; [apply (wp_abandon_failing runID (c :: calls))|]. intros e w3. by apply answered_quiet_l. }
  apply wp_bind. unfold appendTerminal. eapply wp_mono; [by apply wp_append|].
  intros [err|] w3 H3; cbn beta iota in H3.
  - destruct H3 as [H3 _]. eapply wp_mono; [apply (wp_abandon_failing runID (c :: calls))|]. intros e w4.
    apply answered_quiet_l. by transitivity w2.
  - eapply wp_mono; [apply IH|]. intros e w4 H4. eapply answered_quiet_l; [exact H02|].
    by eapply answered_cons.
Qed.

(** ** Delivering and taking back *)

(** How a turn that delivers [msgs] ends: the log stands for the conversation;
    the conversation is valid, unless a tool result could not be stored; and
    only messages that no queue had held may be dropped, by a failed turn. *)
Record turn_over (K msgs : list Message) (origin : option queueRef) (e : option GoError) (w : World)
    : Prop := {
  to_replay : o_store opts = true -> replay (log w) = messages_of w;
  to_wf : e = None \/ tool_stores_safe E -> well_formed (messages_of w);
  to_tracked : exists dropped, tracked K dropped w /\ dropped `suffix_of` msgs /\
    (e = None \/ origin <> None -> dropped = []);
}.

Lemma turn_over_quiet K msgs origin e w w' :
  turn_over K msgs origin e w -> quiet w w' -> turn_over K msgs origin e w'.
Proof.
  intros [a b (d & Ht & Hd)] Hq. pose proof (tracked_quiet _ _ _ _ Ht Hq) as Ht'.
  destruct Hq as [_ Hc Hl]. unfold messages_of in *. split; unfold messages_of; rewrite ?Hc, ?Hl; eauto.
Qed.

Lemma turn_over_delivered K msgs origin e w :
  ready opts None [] w -> tracked K [] w -> turn_over K msgs origin e w.
Proof.
  intros Hr Ht. split; [apply Hr|intros _; apply Hr|]. exists []. split; [done|].
  split; [apply suffix_nil|done].
Qed.

Lemma turn_over_error K msgs origin e e' w :
  turn_over K msgs origin (Some e) w -> turn_over K msgs origin (Some e') w.
Proof.
  intros [a b (d & Ht & Hs & Hd)]. split; [done|intros [?|?]; [done|auto]|].
  exists d. split; [done|]. split; [done|]. intros [?|?]; [done|auto].
Qed.

Lemma wp_storePending i ms w :
  wp (storePending E opts i ms) (fun r w' =>
    outside w w' /\ conv w' = conv w /\
    match r with
    | None => log w' = log w ++ logged opts ms
    | Some (j, _) => (i <= j < i + length ms)%nat /\ log w' = log w ++ logged opts (take (j - i) ms)
    end) w.
Proof.
  revert i w. induction ms as [|m ms IH]; intros i w; cbn [storePending].
  { apply wp_ret. split; [reflexivity|]. unfold logged. destruct (o_store opts); by rewrite app_nil_r. }
  apply wp_bind. eapply wp_mono; [by apply wp_store|]. intros [e|] w1 H1; cbn beta iota in H1.
  - destruct H1 as ([Ho Hc Hl] & _). apply wp_ret. split; [done|]. split; [done|]. split; [cbn; lia|].
    rewrite Hl, Nat.sub_diag. unfold logged. destruct (o_store opts); by rewrite app_nil_r.
  - destruct H1 as (Ho & Hc & Hl). eapply wp_mono; [apply IH|]. intros r w2 (Ho2 & Hc2 & Hr).
    split; [by transitivity w1|]. split; [congruence|].
    assert (Hcons : forall k, log w1 ++ logged opts k = log w ++ logged opts (m :: k)).
    { intros k. rewrite Hl. unfold logged. destruct (o_store opts); by rewrite <- app_assoc. }
    destruct r as [[j e]|]; [|by rewrite Hr].
    destruct Hr as [Hj Hr]. split; [cbn; lia|]. rewrite Hr, Hcons.
    by replace (j - i)%nat with (S (j - S i)) by lia.
Qed.

(** What [restoreFrom] gives back to the queues. *)
Definition given_back (st : turnState) (n : nat) : list Message :=
  match t_origin st with Some _ => drop n (t_msgs st) | None => [] end ++
  drop (n - length (t_msgs st)) (t_steered st).

Lemma drop_min {A} (l : list A) n : drop (Nat.min n (length l)) l = drop n l.
Proof.
  destruct (decide (n <= length l)%nat); [by rewrite Nat.min_l by lia|].
  by rewrite Nat.min_r, !drop_ge by lia.
Qed.

Lemma wp_restoreFrom st n w :
  wp (restoreFrom st n) (fun _ w' =>
    messages_of w' = match t_mark st with
                     | Some k => take (k + n) (messages_of w)
                     | None => messages_of w
                     end /\
    queued w' ≡ₚ given_back st n ++ queued w /\
    log w' = log w /\ requests w' = requests w /\ records w' = records w /\ accepted w' = accepted w) w.
Proof.
  unfold restoreFrom. apply wp_bind.
  set (w1 := match t_mark st with
             | Some k => set_conv (Conv.Truncate (Z.of_nat k + Z.of_nat n) (conv w)) w
             | None => w end).
  assert (H1 : messages_of w1 = match t_mark st with
    | Some k => take (k + n) (messages_of w) | None => messages_of w end).
  { subst w1. destruct (t_mark st) as [k|]; [|done]. unfold messages_of. cbn.
    unfold Conv.Messages. rewrite Conv.Truncate_take by lia. f_equal. lia. }
  assert (Hrest : queued w1 = queued w /\ log w1 = log w /\ requests w1 = requests w /\
    records w1 = records w /\ accepted w1 = accepted w) by (subst w1; by destruct (t_mark st)).
  assert (Hgo : forall Q, Q tt w1 -> wp (match t_mark st with
     | Some mark => modify (fun w => set_conv (Conv.Truncate (Z.of_nat mark + Z.of_nat n) (conv w)) w)
     | None => mret tt end) Q w) by (intros Q HQ; subst w1; by destruct (t_mark st)).
  apply Hgo. clear Hgo. rewrite drop_min. rewrite <- H1. destruct Hrest as (<- & <- & <- & <- & <-).
  clearbody w1. clear w H1. cbn zeta. unfold given_back. apply wp_bind.
  assert (Hs : forall l (w : World), queued (set_steering (Q.unshift l (steering w)) w) ≡ₚ l ++ queued w).
  { intros l w. unfold queued. cbn. rewrite Q.messages_unshift. by rewrite app_assoc. }
  assert (Ho : forall q l (w : World), queued (unshift_to q l w) ≡ₚ l ++ queued w).
  { intros [] l w; [apply Hs|]. unfold queued. cbn. rewrite Q.messages_unshift. by solve_Permutation. }
  assert (Hnil : forall (l : list Message) k, (Nat.min k (length l) <? length l)%nat = false -> drop k l = []).
  { intros l k H. bool_lia. apply drop_ge. lia. }
  assert (Hnil' : forall (l : list Message) k, (k <? length l)%nat = false -> drop k l = []).
  { intros l k H. bool_lia. apply drop_ge. lia. }
  destruct (t_origin st) as [q|]; [destruct (_ <? length (t_msgs st))%nat eqn:E1|];
    cbn beta iota; (apply wp_modify || apply wp_ret);
    (destruct (_ <? length (t_steered st))%nat eqn:E2; (apply wp_modify || apply wp_ret));
    rewrite ?(Hnil _ _ E1), ?(Hnil' _ _ E2); split; try done; try (by destruct q);
    (split; [|by try destruct q]); rewrite ?Hs, ?Ho, ?app_nil_l, ?app_nil_r; try done.
  by solve_Permutation.
Qed.

(** The undelivered messages are the turn's own, then the steering it
    drained. *)
Definition turn_ok (st : turnState) : Prop := t_pending st = t_msgs st ++ t_steered st.

(** Taking back all but the first [n] messages, which are stored, is how a
    turn ends that could not deliver the rest. *)
Lemma wp_take_back K st n e w :
  turn_ok st -> Forall user_message (t_pending st) -> well_formed (stored_part (t_mark st) w) ->
  messages_of w = stored_part (t_mark st) w ++ t_pending st ->
  (default (length (messages_of w)) (t_mark st) <= length (messages_of w))%nat ->
  (o_store opts = true -> replay (log w) = stored_part (t_mark st) w ++ take n (t_pending st)) ->
  tracked K (drop n (t_pending st)) w ->
  wp (restoreFrom st n) (fun _ w' => turn_over K (t_msgs st) (t_origin st) (Some e) w') w.
Proof.
  intros Hok Hu Hw Hs Hm Hr [Ht1 Ht2 Ht3 Hta Ht4].
  eapply wp_mono; [apply wp_restoreFrom|]. intros [] w' (H1 & H2 & H3 & H4 & H5 & H6).
  assert (Hc : messages_of w' = stored_part (t_mark st) w ++ take n (t_pending st)).
  { rewrite H1. destruct (t_mark st) as [k|]; cbn in *.
    - rewrite Hs at 1. rewrite take_app, length_take, Nat.min_l by lia. f_equal; [|f_equal; lia].
      rewrite take_take. by rewrite Nat.min_r by lia.
    - assert (t_pending st = []) as ->.
      { apply (app_inv_head (messages_of w)). by rewrite app_nil_r. }
      by rewrite take_nil, app_nil_r. }
  set (dropped := match t_origin st with Some _ => [] | None => drop n (t_msgs st) end).
  assert (Hgb : given_back st n ++ dropped ≡ₚ drop n (t_pending st)).
  { unfold given_back, dropped. rewrite Hok, drop_app. destruct (t_origin st); [by rewrite app_nil_r|].
    rewrite app_nil_l. by solve_Permutation. }
  assert (Hgu : Forall user_message (given_back st n)).
  { assert (Hall : Forall user_message (given_back st n ++ dropped))
      by (rewrite Hgb; by apply Forall_drop). by apply Forall_app in Hall as [? _]. }
  split.
  - intros Hst. by rewrite H3, Hc, Hr.
  - intros _. rewrite Hc. apply well_formed_app_plain; [done|]. by apply user_messages_plain, Forall_take.
  - exists dropped. split; [split|split].
    + by rewrite H4.
    + by rewrite H5.
    + rewrite H2. by apply Forall_app.
    + by rewrite H6.
    + intros Hst. rewrite H3, H6, H2, <- (Ht4 Hst), <- Hgb. by solve_Permutation.
    + unfold dropped. destruct (t_origin st); [apply suffix_nil|apply suffix_drop].
    + intros [?|?]; [done|]. unfold dropped. by destruct (t_origin st).
Qed.

Lemma wp_restore_all K st e w :
  turn_ok st -> ready opts (t_mark st) (t_pending st) w -> tracked K (t_pending st) w ->
  wp (restoreFrom st 0) (fun _ w' => turn_over K (t_msgs st) (t_origin st) (Some e) w') w.
Proof.
  intros Hok [Hw Hm Hs Hu Hr] Ht. apply wp_take_back; auto.
  intros Hst. by rewrite take_0, app_nil_r, Hr.
Qed.

(** An answer since [t0] asked for tools. *)
Definition asked_for_tools (t0 : nat) : Prop :=
  exists t req es, (t0 <= t)%nat /\ env_stream E t req = inl es /\ omap call_of es <> [].

Lemma response_ok_asked t0 resp :
  response_ok E t0 resp -> ToolCalls (r_message resp) <> [] -> asked_for_tools t0.
Proof.
  intros (_ & t & req & es & Ht & He & Hr) Hc. exists t, req, es. split; [done|]. split; [done|].
  destruct (ToolCalls (r_message resp)) as [|c l] eqn:E'; [done|]. intros Hn.
  pose proof (response_of_calls es resp c Hr ltac:(rewrite E'; apply elem_of_cons; by left)) as Hin.
  rewrite Hn in Hin. by apply elem_of_nil in Hin.
Qed.

(** What one round comes to: [None] goes around again with everything
    delivered, because an answer asked for tools. *)
Definition round_post (t0 : nat) (K msgs : list Message) (origin : option queueRef)
    (r : option (option GoError)) (w : World) : Prop :=
  match r with
  | None => ready opts None [] w /\ tracked K [] w /\ asked_for_tools t0
  | Some e => turn_over K msgs origin e w
  end.

Lemma wp_fail_over t0 K msgs origin runID err (Q := fun r w => round_post t0 K msgs origin r w) w :
  (forall e, turn_over K msgs origin (Some e) w) ->
  wp (e ← fail runID err; mret (Some (Some e))) Q w.
Proof.
  intros H. apply wp_bind. eapply wp_quietly; [apply quietly_fail|]. intros e w1 H1 _. apply wp_ret.
  cbn. by eapply turn_over_quiet.
Qed.

(** A reply without tool calls, or with calls all answered, leaves the
    conversation valid. *)
Lemma delivered_grew K ms w w' :
  ready opts None [] w -> tracked K [] w -> grew opts ms w w' ->
  Forall (fun m => MRole m <> RoleUser) ms ->
  (o_store opts = true -> replay (log w') = messages_of w') /\ tracked K [] w' /\
  (well_formed (messages_of w ++ ms) -> ready opts None [] w').
Proof.
  intros [Hw Hm Hs Hu Hr] Ht Hg Hms. pose proof Hg as [Ho Hc Hl].
  assert (Hrep : o_store opts = true -> replay (log w') = messages_of w').
  { intros Hst. rewrite Hl. unfold logged. rewrite Hst, replay_messages, Hc. by rewrite Hr. }
  split; [done|]. split; [eapply tracked_grew; [exact Ht|exact Hg|by apply log_users_others]|].
  intros Hwf. split; cbn; rewrite ?app_nil_r; try done. by rewrite Hc.
Qed.

Lemma wp_record K infl runID sent u w :
  tracked K infl w -> (exists prompt, Messages sent = Messages (WithMessages (base opts prompt) (messages_of w))) ->
  (o_store opts = true -> replay (log w) = messages_of w) ->
  wp (record E opts s runID sent u) (fun _ w' =>
    tracked K infl w' /\ conv w' = conv w /\ log w' = log w) w.
Proof.
  intros Ht [p Hp] Hr. unfold record. destruct (o_recorder opts); cbn [negb].
  2:{ by apply wp_ret. }
  apply wp_bind, wp_gets. cbn zeta. apply wp_bind, wp_modify, wp_bind.
  eapply wp_quietly; [by apply (quietly_query E)|]. intros e w1 Hq _. apply wp_ret.
  set (w0 := set_records _ w) in *.
  assert (Ht0 : tracked K infl w0).
  { destruct Ht as [a b c c' d]. split; try done. apply Forall_app. split; [done|]. apply Forall_singleton.
    intros Hst. exists p. cbn [fst snd MC_Context]. by rewrite (Hr Hst). }
  split; [by eapply tracked_quiet|]. by destruct Hq.
Qed.

Lemma tracked_stored K ms infl w w' :
  tracked K (ms ++ infl) w -> outside w w' -> Forall user_message ms ->
  log w' = log w ++ logged opts ms -> tracked K infl w'.
Proof.
  intros Ht Ho Hms Hl.
  destruct (tracked_outside _ _ w (set_log (log w) w') Ht) as [a b c c' d]; [|done|].
  { etransitivity; [exact Ho|apply outside_set_log]. }
  split; try done. intros Hst. specialize (d Hst). cbn [log set_log accepted] in d.
  change (queued (set_log (log w) w')) with (queued w') in d.
  rewrite Hl. unfold logged. rewrite Hst, log_users_app, log_users_users by done.
  rewrite <- d. by solve_Permutation.
Qed.

(** The reply of a response, with its measurements. *)
Lemma with_gen_metrics_ok t0 runID g resp :
  response_ok E t0 resp ->
  let reply := with_gen_metrics opts runID g (r_message resp) in
  MRole reply = RoleAssistant /\ ToolCalls reply = ToolCalls (r_message resp).
Proof. intros [Hr _]. unfold with_gen_metrics. case_bool_decide; by split. Qed.

Lemma reply_accepted reply msgs rs :
  MRole reply = RoleAssistant -> well_formed msgs ->
  Forall2 result_of (map CallID (ToolCalls reply)) rs -> well_formed (msgs ++ reply :: rs).
Proof.
  intros Hr Hw Hrs. unfold well_formed in *. rewrite accepts_app, Hw. cbn.
  unfold accept, is_tool. rewrite Hr. cbn. by apply accepts_results.
Qed.

(** Everything a reply brings, after it is recorded. *)
Lemma wp_reply t0 K msgs origin runID resp w :
  response_ok E t0 resp -> ready opts None [] w -> tracked K [] w ->
  wp (g ← gets gen;
      let reply := with_gen_metrics opts runID g (r_message resp) in
      aerr ← (if empty reply then mret None
              else if (length (ToolCalls reply) =? 0)%nat then append E opts reply
              else appendTerminal E opts reply);
      match aerr with
      | Some err => mret (Some (Some err))
      | None =>
          if (length (ToolCalls reply) =? 0)%nat then
            _ ← emit (TurnEnd runID (r_stop resp) (g_usage g) (g_context g)
                        (milliseconds (g_elapsed g)) (o_ContextWindow opts) (reported g));
            mret (Some None)
          else
            terr ← runTools E opts s runID (ToolCalls reply);
            match terr with
            | Some err => mret (Some (Some err))
            | None => mret None
            end
      end) (round_post t0 K msgs origin) w.
Proof.
  intros Hresp Hr Ht. apply wp_bind, wp_gets. cbn zeta. generalize (gen w). intros g.
  destruct (with_gen_metrics_ok t0 runID g resp Hresp) as [Hrole Hcalls].
  set (reply := with_gen_metrics opts runID g (r_message resp)) in *. clearbody reply.
  assert (Hnu : MRole reply <> RoleUser) by (by rewrite Hrole).
  apply wp_bind. destruct (empty reply) eqn:Ee.
  { apply wp_ret. apply andb_prop in Ee as [_ ->].
    apply wp_bind. eapply wp_quietly; [apply quietly_emit|]. intros [] w1 H1 _. apply wp_ret.
    eapply turn_over_quiet; [|exact H1]. by apply turn_over_delivered. }
  match goal with |- wp ?m _ _ => assert (m = append E opts reply) as -> by (by case_match) end.
  eapply wp_mono; [by apply wp_append|]. intros [err|] w1 H1; cbn beta iota in H1.
  { apply wp_ret. destruct H1 as [H1 _]. eapply turn_over_quiet; [|exact H1]. by apply turn_over_delivered. }
  destruct (ToolCalls reply) as [|c calls] eqn:Ec; cbn [length Nat.eqb].
  - apply wp_bind. eapply wp_quietly; [apply quietly_emit|]. intros [] w2 H2 _. apply wp_ret.
    eapply turn_over_quiet; [|exact H2].
    destruct (delivered_grew K [reply] w w1 Hr Ht H1) as (_ & Ht1 & Hr1); [by apply Forall_singleton|].
    apply turn_over_delivered; [|done]. apply Hr1, reply_accepted; [done|apply Hr|by rewrite Ec].
  - apply wp_bind. eapply wp_mono; [apply wp_runTools|]. intros e w2 (rs & Hg & Htool & Hans).
    pose proof (grew_trans opts [reply] rs _ _ _ H1 Hg) as H02.
    destruct (delivered_grew K ([reply] ++ rs) w w2 Hr Ht H02) as (Hrep & Ht2 & Hr2).
    { constructor; [done|]. eapply Forall_impl; [exact Htool|]. intros m Hm Hu.
      unfold is_tool in Hm. by rewrite Hu in Hm. }
    assert (Hwf : e = None \/ tool_stores_safe E -> ready opts None [] w2).
    { intros H. apply Hr2, (reply_accepted reply); [done|apply Hr|]. rewrite Ec. by apply Hans. }
    destruct e as [e|]; apply wp_ret.
    + split; [done| |]. { intros [?|Hs]; [done|]. apply (Hwf (or_intror Hs)). }
      exists []. split; [done|]. split; [apply suffix_nil|done].
    + split; [by apply Hwf; left|]. split; [done|]. apply (response_ok_asked t0 resp Hresp). by rewrite <- Hcalls.
Qed.

Lemma wp_deliver t0 K prompt runID st resp sent w :
  turn_ok st -> ready opts (t_mark st) (t_pending st) w -> tracked K (t_pending st) w ->
  response_ok E t0 resp -> Messages sent = Messages (WithMessages (base opts prompt) (messages_of w)) ->
  wp (deliver E opts s runID st resp sent) (round_post t0 K (t_msgs st) (t_origin st)) w.
Proof.
  intros Hok Hr Ht Hresp Hsent. pose proof (ready_well_formed _ _ _ _ Hr) as Hwf.
  destruct Hr as [Hw Hm Hs Hu Hr].
  unfold deliver. apply wp_bind. eapply wp_mono; [apply wp_storePending|].
  intros [[i err]|] w1 (Ho & Hc & H1).
  - destruct H1 as [Hi Hl]. rewrite Nat.sub_0_r in Hl. apply wp_bind.
    assert (Hmsg : messages_of w1 = messages_of w) by (unfold messages_of; by rewrite Hc).
    assert (Hsp : stored_part (t_mark st) w1 = stored_part (t_mark st) w) by (unfold stored_part; by rewrite Hmsg).
    eapply wp_mono; [apply (wp_take_back K st i err w1)|]; rewrite ?Hsp, ?Hmsg; auto.
    + intros Hst. rewrite Hl. unfold logged. rewrite Hst, replay_messages. by rewrite Hr.
    + eapply (tracked_stored K (take i (t_pending st))); [|exact Ho|by apply Forall_take|exact Hl].
      by rewrite take_drop.
    + intros [] w2 H2. cbn beta in H2. apply wp_fail_over. intros e. by eapply turn_over_error.
  - assert (Hr1 : ready opts None [] w1).
    { unfold messages_of in Hwf. split; unfold stored_part, messages_of; rewrite ?Hc, ?app_nil_r; cbn; try done.
      intros Hst. rewrite H1. unfold logged. rewrite Hst, replay_messages, Hr by done. by rewrite <- Hs. }
    assert (Ht1 : tracked K [] w1).
    { eapply (tracked_stored K (t_pending st)); [by rewrite app_nil_r|exact Ho|done|exact H1]. }
    apply wp_bind. eapply wp_mono; [eapply wp_record; [exact Ht1| |apply Hr1]|].
    { exists prompt. rewrite Hsent. unfold messages_of. by rewrite Hc. }
    intros [] w2 (Ht2 & Hc2 & Hl2). apply wp_reply; [done| |done].
    destruct Hr1 as [a b c d e]. unfold stored_part, messages_of in *.
    split; unfold stored_part, messages_of; rewrite ?Hc2, ?Hl2; auto.
Qed.
End turn.
