(* ===== verification/AgentRun.v ===== *)
(** What a run promises, for every environment: [Run] from start to end. *)
From S2P Require Import Prelude GoStr Float64 Provider Sampling Failure Tool Conversation Context Compaction.
From S2P Require Import Summary World Stream ContextFile Agent Outside AgentSpec.
From stdpp Require Import options.

#[local] Set Default Proof Using "Type*".

Section run.
  Context (E : Env) `{!UserArrivals E} (opts : Options) (s : Session).

(** ** The prompt *)

Lemma quietly_read p : quietly (read E p) (fun _ => True).
Proof.
  unfold read. eapply quietly_bind; [by apply (quietly_query E)|].
  intros [[[]|]|err] _; try (by apply quietly_ret).
  eapply quietly_bind; [by apply (quietly_query E)|]. intros [data|err] _; [|by apply quietly_ret].
  cbn zeta. destruct (String.eqb _ _); by apply quietly_ret.
Qed.

Lemma quietly_read_first dir names : quietly (read_first E dir names) (fun _ => True).
Proof.
  induction names as [|n names IH]; cbn [read_first]; [by apply quietly_ret|].
  eapply quietly_bind; [apply quietly_read|]. intros [[f|]|err] _; [by apply quietly_ret|exact IH|by apply quietly_ret].
Qed.

Lemma quietly_read_dirs g dirs files : quietly (read_dirs E g dirs files) (fun _ => True).
Proof.
  revert files. induction dirs as [|d dirs IH]; intros files; cbn [read_dirs]; [by apply quietly_ret|].
  eapply quietly_bind; [apply quietly_read_first|]. intros [[f|]|err] _; [apply IH|apply IH|by apply quietly_ret].
Qed.

Lemma quietly_prompt : quietly (prompt E opts) (fun _ => True).
Proof.
  unfold prompt. cbn zeta. apply quietly_if; [|by apply quietly_ret].
  eapply (quietly_bind _ _ (fun _ => True)); [|intros [files|err] _; by apply quietly_ret].
  unfold Discover. cbn zeta. eapply quietly_bind; [apply quietly_read|].
  intros [f|err] _; [apply quietly_read_dirs|by apply quietly_ret].
Qed.

(** ** Taking messages in *)

Lemma wp_addPending K infl st m w :
  ready opts (t_mark st) (t_pending st) w -> tracked opts K infl w -> user_message m ->
  wp (addPending st m) (fun st' w' =>
    ready opts (t_mark st') (t_pending st') w' /\ tracked opts K infl w' /\
    t_pending st' = t_pending st ++ [m] /\ t_msgs st' = t_msgs st /\
    t_origin st' = t_origin st /\ t_steered st' = t_steered st /\ tick w' = tick w) w.
Proof.
  intros [Hw Hm Hs Hu Hr] [a b c c' d] Hum.
  assert (Hp : stored_part (Some (default (length (messages_of w)) (t_mark st)))
                 (set_conv (Conv.Append m (conv w)) w) = stored_part (t_mark st) w).
  { unfold stored_part at 1. change (messages_of (set_conv _ w)) with (messages_of w ++ [m]).
    rewrite take_app_le by done. destruct (t_mark st); [done|]. apply firstn_all. }
  repeat first [apply wp_bind|apply wp_gets|apply wp_modify|apply wp_ret].
  cbn [t_pending t_msgs t_origin t_steered t_mark]. fold (messages_of w).
  split; [|by split; [split|]]. split; rewrite ?Hp; try done.
  - transitivity (length (messages_of w)); [exact Hm|].
    change (messages_of (set_conv _ w)) with (messages_of w ++ [m]). rewrite length_app. lia.
  - change (messages_of (set_conv _ w)) with (messages_of w ++ [m]). by rewrite Hs, <- app_assoc at 1.
  - apply Forall_app. split; [done|by apply Forall_singleton].
Qed.

Lemma wp_addPendings K infl st ms w :
  ready opts (t_mark st) (t_pending st) w -> tracked opts K infl w -> Forall user_message ms ->
  wp (addPendings st ms) (fun st' w' =>
    ready opts (t_mark st') (t_pending st') w' /\ tracked opts K infl w' /\
    t_pending st' = t_pending st ++ ms /\ t_msgs st' = t_msgs st /\
    t_origin st' = t_origin st /\ t_steered st' = t_steered st /\ tick w' = tick w) w.
Proof.
  revert st w. induction ms as [|m ms IH]; intros st w Hr Ht Hms; cbn [addPendings].
  { apply wp_ret. by rewrite app_nil_r. }
  apply Forall_cons in Hms as [Hm Hms]. apply wp_bind. eapply wp_mono; [by apply wp_addPending|].
  intros st1 w1 (Hr1 & Ht1 & H1 & H2 & H3 & H4 & Hk). eapply wp_mono; [by apply IH|].
  intros st2 w2 (Hr2 & Ht2 & H5 & H6 & H7 & H8 & Hk'). split; [done|]. split; [done|].
  rewrite H5, H1, <- app_assoc. split; [done|]. repeat split; congruence.
Qed.

Lemma wp_drainSteering K infl w :
  tracked opts K infl w ->
  wp drainSteering (fun ms w' => tracked opts K (infl ++ ms) w' /\ Forall user_message ms /\
    conv w' = conv w /\ log w' = log w /\ tick w' = tick w) w.
Proof.
  intros [a b c c' d]. repeat first [apply wp_bind|apply wp_gets|apply wp_modify|apply wp_ret].
  pose proof c as [c1 c2]%Forall_app. split; [|done]. split; try done.
  intros Hst. rewrite <- (d Hst). unfold queued. cbn. by solve_Permutation.
Qed.

Lemma ready_same mark pending w w' :
  ready opts mark pending w -> conv w' = conv w -> log w' = log w -> ready opts mark pending w'.
Proof.
  intros [a b c d e] Hc Hl. unfold stored_part, messages_of in *.
  split; unfold stored_part, messages_of; rewrite ?Hc, ?Hl; auto.
Qed.

(** ** Rounds and turns *)

Lemma wp_round t0 K runID prompt st w :
  (t0 <= tick w)%nat -> turn_ok st -> ready opts (t_mark st) (t_pending st) w -> tracked opts K (t_pending st) w ->
  wp (round E opts s runID prompt st) (round_post E opts t0 K (t_msgs st) (t_origin st)) w.
Proof.
  intros Hk Hok Hr Ht. unfold round. apply wp_bind. eapply wp_mono; [by apply wp_drainSteering|].
  intros ms w1 (Ht1 & Hms & Hc1 & Hl1 & Hk1).
  pose proof (ready_same _ _ _ _ Hr Hc1 Hl1) as Hr1.
  apply wp_bind. eapply wp_mono; [by eapply wp_addPendings|].
  intros st1 w2 (Hr2 & Ht2 & Hp & Hm & Ho & Hst & Hk2). rewrite <- Hm, <- Ho.
  set (st2 := mkTurn _ _ _ _ _).
  assert (Hok2 : turn_ok st2) by (unfold turn_ok; cbn; by rewrite Hp, Hok, app_assoc, Hm, Hst).
  rewrite <- Hp in Ht2. rewrite <- Hk1, <- Hk2 in Hk. clear w w1 st Hok Hr Ht Ht1 Hc1 Hl1 Hr1 Hp Hm Ho Hst Hk1 Hk2. cbn zeta.
  apply wp_bind. eapply wp_quietly; [by apply (quietly_ctx_err E)|]. intros c w3 H3 _.
  pose proof (ready_quiet _ _ _ _ _ Hr2 H3) as Hr3. pose proof (tracked_quiet _ _ _ _ _ Ht2 H3) as Ht3.
  pose proof (o_tick _ _ (q_outside _ _ H3)) as Hk3.
  assert (Hback : forall st err w, turn_ok st -> t_msgs st = t_msgs st1 -> t_origin st = t_origin st1 ->
    ready opts (t_mark st) (t_pending st) w -> tracked opts K (t_pending st) w ->
    wp (_ ← restoreFrom st 0; e ← fail runID err; mret (Some (Some e)))
      (round_post E opts t0 K (t_msgs st1) (t_origin st1)) w).
  { intros st err w Hok <- <- Hr Ht. apply wp_bind. eapply wp_mono; [by apply (wp_restore_all E opts K st err)|].
    intros [] w' Hto. cbn beta in Hto. apply (wp_fail_over E). intros e. by eapply turn_over_error. }
  destruct c as [err|]; [by apply (Hback st2)|].
  apply wp_bind. eapply wp_mono; [eapply (wp_call E opts t0); [lia|exact Hr3]|].
  intros [r mark] w4 [H4 H5]. cbn [fst snd] in H4, H5.
  pose proof (tracked_settled _ _ _ _ _ _ _ Ht3 H4) as Ht4. destruct H4 as [Hr4 _]. cbn zeta.
  set (st4 := mkTurn mark _ _ _ _).
  destruct r as [[resp sent]|err]; [|by apply (Hback st4)].
  destruct H5 as [H5 H6]. eapply wp_mono; [by eapply (wp_deliver E opts s t0 K prompt)|done].
Qed.

Lemma round_post_over K msgs origin e w :
  turn_over E opts K [] None e w -> turn_over E opts K msgs origin e w.
Proof.
  intros [a b (d & Ht & Hs & Hd)]. split; [done|done|]. exists d. split; [done|].
  apply suffix_nil_inv in Hs as ->. split; [apply suffix_nil|done].
Qed.

Lemma wp_rounds K fuel runID prompt st w :
  turn_ok st -> ready opts (t_mark st) (t_pending st) w -> tracked opts K (t_pending st) w ->
  wp (rounds E opts s fuel runID prompt st) (turn_over E opts K (t_msgs st) (t_origin st)) w.
Proof.
  revert st w. induction fuel as [|fuel IH]; intros st w Hok Hr Ht; cbn [rounds]; [apply wp_fuel|].
  apply wp_bind. eapply wp_mono; [by apply (wp_round (tick w))|]. intros [e|] w1 H1; [by apply wp_ret|].
  destruct H1 as (Hr1 & Ht1 & _). eapply wp_mono; [by apply IH|]. intros e w2 H2. by apply round_post_over.
Qed.

Lemma wp_turn K fuel prompt msgs origin w :
  ready opts None [] w -> tracked opts K msgs w -> Forall user_message msgs ->
  wp (turn E opts s fuel prompt msgs origin) (turn_over E opts K msgs origin) w.
Proof.
  intros Hr Ht Hms. unfold turn. apply wp_bind.
  eapply wp_quietly; [by apply (quietly_query E)|]. intros runID w1 H1 _.
  apply wp_bind. eapply (wp_quietly _ (fun _ => True)).
  { apply quietly_modify. intros w'. apply set_gen_quiet. }
  intros [] w2 H2 _. assert (H02 : quiet w w2) by (by transitivity w1).
  pose proof (ready_quiet _ _ _ _ _ Hr H02) as Hr2. pose proof (tracked_quiet _ _ _ _ _ Ht H02) as Ht2.
  apply wp_bind. eapply wp_mono; [by apply (wp_addPendings K msgs (mkTurn None [] msgs origin []))|].
  intros st w3 (Hr3 & Ht3 & Hp & Hm & Ho & Hst & _). cbn [t_pending t_msgs t_origin t_steered] in *.
  apply wp_bind. eapply wp_quietly; [apply quietly_emit|]. intros [] w4 H4 _.
  rewrite <- Hm, <- Ho. apply wp_rounds.
  - unfold turn_ok. by rewrite Hp, Hm, Hst, app_nil_r.
  - by eapply ready_quiet.
  - rewrite Hp. by eapply tracked_quiet.
Qed.

Lemma wp_nextQueued K w :
  tracked opts K [] w ->
  wp (nextQueued opts) (fun r w' => tracked opts K r.1 w' /\ Forall user_message r.1 /\
    conv w' = conv w /\ log w' = log w /\ (r.1 <> [] -> r.2 <> None) /\ (r.1 = [] -> queued w' = []) /\
    queued w ≡ₚ r.1 ++ queued w' /\ tick w' = tick w) w.
Proof.
  intros [a b c c' d]. pose proof c as [c1 c2]%Forall_app.
  assert (Hmain : forall msgs w', queued w ≡ₚ msgs ++ queued w' -> log w' = log w -> requests w' = requests w ->
    records w' = records w -> accepted w' = accepted w ->
    tracked opts K msgs w' /\ Forall user_message msgs).
  { intros msgs w' Hq Hl Hrq Hrc Ha. rewrite Hq in c. apply Forall_app in c as [c3 c4]. split; [|done].
    split; rewrite ?Hrq, ?Hrc; try done; [by rewrite Ha|]. intros Hst. rewrite Hl, Ha, <- (d Hst), Hq. by solve_Permutation. }
  unfold nextQueued, wp, Q.drain. destruct (Q.messages (steering w)) as [|m ms] eqn:Es.
  - match goal with |- context [Q.take ?n ?q] => destruct (Q.take n q) as [out q'] eqn:Et end.
    pose proof (fun H : out = [] => Q.take_nothing _ _ _ (eq_trans Et (f_equal (fun o => (o, q')) H))) as Hnone.
    apply Q.take_split in Et. cbn [followUps set_steering] in Et.
    assert (Hq : forall w', Q.messages (steering w') = [] -> followUps w' = q' -> queued w ≡ₚ out ++ queued w').
    { intros w' H1 H2. unfold queued. by rewrite Es, Et, H1, H2. }
    destruct out as [|m ms]; cbn [fst snd];
      (match goal with |- tracked _ _ ?msgs ?w' /\ _ =>
         destruct (Hmain msgs w' (Hq w' eq_refl eq_refl) eq_refl eq_refl eq_refl eq_refl) end);
      (do 5 (split; [done|])); (split; [try done|split; [by apply Hq|done]]).
  - cbn [fst snd]. set (w' := set_steering _ w).
    assert (Hq : queued w ≡ₚ (m :: ms) ++ queued w') by (unfold queued; by rewrite Es).
    destruct (Hmain (m :: ms) w' Hq eq_refl eq_refl eq_refl eq_refl).
    (do 6 (split; [done|])). split; [exact Hq|done].
Qed.

(** ** The run *)

(** A session a run may start from: a valid conversation, which the log
    stands for, and user messages in the queues. *)
Record startable (w : World) : Prop := {
  st_valid : well_formed (messages_of w);
  st_log : o_store opts = true -> replay (log w) = messages_of w;
  st_queued : Forall user_message (queued w);
  st_fresh : requests w = [] /\ records w = [] /\ accepted w = [];
}.

(** What [Run] delivers first. *)
Definition submitted (m : Message) : list Message := if Empty m then [] else [m].

(** A turn's end, and on success empty queues. *)
Definition run_over (K msgs : list Message) (e : option GoError) (w : World) : Prop :=
  turn_over E opts K msgs None e w /\ (e = None -> queued w = []).

Lemma turn_over_delivered_success K msgs origin w :
  turn_over E opts K msgs origin None w -> ready opts None [] w /\ tracked opts K [] w.
Proof.
  intros [a b (d & Ht & _ & Hd)]. rewrite Hd in Ht by (by left). split; [|done].
  split; cbn; rewrite ?app_nil_r; auto.
Qed.

Lemma wp_turns K fuel prompt msgs origin w :
  ready opts None [] w -> tracked opts K msgs w -> Forall user_message msgs ->
  wp (turns E opts s fuel prompt msgs origin) (fun e w' =>
    turn_over E opts K msgs origin e w' /\ (e = None -> queued w' = [])) w.
Proof.
  revert msgs origin w. induction fuel as [|fuel IH]; intros msgs origin w Hr Ht Hms; cbn [turns]; [apply wp_fuel|].
  apply wp_bind. eapply wp_mono; [by apply wp_turn|]. intros [e|] w1 H1; [by apply wp_ret|].
  apply turn_over_delivered_success in H1 as [Hr1 Ht1].
  apply wp_bind. eapply wp_mono; [by apply wp_nextQueued|].
  intros [next from] w2 (Ht2 & Hn & Hc & Hl & Horigin & Hempty & _). cbn [fst snd] in *.
  pose proof (ready_same _ _ _ _ Hr1 Hc Hl) as Hr2. destruct next as [|m next].
  - apply wp_ret. split; [by apply turn_over_delivered|auto].
  - eapply wp_mono; [by apply IH|]. intros e w3 [[a b (d & Hd1 & Hd2 & Hd3)] Hq]. split; [|done].
    split; [done|done|]. exists []. rewrite (Hd3 (or_intror (Horigin ltac:(done)))) in Hd1.
    split; [done|]. split; [apply suffix_nil|done].
Qed.

Lemma turn_over_same K msgs origin e w w' :
  turn_over E opts K msgs origin e w -> conv w' = conv w -> log w' = log w -> queued w' = queued w ->
  requests w' = requests w -> records w' = records w -> accepted w' = accepted w ->
  turn_over E opts K msgs origin e w'.
Proof.
  intros [a b (d & [t1 t2 t3 t3' t4] & Hd)] Hc Hl Hq Hrq Hrc Ha. unfold messages_of in *.
  split; unfold messages_of; rewrite ?Hc, ?Hl; auto. exists d. split; [|done].
  split; rewrite ?Hrq, ?Hrc, ?Hq, ?Hl, ?Ha; auto.
Qed.

(** The start of a run, as its invariants see it. *)
Lemma startable_tracked msgs w :
  startable w -> Forall user_message msgs ->
  ready opts None [] w /\ tracked opts (log_users (log w) ++ queued w ++ msgs) msgs w.
Proof.
  intros [a b c (d & e & f)] Hms. split; split; cbn; rewrite ?d, ?e, ?f, ?app_nil_r; auto.
Qed.

(** A run that cannot even read its context files changes nothing but what
    arrived meanwhile. *)
Lemma wp_Run fuel m w :
  startable w -> user_message m ->
  wp (Run E opts s fuel m)
    (run_over (log_users (log w) ++ queued w ++ submitted m) (submitted m)) w.
Proof.
  intros Hst Hm. assert (Hms : Forall user_message (submitted m)).
  { unfold submitted. destruct (Empty m); [constructor|by apply Forall_singleton]. }
  destruct (startable_tracked _ _ Hst Hms) as [Hr Ht].
  unfold Run. apply wp_bind. eapply wp_quietly; [apply quietly_prompt|]. intros [p|err] w1 H1 _.
  - pose proof (ready_quiet _ _ _ _ _ Hr H1) as Hr1. pose proof (tracked_quiet _ _ _ _ _ Ht H1) as Ht1.
    apply wp_bind, wp_modify, wp_bind. fold (submitted m).
    eapply wp_mono; [apply wp_turns|].
    + by eapply (ready_same None [] w1).
    + destruct Ht1 as [t1 t2 t3 t3' t4]. by split.
    + done.
    + intros e w2 [H2 Hq]. apply wp_bind, wp_modify, wp_ret. split; [by eapply turn_over_same|done].
  - apply wp_ret. split; [|done]. pose proof (ready_quiet _ _ _ _ _ Hr H1) as Hr1.
    pose proof (tracked_quiet _ _ _ _ _ Ht H1) as Ht1. split.
    + apply Hr1.
    + intros _. apply Hr1.
    + exists (submitted m). split; [done|]. split; [done|]. intros [?|?]; done.
Qed.
End run.
