(* ===== verification/Termination.v ===== *)
(** The loop answers. Everything but the loop over rounds and the loop over
    turns is total by itself; those two end when the endpoint stops asking
    for tools and nobody queues messages any more. *)
From S2P Require Import Prelude GoStr Float64 Provider Sampling Failure Tool Conversation Context Compaction.
From S2P Require Import Summary World Stream Outside ContextFile Agent AgentSpec AgentRun.
From stdpp Require Import options.

#[local] Set Default Proof Using "Type*".

(** No message is queued from the step [T] on. *)
Definition no_arrivals_from (E : Env) (T : nat) : Prop := forall t, (T <= t)%nat -> env_arrivals E t = [].

(** When nobody queues messages any more, the queues do not grow. *)
Definition calm (E : Env) (w w' : World) : Prop :=
  forall T, no_arrivals_from E T -> (T <= tick w)%nat -> (length (queued w') <= length (queued w))%nat.

(** [m] returns, from every world, after at least [k] steps; and with a
    result in [ok] it has not given messages back to the queues. *)
Definition live {A} (E : Env) (k : nat) (ok : A -> Prop) (m : M A) : Prop :=
  forall w, exists a w', m w = Some (a, w') /\ (tick w + k <= tick w')%nat /\ (ok a -> calm E w w').

Section rules.
  Context (E : Env) {A B : Type}.
  Implicit Types (m : M A) (ok : A -> Prop).

Lemma live_ret (a : A) ok : live E 0 ok (mret a).
Proof. intros w. exists a, w. split; [done|]. split; [lia|]. by intros _ T. Qed.

Lemma live_bind k1 k2 m (f : A -> M B) (ok : B -> Prop) :
  live E k1 (fun _ => True) m -> (forall a, live E k2 ok (f a)) -> live E (k1 + k2) ok (m ≫= f).
Proof.
  intros Hm Hf w. destruct (Hm w) as (a & w1 & H1 & Ht1 & Hc1). destruct (Hf a w1) as (b & w2 & H2 & Ht2 & Hc2).
  exists b, w2. unfold mbind, M_bind. rewrite H1. split; [done|]. split; [lia|].
  intros Hok T HT HTw. pose proof (Hc1 I T HT HTw). pose proof (Hc2 Hok T HT ltac:(lia)). lia.
Qed.

Lemma live_weaken k k' ok m : live E k ok m -> (k' <= k)%nat -> live E k' ok m.
Proof. intros H Hk w. destruct (H w) as (a & w' & H' & Ht & Hc). exists a, w'. split; [done|]. split; [lia|done]. Qed.

Lemma live_then m (f : A -> M B) (ok : B -> Prop) :
  live E 0 (fun _ => True) m -> (forall a, live E 0 ok (f a)) -> live E 0 ok (m ≫= f).
Proof. apply (live_bind 0 0). Qed.

Lemma live_gets (f : World -> A) ok : live E 0 ok (gets f).
Proof. intros w. exists (f w), w. split; [done|]. split; [lia|]. by intros _ T. Qed.

Lemma tick_arrivals l w : tick (foldl (fun w a => arrive a w) w l) = tick w.
Proof.
  revert w. induction l as [|[b m] l IH]; intros w; [done|]. cbn [foldl]. rewrite IH.
  unfold arrive, Steer, FollowUp. destruct b, (accepting w); done.
Qed.

Lemma live_query (f : nat -> A) ok : live E 1 ok (query E f).
Proof.
  intros w. eexists _, _. split; [reflexivity|]. split; [rewrite tick_arrivals; simpl; lia|].
  intros _ T HT HTw. by rewrite HT.
Qed.

Lemma live_query0 (f : nat -> A) ok : live E 0 ok (query E f).
Proof. eapply live_weaken; [apply live_query|lia]. Qed.
End rules.

Lemma live_modify E (f : World -> World) ok :
  (forall w, tick (f w) = tick w /\ (length (queued (f w)) <= length (queued w))%nat) -> live E 0 ok (modify f).
Proof.
  intros H w. destruct (H w) as [H1 H2]. exists tt, (f w). split; [done|]. split; [rewrite H1; lia|].
  by intros _ T.
Qed.

Create HintDb live.
#[export] Hint Resolve live_ret live_gets live_query0 : live.
#[export] Hint Extern 1 (live _ 0 _ (modify _)) => apply live_modify; intros; split; [reflexivity|reflexivity] : live.

(** Follow the binds, conditionals, and matches of a computation. *)
Ltac live :=
  repeat first
    [ solve [eauto with live]
    | progress cbn zeta
    | apply live_then; [|intros ?]
    | match goal with |- live _ 0 _ (match ?x with _ => _ end) => destruct x end ].

Section live.
  Context (E : Env) (opts : Options) (s : Session).

Lemma live_emit e ok : live E 0 ok (emit e).
Proof. unfold emit. live. Qed.
#[local] Hint Resolve live_emit : live.

Lemma live_ctx_err ok : live E 0 ok (ctx_err E).
Proof. apply live_query0. Qed.

Lemma live_now ok : live E 0 ok (now E).
Proof. apply live_query0. Qed.

Lemma live_newRunID ok : live E 0 ok (newRunID E).
Proof. apply live_query0. Qed.
#[local] Hint Resolve live_ctx_err live_now live_newRunID : live.

Lemma live_fail runID err ok : live E 0 ok (fail runID err).
Proof. unfold fail. live. Qed.

Lemma live_store m ok : live E 0 ok (store E opts m).
Proof. unfold store. live. Qed.
#[local] Hint Resolve live_fail live_store : live.

Lemma live_append m ok : live E 0 ok (append E opts m).
Proof. unfold append. live. Qed.
#[local] Hint Resolve live_append : live.

Lemma live_stream_event runID q p e ok : live E 0 ok (stream_event E opts runID q p e).
Proof. unfold stream_event, begin, emitProgress, elapsedSince. live. Qed.
#[local] Hint Resolve live_stream_event : live.

Lemma live_stream_events runID q p es ok : live E 0 ok (stream_events E opts runID q p es).
Proof. revert p. induction es as [|e es IH]; intros p; cbn [stream_events]; live. Qed.
#[local] Hint Resolve live_stream_events : live.

Lemma live_stream runID req q ok : live E 0 ok (stream E opts runID req q).
Proof. unfold stream, elapsedSince. live. Qed.
#[local] Hint Resolve live_stream : live.

Lemma live_retrying_from left backoff runID reset attempt ok :
  live E 0 (fun _ => True) attempt -> live E 0 ok (retrying_from E left backoff runID reset attempt).
Proof. intros Ha. revert backoff. induction left as [|left IH]; intros backoff; cbn [retrying_from]; live. Qed.

Lemma live_retrying runID reset attempt ok : live E 0 (fun _ => True) attempt -> live E 0 ok (retrying E opts runID reset attempt).
Proof. apply live_retrying_from. Qed.
#[local] Hint Resolve live_retrying : live.

Lemma live_ask efforts c budget pg ok : live E 0 ok (ask E opts efforts c budget pg).
Proof.
  revert c pg. induction efforts as [|e efforts IH]; intros c pg; cbn [ask]; live.
Qed.
#[local] Hint Resolve live_ask : live.

Lemma live_transcript_form base msgs r efforts budget pg ok : live E 0 ok (transcript_form E opts base msgs r efforts budget pg).
Proof. unfold transcript_form. live. Qed.
#[local] Hint Resolve live_transcript_form : live.

Lemma live_summary base msgs r ok : live E 0 ok (summary E opts base msgs r).
Proof. unfold summary. live. Qed.
#[local] Hint Resolve live_summary : live.

Lemma live_summarize base msgs plan instructions ok : live E 0 ok (summarize E opts base msgs plan instructions).
Proof. unfold summarize, summarize_history. live. Qed.
#[local] Hint Resolve live_summarize : live.

Lemma live_compact runID prompt stored reason instructions ok :
  live E 0 ok (compact E opts runID prompt stored reason instructions).
Proof. unfold compact. live. destruct (o_store opts); live. Qed.
#[local] Hint Resolve live_compact : live.

Lemma live_autoCompact runID prompt mark reason ok : live E 0 ok (autoCompact E opts runID prompt mark reason).
Proof. unfold autoCompact. live. Qed.
#[local] Hint Resolve live_autoCompact : live.

(** Each compaction of a call happens at most once, so its loop ends: the
    fuel it still needs follows from which of them are left. *)
Lemma live_call_loop fuel runID prompt (compacted recovered : bool) mark ok :
  (1 + (if compacted then 0 else 1) + (if recovered then 0 else 1) <= fuel)%nat ->
  live E 0 ok (call_loop E opts fuel runID prompt compacted recovered mark).
Proof.
  revert compacted recovered mark. induction fuel as [|fuel IH]; intros compacted recovered mark Hf;
    cbn [call_loop]; [destruct compacted, recovered; lia|].
  apply live_then; [live|]. intros msgs. cbn zeta.
  destruct (negb compacted && _) eqn:Ec.
  - assert (forall mark, live E 0 ok (call_loop E opts fuel runID prompt true recovered mark)).
    { intros. apply IH. destruct compacted; [done|]. destruct recovered; lia. }
    live.
  - destruct (fit _ _ _); [|live]. apply live_then; [live|]. intros resp.
    destruct (check_overflow _ _ resp); [live|]. apply live_then; [live|]. intros ce.
    destruct (_ || negb _) eqn:Ea; [live|].
    assert (forall mark, live E 0 ok (call_loop E opts fuel runID prompt true true mark)).
    { intros. apply IH. destruct recovered; [by rewrite andb_false_r in Ea|]. destruct compacted; lia. }
    live.
Qed.

Lemma live_call runID prompt mark ok : live E 0 ok (call E opts runID prompt mark).
Proof. apply live_call_loop. simpl. lia. Qed.
#[local] Hint Resolve live_call : live.

Lemma live_addPendings st ms ok : live E 0 ok (addPendings st ms).
Proof. revert st. induction ms as [|m ms IH]; intros st; cbn [addPendings]; unfold addPending; live. Qed.
#[local] Hint Resolve live_addPendings : live.

(** Giving messages back is how a round fails. *)
Definition delivered (r : option (option GoError)) : Prop := forall e, r <> Some (Some e).

Lemma live_take_back runID st n err :
  live E 0 delivered (_ ← restoreFrom st n; e ← fail runID err; mret (Some (Some e))).
Proof.
  intros w.
  assert (H : exists w', restoreFrom st n w = Some (tt, w') /\ tick w' = tick w).
  { unfold restoreFrom, mbind, M_bind, modify, mret, M_ret.
    destruct (t_mark st), (t_origin st) as [[]|];
      repeat match goal with |- context [if ?b then _ else _] => destruct b end; eexists; split; reflexivity. }
  destruct H as (w1 & H1 & H2). eexists (Some (Some _)), _. unfold mbind at 1, M_bind at 1. rewrite H1.
  split; [reflexivity|]. simpl. split; [lia|]. intros Hd. by specialize (Hd _ eq_refl).
Qed.
#[local] Hint Resolve live_take_back : live.

Lemma live_storePending i ms ok : live E 0 ok (storePending E opts i ms).
Proof. revert i. induction ms as [|m ms IH]; intros i; cbn [storePending]; live. Qed.
#[local] Hint Resolve live_storePending : live.

Lemma live_abandon runID calls cause joined ok : live E 0 ok (abandonToolCalls E opts runID calls cause joined).
Proof. revert joined. induction calls as [|c calls IH]; intros joined; cbn [abandonToolCalls]; live. Qed.
#[local] Hint Resolve live_abandon : live.

Lemma live_runTools runID calls ok : live E 0 ok (runTools E opts s runID calls).
Proof.
  induction calls as [|c calls IH]; cbn [runTools]; [live|]. unfold callTool, dispatch, appendTerminal. live.
Qed.
#[local] Hint Resolve live_runTools : live.

Lemma live_record runID c u ok : live E 0 ok (record E opts s runID c u).
Proof. unfold record. live. Qed.
#[local] Hint Resolve live_record : live.

Lemma live_deliver runID st resp sent : live E 0 delivered (deliver E opts s runID st resp sent).
Proof. unfold deliver, appendTerminal. live. Qed.
#[local] Hint Resolve live_deliver : live.

Lemma live_drainSteering ok : live E 0 ok drainSteering.
Proof.
  unfold drainSteering. apply live_then; [live|]. intros ms. apply live_then; [|live].
  apply live_modify. intros w. split; [done|]. unfold queued. cbn. rewrite !length_app. lia.
Qed.

(** A round looks at the context, so time passes. *)
Lemma live_round runID prompt st : live E 1 delivered (round E opts s runID prompt st).
Proof.
  unfold round. apply (live_bind E 0 1); [apply live_drainSteering|]. intros ms.
  apply (live_bind E 0 1); [live|]. intros st1. cbn zeta.
  apply (live_bind E 1 0); [apply live_query|]. intros c. live.
Qed.

Lemma live_prompt ok : live E 0 ok (prompt E opts).
Proof.
  assert (Hread : forall p ok, live E 0 ok (read E p)) by (intros; unfold read; live).
  assert (Hfirst : forall d ns ok, live E 0 ok (read_first E d ns)).
  { intros d ns ok'. induction ns; cbn [read_first]; live. }
  assert (Hdirs : forall g ds fs ok, live E 0 ok (read_dirs E g ds fs)).
  { intros g ds. induction ds; intros fs ok'; cbn [read_dirs]; unfold readDir; live. }
  unfold prompt. cbn zeta. unfold Discover. live.
Qed.
End live.

Lemma rounds_fuel E opts s n n' runID prompt st w r :
  (n <= n')%nat -> rounds E opts s n runID prompt st w = Some r -> rounds E opts s n' runID prompt st w = Some r.
Proof.
  revert n' st w. induction n as [|n IH]; intros n' st w Hn H; [done|]. destruct n' as [|n']; [lia|].
  cbn [rounds] in *. unfold mbind, M_bind in *. destruct (round _ _ _ _ _ _ _) as [[[x|] w1]|]; [done| |done].
  apply IH; [lia|done].
Qed.

Lemma turn_fuel E opts s n n' prompt msgs origin w r :
  (n <= n')%nat -> turn E opts s n prompt msgs origin w = Some r -> turn E opts s n' prompt msgs origin w = Some r.
Proof.
  intros Hn. unfold turn, mbind, M_bind.
  repeat (let x := fresh in match goal with |- context [match ?m with Some _ => _ | None => _ end] =>
    destruct m as [[? ?]|]; [|done] end).
  intros H. by eapply rounds_fuel.
Qed.

Section ends.
  Context (E : Env) `{!UserArrivals E} (opts : Options) (s : Session).
  Context (T : nat) (Hquiet : no_arrivals_from E T) (Htools : forall t0, (T <= t0)%nat -> ~ asked_for_tools E t0).

(** The rounds end once the endpoint stops asking for tools: each one takes
    time. *)
Lemma rounds_end K n runID prompt st w :
  turn_ok st -> ready opts (t_mark st) (t_pending st) w -> tracked opts K (t_pending st) w ->
  (T - tick w < n)%nat ->
  exists e w', rounds E opts s n runID prompt st w = Some (e, w') /\ (tick w < tick w')%nat /\
    (e = None -> calm E w w').
Proof.
  revert st w. induction n as [|n IH]; intros st w Hok Hr Ht Hn; [lia|].
  pose proof (wp_round E opts s (tick w) K runID prompt st w ltac:(done) Hok Hr Ht) as Hp.
  destruct (live_round E opts s runID prompt st w) as (r & w1 & H1 & Hk & Hc).
  cbn [rounds]. unfold wp, mbind, M_bind in *. rewrite H1 in *. destruct r as [e|].
  - exists e, w1. split; [done|]. split; [lia|]. intros ->. apply Hc. intros e He. done.
  - destruct Hp as (Hr1 & Ht1 & Hask).
    assert (Hlt : (tick w < T)%nat).
    { destruct (decide (tick w < T)%nat); [done|]. exfalso. eapply Htools; [|exact Hask]. lia. }
    destruct (IH (mkTurn None [] [] None []) w1) as (e & w2 & H2 & Hk2 & Hc2); try done; [lia|].
    exists e, w2. split; [done|]. split; [lia|]. intros He T' HT' HTw.
    pose proof (Hc ltac:(by intros ?) T' HT' HTw). pose proof (Hc2 He T' HT' ltac:(lia)). lia.
Qed.

Lemma turn_ends K n prompt msgs origin w :
  ready opts None [] w -> tracked opts K msgs w -> Forall user_message msgs -> (T < n)%nat ->
  exists e w', turn E opts s n prompt msgs origin w = Some (e, w') /\ (tick w < tick w')%nat /\
    (e = None -> calm E w w').
Proof.
  intros Hr Ht Hms Hn. unfold turn.
  destruct (live_newRunID E (fun _ => True) w) as (runID & w1 & H1 & Hk1 & Hc1).
  pose proof (quietly_query E (env_runid E) w) as Hq. unfold wp, newRunID, mbind, M_bind in *. rewrite H1 in *.
  destruct Hq as [Hq _]. set (w2 := set_gen zeroGeneration w1). cbn [modify].
  assert (H02 : quiet w w2) by (transitivity w1; [done|apply set_gen_quiet]).
  pose proof (ready_quiet _ _ _ _ _ Hr H02) as Hr2. pose proof (tracked_quiet _ _ _ _ _ Ht H02) as Ht2.
  pose proof (wp_addPendings opts K msgs (mkTurn None [] msgs origin []) msgs w2 Hr2 Ht2 Hms) as Hadd.
  destruct (live_addPendings E (mkTurn None [] msgs origin []) msgs (fun _ => True) w2) as (st & w3 & H3 & Hk3 & Hc3).
  unfold wp in Hadd. rewrite H3 in Hadd. destruct Hadd as (Hr3 & Ht3 & Hp & Hm & Ho & Hst & Htk). cbn [t_pending t_msgs t_steered] in *.
  unfold emit, modify. cbv beta iota. change (set_gen zeroGeneration w1) with w2. rewrite H3. cbv beta iota.
  match goal with |- context [rounds E opts s n runID prompt st ?x] => set (w4 := x) end.
  assert (H34 : quiet w3 w4) by apply set_events_quiet.
  destruct (rounds_end K n runID prompt st w4) as (e & w5 & H5 & Hk5 & Hc5).
  - unfold turn_ok. by rewrite Hp, Hm, Hst, app_nil_r.
  - by eapply ready_quiet.
  - rewrite Hp. by eapply tracked_quiet.
  - lia.
  - exists e, w5. split; [done|]. change (tick w4) with (tick w3) in *. change (tick w2) with (tick w1) in *.
    split; [lia|]. intros He T' HT' HTw. pose proof (Hc1 I T' HT' HTw). pose proof (Hc3 I T' HT' ltac:(cbn; lia)).
    pose proof (Hc5 He T' HT' ltac:(cbn; lia)). cbn in *. unfold queued in *. cbn in *. lia.
Qed.

(** One turn and the choice of what is next. *)
Lemma turns_step K n prompt msgs origin w :
  ready opts None [] w -> tracked opts K msgs w -> Forall user_message msgs -> (T < n)%nat ->
  (exists r, forall m, (n <= m)%nat -> turns E opts s (S m) prompt msgs origin w = Some r) \/
  exists next from w', (forall m, (n <= m)%nat ->
      turns E opts s (S m) prompt msgs origin w = turns E opts s m prompt next from w') /\
    ready opts None [] w' /\ tracked opts K next w' /\ Forall user_message next /\ (tick w < tick w')%nat /\
    ((T <= tick w)%nat -> (length (queued w') < length (queued w))%nat).
Proof.
  intros Hr Ht Hms Hn. destruct (turn_ends K n prompt msgs origin w Hr Ht Hms Hn) as (e & w1 & H1 & Hk1 & Hc1).
  assert (H1' : forall m, (n <= m)%nat -> turn E opts s (S m) prompt msgs origin w = Some (e, w1)).
  { intros m Hm. eapply turn_fuel; [|exact H1]. lia. }
  pose proof (wp_turn E opts s K n prompt msgs origin w Hr Ht Hms) as Hp. unfold wp in Hp. rewrite H1 in Hp.
  destruct e as [e|].
  { left. eexists. intros m Hm. cbn [turns]. unfold mbind, M_bind. rewrite (H1' m Hm). reflexivity. }
  destruct (turn_over_delivered_success E opts K msgs origin w1 Hp) as [Hr1 Ht1].
  pose proof (wp_nextQueued opts K w1 Ht1) as Hq. unfold wp in Hq.
  destruct (nextQueued opts w1) as [[[next from] w2]|] eqn:E2.
  2:{ exfalso. unfold nextQueued in E2. repeat case_match; done. }
  destruct Hq as (Ht2 & Hn2 & Hc2 & Hl2 & _ & _ & Hq2 & Hk2). cbn [fst] in *.
  destruct next as [|m0 next].
  { left. eexists. intros m Hm. cbn [turns]. unfold mbind, M_bind. rewrite (H1' m Hm), E2. reflexivity. }
  right. exists (m0 :: next), from, w2. split.
  { intros m Hm. cbn [turns]. unfold mbind, M_bind. rewrite (H1' m Hm), E2. reflexivity. }
  split; [by eapply ready_same|]. split; [done|]. split; [done|]. split; [lia|].
  intros HT. specialize (Hc1 eq_refl T Hquiet HT). apply Permutation_length in Hq2.
  rewrite length_app in Hq2. cbn in Hq2. lia.
Qed.

Lemma turns_end K prompt msgs origin w :
  ready opts None [] w -> tracked opts K msgs w -> Forall user_message msgs ->
  exists n, forall m, (n <= m)%nat -> exists r, turns E opts s m prompt msgs origin w = Some r.
Proof.
  remember (T - tick w)%nat as d eqn:Hd. remember (length (queued w)) as q eqn:Hq.
  revert q w msgs origin Hd Hq. induction d as [d IHd] using lt_wf_ind.
  induction q as [q IHq] using lt_wf_ind. intros w msgs origin -> -> Hr Ht Hms.
  destruct (turns_step K (S T) prompt msgs origin w Hr Ht Hms ltac:(lia)) as
    [[r Hstep]|(next & from & w' & Hstep & Hr' & Ht' & Hms' & Hk & Hq)].
  { exists (S (S T)). intros m Hm. destruct m as [|m]; [lia|]. exists r. apply Hstep. lia. }
  assert (Hrec : exists n, forall m, (n <= m)%nat -> exists r, turns E opts s m prompt next from w' = Some r).
  { destruct (decide (T <= tick w)%nat) as [HT|HT].
    - by eapply (IHq (length (queued w'))); [apply Hq|..|done|done|done]; lia.
    - by eapply (IHd (T - tick w')%nat); [lia|..|done|done|done]. }
  destruct Hrec as [n Hrec]. exists (S (Nat.max n (S T))). intros m Hm. destruct m as [|m]; [lia|].
  rewrite Hstep by lia. apply Hrec. lia.
Qed.
End ends.
