(* ===== verification/Scenario.v ===== *)
(** A concrete session: an endpoint that asks for a tool and then answers, a
    user who steers the run, and a store that keeps everything. The theorems
    about runs are applied to it, so that it shows their hypotheses can hold. *)
From S2P Require Import Prelude GoStr Float64 Provider Sampling Failure Tool Conversation Context Compaction.
From S2P Require Import Summary World Stream Outside ContextFile Agent AgentSpec AgentRun Termination.
From stdpp Require Import options.

Definition ex_call : ToolCall := mkToolCall "call-1" "search" "{}".

(** The endpoint: a tool call after a user's message, text after a tool
    result, and only text from the step 60 on. *)
Definition ex_stream (t : nat) (r : Request) : list StreamEvent + GoError :=
  let answer := [KindTextDelta "done"; KindUsage (mkUsage 10 5 15) zeroTimings; KindDone "stop"] in
  match last (RMessages r) with
  | Some m => if is_tool m || (60 <=? t)%nat then inl answer
              else inl [KindTextDelta "looking"; KindToolCall ex_call; KindDone "tool_calls"]
  | None => inl answer
  end.

(** One message steers the run while it waits for the endpoint, and one is
    to follow it. *)
Definition ex_arrivals (t : nat) : list (bool * Message) :=
  if (t =? 4)%nat then [(true, UserMessage "more")]
  else if (t =? 5)%nat then [(false, UserMessage "after")] else [].

Definition ex_env : Env := mkEnv (fun _ => None) ex_arrivals ex_stream
  (fun _ _ _ _ => inr (ErrText "no tool")) (fun _ _ => None) (fun _ _ => None) (fun _ _ => None)
  (fun t => Z.of_nat t * 1000000) (fun t => "run-" +:+ itoa (Z.of_nat t))
  (fun _ _ => inl None) (fun _ _ => inl EmptyString).

(** The same, with a context that is cancelled after the first reply. *)
Definition ex_cancelled : Env := mkEnv (fun t => if (8 <=? t)%nat then Some (ErrContext "context canceled") else None)
  ex_arrivals ex_stream
  (fun _ _ _ _ => inr (ErrText "no tool")) (fun _ _ => None) (fun _ _ => None) (fun _ _ => None)
  (fun t => Z.of_nat t * 1000000) (fun t => "run-" +:+ itoa (Z.of_nat t))
  (fun _ _ => inl None) (fun _ _ => inl EmptyString).

Definition ex_settings : CompactionSettings :=
  mkSettings false 0 0 (mkPrompts EmptyString EmptyString EmptyString) EmptyString.

Definition ex_opts : Options := New (mkOptions "model" 0 ex_settings zeroSampling EmptyString false false
  None true EmptyString EmptyString EmptyString 0 0 false true true None).

Definition ex_session : Session := mkSession "session" "workspace".

Definition ex_world : World := mkWorld 0 (Conv.New []) [] (Q.mkQueue []) (Q.mkQueue []) false
  zeroGeneration [] [] [] [] [].

#[export] Instance ex_arrivals_users t : UserArrivals (mkEnv (env_cancelled t) ex_arrivals (env_stream t)
  (env_tool t) (env_store t) (env_record t) (env_sleep t) (env_now t) (env_runid t) (env_stat t) (env_read t)).
Proof.
  intros n. cbn. unfold ex_arrivals. destruct (n =? 4)%nat; [by apply Forall_singleton|].
  destruct (n =? 5)%nat; [by apply Forall_singleton|constructor].
Qed.

#[export] Instance ex_env_users : UserArrivals ex_env.
Proof. apply (ex_arrivals_users ex_env). Qed.

#[export] Instance ex_cancelled_users : UserArrivals ex_cancelled.
Proof. apply (ex_arrivals_users ex_cancelled). Qed.

Lemma ex_startable : startable ex_opts ex_world.
Proof. split; [done|done|constructor|done]. Qed.

Lemma ex_user : user_message (UserMessage "hello").
Proof. done. Qed.

(** The run of the scenario: it succeeds after three turns' worth of rounds,
    and delivers every message in order. *)
Example ex_run_result :
  match Run ex_env ex_opts ex_session 9 (UserMessage "hello") ex_world with
  | Some (None, w) => map Content (log_users (log w)) = ["hello"; "more"; "after"]%string /\
      length (requests w) = 5%nat
  | _ => False
  end.
Proof. vm_compute. by split. Qed.

(** An endpoint that runs out of room after a tool call, in small pieces. *)
Definition ex_cut_parts : list StreamEvent :=
  [KindTextDelta "a"; KindToolCall ex_call; KindUsage (mkUsage 1 2 3) zeroTimings; KindTextDelta "b"].

Definition ex_cut : Env := mkEnv (fun _ => None) ex_arrivals
  (fun _ _ => inl (ex_cut_parts ++ [KindDone "length"]))
  (fun _ _ _ _ => inr (ErrText "no tool")) (fun _ _ => None) (fun _ _ => None) (fun _ _ => None)
  (fun t => Z.of_nat t * 1000000) (fun t => "run-" +:+ itoa (Z.of_nat t))
  (fun _ _ => inl None) (fun _ _ => inl EmptyString).

#[export] Instance ex_cut_users : UserArrivals ex_cut.
Proof. apply (ex_arrivals_users ex_cut). Qed.

Definition ex_request : Request := Context_Request (WithMessages (base ex_opts []) [UserMessage "x"]).

(** Endpoints that fail: one that is busy, and one whose window is too
    small. *)
Definition ex_failing_with (err : GoError) : Env := mkEnv (fun _ => None) ex_arrivals
  (fun _ _ => inl [KindTextDelta "a"; KindError err])
  (fun _ _ _ _ => inr (ErrText "no tool")) (fun _ _ => None) (fun _ _ => None) (fun _ _ => None)
  (fun t => Z.of_nat t * 1000000) (fun t => "run-" +:+ itoa (Z.of_nat t))
  (fun _ _ => inl None) (fun _ _ => inl EmptyString).

Definition ex_failing : Env := ex_failing_with (ErrProvider "chat" 503 true 0 (ErrText "busy")).
Definition ex_too_long : Env :=
  ex_failing_with (ErrProvider "chat" 400 true 0 (ErrText "maximum context length is 4096 tokens")).

(** An endpoint that summarizes, a conversation worth compacting, and options
    that keep next to nothing of it. *)
Definition ex_summarizer : Env := mkEnv (fun _ => None) ex_arrivals
  (fun _ _ => inl [KindTextDelta "a summary"; KindDone "stop"])
  (fun _ _ _ _ => inr (ErrText "no tool")) (fun _ _ => None) (fun _ _ => None) (fun _ _ => None)
  (fun t => Z.of_nat t * 1000000) (fun t => "run-" +:+ itoa (Z.of_nat t))
  (fun _ _ => inl None) (fun _ _ => inl EmptyString).

#[export] Instance ex_summarizer_users : UserArrivals ex_summarizer.
Proof. apply (ex_arrivals_users ex_summarizer). Qed.

Definition ex_compacting : Options := New (mkOptions "model" 0
  (mkSettings true 100 1 (mkPrompts EmptyString EmptyString EmptyString) EmptyString) zeroSampling EmptyString
  false false None true EmptyString EmptyString EmptyString 0 0 false true true None).

Definition ex_messages : list Message :=
  [UserMessage "first"; AssistantMessageWithReasoning "answer" EmptyString [];
   UserMessage "second"; UserMessage "undelivered"].

Definition ex_long : World := mkWorld 0 (Conv.New ex_messages) (map SMessage (take 3 ex_messages))
  (Q.mkQueue []) (Q.mkQueue []) true zeroGeneration [] [] [] [] [].
