(* ===== verification/RunClaims.v ===== *)
(** The properties of a run, for every environment, each with an instance on
    the scenario. *)
From S2P Require Import Prelude GoStr Float64 Provider Sampling Failure Tool Conversation Context Compaction.
From S2P Require Import Summary World Stream Outside ContextFile Agent AgentSpec AgentRun Termination.
From S2P Require Import Scenario.
From stdpp Require Import options.

(** Evaluate a run of the scenario and hand its result to the theorem. *)
Ltac ran H :=
  match goal with |- match ?r with Some _ => _ | None => _ end =>
    destruct r as [[? ?]|] eqn:H; [|vm_compute in H; discriminate H] end.

(** C3: However a run goes, every request it sends, those of the model calls
    and those that ask for summaries alike, is a conversation an endpoint
    accepts: each tool call is answered before anything else is said, and
    each tool result answers a call. *)
Theorem run_requests_well_formed E opts s fuel m w e w' :
  UserArrivals E -> startable opts w -> user_message m ->
  Run E opts s fuel m w = Some (e, w') ->
  Forall (fun r => well_formed (RMessages r)) (requests w').
Proof.
  intros HE Hs Hm Hrun. pose proof (wp_Run E opts s fuel m w Hs Hm) as H. unfold wp in H.
  rewrite Hrun in H. destruct H as [[_ _ (d & Ht & _)] _]. exact (tr_requests _ _ _ _ Ht).
Qed.

Lemma run_requests_well_formed_witness :
  match Run ex_cancelled ex_opts ex_session 9 (UserMessage "hello") ex_world with
  | Some (_, w') => Forall (fun r => well_formed (RMessages r)) (requests w')
  | None => False
  end.
Proof.
  ran H. exact (run_requests_well_formed _ _ _ _ _ _ _ _ ex_cancelled_users ex_startable ex_user H).
Defined.

(** C1: A run leaves a session that can be resumed: its conversation is valid
    after every run that succeeds, and after every run that fails, for
    whatever reason and at whatever point, as long as the store takes the
    results of tools. *)
Theorem run_leaves_session_resumable E opts s fuel m w e w' :
  UserArrivals E -> startable opts w -> user_message m ->
  e = None \/ tool_stores_safe E ->
  Run E opts s fuel m w = Some (e, w') ->
  well_formed (messages_of w').
Proof.
  intros HE Hs Hm Hsafe Hrun. pose proof (wp_Run E opts s fuel m w Hs Hm) as H. unfold wp in H.
  rewrite Hrun in H. destruct H as [[_ Hw _] _]. by apply Hw.
Qed.

Lemma run_leaves_session_resumable_witness :
  match Run ex_cancelled ex_opts ex_session 9 (UserMessage "hello") ex_world with
  | Some (_, w') => well_formed (messages_of w')
  | None => False
  end.
Proof.
  ran H. refine (run_leaves_session_resumable _ _ _ _ _ _ _ _ ex_cancelled_users ex_startable ex_user _ H).
  right. intros t m' _. reflexivity.
Defined.

(** C2: Messages are delivered exactly once. At the end of a run the user
    messages of the log and those still queued are, together, those of the
    start, the one the run was given, and those [Steer] and [FollowUp]
    accepted meanwhile: none is lost and none is there twice. Only the
    message a failed run was given may be missing; and a run that succeeds
    leaves nothing queued. *)
Theorem run_delivers_exactly_once E opts s fuel m w e w' :
  UserArrivals E -> startable opts w -> user_message m -> o_store opts = true ->
  Run E opts s fuel m w = Some (e, w') ->
  exists dropped,
    log_users (log w') ++ queued w' ++ dropped ≡ₚ
      (log_users (log w) ++ queued w ++ submitted m) ++ accepted w' /\
    dropped `suffix_of` submitted m /\ (e = None -> dropped = [] /\ queued w' = []).
Proof.
  intros HE Hs Hm Hst Hrun. pose proof (wp_Run E opts s fuel m w Hs Hm) as H. unfold wp in H.
  rewrite Hrun in H. destruct H as [[_ _ (d & Ht & Hd & Hn)] Hq]. exists d.
  split; [exact (tr_ledger _ _ _ _ Ht Hst)|]. split; [done|]. intros He. split; [apply Hn; by left|by apply Hq].
Qed.

Lemma run_delivers_exactly_once_witness :
  match Run ex_env ex_opts ex_session 9 (UserMessage "hello") ex_world with
  | Some (e, w') => exists dropped,
      log_users (log w') ++ queued w' ++ dropped ≡ₚ
        (log_users (log ex_world) ++ queued ex_world ++ submitted (UserMessage "hello")) ++ accepted w' /\
      dropped `suffix_of` submitted (UserMessage "hello") /\ (e = None -> dropped = [] /\ queued w' = [])
  | None => False
  end.
Proof.
  ran H. exact (run_delivers_exactly_once _ _ _ _ _ _ _ _ ex_env_users ex_startable ex_user eq_refl H).
Defined.

(** C4: The store and the conversation in memory agree. After every run,
    failed or not, replaying the stored messages and compactions gives the
    conversation the agent holds, so that loading the session again
    continues it. *)
Theorem run_log_replays_conversation E opts s fuel m w e w' :
  UserArrivals E -> startable opts w -> user_message m -> o_store opts = true ->
  Run E opts s fuel m w = Some (e, w') ->
  replay (log w') = messages_of w'.
Proof.
  intros HE Hs Hm Hst Hrun. pose proof (wp_Run E opts s fuel m w Hs Hm) as H. unfold wp in H.
  rewrite Hrun in H. destruct H as [[Hr _ _] _]. by apply Hr.
Qed.

Lemma run_log_replays_conversation_witness :
  match Run ex_cancelled ex_opts ex_session 9 (UserMessage "hello") ex_world with
  | Some (_, w') => replay (log w') = messages_of w'
  | None => False
  end.
Proof.
  ran H. exact (run_log_replays_conversation _ _ _ _ _ _ _ _ ex_cancelled_users ex_startable ex_user eq_refl H).
Defined.

(** What the recorder is promised: every call it is given is recorded at
    a moment when the log stands for exactly the messages that call sent. *)
Theorem run_records_stored_context E opts s fuel m w e w' :
  UserArrivals E -> startable opts w -> user_message m -> o_store opts = true ->
  Run E opts s fuel m w = Some (e, w') ->
  Forall (fun r => exists prompt,
    Messages (MC_Context r.1) = Messages (WithMessages (base opts prompt) (replay r.2))) (records w').
Proof.
  intros HE Hs Hm Hst Hrun. pose proof (wp_Run E opts s fuel m w Hs Hm) as H. unfold wp in H.
  rewrite Hrun in H. destruct H as [[_ _ (d & Ht & _)] _].
  eapply Forall_impl; [exact (tr_records _ _ _ _ Ht)|]. intros r Hr. by apply Hr.
Qed.

Lemma run_records_stored_context_witness :
  match Run ex_env ex_opts ex_session 9 (UserMessage "hello") ex_world with
  | Some (_, w') => Forall (fun r => exists prompt,
      Messages (MC_Context r.1) = Messages (WithMessages (base ex_opts prompt) (replay r.2))) (records w')
  | None => False
  end.
Proof.
  ran H. exact (run_records_stored_context _ _ _ _ _ _ _ _ ex_env_users ex_startable ex_user eq_refl H).
Defined.

(** C14: A run ends: when from some step on the endpoint asks for no more
    tools and nobody queues messages, some bound on the rounds and turns is
    never reached. *)
Theorem run_terminates E opts s T m w :
  UserArrivals E -> startable opts w -> user_message m ->
  (forall t, (T <= t)%nat -> env_arrivals E t = []) ->
  (forall t req es, (T <= t)%nat -> env_stream E t req = inl es -> omap call_of es = []) ->
  exists fuel0, forall fuel, (fuel0 <= fuel)%nat -> exists e w', Run E opts s fuel m w = Some (e, w').
Proof.
  intros HE Hs Hm Harr Hans.
  assert (Htools : forall t0, (T <= t0)%nat -> ~ asked_for_tools E t0).
  { intros t0 Ht0 (t & req & es & Ht & He & Hc). apply Hc. eapply Hans; [|exact He]. lia. }
  assert (Hms : Forall user_message (submitted m)).
  { unfold submitted. destruct (Empty m); [constructor|by apply Forall_singleton]. }
  destruct (startable_tracked _ _ _ Hs Hms) as [Hr Ht].
  destruct (live_prompt E opts (fun _ => True) w) as (p & w1 & H1 & _).
  pose proof (quietly_prompt E opts w) as Hq. unfold wp in Hq. rewrite H1 in Hq. destruct Hq as [Hq _].
  destruct p as [p|err].
  2:{ exists 0%nat. intros fuel _. unfold Run, mbind, M_bind. rewrite H1. eauto. }
  set (w2 := set_accepting true w1).
  assert (Hr2 : ready opts None [] w2) by (eapply ready_same; [exact Hr|apply Hq|apply Hq]).
  destruct (tracked_quiet _ _ _ _ _ Ht Hq) as [t1 t2 t3 t3' t4].
  destruct (turns_end E opts s T Harr Htools (log_users (log w) ++ queued w ++ submitted m) p (submitted m) None w2)
    as [n Hn]; [done|by split|done|].
  exists n. intros fuel Hf. destruct (Hn fuel Hf) as [[e w3] H3].
  unfold Run, mbind, M_bind. rewrite H1. cbn. fold (submitted m). fold w2. rewrite H3. eauto.
Qed.

Lemma run_terminates_witness :
  exists fuel0, forall fuel, (fuel0 <= fuel)%nat ->
  exists e w', Run ex_env ex_opts ex_session fuel (UserMessage "hello") ex_world = Some (e, w').
Proof.
  apply (run_terminates ex_env ex_opts ex_session 60 _ _ ex_env_users ex_startable ex_user).
  - intros t Ht. cbn. unfold ex_arrivals. destruct (Nat.eqb_spec t 4); [lia|]. destruct (Nat.eqb_spec t 5); [lia|done].
  - intros t req es Ht. cbn. unfold ex_stream. replace (60 <=? t)%nat with true by (symmetry; by apply Nat.leb_le).
    destruct (last _); [rewrite orb_true_r|]; intros He; by injection He as <-.
Defined.
