(* ===== verification/CallClaims.v ===== *)
(** The properties of one model call: what a response stream comes to, how a
    failure is retried, and how compactions bound a call. *)
From S2P Require Import Prelude GoStr Float64 Provider Sampling Failure Tool Conversation Context Compaction.
From S2P Require Import Summary World Stream Outside ContextFile Agent AgentSpec AgentRun Termination.
From S2P Require Import Scenario RunClaims.
From stdpp Require Import options.

#[local] Set Default Proof Using "Type*".

(** ** Reading a stream *)

(** A model response is assembled from its stream: the text and the
    reasoning are the deltas in order, the calls are the completed ones in
    order, and none when the response was cut off, since a call that ran out
    of room must not run; the usage is the last one reported. It does not
    matter how long the events take, what is emitted meanwhile, or what is
    queued: only the request is added to what was sent. *)
Theorem stream_reads_response E opts runID req quiet_ es stop w r w' :
  UserArrivals E -> well_formed (RMessages req) ->
  (forall t, env_stream E t req = inl (es ++ [KindDone stop])) ->
  Forall (fun e => is_part e = true) es -> stop <> EmptyString ->
  Stream.stream E opts runID req quiet_ w = Some (r, w') ->
  r = inl (mkResponse
        (AssistantMessageWithReasoning (concat_strings (map text_of es)) (concat_strings (map reasoning_of es))
           (if cutOff stop then [] else omap call_of es))
        stop (List.last (omap usage_of es) zeroUsage)) /\
  conv w' = conv w /\ log w' = log w.
Proof.
  intros HE Hreq Hans Hes Hs Hrun.
  pose proof (quietly_from_stream E opts 0 runID req quiet_ Hreq w ltac:(lia)) as H. unfold wp in H.
  rewrite Hrun in H. destruct H as [Hq (t & _ & ->)]. rewrite Hans, response_of_parts by done.
  split; [done|]. split; apply Hq.
Qed.

Lemma stream_reads_response_witness :
  match Stream.stream ex_cut ex_opts "run" ex_request false ex_world with
  | Some (r, w') =>
      r = inl (mkResponse (AssistantMessageWithReasoning "ab" EmptyString []) "length" (mkUsage 1 2 3)) /\
      conv w' = conv ex_world /\ log w' = log ex_world
  | None => False
  end.
Proof.
  ran H. exact (stream_reads_response ex_cut ex_opts "run" ex_request false ex_cut_parts "length" _ _ _
    ex_cut_users eq_refl (fun _ => eq_refl) ltac:(repeat constructor) ltac:(discriminate) H).
Defined.

(** ** Retrying *)

(** What an attempt may do to the retries: it sends at most one request and
    waits for nothing. *)
Definition one_attempt {A} (m : M A) : Prop := forall w, wp m (fun _ w' =>
  waits w' = waits w /\ (length (requests w') <= S (length (requests w)))%nat) w.

(** Neither a request nor a wait. *)
Definition idle {A} (m : M A) : Prop := forall w, wp m (fun _ w' =>
  waits w' = waits w /\ requests w' = requests w) w.

Lemma idle_ret {A} (a : A) : idle (mret a).
Proof. intros w. by apply wp_ret. Qed.

Lemma idle_bind {A B} (m : M A) (k : A -> M B) : idle m -> (forall a, idle (k a)) -> idle (m ≫= k).
Proof.
  intros Hm Hk w. apply wp_bind. eapply wp_mono; [apply Hm|]. intros a w1 [H1 H2].
  eapply wp_mono; [apply Hk|]. intros b w2 [H3 H4]. split; congruence.
Qed.

Lemma idle_gets {A} (f : World -> A) : idle (gets f).
Proof. intros w. by apply wp_gets. Qed.

Lemma idle_modify f : (forall w, waits (f w) = waits w /\ requests (f w) = requests w) -> idle (modify f).
Proof. intros H w. apply wp_modify, H. Qed.

Lemma idle_query {A} E (f : nat -> A) : idle (query E f).
Proof.
  intros w. unfold wp, query.
  assert (H : forall l w, waits (foldl (fun w a => arrive a w) w l) = waits w /\
    requests (foldl (fun w a => arrive a w) w l) = requests w).
  { induction l as [|[b m] l IH]; intros w'; [done|]. cbn [foldl]. destruct (IH (arrive (b, m) w')) as [-> ->].
    unfold arrive, Steer, FollowUp. destruct b, (accepting w'); done. }
  apply (H _ (set_tick (S (tick w)) w)).
Qed.

Create HintDb idle.
#[export] Hint Resolve idle_ret idle_gets idle_query : idle.
#[export] Hint Extern 1 (idle (modify _)) => apply idle_modify; intros; split; reflexivity : idle.

Ltac idle :=
  repeat first
    [ solve [eauto with idle]
    | progress cbn zeta
    | apply idle_bind; [|intros ?]
    | match goal with |- idle (match ?x with _ => _ end) => destruct x end ].

Lemma idle_emit e : idle (emit e).
Proof. unfold emit. idle. Qed.
#[export] Hint Resolve idle_emit : idle.

Lemma idle_stream_events E opts runID q p es : idle (stream_events E opts runID q p es).
Proof.
  revert p. induction es as [|e es IH]; intros p; cbn [stream_events]; [idle|].
  unfold stream_event, begin, emitProgress, elapsedSince, now. idle.
Qed.
#[export] Hint Resolve idle_stream_events : idle.

Lemma stream_one_attempt E opts runID req q : one_attempt (Stream.stream E opts runID req q).
Proof.
  intros w. unfold Stream.stream. apply wp_bind, wp_modify.
  match goal with |- wp ?m _ _ => assert (Hm : idle m) by (unfold elapsedSince, now; idle) end.
  eapply wp_mono; [apply Hm|]. intros r w' [-> ->]. split; [done|]. cbn. rewrite length_app. cbn. lia.
Qed.

(** What retrying does, as far as its budget goes. *)
Record retried (left : nat) (lo hi : Z) (r : response + GoError) (w w' : World) : Prop := {
  re_waits : exists ws, waits w' = waits w ++ ws /\ (length ws <= left)%nat /\
    Forall (fun x => lo <= x <= hi) ws /\ (length (requests w') <= S (length (requests w) + length ws))%nat;
}.

Lemma retry_wait_bounds backoff err lo :
  lo <= backoff -> lo <= maxRetryBackoff -> lo <= retry_wait backoff err <= maxRetryBackoff.
Proof. unfold retry_wait. intros H1 H2. destruct (Z.ltb_spec (Z.min backoff maxRetryBackoff) (RetryAfter err)); lia. Qed.

Lemma wp_retrying_from E left backoff runID reset attempt lo w :
  one_attempt attempt -> 0 < lo <= backoff -> lo <= maxRetryBackoff -> backoff * 2 ^ Z.of_nat left < 2 ^ 63 ->
  wp (retrying_from E left backoff runID reset attempt) (fun r w' => retried left lo maxRetryBackoff r w w') w.
Proof.
  intros Ha. revert backoff w. induction left as [|left IH]; intros backoff w Hb Hlo Hov; cbn [retrying_from];
    (apply wp_bind; eapply wp_mono; [apply Ha|]; intros r w1 [H1 H2]);
    (assert (Hend : forall r w', waits w' = waits w1 -> requests w' = requests w1 ->
       forall left, retried left lo maxRetryBackoff r w w');
       [intros r' w' H3 H4 left'; split; exists []; rewrite H3, H1, H4, app_nil_r; cbn;
        (split; [done|]); (split; [lia|]); (split; [constructor|lia])|]);
    (destruct r as [r|err]; [apply wp_ret; by apply Hend|]);
    (apply wp_bind; eapply wp_mono; [apply idle_query|]; intros c w2 [H3 H4]);
    (destruct c; [apply wp_ret; by apply Hend|]); (destruct (_ || _); [apply wp_ret; by apply Hend|]).
  { apply wp_ret. by apply Hend. }
  assert (Hreset : idle (if reset then emit (MessageReset runID) else mret tt)) by idle.
  apply wp_bind. eapply wp_mono; [apply Hreset|]. intros [] w3 [H5 H6]. cbn zeta.
  apply wp_bind, wp_modify, wp_bind. eapply wp_mono; [apply idle_query|]. intros e w4 [H7 H8].
  cbn in H7, H8.
  pose proof (retry_wait_bounds backoff err lo ltac:(lia) Hlo) as Hwait.
  destruct e as [e|].
  - apply wp_ret. split. exists [retry_wait backoff err]. rewrite H7, H5, H3, H1, H8, H6, H4. cbn.
    split; [done|]. split; [lia|]. split; [by apply Forall_singleton|lia].
  - rewrite Nat2Z.inj_succ, Z.pow_succ_r in Hov by lia.
    assert (2 ^ 0 <= 2 ^ Z.of_nat left) by (apply Z.pow_le_mono_r; lia).
    assert (Hb2 : wrap64 (backoff * 2) = backoff * 2) by (apply wrap64_small; nia).
    eapply wp_mono; [apply IH; rewrite ?Hb2; try lia; nia|]. intros r w5 [(ws & H9 & H10 & H11 & H12)]. split.
    exists (retry_wait backoff err :: ws). rewrite H9, H7, H5, H3, H1. rewrite H8, H6, H4 in H12.
    cbn [length]. split; [by rewrite <- app_assoc|]. split; [lia|]. split; [by constructor|lia].
Qed.

(** Retrying stays within its budget: a call makes at most one attempt
    more than [MaxRetries], and waits before each retry, never longer than
    the maximum and never shorter than the first backoff, or the maximum when
    that is smaller. The doubling stays inside 64 bits, as the defaults' does
    by far. *)
Theorem retrying_budget E opts runID reset req quiet_ w r w' :
  0 < o_RetryBackoff opts -> o_RetryBackoff opts * 2 ^ Z.of_nat (Z.to_nat (o_MaxRetries opts)) < 2 ^ 63 ->
  retrying E opts runID reset (Stream.stream E opts runID req quiet_) w = Some (r, w') ->
  exists ws, waits w' = waits w ++ ws /\ (length ws <= Z.to_nat (o_MaxRetries opts))%nat /\
    Forall (fun x => Z.min (o_RetryBackoff opts) maxRetryBackoff <= x <= maxRetryBackoff) ws /\
    (length (requests w') <= S (length (requests w) + length ws))%nat.
Proof.
  intros Hb Hov Hrun.
  assert (Hmax : 0 < maxRetryBackoff) by done.
  pose proof (wp_retrying_from E (Z.to_nat (o_MaxRetries opts)) (o_RetryBackoff opts) runID reset
    (Stream.stream E opts runID req quiet_) (Z.min (o_RetryBackoff opts) maxRetryBackoff) w
    (stream_one_attempt E opts runID req quiet_) ltac:(lia) ltac:(lia) Hov) as H.
  unfold wp in H. unfold retrying in Hrun. rewrite Hrun in H. by destruct H.
Qed.

Lemma retrying_budget_witness :
  match retrying ex_failing ex_opts "run" true (Stream.stream ex_failing ex_opts "run" ex_request false) ex_world with
  | Some (_, w') => exists ws, waits w' = ws /\ (length ws <= 3)%nat /\
      Forall (fun x => 500000000 <= x <= maxRetryBackoff) ws /\ (length (requests w') <= S (length ws))%nat
  | None => False
  end.
Proof.
  ran H. exact (retrying_budget ex_failing ex_opts "run" true ex_request false ex_world _ _
    (eq_refl : 0 < o_RetryBackoff ex_opts) ltac:(vm_compute; reflexivity) H).
Defined.

(** A failure that a retry cannot help is not retried: one that is not
    retryable, and one that says the request does not fit the window, ends
    the call after the one attempt and without a wait. *)
Theorem retrying_refuses E opts runID reset req quiet_ w err w1 :
  Stream.stream E opts runID req quiet_ w = Some (inr err, w1) ->
  Retryable err = false \/ ContextOverflow err = true ->
  exists r w', retrying E opts runID reset (Stream.stream E opts runID req quiet_) w = Some (r, w') /\
    waits w' = waits w /\ (length (requests w') <= S (length (requests w)))%nat /\
    (r = inr err \/ exists e, r = inr (ErrWrap "call model" e)).
Proof.
  intros Hatt Herr.
  pose proof (stream_one_attempt E opts runID req quiet_ w) as H1. unfold wp in H1. rewrite Hatt in H1.
  destruct H1 as [H1 H2].
  destruct (live_ctx_err E (fun _ => True) w1) as (c & w2 & H3 & _).
  pose proof (idle_query E (env_cancelled E) w1) as H4. unfold wp in H4. unfold ctx_err in H3. rewrite H3 in H4.
  destruct H4 as [H4 H5].
  assert (Hstop : negb (Retryable err) || ContextOverflow err = true).
  { destruct Herr as [-> | ->]; [done|by rewrite orb_true_r]. }
  exists (match c with Some e => inr (ErrWrap "call model" e) | None => inr err end), w2.
  rewrite H4, H5. split; [|split; [done|]; split; [done|]; destruct c; eauto].
  unfold retrying. destruct (Z.to_nat (o_MaxRetries opts)); cbn [retrying_from]; unfold mbind at 1, M_bind at 1;
    rewrite Hatt; unfold ctx_err, mbind at 1, M_bind at 1; rewrite H3; destruct c; try done; by rewrite Hstop.
Qed.

Lemma retrying_refuses_witness :
  match Stream.stream ex_too_long ex_opts "run" ex_request false ex_world with
  | Some (inr err, w1) => exists r w',
      retrying ex_too_long ex_opts "run" true (Stream.stream ex_too_long ex_opts "run" ex_request false) ex_world
        = Some (r, w') /\
      waits w' = waits ex_world /\ (length (requests w') <= S (length (requests ex_world)))%nat /\
      (r = inr err \/ exists e, r = inr (ErrWrap "call model" e))
  | _ => False
  end.
Proof.
  destruct (Stream.stream ex_too_long ex_opts "run" ex_request false ex_world) as [[[r|err] w1]|] eqn:H;
    [vm_compute in H; discriminate H| |vm_compute in H; discriminate H].
  apply (retrying_refuses ex_too_long ex_opts "run" true ex_request false ex_world err w1 H).
  right. vm_compute in H. injection H as <- _. vm_compute. reflexivity.
Defined.

(** ** Compaction *)

(** C7: A compaction is all or nothing. When it fails, for want of anything
    to compact, of a summary, or of the store, the conversation and the log
    are as they were. When it succeeds, the stored part of the conversation
    is replaced, in memory as in the log, by the summary and the messages it
    keeps; the undelivered messages after it stand as they were, where the
    new count says they begin; and what is sent next is valid. *)
Theorem compact_all_or_nothing E opts runID prompt stored reason instructions w n err w' :
  UserArrivals E -> (stored <= length (messages_of w))%nat -> well_formed (take stored (messages_of w)) ->
  compact E opts runID prompt stored reason instructions w = Some ((n, err), w') ->
  match err with
  | Some _ => n = stored /\ conv w' = conv w /\ log w' = log w
  | None => exists c,
      take n (messages_of w') = Compacted (take stored (messages_of w)) c /\
      drop n (messages_of w') = drop stored (messages_of w) /\
      log w' = log w ++ (if o_store opts then [SCompaction c] else []) /\
      well_formed (take n (messages_of w')) /\ (n <= stored)%nat
  end.
Proof.
  intros HE Hl Hw Hrun. pose proof (wp_compact E opts runID prompt stored reason instructions w Hl Hw) as H.
  unfold wp in H. rewrite Hrun in H. cbn [fst snd] in H. destruct err as [e|].
  - destruct H as [-> [_ Hc Hlog]]. done.
  - destruct H as [_ (c & Hm & Hlog & Hn & Hwf & Hle)]. exists c.
    rewrite Hm, Hn, take_app_length, drop_app_length. rewrite <- Hn. done.
Qed.

Lemma compact_all_or_nothing_witness :
  match compact ex_summarizer ex_compacting "run" [] 3 CompactManual EmptyString ex_long with
  | Some ((n, None), w') => exists c,
      take n (messages_of w') = Compacted (take 3 (messages_of ex_long)) c /\
      drop n (messages_of w') = drop 3 (messages_of ex_long) /\
      log w' = log ex_long ++ [SCompaction c] /\
      well_formed (take n (messages_of w')) /\ (n <= 3)%nat
  | _ => False
  end.
Proof.
  destruct (compact ex_summarizer ex_compacting "run" [] 3 CompactManual EmptyString ex_long)
    as [[[n [e|]] w']|] eqn:H; [vm_compute in H; discriminate H| |vm_compute in H; discriminate H].
  exact (compact_all_or_nothing ex_summarizer ex_compacting "run" [] 3 CompactManual EmptyString ex_long n None w'
    ex_summarizer_users ltac:(cbn; lia) eq_refl H).
Defined.

(** The compactions in a log. *)
Definition compactions (l : list StoreItem) : nat :=
  length (List.filter (fun i => match i with SCompaction _ => true | SMessage _ => false end) l).

Lemma compactions_step opts stored n w w' :
  compaction_step opts stored n w w' -> (compactions (log w') <= S (compactions (log w)))%nat.
Proof.
  intros [_ (c & _ & Hl & _)]. unfold compactions. rewrite Hl, List.filter_app, length_app.
  destruct (o_store opts); cbn; lia.
Qed.

Section compactions.
  Context (E : Env) `{!UserArrivals E} (opts : Options).

Lemma wp_autoCompact_compactions runID prompt mark pending reason w :
  ready opts mark pending w ->
  wp (autoCompact E opts runID prompt mark reason) (fun r w' =>
    settled opts pending r.2 w w' /\ (compactions (log w') <= S (compactions (log w)))%nat) w.
Proof.
  intros Hr. apply wp_and; [by apply wp_autoCompact|].
  unfold autoCompact. apply wp_bind, wp_gets. fold (messages_of w). cbn zeta.
  apply wp_bind. eapply wp_mono; [apply (wp_compact E opts)|].
  - apply Hr.
  - pose proof (rd_wf _ _ _ _ Hr) as Hw. destruct mark as [k|]; cbn in *; [done|]. by rewrite firstn_all.
  - intros [n [e|]] w' H; cbn in H; apply wp_ret.
    + destruct H as [_ [_ _ ->]]. lia.
    + by eapply compactions_step.
Qed.

Lemma wp_call_compactions fuel runID prompt (compacted recovered : bool) mark pending w :
  ready opts mark pending w ->
  wp (call_loop E opts fuel runID prompt compacted recovered mark) (fun _ w' =>
    (compactions (log w') <= compactions (log w) + (if compacted then 0 else 1) + (if recovered then 0 else 1))%nat) w.
Proof.
  revert compacted recovered mark w.
  induction fuel as [|fuel IH]; intros compacted recovered mark w Hr; cbn [call_loop]; [apply wp_fuel|].
  apply wp_bind, wp_gets. fold (messages_of w). cbn zeta. destruct (negb compacted && _) eqn:Ec.
  - destruct compacted; [done|]. apply wp_bind. eapply wp_mono; [by apply wp_autoCompact_compactions|].
    intros [err mark'] w1 [H1 Hn1]. cbn [snd] in H1.
    apply wp_bind. eapply (wp_quietly _ (fun _ => True)).
    { destruct err; [by apply (quietly_query E)|by apply quietly_ret]. }
    intros c w2 H2 _. rewrite <- (q_log _ _ H2) in Hn1.
    destruct c as [e|]; [apply wp_ret; lia|]. eapply wp_mono; [eapply IH, ready_quiet; [apply H1|exact H2]|].
    intros r w3 H3. cbn in H3. lia.
  - destruct (fit _ _ _) as [sent|err] eqn:Ef; [|apply wp_ret; lia]. apply fit_messages in Ef.
    apply wp_bind. eapply wp_mono.
    { apply (quietly_retrying E opts 0 runID true); [|lia]. apply (quietly_stream E). unfold request_ok.
      cbn [RMessages Context_Request]. rewrite Ef.
      by apply WithMessages_well_formed, (ready_well_formed opts mark pending). }
    intros r w1 [H1 _]. pose proof (q_log _ _ H1) as Hl1.
    destruct (check_overflow opts _ r) as [resp|err]; [apply wp_ret; rewrite Hl1; lia|].
    apply wp_bind. eapply (wp_quietly _ (fun _ => True)).
    { destruct (Auto _ && _); [by apply (quietly_query E)|by apply quietly_ret]. }
    intros c w2 H2 _. destruct (_ || negb _) eqn:Ea; [apply wp_ret; rewrite (q_log _ _ H2), Hl1; lia|].
    destruct recovered; [by rewrite andb_false_r in Ea|].
    apply wp_bind. eapply wp_quietly; [apply quietly_emit|]. intros [] w3 H3 _.
    assert (H03 : quiet w w3) by (transitivity w1; [done|by transitivity w2]).
    apply wp_bind. eapply wp_mono; [apply wp_autoCompact_compactions; by eapply ready_quiet|].
    intros [ce mark'] w4 [H4 Hn4]. cbn [snd] in H4. rewrite (q_log _ _ H03) in Hn4.
    destruct ce as [ce|]; [apply wp_ret; lia|]. eapply wp_mono; [apply IH, H4|].
    intros r' w5 H5. cbn in H5. lia.
Qed.
End compactions.

(** A model call always returns, after at most two compactions: one
    because the window is nearly full, and one because the endpoint refused
    the request. *)
Theorem call_returns E opts runID prompt mark pending w :
  UserArrivals E -> ready opts mark pending w ->
  exists r w', call E opts runID prompt mark w = Some (r, w') /\
    (compactions (log w') <= compactions (log w) + 2)%nat.
Proof.
  intros HE Hr. destruct (live_call E opts runID prompt mark (fun _ => True) w) as (r & w' & H & _).
  exists r, w'. split; [done|].
  pose proof (wp_call_compactions E opts 4 runID prompt false false mark pending w Hr) as Hc.
  unfold wp in Hc. unfold call in H. rewrite H in Hc. lia.
Qed.

Lemma call_returns_witness :
  exists r w', call ex_summarizer ex_compacting "run" [] (Some 3%nat) ex_long = Some (r, w') /\
    (compactions (log w') <= compactions (log ex_long) + 2)%nat.
Proof.
  apply (call_returns ex_summarizer ex_compacting "run" [] (Some 3%nat) [UserMessage "undelivered"] ex_long
    ex_summarizer_users).
  split; [vm_compute; reflexivity|cbn; lia|reflexivity|repeat constructor|intros _; vm_compute; reflexivity].
Defined.
