(* ===== verification/CompactionClaims.v ===== *)
(** The properties of compaction: where a conversation is cut, what a cut
    keeps, when there is nothing to cut, and how the window bounds a request. *)
From S2P Require Import Prelude GoStr Float64 Json Provider Sampling Failure Conversation Context Compaction.
From stdpp Require Import options.

(** A conversation of two exchanges, of which the second used a tool, with
    the sizes of its messages. *)
Definition plan_msgs : list Message :=
  let call := mkToolCall "call-1" "search" "{}" in
  [UserMessage "first"; AssistantMessage "answer" []; UserMessage "second";
   AssistantMessage "looking" [call]; ToolResultMessage "call-1" "found" false; AssistantMessage "done" []].
Definition plan_sizes : list Z := [40; 40; 40; 40; 40; 40].
Definition plan_found : compactionPlan := (planCompaction plan_msgs plan_sizes 6 100).1.
Definition plan_compaction : Compaction := mkCompaction "summary" 3 240 150 "manual" zeroUsage.

(** A compaction keeps the conversation valid: when a plan is found for the
    stored part of a well-formed conversation, cutting there and putting the
    summary in front leaves a well-formed conversation, which is never longer
    and drops at least one message for its summary. *)
Theorem planCompaction_well_formed msgs sizes stored keep p c :
  (stored <= length msgs)%nat -> well_formed (take stored msgs) ->
  planCompaction msgs sizes stored keep = (p, true) ->
  Kept c = Z.of_nat (stored - p_first p) ->
  well_formed (Compacted (take stored msgs) c) /\
  (length (Compacted (take stored msgs) c) <= stored)%nat.
Proof.
  intros Hl Hw Hp Hk. apply planCompaction_sound in Hp as [_ _ Hs Hf Hc _ _].
  assert (Hlen : length (take stored msgs) = stored) by (rewrite length_take; lia).
  rewrite (Compacted_kept _ _ (p_first p)) by (rewrite ?Hlen; (exact Hk || lia)).
  rewrite length_cons, length_map, length_drop, Hlen. split; [|lia].
  rewrite <- (Compacted_kept (take stored msgs) c (p_first p)) by (rewrite ?Hlen; (exact Hk || lia)).
  apply (Compacted_well_formed _ _ (p_first p)); rewrite ?Hlen; try done; try lia.
  intros H. by rewrite msg_at_take.
Qed.

Lemma planCompaction_well_formed_witness :
  well_formed (Compacted plan_msgs plan_compaction) /\ (length (Compacted plan_msgs plan_compaction) <= 6)%nat.
Proof.
  apply (planCompaction_well_formed plan_msgs plan_sizes 6 100 plan_found plan_compaction);
    [simpl; lia|reflexivity|reflexivity|reflexivity].
Defined.

(** The halves of the budget: [keeps_enough] says that cutting earlier would
    keep at least [keep] tokens, [keeps_little] that cutting where the plan
    does keeps no more than it has to. *)
#[local] Set Default Proof Using "Type*".

Section budget.
Context (msgs : list Message) (sizes : list Z) (start stored : nat) (keep : Z).
Hypothesis Hsizes : Forall (fun x => 0 <= x) sizes.
Abbreviation cuts := (cut_places msgs start stored).

Definition keeps_enough (first : nat) : Prop :=
  forall i, (start <= i < first)%nat -> is_tool (msg_at msgs i) = false -> keep <= span sizes i stored.

Definition keeps_little (first : nat) : Prop :=
  span sizes first stored < keep + size_at sizes first \/
  forall j, (first < j < stored)%nat -> is_tool (msg_at msgs j) = true.

Lemma size_at_nonneg i : 0 <= size_at sizes i.
Proof.
  unfold size_at. rewrite nth_lookup. destruct (sizes !! i) as [x|] eqn:E; [|simpl; lia].
  by eapply Forall_lookup_1 in E; [|exact Hsizes].
Qed.

Lemma cut_place i : (start <= i < stored)%nat -> is_tool (msg_at msgs i) = false -> i ∈ cuts.
Proof. intros Hi Ht. by apply elem_of_cut_places. Qed.

(** The tokens run out among tool results: the plan cuts at the newest place. *)
Lemma cut_at_newest i c0 first :
  (start <= i < stored)%nat -> keep <= span sizes i stored -> (start <= first < stored)%nat ->
  base.filter (fun c => i <= c)%nat cuts = [] -> first = List.last cuts c0 ->
  keeps_enough first /\ keeps_little first.
Proof.
  intros Hi Hge Hf Ef ->. pose proof (cut_places_sorted msgs start stored) as Hsorted.
  assert (Hnone : forall d, d ∈ cuts -> (d < i)%nat).
  { intros d Hd. destruct (decide (i <= d)%nat) as [Hle|]; [|lia]. exfalso.
    assert (Hin : d ∈ base.filter (fun c => i <= c)%nat cuts) by (by apply list_elem_of_filter).
    rewrite Ef in Hin. by apply not_elem_of_nil in Hin. }
  split.
  - intros d Hd Hdc. assert (d < i)%nat by (apply Hnone, cut_place; [lia|done]).
    pose proof (span_mono sizes d i stored Hsizes ltac:(lia)). lia.
  - right. intros j Hj. destruct (is_tool (msg_at msgs j)) eqn:Ej; [done|]. exfalso.
    pose proof (last_greatest _ c0 Hsorted j (cut_place j ltac:(lia) Ej)). lia.
Qed.

(** They run out at or before a place to cut: the plan takes the first one. *)
Lemma cut_at_next i first fs :
  (start <= i)%nat -> keep <= span sizes i stored -> span sizes (S i) stored < keep -> (first < stored)%nat ->
  base.filter (fun c => i <= c)%nat cuts = first :: fs ->
  keeps_enough first /\ keeps_little first.
Proof.
  intros Hi Hge Hlt Hf Ef. pose proof (filter_head _ _ _ _ Ef) as [Hic _]. split.
  - intros d Hd Hdc.
    pose proof (filter_head_least _ _ _ _ (cut_places_sorted _ _ _) Ef d
      (cut_place d ltac:(lia) Hdc) ltac:(lia)).
    pose proof (span_mono sizes d i stored Hsizes ltac:(lia)). lia.
  - left. rewrite (span_step sizes first) by lia.
    pose proof (span_mono sizes (S i) (S first) stored Hsizes ltac:(lia)). lia.
Qed.

(** They never run out: everything is kept. *)
Lemma cut_at_start first :
  span sizes start stored < keep -> (start <= first < stored)%nat -> head cuts = Some first ->
  keeps_enough first /\ keeps_little first.
Proof.
  intros Hw Hf Hc. split.
  - intros d Hd Hdc. exfalso.
    pose proof (head_least _ _ (cut_places_sorted _ _ _) Hc d
      (cut_place d ltac:(lia) Hdc)). lia.
  - left. pose proof (span_mono sizes start first stored Hsizes ltac:(lia)). pose proof (size_at_nonneg first). lia.
Qed.
End budget.

(** How much a compaction keeps. Every earlier place to cut would keep at
    least [keep] tokens; and what is kept is less than [keep] tokens and the
    message at the cut, unless the cut is at the newest place there is, with
    nothing but tool results after it. *)
Theorem planCompaction_budget msgs sizes stored keep p :
  Forall (fun x => 0 <= x) sizes -> 0 < keep ->
  planCompaction msgs sizes stored keep = (p, true) ->
  keeps_enough msgs sizes (p_start p) stored keep (p_first p) /\
  keeps_little msgs sizes stored keep (p_first p).
Proof.
  intros Hs Hk Hp. pose proof (planCompaction_sound _ _ _ _ _ Hp) as [_ _ Hps Hpf _ _ _].
  destruct (plan_first_cases _ _ _ _ _ Hp) as (c0 & Hc0 & Hfirst).
  destruct (walk_back _ _ _ _ _) as [i|] eqn:Ew.
  - pose proof (walk_back_range _ _ _ _ _ _ Ew) as Hi. destruct (walk_back_some _ _ _ _ _ _ Ew Hk) as [Hge Hlt].
    replace (p_start p + (stored - p_start p))%nat with stored in * by lia.
    match type of Hfirst with context [base.filter ?P ?l] => destruct (base.filter P l) as [|c fs] eqn:Ef end.
    + by apply (cut_at_newest msgs sizes _ _ _ Hs i c0); [lia..| |].
    + subst c. by apply (cut_at_next msgs sizes _ _ _ Hs i _ fs); [lia..|].
  - apply walk_back_none_inv in Ew; [|exact Hk].
    replace (p_start p + (stored - p_start p))%nat with stored in Ew by lia. subst c0.
    by apply cut_at_start; [..|lia|].
Qed.

Lemma planCompaction_budget_witness :
  keeps_enough plan_msgs plan_sizes 0 6 100 3 /\ keeps_little plan_msgs plan_sizes 6 100 3.
Proof.
  apply (planCompaction_budget plan_msgs plan_sizes 6 100 plan_found);
    [repeat constructor; lia|lia|reflexivity].
Defined.

(** A conversation smaller than what a compaction keeps is left alone: there
    is no plan for it. *)
Theorem planCompaction_small msgs sizes stored keep :
  Forall (fun x => 0 <= x) sizes -> (stored <= length msgs)%nat ->
  well_formed (take stored msgs) -> (forall m, head msgs = Some m -> Summary m = true -> plain m) ->
  sumZ (take stored sizes) < keep ->
  (planCompaction msgs sizes stored keep).2 = false.
Proof.
  intros Hs Hl Hw Hsum Hk. unfold planCompaction. set (start := match msgs with [] => _ | _ => _ end).
  assert (Hst : (start < stored)%nat -> is_tool (msg_at msgs start) = false).
  { intros H. destruct msgs as [|m msgs]; [simpl in Hl; lia|]. destruct stored as [|stored]; [lia|].
    cbn [take] in Hw. subst start. destruct (Summary m) eqn:Em; [|by eapply well_formed_head in Hw].
    specialize (Hsum m eq_refl Em). unfold well_formed in Hw. cbn [accepts] in Hw.
    rewrite (accept_plain m Hsum) in Hw. cbn in Hw.
    destruct msgs as [|m' msgs]; [simpl in Hl; lia|]. destruct stored as [|stored]; [lia|].
    by eapply well_formed_head in Hw. }
  assert (Hhead : forall c l, cut_places msgs start stored = c :: l -> c = start).
  { intros c l E. unfold cut_places in E. destruct (stored - start)%nat as [|n] eqn:En; [done|].
    cbn [seq] in E. rewrite filter_cons, decide_True in E by (apply Hst; lia). by simplify_eq. }
  destruct (cut_places msgs start stored) as [|c0 cuts] eqn:Ec; [done|].
  specialize (Hhead _ _ eq_refl) as ->.
  rewrite walk_back_none; [|done|].
  - cbn [snd]. unfold plan_split. cbn [p_turnStart]. rewrite Nat.ltb_irrefl, orb_false_r.
    case_bool_decide as Hu; [done|]. replace (S start - start)%nat with 1%nat by lia.
    cbn [user_before]. rewrite Nat.add_0_r. by rewrite bool_decide_eq_false_2.
  - pose proof (sumZ_nonneg (take start sizes) ltac:(by apply Forall_take)) as Hp.
    assert (Hle : start ∈ cut_places msgs start stored) by (rewrite Ec; apply elem_of_cons; by left).
    apply elem_of_cut_places in Hle as [Hle _].
    replace stored with (start + (stored - start))%nat in Hk by lia.
    rewrite <- (take_take_drop sizes) in Hk. rewrite sumZ_app in Hk. lia.
Qed.

Lemma planCompaction_small_witness : (planCompaction plan_msgs plan_sizes 6 241).2 = false.
Proof.
  apply (planCompaction_small plan_msgs plan_sizes 6 241);
    [repeat constructor; lia|simpl; lia|reflexivity|intros m H Hm; injection H as <-; discriminate|reflexivity].
Defined.

(** The window bounds what a request asks for: a request that fits is sent
    with its content unchanged and never asks for more output than the window
    has room for, one that does not fit fails before it is sent, and a window
    of zero disables the bound. *)
Theorem fit_spec c tokens window :
  (0 < window -> window <= tokens -> exists e, fit c tokens window = inr e) /\
  (0 < window -> tokens < window -> exists c', fit c tokens window = inl c' /\
     Sections c' = Sections c /\ Tools c' = Tools c /\ Messages c' = Messages c /\
     (forall m, MaxOutput (PSampling (CParameters c')) = Some m ->
        tokens + m <= window /\
        exists m0, MaxOutput (PSampling (CParameters c)) = Some m0 /\ m = Z.min m0 (window - tokens)) /\
     (MaxOutput (PSampling (CParameters c')) = None -> MaxOutput (PSampling (CParameters c)) = None)) /\
  (window <= 0 -> fit c tokens window = inl c).
Proof.
  unfold fit. split; [|split].
  - intros H1 H2. destruct (Z.leb_spec window 0); [lia|]. destruct (Z.leb_spec window tokens); [eauto|lia].
  - intros H1 H2. destruct (Z.leb_spec window 0); [lia|]. destruct (Z.leb_spec window tokens); [lia|].
    destruct (MaxOutput (PSampling (CParameters c))) as [m|] eqn:E; [destruct (Z.ltb_spec window (tokens + m))|];
      (eexists; split; [done|]; do 3 (split; [done|]); cbn; rewrite ?E;
       split; [intros m' Hm'; simplify_eq; (split; [lia|eexists; (split; [done|lia])])|done]).
  - intros H. destruct (Z.leb_spec window 0); [done|lia].
Qed.
