(* ===== verification/Entries.v ===== *)
(** The session tree in the database (internal/store: entries.go,
    sessions.go). A database is its two tables; each operation is one
    transaction, which a failure leaves without effect. Timestamps are left
    out: nothing here decides on one. *)
From S2P Require Import Prelude GoStr Float64 Provider Failure.
From stdpp Require Import options.

(** ** Documents

    A [jsonb] column keeps the document and not its spelling. [JRaw] is a
    part of a document that came as text and is not looked into. *)
Inductive json : Type :=
| JNull
| JBool (b : bool)
| JInt (n : Z)
| JFloat (f : float64)
| JString (s : string)
| JRaw (s : string)
| JArray (l : list json)
| JObject (l : list (string * json)).

(** ** Rows *)

(* @src internal/store/entries.go 13-40 EntryKind *)
Definition EntryKind : Set := string.
Definition KindUser : EntryKind := "user".
Definition KindAssistant : EntryKind := "assistant".
Definition KindToolCall : EntryKind := "tool_call".
Definition KindToolResult : EntryKind := "tool_result".
Definition KindSystem : EntryKind := "system".
Definition KindEvent : EntryKind := "event".
Definition KindCompaction : EntryKind := "compaction".

(** [Payload] is [None] for an empty [json.RawMessage]. *)
(* @src internal/store/entries.go 42-64 Entry *)
Record Entry := mkEntry {
  EID : string;
  ESession : string;
  ParentID : string;
  Seq : Z;
  Kind : EntryKind;
  Payload : option json;
  Commit : string;
}.

(* @src internal/store/sessions.go 10-23 SessionKind *)
Definition SessionUser : string := "user".
Definition SessionFork : string := "fork".
Definition SessionAgent : string := "agent".

(* @src internal/store/sessions.go 25-59 Session *)
Record DSession := mkDSession {
  SID : string;
  SWorkspaceID : string;
  Title : string;
  Untitled : bool;
  SKind : string;
  HeadEntryID : string;
  ParentSessionID : string;
  STools : option (list string);
  ProfileID : string;
  Overrides : json;
  Pinned : bool;
  Archived : bool;
}.

(* @src internal/store/sessions.go 61-63 Session.Chat *)
Definition Chat (s : DSession) : bool := String.eqb (SWorkspaceID s) EmptyString.

Record DB := mkDB { sessions : gmap string DSession; entries : gmap string Entry }.

Definition with_head (h : string) (s : DSession) : DSession :=
  mkDSession (SID s) (SWorkspaceID s) (Title s) (Untitled s) (SKind s) h (ParentSessionID s) (STools s)
    (ProfileID s) (Overrides s) (Pinned s) (Archived s).

Definition ErrNotFound : GoError := ErrSentinel "not found".
Definition ErrConflict : GoError := ErrSentinel "conflict".

(** The driver's errors, as [wrap] reads them. *)
Inductive dbError := NoRows | UniqueViolation | ForeignKeyViolation | CheckViolation | InvalidText.

(* @src internal/store/store.go 81-92 wrap *)
Definition wrap (op : string) (e : dbError) : GoError :=
  match e with
  | NoRows => ErrWrap op ErrNotFound
  | UniqueViolation => ErrWrap op ErrConflict
  | ForeignKeyViolation => ErrWrap op (ErrText "foreign key violation")
  | CheckViolation => ErrWrap op (ErrText "check violation")
  | InvalidText => ErrWrap op (ErrText "invalid input syntax for type json")
  end.

(** ** Queries *)

(** The rows of a session. *)
Definition session_rows (sid : string) (db : DB) : list Entry :=
  map snd (base.filter (fun p => ESession p.2 = sid) (map_to_list (entries db))).

(** [ORDER BY seq]. *)
Fixpoint insert_by_seq (e : Entry) (l : list Entry) : list Entry :=
  match l with
  | [] => [e]
  | x :: l' => if Seq e <? Seq x then e :: l else x :: insert_by_seq e l'
  end.

Definition order_by_seq (l : list Entry) : list Entry := foldr insert_by_seq [] l.

Definition max_seq (l : list Entry) : Z := foldr (fun e m => Z.max (Seq e) m) 0 l.

(* @src internal/store/entries.go 111-119 Store.Entry *)
Definition getEntry (id : string) (db : DB) : Entry + dbError :=
  match entries db !! id with Some e => inl e | None => inr NoRows end.

(* @src internal/store/entries.go 121-125 Store.Entries *)
Definition Entries (sid : string) (db : DB) : list Entry := order_by_seq (session_rows sid db).

(* @src internal/store/entries.go 127-134 Store.ChildEntries *)
Definition ChildEntries (sid id : string) (db : DB) : list Entry :=
  order_by_seq (base.filter (fun e => ParentID e = id) (session_rows sid db)).

(** The rows a walk up the parent pointers reads. The sequence numbers fall
    along it, so the one it starts at bounds its length. *)
Fixpoint walk_up (fuel : nat) (id : string) (db : DB) : list Entry :=
  match fuel with
  | O => []
  | S fuel' =>
      match entries db !! id with
      | None => []
      | Some e => e :: (if String.eqb (ParentID e) EmptyString then [] else walk_up fuel' (ParentID e) db)
      end
  end.

(* @src internal/store/entries.go 159-167 pathQuery *)
Definition pathQuery (id : string) (db : DB) : list Entry :=
  match entries db !! id with
  | None => []
  | Some e => order_by_seq (walk_up (S (Z.to_nat (Seq e))) id db)
  end.

(* @src internal/store/entries.go 284-292 Store.entryOfSession *)
Definition entryOfSession (sid id : string) (db : DB) : Entry + dbError :=
  match entries db !! id with
  | Some e => if String.eqb (ESession e) sid then inl e else inr NoRows
  | None => inr NoRows
  end.

(* @src internal/store/entries.go 136-143 Store.EntryPath *)
Definition EntryPath (sid id : string) (db : DB) : list Entry + GoError :=
  match entryOfSession sid id db with
  | inr e => inr (wrap ("read entry " +:+ id +:+ " of session " +:+ sid) e)
  | inl _ => inl (pathQuery id db)
  end.

(* @src internal/store/sessions.go 102-110 Store.Session *)
Definition getSession (sid : string) (db : DB) : DSession + GoError :=
  match sessions db !! sid with
  | Some s => inl s
  | None => inr (wrap ("read session " +:+ sid) NoRows)
  end.

(* @src internal/store/entries.go 145-157 Store.SessionPath *)
Definition SessionPath (sid : string) (db : DB) : list Entry + GoError :=
  match getSession sid db with
  | inr e => inr e
  | inl s => if String.eqb (HeadEntryID s) EmptyString then inl [] else inl (pathQuery (HeadEntryID s) db)
  end.

(** ** Updates *)

(** [id] is what [NewID] gave. *)
(* @src internal/store/entries.go 237-256 insertEntry *)
Definition insertEntry (id sid parent : string) (e : Entry) (db : DB) : (Entry + dbError) * DB :=
  match entries db !! id with
  | Some _ => (inr UniqueViolation, db)
  | None =>
      match sessions db !! sid with
      | None => (inr ForeignKeyViolation, db)
      | Some _ =>
          if negb (String.eqb parent EmptyString) && bool_decide (entries db !! parent = None)
          then (inr ForeignKeyViolation, db)
          else
            let e := mkEntry id sid parent (max_seq (session_rows sid db) + 1) (Kind e)
                       (Some (default (JObject []) (Payload e))) (Commit e) in
            (inl e, mkDB (sessions db) (<[id := e]> (entries db)))
      end
  end.

(* @src internal/store/entries.go 258-268 lockSessionHead *)
Definition lockSessionHead (sid : string) (db : DB) : string + dbError :=
  match sessions db !! sid with Some s => inl (HeadEntryID s) | None => inr NoRows end.

(* @src internal/store/entries.go 270-282 setHead *)
Definition setHead (sid id : string) (db : DB) : option dbError * DB :=
  match sessions db !! sid with
  | Some s => (None, mkDB (<[sid := with_head id s]> (sessions db)) (entries db))
  | None => (Some NoRows, db)
  end.

(* @src internal/store/entries.go 70-89 Store.AppendEntry *)
Definition AppendEntry (id sid : string) (e : Entry) (db : DB) : (Entry + GoError) * DB :=
  let failed e := (inr (wrap ("append entry to session " +:+ sid) e), db) in
  match lockSessionHead sid db with
  | inr err => failed err
  | inl head =>
      match insertEntry id sid head e db with
      | (inr err, _) => failed err
      | (inl out, db1) =>
          match setHead sid (EID out) db1 with
          | (Some err, _) => failed err
          | (None, db2) => (inl out, db2)
          end
      end
  end.

(* @src internal/store/entries.go 91-109 Store.SetSessionHead *)
Definition SetSessionHead (sid id : string) (db : DB) : option GoError * DB :=
  let own := match entries db !! id with Some e => String.eqb (ESession e) sid | None => false end in
  match sessions db !! sid with
  | Some s =>
      if String.eqb id EmptyString || own
      then (None, mkDB (<[sid := with_head id s]> (sessions db)) (entries db))
      else (Some (wrap ("set head of session " +:+ sid) NoRows), db)
  | None => (Some (wrap ("set head of session " +:+ sid) NoRows), db)
  end.

(* @src internal/store/sessions.go 70-100 createSession *)
Definition createSession (id : string) (s : DSession) (db : DB) : (DSession + dbError) * DB :=
  let sid := if String.eqb (SID s) EmptyString then id else SID s in
  let kind := if String.eqb (SKind s) EmptyString then SessionUser else SKind s in
  let s := mkDSession sid (SWorkspaceID s) (Title s) (Untitled s) kind (HeadEntryID s)
             (ParentSessionID s) (STools s) (ProfileID s) (Overrides s) (Pinned s) (Archived s) in
  match sessions db !! sid with
  | Some _ => (inr UniqueViolation, db)
  | None =>
      if negb (String.eqb (ParentSessionID s) EmptyString) && bool_decide (sessions db !! ParentSessionID s = None)
      then (inr ForeignKeyViolation, db)
      else (inl s, mkDB (<[sid := s]> (sessions db)) (entries db))
  end.

(** The loop of [ForkSession] over the path; [ids] are what [NewID] gives the
    copies. *)
Fixpoint copyPath (ids : list string) (sid parent : string) (path : list Entry) (db : DB) {struct path}
    : (string + dbError) * DB :=
  match path, ids with
  | [], _ => (inl parent, db)
  | e :: path', id :: ids' =>
      match insertEntry id sid parent e db with
      | (inr err, db) => (inr err, db)
      | (inl copied, db) => copyPath ids' sid (EID copied) path' db
      end
  | _ :: _, [] => (inr UniqueViolation, db)
  end.

(* @src internal/store/entries.go 169-178 ForkOptions *)
Record ForkOptions := mkForkOptions { FTitle : string; FWorkspaceID : string }.

(** [cmp.Or] on strings. *)
Definition or_string (a b : string) : string := if String.eqb a EmptyString then b else a.

(* @src internal/store/entries.go 180-235 Store.ForkSession *)
Definition ForkSession (id : string) (ids : list string) (sid entry : string) (o : ForkOptions) (db : DB)
    : (DSession + GoError) * DB :=
  let failed err := (inr (wrap ("fork session " +:+ sid) err), db) in
  match sessions db !! sid with
  | None => failed NoRows
  | Some src =>
      let path := pathQuery entry db in
      match last path with
      | Some e =>
          if negb (String.eqb (ESession e) sid) then
            (inr (ErrWrap ("fork session " +:+ sid +:+ " at entry " +:+ entry) ErrNotFound), db)
          else
          let fork := mkDSession EmptyString (or_string (FWorkspaceID o) (SWorkspaceID src))
            (or_string (FTitle o) (Title src)) (String.eqb (FTitle o) EmptyString && Untitled src)
            SessionFork EmptyString sid (STools src) (ProfileID src) (Overrides src) false false in
          match createSession id fork db with
          | (inr err, _) => failed err
          | (inl fork, db1) =>
              match copyPath ids (SID fork) EmptyString path db1 with
              | (inr err, _) => failed err
              | (inl parent, db2) =>
                  match setHead (SID fork) parent db2 with
                  | (Some err, _) => failed err
                  | (None, db3) => (inl (with_head parent fork), db3)
                  end
              end
          end
      | None => (inr (ErrWrap ("fork session " +:+ sid +:+ " at entry " +:+ entry) ErrNotFound), db)
      end
  end.

(** A session goes with its entries, and leaves its forks without a parent. *)
(* @src internal/store/sessions.go 240-250 Store.DeleteSession *)
Definition DeleteSession (sid : string) (db : DB) : option GoError * DB :=
  match sessions db !! sid with
  | None => (Some (wrap ("delete session " +:+ sid) NoRows), db)
  | Some _ =>
      let orphan s := if String.eqb (ParentSessionID s) sid
        then mkDSession (SID s) (SWorkspaceID s) (Title s) (Untitled s) (SKind s) (HeadEntryID s) EmptyString
               (STools s) (ProfileID s) (Overrides s) (Pinned s) (Archived s)
        else s in
      (None, mkDB (orphan <$> delete sid (sessions db))
               (base.filter (fun p => ESession p.2 <> sid) (entries db)))
  end.

(* @src internal/store/sessions.go 187-195 SessionChanges *)
Record SessionChanges := mkChanges { ChTitle : option string; ChPinned : option bool; ChArchived : option bool }.

(* @src internal/store/sessions.go 197-213 Store.UpdateSession *)
Definition UpdateSession (sid : string) (ch : SessionChanges) (db : DB) : (DSession + GoError) * DB :=
  match sessions db !! sid with
  | None => (inr (wrap ("update session " +:+ sid) NoRows), db)
  | Some s =>
      let s := mkDSession (SID s) (SWorkspaceID s) (default (Title s) (ChTitle ch))
        (Untitled s && bool_decide (ChTitle ch = None)) (SKind s) (HeadEntryID s) (ParentSessionID s)
        (STools s) (ProfileID s) (Overrides s) (default (Pinned s) (ChPinned ch))
        (default (Archived s) (ChArchived ch)) in
      (inl s, mkDB (<[sid := s]> (sessions db)) (entries db))
  end.

(* @src internal/store/sessions.go 215-225 Store.TitleUntitledSession *)
Definition TitleUntitledSession (sid title : string) (db : DB) : bool * DB :=
  match sessions db !! sid with
  | Some s =>
      if Untitled s then
        (true, mkDB (<[sid := mkDSession (SID s) (SWorkspaceID s) title false (SKind s) (HeadEntryID s)
          (ParentSessionID s) (STools s) (ProfileID s) (Overrides s) (Pinned s) (Archived s)]> (sessions db)) (entries db))
      else (false, db)
  | None => (false, db)
  end.

(* @src internal/store/sessions.go 227-238 Store.SetSessionTools *)
Definition SetSessionTools (sid : string) (tools : option (list string)) (db : DB) : option GoError * DB :=
  match sessions db !! sid with
  | Some s =>
      (None, mkDB (<[sid := mkDSession (SID s) (SWorkspaceID s) (Title s) (Untitled s) (SKind s) (HeadEntryID s)
        (ParentSessionID s) tools (ProfileID s) (Overrides s) (Pinned s) (Archived s)]> (sessions db)) (entries db))
  | None => (Some (wrap ("set session tools " +:+ sid) NoRows), db)
  end.

(* @src internal/store/runs.go 10-23 RunState *)
Definition RunRunning : string := "running".
Definition RunDone : string := "done".
Definition RunError : string := "error".
Definition RunAborted : string := "aborted".
