(* ===== verification/EntriesClaims.v ===== *)
(** The properties of the session tree: what its shape is, what every
    transaction keeps of it, and the claims, with a concrete database. *)
From Stdlib Require Sorted.
From S2P Require Import Prelude GoStr Float64 Provider Failure Entries.
From stdpp Require Import options.

(** ** The shape of the tree *)

Record tree_ok (db : DB) : Prop := {
  tree_key : forall id e, entries db !! id = Some e -> EID e = id /\ id <> EmptyString;
  tree_session : forall id e, entries db !! id = Some e -> is_Some (sessions db !! ESession e);
  tree_seq : forall id e, entries db !! id = Some e -> 1 <= Seq e;
  tree_order : forall i j e f, entries db !! i = Some e -> entries db !! j = Some f ->
    ESession e = ESession f -> Seq e = Seq f -> i = j;
  tree_parent : forall id e, entries db !! id = Some e -> ParentID e <> EmptyString ->
    exists p, entries db !! ParentID e = Some p /\ ESession p = ESession e /\ Seq p < Seq e;
  tree_head : forall sid s, sessions db !! sid = Some s -> HeadEntryID s <> EmptyString ->
    exists e, entries db !! HeadEntryID s = Some e /\ ESession e = sid;
  tree_sid : forall sid s, sessions db !! sid = Some s -> SID s = sid;
}.

Lemma elem_of_session_rows sid db e :
  e ∈ session_rows sid db <-> ESession e = sid /\ exists id, entries db !! id = Some e.
Proof.
  unfold session_rows. rewrite list_elem_of_fmap. split.
  - intros ([id x] & -> & H). apply list_elem_of_filter in H as [H1 H2].
    apply elem_of_map_to_list in H2. cbn in *. eauto.
  - intros [H (id & Hid)]. exists (id, e). split; [done|]. apply list_elem_of_filter.
    split; [done|by apply elem_of_map_to_list].
Qed.

Lemma max_seq_ge l e : e ∈ l -> Seq e <= max_seq l.
Proof.
  induction l as [|x l IH]; [by intros ?%elem_of_nil|].
  unfold max_seq in *. intros [->|H]%elem_of_cons; simpl; [lia|]. specialize (IH H). lia.
Qed.

Lemma max_seq_nonneg l : 0 <= max_seq l.
Proof. unfold max_seq. induction l as [|x l IH]; simpl; lia. Qed.

(** ** Inserting *)

(** What [insertEntry] promises when it succeeds. *)
Lemma insertEntry_inv id sid parent e db out db' :
  insertEntry id sid parent e db = (inl out, db') ->
  out = mkEntry id sid parent (max_seq (session_rows sid db) + 1) (Kind e)
          (Some (default (JObject []) (Payload e))) (Commit e) /\
  db' = mkDB (sessions db) (<[id := out]> (entries db)) /\
  entries db !! id = None /\ is_Some (sessions db !! sid) /\
  (parent = EmptyString \/ is_Some (entries db !! parent)).
Proof.
  unfold insertEntry. destruct (entries db !! id) eqn:E1; [done|].
  destruct (sessions db !! sid) eqn:E2; [|done].
  destruct (String.eqb_spec parent EmptyString) as [->|Hp]; cbn [negb andb].
  - intros H. simplify_eq. eauto 10.
  - case_bool_decide as E3; [done|]. intros H. simplify_eq.
    destruct (entries db !! parent) eqn:E4; [|done]. eauto 10.
Qed.

Lemma insertEntry_failed id sid parent e db err db' :
  insertEntry id sid parent e db = (inr err, db') -> db' = db.
Proof. unfold insertEntry. intros H. by repeat (case_match; simplify_eq). Qed.

Lemma insertEntry_ok id sid parent e db out db' :
  tree_ok db -> id <> EmptyString ->
  (parent = EmptyString \/ exists p, entries db !! parent = Some p /\ ESession p = sid) ->
  insertEntry id sid parent e db = (inl out, db') -> tree_ok db'.
Proof.
  intros [a b c d f g h] Hid Hp H. apply insertEntry_inv in H as (Hout & -> & Hnew & Hs & _).
  assert (Hlt : forall i x, entries db !! i = Some x -> ESession x = sid -> Seq x < Seq out).
  { intros i x Hi Hx. subst out. cbn.
    pose proof (max_seq_ge (session_rows sid db) x ltac:(apply elem_of_session_rows; eauto)). lia. }
  assert (Hold : forall i x, entries db !! i = Some x -> (<[id := out]> (entries db)) !! i = Some x).
  { intros i x Hi. rewrite lookup_insert_ne; [done|]. by intros <-; rewrite Hnew in Hi. }
  split; cbn [entries sessions].
  - intros i x [[<- <-]|[? Hi]]%lookup_insert_Some; [by subst out|eauto].
  - intros i x [[<- <-]|[? Hi]]%lookup_insert_Some; [by subst out|eauto].
  - intros i x [[<- <-]|[? Hi]]%lookup_insert_Some; [|eauto]. subst out. cbn.
    pose proof (max_seq_nonneg (session_rows sid db)). lia.
  - intros i j x y [[<- <-]|[? Hi]]%lookup_insert_Some [[<- <-]|[? Hj]]%lookup_insert_Some Hxy Hseq; eauto.
    + pose proof (Hlt j y Hj ltac:(by rewrite <- Hxy; subst out)). lia.
    + pose proof (Hlt i x Hi ltac:(by rewrite Hxy; subst out)). lia.
  - intros i x [[<- <-]|[? Hi]]%lookup_insert_Some Hpar.
    + destruct Hp as [Hp|(p & Hp1 & Hp2)]; [by subst out|]. exists p.
      replace (ParentID out) with parent by (by subst out). split; [by apply Hold|].
      split; [by subst out|by eapply Hlt].
    + destruct (f i x Hi Hpar) as (p & Hp1 & Hp2). exists p. split; [by apply Hold|done].
  - intros s x Hx Hhead. destruct (g s x Hx Hhead) as (e' & He' & He''). exists e'. split; [by apply Hold|done].
  - done.
Qed.

(** Pointing a session at one of its own entries. *)
Lemma set_head_ok sid s h db :
  tree_ok db -> sessions db !! sid = Some s ->
  (h = EmptyString \/ exists e, entries db !! h = Some e /\ ESession e = sid) ->
  tree_ok (mkDB (<[sid := with_head h s]> (sessions db)) (entries db)).
Proof.
  intros [a b c d f g k] Hs Hh. split; cbn [entries sessions]; try done.
  - intros id e He. destruct (b id e He) as [x Hx].
    destruct (decide (ESession e = sid)) as [->|]; [rewrite lookup_insert_eq|rewrite lookup_insert_ne by done]; eauto.
  - intros s' x [[<- <-]|[? Hx]]%lookup_insert_Some Hhead; [|eauto]. cbn in *. destruct Hh as [?|?]; [done|done].
  - intros s' x [[<- <-]|[? Hx]]%lookup_insert_Some; [|eauto]. cbn. eauto.
Qed.

Lemma setHead_inv sid h db r db' :
  setHead sid h db = (r, db') ->
  (exists s, sessions db !! sid = Some s /\ r = None /\
     db' = mkDB (<[sid := with_head h s]> (sessions db)) (entries db)) \/
  (sessions db !! sid = None /\ r = Some NoRows /\ db' = db).
Proof. unfold setHead. intros H. destruct (sessions db !! sid); simplify_eq; eauto 10. Qed.

(** What appending does, when it does. *)
Lemma AppendEntry_inv id sid e db out db' :
  AppendEntry id sid e db = (inl out, db') ->
  exists s, sessions db !! sid = Some s /\
    out = mkEntry id sid (HeadEntryID s) (max_seq (session_rows sid db) + 1) (Kind e)
            (Some (default (JObject []) (Payload e))) (Commit e) /\
    entries db !! id = None /\
    db' = mkDB (<[sid := with_head id s]> (sessions db)) (<[id := out]> (entries db)) /\
    insertEntry id sid (HeadEntryID s) e db = (inl out, mkDB (sessions db) (<[id := out]> (entries db))).
Proof.
  unfold AppendEntry, lockSessionHead. destruct (sessions db !! sid) as [s|] eqn:Es; [|done].
  destruct (insertEntry _ _ _ _ _) as [[x|err] db1] eqn:Ei; [|done].
  destruct (setHead _ _ _) as [[err|] db2] eqn:Eh; [done|]. intros H. simplify_eq.
  pose proof Ei as Ei'. apply insertEntry_inv in Ei' as (-> & -> & Hn & _ & _).
  apply setHead_inv in Eh as [(s' & Hs' & _ & ->)|(? & ? & ?)]; [|done].
  cbn [sessions entries EID] in *. rewrite Es in Hs'. simplify_eq. eauto 10.
Qed.

Lemma AppendEntry_failed id sid e db err db' : AppendEntry id sid e db = (inr err, db') -> db' = db.
Proof. unfold AppendEntry. intros H. by repeat (case_match; simplify_eq). Qed.

Lemma head_parent db sid s :
  tree_ok db -> sessions db !! sid = Some s ->
  HeadEntryID s = EmptyString \/ exists p, entries db !! HeadEntryID s = Some p /\ ESession p = sid.
Proof.
  intros Hok Hs. destruct (decide (HeadEntryID s = EmptyString)); [by left|right]. by eapply tree_head.
Qed.

Lemma AppendEntry_ok id sid e db out db' :
  tree_ok db -> id <> EmptyString -> AppendEntry id sid e db = (inl out, db') -> tree_ok db'.
Proof.
  intros Hok Hid H. apply AppendEntry_inv in H as (s & Hs & Hout & Hn & -> & Hi).
  pose proof (insertEntry_ok _ _ _ _ _ _ _ Hok Hid (head_parent _ _ _ Hok Hs) Hi) as Hok1.
  refine (set_head_ok sid s id (mkDB (sessions db) (<[id := out]> (entries db))) Hok1 Hs _).
  right. exists out. cbn. rewrite lookup_insert_eq. by subst out.
Qed.

(** ** Paths *)

(** The chain from a root down to an entry. *)
Inductive path_to (db : DB) : string -> list Entry -> Prop :=
| path_root e : entries db !! EID e = Some e -> ParentID e = EmptyString -> path_to db (EID e) [e]
| path_step e l : entries db !! EID e = Some e -> ParentID e <> EmptyString ->
    path_to db (ParentID e) l -> path_to db (EID e) (l ++ [e]).

Lemma path_to_last db id l : path_to db id l -> exists e, entries db !! id = Some e /\ last l = Some e.
Proof. destruct 1 as [e He Hp|e l He Hp Hl]; exists e; by rewrite ?last_snoc. Qed.

Lemma path_to_unique db id l l' : path_to db id l -> path_to db id l' -> l = l'.
Proof.
  intros H. revert l'. induction H as [e He Hp|e l He Hp Hl IH]; intros l' H'; inversion H' as [x Hx Hpx E|x k Hx Hpx Hk E];
    subst; rewrite E in Hx; rewrite He in Hx; simplify_eq; try done.
  by rewrite (IH k Hk).
Qed.

Lemma path_to_mono db db' id l : entries db ⊆ entries db' -> path_to db id l -> path_to db' id l.
Proof.
  intros Hsub. induction 1 as [e He Hp|e l He Hp Hl IH]; [apply path_root|apply path_step]; try done;
    by eapply lookup_weaken.
Qed.

Lemma insert_by_seq_last e l : Forall (fun x => Seq x < Seq e) l -> insert_by_seq e l = l ++ [e].
Proof.
  induction 1 as [|x l Hx Hl IH]; [done|]. cbn. destruct (Z.ltb_spec (Seq e) (Seq x)); [lia|]. by rewrite IH.
Qed.

(** The walk up is the path in reverse, each entry older than the one before
    it. *)
Lemma walk_up_path db fuel id e :
  tree_ok db -> entries db !! id = Some e -> Seq e < Z.of_nat fuel ->
  path_to db id (order_by_seq (walk_up fuel id db)) /\
  Forall (fun x => Seq x <= Seq e) (order_by_seq (walk_up fuel id db)).
Proof.
  intros Hok. revert id e. induction fuel as [|fuel IH]; intros id e He Hf.
  { pose proof (tree_seq _ Hok _ _ He). lia. }
  cbn [walk_up]. rewrite He. destruct (tree_key _ Hok _ _ He) as [Hid _].
  destruct (String.eqb_spec (ParentID e) EmptyString) as [Hp|Hp].
  - cbn. rewrite <- Hid in He |- *. split; [by apply path_root|by apply Forall_singleton].
  - destruct (tree_parent _ Hok _ _ He Hp) as (p & Hpe & _ & Hlt).
    destruct (IH _ _ Hpe ltac:(lia)) as [H1 H2]. cbn [order_by_seq foldr]. fold (order_by_seq (walk_up fuel (ParentID e) db)).
    rewrite insert_by_seq_last.
    + rewrite <- Hid in He |- *. split; [by apply path_step|].
      apply Forall_app. split; [|by apply Forall_singleton]. eapply Forall_impl; [exact H2|]. intros x Hx. cbn in *. lia.
    + eapply Forall_impl; [exact H2|]. intros x Hx. cbn in *. lia.
Qed.

Lemma pathQuery_path db id e : tree_ok db -> entries db !! id = Some e -> path_to db id (pathQuery id db).
Proof.
  intros Hok He. unfold pathQuery. rewrite He. apply (walk_up_path db _ id e Hok He).
  pose proof (tree_seq _ Hok _ _ He). lia.
Qed.

Lemma pathQuery_unique db id l : tree_ok db -> path_to db id l -> pathQuery id db = l.
Proof.
  intros Hok H. destruct (path_to_last _ _ _ H) as (e & He & _).
  eapply path_to_unique; [by eapply pathQuery_path|done].
Qed.

(** More entries change no path. *)
Lemma pathQuery_mono db db' id e :
  tree_ok db -> tree_ok db' -> entries db ⊆ entries db' -> entries db !! id = Some e ->
  pathQuery id db' = pathQuery id db.
Proof.
  intros Hok Hok' Hsub He. apply pathQuery_unique; [done|]. eapply path_to_mono; [done|]. by eapply pathQuery_path.
Qed.

(** The path of a session. *)
Definition session_path (s : DSession) (db : DB) : list Entry :=
  if String.eqb (HeadEntryID s) EmptyString then [] else pathQuery (HeadEntryID s) db.

Lemma SessionPath_eq sid s db : sessions db !! sid = Some s -> SessionPath sid db = inl (session_path s db).
Proof.
  intros H. unfold SessionPath, getSession, session_path. rewrite H. by destruct (String.eqb _ _).
Qed.

(** A new entry under [parent] has the parent's path and itself. *)
Lemma insertEntry_path id sid parent e db out db' :
  tree_ok db -> id <> EmptyString ->
  (parent = EmptyString \/ exists p, entries db !! parent = Some p /\ ESession p = sid) ->
  insertEntry id sid parent e db = (inl out, db') ->
  pathQuery id db' = (if String.eqb parent EmptyString then [] else pathQuery parent db) ++ [out].
Proof.
  intros Hok Hid Hp H. pose proof (insertEntry_ok _ _ _ _ _ _ _ Hok Hid Hp H) as Hok'.
  apply insertEntry_inv in H as (Hout & Hdb' & Hn & _).
  assert (He : entries db' !! id = Some out) by (subst db'; cbn; apply lookup_insert_eq).
  assert (Hsub : entries db ⊆ entries db') by (subst db'; cbn; by apply insert_subseteq).
  assert (Hid' : EID out = id) by (by subst out). assert (Hpar : ParentID out = parent) by (by subst out).
  apply pathQuery_unique; [done|]. destruct (String.eqb_spec parent EmptyString) as [->|Hne].
  - rewrite <- Hid'. apply path_root; [by rewrite Hid'|done].
  - destruct Hp as [?|(p & Hpe & _)]; [done|]. rewrite <- Hid'. apply path_step; rewrite ?Hid', ?Hpar; try done.
    eapply path_to_mono; [done|]. by eapply pathQuery_path.
Qed.

(** ** Forking *)

(** A copy says what its original says. *)
Definition same_content (e c : Entry) : Prop :=
  Kind c = Kind e /\ Payload c = Some (default (JObject []) (Payload e)) /\ Commit c = Commit e.

(** The path above [id], where no id is above a root. *)
Definition path_above (id : string) (db : DB) : list Entry :=
  if String.eqb id EmptyString then [] else pathQuery id db.

Lemma new_session_ok db s :
  tree_ok db -> sessions db !! SID s = None -> HeadEntryID s = EmptyString ->
  tree_ok (mkDB (<[SID s := s]> (sessions db)) (entries db)).
Proof.
  intros [a b c d f g k] Hn Hh. split; cbn [entries sessions]; try done.
  - intros id e He. destruct (b id e He) as [x Hx]. exists x. rewrite lookup_insert_ne; [done|]. intros E. rewrite E in Hn. congruence.
  - intros s' x [[<- <-]|[? Hx]]%lookup_insert_Some Hhead; [done|eauto].
  - intros s' x [[<- <-]|[? Hx]]%lookup_insert_Some; [done|eauto].
Qed.

Lemma createSession_inv id s db out db' :
  createSession id s db = (inl out, db') ->
  SID out = (if String.eqb (SID s) EmptyString then id else SID s) /\ HeadEntryID out = HeadEntryID s /\
  SWorkspaceID out = SWorkspaceID s /\ ParentSessionID out = ParentSessionID s /\
  SKind out = (if String.eqb (SKind s) EmptyString then SessionUser else SKind s) /\
  sessions db !! SID out = None /\ db' = mkDB (<[SID out := out]> (sessions db)) (entries db).
Proof.
  unfold createSession. cbn zeta. cbn [ParentSessionID]. destruct (sessions db !! _) eqn:E; [done|].
  destruct (_ && _); [done|]. intros H. simplify_eq. cbn. by repeat split.
Qed.

Record copied (sid parent last : string) (path copies : list Entry) (db db' : DB) : Prop := {
  cp_ok : tree_ok db';
  cp_sessions : sessions db' = sessions db;
  cp_entries : entries db ⊆ entries db';
  cp_content : Forall2 same_content path copies;
  cp_own : Forall (fun c => ESession c = sid) copies;
  cp_path : path_above last db' = path_above parent db ++ copies;
  cp_last : last = EmptyString \/ exists p, entries db' !! last = Some p /\ ESession p = sid;
}.

Lemma copyPath_spec ids sid parent path db last db' :
  tree_ok db -> Forall (fun id => id <> EmptyString) ids ->
  (parent = EmptyString \/ exists p, entries db !! parent = Some p /\ ESession p = sid) ->
  copyPath ids sid parent path db = (inl last, db') ->
  exists copies, copied sid parent last path copies db db'.
Proof.
  revert ids parent db. induction path as [|e path IH]; intros ids parent db Hok Hids Hp H; cbn [copyPath] in H.
  - injection H as <- <-. exists []. split; [done|done|done|constructor|constructor|by rewrite app_nil_r|done].
  - destruct ids as [|id ids]; [done|]. apply Forall_cons in Hids as [Hid Hids].
    destruct (insertEntry id sid parent e db) as [[c|err] db1] eqn:Ei; [|done].
    pose proof (insertEntry_ok _ _ _ _ _ _ _ Hok Hid Hp Ei) as Hok1.
    pose proof (insertEntry_path _ _ _ _ _ _ _ Hok Hid Hp Ei) as Hpath.
    pose proof Ei as Ei'. apply insertEntry_inv in Ei' as (Hc & Hdb1 & Hn & _).
    assert (Hcid : EID c = id) by (by subst c).
    assert (Hc1 : entries db1 !! id = Some c) by (subst db1; apply lookup_insert_eq).
    destruct (IH ids (EID c) db1 Hok1 Hids) as [copies [k1 k2 k3 k4 k5 k6 k7]]; [|exact H|].
    { right. exists c. rewrite Hcid. split; [done|by subst c]. }
    exists (c :: copies). split; try done.
    + rewrite k2. by subst db1.
    + etransitivity; [|exact k3]. subst db1. cbn. by apply insert_subseteq.
    + constructor; [by subst c|done].
    + constructor; [by subst c|done].
    + rewrite k6. unfold path_above at 1. rewrite Hcid.
      destruct (String.eqb_spec id EmptyString) as [|_]; [done|]. rewrite Hpath. unfold path_above.
      by rewrite <- app_assoc.
Qed.

(** What a fork is. *)
Record forked (sid entry : string) (f : DSession) (copies : list Entry) (db db' : DB) : Prop := {
  fk_ok : tree_ok db';
  fk_path : SessionPath (SID f) db' = inl copies;
  fk_content : Forall2 same_content (pathQuery entry db) copies;
  fk_own : Forall (fun c => ESession c = SID f) copies;
  fk_parent : ParentSessionID f = sid /\ SKind f = SessionFork;
  fk_sessions : forall s x, sessions db !! s = Some x -> sessions db' !! s = Some x;
  fk_paths : forall i e, entries db !! i = Some e -> entries db' !! i = Some e /\ pathQuery i db' = pathQuery i db;
}.

Lemma ForkSession_spec id ids sid entry o db f db' :
  tree_ok db -> Forall (fun id => id <> EmptyString) ids ->
  ForkSession id ids sid entry o db = (inl f, db') -> exists copies, forked sid entry f copies db db'.
Proof.
  intros Hok Hids H. unfold ForkSession in H. destruct (sessions db !! sid) as [src|]; [|done].
  destruct (last (pathQuery entry db)) as [e|]; [|done]. destruct (negb _); [done|].
  destruct (createSession id _ db) as [[s|err] db1] eqn:Ec; [|done].
  apply createSession_inv in Ec as (_ & Hh & _ & Hpar & Hkind & Hn & Hdb1). cbn in Hh, Hpar, Hkind.
  pose proof (new_session_ok db s Hok Hn Hh) as Hok1. rewrite <- Hdb1 in Hok1.
  destruct (copyPath ids (SID s) EmptyString (pathQuery entry db) db1) as [[h|err] db2] eqn:Ecp; [|done].
  destruct (copyPath_spec _ _ _ _ _ _ _ Hok1 Hids (or_introl eq_refl) Ecp) as [copies [k1 k2 k3 k4 k5 k6 k7]].
  destruct (setHead (SID s) h db2) as [[err|] db3] eqn:Eh; [done|].
  apply setHead_inv in Eh as [(s' & Hs' & _ & ->)|(? & ? & _)]; [|done]. simplify_eq.
  rewrite k2 in Hs'. cbn in Hs'. rewrite lookup_insert_eq in Hs'. simplify_eq.
  assert (Hok3 : tree_ok (mkDB (<[SID s' := with_head h s']> (sessions db2)) (entries db2))).
  { apply set_head_ok; [done| |done]. rewrite k2. cbn. by rewrite lookup_insert_eq. }
  assert (Hpaths : forall i e, entries db2 !! i = Some e ->
    pathQuery i (mkDB (<[SID s' := with_head h s']> (sessions db2)) (entries db2)) = pathQuery i db2).
  { intros i x Hx. by eapply pathQuery_mono. }
  exists copies. split; try done.
  - rewrite (SessionPath_eq _ (with_head h s')) by (cbn; by rewrite lookup_insert_eq).
    f_equal. unfold session_path. cbn [HeadEntryID with_head].
    rewrite app_nil_l in k6. rewrite <- k6. unfold path_above.
    destruct (String.eqb_spec h EmptyString); [done|]. destruct k7 as [?|(p & Hp & _)]; [done|]. by eapply Hpaths.
  - cbn. rewrite k2. intros t x Hx. cbn. rewrite !lookup_insert_ne; [done| |]; (intros <-; by rewrite Hn in Hx).
  - intros i x Hx. cbn [entries] in *. assert (Hx2 : entries db2 !! i = Some x) by (by eapply lookup_weaken).
    split; [done|]. rewrite (Hpaths i x Hx2). by eapply pathQuery_mono.
Qed.

(** ** The operations as a step relation *)

(** One transaction on the session tables, whatever its outcome. *)
Inductive db_step : DB -> DB -> Prop :=
| step_append id sid e db : id <> EmptyString -> db_step db (AppendEntry id sid e db).2
| step_set_head sid id db : db_step db (SetSessionHead sid id db).2
| step_create id s db : HeadEntryID s = EmptyString -> db_step db (createSession id s db).2
| step_fork id ids sid entry o db : Forall (fun id => id <> EmptyString) ids ->
    db_step db (ForkSession id ids sid entry o db).2
| step_delete sid db : db_step db (DeleteSession sid db).2
| step_update sid ch db : db_step db (UpdateSession sid ch db).2
| step_title sid title db : db_step db (TitleUntitledSession sid title db).2
| step_tools sid tools db : db_step db (SetSessionTools sid tools db).2.

(** A session row whose id and head stand. *)
Lemma same_head_ok sid s s' db :
  tree_ok db -> sessions db !! sid = Some s -> SID s' = SID s -> HeadEntryID s' = HeadEntryID s ->
  tree_ok (mkDB (<[sid := s']> (sessions db)) (entries db)).
Proof.
  intros [a b c d f g k] Hs Hid Hh. split; cbn [entries sessions]; try done.
  - intros id e He. destruct (b id e He) as [x Hx].
    destruct (decide (ESession e = sid)) as [->|]; [rewrite lookup_insert_eq|rewrite lookup_insert_ne by done]; eauto.
  - intros t x [[<- <-]|[? Hx]]%lookup_insert_Some Hhead; [|eauto]. rewrite Hh in *. eauto.
  - intros t x [[<- <-]|[? Hx]]%lookup_insert_Some; [|eauto]. rewrite Hid. eauto.
Qed.

Lemma DeleteSession_ok sid db : tree_ok db -> tree_ok (DeleteSession sid db).2.
Proof.
  intros [a b c d f g k]. unfold DeleteSession. destruct (sessions db !! sid) as [s|]; [|done]. cbn [snd].
  set (orphan := fun x : DSession => _).
  assert (Ho : forall x, SID (orphan x) = SID x /\ HeadEntryID (orphan x) = HeadEntryID x).
  { intros x. unfold orphan. by destruct (String.eqb _ _). }
  assert (He : forall id e, base.filter (fun p : string * Entry => ESession p.2 <> sid) (entries db) !! id = Some e ->
    entries db !! id = Some e /\ ESession e <> sid).
  { intros id e H. by apply map_lookup_filter_Some in H. }
  assert (Hs : forall t x, (orphan <$> delete sid (sessions db)) !! t = Some x ->
    exists y, sessions db !! t = Some y /\ x = orphan y /\ t <> sid).
  { intros t x. rewrite lookup_fmap. destruct (delete sid (sessions db) !! t) as [y|] eqn:E; [|done].
    apply lookup_delete_Some in E as [E1 E2]. intros H. injection H as <-. eauto. }
  split; cbn [entries sessions].
  - intros id e H. apply He in H as [H _]. eauto.
  - intros id e H. apply He in H as [H Hne]. destruct (b _ _ H) as [x Hx]. exists (orphan x).
    rewrite lookup_fmap, lookup_delete_ne by done. by rewrite Hx.
  - intros id e H. apply He in H as [H _]. eauto.
  - intros i j x y H1 H2. apply He in H1 as [H1 _]. apply He in H2 as [H2 _]. eauto.
  - intros id e H Hp. apply He in H as [H Hne]. destruct (f _ _ H Hp) as (p & Hp1 & Hp2 & Hp3). exists p.
    split; [|done]. apply map_lookup_filter_Some. split; [done|]. cbn. by rewrite Hp2.
  - intros t x H Hh. apply Hs in H as (y & Hy & -> & Hne). destruct (Ho y) as [_ Hhy]. rewrite Hhy in *.
    destruct (g _ _ Hy Hh) as (e & He1 & He2). exists e. split; [|done].
    apply map_lookup_filter_Some. split; [done|]. cbn. by rewrite He2.
  - intros t x H. apply Hs in H as (y & Hy & -> & _). destruct (Ho y) as [-> _]. eauto.
Qed.

Lemma SetSessionHead_ok sid id db : tree_ok db -> tree_ok (SetSessionHead sid id db).2.
Proof.
  intros Hok. unfold SetSessionHead. destruct (sessions db !! sid) as [s|] eqn:Es; [|done].
  destruct (String.eqb_spec id EmptyString) as [->|Hne]; cbn [orb].
  - apply set_head_ok; [done|done|by left].
  - destruct (entries db !! id) as [e|] eqn:Ee; [|done].
    destruct (String.eqb_spec (ESession e) sid); [|done]. apply set_head_ok; [done|done|]. right. eauto.
Qed.

(** Appending extends the current branch and nothing else. *)
Lemma AppendEntry_path id sid e db out db' path :
  tree_ok db -> id <> EmptyString -> SessionPath sid db = inl path ->
  AppendEntry id sid e db = (inl out, db') ->
  SessionPath sid db' = inl (path ++ [out]) /\
  (Kind out = Kind e /\ Payload out = Some (default (JObject []) (Payload e)) /\ Commit out = Commit e) /\
  (forall i x, entries db !! i = Some x -> entries db' !! i = Some x /\ pathQuery i db' = pathQuery i db) /\
  (forall t, t <> sid -> SessionPath t db' = SessionPath t db).
Proof.
  intros Hok Hid Hpath H. pose proof (AppendEntry_ok _ _ _ _ _ _ Hok Hid H) as Hok'.
  apply AppendEntry_inv in H as (s & Hs & Hout & Hn & -> & Hi).
  pose proof (head_parent _ _ _ Hok Hs) as Hpar.
  pose proof (insertEntry_ok _ _ _ _ _ _ _ Hok Hid Hpar Hi) as Hok1.
  set (db1 := mkDB (sessions db) (<[id := out]> (entries db))) in *.
  set (db2 := mkDB (<[sid := with_head id s]> (sessions db)) (<[id := out]> (entries db))) in *.
  assert (Hold : forall i x, entries db !! i = Some x -> entries db2 !! i = Some x /\ pathQuery i db2 = pathQuery i db).
  { intros i x Hx. assert (Hsub : entries db ⊆ entries db2) by (by apply insert_subseteq).
    split; [by eapply lookup_weaken|]. by eapply pathQuery_mono. }
  assert (Hnew : pathQuery id db2 = pathQuery id db1).
  { eapply pathQuery_mono; [done|done|done|]. unfold db1. cbn. apply lookup_insert_eq. }
  split; [|split; [by subst out|split; [done|]]].
  - rewrite (SessionPath_eq _ _ _ Hs) in Hpath. injection Hpath as <-.
    rewrite (SessionPath_eq sid (with_head id s) db2) by (cbn; apply lookup_insert_eq). f_equal.
    unfold session_path at 1. cbn [HeadEntryID with_head].
    destruct (String.eqb_spec id EmptyString); [done|]. rewrite Hnew.
    apply (insertEntry_path _ _ _ _ _ _ _ Hok Hid Hpar Hi).
  - intros t Ht. unfold SessionPath, getSession. cbn [sessions db2]. rewrite lookup_insert_ne by done.
    destruct (sessions db !! t) as [x|] eqn:Ex; [|done].
    destruct (String.eqb_spec (HeadEntryID x) EmptyString) as [|Hne]; [done|].
    destruct (tree_head _ Hok _ _ Ex Hne) as (y & Hy & _). f_equal. by eapply Hold.
Qed.

(** ** Write order *)

Lemma insert_by_seq_perm e l : insert_by_seq e l ≡ₚ e :: l.
Proof.
  induction l as [|x l IH]; [done|]. cbn. destruct (Seq e <? Seq x); [done|]. rewrite IH. apply Permutation_swap.
Qed.

Lemma order_by_seq_perm l : order_by_seq l ≡ₚ l.
Proof. induction l as [|x l IH]; [done|]. cbn. by rewrite insert_by_seq_perm, IH. Qed.

Definition older (e f : Entry) : Prop := Seq e <= Seq f.

Lemma insert_by_seq_sorted e l :
  Sorted.StronglySorted older l -> Sorted.StronglySorted older (insert_by_seq e l).
Proof.
  unfold older. induction 1 as [|x l Hl IH Hx]; cbn; [repeat constructor|].
  destruct (Z.ltb_spec (Seq e) (Seq x)).
  - constructor; [by constructor|]. constructor; [lia|]. eapply Forall_impl; [exact Hx|]. intros y Hy. cbn in *. lia.
  - constructor; [done|]. rewrite insert_by_seq_perm. constructor; [lia|done].
Qed.

Lemma order_by_seq_sorted l : Sorted.StronglySorted older (order_by_seq l).
Proof. induction l as [|x l IH]; [constructor|]. cbn. by apply insert_by_seq_sorted. Qed.

Lemma elem_of_Entries sid db e : e ∈ Entries sid db <-> ESession e = sid /\ exists id, entries db !! id = Some e.
Proof. unfold Entries. rewrite order_by_seq_perm. apply elem_of_session_rows. Qed.

Lemma Entries_ids db sid : tree_ok db -> NoDup (map EID (Entries sid db)).
Proof.
  intros Hok. unfold Entries. rewrite order_by_seq_perm. unfold session_rows. rewrite map_map.
  assert (Hall : Forall (fun p => entries db !! p.1 = Some p.2)
    (base.filter (fun p : string * Entry => ESession p.2 = sid) (map_to_list (entries db)))).
  { apply Forall_forall. intros [i e] Hp. apply list_elem_of_filter in Hp as [_ Hp]. by apply elem_of_map_to_list in Hp. }
  assert (Heq : map (fun p : string * Entry => EID p.2)
      (base.filter (fun p : string * Entry => ESession p.2 = sid) (map_to_list (entries db))) =
    map fst (base.filter (fun p : string * Entry => ESession p.2 = sid) (map_to_list (entries db)))).
  { apply map_ext_Forall. eapply Forall_impl; [exact Hall|]. intros [i e] Hp. cbn in *. by destruct (tree_key _ Hok _ _ Hp). }
  rewrite Heq. apply (NoDup_fmap_fst (base.filter _ (map_to_list (entries db)))).
  - intros i e f H1 H2. apply list_elem_of_filter in H1 as [_ H1]. apply list_elem_of_filter in H2 as [_ H2].
    apply elem_of_map_to_list in H1, H2. congruence.
  - apply NoDup_filter, NoDup_map_to_list.
Qed.

(** In write order an entry comes after its parent. *)
Lemma Entries_parents db sid k e l :
  tree_ok db -> Entries sid db = k ++ e :: l -> ParentID e <> EmptyString -> ParentID e ∈ map EID k.
Proof.
  intros Hok H Hp.
  assert (He : e ∈ Entries sid db) by (rewrite H; set_solver).
  pose proof (order_by_seq_sorted (session_rows sid db)) as Hs. fold (Entries sid db) in Hs. rewrite H in Hs.
  apply elem_of_Entries in He as [Hsid [i Hi]].
  destruct (tree_parent _ Hok _ _ Hi Hp) as (p & Hpe & Hps & Hlt).
  assert (Hin : p ∈ k ++ e :: l) by (rewrite <- H; apply elem_of_Entries; split; [congruence|eauto]).
  destruct (tree_key _ Hok _ _ Hpe) as [Hid _]. rewrite <- Hid. apply list_elem_of_fmap_2.
  apply elem_of_app in Hin as [?|Hin]; [done|]. exfalso.
  assert (Hge : Seq e <= Seq p); [|lia]. clear -Hs Hin. induction k as [|x k IH]; cbn in Hs.
  - inversion Hs as [|y l' Hl Hall]; subst. apply elem_of_cons in Hin as [->|Hin]; [lia|].
    rewrite Forall_forall in Hall. by apply Hall.
  - inversion Hs; subst. by apply IH.
Qed.

(** ** A database *)

Definition ex_empty : DB := mkDB ∅ ∅.

Definition ex_new_session : DSession :=
  mkDSession "s" "w" "title" false EmptyString EmptyString EmptyString None EmptyString (JObject []) false false.

Definition ex_entry (k : EntryKind) (c : string) : Entry :=
  mkEntry EmptyString EmptyString EmptyString 0 k (Some (JString c)) EmptyString.

(** A session with two messages, and its head moved back to the first. *)
Definition ex_db1 : DB := (createSession "x" ex_new_session ex_empty).2.
Definition ex_db2 : DB := (AppendEntry "e1" "s" (ex_entry KindUser "hello") ex_db1).2.
Definition ex_db3 : DB := (AppendEntry "e2" "s" (ex_entry KindAssistant "hi") ex_db2).2.
Definition ex_db4 : DB := (SetSessionHead "s" "e1" ex_db3).2.

Lemma empty_ok : tree_ok ex_empty.
Proof. by split; unfold ex_empty; cbn; intros; rewrite ?lookup_empty in *. Qed.

Lemma db_step_ok db db' : db_step db db' -> tree_ok db -> tree_ok db'.
Proof.
  destruct 1 as [id sid e db Hid|sid id db|id s db Hh|id ids sid entry o db Hids|sid db|sid ch db|sid title db|sid tools db];
    intros Hok.
  - destruct (AppendEntry id sid e db) as [[out|err] db'] eqn:E.
    + by eapply AppendEntry_ok.
    + by apply AppendEntry_failed in E as ->.
  - by apply SetSessionHead_ok.
  - destruct (createSession id s db) as [[out|err] db'] eqn:E; cbn [snd].
    + apply createSession_inv in E as (_ & Hh' & _ & _ & _ & Hn & ->). apply new_session_ok; [done|done|congruence].
    + unfold createSession in E. repeat (case_match; simplify_eq); done.
  - destruct (ForkSession id ids sid entry o db) as [[out|err] db'] eqn:E; cbn [snd].
    + destruct (ForkSession_spec _ _ _ _ _ _ _ _ Hok Hids E) as [copies Hf]. apply Hf.
    + unfold ForkSession in E. repeat (case_match; simplify_eq/=); done.
  - by apply DeleteSession_ok.
  - unfold UpdateSession. destruct (sessions db !! sid) as [s|] eqn:Es; [|done]. cbn [snd].
    by eapply same_head_ok.
  - unfold TitleUntitledSession. destruct (sessions db !! sid) as [s|] eqn:Es; [|done].
    destruct (Untitled s); [|done]. cbn [snd]. by eapply same_head_ok.
  - unfold SetSessionTools. destruct (sessions db !! sid) as [s|] eqn:Es; [|done]. cbn [snd]. by eapply same_head_ok.
Qed.

Lemma ex_db4_ok : tree_ok ex_db4.
Proof.
  assert (H1 : tree_ok ex_db1) by (eapply db_step_ok; [apply step_create|apply empty_ok]; done).
  assert (H2 : tree_ok ex_db2) by (eapply db_step_ok; [by apply step_append|exact H1]).
  assert (H3 : tree_ok ex_db3) by (eapply db_step_ok; [by apply step_append|exact H2]).
  eapply db_step_ok; [apply step_set_head|exact H3].
Qed.

(** ** Claims *)

(** C9: The session tables stay a tree. From an empty database, whatever
    transactions run and whether they succeed, every entry belongs to a
    session and has a sequence number of its own there, its parent is an
    earlier entry of the same session, and a session's head is one of its own
    entries. *)
Theorem store_keeps_tree db :
  rtc db_step ex_empty db ->
  (forall id e, entries db !! id = Some e -> EID e = id /\ is_Some (sessions db !! ESession e) /\ 1 <= Seq e) /\
  (forall i j e f, entries db !! i = Some e -> entries db !! j = Some f ->
     ESession e = ESession f -> Seq e = Seq f -> i = j) /\
  (forall id e, entries db !! id = Some e -> ParentID e <> EmptyString ->
     exists p, entries db !! ParentID e = Some p /\ ESession p = ESession e /\ Seq p < Seq e) /\
  (forall sid s, sessions db !! sid = Some s -> HeadEntryID s <> EmptyString ->
     exists e, entries db !! HeadEntryID s = Some e /\ ESession e = sid).
Proof.
  intros H. assert (Hok : tree_ok db).
  { pose proof empty_ok as H0. revert H0. induction H as [|db1 db2 db3 Hs Hr IH]; [done|].
    intros H0. by eapply IH, db_step_ok. }
  destruct Hok as [a b c d f g k]. split; [|done]. intros id e He. destruct (a _ _ He). eauto.
Qed.

Lemma store_keeps_tree_witness :
  exists e, entries ex_db3 !! "e2" = Some e /\ ParentID e <> EmptyString /\
    exists p, entries ex_db3 !! ParentID e = Some p /\ ESession p = ESession e /\ Seq p < Seq e.
Proof.
  assert (H : rtc db_step ex_empty ex_db3).
  { eapply rtc_l; [by apply (step_create "x" ex_new_session)|].
    eapply rtc_l; [by apply (step_append "e1" "s" (ex_entry KindUser "hello"))|].
    apply rtc_once. by apply (step_append "e2" "s" (ex_entry KindAssistant "hi")). }
  destruct (store_keeps_tree ex_db3 H) as (_ & _ & Hp & _).
  assert (He : exists e, entries ex_db3 !! "e2" = Some e /\ ParentID e <> EmptyString).
  { eexists. split; [vm_compute; reflexivity|discriminate]. }
  destruct He as (e & He & Hne). exists e. split; [exact He|]. split; [exact Hne|]. exact (Hp "e2"%string e He Hne).
Defined.

(** The path of a session, which becomes the conversation, is the chain
    of ancestors of its head, root first: it starts at an entry without a
    parent, each entry's parent is the one before it, it ends at the head,
    and all of it belongs to the session. *)
Theorem SessionPath_is_ancestry db sid s :
  tree_ok db -> sessions db !! sid = Some s -> HeadEntryID s <> EmptyString ->
  exists path, SessionPath sid db = inl path /\
    (exists e, last path = Some e /\ EID e = HeadEntryID s) /\
    (forall e, head path = Some e -> ParentID e = EmptyString) /\
    (forall i e f, path !! i = Some e -> path !! S i = Some f -> ParentID f = EID e) /\
    Forall (fun e => ESession e = sid) path.
Proof.
  intros Hok Hs Hh. rewrite (SessionPath_eq _ _ _ Hs). eexists. split; [reflexivity|].
  unfold session_path. destruct (String.eqb_spec (HeadEntryID s) EmptyString) as [|_]; [done|].
  destruct (tree_head _ Hok _ _ Hs Hh) as (e & He & Hsid).
  pose proof (pathQuery_path _ _ _ Hok He) as Hp. revert e He Hsid.
  induction Hp as [x Hx Hpx|x l Hx Hpx Hl IH]; intros e He Hsid; rewrite Hx in He; injection He as <-.
  - split; [by exists x|]. split; [by intros ? [= <-]|].
    split; [|by apply Forall_singleton]. by intros [|i] ? ?.
  - destruct (tree_parent _ Hok _ _ Hx Hpx) as (p & Hpe & Hps & _).
    destruct (IH Hpx p Hpe ltac:(congruence)) as ((y & Hy & Hyid) & H2 & H3 & H4).
    split; [exists x; by rewrite last_snoc|]. split; [|split].
    + intros z Hz. apply H2. destruct l; [done|exact Hz].
    + intros i z f Hi Hf. destruct (decide (S i < length l)%nat) as [Hlt|Hge].
      * rewrite !lookup_app_l in * by lia. by eapply H3.
      * assert (Hi' : i = pred (length l) /\ (i < length l)%nat).
        { apply lookup_lt_Some in Hf. rewrite length_app in Hf. cbn in Hf. lia. }
        destruct Hi' as [-> Hlt]. rewrite lookup_app_r in Hf by lia. rewrite lookup_app_l in Hi by done.
        replace (S (pred (length l)) - length l)%nat with 0%nat in Hf by lia. injection Hf as <-.
        rewrite <- last_lookup, Hy in Hi. injection Hi as <-. done.
    + apply Forall_app. split; [done|by apply Forall_singleton].
Qed.

Lemma SessionPath_is_ancestry_witness :
  exists path, SessionPath "s" ex_db4 = inl path /\ exists e, last path = Some e /\ EID e = "e1"%string.
Proof.
  assert (Hs : exists s, sessions ex_db4 !! "s"%string = Some s /\ HeadEntryID s = "e1"%string).
  { eexists. split; [vm_compute; reflexivity|reflexivity]. }
  destruct Hs as (s & Hs & Hh).
  destruct (SessionPath_is_ancestry ex_db4 "s" s ex_db4_ok Hs) as (path & H1 & (e & H2 & H3) & _);
    [by rewrite Hh|]. exists path. split; [exact H1|]. exists e. split; [exact H2|by rewrite H3].
Defined.

(** Appending extends the current branch and nothing else: the session's
    path is the old one and the new entry, which carries the caller's kind,
    payload, and commit; every path there was, on whatever branch, is as it
    was. After a head has been moved to an earlier entry, this is how a
    branch starts. *)
Theorem AppendEntry_extends_path id sid e db out db' path :
  tree_ok db -> id <> EmptyString -> SessionPath sid db = inl path ->
  AppendEntry id sid e db = (inl out, db') ->
  SessionPath sid db' = inl (path ++ [out]) /\
  (Kind out = Kind e /\ Payload out = Some (default (JObject []) (Payload e)) /\ Commit out = Commit e) /\
  (forall i x, entries db !! i = Some x -> entries db' !! i = Some x /\ pathQuery i db' = pathQuery i db) /\
  (forall t, t <> sid -> SessionPath t db' = SessionPath t db).
Proof. apply AppendEntry_path. Qed.

Lemma AppendEntry_extends_path_witness :
  match AppendEntry "e3" "s" (ex_entry KindAssistant "other") ex_db4, SessionPath "s" ex_db4 with
  | (inl out, db'), inl path => SessionPath "s" db' = inl (path ++ [out]) /\
      pathQuery "e2" db' = pathQuery "e2" ex_db4
  | _, _ => False
  end.
Proof.
  destruct (AppendEntry "e3" "s" (ex_entry KindAssistant "other") ex_db4) as [[out|err] db'] eqn:H;
    [|vm_compute in H; discriminate H].
  destruct (SessionPath "s" ex_db4) as [path|err] eqn:Hp; [|vm_compute in Hp; discriminate Hp].
  destruct (AppendEntry_extends_path "e3" "s" _ ex_db4 out db' path ex_db4_ok ltac:(discriminate) Hp H)
    as (H1 & _ & H2 & _). split; [exact H1|].
  assert (He : exists x, entries ex_db4 !! "e2"%string = Some x) by (eexists; vm_compute; reflexivity).
  destruct He as [x Hx]. exact (proj2 (H2 "e2"%string x Hx)).
Defined.

(** A fork is a copy. Its path is the path to the fork entry, entry by
    entry with the same kind, payload, and commit, in rows of its own; the
    session it came from and every other one keep their heads, their entries,
    and their paths. *)
Theorem ForkSession_copies_path id ids sid entry o db f db' :
  tree_ok db -> Forall (fun id => id <> EmptyString) ids ->
  ForkSession id ids sid entry o db = (inl f, db') ->
  (exists copies, SessionPath (SID f) db' = inl copies /\
     Forall2 (fun e c => Kind c = Kind e /\ Payload c = Some (default (JObject []) (Payload e)) /\ Commit c = Commit e)
       (pathQuery entry db) copies /\
     Forall (fun c => ESession c = SID f) copies) /\
  ParentSessionID f = sid /\
  (forall t x, sessions db !! t = Some x -> SessionPath t db' = SessionPath t db).
Proof.
  intros Hok Hids H. destruct (ForkSession_spec _ _ _ _ _ _ _ _ Hok Hids H) as [copies [k1 k2 k3 k4 [k5 _] k6 k7]].
  split; [|split; [done|]].
  - exists copies. split; [done|]. split; [exact k3|done].
  - intros t x Hx. rewrite (SessionPath_eq _ _ _ Hx), (SessionPath_eq _ _ _ (k6 _ _ Hx)). f_equal.
    unfold session_path. destruct (String.eqb_spec (HeadEntryID x) EmptyString) as [|Hne]; [done|].
    destruct (tree_head _ Hok _ _ Hx Hne) as (y & Hy & _). by eapply k7.
Qed.

Lemma ForkSession_copies_path_witness :
  match ForkSession "f" ["c1"; "c2"]%string "s" "e2" (mkForkOptions EmptyString EmptyString) ex_db4 with
  | (inl f, db') => SessionPath "s" db' = SessionPath "s" ex_db4 /\ ParentSessionID f = "s"%string
  | _ => False
  end.
Proof.
  destruct (ForkSession "f" ["c1"; "c2"]%string "s" "e2" (mkForkOptions EmptyString EmptyString) ex_db4) as [[f|err] db'] eqn:H;
    [|vm_compute in H; discriminate H].
  destruct (ForkSession_copies_path "f" ["c1"; "c2"]%string "s" "e2" (mkForkOptions EmptyString EmptyString) ex_db4 f db'
    ex_db4_ok ltac:(repeat constructor; discriminate) H) as (_ & H1 & H2).
  assert (Hs : exists s, sessions ex_db4 !! "s"%string = Some s) by (eexists; vm_compute; reflexivity).
  destruct Hs as [s Hs]. split; [exact (H2 "s"%string s Hs)|exact H1].
Defined.
