(* ===== verification/Session.v ===== *)
(** Session entries and the conversation they stand for (internal/session):
    how a message and a compaction become an entry and come back, which
    entries a run can continue from, and how an outline shows one. *)
From S2P Require Import Prelude GoStr Float64 Json Provider Failure Context Compaction Entries.
From stdpp Require Import options.

(** ** Documents of messages

    [json.Marshal] of a message as the document it denotes. A string that is
    not UTF-8 is written with U+FFFD in place of what is not. *)

Definition to_valid (s : string) : string :=
  of_bytes (concat (map (fun g => if seg_ok g then seg_bytes g else [239; 191; 189]) (segs (bytes_of s)))).

Definition jstring (s : string) : json := JString (to_valid s).

(** A member an [omitempty] tag leaves out when [keep] is false. *)
Definition opt_field (keep : bool) (k : string) (v : json) : list (string * json) :=
  if keep then [(k, v)] else [].

Definition usage_doc (u : Usage) : json :=
  JObject [("input_tokens", JInt (InputTokens u)); ("output_tokens", JInt (OutputTokens u));
           ("total_tokens", JInt (TotalTokens u))]%string.

(** JSON has no number for an infinity or a NaN. *)
Definition float_doc (f : float64) : option json :=
  match f64_text f with Some _ => Some (JFloat f) | None => None end.

Definition timings_doc (t : Timings) : option json :=
  p ← float_doc (PromptMS t); d ← float_doc (DecodeMS t);
  Some (JObject (opt_field (negb (PromptTokens t =? 0)) "prompt_tokens" (JInt (PromptTokens t)) ++
    opt_field (negb (f64_is_zero (PromptMS t))) "prompt_ms" p ++
    opt_field (negb (DecodeTokens t =? 0)) "decode_tokens" (JInt (DecodeTokens t)) ++
    opt_field (negb (f64_is_zero (DecodeMS t))) "decode_ms" d ++
    opt_field (nonempty (TSource t)) "source" (jstring (TSource t)))).

Definition metrics_doc (m : MessageMetrics) : option json :=
  t ← match MTimings m with
      | None => Some []
      | Some t => d ← timings_doc t; Some [("timings"%string, d)]
      end;
  Some (JObject ([("run_id"%string, jstring (MRunID m)); ("usage"%string, usage_doc (MUsage m));
    ("context"%string, usage_doc (MContext m)); ("generation_ms"%string, JInt (GenerationMS m));
    ("context_window"%string, JInt (MContextWindow m))] ++ t)).

Definition image_doc (i : Image) : json :=
  JObject [("media_type", jstring (MediaType i)); ("data", JString (of_bytes (base64 (bytes_of (Data i)))));
           ("width", JInt (Width i)); ("height", JInt (Height i))]%string.

(** Valid arguments stay the document they are; malformed ones are quoted. *)
(* @src internal/provider/provider.go 230-245 ToolCall.MarshalJSON *)
Definition call_doc (c : ToolCall) : json :=
  let '(raw, malformed) := args_JSON (Arguments c) in
  JObject ([("id"%string, jstring (CallID c)); ("name"%string, jstring (CallName c));
            ("arguments"%string, if malformed then jstring (Arguments c) else JRaw (raw_json raw))] ++
           opt_field malformed "arguments_malformed" (JBool true)).

Definition message_doc (m : Message) : option json :=
  metrics ← match Metrics m with
            | None => Some []
            | Some mm => d ← metrics_doc mm; Some [("metrics"%string, d)]
            end;
  Some (JObject ([("role"%string, jstring (MRole m))] ++
    opt_field (nonempty (Content m)) "content" (jstring (Content m)) ++
    opt_field (0 <? length (Images m))%nat "images" (JArray (map image_doc (Images m))) ++
    opt_field (nonempty (Reasoning m)) "reasoning" (jstring (Reasoning m)) ++
    opt_field (0 <? length (ToolCalls m))%nat "tool_calls" (JArray (map call_doc (ToolCalls m))) ++
    opt_field (nonempty (ToolCallID m)) "tool_call_id" (jstring (ToolCallID m)) ++
    opt_field (IsError m) "is_error" (JBool true) ++
    metrics ++
    opt_field (Summary m) "summary" (JBool true))).

Definition compaction_doc (c : Compaction) : json :=
  JObject [("summary", jstring (CSummary c)); ("kept", JInt (Kept c)); ("tokens_before", JInt (TokensBefore c));
           ("tokens_after", JInt (TokensAfter c)); ("reason", jstring (Reason c)); ("usage", usage_doc (CUsage c))]%string.

(** ** Reading documents back

    [json.Unmarshal] into the struct; [None] is its error. The documents are
    the program's own, so keys are matched as they are spelled. A missing
    member and a null leave the field at zero. *)

Fixpoint field (k : string) (l : list (string * json)) : json :=
  match l with
  | [] => JNull
  | (x, v) :: l' => if String.eqb x k then v else field k l'
  end.

Definition members (j : json) : option (list (string * json)) :=
  match j with JObject l => Some l | JNull => Some [] | _ => None end.

Definition get_string (j : json) : option string :=
  match j with JNull => Some EmptyString | JString s => Some s | _ => None end.

Definition get_int (j : json) : option Z :=
  match j with
  | JNull => Some 0
  | JInt n => if (- 2 ^ 63 <=? n) && (n <? 2 ^ 63) then Some n else None
  | _ => None
  end.

Definition get_bool (j : json) : option bool :=
  match j with JNull => Some false | JBool b => Some b | _ => None end.

Definition get_float (j : json) : option float64 :=
  match j with JNull => Some f64_zero | JFloat f => Some f | JInt n => Some (f64_of_Z n) | _ => None end.

Definition get_list {A} (f : json -> option A) (j : json) : option (list A) :=
  match j with JNull => Some [] | JArray l => mapM f l | _ => None end.

Definition b64_value (c : Z) : option Z :=
  if (65 <=? c) && (c <=? 90) then Some (c - 65)
  else if (97 <=? c) && (c <=? 122) then Some (c - 71)
  else if (48 <=? c) && (c <=? 57) then Some (c + 4)
  else if c =? 43 then Some 62 else if c =? 47 then Some 63 else None.

(** Standard base64 with padding. *)
Fixpoint unbase64 (l : list Z) : option (list Z) :=
  match l with
  | [] => Some []
  | c1 :: c2 :: c3 :: c4 :: l' =>
      a ← b64_value c1; b ← b64_value c2;
      if (c3 =? 61) && (c4 =? 61) && (length l' =? 0)%nat then Some [a * 4 + b / 16]
      else
        c ← b64_value c3;
        if (c4 =? 61) && (length l' =? 0)%nat then Some [a * 4 + b / 16; (b mod 16) * 16 + c / 4]
        else
          d ← b64_value c4; rest ← unbase64 l';
          Some (a * 4 + b / 16 :: (b mod 16) * 16 + c / 4 :: (c mod 4) * 64 + d :: rest)
  | _ => None
  end.

Definition get_data (j : json) : option string :=
  match j with
  | JNull => Some EmptyString
  | JString s => l ← unbase64 (bytes_of s); Some (of_bytes l)
  | _ => None
  end.

Definition usage_of_doc (j : json) : option Usage :=
  l ← members j;
  i ← get_int (field "input_tokens" l); o ← get_int (field "output_tokens" l); t ← get_int (field "total_tokens" l);
  Some (mkUsage i o t).

Definition timings_of_doc (j : json) : option (option Timings) :=
  match j with
  | JNull => Some None
  | _ =>
      l ← members j;
      pt ← get_int (field "prompt_tokens" l); pm ← get_float (field "prompt_ms" l);
      dt ← get_int (field "decode_tokens" l); dm ← get_float (field "decode_ms" l);
      src ← get_string (field "source" l);
      Some (Some (mkTimings pt pm dt dm src))
  end.

Definition metrics_of_doc (j : json) : option (option MessageMetrics) :=
  match j with
  | JNull => Some None
  | _ =>
      l ← members j;
      r ← get_string (field "run_id" l); u ← usage_of_doc (field "usage" l); c ← usage_of_doc (field "context" l);
      g ← get_int (field "generation_ms" l); w ← get_int (field "context_window" l);
      t ← timings_of_doc (field "timings" l);
      Some (Some (mkMetrics r u c g w t))
  end.

Definition image_of_doc (j : json) : option Image :=
  l ← members j;
  mt ← get_string (field "media_type" l); d ← get_data (field "data" l);
  w ← get_int (field "width" l); h ← get_int (field "height" l);
  Some (mkImage mt d w h).

(** The text of a [json.RawMessage] that holds a scalar or text. *)
Definition raw_text (j : json) : option string :=
  match j with
  | JRaw s => if json_valid s then Some s else None
  | JString s => Some (quote s)
  | JNull => Some "null"%string
  | JBool b => Some (json_bool b)
  | JInt n => Some (itoa n)
  | _ => None
  end.

Definition has_field (k : string) (l : list (string * json)) : bool := existsb (fun p => String.eqb p.1 k) l.

(** [raw] is the document of the raw message, and absent when the member
    is. *)
(* @src internal/provider/provider.go 204-221 DecodeToolArguments *)
Definition DecodeToolArguments (raw : option json) (malformed : bool) : option ToolArguments :=
  let raw := default (JRaw (chr 123 +:+ chr 125)) raw in
  if malformed then
    match raw with
    | JString s => Some s
    | JRaw s => unquote s
    | JNull => Some EmptyString
    | _ => None
    end
  else raw_text raw.

(* @src internal/provider/provider.go 247-264 ToolCall.UnmarshalJSON *)
Definition call_of_doc (j : json) : option ToolCall :=
  l ← members j;
  id ← get_string (field "id" l); name ← get_string (field "name" l);
  malformed ← get_bool (field "arguments_malformed" l);
  a ← DecodeToolArguments (if has_field "arguments" l then Some (field "arguments" l) else None) malformed;
  Some (mkToolCall id name a).

Definition message_of_doc (j : json) : option Message :=
  l ← members j;
  role ← get_string (field "role" l); content ← get_string (field "content" l);
  images ← get_list image_of_doc (field "images" l); reasoning ← get_string (field "reasoning" l);
  calls ← get_list call_of_doc (field "tool_calls" l); callID ← get_string (field "tool_call_id" l);
  isError ← get_bool (field "is_error" l); metrics ← metrics_of_doc (field "metrics" l);
  summary ← get_bool (field "summary" l);
  Some (mkMessage role content images reasoning calls callID isError metrics summary).

Definition compaction_of_doc (j : json) : option Compaction :=
  l ← members j;
  s ← get_string (field "summary" l); k ← get_int (field "kept" l);
  b ← get_int (field "tokens_before" l); a ← get_int (field "tokens_after" l);
  r ← get_string (field "reason" l); u ← usage_of_doc (field "usage" l);
  Some (mkCompaction s k b a r u).

(** ** Entries *)

(** What a [jsonb] column gives back: the document, with the text parts in
    the database's spelling. *)
Fixpoint jsonb (respell : string -> string) (j : json) : json :=
  match j with
  | JRaw s => JRaw (respell s)
  | JArray l => JArray (map (jsonb respell) l)
  | JObject l => JObject (map (fun p => (p.1, jsonb respell p.2)) l)
  | _ => j
  end.

(* @src internal/session/message.go 116-128 kindOf *)
Definition kindOf (role : Role) : EntryKind + GoError :=
  if String.eqb role RoleUser then inl KindUser
  else if String.eqb role RoleAssistant then inl KindAssistant
  else if String.eqb role RoleTool then inl KindToolResult
  else inr (ErrText ("record message: unknown role " +:+ go_quote role)).

(* @src internal/session/message.go 34-55 withArguments *)
Definition withArguments (m : Message) : Message :=
  with_calls (map (fun c => if String.eqb (Arguments c) EmptyString
                            then mkToolCall (CallID c) (CallName c) (chr 123 +:+ chr 125) else c) (ToolCalls m)) m.

Definition new_entry (kind : EntryKind) (payload : json) (commit : string) : Entry :=
  mkEntry EmptyString EmptyString EmptyString 0 kind (Some payload) commit.

(* @src internal/session/message.go 12-32 MessageEntry *)
Definition MessageEntry (m : Message) (commit : string) : Entry + GoError :=
  match kindOf (MRole m) with
  | inr err => inr err
  | inl kind =>
      match message_doc (withArguments m) with
      | None => inr (ErrText ("encode " +:+ MRole m +:+ " message: unsupported value"))
      | Some payload => inl (new_entry kind payload commit)
      end
  end.

(** [respell] is how the database spells a document again, and [spell] how it
    spells a whole payload. *)
Section read.
Context (respell : string -> string) (spell : json -> string).

Definition doc_of (e : Entry) : json := jsonb respell (default JNull (Payload e)).

(* @src internal/session/message.go 57-71 Message *)
Definition entry_message (e : Entry) : option Message + GoError :=
  if existsb (String.eqb (Kind e)) [KindUser; KindAssistant; KindToolCall; KindToolResult] then
    match message_of_doc (doc_of e) with
    | Some m => inl (Some m)
    | None => inr (ErrText ("decode " +:+ Kind e +:+ " entry " +:+ EID e))
    end
  else inl None.

(* @src internal/session/message.go 98-105 CompactionEntry *)
Definition CompactionEntry (c : Compaction) : Entry := new_entry KindCompaction (compaction_doc c) EmptyString.

(* @src internal/session/message.go 107-114 CompactionOf *)
Definition CompactionOf (e : Entry) : Compaction + GoError :=
  match compaction_of_doc (doc_of e) with
  | Some c => inl c
  | None => inr (ErrText ("decode compaction entry " +:+ EID e))
  end.

Fixpoint entry_messages (out : list Message) (es : list Entry) : list Message + GoError :=
  match es with
  | [] => inl out
  | e :: es' =>
      if String.eqb (Kind e) KindCompaction then
        match CompactionOf e with
        | inr err => inr err
        | inl c => entry_messages (Compacted out c) es'
        end
      else match entry_message e with
           | inr err => inr err
           | inl (Some m) => entry_messages (out ++ [m]) es'
           | inl None => entry_messages out es'
           end
  end.

(* @src internal/session/message.go 73-96 Messages *)
Definition Messages (es : list Entry) : list Message + GoError := entry_messages [] es.

(** ** Where a run can continue *)

(* @src internal/session/resume.go 23-49 pendingCalls *)
Definition pendingCalls (parent : list string) (e : Entry) : list string :=
  match entry_message e with
  | inl (Some m) =>
      if (0 <? length (ToolCalls m))%nat then parent ++ map CallID (ToolCalls m)
      else if negb (String.eqb (MRole m) RoleTool) then parent
      else remove_first (ToolCallID m) parent
  | _ => parent
  end.

(* @src internal/session/resume.go 51-61 PathResumable *)
Definition PathResumable (path : list Entry) : bool :=
  match foldl pendingCalls [] path with [] => true | _ => false end.

(** The entries in write order, each after its parent. *)
Fixpoint resumable_go (pending : gmap string (list string)) (out : gmap string bool) (es : list Entry)
    : gmap string bool :=
  match es with
  | [] => out
  | e :: es' =>
      let left := pendingCalls (default [] (pending !! ParentID e)) e in
      resumable_go (<[EID e := left]> pending) (<[EID e := match left with [] => true | _ => false end]> out) es'
  end.

(* @src internal/session/resume.go 63-76 resumableSet *)
Definition resumableSet (es : list Entry) : gmap string bool := resumable_go ∅ ∅ es.

(* @src internal/session/resume.go 78-88 Tree.Resumable *)
Definition Resumable (sid id : string) (db : DB) : bool + GoError :=
  match EntryPath sid id db with
  | inr err => inr err
  | inl path => inl (PathResumable path)
  end.

(** ** Outlines *)

(* @src internal/session/outline.go 13-16 previewLimit *)
Definition previewLimit : Z := 80.

(** Everything up to the first carriage return or newline. *)
Fixpoint first_line (s : string) : option string :=
  match s with
  | EmptyString => None
  | String a s' =>
      if (byte_of a =? 13) || (byte_of a =? 10) then Some EmptyString
      else l ← first_line s'; Some (String a l)
  end.

(* @src internal/session/outline.go 99-110 shorten *)
Definition shorten (text : string) : string :=
  let text := trim_space text in
  let text := match first_line text with
              | Some l => trim_space l +:+ " ..."
              | None => text
              end in
  let rs := runes text in
  if previewLimit <? Z.of_nat (length rs)
  then trim_space (string_of_runes (take (Z.to_nat previewLimit) rs)) +:+ " ..."
  else text.

(* @src internal/session/outline.go 62-97 preview *)
Definition preview (e : Entry) : string :=
  let note :=
    match entry_message e with
    | inl (Some m) =>
        let text := trim_space (Content m) in
        if nonempty text then shorten text
        else
          let n := Z.of_nat (length (Images m)) in
          if n =? 1 then "1 image"
          else if 1 <? n then itoa n +:+ " images"
          else if (0 <? length (ToolCalls m))%nat
               then shorten ("calls " +:+ join (map CallName (ToolCalls m)) ", ")
          else EmptyString
    | _ =>
        match (l ← members (doc_of e); get_string (field "text" l)) with
        | Some t => if nonempty t then shorten t else shorten (spell (doc_of e))
        | None => shorten (spell (doc_of e))
        end
    end in
  if String.eqb (Kind e) KindCompaction then
    match CompactionOf e with
    | inl c => "compacted about " +:+ itoa (TokensBefore c) +:+ " tokens into a summary"
    | inr _ => note
    end
  else note.

(* @src internal/session/outline.go 18-36 Node *)
Record Node := mkNode {
  NID : string;
  NParentID : string;
  NKind : EntryKind;
  NPreview : string;
  NCommit : string;
  NResumable : bool;
}.

(* @src internal/session/outline.go 38-60 Tree.Outline *)
Definition Outline (sid : string) (db : DB) : list Node :=
  let es := Entries.Entries sid db in
  let resumable := resumableSet es in
  map (fun e => mkNode (EID e) (ParentID e) (Kind e) (preview e) (Commit e)
                  (default false (resumable !! EID e))) es.

(** ** The agent's store *)

(* @src internal/session/tree.go 27-35 Tree.AppendMessage *)
Definition AppendMessage (id sid : string) (m : Message) (commit : string) (db : DB) : (Entry + GoError) * DB :=
  match MessageEntry m commit with
  | inr err => (inr err, db)
  | inl e => AppendEntry id sid e db
  end.

(** [commit] is the workspace's HEAD when the store has a [CommitFunc]. *)
(* @src internal/session/store.go 31-44 Store.Append *)
Definition Append (id sid : string) (m : Message) (commit : option (string + GoError)) (db : DB)
    : option GoError * DB :=
  let commit := if String.eqb (MRole m) RoleAssistant then commit else None in
  match commit with
  | Some (inr err) => (Some (ErrWrap ("read workspace commit for session " +:+ sid) err), db)
  | _ =>
      match AppendMessage id sid m (match commit with Some (inl c) => c | _ => EmptyString end) db with
      | (inr err, db) => (Some err, db)
      | (inl _, db) => (None, db)
      end
  end.

(* @src internal/session/store.go 46-54 Store.AppendCompaction *)
Definition AppendCompaction (id sid : string) (c : Compaction) (db : DB) : option GoError * DB :=
  match AppendEntry id sid (CompactionEntry c) db with
  | (inr err, db) => (Some err, db)
  | (inl _, db) => (None, db)
  end.

(* @src internal/session/tree.go 57-64 Tree.Messages *)
Definition TreeMessages (sid : string) (db : DB) : list Message + GoError :=
  match SessionPath sid db with
  | inr err => inr err
  | inl path => Messages path
  end.

(** What [Load] gives the agent: the session's ids and its conversation. *)
(* @src internal/session/store.go 56-74 Store.Load *)
Definition Load (sid : string) (db : DB) : (string * string * list Message) + GoError :=
  match getSession sid db with
  | inr err => inr err
  | inl s =>
      match TreeMessages sid db with
      | inr err => inr err
      | inl ms => inl (SID s, SWorkspaceID s, ms)
      end
  end.

End read.

(* @src internal/session/tree.go 37-48 Tree.Head *)
Definition Head (sid : string) (db : DB) : Entry + GoError :=
  match getSession sid db with
  | inr err => inr err
  | inl s =>
      if String.eqb (HeadEntryID s) EmptyString
      then inr (ErrWrap ("read head of session " +:+ sid) ErrNotFound)
      else match getEntry (HeadEntryID s) db with
           | inl e => inl e
           | inr err => inr (wrap ("read entry " +:+ HeadEntryID s) err)
           end
  end.
