(* ===== verification/SessionSpec.v ===== *)
(** Entries come back as the messages they were made from, and a path of
    entries stands for the conversation the agent's log stands for. *)
From S2P Require Import Prelude GoStr Float64 Json Provider Sampling Failure Tool Conversation Context.
From S2P Require Import Compaction Summary World Stream ContextFile Agent Outside AgentSpec Entries.
From S2P Require Import EntriesClaims Session.
From stdpp Require Import options.

#[local] Set Default Proof Using "Type*".

Ltac Zify.zify_post_hook ::= Z.to_euclidean_division_equations.

(** ** Base64 *)

Definition byte (z : Z) : Prop := 0 <= z < 256.

Lemma b64_all : forallb (fun n => bool_decide (b64_value (b64_digit n) = Some n /\ b64_digit n <> 61 /\
  (0 <= b64_digit n) /\ (b64_digit n < 256))) (seqZ 0 64) = true.
Proof. vm_compute. reflexivity. Qed.

Lemma b64_digit_spec n : 0 <= n < 64 ->
  b64_value (b64_digit n) = Some n /\ (b64_digit n =? 61) = false /\ byte (b64_digit n).
Proof.
  intros H. pose proof b64_all as Ha. rewrite forallb_forall in Ha.
  specialize (Ha n). rewrite <- list_elem_of_In, elem_of_seqZ in Ha. specialize (Ha ltac:(lia)).
  apply bool_decide_eq_true in Ha as (H1 & H2 & H3 & H4). split; [done|]. split; [by apply Z.eqb_neq|by split].
Qed.

Lemma unbase64_base64 l : Forall byte l -> unbase64 (base64 l) = Some l.
Proof.
  remember (length l) as n eqn:Hn. revert l Hn. induction n as [n IH] using lt_wf_ind. intros l -> Hl.
  unfold byte in Hl.
  destruct l as [|a [|b [|c l]]]; [done| | |];
    repeat match goal with H : Forall _ (_ :: _) |- _ => apply Forall_cons in H as [? H] end.
  - cbn [base64 unbase64]. destruct (b64_digit_spec (a / 4)) as (E1 & _ & _); [lia|].
    destruct (b64_digit_spec ((a mod 4) * 16)) as (E2 & _ & _); [lia|]. rewrite E1, E2. cbn. do 2 f_equal. lia.
  - cbn [base64 unbase64]. destruct (b64_digit_spec (a / 4)) as (E1 & _ & _); [lia|].
    destruct (b64_digit_spec ((a mod 4) * 16 + b / 16)) as (E2 & _ & _); [lia|].
    destruct (b64_digit_spec ((b mod 16) * 4)) as (E3 & E4 & _); [lia|]. rewrite E1, E2. cbn [mbind option_bind].
    rewrite E4. cbn [andb]. rewrite E3. cbn. f_equal. f_equal; [lia|f_equal; lia].
  - cbn [base64 unbase64]. destruct (b64_digit_spec (a / 4)) as (E1 & _ & _); [lia|].
    destruct (b64_digit_spec ((a mod 4) * 16 + b / 16)) as (E2 & _ & _); [lia|].
    destruct (b64_digit_spec ((b mod 16) * 4 + c / 64)) as (E3 & E4 & _); [lia|].
    destruct (b64_digit_spec (c mod 64)) as (E5 & E6 & _); [lia|].
    rewrite E1, E2. cbn [mbind option_bind]. rewrite E4. cbn [andb]. rewrite E3. cbn [mbind option_bind]. rewrite E6.
    cbn [andb]. rewrite E5. cbn [mbind option_bind]. rewrite (IH (length l)) by (cbn; auto with lia).
    cbn. f_equal. f_equal; [lia|]. f_equal; [lia|]. f_equal. lia.
Qed.

Lemma base64_range l : Forall byte l -> Forall byte (base64 l).
Proof.
  remember (length l) as n eqn:Hn. revert l Hn. induction n as [n IH] using lt_wf_ind. intros l -> Hl.
  assert (H61 : byte 61) by (unfold byte; lia).
  destruct l as [|a [|b [|c l]]]; [constructor| | |];
    repeat match goal with H : Forall _ (_ :: _) |- _ => apply Forall_cons in H as [? H] end; cbn [base64];
    unfold byte in *; repeat (apply Forall_cons; split); try done; try (apply b64_digit_spec; lia); try constructor.
  apply (IH (length l)); [cbn; lia|done|done].
Qed.

Lemma get_data_doc d : get_data (JString (of_bytes (base64 (bytes_of d)))) = Some d.
Proof.
  unfold get_data. rewrite bytes_of_bytes by apply base64_range, bytes_of_range.
  rewrite unbase64_base64 by apply bytes_of_range. cbn. by rewrite of_bytes_of.
Qed.

(** ** Members *)

Lemma field_opt k keep k' v l :
  field k (opt_field keep k' v ++ l) = if keep && String.eqb k' k then v else field k l.
Proof. by destruct keep. Qed.

Lemma field_jsonb f k l : field k (map (fun p => (p.1, jsonb f p.2)) l) = jsonb f (field k l).
Proof. induction l as [|[x v] l IH]; [done|]. cbn. destruct (String.eqb x k); [done|exact IH]. Qed.

Lemma has_field_jsonb f k l : has_field k (map (fun p => (p.1, jsonb f p.2)) l) = has_field k l.
Proof. unfold has_field. induction l as [|[x v] l IH]; [done|]. cbn. by rewrite IH. Qed.

(** Values a document keeps as they are. *)
Definition int_ok (n : Z) : Prop := - 2 ^ 63 <= n < 2 ^ 63.
Definition text_ok (s : string) : Prop := to_valid s = s.
Definition float_ok (f : float64) : Prop := is_Some (f64_text f) /\ (f64_is_zero f = true -> f = f64_zero).

Lemma get_int_ok n : int_ok n -> get_int (JInt n) = Some n.
Proof.
  unfold int_ok, get_int. intros [H1 H2]. destruct (Z.leb_spec (- 2 ^ 63) n); [|lia].
  by destruct (Z.ltb_spec n (2 ^ 63)); [|lia].
Qed.

Lemma get_int_opt n : int_ok n -> get_int (if negb (n =? 0) then JInt n else JNull) = Some n.
Proof. intros H. destruct (Z.eqb_spec n 0) as [->|]; [done|]. by apply get_int_ok. Qed.

Lemma get_string_ok s : text_ok s -> get_string (jstring s) = Some s.
Proof. unfold text_ok, jstring. cbn. by intros ->. Qed.

Lemma get_string_opt s : text_ok s -> get_string (if nonempty s then jstring s else JNull) = Some s.
Proof.
  intros H. unfold nonempty. destruct (String.eqb_spec s EmptyString) as [->|]; [done|]. by apply get_string_ok.
Qed.

Lemma get_float_opt f : float_ok f -> get_float (if negb (f64_is_zero f) then JFloat f else JNull) = Some f.
Proof. intros [_ H]. destruct (f64_is_zero f) eqn:E; [cbn; by rewrite H|done]. Qed.

Definition usage_ok (u : Usage) : Prop := int_ok (InputTokens u) /\ int_ok (OutputTokens u) /\ int_ok (TotalTokens u).

Lemma usage_of_usage_doc u : usage_ok u -> usage_of_doc (usage_doc u) = Some u.
Proof.
  intros (H1 & H2 & H3). unfold usage_of_doc, usage_doc. cbn -[get_int].
  rewrite !get_int_ok by done. by destruct u.
Qed.

Definition timings_ok (t : Timings) : Prop :=
  int_ok (PromptTokens t) /\ float_ok (PromptMS t) /\ int_ok (DecodeTokens t) /\ float_ok (DecodeMS t) /\ text_ok (TSource t).

Lemma float_doc_ok f : float_ok f -> float_doc f = Some (JFloat f).
Proof. intros [[t H] _]. unfold float_doc. by rewrite H. Qed.

Lemma field_last k keep k' v : field k (opt_field keep k' v) = if keep && String.eqb k' k then v else JNull.
Proof. by destruct keep. Qed.

Lemma timings_of_timings_doc f t : timings_ok t ->
  exists d, timings_doc t = Some d /\ timings_of_doc (jsonb f d) = Some (Some t).
Proof.
  intros (H1 & H2 & H3 & H4 & H5). unfold timings_doc. rewrite !float_doc_ok by done. eexists. split; [reflexivity|].
  cbn [jsonb timings_of_doc members mbind option_bind]. rewrite !field_jsonb, !field_opt, !field_last.
  cbn [String.eqb Ascii.eqb Bool.eqb]. rewrite !andb_true_r, !andb_false_r.
  assert (Hj : forall (b : bool) v, (if b then v else JNull) = v \/ (if b then v else JNull) = JNull) by (intros [] ?; auto).
  repeat match goal with |- context [jsonb f (if ?b then JInt ?n else JNull)] =>
    replace (jsonb f (if b then JInt n else JNull)) with (if b then JInt n else JNull) by (by destruct b) end.
  repeat match goal with |- context [jsonb f (if ?b then JFloat ?n else JNull)] =>
    replace (jsonb f (if b then JFloat n else JNull)) with (if b then JFloat n else JNull) by (by destruct b) end.
  repeat match goal with |- context [jsonb f (if ?b then jstring ?n else JNull)] =>
    replace (jsonb f (if b then jstring n else JNull)) with (if b then jstring n else JNull) by (by destruct b) end.
  rewrite !get_int_opt, !get_float_opt, !get_string_opt by done. cbn. by destruct t.
Qed.

Definition metrics_ok (m : MessageMetrics) : Prop :=
  text_ok (MRunID m) /\ usage_ok (MUsage m) /\ usage_ok (MContext m) /\ int_ok (GenerationMS m) /\
  int_ok (MContextWindow m) /\ match MTimings m with Some t => timings_ok t | None => True end.

Lemma timings_doc_object t d : timings_doc t = Some d -> exists l, d = JObject l.
Proof.
  unfold timings_doc. destruct (float_doc (PromptMS t)); [|done]. destruct (float_doc (DecodeMS t)); [|done].
  cbn. intros H. injection H as <-. eauto.
Qed.

Lemma metrics_of_metrics_doc f m : metrics_ok m ->
  exists d, metrics_doc m = Some d /\ metrics_of_doc (jsonb f d) = Some (Some m).
Proof.
  destruct m as [r u c g w t]. intros (H1 & H2 & H3 & H4 & H5 & H6). cbn [MRunID MUsage MContext GenerationMS MContextWindow MTimings] in *.
  assert (Ht : exists l, match t with None => Some [] | Some t => d ← timings_doc t; Some [("timings"%string, d)] end = Some l /\
    timings_of_doc (jsonb f (field "timings" l)) = Some t).
  { destruct t as [t|]; [|by exists []]. destruct (timings_of_timings_doc f t H6) as (d & Hd & Hr).
    exists [("timings"%string, d)]. by rewrite Hd. }
  destruct Ht as (l & Hl & Hr). unfold metrics_doc. cbn [MTimings MRunID MUsage MContext GenerationMS MContextWindow].
  rewrite Hl. cbn [mbind option_bind]. eexists. split; [reflexivity|].
  cbn [jsonb metrics_of_doc members mbind option_bind]. rewrite !field_jsonb.
  cbn [field app String.eqb Ascii.eqb Bool.eqb]. cbn [jsonb jstring].
  rewrite Hr, !get_int_ok by done. unfold text_ok in H1. cbn [get_string]. rewrite H1.
  change (jsonb f (usage_doc u)) with (usage_doc u). change (jsonb f (usage_doc c)) with (usage_doc c).
  rewrite !usage_of_usage_doc by done. done.
Qed.

Definition image_ok (i : Image) : Prop := text_ok (MediaType i) /\ int_ok (Width i) /\ int_ok (Height i).

Lemma image_of_image_doc f i : image_ok i -> image_of_doc (jsonb f (image_doc i)) = Some i.
Proof.
  destruct i as [mt d w h]. intros (H1 & H2 & H3). cbn [MediaType Width Height] in *.
  unfold image_of_doc, image_doc. cbn [jsonb map members mbind option_bind field String.eqb Ascii.eqb Bool.eqb fst snd MediaType Data Width Height].
  rewrite !get_int_ok, get_data_doc by done. cbn [jsonb jstring get_string]. unfold text_ok in H1. by rewrite H1.
Qed.

(** A call whose names are text, and whose arguments are text or JSON. *)
Definition call_ok (c : ToolCall) : Prop :=
  text_ok (CallID c) /\ text_ok (CallName c) /\ (json_valid (Arguments c) = true \/ text_ok (Arguments c)).

Section read.
  Context (respell : string -> string) (Hrespell : forall s, json_valid (respell s) = true).

(** A call as the database gives it back: valid arguments are the same
    document in the database's spelling, malformed ones the same text. *)
Definition stored_call (c : ToolCall) : ToolCall :=
  let '(raw, malformed) := args_JSON (Arguments c) in
  mkToolCall (CallID c) (CallName c) (if malformed then Arguments c else respell (raw_json raw)).

Definition stored_message (m : Message) : Message := with_calls (map stored_call (ToolCalls m)) m.

Lemma call_of_call_doc c : call_ok c -> call_of_doc (jsonb respell (call_doc c)) = Some (stored_call c).
Proof.
  destruct c as [id name args]. intros (H1 & H2 & H3). cbn [CallID CallName Arguments] in *.
  unfold call_of_doc, call_doc, stored_call. cbn [CallID CallName Arguments].
  destruct (args_JSON args) as [raw mal] eqn:Ea. cbn [jsonb members mbind option_bind]. rewrite !field_jsonb, has_field_jsonb.
  unfold text_ok in *.
  assert (Hcommon : forall v tl, field "id" ([("id"%string, jstring id); ("name"%string, jstring name); ("arguments"%string, v)] ++ tl) = jstring id /\
    field "name" ([("id"%string, jstring id); ("name"%string, jstring name); ("arguments"%string, v)] ++ tl) = jstring name /\
    field "arguments" ([("id"%string, jstring id); ("name"%string, jstring name); ("arguments"%string, v)] ++ tl) = v /\
    has_field "arguments" ([("id"%string, jstring id); ("name"%string, jstring name); ("arguments"%string, v)] ++ tl) = true /\
    field "arguments_malformed" ([("id"%string, jstring id); ("name"%string, jstring name); ("arguments"%string, v)] ++ tl) = field "arguments_malformed" tl) by done.
  match goal with |- context [("arguments"%string, ?v)] => match goal with |- context [opt_field ?b ?k ?j] =>
    destruct (Hcommon v (opt_field b k j)) as (-> & -> & -> & -> & ->) end end.
  cbn [jsonb jstring get_string mbind option_bind]. rewrite H1, H2. cbn [mbind option_bind].
  destruct mal; cbn [opt_field field String.eqb Ascii.eqb Bool.eqb jsonb get_bool mbind option_bind].
  - assert (Hargs : to_valid args = args).
    { destruct H3 as [H3|H3]; [|done]. unfold args_JSON in Ea. destruct (String.eqb_spec args EmptyString) as [->|Hne].
      - cbn [json_valid] in Ea. by vm_compute in Ea.
      - rewrite H3 in Ea. done. }
    cbn. by rewrite Hargs.
  - unfold DecodeToolArguments. cbn [from_option Datatypes.id raw_text]. by rewrite Hrespell.
Qed.

Definition message_ok (m : Message) : Prop :=
  text_ok (Content m) /\ Forall image_ok (Images m) /\ text_ok (Reasoning m) /\ Forall call_ok (ToolCalls m) /\
  text_ok (ToolCallID m) /\ match Metrics m with Some mm => metrics_ok mm | None => True end.

Lemma get_list_opt {A B} (f : json -> option A) (g : B -> A) (doc : B -> json) (l : list B) :
  Forall (fun x => f (jsonb respell (doc x)) = Some (g x)) l ->
  get_list f (jsonb respell (if (0 <? length l)%nat then JArray (map doc l) else JNull)) = Some (map g l).
Proof.
  intros H. destruct l as [|x l]; [done|]. change (0 <? length (x :: l))%nat with true. cbv iota. cbn [jsonb get_list].
  rewrite map_map. induction H as [|y k Hy Hk IH]; [done|]. cbn [map mapM]. by rewrite Hy, IH.
Qed.

Lemma get_bool_opt (b : bool) : get_bool (jsonb respell (if b then JBool true else JNull)) = Some b.
Proof. by destruct b. Qed.

Lemma get_string_opt_jsonb s : text_ok s ->
  get_string (jsonb respell (if nonempty s then jstring s else JNull)) = Some s.
Proof. intros H. rewrite <- (get_string_opt s H). by destruct (nonempty s). Qed.

Lemma message_of_message_doc m : message_ok m -> text_ok (MRole m) ->
  exists d, message_doc m = Some d /\ message_of_doc (jsonb respell d) = Some (stored_message m).
Proof.
  destruct m as [role content images reasoning calls callID isError metrics summary].
  intros (H1 & H2 & H3 & H4 & H5 & H6) H0. cbn [MRole Content Images Reasoning ToolCalls ToolCallID IsError Metrics Summary] in *.
  assert (Hm : exists l, match metrics with None => Some [] | Some mm => d ← metrics_doc mm; Some [("metrics"%string, d)] end = Some l /\
    metrics_of_doc (jsonb respell (field "metrics" l)) = Some metrics /\
    forall k, k <> "metrics"%string -> forall l', field k (l ++ l') = field k l').
  { destruct metrics as [mm|]; [|by exists []]. destruct (metrics_of_metrics_doc respell mm H6) as (d & Hd & Hr).
    exists [("metrics"%string, d)]. rewrite Hd. split; [done|]. split; [done|]. intros k Hk l'.
    cbn [app field]. by destruct (String.eqb_spec "metrics" k). }
  destruct Hm as (l & Hl & Hr & Hskip). unfold message_doc.
  cbn [MRole Content Images Reasoning ToolCalls ToolCallID IsError Metrics Summary]. rewrite Hl. cbn [mbind option_bind].
  eexists. split; [reflexivity|]. unfold message_of_doc. cbn [jsonb members mbind option_bind]. rewrite !field_jsonb.
  assert (Hfm : field "metrics" (l ++ opt_field summary "summary" (JBool true)) = field "metrics" l).
  { clear -Hl. destruct metrics as [mm|]; [|injection Hl as <-; by destruct summary].
    destruct (metrics_doc mm); [|done]. injection Hl as <-. done. }
  cbn [app]. cbn [field]. cbn [String.eqb Ascii.eqb Bool.eqb].
  rewrite !field_opt. cbn [String.eqb Ascii.eqb Bool.eqb]. rewrite !andb_true_r, !andb_false_r.
  rewrite Hfm. rewrite !Hskip, !field_last by discriminate. cbn [String.eqb Ascii.eqb Bool.eqb].
  rewrite !andb_true_r, !andb_false_r, Hr.
  cbn [jsonb jstring]. unfold text_ok in H0. cbn [get_string]. rewrite H0. cbn [mbind option_bind].
  fold (jstring content) (jstring reasoning) (jstring callID).
  rewrite !get_string_opt_jsonb, !get_bool_opt by done. cbn [mbind option_bind].
  rewrite (get_list_opt image_of_doc id image_doc images) by (eapply Forall_impl; [exact H2|]; intros; by apply image_of_image_doc).
  cbn [mbind option_bind].
  rewrite (get_list_opt call_of_doc stored_call call_doc calls) by (eapply Forall_impl; [exact H4|]; intros; by apply call_of_call_doc).
  cbn [mbind option_bind]. unfold stored_message, with_calls. cbn. by rewrite map_id.
Qed.

(** ** Paths of entries *)

Lemma withArguments_ok m : message_ok m -> message_ok (withArguments m).
Proof.
  intros (H1 & H2 & H3 & H4 & H5 & H6). repeat split; try done. unfold withArguments. cbn [ToolCalls with_calls].
  apply Forall_map. eapply Forall_impl; [exact H4|]. intros c (H7 & H8 & H9).
  destruct (String.eqb _ _); [|done]. split; [done|]. split; [done|]. left. vm_compute. reflexivity.
Qed.

(** A message as an entry gives it back: empty arguments are an empty object
    there. *)
Definition kept_message (m : Message) : Message := stored_message (withArguments m).

Lemma kindOf_role role kind : kindOf role = inl kind ->
  existsb (String.eqb kind) [KindUser; KindAssistant; KindToolCall; KindToolResult] = true /\
  String.eqb kind KindCompaction = false /\ text_ok role.
Proof.
  unfold kindOf. destruct (String.eqb_spec role RoleUser) as [->|]; [intros H; by injection H as <-|].
  destruct (String.eqb_spec role RoleAssistant) as [->|]; [intros H; by injection H as <-|].
  destruct (String.eqb_spec role RoleTool) as [->|]; [intros H; by injection H as <-|done].
Qed.

Lemma entry_message_MessageEntry m commit e :
  message_ok m -> MessageEntry m commit = inl e ->
  entry_message respell e = inl (Some (kept_message m)) /\ String.eqb (Kind e) KindCompaction = false.
Proof.
  intros Hm H. unfold MessageEntry in H. destruct (kindOf (MRole m)) as [kind|] eqn:Ek; [|done].
  destruct (kindOf_role _ _ Ek) as (Hk & Hc & Hr).
  destruct (message_of_message_doc (withArguments m) (withArguments_ok m Hm) Hr) as (d & Hd & Hback).
  rewrite Hd in H. injection H as <-. split; [|exact Hc].
  unfold entry_message. cbn [Kind new_entry]. rewrite Hk. unfold doc_of. cbn [Payload new_entry from_option].
  unfold Datatypes.id. by rewrite Hback.
Qed.

Definition compaction_ok (c : Compaction) : Prop :=
  text_ok (CSummary c) /\ int_ok (Kept c) /\ int_ok (TokensBefore c) /\ int_ok (TokensAfter c) /\
  text_ok (Reason c) /\ usage_ok (CUsage c).

Lemma CompactionOf_CompactionEntry c : compaction_ok c -> CompactionOf respell (CompactionEntry c) = inl c.
Proof.
  destruct c as [s k b a r u]. intros (H1 & H2 & H3 & H4 & H5 & H6). cbn [CSummary Kept TokensBefore TokensAfter Reason CUsage] in *.
  unfold CompactionOf, CompactionEntry, doc_of. cbn [Payload new_entry from_option]. unfold Datatypes.id.
  unfold compaction_of_doc, compaction_doc. cbn [jsonb map members mbind option_bind field String.eqb Ascii.eqb Bool.eqb fst snd
    CSummary Kept TokensBefore TokensAfter Reason CUsage]. change (jsonb respell (usage_doc u)) with (usage_doc u).
  unfold text_ok in *. cbn [jsonb jstring get_string]. rewrite H1, H5. cbn [mbind option_bind].
  rewrite !get_int_ok by done. cbn [mbind option_bind]. by rewrite usage_of_usage_doc.
Qed.

(** The entry a stored item becomes. *)
Definition entry_for (i : StoreItem) (e : Entry) : Prop :=
  match i with
  | SMessage m => exists commit, MessageEntry m commit = inl e
  | SCompaction c => e = CompactionEntry c
  end.

Definition item_ok (i : StoreItem) : Prop :=
  match i with SMessage m => message_ok m | SCompaction c => compaction_ok c end.

Definition kept_item (i : StoreItem) : StoreItem :=
  match i with SMessage m => SMessage (kept_message m) | SCompaction c => SCompaction c end.

Lemma entry_messages_replay items es out :
  Forall2 entry_for items es -> Forall item_ok items ->
  entry_messages respell out es = inl (foldl replay_item out (map kept_item items)).
Proof.
  intros H. revert out. induction H as [|i e items es Hie _ IH]; intros out Hok; [done|].
  apply Forall_cons in Hok as [Hi Hok]. cbn [entry_messages map foldl]. destruct i as [m|c]; cbn in Hie, Hi.
  - destruct Hie as [commit He]. destruct (entry_message_MessageEntry m commit e Hi He) as [Hm Hk].
    rewrite Hk, Hm. by apply IH.
  - subst e. cbn [Kind CompactionEntry new_entry]. rewrite String.eqb_refl, CompactionOf_CompactionEntry by done.
    by apply IH.
Qed.

(** Only the roles, calls, and call ids of a message matter to the rule. *)
Lemma kept_message_fields m :
  MRole (kept_message m) = MRole m /\ map CallID (ToolCalls (kept_message m)) = map CallID (ToolCalls m) /\
  ToolCallID (kept_message m) = ToolCallID m.
Proof using respell.
  split; [done|]. split; [|done]. unfold kept_message, stored_message, withArguments. cbn [ToolCalls with_calls].
  rewrite !map_map. apply map_ext. intros c. destruct (String.eqb _ _); unfold stored_call; by destruct (args_JSON _).
Qed.

End read.

(** ** Where a run can continue *)

Section rule.
  Context (respell : string -> string).

(** A history a run can have written: what is said is in its place, and a
    compaction comes where no call is open and leaves a valid conversation. *)
Fixpoint valid_history (out : list Message) (es : list Entry) : Prop :=
  match es with
  | [] => True
  | e :: es' =>
      if String.eqb (Kind e) KindCompaction then
        exists c, CompactionOf respell e = inl c /\ well_formed out /\ well_formed (Compacted out c) /\
          valid_history (Compacted out c) es'
      else match entry_message respell e with
           | inl (Some m) => (exists p, accepts [] (out ++ [m]) = Some p) /\
               (MRole m = RoleTool -> ToolCalls m = []) /\ valid_history (out ++ [m]) es'
           | inl None => valid_history out es'
           | inr _ => False
           end
  end.

Lemma pendingCalls_accept pending e m p :
  entry_message respell e = inl (Some m) -> (MRole m = RoleTool -> ToolCalls m = []) ->
  accept pending m = Some p -> pendingCalls respell pending e = p.
Proof.
  intros Hm Hc. unfold pendingCalls. rewrite Hm. unfold accept, is_tool. case_bool_decide as Hr.
  - rewrite (Hc Hr). cbn [length Nat.ltb Nat.leb]. rewrite Hr, String.eqb_refl. cbn [negb].
    case_bool_decide; [by intros [= <-]|done].
  - destruct pending; [|done]. intros [= <-]. destruct (ToolCalls m) as [|c cs]; [|done].
    cbn. by destruct (String.eqb_spec (MRole m) RoleTool).
Qed.

Lemma valid_history_pending es out pending :
  accepts [] out = Some pending -> valid_history out es ->
  exists ms, entry_messages respell out es = inl ms /\
    accepts [] ms = Some (foldl (pendingCalls respell) pending es).
Proof.
  revert out pending. induction es as [|e es IH]; intros out pending Hp Hv; cbn [entry_messages foldl]; [eauto|].
  cbn [valid_history] in Hv. destruct (String.eqb_spec (Kind e) KindCompaction) as [Hk|_].
  - destruct Hv as (c & Hc & Hw & Hwc & Hv). rewrite Hc.
    assert (Hm : entry_message respell e = inl None) by (unfold entry_message; by rewrite Hk).
    assert (Hpe : pendingCalls respell pending e = pending) by (unfold pendingCalls; by rewrite Hm). rewrite Hpe.
    unfold well_formed in Hw. rewrite Hw in Hp. injection Hp as <-. by apply IH.
  - destruct (entry_message respell e) as [[m|]|err] eqn:Hm; [| |done].
    + destruct Hv as ((p & Ha) & Hc & Hv). pose proof Ha as Ha'. rewrite accepts_app, Hp in Ha'. cbn in Ha'.
      destruct (accept pending m) as [q|] eqn:Eq; [|done]. cbn in Ha'. injection Ha' as <-.
      rewrite (pendingCalls_accept pending e m q Hm Hc Eq). by apply IH.
    + assert (Hpe : pendingCalls respell pending e = pending) by (unfold pendingCalls; by rewrite Hm). rewrite Hpe. by apply IH.
Qed.

(** One pass over the tree finds what the rule says of each path. *)
Lemma resumable_go_spec db es pending out (done_ : list string) :
  tree_ok db ->
  (forall e, e ∈ es -> entries db !! EID e = Some e) ->
  NoDup (map EID es) ->
  (forall e, e ∈ es -> EID e ∉ done_) ->
  (forall i e, entries db !! i = Some e -> i ∈ done_ ->
     pending !! i = Some (foldl (pendingCalls respell) [] (pathQuery i db)) /\
     out !! i = Some (PathResumable respell (pathQuery i db))) ->
  pending !! EmptyString = None ->
  (forall k e l, es = k ++ e :: l -> ParentID e <> EmptyString -> ParentID e ∈ done_ \/ ParentID e ∈ map EID k) ->
  forall i e, entries db !! i = Some e -> i ∈ done_ \/ i ∈ map EID es ->
    resumable_go respell pending out es !! i = Some (PathResumable respell (pathQuery i db)).
Proof.
  intros Hok. revert pending out done_. induction es as [|x es IH]; intros pending out done_ Hes Hnd Hnew Hdone Hempty Hpar i e Hi Hin.
  - cbn. destruct Hin as [Hin|Hin]; [by eapply Hdone|by apply elem_of_nil in Hin].
  - cbn [resumable_go]. cbn [map] in Hnd. apply NoDup_cons in Hnd as [Hx Hnd].
    assert (Hxe : entries db !! EID x = Some x) by (apply Hes, elem_of_cons; by left).
    destruct (tree_key _ Hok _ _ Hxe) as [_ Hxne].
    assert (Hleft : pendingCalls respell (default [] (pending !! ParentID x)) x =
                    foldl (pendingCalls respell) [] (pathQuery (EID x) db)).
    { pose proof (pathQuery_path _ _ _ Hok Hxe) as Hp.
      assert (Hpx : exists l, pathQuery (EID x) db = l ++ [x] /\ (ParentID x = EmptyString -> l = []) /\
        (ParentID x <> EmptyString -> l = pathQuery (ParentID x) db)).
      { inversion Hp as [y Hy Hpy E1 E2|y l Hy Hpy Hl E1 E2].
        - rewrite E1 in Hy. rewrite Hxe in Hy. injection Hy as <-. exists []. done.
        - rewrite E1 in Hy. rewrite Hxe in Hy. injection Hy as <-. exists l. split; [done|]. split; [done|].
          intros _. by rewrite (pathQuery_unique _ _ _ Hok Hl). }
      destruct Hpx as (l & -> & Hroot & Hsome). rewrite foldl_app. cbn [foldl]. f_equal.
      destruct (decide (ParentID x = EmptyString)) as [Hr|Hr]; [by rewrite Hr, Hempty, Hroot|].
      destruct (Hpar [] x es eq_refl Hr) as [Hd|Hd]; [|by apply elem_of_nil in Hd].
      destruct (tree_parent _ Hok _ _ Hxe Hr) as (p & Hpe & _ & _).
      destruct (Hdone _ _ Hpe Hd) as [-> _]. cbn. by rewrite Hsome. }
    apply (IH _ _ (EID x :: done_)) with e; try done.
    + intros y Hy. apply Hes, elem_of_cons. by right.
    + intros y Hy Hc. apply elem_of_cons in Hc as [Hc|Hc].
      * apply Hx. rewrite <- Hc. by apply list_elem_of_fmap_2.
      * eapply Hnew; [apply elem_of_cons; by right|exact Hc].
    + intros j f Hj Hjin. destruct (decide (j = EID x)) as [->|Hne].
      * rewrite !lookup_insert_eq, Hleft. split; [done|]. unfold PathResumable. by destruct (foldl _ _ _).
      * rewrite !lookup_insert_ne by done. apply elem_of_cons in Hjin as [?|Hjin]; [done|]. by eapply Hdone.
    + by rewrite lookup_insert_ne.
    + intros k y l Hkl Hne. destruct (Hpar (x :: k) y l ltac:(by rewrite Hkl) Hne) as [Hd|Hd].
      * left. apply elem_of_cons. by right.
      * cbn [map] in Hd. apply elem_of_cons in Hd as [Hd|Hd]; [left; apply elem_of_cons; by left|by right].
    + cbn [map] in Hin. rewrite elem_of_cons in Hin. rewrite elem_of_cons. tauto.
Qed.
End rule.
