(* ===== verification/SessionClaims.v ===== *)
(** The properties of session entries, with concrete instances. *)
From S2P Require Import Prelude GoStr Float64 Json Provider Sampling Failure Tool Conversation Context.
From S2P Require Import Compaction Summary World Stream ContextFile Agent Outside AgentSpec Entries.
From S2P Require Import EntriesClaims Session SessionSpec.
From stdpp Require Import options.

(** ** Instances *)

(** A database that gives arguments back as it was given them. *)
Definition ex_respell (s : string) : string := if json_valid s then s else "{}".

Lemma ex_respell_valid s : json_valid (ex_respell s) = true.
Proof. unfold ex_respell. destruct (json_valid s) eqn:E; [done|]. vm_compute. reflexivity. Qed.

Definition ex_reply : Message :=
  with_metrics (Some (mkMetrics "run" (mkUsage 10 5 15) (mkUsage 10 5 15) 1200 4096
      (Some (mkTimings 10 (f64_of_Z 250) 4 (f64_lit 5 1) TimedByHarness))))
    (AssistantMessageWithReasoning "I will look" "thinking" [mkToolCall "call-1" "search" EmptyString; mkToolCall "call-2" "bash" "{x"]).

Lemma ex_reply_ok : message_ok ex_reply.
Proof.
  assert (Ht : forall s, String.eqb (to_valid s) s = true -> text_ok s) by (intros s; apply String.eqb_eq).
  assert (Hi : forall n, (- 2 ^ 63 <=? n) && (n <? 2 ^ 63) = true -> int_ok n).
  { intros n H. apply andb_prop in H as [H1 H2]. apply Z.leb_le in H1. apply Z.ltb_lt in H2. by split. }
  assert (Hf : forall f, match f64_text f with Some _ => negb (f64_is_zero f) | None => false end = true -> float_ok f).
  { intros f H. destruct (f64_text f) eqn:E; [|done]. split; [by eexists|]. intros Hz. by rewrite Hz in H. }
  split; [apply Ht; vm_compute; reflexivity|]. split; [constructor|]. split; [apply Ht; vm_compute; reflexivity|].
  split; [|split; [apply Ht; vm_compute; reflexivity|]].
  - constructor; [|constructor; [|constructor]]; (split; [apply Ht; vm_compute; reflexivity|]);
      (split; [apply Ht; vm_compute; reflexivity|right; apply Ht; vm_compute; reflexivity]).
  - cbn [Metrics ex_reply with_metrics]. split; [apply Ht; vm_compute; reflexivity|].
    do 2 (split; [split; [|split]; apply Hi; vm_compute; reflexivity|]).
    do 2 (split; [apply Hi; vm_compute; reflexivity|]). cbn [MTimings].
    split; [apply Hi; vm_compute; reflexivity|]. split; [apply Hf; vm_compute; reflexivity|].
    split; [apply Hi; vm_compute; reflexivity|]. split; [apply Hf; vm_compute; reflexivity|].
    apply Ht; vm_compute; reflexivity.
Qed.

(** ** Claims *)



(** Appending a list of items to a session, one transaction each. *)
Inductive appended (sid : string) : list StoreItem -> DB -> DB -> Prop :=
| appended_nil db : appended sid [] db db
| appended_cons i items id e out db1 db2 db3 :
    id <> EmptyString -> entry_for i e -> AppendEntry id sid e db1 = (inl out, db2) ->
    appended sid items db2 db3 -> appended sid (i :: items) db1 db3.

(** An entry as the table keeps it has the content it was appended with. *)
Lemma entry_messages_content respell es fs out :
  Forall2 (fun e f => Kind f = Kind e /\ Payload f = Some (default (JObject []) (Payload e))) es fs ->
  Forall (fun e => is_Some (Payload e)) es ->
  forall r, entry_messages respell out es = inl r -> entry_messages respell out fs = inl r.
Proof.
  intros H. revert out. induction H as [|e f es fs [Hk Hp] _ IH]; intros out Hs r Hr; [done|].
  apply Forall_cons in Hs as [[p Hs] Hss]. cbn [entry_messages] in *.
  assert (Hd : doc_of respell f = doc_of respell e) by (unfold doc_of; by rewrite Hp, Hs).
  unfold CompactionOf, entry_message in *. rewrite Hk, Hd.
  destruct (String.eqb (Kind e) KindCompaction).
  - destruct (compaction_of_doc _); [|done]. by apply IH.
  - destruct (existsb _ _); [|by apply IH]. destruct (message_of_doc _); [by apply IH|done].
Qed.

Lemma entry_for_payload i e : entry_for i e -> is_Some (Payload e).
Proof.
  destruct i as [m|c]; cbn; [|by intros ->; eexists]. intros [commit H]. unfold MessageEntry in H.
  destruct (kindOf _); [|done]. destruct (message_doc _); [|done]. injection H as <-. by eexists.
Qed.

Lemma entry_messages_app respell es fs out ms :
  entry_messages respell out es = inl ms -> entry_messages respell out (es ++ fs) = entry_messages respell ms fs.
Proof.
  revert out. induction es as [|e es IH]; intros out H; cbn [entry_messages app] in *; [by injection H as ->|].
  destruct (String.eqb _ _); [destruct (CompactionOf respell e); [by apply IH|done]|].
  destruct (entry_message respell e) as [[m|]|]; [by apply IH|by apply IH|done].
Qed.


Definition ex_hi_entry : Entry :=
  match MessageEntry (UserMessage "hi") EmptyString with inl e => e | inr _ => ex_entry KindUser EmptyString end.

Lemma ex_db1_ok : tree_ok ex_db1.
Proof. eapply db_step_ok; [by apply step_create|apply empty_ok]. Qed.

Lemma ex_hi_ok : item_ok (SMessage (UserMessage "hi")).
Proof.
  split; [vm_compute; reflexivity|]. split; [constructor|]. split; [vm_compute; reflexivity|].
  split; [constructor|]. split; [vm_compute; reflexivity|exact I].
Qed.


(** C15: The rule for where a run can continue is the endpoint's rule. For a
    path a run can have written, [PathResumable] is true exactly when the
    conversation the path stands for is one the model can be asked to
    continue. *)
Theorem PathResumable_well_formed respell path :
  valid_history respell [] path ->
  exists ms, Messages respell path = inl ms /\ (PathResumable respell path = true <-> well_formed ms).
Proof.
  intros Hv. destruct (valid_history_pending respell path [] [] eq_refl Hv) as (ms & Hms & Ha).
  exists ms. split; [exact Hms|]. unfold PathResumable, well_formed. rewrite Ha.
  destruct (foldl _ _ _); split; intros H; try done.
Qed.

(** A path that stops in the middle of a turn's tool results. *)
Definition ex_path : list Entry :=
  match MessageEntry (UserMessage "hi") EmptyString, MessageEntry ex_reply "abc",
        MessageEntry (ToolResultMessage "call-2" "ok" false) EmptyString with
  | inl a, inl b, inl c => [a; b; c]
  | _, _, _ => []
  end.

Lemma PathResumable_well_formed_witness :
  exists ms, Messages ex_respell ex_path = inl ms /\ PathResumable ex_respell ex_path = false /\ ~ well_formed ms.
Proof.
  assert (Hv : valid_history ex_respell [] ex_path).
  { vm_compute. split; [eexists; reflexivity|]. split; [intros H; discriminate H|].
    split; [eexists; reflexivity|]. split; [intros H; discriminate H|].
    split; [eexists; reflexivity|]. split; [reflexivity|exact I]. }
  destruct (PathResumable_well_formed ex_respell ex_path Hv) as (ms & H1 & H2).
  assert (Hf : PathResumable ex_respell ex_path = false) by (vm_compute; reflexivity).
  exists ms. split; [exact H1|]. split; [exact Hf|]. intros Hw. rewrite (proj2 H2 Hw) in Hf. discriminate Hf.
Defined.

(** The outline of a tree, made in one pass over it, says of every entry
    what the rule says of the path down to it. *)
Theorem Outline_resumable respell spell sid db n :
  tree_ok db -> n ∈ Outline respell spell sid db ->
  exists path, EntryPath sid (NID n) db = inl path /\ NResumable n = PathResumable respell path.
Proof.
  intros Hok Hn. unfold Outline in Hn. apply list_elem_of_fmap in Hn as (e & -> & He). cbn [NID NResumable].
  apply elem_of_Entries in He as Hrow. destruct Hrow as [Hs [i Hi]]. destruct (tree_key _ Hok _ _ Hi) as [Hid _].
  rewrite <- Hid in Hi. exists (pathQuery (EID e) db). split.
  - unfold EntryPath, entryOfSession. by rewrite Hi, Hs, String.eqb_refl.
  - unfold resumableSet. rewrite (resumable_go_spec respell db (Entries.Entries sid db) ∅ ∅ [] Hok) with (e := e); [done|..].
    + intros f Hf. apply elem_of_Entries in Hf as [_ [j Hj]]. by destruct (tree_key _ Hok _ _ Hj) as [<- _].
    + by apply Entries_ids.
    + intros f _. apply not_elem_of_nil.
    + intros j f _ Hj. by apply elem_of_nil in Hj.
    + apply lookup_empty.
    + intros k f l Hkl Hne. right. by eapply Entries_parents.
    + done.
    + right. by apply list_elem_of_fmap_2.
Qed.

Lemma Outline_resumable_witness :
  exists path, EntryPath "s" "e1" ex_db4 = inl path /\ PathResumable ex_respell path = true.
Proof.
  assert (Hn : exists n, n ∈ Outline ex_respell (fun _ => EmptyString) "s" ex_db4 /\ NID n = "e1"%string /\ NResumable n = true).
  { destruct (Outline ex_respell (fun _ => EmptyString) "s" ex_db4) as [|n l] eqn:E; [vm_compute in E; discriminate E|].
    exists n. split; [apply elem_of_cons; left; reflexivity|].
    vm_compute in E. injection E as <- _. split; reflexivity. }
  destruct Hn as (n & Hn & Hid & Hres).
  destruct (Outline_resumable ex_respell _ "s" ex_db4 n ex_db4_ok Hn) as (path & H1 & H2).
  exists path. rewrite <- Hid. split; [exact H1|by rewrite <- H2].
Defined.
