(* ===== verification/Bus.v ===== *)
(** The event bus (internal/event): topics, subscriptions with bounded
    channels, and the goroutines that emit, subscribe, close, and read, in
    every interleaving, with what a subscriber can rely on. *)
From S2P Require Import Prelude GoStr.
From stdpp Require Import options.

(* @src internal/event/event.go 72-80 Event *)
Record BusEvent := mkEvent { Type_ : string; Topic : string; Time : Z; EPayload : string }.

(* @src internal/event/bus.go 9-13 subscriberBuffer *)
Definition subscriberBuffer : Z := 256.

Definition TypeBusDropped : string := "bus.dropped".
(* @src internal/event/event.go 67-70 TopicGlobal *)
Definition TopicGlobal : string := "global".
(* @src internal/event/event.go 98-99 WorkspaceTopic *)
Definition WorkspaceTopic (id : string) : string := "workspace:" +:+ id.
(* @src internal/event/event.go 101-102 SessionTopic *)
Definition SessionTopic (id : string) : string := "session:" +:+ id.

(** The notice, with the payload [{"dropped": n}]. *)
(* @src internal/event/payload.go 307-311 BusDropped *)
Definition notice (now : Z) (dropped : Z) : BusEvent :=
  mkEvent TypeBusDropped TopicGlobal now ("{" +:+ dq +:+ "dropped" +:+ dq +:+ ":" +:+ itoa dropped +:+ "}").

(** A subscription: what its channel holds, oldest first, and whether the
    channel itself is closed, on which a send would panic. [taken] is what the
    reader has taken out and [wanted] every event offered while it was open
    and of one of its topics: they are for stating what arrives, and the code
    has no such fields. *)
(* @src internal/event/bus.go 76-87 Subscription *)
Record Subscription := mkSub {
  ch : list BusEvent;
  ch_closed : bool;
  topics : gset string;
  dropped : Z;
  closed : bool;
  taken : list BusEvent;
  wanted : list BusEvent;
}.

Definition set_ch x s := mkSub x (ch_closed s) (topics s) (dropped s) (closed s) (taken s) (wanted s).
Definition set_topics x s := mkSub (ch s) (ch_closed s) x (dropped s) (closed s) (taken s) (wanted s).
Definition set_dropped x s := mkSub (ch s) (ch_closed s) (topics s) x (closed s) (taken s) (wanted s).
Definition set_wanted x s := mkSub (ch s) (ch_closed s) (topics s) (dropped s) (closed s) (taken s) x.

(** A send that does not block: it goes through, or the buffer is full, or
    the channel is closed and the program panics. *)
Inductive sent : Type := Sent (s : Subscription) | Full | Panic.

Definition send (e : BusEvent) (s : Subscription) : sent :=
  if ch_closed s then Panic
  else if Z.of_nat (length (ch s)) <? subscriberBuffer then Sent (set_ch (ch s ++ [e]) s)
  else Full.

(** The operations of a subscription; [None] is a panic. *)

(* @src internal/event/bus.go 151-166 Subscription.reportDropped *)
Definition reportDropped (now : Z) (s : Subscription) : option (bool * Subscription) :=
  match send (notice now (dropped s)) s with
  | Sent s' => Some (true, set_dropped 0 s')
  | Full => Some (false, s)
  | Panic => None
  end.

(* @src internal/event/bus.go 131-149 Subscription.deliver *)
Definition deliver (now : Z) (e : BusEvent) (s : Subscription) : option Subscription :=
  if closed s || negb (bool_decide (Topic e ∈ topics s)) then Some s
  else
    let s := set_wanted (wanted s ++ [e]) s in
    let queue s :=
      match send e s with
      | Sent s' => Some s'
      | Full => Some (set_dropped (dropped s + 1) s)
      | Panic => None
      end in
    if 0 <? dropped s then
      match reportDropped now s with
      | Some (true, s') => queue s'
      | Some (false, s') => Some (set_dropped (dropped s' + 1) s')
      | None => None
      end
    else queue s.

(* @src internal/event/bus.go 93-102 Subscription.Subscribe *)
Definition SetTopics (ts : list string) (s : Subscription) : Subscription := set_topics (list_to_set ts) s.

(** The second half of [Close]; closing a closed channel would panic. *)
(* @src internal/event/bus.go 115-129 Subscription.Close *)
Definition close (s : Subscription) : option Subscription :=
  if closed s then Some s
  else if ch_closed s then None
  else Some (mkSub (ch s) true (topics s) (dropped s) true (taken s) (wanted s)).

(** The reader takes the oldest event of the channel. *)
(* @src internal/event/bus.go 89-91 Subscription.Events *)
Definition receive (s : Subscription) : option (BusEvent * Subscription) :=
  match ch s with
  | e :: k => Some (e, mkSub k (ch_closed s) (topics s) (dropped s) (closed s) (taken s ++ [e]) (wanted s))
  | [] => None
  end.

(** The bus: the ids of the subscriptions it knows, and every subscription
    there ever was, which its reader may hold after the bus forgot it. *)
(* @src internal/event/bus.go 15-25 Bus *)
Record Bus := mkBus { next : Z; subs : gset Z; heap : gmap Z Subscription }.

(* @src internal/event/bus.go 27-33 NewBus *)
Definition NewBus : Bus := mkBus 0 ∅ ∅.

(* @src internal/event/bus.go 50-67 BusClaims.Subscribe *)
Definition BusSubscribe (ts : list string) (b : Bus) : Z * Bus :=
  let id := next b + 1 in
  (id, mkBus id ({[id]} ∪ subs b) (<[id := mkSub [] false (list_to_set ts) 0 false [] []]> (heap b))).

(* @src internal/event/bus.go 69-74 BusClaims.Subscribers *)
Definition Subscribers (b : Bus) : Z := Z.of_nat (size (subs b)).

Definition set_sub (id : Z) (s : Subscription) (b : Bus) : Bus := mkBus (next b) (subs b) (<[id := s]> (heap b)).

(** Deliver to one subscription of the snapshot. *)
Definition deliver_to (now : Z) (e : BusEvent) (id : Z) (b : Bus) : option Bus :=
  match heap b !! id with
  | Some s => s' ← deliver now e s; Some (set_sub id s' b)
  | None => None
  end.

(** [Emit], when nothing else runs meanwhile. *)
(* @src internal/event/bus.go 35-48 BusClaims.Emit *)
Definition Emit (now : Z) (e : BusEvent) (b : Bus) : option Bus :=
  foldl (fun b id => b ≫= deliver_to now e id) (Some b) (elements (subs b)).

(** The bus with the goroutines that use it: emissions under way, each with
    the subscriptions it still has to deliver to, and subscriptions that are
    no longer known to the bus and not closed yet. *)
Record System := mkSystem { sys_bus : Bus; emitting : list (BusEvent * list Z); closing : list Z }.

Inductive step : System -> System -> Prop :=
| step_subscribe b em cl ts : step (mkSystem b em cl) (mkSystem (BusSubscribe ts b).2 em cl)
| step_topics b em cl id s ts :
    heap b !! id = Some s ->
    step (mkSystem b em cl) (mkSystem (set_sub id (SetTopics ts s) b) em cl)
| step_emit b em cl e ids :
    ids ≡ₚ elements (subs b) -> step (mkSystem b em cl) (mkSystem b ((e, ids) :: em) cl)
| step_deliver b b' em1 em2 cl now e id ids :
    deliver_to now e id b = Some b' ->
    step (mkSystem b (em1 ++ (e, id :: ids) :: em2) cl) (mkSystem b' (em1 ++ (e, ids) :: em2) cl)
| step_forget b em cl id :
    id ∈ dom (heap b) -> step (mkSystem b em cl) (mkSystem (mkBus (next b) (subs b ∖ {[id]}) (heap b)) em (id :: cl))
| step_close b em cl1 cl2 id s s' :
    heap b !! id = Some s -> close s = Some s' ->
    step (mkSystem b em (cl1 ++ id :: cl2)) (mkSystem (set_sub id s' b) em (cl1 ++ cl2))
| step_receive b em cl id s e s' :
    heap b !! id = Some s -> receive s = Some (e, s') ->
    step (mkSystem b em cl) (mkSystem (set_sub id s' b) em cl).

Definition start_system : System := mkSystem NewBus [] [].
Definition reachable_system (y : System) : Prop := rtc step start_system y.

(** ** What arrives *)

(** A stretch of what a subscription wanted, as its reader sees it: an event
    that arrived, or events that were lost and the notice of how many. *)
Inductive item : Type := Arrived (e : BusEvent) | Lost (now : Z) (e : BusEvent) (es : list BusEvent).

Definition seen (i : item) : BusEvent :=
  match i with
  | Arrived e => e
  | Lost now e es => notice now (Z.of_nat (length (e :: es)))
  end.

Definition stands_for (i : item) : list BusEvent :=
  match i with Arrived e => [e] | Lost _ e es => e :: es end.

Record sub_ok (s : Subscription) : Prop := {
  ok_bound : Z.of_nat (length (ch s)) <= subscriberBuffer;
  ok_closed : ch_closed s = closed s;
  ok_account : exists items lost,
    taken s ++ ch s = map seen items /\
    wanted s = concat (map stands_for items) ++ lost /\
    Z.of_nat (length lost) = dropped s;
}.

Record sys_ok (y : System) : Prop := {
  ok_subs : forall id s, heap (sys_bus y) !! id = Some s -> sub_ok s;
  ok_known : forall id, id ∈ subs (sys_bus y) -> id ∈ dom (heap (sys_bus y));
  ok_next : forall id, id ∈ dom (heap (sys_bus y)) -> id <= next (sys_bus y);
  ok_emitting : Forall (fun x => Forall (fun id => id ∈ dom (heap (sys_bus y))) x.2) (emitting y);
  ok_closing : Forall (fun id => id ∈ dom (heap (sys_bus y))) (closing y);
}.

(** A send keeps the account: the event arrives, and nothing is lost that was
    not said to be. *)
Lemma send_cases e s :
  ch_closed s = false ->
  (Z.of_nat (length (ch s)) < subscriberBuffer /\ send e s = Sent (set_ch (ch s ++ [e]) s)) \/
  (subscriberBuffer <= Z.of_nat (length (ch s)) /\ send e s = Full).
Proof. intros H. unfold send. rewrite H. destruct (Z.ltb_spec (Z.of_nat (length (ch s))) subscriberBuffer); auto. Qed.

Lemma arrived_ok s e :
  sub_ok s -> dropped s = 0 -> Z.of_nat (length (ch s)) < subscriberBuffer ->
  sub_ok (set_ch (ch s ++ [e]) (set_wanted (wanted s ++ [e]) s)).
Proof.
  intros [a b (items & lost & h1 & h2 & h3)] Hd Hr. split; cbn.
  - rewrite length_app. simpl. lia.
  - done.
  - exists (items ++ [Arrived e]), []. destruct lost as [|]; [|simpl in h3; lia].
    rewrite !map_app, concat_app, app_assoc, h1, h2. cbn. by rewrite !app_nil_r.
Qed.

Lemma lost_ok s e : sub_ok s -> sub_ok (set_dropped (dropped s + 1) (set_wanted (wanted s ++ [e]) s)).
Proof.
  intros [a b (items & lost & h1 & h2 & h3)]. split; cbn; [done|done|].
  exists items, (lost ++ [e]). rewrite h1, h2, app_assoc, length_app. simpl. repeat split; lia.
Qed.

Lemma noticed_ok s now :
  sub_ok s -> 0 < dropped s -> Z.of_nat (length (ch s)) < subscriberBuffer ->
  sub_ok (set_dropped 0 (set_ch (ch s ++ [notice now (dropped s)]) s)).
Proof.
  intros [a b (items & lost & h1 & h2 & h3)] Hd Hr. split; cbn.
  - rewrite length_app. simpl. lia.
  - done.
  - destruct lost as [|e es]; [simpl in h3; lia|]. exists (items ++ [Lost now e es]), [].
    rewrite !map_app, concat_app, app_assoc, h1, h2, <- h3. cbn. by rewrite !app_nil_r.
Qed.

Lemma deliver_ok now e s : sub_ok s -> exists s', deliver now e s = Some s' /\ sub_ok s'.
Proof.
  intros Hs. unfold deliver. destruct (closed s) eqn:Ec; [by exists s|].
  case_bool_decide as Ht; [cbn [orb negb]|by exists s].
  pose proof (ok_closed _ Hs) as Hch. rewrite Ec in Hch. cbn [dropped set_wanted].
  destruct (Z.ltb_spec 0 (dropped s)) as [Hd|Hd].
  - unfold reportDropped. cbn [dropped set_wanted].
    destruct (send_cases (notice now (dropped s)) (set_wanted (wanted s ++ [e]) s) Hch) as [[Hr ->]|[Hr ->]].
    + pose proof (noticed_ok s now Hs Hd Hr) as Hn. cbn [ch set_wanted] in *.
      match goal with |- context [send e ?s'] => destruct (send_cases e s' Hch) as [[Hr' ->]|[Hr' ->]] end;
        (eexists; split; [done|]).
      * exact (arrived_ok _ e Hn eq_refl Hr').
      * exact (lost_ok _ e Hn).
    + eexists; split; [done|]. exact (lost_ok s e Hs).
  - assert (H0 : dropped s = 0).
    { destruct Hs as [_ _ (? & ? & _ & _ & H)]. lia. }
    destruct (send_cases e (set_wanted (wanted s ++ [e]) s) Hch) as [[Hr ->]|[Hr ->]]; (eexists; split; [done|]).
    + exact (arrived_ok _ e Hs H0 Hr).
    + exact (lost_ok s e Hs).
Qed.

Lemma close_ok s : sub_ok s -> exists s', close s = Some s' /\ sub_ok s' /\ closed s' = true.
Proof.
  intros Hs. unfold close. destruct (closed s) eqn:Ec; [by exists s|].
  rewrite (ok_closed _ Hs), Ec. eexists; split; [done|]. split; [|done]. by destruct Hs as [a b c]; split.
Qed.

Lemma receive_ok s e s' : sub_ok s -> receive s = Some (e, s') -> sub_ok s'.
Proof.
  intros [a b c] H. unfold receive in H. destruct (ch s) as [|x k] eqn:E; [done|]. simplify_eq.
  split; cbn in *; [lia|done|]. by rewrite <- app_assoc.
Qed.

Lemma new_sub_ok ts : sub_ok (mkSub [] false ts 0 false [] []).
Proof. split; cbn; [done|done|]. by exists [], []. Qed.

Lemma set_sub_ok y id s em cl :
  sys_ok y -> id ∈ dom (heap (sys_bus y)) -> sub_ok s ->
  Forall (fun x => Forall (fun id => id ∈ dom (heap (sys_bus y))) x.2) em ->
  Forall (fun id => id ∈ dom (heap (sys_bus y))) cl ->
  sys_ok (mkSystem (set_sub id s (sys_bus y)) em cl).
Proof.
  intros [a b c d f] Hid Hs Hem Hcl.
  assert (Hdom : forall x, x ∈ dom (<[id := s]> (heap (sys_bus y))) <-> x ∈ dom (heap (sys_bus y))) by set_solver.
  split; cbn.
  - intros x t Hx. apply lookup_insert_Some in Hx as [[_ <-]|[_ Hx]]; eauto.
  - intros x Hx. apply Hdom. auto.
  - intros x Hx. apply Hdom in Hx. auto.
  - eapply Forall_impl; [exact Hem|]. intros x Hx. eapply Forall_impl; [exact Hx|]. intros i. apply Hdom.
  - eapply Forall_impl; [exact Hcl|]. intros i. apply Hdom.
Qed.

Lemma step_sys_ok y y' : sys_ok y -> step y y' -> sys_ok y'.
Proof.
  intros Hok Hst. pose proof Hok as [a b c d f]. destruct Hst; cbn in *.
  - assert (Hdom : forall x, x ∈ dom (heap b0) -> x ∈ dom (<[next b0 + 1 :=
      mkSub [] false (list_to_set ts) 0 false [] []]> (heap b0))) by set_solver.
    split; cbn.
    + intros x t Hx. apply lookup_insert_Some in Hx as [[_ <-]|[_ Hx]]; [apply new_sub_ok|eauto].
    + set_solver.
    + intros x Hx. apply dom_insert, elem_of_union in Hx as [Hx|Hx]; [set_solver|]. specialize (c x Hx). lia.
    + eapply Forall_impl; [exact d|]. intros x Hx. eapply Forall_impl; [exact Hx|]. auto.
    + eapply Forall_impl; [exact f|]. auto.
  - apply (set_sub_ok (mkSystem b0 em cl)); try done; [by eapply elem_of_dom_2|].
    destruct (a _ _ H) as [a1 a2 a3]. by split.
  - split; try done. constructor; [|done]. cbn. apply Forall_forall. intros x Hx. apply b.
    apply elem_of_elements. by rewrite <- H.
  - unfold deliver_to in H. destruct (heap b0 !! id) as [s|] eqn:Es; [|done].
    destruct (deliver_ok now e s (a _ _ Es)) as (s' & Hd & Hs'). rewrite Hd in H. cbn in H. simplify_eq.
    apply (set_sub_ok (mkSystem b0 (em1 ++ (e, id :: ids) :: em2) cl)); try done; [by eapply elem_of_dom_2|].
    cbn. apply Forall_app in d as [d1 d2]. inversion d2 as [|? ? d3 d4]; subst. inversion d3; subst.
    apply Forall_app. split; [done|]. by constructor.
  - split; cbn; try done; [set_solver|]. by constructor.
  - destruct (close_ok s (a _ _ H)) as (t & Ht & Hs' & _). assert (t = s') by congruence. subst t.
    apply (set_sub_ok (mkSystem b0 em (cl1 ++ id :: cl2))); try done; [by eapply elem_of_dom_2|].
    cbn. apply Forall_app in f as [f1 f2]. inversion f2; subst. by apply Forall_app.
  - apply (set_sub_ok (mkSystem b0 em cl)); try done; [by eapply elem_of_dom_2|]. by eapply receive_ok; [eapply a|].
Qed.

Lemma reachable_ok y : reachable_system y -> sys_ok y.
Proof.
  intros H. assert (H0 : sys_ok start_system).
  { split; cbn; try constructor; intros; set_solver. }
  revert H0. induction H as [|? ? ? Hs _ IH]; [done|]. intros H0. by eapply IH, step_sys_ok.
Qed.

Definition ex_event (n : Z) : BusEvent := mkEvent "turn.end" (SessionTopic "s") n "{}".

(** One subscription, to which one event is delivered while another emission
    is under way. *)
Definition ex_bus : Bus := (BusSubscribe [SessionTopic "s"] NewBus).2.
Definition ex_sub : Subscription :=
  mkSub [ex_event 1] false {[SessionTopic "s"]} 0 false [] [ex_event 1].
Definition ex_system : System := mkSystem (set_sub 1 ex_sub ex_bus) [(ex_event 1, []); (ex_event 2, [1])] [].

Lemma ex_system_reachable : reachable_system ex_system.
Proof.
  eapply rtc_l; [apply (step_subscribe NewBus [] [] [SessionTopic "s"])|].
  eapply rtc_l; [apply (step_emit ex_bus [] [] (ex_event 2) [1]); vm_compute; reflexivity|].
  eapply rtc_l; [apply (step_emit ex_bus _ [] (ex_event 1) [1]); vm_compute; reflexivity|].
  eapply rtc_l; [|apply rtc_refl].
  apply (step_deliver ex_bus (set_sub 1 ex_sub ex_bus) [] [(ex_event 2, [1])] [] 0 (ex_event 1) 1 []).
  vm_compute. reflexivity.
Qed.

(** C11: What a subscriber reads accounts for everything it wanted. However
    emissions interleave, the events that reached its channel are, in the
    order they were offered, those it wanted, and each gap is filled by a
    notice that stands exactly where the events were lost and says how many;
    the events lost since the last notice are as many as are counted as
    dropped. The channel never holds more than its buffer. *)
Theorem bus_accounts y id s :
  reachable_system y -> heap (sys_bus y) !! id = Some s ->
  Z.of_nat (length (ch s)) <= subscriberBuffer /\
  exists items lost,
    taken s ++ ch s = map seen items /\
    wanted s = concat (map stands_for items) ++ lost /\
    Z.of_nat (length lost) = dropped s.
Proof. intros Hy Hs. by destruct (ok_subs _ (reachable_ok y Hy) id s Hs). Qed.

Lemma bus_accounts_witness :
  Z.of_nat (length (ch ex_sub)) <= subscriberBuffer /\
  exists items lost, taken ex_sub ++ ch ex_sub = map seen items /\
    wanted ex_sub = concat (map stands_for items) ++ lost /\ Z.of_nat (length lost) = 0.
Proof. apply (bus_accounts ex_system 1 ex_sub ex_system_reachable). vm_compute. reflexivity. Defined.

(** A reader that stops loses events and is told how many once there is room
    for the notice and the next event. *)
Definition offer (n : nat) (s : Subscription) : option Subscription :=
  foldl (fun s k => s ≫= deliver 0 (ex_event (Z.of_nat k))) (Some s) (seq 0 n).

Definition read_two (s : Subscription) : option Subscription :=
  match receive s with
  | Some (_, s') => match receive s' with Some (_, s'') => Some s'' | None => None end
  | None => None
  end.

Example reader_behind :
  match offer 260 (mkSub [] false {[SessionTopic "s"]} 0 false [] []) with
  | Some s => dropped s = 4 /\
      match read_two s ≫= deliver 9 (ex_event 260) with
      | Some s' => drop 254 (ch s') = [notice 9 4; ex_event 260]
      | None => False
      end
  | None => False
  end.
Proof. vm_compute. split; reflexivity. Qed.

(** The bus never sends on a closed channel nor closes one twice, either
    of which would stop the process: at every point of every interleaving, a
    delivery that is due goes through, and so does a close, after which
    deliveries change nothing. *)
Theorem bus_never_panics y :
  reachable_system y ->
  (forall now e id ids, (e, id :: ids) ∈ emitting y -> is_Some (deliver_to now e id (sys_bus y))) /\
  (forall id, id ∈ closing y -> exists s s', heap (sys_bus y) !! id = Some s /\ close s = Some s' /\
     forall now e, deliver now e s' = Some s').
Proof.
  intros Hy. pose proof (reachable_ok y Hy) as [a b c d f]. split.
  - intros now e id ids Hin. rewrite Forall_forall in d. specialize (d _ Hin). cbn in d. inversion d as [|? ? Hid _]; subst.
    apply elem_of_dom in Hid as [s Hs]. unfold deliver_to. rewrite Hs.
    destruct (deliver_ok now e s (a _ _ Hs)) as (s' & -> & _). by eexists.
  - intros id Hin. rewrite Forall_forall in f. apply f, elem_of_dom in Hin as [s Hs].
    destruct (close_ok s (a _ _ Hs)) as (s' & Hc & _ & Hcl). exists s, s'. split; [done|]. split; [done|].
    intros now e. unfold deliver. by rewrite Hcl.
Qed.

Lemma bus_never_panics_witness : is_Some (deliver_to 0 (ex_event 2) 1 (sys_bus ex_system)).
Proof.
  destruct (bus_never_panics ex_system ex_system_reachable) as [H _]. apply (H 0 (ex_event 2) 1 []).
  unfold ex_system. cbn [emitting]. apply elem_of_cons. right. apply elem_of_cons. by left.
Defined.

(** ** One emission *)

Lemma deliver_all now e ids b b0 :
  (forall id s, heap b !! id = Some s -> sub_ok s) -> NoDup ids -> (forall id, id ∈ ids -> is_Some (heap b !! id)) ->
  b0 = Some b ->
  exists b', foldl (fun b id => b ≫= deliver_to now e id) b0 ids = Some b' /\
    (forall id, id ∉ ids -> heap b' !! id = heap b !! id) /\
    (forall id s, id ∈ ids -> heap b !! id = Some s -> exists s', heap b' !! id = Some s' /\ deliver now e s = Some s').
Proof.
  revert b b0. induction ids as [|i ids IH]; intros b b0 Hok Hnd Hin ->.
  - exists b. split; [done|]. split; [done|]. intros id s Hid. by apply elem_of_nil in Hid.
  - apply NoDup_cons in Hnd as [Hi Hnd]. destruct (Hin i) as [s Hs]; [apply elem_of_cons; by left|].
    destruct (deliver_ok now e s (Hok _ _ Hs)) as (s' & Hd & Hs').
    destruct (IH (set_sub i s' b) (deliver_to now e i b)) as (b' & H1 & H2 & H3); [|done|..].
    + cbn. intros id t Hid. apply lookup_insert_Some in Hid as [[_ <-]|[_ Hid]]; eauto.
    + intros id Hid. cbn. rewrite lookup_insert_ne by (intros ->; done). apply Hin, elem_of_cons. by right.
    + unfold deliver_to. by rewrite Hs, Hd.
    + exists b'. cbn [foldl mbind option_bind]. split; [exact H1|]. split.
      * intros id Hid. apply not_elem_of_cons in Hid as [Hne Hid]. rewrite (H2 id Hid). cbn.
        by rewrite lookup_insert_ne by done.
      * intros id t Hid Ht. apply elem_of_cons in Hid as [->|Hid].
        -- rewrite Ht in Hs. simplify_eq. exists s'. split; [|done]. rewrite (H2 i Hi). cbn. by rewrite lookup_insert_eq.
        -- apply (H3 id t Hid). cbn. by rewrite lookup_insert_ne by (intros ->; done).
Qed.

(** An event reaches its subscribers and nobody else. Emitting puts it at
    the end of the channel of every open subscription of its topic that has
    kept up, and leaves every other subscription as it was: those of other
    topics, those that closed, and those the bus has forgotten. *)
Theorem Emit_delivers now e b em cl :
  reachable_system (mkSystem b em cl) ->
  exists b', Emit now e b = Some b' /\
    forall id s, heap b !! id = Some s -> exists s', heap b' !! id = Some s' /\
      (id ∉ subs b \/ closed s = true \/ Topic e ∉ topics s -> s' = s) /\
      (id ∈ subs b -> closed s = false -> Topic e ∈ topics s -> dropped s = 0 ->
       Z.of_nat (length (ch s)) < subscriberBuffer -> ch s' = ch s ++ [e] /\ dropped s' = 0).
Proof.
  intros Hy. pose proof (reachable_ok _ Hy) as [a b1 c d f]. cbn in *.
  destruct (deliver_all now e (elements (subs b)) b (Some b)) as (b' & H1 & H2 & H3);
    [done|apply NoDup_elements| |done|].
  { intros id Hid. apply elem_of_dom, b1. by apply elem_of_elements. }
  exists b'. split; [exact H1|]. intros id s Hs. destruct (decide (id ∈ subs b)) as [Hid|Hid].
  - destruct (H3 id s ltac:(by apply elem_of_elements) Hs) as (s' & Hs' & Hd). exists s'. split; [done|].
    unfold deliver in Hd. split.
    + intros [?|[Hc|Ht]]; [done| |]; [rewrite Hc in Hd; cbn in Hd; congruence|].
      rewrite bool_decide_eq_false_2, orb_true_r in Hd by done. congruence.
    + intros _ Hc Ht H0 Hr. rewrite Hc, bool_decide_eq_true_2 in Hd by done. cbn [orb negb dropped set_wanted] in Hd.
      rewrite H0 in Hd. cbn [Z.ltb Z.compare] in Hd. pose proof (ok_closed _ (a _ _ Hs)) as Hch. rewrite Hc in Hch.
      destruct (send_cases e (set_wanted (wanted s ++ [e]) s) Hch) as [[_ Hsend]|[Hfull _]]; [|cbn in Hfull; lia].
      rewrite Hsend in Hd. by simplify_eq/=.
  - exists s. rewrite (H2 id ltac:(by rewrite elem_of_elements)). split; [done|]. by split.
Qed.

Lemma Emit_delivers_witness :
  exists b', Emit 0 (ex_event 3) (sys_bus ex_system) = Some b' /\
    exists s', heap b' !! 1 = Some s' /\ ch s' = [ex_event 1; ex_event 3].
Proof.
  destruct (Emit_delivers 0 (ex_event 3) (sys_bus ex_system) _ _ ex_system_reachable) as (b' & H1 & H2).
  exists b'. split; [exact H1|]. destruct (H2 1 ex_sub ltac:(vm_compute; reflexivity)) as (s' & Hs' & _ & H).
  exists s'. split; [exact Hs'|].
  apply H; [cbn; set_solver|done|cbn; set_solver|done|done].
Defined.
