(* ===== verification/RunManager.v ===== *)
(** The run manager (internal/server/run_manager.go): which session runs what,
    the messages that wait between runs, and how a run is built, driven,
    joined, aborted, and finished. Each section of code under the manager's
    lock is one function of its state. The step relation interleaves the
    goroutines of all runs and requests; the agent loop itself, which shares
    nothing with the manager but its queues, is one step: its environment is
    what is queued meanwhile. *)
From S2P Require Import Prelude GoStr Float64 Provider Sampling Failure Tool Conversation Context Compaction.
From S2P Require Import Summary World Stream ContextFile Agent Outside AgentSpec AgentRun Session.
From S2P Require Import SessionSpec Entries.
From stdpp Require Import options.

#[local] Set Default Proof Using "Type*".

(** ** The manager's state *)

(* @src internal/server/run_manager.go 32-40 job *)
Record job := mkJob { j_message : Message; j_compact : bool; j_instructions : string }.

(* @src internal/server/run_manager.go 42-45 queuedMessages *)
Record queuedMessages := mkQueued { q_steering : list Message; q_followUps : list Message }.
Definition no_messages : queuedMessages := mkQueued [] [].

(** A run, from the moment its session is claimed. The agent comes with the
    options it was built with, among them its model's. *)
(* @src internal/server/run_manager.go 129-148 activeRun *)
Record activeRun := mkActive {
  a_session : string;
  a_workspace : string;
  a_id : string;
  a_agent : option (Options * World);
  a_aborted : bool;
  a_cancelled : bool;
  a_done : bool;
}.

Definition set_id id a := mkActive (a_session a) (a_workspace a) id (a_agent a) (a_aborted a) (a_cancelled a) (a_done a).
Definition set_agent g a := mkActive (a_session a) (a_workspace a) (a_id a) g (a_aborted a) (a_cancelled a) (a_done a).
Definition set_aborted b a := mkActive (a_session a) (a_workspace a) (a_id a) (a_agent a) b (a_cancelled a) (a_done a).
Definition set_cancelled b a := mkActive (a_session a) (a_workspace a) (a_id a) (a_agent a) (a_aborted a) b (a_done a).
Definition set_done b a := mkActive (a_session a) (a_workspace a) (a_id a) (a_agent a) (a_aborted a) (a_cancelled a) b.

(** Active runs are shared objects: the maps hold their addresses. *)
(* @src internal/server/run_manager.go 113-127 runs *)
Record runs := mkRuns {
  stopped : bool;
  bySession : gmap string nat;
  byID : gmap string nat;
  pending : gmap string queuedMessages;
}.

(* @src internal/server/run_manager.go 150-159 newRuns *)
Definition newRuns : runs := mkRuns false ∅ ∅ ∅.

Definition conflictf (s : string) : GoError := ErrText s.

(** ** Its operations *)

(* @src internal/server/run_manager.go 322-343 runs.reserve *)
Definition reserve (p : nat) (sessionID workspaceID : string) (r : runs) : (activeRun * runs) + GoError :=
  if stopped r then inr (conflictf "the harness is shutting down")
  else match bySession r !! sessionID with
  | Some _ => inr (conflictf ("session " +:+ sessionID +:+ " already has a run in progress"))
  | None =>
      inl (mkActive sessionID workspaceID EmptyString None false false false,
           mkRuns (stopped r) (<[sessionID := p]> (bySession r)) (byID r) (pending r))
  end.

(** What [forget] and [finish] do to the maps, for the run at [p]. *)
Definition drop_session (p : nat) (a : activeRun) (r : runs) : gmap string nat :=
  if bool_decide (bySession r !! a_session a = Some p) then base.delete (a_session a) (bySession r) else bySession r.

(* @src internal/server/run_manager.go 534-546 runs.forget *)
Definition forget (p : nat) (a : activeRun) (r : runs) : runs :=
  mkRuns (stopped r) (drop_session p a r)
    (if String.eqb (a_id a) EmptyString then byID r else base.delete (a_id a) (byID r)) (pending r).

(* @src internal/server/run_manager.go 345-351 runs.abandon *)
Definition abandon (p : nat) (a : activeRun) (r : runs) : activeRun * runs :=
  (set_done true (set_cancelled true a), forget p a r).

(* @src internal/server/run_manager.go 548-564 runs.finish *)
Definition finish (p : nat) (a : activeRun) (queued : queuedMessages) (r : runs) : runs :=
  mkRuns (stopped r) (drop_session p a r) (base.delete (a_id a) (byID r))
    (match q_steering queued, q_followUps queued with
     | [], [] => pending r
     | _, _ => <[a_session a := queued]> (pending r)
     end).

(* @src internal/server/run_manager.go 566-574 runs.pendingFor *)
Definition pendingFor (sessionID : string) (r : runs) : queuedMessages :=
  default no_messages (pending r !! sessionID).

(* @src internal/server/run_manager.go 576-583 runs.takePending *)
Definition takePending (sessionID : string) (r : runs) : queuedMessages * runs :=
  (pendingFor sessionID r, mkRuns (stopped r) (bySession r) (byID r) (base.delete sessionID (pending r))).

(* @src internal/server/run_manager.go 513-518 runs.active *)
Definition active (sessionID : string) (r : runs) : option nat := bySession r !! sessionID.

(* @src internal/server/run_manager.go 520-532 runs.workspacesInUse *)
Definition workspacesInUse (heap : gmap nat activeRun) (r : runs) : gset string :=
  list_to_set (base.filter (fun ws => ws <> EmptyString)
    (omap (fun p => a_workspace <$> heap !! p) (map snd (map_to_list (bySession r))))).

(* @src internal/server/run_manager.go 603-609 activeRun.begin *)
Definition begin (id : string) (loop : Options * World) (a : activeRun) : activeRun :=
  set_agent (Some loop) (set_id id a).

(* @src internal/server/run_manager.go 633-639 activeRun.abort *)
Definition abort (a : activeRun) : activeRun := set_cancelled true (set_aborted true a).

(* @src internal/server/runs.go 15-21 modeRun *)
Definition modeRun : string := "run".
Definition modeSteer : string := "steer".
Definition modeFollowUp : string := "follow_up".

(** What [enqueue] does once it has found the session's run: the run may have
    ended by then. *)
(* @src internal/server/run_manager.go 395-427 runs.enqueue *)
Definition enqueue (msg : Message) (mode : string) (a : activeRun) : activeRun + GoError :=
  let refused := inr (conflictf ("session " +:+ a_session a +:+ " has no run in progress to " +:+ mode)) in
  match a_agent a with
  | None => refused
  | Some (opts, w) =>
      if negb (length (Images msg) =? 0)%nat && negb (o_ImageInput opts) then
        inr (ErrText ("model " +:+ o_Model opts +:+ " does not accept images"))
      else
        match (if String.eqb mode modeSteer then Steer msg w else FollowUp msg w) with
        | (true, w') => inl (set_agent (Some (opts, w')) a)
        | (false, _) => refused
        end
  end.

(** The state a run ends in, and the error that is recorded with it. *)
(* @src internal/server/run_manager.go 367-373 runs.drive *)
Definition run_state (err : option GoError) (aborted : bool) : string * string :=
  match err with
  | None => (RunDone, EmptyString)
  | Some e => if aborted then (RunAborted, EmptyString) else (RunError, error_text e)
  end.

(* @src internal/store/runs.go 25-34 Run *)
Record RunRow := mkRow { r_session : string; r_state : string; r_error : string }.

(* @src internal/store/runs.go 40-49 Store.StartRun *)
Definition StartRun (id sessionID : string) (rows : gmap string RunRow) : gmap string RunRow :=
  <[id := mkRow sessionID RunRunning EmptyString]> rows.

(* @src internal/store/runs.go 51-63 Store.FinishRun *)
Definition FinishRun (id : string) (end_ : string * string) (rows : gmap string RunRow) : option (gmap string RunRow) :=
  match rows !! id with
  | Some row => Some (<[id := mkRow (r_session row) end_.1 end_.2]> rows)
  | None => None
  end.

(** ** Building a run *)

(** The agent of a run that is about to start: [New] accepts messages, and
    the conversation is the stored one. *)
Definition agent_world (ms : list Message) (l : list StoreItem) : World :=
  mkWorld 0 (Conv.New ms) l (Q.mkQueue []) (Q.mkQueue []) true zeroGeneration [] [] [] [] [].

(** The messages left by the run before are queued again, in order. *)
(* @src internal/server/run_manager.go 292-302 runs.begin *)
Definition refill (queued : queuedMessages) (w : World) : World :=
  foldl (fun w m => (FollowUp m w).2) (foldl (fun w m => (Steer m w).2) w (q_steering queued)) (q_followUps queued).

(** Where the goroutine of a run is. *)
(* @src internal/server/run_manager.go 353-393 runs.drive *)
Inductive pc : Type :=
| PReserved
| PLoaded (ms : list Message)
| PStarted (row : string) (opts : Options) (ms : list Message)
| PFilled (row : string) (opts : Options) (w : World)
| PBegun
| PDriving
| PReturned (err : option GoError)
| PRecorded
| PSteering (steering : list Message)
| PSnapshot (queued : queuedMessages)
| PForgotten
| PDone.

(** A run and its goroutine. *)
Record thread := mkThread { t_active : activeRun; t_job : job; t_pc : pc }.

Definition live (t : thread) : Prop :=
  match t_pc t with PForgotten | PDone => False | _ => True end.

(** Every run there ever was, the durable logs and run rows, the row writes
    that go on in the background, and, for stating what happens to messages,
    those every session accepted for a queue, was given to answer, and lost. *)
Record System := mkSystem {
  mgr : runs;
  heap : gmap nat thread;
  logs : gmap string (list StoreItem);
  rows : gmap string RunRow;
  late : list (string * (string * string));
  accepted_by : gmap string (list Message);
  given_to : gmap string (list Message);
  lost_by : gmap string (list Message);
}.

Definition at_ {A} (m : gmap string (list A)) (k : string) : list A := default [] (m !! k).
Definition add_to {A} (k : string) (l : list A) (m : gmap string (list A)) : gmap string (list A) :=
  <[k := at_ m k ++ l]> m.

Definition set_mgr x y := mkSystem x (heap y) (logs y) (rows y) (late y) (accepted_by y) (given_to y) (lost_by y).
Definition set_rows x y := mkSystem (mgr y) (heap y) (logs y) x (late y) (accepted_by y) (given_to y) (lost_by y).
Definition set_late x y := mkSystem (mgr y) (heap y) (logs y) (rows y) x (accepted_by y) (given_to y) (lost_by y).
Definition set_logs x y := mkSystem (mgr y) (heap y) x (rows y) (late y) (accepted_by y) (given_to y) (lost_by y).
Definition set_accepted_by x y := mkSystem (mgr y) (heap y) (logs y) (rows y) (late y) x (given_to y) (lost_by y).
Definition set_given_to x y := mkSystem (mgr y) (heap y) (logs y) (rows y) (late y) (accepted_by y) x (lost_by y).
Definition set_lost_by x y := mkSystem (mgr y) (heap y) (logs y) (rows y) (late y) (accepted_by y) (given_to y) x.
Definition put (p : nat) (t : thread) (y : System) : System :=
  mkSystem (mgr y) (<[p := t]> (heap y)) (logs y) (rows y) (late y) (accepted_by y) (given_to y) (lost_by y).

Definition goto (c : pc) (t : thread) : thread := mkThread (t_active t) (t_job t) c.
Definition sid_of (t : thread) : string := a_session (t_active t).
Definition with_active (a : activeRun) (t : thread) : thread := mkThread a (t_job t) (t_pc t).

(** Nobody reads the queue a message joins now: the run has been asked for
    what is left in it, or is over. *)
Definition too_late (mode : string) (t : thread) : bool :=
  match t_pc t with
  | PSteering _ => String.eqb mode modeSteer
  | PSnapshot _ | PForgotten | PDone => true
  | _ => false
  end.

Definition waiting (q : queuedMessages) : list Message := q_steering q ++ q_followUps q.

(** What [finish] overwrites. *)
Definition overwritten (q : queuedMessages) (sid : string) (r : runs) : list Message :=
  match waiting q with [] => [] | _ => waiting (pendingFor sid r) end.

Definition forget_accepted (w : World) : World := set_accepted [] w.

(** ** The goroutines *)

(** The loop of a job. *)
Definition loop_of (E : Env) (opts : Options) (fuel : nat) (a : activeRun) (j : job) : M (option GoError) :=
  let s := mkSession (a_session a) (a_workspace a) in
  if j_compact j then Compact E opts (j_instructions j) else Run E opts s fuel (j_message j).

(** A run that could not read its prompt returns before its queues close. *)
Definition unprepared (err : option GoError) : Prop := exists e, err = Some (ErrWrap "run agent" e).

Section steps.
Context (respell : string -> string).

(** [strict] leaves out what the code is known to lose messages in: a
    compaction the user asks for, and a run whose context files cannot be
    read. *)
Context (strict : Prop).

(** One step of some goroutine. [begin] claims the session, loads it, records
    the row, fills the queues, and publishes the agent and the row's id, or
    gives up and releases the session; [drive] runs the loop, records how it
    ended, reads what is left in the queues, and releases the session. In
    between, other requests join, abort, and shut down. *)
(* @src internal/server/run_manager.go 212-320 runs.begin *)
Inductive step : System -> System -> Prop :=
| st_reserve y p sid ws j a r :
    heap y !! p = None -> (j_compact j = false -> user_message (j_message j)) -> (strict -> j_compact j = false) ->
    reserve p sid ws (mgr y) = inl (a, r) ->
    step y (put p (mkThread a j PReserved) (set_mgr r y))
| st_load y p t :
    heap y !! p = Some t -> t_pc t = PReserved ->
    step y (put p (goto (PLoaded (replay (at_ (logs y) (sid_of t)))) t) y)
| st_give_up y p t :
    heap y !! p = Some t -> (t_pc t = PReserved \/ exists ms, t_pc t = PLoaded ms) ->
    step y (put p (goto PDone (with_active (abandon p (t_active t) (mgr y)).1 t))
              (set_mgr (abandon p (t_active t) (mgr y)).2 y))
| st_start y p t ms row opts :
    heap y !! p = Some t -> t_pc t = PLoaded ms -> o_store opts = true ->
    rows y !! row = None -> row <> EmptyString ->
    (j_compact (t_job t) = true -> Compactable opts (agent_world ms []) = true) ->
    step y (put p (goto (PStarted row opts ms) t) (set_rows (StartRun row (sid_of t) (rows y)) y))
| st_fill y p t row opts ms :
    heap y !! p = Some t -> t_pc t = PStarted row opts ms ->
    let w := agent_world ms (at_ (logs y) (sid_of t)) in
    let '(queued, r) := takePending (sid_of t) (mgr y) in
    step y (if j_compact (t_job t) then put p (goto (PFilled row opts w) t) y
            else put p (goto (PFilled row opts (refill queued w)) t) (set_mgr r y))
| st_begin y p t row opts w :
    heap y !! p = Some t -> t_pc t = PFilled row opts w ->
    step y (put p (goto PBegun (with_active (begin row (opts, w) (t_active t)) t)) y)
| st_publish y p t :
    heap y !! p = Some t -> t_pc t = PBegun ->
    step y (put p (goto PDriving t)
      (set_mgr (mkRuns (stopped (mgr y)) (bySession (mgr y)) (<[a_id (t_active t) := p]> (byID (mgr y))) (pending (mgr y))) y))
| st_run y p t opts w E fuel err w' :
    heap y !! p = Some t -> t_pc t = PDriving -> a_agent (t_active t) = Some (opts, w) ->
    UserArrivals E -> tool_stores_safe E -> (strict -> ~ unprepared err) ->
    loop_of E opts fuel (t_active t) (t_job t) (forget_accepted w) = Some (err, w') ->
    step y (put p (goto (PReturned err) (with_active (set_agent (Some (opts, w')) (t_active t)) t))
      (set_logs (<[sid_of t := map (kept_item respell) (log w')]> (logs y))
      (set_accepted_by (add_to (sid_of t) (accepted w') (accepted_by y))
      (set_given_to (add_to (sid_of t) (if j_compact (t_job t) then [] else submitted (j_message (t_job t))) (given_to y)) y))))
| st_record y p t err rows' late' :
    heap y !! p = Some t -> t_pc t = PReturned err ->
    let end_ := run_state err (a_aborted (t_active t)) in
    (FinishRun (a_id (t_active t)) end_ (rows y) = Some rows' /\ late' = late y \/
     rows' = rows y /\ late' = late y ++ [(a_id (t_active t), end_)]) ->
    step y (put p (goto PRecorded t) (set_rows rows' (set_late late' y)))
| st_late y id end_ l1 l2 rows' :
    late y = l1 ++ (id, end_) :: l2 -> FinishRun id end_ (rows y) = Some rows' ->
    step y (set_rows rows' (set_late (l1 ++ l2) y))
| st_read_steering y p t opts w :
    heap y !! p = Some t -> t_pc t = PRecorded -> a_agent (t_active t) = Some (opts, w) ->
    step y (put p (goto (PSteering (PendingSteering w)) t) y)
| st_read_followUps y p t opts w l :
    heap y !! p = Some t -> t_pc t = PSteering l -> a_agent (t_active t) = Some (opts, w) ->
    step y (put p (goto (PSnapshot (mkQueued l (PendingFollowUps w))) t) y)
| st_finish y p t q :
    heap y !! p = Some t -> t_pc t = PSnapshot q ->
    step y (put p (goto PForgotten t) (set_mgr (finish p (t_active t) q (mgr y))
      (set_lost_by (add_to (sid_of t) (overwritten q (sid_of t) (mgr y)) (lost_by y)) y)))
| st_done y p t :
    heap y !! p = Some t -> t_pc t = PForgotten ->
    step y (put p (goto PDone (with_active (set_done true (set_cancelled true (t_active t))) t)) y)
| st_enqueue y p t msg mode a :
    heap y !! p = Some t -> user_message msg -> enqueue msg mode (t_active t) = inl a ->
    step y (put p (with_active a t)
      (set_accepted_by (add_to (sid_of t) [msg] (accepted_by y))
      (set_lost_by (add_to (sid_of t) (if too_late mode t then [msg] else []) (lost_by y)) y)))
| st_abort y p t :
    heap y !! p = Some t -> step y (put p (with_active (abort (t_active t)) t) y)
| st_abort_stale y id row :
    byID (mgr y) !! id = None -> rows y !! id = Some row -> r_state row = RunRunning ->
    step y (set_rows (<[id := mkRow (r_session row) RunAborted EmptyString]> (rows y)) y)
| st_stop y :
    step y (set_mgr (mkRuns true (bySession (mgr y)) (byID (mgr y)) (pending (mgr y))) y).

(** A harness starts with stored sessions whose conversations are valid, and
    no runs. *)
Record initial (y : System) : Prop := {
  in_mgr : mgr y = newRuns;
  in_heap : heap y = ∅;
  in_logs : forall sid, well_formed (replay (at_ (logs y) sid)) /\ Forall user_message (log_users (at_ (logs y) sid));
  in_given : forall sid, at_ (given_to y) sid = log_users (at_ (logs y) sid);
  in_accepted : accepted_by y = ∅;
  in_lost : lost_by y = ∅;
}.

Definition reachable_runs (y : System) : Prop := exists y0, initial y0 /\ rtc step y0 y.
End steps.
