(* ===== verification/RunManagerSpec.v ===== *)
(** What the run manager keeps true, step by step: which runs are registered,
    what each session's conversation, queues, and messages are, and what the
    loop of a run does to them. *)
From S2P Require Import Prelude GoStr Float64 Provider Sampling Failure Tool Conversation Context Compaction.
From S2P Require Import Summary World Stream ContextFile Agent Outside AgentSpec AgentRun Session.
From S2P Require Import SessionSpec Entries RunManager.
From stdpp Require Import options.

#[local] Set Default Proof Using "Type*".

(** ** Storing and loading a conversation *)

Section kept.
Context (respell : string -> string).
Abbreviation kept := (kept_message respell).

Lemma kept_user m : user_message m -> kept m = m.
Proof. intros [_ H]. destruct m. cbn in H. subst. reflexivity. Qed.

Lemma kept_users ms : Forall user_message ms -> map kept ms = ms.
Proof. induction 1 as [|m ms Hm _ IH]; [done|]. cbn [map]. by rewrite IH, kept_user. Qed.

Lemma kept_Compacted ms c : map kept (Compacted ms c) = Compacted (map kept ms) c.
Proof.
  unfold Compacted. cbn [map]. f_equal. rewrite length_map, skipn_map, !map_map. apply map_ext. by intros [].
Qed.

Lemma replay_kept l : replay (map (kept_item respell) l) = map kept (replay l).
Proof.
  unfold replay. change (@nil Message) with (map kept []) at 1. generalize (@nil Message).
  induction l as [|i l IH]; intros ms; [done|]. cbn [map foldl]. rewrite <- IH. f_equal. destruct i as [m|c].
  - symmetry. apply map_app.
  - symmetry. apply kept_Compacted.
Qed.

Lemma accepts_kept p ms : accepts p (map kept ms) = accepts p ms.
Proof.
  revert p. induction ms as [|m ms IH]; intros p; [done|]. cbn [accepts map].
  destruct (kept_message_fields respell m) as (H1 & H2 & H3). unfold accept, is_tool. rewrite H1, H2, H3.
  match goal with |- _ = ?o ≫= _ => by destruct o; [apply IH|] end.
Qed.

Lemma log_users_kept l : log_users (map (kept_item respell) l) = map kept (log_users l).
Proof.
  unfold log_users. induction l as [|i l IH]; [done|]. destruct i as [m|c]; [|exact IH].
  cbn [map kept_item omap list_omap user_item]. change (MRole (kept m)) with (MRole m).
  case_bool_decide; cbn [map]; by rewrite <- IH.
Qed.

End kept.

(** ** What the loop of a run does *)

Lemma run_prompt_fails E opts s fuel m w err w' :
  Run E opts s fuel m w = Some (err, w') -> ~ unprepared err -> accepting w' = false.
Proof.
  unfold Run, mbind, M_bind. destruct (prompt E opts w) as [[[p|e] w1]|]; [| |done].
  - cbn [modify]. match goal with |- context [turns ?a ?b ?c ?d ?e ?f ?g ?h] => destruct (turns a b c d e f g h) as [[e' w2]|] end;
      [|done]. cbn. intros H _. by injection H as _ <-.
  - intros H Hu. injection H as <- _. exfalso. apply Hu. by exists e.
Qed.

Section loop.
Context (E : Env) `{!UserArrivals E} (opts : Options).

(** What the loop leaves: a valid conversation that the log stands for, user
    messages in the queues, and every message in one place. *)
Record loop_over (given : list Message) (w w' : World) : Prop := {
  lo_replay : replay (log w') = messages_of w';
  lo_valid : well_formed (messages_of w');
  lo_queued : Forall user_message (queued w');
  lo_accepted : Forall user_message (accepted w');
  lo_ledger : exists dropped,
    dropped ⊆+ given /\
    log_users (log w') ++ queued w' ++ dropped ≡ₚ log_users (log w) ++ queued w ++ given ++ accepted w';
}.

Lemma turn_over_loop given err w w' :
  o_store opts = true -> tool_stores_safe E ->
  turn_over E opts (log_users (log w) ++ queued w ++ given) given None err w' -> loop_over given w w'.
Proof.
  intros Hst Hsafe [a b (d & [t1 t2 t3 t4 t5] & Hd & _)]. split; auto.
  exists d. split; [destruct Hd as [k ->]; apply submseteq_inserts_l; done|]. rewrite (t5 Hst). by rewrite <- !app_assoc.
Qed.

Lemma wp_Compact instructions w :
  startable opts w -> o_store opts = true ->
  wp (Compact E opts instructions) (fun _ w' => loop_over [] w w') w.
Proof.
  intros Hstart Hst. destruct (startable_tracked opts [] w Hstart ltac:(constructor)) as [Hr Ht].
  assert (Hover : forall w', settled opts [] None w w' -> loop_over [] w w').
  { intros w' Hs. pose proof (tracked_settled _ _ _ _ _ _ _ Ht Hs) as [t1 t2 t3 t4 t5]. destruct Hs as ([h1 h2 h3 h4 h5] & _ & _).
    split; auto. exists []. split; [done|]. rewrite (t5 Hst). by rewrite !app_nil_r, app_nil_l, <- app_assoc. }
  unfold Compact. apply wp_bind. eapply (wp_quietly _ (fun _ => True)); [by apply (quietly_query E)|]. intros id w1 H1 _.
  apply wp_bind. eapply wp_quietly; [exact (quietly_prompt E opts)|]. intros [p|e] w2 H2 _.
  all: assert (H02 : quiet w w2) by (by transitivity w1).
  2:{ apply wp_bind. eapply wp_quietly; [apply quietly_fail|]. intros e' w3 H3 _. apply wp_ret.
      apply Hover, (settled_quiet opts None []); [exact Hr|by transitivity w2]. }
  pose proof (ready_quiet _ _ _ _ _ Hr H02) as Hr2.
  apply wp_bind, wp_gets. fold (messages_of w2). apply wp_bind.
  eapply wp_mono; [apply (wp_compact E opts)|].
  - done.
  - rewrite firstn_all. apply Hr2.
  - intros [n err] w3 H3. cbn [fst snd] in H3. apply wp_ret. apply Hover.
    eapply settled_trans; [by apply settled_quiet|].
    destruct err as [e|].
    + destruct H3 as [_ Hq]. by apply settled_quiet.
    + exact (compaction_settled opts None [] w2 w3 n Hr2 H3).
Qed.

Lemma wp_loop fuel a j w :
  startable opts w -> o_store opts = true -> tool_stores_safe E -> (j_compact j = false -> user_message (j_message j)) ->
  wp (loop_of E opts fuel a j)
    (fun _ w' => loop_over (if j_compact j then [] else submitted (j_message j)) w w') w.
Proof.
  intros Hs Hst Hsafe Hm. unfold loop_of. destruct (j_compact j); [by apply wp_Compact|].
  eapply wp_mono; [apply (wp_Run E opts); [done|by apply Hm]|]. intros err w' [Ho _]. by eapply turn_over_loop.
Qed.
End loop.

(** ** The invariants *)

(** The run a session is registered with. *)
Definition own (y : System) (sid : string) : option thread :=
  match bySession (mgr y) !! sid with Some p => heap y !! p | None => None end.

(** What concerns one session. *)
Record view := mkView {
  v_log : list StoreItem;
  v_pending : queuedMessages;
  v_own : option thread;
  v_accepted : list Message;
  v_given : list Message;
  v_lost : list Message;
}.

Definition view_of (y : System) (sid : string) : view :=
  mkView (at_ (logs y) sid) (pendingFor sid (mgr y)) (own y sid)
    (at_ (accepted_by y) sid) (at_ (given_to y) sid) (at_ (lost_by y) sid).

Definition agent_steering (t : thread) : list Message :=
  match a_agent (t_active t) with Some (_, w) => PendingSteering w | None => [] end.
Definition agent_followUps (t : thread) : list Message :=
  match a_agent (t_active t) with Some (_, w) => PendingFollowUps w | None => [] end.

(** The messages a run holds for its session. *)
Definition held (t : thread) : list Message :=
  match t_pc t with
  | PFilled _ _ w => queued w
  | PBegun | PDriving | PReturned _ | PRecorded => agent_steering t ++ agent_followUps t
  | PSteering l => l ++ agent_followUps t
  | PSnapshot q => waiting q
  | _ => []
  end.

(** An agent that has not run: its conversation is the stored one. *)
Record unrun (l : list StoreItem) (opts : Options) (w : World) : Prop := {
  un_conv : messages_of w = replay l;
  un_log : log w = l;
  un_queued : Forall user_message (queued w);
  un_fresh : requests w = [] /\ records w = [];
  un_store : o_store opts = true;
}.

(** A run, given its session's log. *)
Definition thread_ok (l : list StoreItem) (t : thread) : Prop :=
  (j_compact (t_job t) = false -> user_message (j_message (t_job t))) /\
  Forall user_message (held t) /\
  match t_pc t with
  | PReserved => a_agent (t_active t) = None
  | PLoaded ms => ms = replay l /\ a_agent (t_active t) = None
  | PStarted _ opts ms => ms = replay l /\ o_store opts = true /\ a_agent (t_active t) = None
  | PFilled _ opts w => unrun l opts w /\ a_agent (t_active t) = None
  | PBegun | PDriving => exists opts w, a_agent (t_active t) = Some (opts, w) /\ unrun l opts w
  | PReturned _ | PRecorded | PSteering _ => is_Some (a_agent (t_active t))
  | _ => True
  end.

(** The run has taken what was waiting, and finish has not put it back. *)
Definition took (t : thread) : bool :=
  match t_pc t with
  | PFilled _ _ _ | PBegun | PDriving | PReturned _ | PRecorded | PSteering _ | PSnapshot _ => true
  | _ => false
  end.

(** The loop has returned. *)
Definition returned (t : thread) : bool :=
  match t_pc t with
  | PReturned _ | PRecorded | PSteering _ | PSnapshot _ | PForgotten | PDone => true
  | _ => false
  end.

Definition published (t : thread) : bool := match t_pc t with PDriving => true | _ => returned t end.

Definition closed_agent (t : thread) : Prop :=
  match a_agent (t_active t) with Some (_, w) => accepting w = false | None => True end.

Section invariant.
Context (strict : Prop).

Record view_ok (v : view) : Prop := {
  vo_valid : well_formed (replay (v_log v));
  vo_users : Forall user_message (log_users (v_log v));
  vo_pending : Forall user_message (waiting (v_pending v));
  vo_own : match v_own v with Some t => thread_ok (v_log v) t | None => True end;
  vo_ledger : exists dropped,
    dropped ⊆+ v_given v /\
    log_users (v_log v) ++ waiting (v_pending v) ++ from_option held [] (v_own v) ++ v_lost v ++ dropped ≡ₚ
      v_accepted v ++ v_given v;
  vo_strict : strict -> v_lost v = [] /\
    match v_own v with
    | Some t => j_compact (t_job t) = false /\ (took t = true -> v_pending v = no_messages)
    | None => True
    end;
}.

(** The maps name exactly the runs that are going, one for each session. *)
Record registry (y : System) : Prop := {
  rg_session : forall sid p, bySession (mgr y) !! sid = Some p ->
    exists t, heap y !! p = Some t /\ sid_of t = sid /\ live t;
  rg_live : forall p t, heap y !! p = Some t -> live t -> bySession (mgr y) !! sid_of t = Some p;
  rg_id : forall id p, byID (mgr y) !! id = Some p ->
    exists t, heap y !! p = Some t /\ a_id (t_active t) = id /\ published t = true /\ live t;
}.

Record inv (y : System) : Prop := {
  iv_registry : registry y;
  iv_views : forall sid, view_ok (view_of y sid);
  iv_closed : strict -> forall p t, heap y !! p = Some t -> returned t = true -> closed_agent t;
}.

Lemma own_live y p t : registry y -> heap y !! p = Some t -> live t -> own y (sid_of t) = Some t.
Proof. intros Hr Hp Hl. unfold own. by rewrite (rg_live _ Hr p t Hp Hl). Qed.

(** The parts of a view that do not depend on the threads. *)
Definition same_elsewhere (sid : string) (y y' : System) : Prop :=
  forall k, k <> sid ->
    at_ (logs y') k = at_ (logs y) k /\ pendingFor k (mgr y') = pendingFor k (mgr y) /\
    at_ (accepted_by y') k = at_ (accepted_by y) k /\ at_ (given_to y') k = at_ (given_to y) k /\
    at_ (lost_by y') k = at_ (lost_by y) k.

(** A step that moves one run on, which stays registered or unregistered. *)
Lemma inv_move y y' p t t' :
  inv y -> heap y !! p = Some t -> heap y' = <[p := t']> (heap y) ->
  bySession (mgr y') = bySession (mgr y) -> sid_of t' = sid_of t -> (live t' <-> live t) ->
  same_elsewhere (sid_of t) y y' ->
  (forall id q, byID (mgr y') !! id = Some q ->
     q = p /\ a_id (t_active t') = id /\ published t' = true /\ live t' \/ q <> p /\ byID (mgr y) !! id = Some q) ->
  (strict -> returned t' = true -> closed_agent t') ->
  view_ok (mkView (at_ (logs y') (sid_of t)) (pendingFor (sid_of t) (mgr y'))
    (match own y (sid_of t) with Some u => if bool_decide (bySession (mgr y) !! sid_of t = Some p) then Some t' else Some u
     | None => None end)
    (at_ (accepted_by y') (sid_of t)) (at_ (given_to y') (sid_of t)) (at_ (lost_by y') (sid_of t))) ->
  inv y'.
Proof.
  intros [Hr Hv Hc] Hp Hh Hb Hs Hl Helse Hid Hcl Hview. split.
  - split.
    + intros sid q Hq. rewrite Hb in Hq. destruct (rg_session _ Hr _ _ Hq) as (u & Hu & Hus & Hul).
      rewrite Hh. destruct (decide (q = p)) as [->|Hne].
      * rewrite lookup_insert_eq. assert (u = t) by congruence. subst u. exists t'. rewrite Hs. by rewrite Hl.
      * rewrite lookup_insert_ne by done. by exists u.
    + intros q u Hq Hu. rewrite Hh in Hq. rewrite Hb. apply lookup_insert_Some in Hq as [[<- <-]|[Hne Hq]].
      * rewrite Hs. apply (rg_live _ Hr p t Hp). by apply Hl.
      * by apply (rg_live _ Hr).
    + intros id q Hq. rewrite Hh. destruct (Hid id q Hq) as [(-> & H1 & H2 & H3)|[Hne Hq']].
      * exists t'. by rewrite lookup_insert_eq.
      * destruct (rg_id _ Hr _ _ Hq') as (u & Hu & ?). exists u. by rewrite lookup_insert_ne.
  - intros sid. destruct (decide (sid = sid_of t)) as [->|Hne].
    + assert (Hown : own y' (sid_of t) = match own y (sid_of t) with
        | Some u => if bool_decide (bySession (mgr y) !! sid_of t = Some p) then Some t' else Some u
        | None => None end).
      { unfold own. rewrite Hb, Hh. destruct (bySession (mgr y) !! sid_of t) as [q|] eqn:Eq; [|done].
        destruct (rg_session _ Hr _ _ Eq) as (u & Hu & _). rewrite Hu. case_bool_decide as Hd.
        - injection Hd as ->. by rewrite lookup_insert_eq.
        - rewrite lookup_insert_ne by congruence. done. }
      unfold view_of. rewrite Hown. exact Hview.
    + destruct (Helse sid Hne) as (e1 & e2 & e3 & e4 & e5). unfold view_of. rewrite e1, e2, e3, e4, e5.
      replace (own y' sid) with (own y sid); [apply Hv|]. unfold own. rewrite Hb, Hh.
      destruct (bySession (mgr y) !! sid) as [q|] eqn:Eq; [|done]. rewrite lookup_insert_ne; [done|].
      intros <-. destruct (rg_session _ Hr _ _ Eq) as (u & Hu & Hus & _). congruence.
  - intros Hst q u Hq Hu. rewrite Hh in Hq. apply lookup_insert_Some in Hq as [[<- <-]|[_ Hq]]; [auto|].
    by apply (Hc Hst q u).
Qed.

(** For a run that is going, and stays so. *)
Lemma inv_move_live y y' p t t' :
  inv y -> heap y !! p = Some t -> live t -> live t' -> heap y' = <[p := t']> (heap y) ->
  bySession (mgr y') = bySession (mgr y) -> sid_of t' = sid_of t ->
  same_elsewhere (sid_of t) y y' ->
  (forall id q, byID (mgr y') !! id = Some q ->
     q = p /\ a_id (t_active t') = id /\ published t' = true \/ q <> p /\ byID (mgr y) !! id = Some q) ->
  (strict -> returned t' = true -> closed_agent t') ->
  view_ok (mkView (at_ (logs y') (sid_of t)) (pendingFor (sid_of t) (mgr y')) (Some t')
    (at_ (accepted_by y') (sid_of t)) (at_ (given_to y') (sid_of t)) (at_ (lost_by y') (sid_of t))) ->
  inv y'.
Proof.
  intros Hi Hp Hl Hl' Hh Hb Hs Helse Hid Hc Hview. pose proof (iv_registry _ Hi) as Hr.
  apply (inv_move y y' p t t'); try done.
  - intros id q Hq. destruct (Hid id q Hq) as [(?&?&?)|?]; [by left|by right].
  - rewrite (own_live y p t Hr Hp Hl), bool_decide_eq_true_2 by (by apply (rg_live _ Hr)). exact Hview.
Qed.

(** A step that only moves the goroutine of a run that is going. *)
Lemma inv_goto y p t t' rows' late' :
  inv y -> heap y !! p = Some t -> live t -> live t' -> sid_of t' = sid_of t ->
  (published t = true -> published t' = true /\ a_id (t_active t') = a_id (t_active t)) ->
  (strict -> returned t' = true -> closed_agent t') ->
  held t' = held t -> thread_ok (at_ (logs y) (sid_of t)) t' -> t_job t' = t_job t -> (strict -> took t' = took t) ->
  inv (put p t' (set_rows rows' (set_late late' y))).
Proof.
  intros Hi Hp Hl Hl' Hs Hpub Hc Hheld Hok Hj Ht. pose proof (iv_registry _ Hi) as Hr.
  apply (inv_move_live y _ p t t'); try done.
  - cbn. intros id q Hq. destruct (rg_id _ Hr _ _ Hq) as (u & Hu & Hid & Hup & _).
    destruct (decide (q = p)) as [->|Hne]; [left|by right].
    assert (u = t) by congruence. subst u. destruct (Hpub Hup) as [? ->]. done.
  - pose proof (iv_views _ Hi (sid_of t)) as [a b c d e f]. unfold view_of in *. cbn in *.
    rewrite (own_live y p t Hr Hp Hl) in *. cbn in *. split; cbn; try done.
    + by rewrite Hheld.
    + intros Hst. rewrite Hj, (Ht Hst). by apply f.
Qed.

(** The same for a run that is over, whose session may have another. *)
Lemma inv_move_dead y y' p t t' :
  inv y -> heap y !! p = Some t -> ~ live t -> ~ live t' -> heap y' = <[p := t']> (heap y) ->
  bySession (mgr y') = bySession (mgr y) -> byID (mgr y') = byID (mgr y) -> sid_of t' = sid_of t ->
  same_elsewhere (sid_of t) y y' ->
  (strict -> returned t' = true -> closed_agent t') ->
  view_ok (mkView (at_ (logs y') (sid_of t)) (pendingFor (sid_of t) (mgr y')) (own y (sid_of t))
    (at_ (accepted_by y') (sid_of t)) (at_ (given_to y') (sid_of t)) (at_ (lost_by y') (sid_of t))) ->
  inv y'.
Proof.
  intros Hi Hp Hl Hl' Hh Hb Hib Hs Helse Hc Hview. pose proof (iv_registry _ Hi) as Hr.
  apply (inv_move y y' p t t'); try done.
  - intros id q Hq. right. rewrite Hib in Hq. split; [|done]. intros ->.
    destruct (rg_id _ Hr _ _ Hq) as (u & Hu & _ & _ & Hul). congruence.
  - rewrite bool_decide_eq_false_2; [by destruct (own y (sid_of t))|]. intros Hq.
    destruct (rg_session _ Hr _ _ Hq) as (u & Hu & _ & Hul). congruence.
Qed.

(** A run that leaves its session. *)
Lemma inv_leave y y' p t t' :
  inv y -> heap y !! p = Some t -> live t -> ~ live t' -> heap y' = <[p := t']> (heap y) ->
  bySession (mgr y') = base.delete (sid_of t) (bySession (mgr y)) -> sid_of t' = sid_of t ->
  same_elsewhere (sid_of t) y y' ->
  (forall id q, byID (mgr y') !! id = Some q -> q <> p /\ byID (mgr y) !! id = Some q) ->
  (strict -> closed_agent t') ->
  view_ok (mkView (at_ (logs y') (sid_of t)) (pendingFor (sid_of t) (mgr y')) None
    (at_ (accepted_by y') (sid_of t)) (at_ (given_to y') (sid_of t)) (at_ (lost_by y') (sid_of t))) ->
  inv y'.
Proof.
  intros [Hr Hv Hc] Hp Hl Hl' Hh Hb Hs Helse Hid Hcl Hview. split.
  - split.
    + intros sid q Hq. rewrite Hb in Hq. apply lookup_delete_Some in Hq as [Hne Hq].
      destruct (rg_session _ Hr _ _ Hq) as (u & Hu & Hus & Hul). exists u. rewrite Hh, lookup_insert_ne; [done|].
      intros <-. congruence.
    + intros q u Hq Hu. rewrite Hh in Hq. apply lookup_insert_Some in Hq as [[<- <-]|[Hne Hq]]; [done|].
      rewrite Hb. pose proof (rg_live _ Hr q u Hq Hu) as Hreg. rewrite lookup_delete_ne; [done|].
      intros Heq. rewrite <- Heq, (rg_live _ Hr p t Hp Hl) in Hreg. congruence.
    + intros id q Hq. rewrite Hh. destruct (Hid id q Hq) as [Hne Hq']. rewrite lookup_insert_ne by done.
      by apply (rg_id _ Hr).
  - intros sid. destruct (decide (sid = sid_of t)) as [->|Hne].
    + unfold view_of. replace (own y' (sid_of t)) with (@None thread); [exact Hview|].
      unfold own. by rewrite Hb, lookup_delete_eq.
    + destruct (Helse sid Hne) as (e1 & e2 & e3 & e4 & e5). unfold view_of. rewrite e1, e2, e3, e4, e5.
      replace (own y' sid) with (own y sid); [apply Hv|]. unfold own. rewrite Hb, Hh, lookup_delete_ne by done.
      destruct (bySession (mgr y) !! sid) as [q|] eqn:Eq; [|done]. rewrite lookup_insert_ne; [done|].
      intros <-. destruct (rg_session _ Hr _ _ Eq) as (u & Hu & Hus & _). congruence.
  - intros Hst q u Hq Hu. rewrite Hh in Hq. apply lookup_insert_Some in Hq as [[<- <-]|[_ Hq]]; [auto|].
    by apply (Hc Hst q u).
Qed.

(** A run that claims a free session. *)
Lemma inv_enter y p sid ws j a r :
  inv y -> heap y !! p = None -> (j_compact j = false -> user_message (j_message j)) ->
  (strict -> j_compact j = false) -> reserve p sid ws (mgr y) = inl (a, r) ->
  inv (put p (mkThread a j PReserved) (set_mgr r y)).
Proof.
  intros [Hr Hv Hc] Hp Hj Hstr Hres. unfold reserve in Hres. destruct (stopped (mgr y)) eqn:Es; [done|].
  destruct (bySession (mgr y) !! sid) as [q|] eqn:Eq; [done|]. injection Hres as <- <-. split.
  - split; cbn.
    + intros k q Hq. apply lookup_insert_Some in Hq as [[<- <-]|[Hne Hq]].
      * exists (mkThread (mkActive sid ws EmptyString None false false false) j PReserved). by rewrite lookup_insert_eq.
      * destruct (rg_session _ Hr _ _ Hq) as (u & Hu & ?). exists u. rewrite lookup_insert_ne; [done|].
        intros <-. congruence.
    + intros q u Hq Hu. apply lookup_insert_Some in Hq as [[<- <-]|[Hne Hq]]; [by rewrite lookup_insert_eq|].
      pose proof (rg_live _ Hr q u Hq Hu) as Hreg. rewrite lookup_insert_ne; [done|]. intros Heq. congruence.
    + intros id q Hq. destruct (rg_id _ Hr _ _ Hq) as (u & Hu & ?). exists u. rewrite lookup_insert_ne; [done|].
      intros <-. congruence.
  - intros k. pose proof (Hv k) as [a b c d e f]. unfold view_of in *. cbn [v_log v_pending v_own v_accepted v_given v_lost] in *.
    destruct (decide (k = sid)) as [->|Hne].
    + assert (H0 : own y sid = None) by (unfold own; by rewrite Eq). rewrite H0 in *.
      replace (own _ sid) with (Some (mkThread (mkActive sid ws EmptyString None false false false) j PReserved));
        [|unfold own; cbn; by rewrite !lookup_insert_eq].
      split; cbn; [done|done|done|split; [exact Hj|by split; [constructor|]]|exact e|].
      intros Hst. destruct (f Hst) as [-> _]. split; [done|]. split; [auto|done].
    + replace (own _ k) with (own y k); [by split|]. unfold own. cbn. rewrite lookup_insert_ne by done.
      destruct (bySession (mgr y) !! k) as [q|] eqn:Ek; [|done]. rewrite lookup_insert_ne; [done|].
      intros <-. destruct (rg_session _ Hr _ _ Ek) as (u & Hu & _). congruence.
  - intros Hst q u Hq Hu. cbn in Hq. apply lookup_insert_Some in Hq as [[<- <-]|[_ Hq]]; [done|]. by apply (Hc Hst q u).
Qed.

(** A step that touches no run and no message. *)
Lemma inv_still y y' :
  inv y -> bySession (mgr y') = bySession (mgr y) -> byID (mgr y') = byID (mgr y) -> pending (mgr y') = pending (mgr y) ->
  heap y' = heap y -> logs y' = logs y -> accepted_by y' = accepted_by y -> given_to y' = given_to y ->
  lost_by y' = lost_by y -> inv y'.
Proof.
  intros [Hr Hv Hc] H1 H2 H3 H4 H5 H6 H7 H8. split.
  - destruct Hr as [a b c]. split; rewrite ?H1, ?H2, ?H4; done.
  - intros sid. specialize (Hv sid). unfold view_of, own, pendingFor in *. by rewrite H1, H3, H4, H5, H6, H7, H8.
  - by rewrite H4.
Qed.
End invariant.
