(* ===== verification/RunManagerSteps.v ===== *)
(** Every step of the run manager keeps its invariants. *)
From S2P Require Import Prelude GoStr Float64 Provider Sampling Failure Tool Conversation Context Compaction.
From S2P Require Import Summary World Stream ContextFile Agent Outside AgentSpec AgentRun Session.
From S2P Require Import SessionSpec Entries RunManager RunManagerSpec.
From stdpp Require Import options.

#[local] Set Default Proof Using "Type*".

(** ** Queues *)

Lemma agent_queued opts w t :
  a_agent (t_active t) = Some (opts, w) -> agent_steering t ++ agent_followUps t = queued w.
Proof. intros H. unfold agent_steering, agent_followUps. by rewrite H. Qed.

Lemma foldl_Steer ms w :
  accepting w = true ->
  let w' := foldl (fun w m => (Steer m w).2) w ms in
  accepting w' = true /\ Q.messages (steering w') = Q.messages (steering w) ++ ms /\ followUps w' = followUps w /\
  conv w' = conv w /\ log w' = log w /\ requests w' = requests w /\ records w' = records w.
Proof.
  revert w. induction ms as [|m ms IH]; intros w H; cbn [foldl]; cbn zeta; [by rewrite app_nil_r|].
  assert (Hs : (Steer m w).2 = set_accepted (accepted w ++ [m]) (set_steering (Q.push m (steering w)) w))
    by (unfold Steer; by rewrite H).
  cbn zeta in IH. rewrite Hs. destruct (IH _ (H : accepting (set_accepted (accepted w ++ [m]) (set_steering (Q.push m (steering w)) w)) = true)) as (h1 & h2 & h3 & h4 & h5 & h6 & h7).
  cbn [Q.messages Q.push steering followUps set_accepted set_steering set_followUps] in h2. by rewrite h2, <- app_assoc.
Qed.

Lemma foldl_FollowUp ms w :
  accepting w = true ->
  let w' := foldl (fun w m => (FollowUp m w).2) w ms in
  accepting w' = true /\ Q.messages (followUps w') = Q.messages (followUps w) ++ ms /\ steering w' = steering w /\
  conv w' = conv w /\ log w' = log w /\ requests w' = requests w /\ records w' = records w.
Proof.
  revert w. induction ms as [|m ms IH]; intros w H; cbn [foldl]; cbn zeta; [by rewrite app_nil_r|].
  assert (Hs : (FollowUp m w).2 = set_accepted (accepted w ++ [m]) (set_followUps (Q.push m (followUps w)) w))
    by (unfold FollowUp; by rewrite H).
  cbn zeta in IH. rewrite Hs. destruct (IH _ (H : accepting (set_accepted (accepted w ++ [m]) (set_followUps (Q.push m (followUps w)) w)) = true)) as (h1 & h2 & h3 & h4 & h5 & h6 & h7).
  cbn [Q.messages Q.push steering followUps set_accepted set_steering set_followUps] in h2. by rewrite h2, <- app_assoc.
Qed.

(** What waited for a run is in its queues, in order. *)
Lemma refill_queued q ms l :
  let w := refill q (agent_world ms l) in
  queued w = waiting q /\ messages_of w = ms /\ log w = l /\ requests w = [] /\ records w = [].
Proof.
  unfold refill. destruct (foldl_Steer (q_steering q) (agent_world ms l) eq_refl) as (h1 & h2 & h3 & h4 & h5 & h6 & h7).
  destruct (foldl_FollowUp (q_followUps q) _ h1) as (k1 & k2 & k3 & k4 & k5 & k6 & k7). cbn zeta.
  unfold queued, messages_of. rewrite k2, k3, k4, k5, k6, k7, h2, h3, h4, h5, h6, h7. done.
Qed.

Lemma enqueue_inv msg mode a a' :
  enqueue msg mode a = inl a' ->
  exists opts w w', a_agent a = Some (opts, w) /\ a' = set_agent (Some (opts, w')) a /\ accepting w = true /\
    w' = (if String.eqb mode modeSteer then Steer msg w else FollowUp msg w).2.
Proof.
  unfold enqueue. destruct (a_agent a) as [[opts w]|]; [|done]. destruct (negb _ && _); [done|].
  unfold Steer, FollowUp. destruct (String.eqb mode modeSteer), (accepting w) eqn:Ea; try done;
    intros H; injection H as <-; exists opts, w; eexists; repeat split; by rewrite ?Ea.
Qed.

Section steps.
Context (respell : string -> string) (strict : Prop).
Abbreviation inv := (inv strict).
Abbreviation view_ok := (view_ok strict).

Lemma elsewhere_add y sid l k : k <> sid -> at_ (add_to sid l y) k = at_ (A := Message) y k.
Proof. intros H. unfold at_, add_to. by rewrite lookup_insert_ne. Qed.

Lemma at_add sid l (m : gmap string (list Message)) : at_ (add_to sid l m) sid = at_ m sid ++ l.
Proof. unfold at_, add_to. by rewrite lookup_insert_eq. Qed.

(** ** Taking over what waited *)

Lemma step_fill y p t row opts ms :
  inv y -> heap y !! p = Some t -> t_pc t = PStarted row opts ms ->
  let w := agent_world ms (at_ (logs y) (sid_of t)) in
  let '(queued, r) := takePending (sid_of t) (mgr y) in
  inv (if j_compact (t_job t) then put p (goto (PFilled row opts w) t) y
       else put p (goto (PFilled row opts (refill queued w)) t) (set_mgr r y)).
Proof.
  intros Hi Hp Hpc. assert (Hl : live t) by (unfold live; by rewrite Hpc). cbn zeta.
  destruct (takePending _ _) as [q r] eqn:Eq. unfold takePending in Eq. injection Eq as <- <-.
  pose proof (iv_views _ _ Hi (sid_of t)) as [a b c d e f]. unfold view_of in *. cbn [v_log v_pending v_own v_accepted v_given v_lost] in *.
  rewrite (own_live y p t (iv_registry _ _ Hi) Hp Hl) in *. destruct d as (d1 & d2 & d3). rewrite Hpc in d3. destruct d3 as (-> & d3 & d4).
  assert (Hheld : held t = []) by (unfold held; by rewrite Hpc).
  destruct (j_compact (t_job t)) eqn:Ej.
  - apply (inv_goto strict y p t _ (rows y) (late y)); try done.
    + unfold published, returned. by rewrite Hpc.
    + split; [cbn; by rewrite Ej|]. split; [constructor|]. by repeat split.
    + intros Hst. destruct (f Hst) as [_ [? _]]. congruence.
  - destruct (refill_queued (pendingFor (sid_of t) (mgr y)) (replay (at_ (logs y) (sid_of t))) (at_ (logs y) (sid_of t)))
      as (h1 & h2 & h3 & h4 & h5).
    apply (inv_move_live strict y _ p t (goto (PFilled row opts (refill (pendingFor (sid_of t) (mgr y))
      (agent_world (replay (at_ (logs y) (sid_of t))) (at_ (logs y) (sid_of t))))) t)); try done.
    + intros k Hk. unfold pendingFor. cbn. by rewrite lookup_delete_ne.
    + cbn. intros id q Hq. right. split; [|done]. intros ->. destruct (rg_id _ (iv_registry _ _ Hi) _ _ Hq) as (u & Hu & _ & Hup & _).
      assert (u = t) by congruence. subst u. unfold published, returned in Hup. by rewrite Hpc in Hup.
    + assert (Hn : forall m, pendingFor (sid_of t) (mkRuns (stopped m) (bySession m) (byID m)
        (base.delete (sid_of t) (pending m))) = no_messages) by (intros m; unfold pendingFor; cbn; by rewrite lookup_delete_eq).
      cbn [mgr set_mgr put]. rewrite Hn.
      split; cbn [v_log v_pending v_own v_accepted v_given v_lost from_option]; try done.
      * split; [intros _; by apply d1|]. cbn [held t_pc goto]. rewrite h1. split; [done|]. split; [|done]. by split; rewrite ?h1.
      * cbn [held t_pc goto] in *. rewrite h1. cbn in e. rewrite Hheld in e. exact e.
      * intros Hst. destruct (f Hst) as [fl _]. split; [exact fl|]. split; [exact Ej|done].
Qed.

(** ** Running *)

Lemma unrun_startable l opts w : unrun l opts w -> well_formed (replay l) -> startable opts (forget_accepted w).
Proof.
  intros [a b c [d1 d2] e] Hw. split; [|by intros _; change (replay (log w) = messages_of w); rewrite b, a|exact c|done].
  change (well_formed (messages_of w)). by rewrite a.
Qed.

Lemma step_run y p t opts w E fuel err w' :
  inv y -> heap y !! p = Some t -> t_pc t = PDriving -> a_agent (t_active t) = Some (opts, w) ->
  UserArrivals E -> tool_stores_safe E -> (strict -> ~ unprepared err) ->
  loop_of E opts fuel (t_active t) (t_job t) (forget_accepted w) = Some (err, w') ->
  inv (put p (goto (PReturned err) (with_active (set_agent (Some (opts, w')) (t_active t)) t))
      (set_logs (<[sid_of t := map (kept_item respell) (log w')]> (logs y))
      (set_accepted_by (add_to (sid_of t) (accepted w') (accepted_by y))
      (set_given_to (add_to (sid_of t) (if j_compact (t_job t) then [] else submitted (j_message (t_job t))) (given_to y)) y)))).
Proof.
  intros Hi Hp Hpc Ha HE Hsafe Hstr Hrun. assert (Hl : live t) by (unfold live; by rewrite Hpc).
  pose proof (iv_views _ _ Hi (sid_of t)) as [a b c d e f]. unfold view_of in *. cbn [v_log v_pending v_own v_accepted v_given v_lost] in *.
  rewrite (own_live y p t (iv_registry _ _ Hi) Hp Hl) in *. destruct d as (d1 & d2 & d3). rewrite Hpc in d3.
  destruct d3 as (o & u & Hou & Hun). rewrite Ha in Hou. injection Hou as <- <-.
  set (given := if j_compact (t_job t) then [] else submitted (j_message (t_job t))) in *.
  assert (Hover : loop_over given (forget_accepted w) w').
  { pose proof (wp_loop E opts fuel (t_active t) (t_job t) (forget_accepted w)
      (unrun_startable _ _ _ Hun a) (un_store _ _ _ Hun) Hsafe d1) as H. unfold wp in H. by rewrite Hrun in H. }
  destruct Hover as [k1 k2 k3 k4 (dr & k5 & k6)].
  assert (Hgu : Forall user_message given).
  { subst given. destruct (j_compact (t_job t)); [constructor|]. unfold submitted.
    destruct (Empty _); [constructor|]. apply Forall_singleton. auto. }
  assert (Hlw : log_users (log (forget_accepted w)) ++ queued (forget_accepted w) =
    log_users (at_ (logs y) (sid_of t)) ++ held t).
  { change (log_users (log w) ++ queued w = log_users (at_ (logs y) (sid_of t)) ++ held t).
    rewrite (un_log _ _ _ Hun). f_equal. unfold held. rewrite Hpc. symmetry. by eapply agent_queued. }
  assert (k7 : log_users (log w') ++ queued w' ++ dr ≡ₚ
    (log_users (at_ (logs y) (sid_of t)) ++ held t) ++ given ++ accepted w') by (by rewrite k6, <- Hlw, <- !app_assoc).
  assert (Hlu : Forall user_message (log_users (log w'))).
  { assert (H : Forall user_message (log_users (log w') ++ queued w' ++ dr)).
    { rewrite k7. repeat (apply Forall_app; split); done. }
    by apply Forall_app in H as [? _]. }
  apply (inv_move_live strict y _ p t (goto (PReturned err) (with_active (set_agent (Some (opts, w')) (t_active t)) t)));
    try done.
  - intros k Hk. cbn. rewrite !elsewhere_add by done. unfold at_. by rewrite lookup_insert_ne.
  - cbn. intros id q Hq. destruct (rg_id _ (iv_registry _ _ Hi) _ _ Hq) as (v & Hv & Hid & Hup & _).
    destruct (decide (q = p)) as [->|Hne]; [left|by right]. by assert (v = t) as -> by congruence.
  - intros Hst _. unfold closed_agent. cbn. destruct (f Hst) as (_ & Hj & _).
    unfold loop_of in Hrun. rewrite Hj in Hrun. by eapply run_prompt_fails; [exact Hrun|auto].
  - cbn [logs mgr put set_logs set_accepted_by set_given_to accepted_by given_to lost_by]. rewrite !at_add.
    assert (Hlog : forall l, at_ (<[sid_of t := l]> (logs y)) (sid_of t) = l) by (intros l; unfold at_; by rewrite lookup_insert_eq).
    rewrite Hlog.
    assert (Hheld : held (goto (PReturned err) (with_active (set_agent (Some (opts, w')) (t_active t)) t)) = queued w').
    { unfold held. cbn [t_pc goto]. by eapply agent_queued. }
    split; cbn [v_log v_pending v_own v_accepted v_given v_lost from_option].
    + rewrite replay_kept. unfold well_formed. rewrite accepts_kept, k1. exact k2.
    + rewrite log_users_kept, kept_users by done. exact Hlu.
    + exact c.
    + split; [exact d1|]. rewrite Hheld. split; [exact k3|]. by eexists.
    + rewrite Hheld, log_users_kept, kept_users by done. destruct e as (dd & e1 & e2). exists (dd ++ dr).
      split; [by apply submseteq_app|]. cbn in e2. fold given.
      transitivity ((log_users (log w') ++ queued w' ++ dr) ++ waiting (pendingFor (sid_of t) (mgr y)) ++ at_ (lost_by y) (sid_of t) ++ dd);
        [by solve_Permutation|].
      rewrite k7.
      transitivity ((log_users (at_ (logs y) (sid_of t)) ++ waiting (pendingFor (sid_of t) (mgr y)) ++ held t ++
        at_ (lost_by y) (sid_of t) ++ dd) ++ accepted w' ++ given); [by solve_Permutation|].
      rewrite e2. by solve_Permutation.
    + intros Hst. destruct (f Hst) as (fl & fj & ft). split; [exact fl|]. split; [exact fj|]. intros _. apply ft.
      unfold took. by rewrite Hpc.
Qed.

(** ** Finishing *)

Lemma drop_session_own y p t :
  registry y -> heap y !! p = Some t -> live t ->
  drop_session p (t_active t) (mgr y) = base.delete (sid_of t) (bySession (mgr y)).
Proof. intros Hr Hp Hl. unfold drop_session. by rewrite bool_decide_eq_true_2 by (by apply (rg_live _ Hr)). Qed.

Lemma step_give_up y p t :
  inv y -> heap y !! p = Some t -> (t_pc t = PReserved \/ exists ms, t_pc t = PLoaded ms) ->
  inv (put p (goto PDone (with_active (abandon p (t_active t) (mgr y)).1 t))
              (set_mgr (abandon p (t_active t) (mgr y)).2 y)).
Proof.
  intros Hi Hp Hpc. assert (Hl : live t) by (unfold live; destruct Hpc as [->|[? ->]]; done).
  assert (Hh : held t = []) by (unfold held; destruct Hpc as [->|[? ->]]; done).
  assert (Hup : published t = false) by (unfold published, returned; destruct Hpc as [->|[? ->]]; done).
  pose proof (iv_views _ _ Hi (sid_of t)) as [a b c d e f]. unfold view_of in *. cbn [v_log v_pending v_own v_accepted v_given v_lost] in *.
  rewrite (own_live y p t (iv_registry _ _ Hi) Hp Hl) in *. cbn in e. rewrite Hh in e.
  assert (Hag : a_agent (t_active t) = None) by (destruct d as (_ & _ & d); destruct Hpc as [Hpc|[? Hpc]]; rewrite Hpc in d; tauto).
  apply (inv_leave strict y _ p t (goto PDone (with_active (abandon p (t_active t) (mgr y)).1 t))); try done.
  - by intros [].
  - cbn. by apply drop_session_own; [apply (iv_registry strict)|..].
  - cbn. intros id q Hq.
    assert (Hq' : byID (mgr y) !! id = Some q).
    { destruct (String.eqb _ _); [done|]. by apply lookup_delete_Some in Hq as [_ Hq]. }
    split; [|done]. intros ->. destruct (rg_id _ (iv_registry _ _ Hi) _ _ Hq') as (v & Hv & _ & Hvp & _).
    assert (v = t) by congruence. subst v. congruence.
  - intros _. unfold closed_agent. cbn. by rewrite Hag.
  - split; cbn [v_log v_pending v_own v_accepted v_given v_lost from_option]; try done.
    intros Hst. by destruct (f Hst).
Qed.

Lemma waiting_nil q : waiting q = [] -> q_steering q = [] /\ q_followUps q = [].
Proof. unfold waiting. intros H. by apply app_nil in H. Qed.

(** What [finish] leaves waiting. *)
Lemma finish_pending p t q r :
  Forall user_message (waiting q) ->
  Forall user_message (waiting (pendingFor (sid_of t) r)) ->
  let r' := finish p (t_active t) q r in
  Forall user_message (waiting (pendingFor (sid_of t) r')) /\
  waiting (pendingFor (sid_of t) r') ++ overwritten q (sid_of t) r ≡ₚ waiting q ++ waiting (pendingFor (sid_of t) r) /\
  (forall k, k <> sid_of t -> pendingFor k r' = pendingFor k r).
Proof.
  intros Hq Hp r'. unfold overwritten. destruct (waiting q) as [|m l] eqn:Ew.
  - apply waiting_nil in Ew as [E1 E2].
    assert (Hr : forall k, pendingFor k r' = pendingFor k r).
    { intros k. unfold r', finish, pendingFor. by rewrite E1, E2. }
    rewrite Hr, app_nil_r. done.
  - assert (Hr : pending r' = <[sid_of t := q]> (pending r)).
    { unfold r', finish. cbn [pending]. destruct q as [[|s ss] [|f fs]]; done. }
    assert (Hs : pendingFor (sid_of t) r' = q) by (unfold pendingFor; by rewrite Hr, lookup_insert_eq).
    rewrite Hs, Ew. split; [done|]. split; [done|]. intros k Hk. unfold pendingFor. by rewrite Hr, lookup_insert_ne.
Qed.

Lemma step_finish y p t q :
  inv y -> heap y !! p = Some t -> t_pc t = PSnapshot q ->
  inv (put p (goto PForgotten t) (set_mgr (finish p (t_active t) q (mgr y))
      (set_lost_by (add_to (sid_of t) (overwritten q (sid_of t) (mgr y)) (lost_by y)) y))).
Proof.
  intros Hi Hp Hpc. assert (Hl : live t) by (unfold live; by rewrite Hpc).
  assert (Hh : held t = waiting q) by (unfold held; by rewrite Hpc).
  pose proof (iv_views _ _ Hi (sid_of t)) as [a b c d e f]. unfold view_of in *. cbn [v_log v_pending v_own v_accepted v_given v_lost] in *.
  rewrite (own_live y p t (iv_registry _ _ Hi) Hp Hl) in *. cbn in e. rewrite Hh in e.
  destruct d as (d1 & d2 & _). rewrite Hh in d2.
  destruct (finish_pending p t q (mgr y) d2 c) as (h1 & h2 & h3). cbn zeta in *.
  apply (inv_leave strict y _ p t (goto PForgotten t)); try done.
  - by intros [].
  - cbn. by apply drop_session_own; [apply (iv_registry strict)|..].
  - intros k Hk. cbn. rewrite elsewhere_add by done. rewrite (h3 k Hk). done.
  - cbn. intros id i Hq. apply lookup_delete_Some in Hq as [Hne Hq]. split; [|done]. intros ->.
    destruct (rg_id _ (iv_registry _ _ Hi) _ _ Hq) as (v & Hv & Hid & _). assert (v = t) by congruence. subst v. congruence.
  - intros Hst. apply (iv_closed _ _ Hi Hst p t Hp). unfold returned. by rewrite Hpc.
  - cbn [logs mgr put set_mgr set_lost_by accepted_by given_to lost_by]. rewrite at_add.
    split; cbn [v_log v_pending v_own v_accepted v_given v_lost from_option]; try done.
    + destruct e as (dd & e1 & e2). exists dd. split; [done|]. rewrite <- e2, app_nil_l.
      transitivity (log_users (at_ (logs y) (sid_of t)) ++ (waiting (pendingFor (sid_of t) (finish p (t_active t) q (mgr y))) ++
        overwritten q (sid_of t) (mgr y)) ++ at_ (lost_by y) (sid_of t) ++ dd); [by solve_Permutation|].
      rewrite h2. by solve_Permutation.
    + intros Hst. destruct (f Hst) as (fl & fj & ft). split; [|done]. rewrite fl. cbn. unfold overwritten.
      rewrite ft by (unfold took; by rewrite Hpc). by destruct (waiting q).
Qed.

(** ** Joining a run *)

(** Where an accepted message is. *)
Lemma enqueue_held t msg mode a :
  enqueue msg mode (t_active t) = inl a ->
  sid_of (with_active a t) = sid_of t /\ a_id a = a_id (t_active t) /\
  (is_Some (a_agent (t_active t)) -> live t ->
   match t_pc t with PReserved | PLoaded _ | PStarted _ _ _ | PFilled _ _ _ => False | _ => True end ->
   held (with_active a t) ++ (if too_late mode t then [msg] else []) ≡ₚ held t ++ [msg]) /\
  (match t_pc t with PReserved | PLoaded _ | PStarted _ _ _ | PFilled _ _ _ => False | _ => True end ->
   user_message msg -> Forall user_message (held t) -> Forall user_message (held (with_active a t))).
Proof.
  intros H. destruct (enqueue_inv _ _ _ _ H) as (opts & w & w' & Ha & -> & Hacc & ->).
  split; [done|]. split; [done|].
  unfold held, too_late, live, Steer, FollowUp, agent_steering, agent_followUps, PendingSteering, PendingFollowUps, Q.pending.
  cbn [t_active t_pc with_active a_agent set_agent]. rewrite Ha, Hacc.
  split.
  - intros _ Hl Hpc. destruct (t_pc t); try done; destruct (String.eqb mode modeSteer); cbn; by solve_Permutation.
  - intros Hpc Hm Hf. destruct (t_pc t); try done; destruct (String.eqb mode modeSteer); cbn in *;
      repeat match goal with H : Forall _ (_ ++ _) |- _ => apply Forall_app in H as [? ?] end;
      repeat (apply Forall_app; split); try done; by apply Forall_singleton.
Qed.

Lemma enqueue_unrun l opts w msg mode :
  unrun l opts w -> user_message msg -> unrun l opts (if String.eqb mode modeSteer then Steer msg w else FollowUp msg w).2.
Proof.
  intros [a b c d e] Hm. unfold Steer, FollowUp. destruct (String.eqb mode modeSteer), (accepting w); cbn; split; try done.
  - unfold queued in *. cbn. apply Forall_app in c as [c1 c2]. repeat (apply Forall_app; split); try done. by apply Forall_singleton.
  - unfold queued in *. cbn. apply Forall_app in c as [c1 c2]. repeat (apply Forall_app; split); try done. by apply Forall_singleton.
Qed.

Lemma step_enqueue y p t msg mode a :
  inv y -> heap y !! p = Some t -> user_message msg -> enqueue msg mode (t_active t) = inl a ->
  inv (put p (with_active a t)
      (set_accepted_by (add_to (sid_of t) [msg] (accepted_by y))
      (set_lost_by (add_to (sid_of t) (if too_late mode t then [msg] else []) (lost_by y)) y))).
Proof.
  intros Hi Hp Hm He. destruct (enqueue_held t msg mode a He) as (Hsid & Haid & Hheld & Hhu).
  destruct (enqueue_inv _ _ _ _ He) as (opts & w & w' & Ha & Ea & Hacc & Ew).
  assert (Hcl : strict -> returned (with_active a t) = true -> closed_agent (with_active a t)).
  { intros Hst Hr. pose proof (iv_closed _ _ Hi Hst p t Hp Hr) as Hc. unfold closed_agent in Hc. rewrite Ha in Hc. congruence. }
  assert (Helse : same_elsewhere (sid_of t) y (put p (with_active a t)
      (set_accepted_by (add_to (sid_of t) [msg] (accepted_by y))
      (set_lost_by (add_to (sid_of t) (if too_late mode t then [msg] else []) (lost_by y)) y)))).
  { intros k Hk. cbn. by rewrite !elsewhere_add. }
  pose proof (iv_views _ _ Hi (sid_of t)) as [va vb vc vd ve vf]. unfold view_of in *. cbn [v_log v_pending v_own v_accepted v_given v_lost] in *.
  assert (Hdec : live t \/ ~ live t) by (unfold live; destruct (t_pc t); first [by left|by right; intros []]).
  destruct Hdec as [Hl|Hl].
  - rewrite (own_live y p t (iv_registry _ _ Hi) Hp Hl) in *. destruct vd as (d1 & d2 & d3).
    assert (Hpc : match t_pc t with PReserved | PLoaded _ | PStarted _ _ _ | PFilled _ _ _ => False | _ => True end).
    { unfold live in Hl. destruct (t_pc t); try done; [..|destruct d3 as [_ d3]|destruct d3 as (_ & _ & d3)|destruct d3 as [_ d3]];
        congruence. }
    specialize (Hheld ltac:(by eexists) Hl Hpc). specialize (Hhu Hpc Hm d2).
    apply (inv_move_live strict y _ p t (with_active a t)); try done.
    + cbn. intros id q Hq. destruct (rg_id _ (iv_registry _ _ Hi) _ _ Hq) as (v & Hv & Hid & Hup & _).
      destruct (decide (q = p)) as [->|Hne]; [left|by right]. assert (v = t) as -> by congruence.
      split; [done|]. by rewrite Haid.
    + cbn [logs mgr put set_accepted_by set_lost_by accepted_by given_to lost_by]. rewrite !at_add.
      split; cbn [v_log v_pending v_own v_accepted v_given v_lost from_option]; try done.
      * split; [done|]. split; [done|]. cbn [t_pc with_active t_active]. rewrite Ea. cbn [a_agent set_agent].
        destruct (t_pc t); try done; destruct d3 as (o & u & Hou & Hun); rewrite Ha in Hou; injection Hou as <- <-;
          exists opts, w'; (split; [done|]); rewrite Ew; by apply enqueue_unrun.
      * destruct ve as (dd & e1 & e2). exists dd. split; [done|]. cbn in e2.
        transitivity (log_users (at_ (logs y) (sid_of t)) ++ waiting (pendingFor (sid_of t) (mgr y)) ++
          (held (with_active a t) ++ (if too_late mode t then [msg] else [])) ++ at_ (lost_by y) (sid_of t) ++ dd);
          [by solve_Permutation|].
        rewrite Hheld.
        transitivity ((log_users (at_ (logs y) (sid_of t)) ++ waiting (pendingFor (sid_of t) (mgr y)) ++ held t ++
          at_ (lost_by y) (sid_of t) ++ dd) ++ [msg]); [by solve_Permutation|]. rewrite e2. by solve_Permutation.
      * intros Hst. destruct (vf Hst) as (fl & fj & ft). split; [|by split]. rewrite fl.
        unfold too_late. destruct (t_pc t) eqn:Epc; try done; exfalso;
          (assert (Hr : returned t = true) by (unfold returned; by rewrite Epc));
          pose proof (iv_closed _ _ Hi Hst p t Hp Hr) as Hc; unfold closed_agent in Hc; rewrite Ha in Hc; congruence.
  - assert (Hlate : too_late mode t = true) by (unfold too_late, live in *; destruct (t_pc t); first [done|exfalso; by apply Hl]).
    rewrite Hlate in *. apply (inv_move_dead strict y _ p t (with_active a t)); try done.
    cbn [logs mgr put set_accepted_by set_lost_by accepted_by given_to lost_by]. rewrite !at_add.
    split; cbn [v_log v_pending v_own v_accepted v_given v_lost]; try done.
    + destruct ve as (dd & e1 & e2). exists dd. split; [done|]. cbn in e2.
      transitivity ((log_users (at_ (logs y) (sid_of t)) ++ waiting (pendingFor (sid_of t) (mgr y)) ++
        from_option held [] (own y (sid_of t)) ++ at_ (lost_by y) (sid_of t) ++ dd) ++ [msg]); [by solve_Permutation|].
      rewrite e2. by solve_Permutation.
    + intros Hst. exfalso. assert (Hr : returned t = true) by (unfold returned, live in *; destruct (t_pc t); first [done|exfalso; by apply Hl]).
      pose proof (iv_closed _ _ Hi Hst p t Hp Hr) as Hc. unfold closed_agent in Hc. rewrite Ha in Hc. congruence.
Qed.

(** ** All steps *)

Lemma live_pc t : (t_pc t <> PForgotten /\ t_pc t <> PDone) <-> live t.
Proof. unfold live. destruct (t_pc t); split; try done; by intros [? ?]. Qed.

(** The session's part of the invariant, as a step of its own run sees it. *)
Lemma own_ok y p t : inv y -> heap y !! p = Some t -> live t ->
  thread_ok (at_ (logs y) (sid_of t)) t.
Proof.
  intros Hi Hp Hl. pose proof (vo_own _ _ (iv_views _ _ Hi (sid_of t))) as H. unfold view_of in H. cbn in H.
  by rewrite (own_live y p t (iv_registry _ _ Hi) Hp Hl) in H.
Qed.

Lemma step_publish y p t :
  inv y -> heap y !! p = Some t -> t_pc t = PBegun ->
  inv (put p (goto PDriving t)
    (set_mgr (mkRuns (stopped (mgr y)) (bySession (mgr y)) (<[a_id (t_active t) := p]> (byID (mgr y))) (pending (mgr y))) y)).
Proof.
  intros Hi Hp Hpc. assert (Hl : live t) by (unfold live; by rewrite Hpc).
  pose proof (iv_views _ _ Hi (sid_of t)) as [a b c d e f]. unfold view_of in *. cbn [v_log v_pending v_own v_accepted v_given v_lost] in *.
  rewrite (own_live y p t (iv_registry _ _ Hi) Hp Hl) in *. destruct d as (d1 & d2 & d3). rewrite Hpc in d3.
  assert (Hheld : held (goto PDriving t) = held t) by (unfold held; by rewrite Hpc).
  apply (inv_move_live strict y _ p t (goto PDriving t)); try done.
  - cbn. intros id q Hq. apply lookup_insert_Some in Hq as [[<- <-]|[_ Hq]]; [by left|].
    destruct (rg_id _ (iv_registry _ _ Hi) _ _ Hq) as (v & Hv & Hid & Hup & _).
    destruct (decide (q = p)) as [->|Hne]; [|by right]. exfalso. assert (v = t) as -> by congruence.
    unfold published, returned in Hup. by rewrite Hpc in Hup.
  - split; cbn [v_log v_pending v_own v_accepted v_given v_lost from_option]; try done.
    + split; [done|]. rewrite Hheld. by split.
    + by rewrite Hheld.
    + intros Hst. destruct (f Hst) as (fl & fj & ft). split; [done|]. split; [done|]. intros _. apply ft. unfold took. by rewrite Hpc.
Qed.

(** A run that is going moves on: its part of the invariant, and the
    obligations its place decides. *)
Ltac at_pc Hpc :=
  unfold published, returned, took; cbn [t_pc goto with_active t_active]; rewrite ?Hpc; try done.

Lemma step_load y p t :
  inv y -> heap y !! p = Some t -> t_pc t = PReserved ->
  inv (put p (goto (PLoaded (replay (at_ (logs y) (sid_of t)))) t) y).
Proof.
  intros Hi Hp Hpc. assert (Hl : live t) by (unfold live; by rewrite Hpc).
  destruct (own_ok y p t Hi Hp Hl) as (d1 & d2 & d3). rewrite Hpc in d3.
  apply (inv_goto strict y p t _ (rows y) (late y)); try done; at_pc Hpc.
  all: try (unfold held; by rewrite Hpc).
  all: try (split; [done|]; split; [constructor|by split]).
Qed.

Lemma step_start y p t ms row opts :
  inv y -> heap y !! p = Some t -> t_pc t = PLoaded ms -> o_store opts = true ->
  inv (put p (goto (PStarted row opts ms) t) (set_rows (StartRun row (sid_of t) (rows y)) y)).
Proof.
  intros Hi Hp Hpc Hst. assert (Hl : live t) by (unfold live; by rewrite Hpc).
  destruct (own_ok y p t Hi Hp Hl) as (d1 & d2 & d3). rewrite Hpc in d3. destruct d3 as [d3 d4].
  apply (inv_goto strict y p t _ (StartRun row (sid_of t) (rows y)) (late y)); try done; at_pc Hpc.
  all: try (unfold held; by rewrite Hpc).
  all: try (split; [done|]; split; [constructor|by repeat split]).
Qed.

Lemma step_begin y p t row opts w :
  inv y -> heap y !! p = Some t -> t_pc t = PFilled row opts w ->
  inv (put p (goto PBegun (with_active (begin row (opts, w) (t_active t)) t)) y).
Proof.
  intros Hi Hp Hpc. assert (Hl : live t) by (unfold live; by rewrite Hpc).
  destruct (own_ok y p t Hi Hp Hl) as (d1 & d2 & d3). rewrite Hpc in d3. destruct d3 as [d3 d4].
  assert (Hheld : held (goto PBegun (with_active (begin row (opts, w) (t_active t)) t)) = held t)
    by (unfold held; by rewrite Hpc).
  apply (inv_goto strict y p t _ (rows y) (late y)); try done; at_pc Hpc.
  split; [done|]. rewrite Hheld. split; [done|]. by exists opts, w.
Qed.

(** After the loop: recording how it ended, and reading the queues. *)
Lemma step_after y p t c rows' late' :
  inv y -> heap y !! p = Some t -> live t -> returned t = true ->
  live (goto c t) -> returned (goto c t) = true -> took t = true -> took (goto c t) = true ->
  held (goto c t) = held t ->
  match c with PRecorded | PSteering _ => is_Some (a_agent (t_active t)) | PSnapshot _ => True | _ => False end ->
  inv (put p (goto c t) (set_rows rows' (set_late late' y))).
Proof.
  intros Hi Hp Hl Hr Hl' Hr' Htk Htk' Hheld Hc. destruct (own_ok y p t Hi Hp Hl) as (d1 & d2 & d3).
  apply (inv_goto strict y p t _ rows' late'); try done.
  - intros _. split; [|done]. unfold published. destruct (t_pc (goto c t)); done.
  - intros Hst _. by apply (iv_closed _ _ Hi Hst p t Hp).
  - split; [done|]. rewrite Hheld. split; [done|]. cbn. by destruct c.
  - intros _. by rewrite Htk, Htk'.
Qed.

(** A run that is aborted, or whose goroutine ends, keeps what it holds. *)
Lemma step_flags y p t a :
  inv y -> heap y !! p = Some t -> a_session a = sid_of t -> a_id a = a_id (t_active t) ->
  a_agent a = a_agent (t_active t) -> inv (put p (with_active a t) y).
Proof.
  intros Hi Hp Hs Hid Ha.
  assert (Hcl : strict -> returned (with_active a t) = true -> closed_agent (with_active a t)).
  { intros Hst Hr. pose proof (iv_closed _ _ Hi Hst p t Hp Hr) as Hc. unfold closed_agent in *. cbn. by rewrite Ha. }
  assert (Hdec : live t \/ ~ live t) by (unfold live; destruct (t_pc t); first [by left|by right; intros []]).
  destruct Hdec as [Hl|Hl].
  - destruct (own_ok y p t Hi Hp Hl) as (d1 & d2 & d3).
    assert (Hheld : held (with_active a t) = held t).
    { unfold held, agent_steering, agent_followUps. cbn. by rewrite Ha. }
    apply (inv_goto strict y p t _ (rows y) (late y)); try done.
    split; [done|]. rewrite Hheld. split; [done|]. cbn. by rewrite Ha.
  - apply (inv_move_dead strict y _ p t (with_active a t)); try done.
    exact (iv_views _ _ Hi (sid_of t)).
Qed.

Lemma step_done y p t :
  inv y -> heap y !! p = Some t -> t_pc t = PForgotten ->
  inv (put p (goto PDone (with_active (set_done true (set_cancelled true (t_active t))) t)) y).
Proof.
  intros Hi Hp Hpc. assert (Hl : ~ live t) by (unfold live; rewrite Hpc; tauto).
  apply (inv_move_dead strict y _ p t (goto PDone (with_active (set_done true (set_cancelled true (t_active t))) t)));
    try done.
  - unfold live. cbn. tauto.
  - intros Hst _. apply (iv_closed _ _ Hi Hst p t Hp). unfold returned. by rewrite Hpc.
  - exact (iv_views _ _ Hi (sid_of t)).
Qed.

Lemma step_inv y y' : inv y -> step respell strict y y' -> inv y'.
Proof.
  intros Hi Hst. destruct Hst.
  - by eapply inv_enter.
  - by apply step_load.
  - by apply step_give_up.
  - by apply step_start.
  - exact (step_fill y p t row opts ms Hi H H0).
  - by apply step_begin.
  - by apply step_publish.
  - by eapply step_run.
  - assert (Hl : live t) by (unfold live; by rewrite H0). pose proof (own_ok y p t Hi H Hl) as (_ & _ & d). rewrite H0 in d.
    apply step_after; try done; unfold returned, took, held; cbn; by rewrite H0.
  - by eapply inv_still.
  - assert (Hl : live t) by (unfold live; by rewrite H0).
    apply (step_after y p t (PSteering (PendingSteering w)) (rows y) (late y)); try done; try (unfold returned, took; by rewrite H0).
    unfold held, agent_steering. rewrite H0. cbn. by rewrite H1.
  - assert (Hl : live t) by (unfold live; by rewrite H0).
    apply (step_after y p t (PSnapshot (mkQueued l (PendingFollowUps w))) (rows y) (late y)); try done;
      try (unfold returned, took; by rewrite H0).
    unfold held, agent_followUps. rewrite H0. cbn. by rewrite H1.
  - by apply step_finish.
  - by apply step_done.
  - by eapply step_enqueue.
  - by apply step_flags.
  - by eapply inv_still.
  - by eapply inv_still.
Qed.

Lemma initial_inv y : initial y -> inv y.
Proof.
  intros [a b c d e f]. split.
  - split; rewrite a, ?b; cbn; intros; by simplify_map_eq.
  - intros sid. destruct (c sid) as [c1 c2]. unfold view_of, own. rewrite a, e, f, d. cbn.
    split; cbn; try done.
    exists []. split; [apply submseteq_nil_l|]. unfold at_. rewrite lookup_empty. cbn. by rewrite app_nil_r.
  - intros _ p t Hp. by rewrite b, lookup_empty in Hp.
Qed.

Lemma reachable_inv y : reachable_runs respell strict y -> inv y.
Proof.
  intros (y0 & H0 & H). apply initial_inv in H0. induction H as [|y1 y2 y3 Hs _ IH]; [done|].
  by eapply IH, step_inv.
Qed.
End steps.
