(* ===== verification/RunManagerClaims.v ===== *)
(** The properties of the run manager: one run for each session, valid
    conversations over any number of runs, and where accepted messages are,
    with the executions in which the code loses one. *)
From S2P Require Import Prelude GoStr Float64 Provider Sampling Failure Tool Conversation Context Compaction.
From S2P Require Import Summary World Stream ContextFile Agent Outside AgentSpec AgentRun Scenario Session.
From S2P Require Import SessionSpec Entries RunManager RunManagerSpec RunManagerSteps.
From stdpp Require Import options.

(** ** An execution

    A run that is cancelled while a message waits for it, and then a
    compaction the user asks for, which another message joins. *)
Definition ex_script_env (cancelled : bool) : Env := mkEnv (fun _ => if cancelled then Some (ErrContext "context canceled") else None)
  (fun _ => []) (fun _ _ => inl [KindTextDelta "a summary"; KindDone "stop"])
  (fun _ _ _ _ => inr (ErrText "no tool")) (fun _ _ => None) (fun _ _ => None) (fun _ _ => None)
  (fun t => Z.of_nat t * 1000000) (fun t => "run-" +:+ itoa (Z.of_nat t))
  (fun _ _ => inl None) (fun _ _ => inl EmptyString).

#[export] Instance ex_script_users b : UserArrivals (ex_script_env b).
Proof. intros t. constructor. Qed.

Lemma ex_script_safe b : tool_stores_safe (ex_script_env b).
Proof. done. Qed.

Definition ex_log : list StoreItem := map SMessage (take 3 ex_messages).

Definition ex_start : System := mkSystem newRuns ∅ {["s" := ex_log]} ∅ [] ∅ {["s" := log_users ex_log]} ∅.

Definition ex_keep (s : string) : string := s.

(** The moves of the execution: what a goroutine does next, when it can. *)
Inductive move : Type :=
| MReserve (p : nat) (j : job)
| MLoad (p : nat)
| MStart (p : nat) (row : string)
| MFill (p : nat)
| MBegin (p : nat)
| MPublish (p : nat)
| MRun (p : nat) (cancelled : bool)
| MRecord (p : nat)
| MRead (p : nat)
| MFinish (p : nat)
| MEnqueue (p : nat) (msg : Message)
| MAbortStale (id : string).

(** [careful] executions ask for no compaction and read their prompts. *)
Definition prompt_read (err : option GoError) : bool :=
  match err with Some (ErrWrap s _) => negb (String.eqb s "run agent") | _ => true end.

Definition attempt (careful : bool) (m : move) (y : System) : option System :=
  match m with
  | MReserve p j =>
      match heap y !! p, reserve p "s" "w" (mgr y) with
      | None, inl (a, r) =>
          if bool_decide (user_message (j_message j)) && negb (careful && j_compact j)
          then Some (put p (mkThread a j PReserved) (set_mgr r y)) else None
      | _, _ => None
      end
  | MLoad p => t ← heap y !! p;
      match t_pc t with
      | PReserved => Some (put p (goto (PLoaded (replay (at_ (logs y) (sid_of t)))) t) y)
      | _ => None
      end
  | MStart p row => t ← heap y !! p;
      match t_pc t, rows y !! row with
      | PLoaded ms, None =>
          if negb (String.eqb row EmptyString) && (negb (j_compact (t_job t)) || Compactable ex_compacting (agent_world ms []))
          then Some (put p (goto (PStarted row ex_compacting ms) t) (set_rows (StartRun row (sid_of t) (rows y)) y))
          else None
      | _, _ => None
      end
  | MFill p => t ← heap y !! p;
      match t_pc t with
      | PStarted row opts ms =>
          let w := agent_world ms (at_ (logs y) (sid_of t)) in
          let '(queued, r) := takePending (sid_of t) (mgr y) in
          Some (if j_compact (t_job t) then put p (goto (PFilled row opts w) t) y
                else put p (goto (PFilled row opts (refill queued w)) t) (set_mgr r y))
      | _ => None
      end
  | MBegin p => t ← heap y !! p;
      match t_pc t with
      | PFilled row opts w => Some (put p (goto PBegun (with_active (begin row (opts, w) (t_active t)) t)) y)
      | _ => None
      end
  | MPublish p => t ← heap y !! p;
      match t_pc t with
      | PBegun => Some (put p (goto PDriving t)
          (set_mgr (mkRuns (stopped (mgr y)) (bySession (mgr y)) (<[a_id (t_active t) := p]> (byID (mgr y))) (pending (mgr y))) y))
      | _ => None
      end
  | MRun p cancelled => t ← heap y !! p;
      match t_pc t, a_agent (t_active t) with
      | PDriving, Some (opts, w) =>
          match loop_of (ex_script_env cancelled) opts 9 (t_active t) (t_job t) (forget_accepted w) with
          | Some (err, w') =>
              if negb careful || prompt_read err then
              Some (put p (goto (PReturned err) (with_active (set_agent (Some (opts, w')) (t_active t)) t))
                (set_logs (<[sid_of t := map (kept_item ex_keep) (log w')]> (logs y))
                (set_accepted_by (add_to (sid_of t) (accepted w') (accepted_by y))
                (set_given_to (add_to (sid_of t) (if j_compact (t_job t) then [] else submitted (j_message (t_job t))) (given_to y)) y))))
              else None
          | None => None
          end
      | _, _ => None
      end
  | MRecord p => t ← heap y !! p;
      match t_pc t with
      | PReturned err => r ← FinishRun (a_id (t_active t)) (run_state err (a_aborted (t_active t))) (rows y);
          Some (put p (goto PRecorded t) (set_rows r (set_late (late y) y)))
      | _ => None
      end
  | MRead p => t ← heap y !! p;
      match t_pc t, a_agent (t_active t) with
      | PRecorded, Some (opts, w) => Some (put p (goto (PSteering (PendingSteering w)) t) y)
      | PSteering l, Some (opts, w) => Some (put p (goto (PSnapshot (mkQueued l (PendingFollowUps w))) t) y)
      | _, _ => None
      end
  | MFinish p => t ← heap y !! p;
      match t_pc t with
      | PSnapshot q => Some (put p (goto PForgotten t) (set_mgr (finish p (t_active t) q (mgr y))
          (set_lost_by (add_to (sid_of t) (overwritten q (sid_of t) (mgr y)) (lost_by y)) y)))
      | _ => None
      end
  | MEnqueue p msg => t ← heap y !! p;
      match enqueue msg modeSteer (t_active t) with
      | inl a => if bool_decide (user_message msg) then Some (put p (with_active a t)
          (set_accepted_by (add_to (sid_of t) [msg] (accepted_by y))
          (set_lost_by (add_to (sid_of t) (if too_late modeSteer t then [msg] else []) (lost_by y)) y))) else None
      | inr _ => None
      end
  | MAbortStale id =>
      match byID (mgr y) !! id, rows y !! id with
      | None, Some row => if String.eqb (r_state row) RunRunning
                          then Some (set_rows (<[id := mkRow (r_session row) RunAborted EmptyString]> (rows y)) y) else None
      | _, _ => None
      end
  end.

Fixpoint play (careful : bool) (ms : list move) (y : System) : option System :=
  match ms with
  | [] => Some y
  | m :: ms' => y' ← attempt careful m y; play careful ms' y'
  end.

Lemma prompt_read_ok err : prompt_read err = true -> ~ unprepared err.
Proof. intros H [e ->]. done. Qed.

(** Every move is a step. *)
Lemma attempt_step careful m y y' : attempt careful m y = Some y' -> step ex_keep (careful = true) y y'.
Proof.
  destruct m; cbn [attempt]; intros H;
    repeat match goal with
    | H : (heap y !! ?p) ≫= _ = Some _ |- _ => destruct (heap y !! p) as [t|] eqn:Hp; [|done]; cbn [mbind option_bind] in H
    end.
  - destruct (heap y !! p) eqn:Hp; [done|]. destruct (reserve _ _ _ _) as [[a r]|] eqn:Hr; [|done].
    destruct (_ && _) eqn:Hg; [|done]. injection H as <-. apply andb_true_iff in Hg as [Hu Hc].
    apply bool_decide_eq_true in Hu. eapply st_reserve; try done. intros ->. by destruct (j_compact j).
  - destruct (t_pc t) eqn:Hpc; try done. injection H as <-. by apply st_load.
  - destruct (t_pc t) eqn:Hpc; try done. destruct (rows y !! row) eqn:Hrow; [done|].
    destruct (_ && _) eqn:Hg; [|done]. injection H as <-. apply andb_true_iff in Hg as [Hr Hc].
    apply negb_true_iff, String.eqb_neq in Hr. apply st_start; try done. intros Hj. by rewrite Hj in Hc.
  - destruct (t_pc t) eqn:Hpc; try done. cbn in H. injection H as <-.
    exact (st_fill ex_keep (careful = true) y p t row opts ms Hp Hpc).
  - destruct (t_pc t) eqn:Hpc; try done. injection H as <-. by apply st_begin.
  - destruct (t_pc t) eqn:Hpc; try done. injection H as <-. by apply st_publish.
  - destruct (t_pc t) eqn:Hpc; try done. destruct (a_agent (t_active t)) as [[opts w]|] eqn:Ha; [|done].
    destruct (loop_of _ _ _ _ _ _) as [[err w']|] eqn:Hrun; [|done]. destruct (_ || _) eqn:Hg; [|done]. injection H as <-.
    apply (st_run ex_keep (careful = true) y p t opts w (ex_script_env cancelled) 9); try done;
      first [apply ex_script_users|intros ->; by apply prompt_read_ok].
  - destruct (t_pc t) eqn:Hpc; try done. destruct (FinishRun _ _ _) as [r|] eqn:Hf; [|done]. injection H as <-.
    eapply st_record; try done. by left.
  - destruct (t_pc t) eqn:Hpc; try done; destruct (a_agent (t_active t)) as [[opts w]|] eqn:Ha; try done; injection H as <-.
    + by eapply st_read_steering.
    + by eapply st_read_followUps.
  - destruct (t_pc t) eqn:Hpc; try done. injection H as <-. by apply st_finish.
  - destruct (enqueue _ _ _) as [a|] eqn:He; [|done]. case_bool_decide as Hu; [|done]. injection H as <-. by eapply st_enqueue.
  - destruct (byID (mgr y) !! id) eqn:Hb; [done|]. destruct (rows y !! id) as [row|] eqn:Hr; [|done].
    destruct (String.eqb_spec (r_state row) RunRunning) as [Hs|]; [|done]. injection H as <-. by apply st_abort_stale.
Qed.

Lemma play_steps careful ms y y' : play careful ms y = Some y' -> rtc (step ex_keep (careful = true)) y y'.
Proof.
  revert y. induction ms as [|m ms IH]; intros y H; cbn in H; [by simplify_eq; apply rtc_refl|].
  destruct (attempt careful m y) as [y1|] eqn:Hm; [|done]. cbn in H.
  eapply rtc_l; [by eapply attempt_step|by apply IH].
Qed.

Lemma ex_start_initial : initial ex_start.
Proof.
  split; try done.
  - intros sid. unfold at_, ex_start. cbn [logs]. destruct (decide (sid = "s"%string)) as [->|Hne].
    + rewrite lookup_singleton_eq. split; [by vm_compute|]. repeat constructor.
    + rewrite lookup_singleton_ne by done. split; [done|constructor].
  - intros sid. unfold at_, ex_start. cbn [logs given_to]. destruct (decide (sid = "s"%string)) as [->|Hne].
    + by rewrite !lookup_singleton_eq.
    + by rewrite !lookup_singleton_ne by done.
Qed.

Lemma play_reachable careful ms y : play careful ms ex_start = Some y -> reachable_runs ex_keep (careful = true) y.
Proof. intros H. exists ex_start. split; [apply ex_start_initial|by eapply play_steps]. Qed.

Definition ex_run_job : job := mkJob (UserMessage "hello") false EmptyString.
Definition ex_compact_job : job := mkJob (UserMessage EmptyString) true EmptyString.

(** A run that a message joins, cancelled before it delivers it. *)
Definition ex_first : list move :=
  [MReserve 0 ex_run_job; MLoad 0; MStart 0 "r1"; MFill 0; MBegin 0; MEnqueue 0 (UserMessage "waiting");
   MPublish 0; MRun 0 true; MRecord 0; MRead 0; MRead 0; MFinish 0].

(** Then a run that delivers it. *)
Definition ex_second : list move :=
  [MReserve 1 ex_run_job; MLoad 1; MStart 1 "r2"; MFill 1; MBegin 1; MPublish 1; MRun 1 false; MRecord 1].

(** Or a compaction that another message joins. *)
Definition ex_compaction : list move :=
  [MReserve 1 ex_compact_job; MLoad 1; MStart 1 "r2"; MFill 1; MBegin 1; MEnqueue 1 (UserMessage "later");
   MPublish 1; MRun 1 false; MRecord 1; MRead 1; MRead 1; MFinish 1].

Definition ex_waiting_system : System := default ex_start (play true ex_first ex_start).
Definition ex_running_system : System := default ex_start (play true (ex_first ++ ex_second) ex_start).
Definition ex_losing_system : System := default ex_start (play false (ex_first ++ ex_compaction) ex_start).

Lemma ex_waiting_reachable : reachable_runs ex_keep (true = true) ex_waiting_system.
Proof. apply (play_reachable true ex_first). vm_compute. reflexivity. Qed.

Lemma ex_running_reachable : reachable_runs ex_keep (true = true) ex_running_system.
Proof. apply (play_reachable true (ex_first ++ ex_second)). vm_compute. reflexivity. Qed.

Lemma ex_losing_reachable : reachable_runs ex_keep (false = true) ex_losing_system.
Proof. apply (play_reachable false (ex_first ++ ex_compaction)). vm_compute. reflexivity. Qed.

(** ** The properties *)

(** Fewer restrictions reach more. *)
Lemma reachable_mono respell (P Q : Prop) y : (Q -> P) -> reachable_runs respell P y -> reachable_runs respell Q y.
Proof.
  intros Hpq (y0 & H0 & H). exists y0. split; [done|]. clear H0.
  induction H as [|y1 y2 y3 Hst _ IH]; [apply rtc_refl|]. eapply rtc_l; [|exact IH].
  destruct Hst; econstructor; eauto.
Qed.


(** C6: One run for each session. However requests interleave, two runs that
    are going are of different sessions; the run of a session is the one the
    manager names; and what the manager names, by session or by row id, is a
    run that is going, so an abort reaches it. *)
Theorem one_run_per_session respell strict y :
  reachable_runs respell strict y ->
  (forall p q t u, heap y !! p = Some t -> heap y !! q = Some u -> live t -> live u -> sid_of t = sid_of u -> p = q) /\
  (forall p t, heap y !! p = Some t -> live t -> active (sid_of t) (mgr y) = Some p) /\
  (forall sid p, active sid (mgr y) = Some p -> exists t, heap y !! p = Some t /\ sid_of t = sid /\ live t) /\
  (forall id p, byID (mgr y) !! id = Some p -> exists t, heap y !! p = Some t /\ a_id (t_active t) = id /\ live t).
Proof.
  intros Hy. destruct (iv_registry _ _ (reachable_inv _ _ y Hy)) as [a b c]. split; [|split; [done|split; [done|]]].
  - intros p q t u Hp Hq Ht Hu Hs. pose proof (b p t Hp Ht) as H1. pose proof (b q u Hq Hu) as H2. congruence.
  - intros id p Hp. destruct (c id p Hp) as (t & ? & ? & _ & ?). eauto.
Qed.

Lemma one_run_per_session_witness :
  active "s" (mgr ex_running_system) = Some 1%nat /\
  exists t, heap ex_running_system !! 1%nat = Some t /\ a_id (t_active t) = "r2"%string /\ live t.
Proof.
  destruct (one_run_per_session _ _ ex_running_system ex_running_reachable) as (_ & _ & _ & H). split; [by vm_compute|].
  apply H. by vm_compute.
Defined.





(** A compaction the user asks for can lose an accepted message. When a
    message waits from an earlier run, and another joins the compaction,
    what the compaction leaves replaces what waited: the first message is
    then in no log and no queue, and no run holds it. *)
Theorem compaction_loses_message :
  exists y sid m,
    reachable_runs ex_keep False y /\ (m ∈ at_ (accepted_by y) sid) /\
    active sid (mgr y) = None /\
    (m ∉ log_users (at_ (logs y) sid)) /\ (m ∉ waiting (pendingFor sid (mgr y))).
Proof.
  exists ex_losing_system, "s"%string, (UserMessage "waiting"). split.
  - by eapply reachable_mono; [|exact ex_losing_reachable].
  - repeat split; match goal with |- ?P => apply (bool_decide_unpack P); vm_compute; exact I end.
Qed.

(** An abort that comes between the row of a run and its registration takes
    the row for one a restart left behind: it is marked aborted, and the run
    goes on, delivers its message, and ends as done. *)
Example abort_misses_starting_run :
  match play true [MReserve 0 ex_run_job; MLoad 0; MStart 0 "r1"; MAbortStale "r1"; MFill 0; MBegin 0;
                   MPublish 0; MRun 0 false; MRecord 0] ex_start with
  | Some y => (r_state <$> rows y !! "r1"%string) = Some RunDone /\
      UserMessage "hello" ∈ log_users (at_ (logs y) "s")
  | None => False
  end.
Proof. vm_compute. split; [reflexivity|]. repeat (first [by apply elem_of_cons; left|apply elem_of_cons; right]). Qed.
