(* ===== verification/Addr.v ===== *)
(** IP addresses as Go's [net/netip] has them: what the program uses of the
    package. An address is a number of 32 or 128 bits; an IPv6 address may
    have a zone. *)
From S2P Require Import Prelude GoStr.
From stdpp Require Import options.

Inductive Addr : Type :=
| V4 (z : Z)
| V6 (z : Z) (zone : string).

#[export] Instance Addr_eq_dec : EqDecision Addr.
Proof. solve_decision. Defined.

(** A prefix: its address, without a zone, and its length. *)
Inductive Prefix : Type :=
| P4 (base : Z) (bits : Z)
| P6 (base : Z) (bits : Z).

Definition V4_bytes (a b c d : Z) : Z := ((a * 256 + b) * 256 + c) * 256 + d.
(** The first groups of an IPv6 address, the rest zero. *)
Definition V6_top (g0 g1 : Z) : Z := g0 * 2 ^ 112 + g1 * 2 ^ 96.

(** The byte [i] of an IPv4 address, and the group [i] of an IPv6 one. *)
Definition v4_byte (z i : Z) : Z := (z / 2 ^ (24 - 8 * i)) mod 256.
Definition v6_group (z i : Z) : Z := (z / 2 ^ (112 - 16 * i)) mod 65536.

(** [Addr.Unmap]: an IPv4-mapped address is its IPv4 address, and loses its
    zone. *)
Definition Unmap (a : Addr) : Addr :=
  match a with
  | V6 z _ => if z / 2 ^ 32 =? 65535 then V4 (z mod 2 ^ 32) else a
  | V4 _ => a
  end.

(** [Prefix.Contains]: never of an address with a zone, nor of one of the
    other family. *)
Definition Contains (p : Prefix) (a : Addr) : bool :=
  match p, a with
  | P4 base bits, V4 z => z / 2 ^ (32 - bits) =? base / 2 ^ (32 - bits)
  | P6 base bits, V6 z zone => String.eqb zone EmptyString && (z / 2 ^ (128 - bits) =? base / 2 ^ (128 - bits))
  | _, _ => false
  end.

Definition IsLoopback (a : Addr) : bool :=
  match a with V4 z => v4_byte z 0 =? 127 | V6 z _ => z =? 1 end.

Definition IsMulticast (a : Addr) : bool :=
  match a with V4 z => v4_byte z 0 / 16 =? 14 | V6 z _ => v6_group z 0 / 256 =? 255 end.

Definition IsLinkLocalUnicast (a : Addr) : bool :=
  match a with
  | V4 z => (v4_byte z 0 =? 169) && (v4_byte z 1 =? 254)
  | V6 z _ => v6_group z 0 / 64 =? 1018
  end.

(** The comparison with [::] is of whole addresses, zones included. *)
Definition IsGlobalUnicast (a : Addr) : bool :=
  let a := Unmap a in
  match a with
  | V4 z => negb ((z =? 0) || (z =? 2 ^ 32 - 1)) && negb (IsLoopback a) && negb (IsMulticast a) && negb (IsLinkLocalUnicast a)
  | V6 z zone => negb ((z =? 0) && String.eqb zone EmptyString) && negb (IsLoopback a) && negb (IsMulticast a) &&
                 negb (IsLinkLocalUnicast a)
  end.

Definition IsPrivate (a : Addr) : bool :=
  match Unmap a with
  | V4 z => (v4_byte z 0 =? 10) || ((v4_byte z 0 =? 172) && (v4_byte z 1 / 16 =? 1)) ||
            ((v4_byte z 0 =? 192) && (v4_byte z 1 =? 168))
  | V6 z _ => v6_group z 0 / 512 =? 126
  end.

(** ** Text *)

Definition is_digit (b : Z) : bool := (48 <=? b) && (b <=? 57).
Definition hex_value (b : Z) : option Z :=
  if is_digit b then Some (b - 48)
  else if (97 <=? b) && (b <=? 102) then Some (b - 87)
  else if (65 <=? b) && (b <=? 70) then Some (b - 55) else None.

(** [parseIPv4Fields]: four decimal fields without leading zeros. [val] and
    [digits] are of the field being read, [fields] those read. *)
Fixpoint parse_v4 (l : list Z) (val digits : Z) (fields : list Z) : option Z :=
  match l with
  | [] => match fields with
          | [a; b; c] => if digits =? 0 then None else Some (V4_bytes a b c val)
          | _ => None
          end
  | b :: l' =>
      if is_digit b then
        if (digits =? 1) && (val =? 0) then None
        else let val := val * 10 + (b - 48) in
             if 255 <? val then None else parse_v4 l' val (digits + 1) fields
      else if b =? 46 then
        if (digits =? 0) || (length fields =? 3)%nat then None else parse_v4 l' 0 0 (fields ++ [val])
      else None
  end.

(** The hex digits at the front: their value, how many, and the rest; [None]
    when there are more than four. *)
Fixpoint take_hex (fuel : nat) (l : list Z) (acc n : Z) : option (Z * Z * list Z) :=
  match l with
  | b :: l' =>
      match hex_value b with
      | Some v => match fuel with
                  | O => None
                  | S fuel' => take_hex fuel' l' (acc * 16 + v) (n + 1)
                  end
      | None => Some (acc, n, l)
      end
  | [] => Some (acc, n, [])
  end.

(** The groups of an IPv6 address: [groups] are those read, [ellipsis] how
    many came before the [::]. At most eight are read. *)
Fixpoint parse_groups (fuel : nat) (l : list Z) (groups : list Z) (ellipsis : option nat) : option (list Z * option nat) :=
  match fuel with
  | O => None
  | S fuel' =>
      match take_hex 4 l 0 0 with
      | None => None
      | Some (acc, n, rest) =>
          if n =? 0 then None else
          match rest with
          | 46 :: _ =>
              if (bool_decide (ellipsis = None) && negb (length groups =? 6)%nat) || (6 <? Z.of_nat (length groups)) then None
              else match parse_v4 l 0 0 [] with
                   | Some z => Some (groups ++ [z / 65536; z mod 65536], ellipsis)
                   | None => None
                   end
          | _ =>
              let groups := groups ++ [acc] in
              match rest with
              | [] => Some (groups, ellipsis)
              | 58 :: 58 :: rest' =>
                  match ellipsis with
                  | Some _ => None
                  | None => match rest' with
                            | [] => Some (groups, Some (length groups))
                            | _ => if (length groups =? 8)%nat then None
                                   else parse_groups fuel' rest' groups (Some (length groups))
                            end
                  end
              | [58] => None
              | 58 :: rest' => if (length groups =? 8)%nat then None else parse_groups fuel' rest' groups ellipsis
              | _ => None
              end
          end
      end
  end.

Definition groups_value (gs : list Z) : Z := foldl (fun acc g => acc * 65536 + g) 0 gs.

(** Fill the ellipsis with zeros, at least one group of them. *)
Definition expand (r : list Z * option nat) : option Z :=
  let '(gs, ellipsis) := r in
  match ellipsis with
  | None => if (length gs =? 8)%nat then Some (groups_value gs) else None
  | Some k => if (length gs <? 8)%nat
              then Some (groups_value (take k gs ++ repeat 0 (8 - length gs) ++ drop k gs)) else None
  end.

(** Split at the first [%]. *)
Fixpoint split_zone (l : list Z) : list Z * option (list Z) :=
  match l with
  | [] => ([], None)
  | b :: l' => if b =? 37 then ([], Some l') else let '(s, z) := split_zone l' in (b :: s, z)
  end.

Definition parse_v6 (l : list Z) : option Addr :=
  let '(s, zone) := split_zone l in
  if bool_decide (zone = Some []) then None else
  let zone := of_bytes (default [] zone) in
  match s with
  | [58; 58] => Some (V6 0 zone)
  | 58 :: 58 :: s' => r ← parse_groups 8 s' [] (Some O); z ← expand r; Some (V6 z zone)
  | _ => r ← parse_groups 8 s [] None; z ← expand r; Some (V6 z zone)
  end.

(** [netip.ParseAddr]: the first of [.], [:], and [%] says what it can be. *)
Definition ParseAddr (s : string) : option Addr :=
  let l := bytes_of s in
  match List.find (fun b => (b =? 46) || (b =? 58) || (b =? 37)) l with
  | Some 46 => match parse_v4 l 0 0 [] with Some z => Some (V4 z) | None => None end
  | Some 58 => parse_v6 l
  | _ => None
  end.

(** [Addr.String]: the longest run of at least two zero groups, the first of
    equals, becomes [::]. *)
Fixpoint hex_digits (fuel : nat) (z : Z) : list Z :=
  match fuel with
  | O => []
  | S fuel' => if z =? 0 then [] else hex_digits fuel' (z / 16) ++ [hex_lower (z mod 16)]
  end.
Definition hex_text (z : Z) : string := if z =? 0 then "0" else of_bytes (hex_digits 4 z).

Fixpoint zero_run (gs : list Z) : nat :=
  match gs with g :: gs' => if g =? 0 then S (zero_run gs') else O | [] => O end.

Fixpoint longest_run (start : nat) (gs : list Z) (best : nat * nat) : nat * nat :=
  match gs with
  | [] => best
  | _ :: gs' => longest_run (S start) gs' (if (best.2 <? zero_run gs)%nat then (start, zero_run gs) else best)
  end.

Definition v4_text (z : Z) : string :=
  itoa (v4_byte z 0) +:+ "." +:+ itoa (v4_byte z 1) +:+ "." +:+ itoa (v4_byte z 2) +:+ "." +:+ itoa (v4_byte z 3).

Definition zone_text (zone : string) : string :=
  if String.eqb zone EmptyString then EmptyString else "%" +:+ zone.

Definition Addr_String (a : Addr) : string :=
  match a with
  | V4 z => v4_text z
  | V6 z zone =>
      if z / 2 ^ 32 =? 65535 then "::ffff:" +:+ v4_text (z mod 2 ^ 32) +:+ zone_text zone
      else
        let gs := map (fun i => v6_group z (Z.of_nat i)) (seq 0 8) in
        let '(start, run) := longest_run 0 gs (O, 1%nat) in
        (if (run <? 2)%nat then join (map hex_text gs) ":"
         else join (map hex_text (take start gs)) ":" +:+ "::" +:+ join (map hex_text (drop (start + run) gs)) ":") +:+
        zone_text zone
  end.

Example parse_v4_ok : ParseAddr "192.168.1.20" = Some (V4 (V4_bytes 192 168 1 20)).
Proof. vm_compute. reflexivity. Qed.

Example parse_v4_zero : ParseAddr "010.0.0.1" = None.
Proof. vm_compute. reflexivity. Qed.

Example parse_v4_short : (ParseAddr "1.2.3", ParseAddr "1..2.3", ParseAddr "1.2.3.4.5") = (None, None, None).
Proof. vm_compute. reflexivity. Qed.

Example parse_v6_round :
  (Addr_String <$> ParseAddr "2001:DB8:0:0:1:0:0:1%eth0") = Some "2001:db8::1:0:0:1%eth0"%string.
Proof. vm_compute. reflexivity. Qed.

Example parse_v6_mapped : ParseAddr "::ffff:10.0.0.1" = Some (V6 (65535 * 2 ^ 32 + V4_bytes 10 0 0 1) EmptyString).
Proof. vm_compute. reflexivity. Qed.

Example parse_v6_bad : (ParseAddr "1:2:3:4:5:6:7:8::", ParseAddr "1:2", ParseAddr "::1::", ParseAddr "::%") = (None, None, None, None).
Proof. vm_compute. reflexivity. Qed.
