(* ===== verification/Net.v ===== *)
(** What may be reached on the network: the address guard
    (internal/netguard) and the egress allowlist and proxy policy
    (internal/egress). *)
From S2P Require Import Prelude GoStr Failure Addr.
From stdpp Require Import options.

(** ** The address guard *)

Definition cidr4 (a b c d bits : Z) : Prefix := P4 (V4_bytes a b c d) bits.

(* @src internal/netguard/netguard.go 34-46 nonPublic *)
Definition nonPublic : list Prefix :=
  [cidr4 0 0 0 0 8; cidr4 100 64 0 0 10; cidr4 192 0 0 0 24; cidr4 192 0 2 0 24; cidr4 198 18 0 0 15;
   cidr4 198 51 100 0 24; cidr4 203 0 113 0 24; cidr4 240 0 0 0 4;
   P6 (V6_top 65216 0) 10; P6 (V6_top 8193 3512) 32].

(* @src internal/netguard/netguard.go 48-50 nat64 *)
Definition nat64 : Prefix := P6 (V6_top 100 65435) 96.

(** One call may make one more, on an IPv4 address, which makes none. *)
Fixpoint IsPublic_fuel (fuel : nat) (addr : Addr) : bool :=
  match fuel with
  | O => false
  | S fuel' =>
      let addr := Unmap addr in
      match Contains nat64 addr, addr with
      | true, V6 z _ => IsPublic_fuel fuel' (V4 (z mod 2 ^ 32))
      | _, _ =>
          if negb (IsGlobalUnicast addr) || IsPrivate addr then false
          else negb (existsb (fun p => Contains p addr) nonPublic)
      end
  end.

(* @src internal/netguard/netguard.go 52-70 IsPublic *)
Definition IsPublic (addr : Addr) : bool := IsPublic_fuel 2 addr.

(** Go's [net.SplitHostPort]: the host, without brackets, and the port. *)
Fixpoint last_index (c : Z) (l : list Z) : option nat :=
  match l with
  | [] => None
  | b :: l' => match last_index c l' with
               | Some i => Some (S i)
               | None => if b =? c then Some O else None
               end
  end.
Fixpoint first_index (c : Z) (l : list Z) : option nat :=
  match l with
  | [] => None
  | b :: l' => if b =? c then Some O else S <$> first_index c l'
  end.
Definition has_byte (c : Z) (l : list Z) : bool := existsb (fun b => b =? c) l.

Definition SplitHostPort (hostport : string) : option (string * string) :=
  let l := bytes_of hostport in
  match last_index 58 l with
  | None => None
  | Some i =>
      let port := of_bytes (drop (S i) l) in
      match l with
      | 91 :: _ =>
          match first_index 93 l with
          | Some e => if (S e =? i)%nat && negb (has_byte 91 (drop 1 l)) && negb (has_byte 93 (drop (S e) l))
                      then Some (of_bytes (take (e - 1) (drop 1 l)), port) else None
          | None => None
          end
      | _ => if has_byte 58 (take i l) || has_byte 91 l || has_byte 93 l then None
             else Some (of_bytes (take i l), port)
      end
  end.

Definition ErrPrivateAddress : GoError := ErrSentinel "refusing to connect to a non-public address".

Section control.
(** The errors of the library for a text that is no [host:port], and for a
    host that is no address. *)
Context (split_error parse_error : string -> GoError).

(** [nil] is [None]. *)
(* @src internal/netguard/netguard.go 16-32 Control *)
Definition Control (address : string) : option GoError :=
  match SplitHostPort address with
  | None => Some (ErrWrap ("check address " +:+ address) (split_error address))
  | Some (host, _) =>
      match ParseAddr host with
      | None => Some (ErrWrap ("check address " +:+ address) (parse_error host))
      | Some addr => if IsPublic addr then None else Some (ErrSuffix ErrPrivateAddress (Addr_String addr))
      end
  end.
End control.

(** ** The allowlist *)

(* @src internal/egress/pattern.go 9-25 Mode *)
Definition Mode : Set := string.
Definition ModeOpen : Mode := "open".
Definition ModeAllowlist : Mode := "allowlist".
Definition ModeNone : Mode := "none".
Definition Modes : list Mode := [ModeOpen; ModeAllowlist; ModeNone].

(* @src internal/egress/pattern.go 27-29 Mode.Restricted *)
Definition Restricted (m : Mode) : bool := String.eqb m ModeAllowlist || String.eqb m ModeNone.

(* @src internal/egress/pattern.go 31-39 ParseMode *)
Definition ParseMode (s : string) : Mode + GoError :=
  match List.find (fun m => String.eqb m s) Modes with
  | Some m => inl m
  | None => inr (ErrText ("egress mode " +:+ go_quote s +:+ " is not one of open, allowlist, or none"))
  end.

(* @src internal/egress/pattern.go 41-47 MaxPatterns *)
Definition MaxPatterns : Z := 200.
Definition maxPatternLength : Z := 253.

Definition dot : Ascii.ascii := Ascii.ascii_of_N 46.
Definition star_dot : string := "*.".

(* @src internal/egress/pattern.go 49-64 DefaultAllowlist *)
Definition DefaultAllowlist : list string :=
  ["github.com"; "*.github.com"; "*.githubusercontent.com"; "gitlab.com"; "registry.npmjs.org"; "pypi.org";
   "files.pythonhosted.org"; "proxy.golang.org"; "sum.golang.org"; "crates.io"; "*.crates.io"]%string.

Definition label_byte (b : Z) : bool := ((97 <=? b) && (b <=? 122)) || ((48 <=? b) && (b <=? 57)) || (b =? 45).

(** A label is checked rune by rune; a byte above 127 begins a rune outside
    the letters and digits, so bytes decide the same. *)
Definition valid_label (label : string) : bool :=
  let l := bytes_of label in
  match l with
  | [] => false
  | b :: _ => (str_len label <=? 63) && negb (b =? 45) && negb (List.last l 0 =? 45) && forallb label_byte l
  end.

(* @src internal/egress/pattern.go 66-89 ValidPattern *)
Definition ValidPattern (p : string) : bool :=
  if String.eqb p EmptyString || (maxPatternLength <? str_len p) then false
  else match ParseAddr p with
  | Some _ => true
  | None => forallb valid_label (split (trim_prefix p star_dot) dot)
  end.

Section lower.
(** Go's [unicode.ToLower] outside ASCII, a table of the Unicode standard. *)
Context (lower_rune : Z -> Z).

(** [strings.ToLower]. *)
Definition to_lower (s : string) : string :=
  if forallb (fun b => b <? 128) (bytes_of s) then of_bytes (map lower_byte (bytes_of s))
  else string_of_runes (map (fun r => if r <? 128 then lower_byte r else lower_rune r) (runes s)).

(** [strings.Trim] of the brackets. *)
Fixpoint drop_brackets (l : list Z) : list Z :=
  match l with
  | b :: l' => if (b =? 91) || (b =? 93) then drop_brackets l' else l
  | [] => []
  end.
Definition trim_brackets (s : string) : string :=
  of_bytes (rev (drop_brackets (rev (drop_brackets (bytes_of s))))).

(** The host as patterns are compared with it. *)
Definition normal_host (host : string) : string :=
  let host := trim_suffix (to_lower host) "." in
  match ParseAddr (trim_brackets host) with
  | Some addr => Addr_String (Unmap addr)
  | None => host
  end.

Definition matches (host p : string) : bool :=
  if has_prefix p star_dot then has_suffix host ("." +:+ trim_prefix p star_dot) else String.eqb host p.

(* @src internal/egress/pattern.go 91-110 Allowed *)
Definition Allowed (allow : list string) (host : string) : bool := existsb (matches (normal_host host)) allow.

(** ** The proxy's policy *)

(* @src internal/egress/proxy.go 33-41 Policy *)
Record Policy := mkPolicy { PToken : string; PMode : Mode; PAllow : list string }.

(* @src internal/egress/proxy.go 54-63 Blocked *)
Record Blocked := mkBlocked { BHost : string; BCount : Z; BLast : Z }.

(* @src internal/egress/proxy.go 25-31 maxBlocked *)
Definition maxBlocked : nat := 20.

(** The refused hosts of one workspace, most recent last. *)
(* @src internal/egress/proxy.go 263-284 Proxy.block *)
Definition block (now : Z) (host : string) (l : list Blocked) : list Blocked :=
  match list_find (fun b => BHost b = host) l with
  | Some (i, b) => base.delete i l ++ [mkBlocked (BHost b) (BCount b + 1) now]
  | None =>
      let l := l ++ [mkBlocked host 1 now] in
      if (maxBlocked <? length l)%nat then drop (length l - maxBlocked) l else l
  end.

(** What a request comes to: a demand for credentials, a refusal with its
    status, or a connection, whose address [Control] then checks. *)
Inductive verdict : Type :=
| Challenge
| Refuse (status : Z)
| Tunnel (target : string)
| Forward (target : string).

(** The request: its credentials, its method, and what it names. *)
Record ProxyRequest := mkProxyRequest {
  creds : option (string * string);
  is_connect : bool;
  url_scheme : string;
  url_host : string;
  request_host : string;
}.

(** [policy_of] is [Options.Policy]: a policy, [inr true] for an unknown
    workspace, [inr false] for another failure. The blocked hosts are by
    workspace. *)
(* @src internal/egress/proxy.go 115-166 Proxy.ServeHTTP *)
Definition ServeHTTP (policy_of : string -> Policy + bool) (now : Z) (r : ProxyRequest)
    (blocked : gmap string (list Blocked)) : verdict * gmap string (list Blocked) :=
  match creds r with
  | None => (Challenge, blocked)
  | Some (id, token) =>
      match policy_of id with
      | inr unknown => (if unknown then Challenge else Refuse 502, blocked)
      | inl policy =>
          if String.eqb (PToken policy) EmptyString || negb (String.eqb token (PToken policy)) then (Challenge, blocked)
          else if negb (is_connect r) && (negb (String.eqb (url_scheme r) "http") || String.eqb (url_host r) EmptyString)
          then (Refuse 400, blocked)
          else
            let target := if is_connect r then request_host r else url_host r in
            let host := match SplitHostPort target with Some (h, _) => h | None => target end in
            let refuse := (Refuse 403, <[id := block now host (default [] (blocked !! id))]> blocked) in
            if String.eqb (PMode policy) ModeNone then refuse
            else if String.eqb (PMode policy) ModeAllowlist && negb (Allowed (PAllow policy) host) then refuse
            else ((if is_connect r then Tunnel (request_host r) else Forward (url_host r)), blocked)
      end
  end.

(* @src internal/egress/proxy.go 168-175 Proxy.Blocked *)
Definition BlockedHosts (id : string) (blocked : gmap string (list Blocked)) : list Blocked :=
  rev (default [] (blocked !! id)).

(* @src internal/egress/proxy.go 177-182 Proxy.Forget *)
Definition Forget (id : string) (blocked : gmap string (list Blocked)) : gmap string (list Blocked) :=
  base.delete id blocked.

(* @src internal/egress/proxy.go 311-319 dialStatus *)
Definition dialStatus (err : GoError) : Z :=
  if is_sentinel "refusing to connect to a non-public address" err then 403 else 502.
End lower.

Example split_host_port :
  (SplitHostPort "[::1]:80", SplitHostPort "a.b:443", SplitHostPort "::1:80", SplitHostPort "[a]b:1") =
  (Some ("::1", "80"), Some ("a.b", "443"), None, None)%string.
Proof. vm_compute. reflexivity. Qed.

Example guard_refuses :
  map (fun s => match ParseAddr s with Some a => IsPublic a | None => true end)
    ["127.0.0.1"; "10.0.0.5"; "172.16.0.1"; "192.168.1.1"; "169.254.169.254"; "100.64.0.1"; "0.0.0.0"; "192.0.2.1";
     "198.18.0.1"; "240.0.0.1"; "255.255.255.255"; "224.0.0.1"; "::1"; "fe80::1"; "fd00::1"; "fec0::1"; "2001:db8::1";
     "::ffff:127.0.0.1"; "64:ff9b::a00:1"]%string = repeat false 19.
Proof. vm_compute. reflexivity. Qed.

Example guard_lets_through :
  map (fun s => match ParseAddr s with Some a => IsPublic a | None => false end)
    ["8.8.8.8"; "172.32.0.1"; "192.169.0.1"; "2606:4700::1111"; "64:ff9b::808:808"]%string = repeat true 5.
Proof. vm_compute. reflexivity. Qed.
