(* ===== verification/NetClaims.v ===== *)
(** What the address guard and the egress policy promise: which addresses are
    refused, which hosts an allowlist admits, and what a sandbox gets through
    the proxy. *)
From S2P Require Import Prelude GoStr Failure Addr Net.
From stdpp Require Import options.

(** ** Addresses *)

(** The blocks of the IPv4 address space that are not the public internet, by
    their first and last addresses. *)
Definition special4 : list (Z * Z) :=
  [(V4_bytes 0 0 0 0, V4_bytes 0 255 255 255);
   (V4_bytes 10 0 0 0, V4_bytes 10 255 255 255);
   (V4_bytes 100 64 0 0, V4_bytes 100 127 255 255);
   (V4_bytes 127 0 0 0, V4_bytes 127 255 255 255);
   (V4_bytes 169 254 0 0, V4_bytes 169 254 255 255);
   (V4_bytes 172 16 0 0, V4_bytes 172 31 255 255);
   (V4_bytes 192 0 0 0, V4_bytes 192 0 0 255);
   (V4_bytes 192 0 2 0, V4_bytes 192 0 2 255);
   (V4_bytes 192 168 0 0, V4_bytes 192 168 255 255);
   (V4_bytes 198 18 0 0, V4_bytes 198 19 255 255);
   (V4_bytes 198 51 100 0, V4_bytes 198 51 100 255);
   (V4_bytes 203 0 113 0, V4_bytes 203 0 113 255);
   (V4_bytes 224 0 0 0, V4_bytes 255 255 255 255)].

(** Those of IPv6: the unspecified address and loopback, documentation, unique
    local, link local and site local, multicast. *)
Definition special6 : list (Z * Z) :=
  [(0, 1);
   (V6_top 8193 3512, V6_top 8193 3513 - 1);
   (V6_top 64512 0, V6_top 65024 0 - 1);
   (V6_top 65152 0, V6_top 65216 0 - 1);
   (V6_top 65216 0, V6_top 65280 0 - 1);
   (V6_top 65280 0, V6_top 65536 0 - 1)].

Definition in_blocks (l : list (Z * Z)) (z : Z) : bool := existsb (fun r => (r.1 <=? z) && (z <=? r.2)) l.

(** An address is special when it is in a block, or stands for an IPv4 address
    that is: mapped, or behind the NAT64 prefix. *)
Definition special (a : Addr) : bool :=
  match a with
  | V4 z => in_blocks special4 z
  | V6 z _ =>
      if (z / 2 ^ 32 =? 65535) || (z / 2 ^ 32 =? V6_top 100 65435 / 2 ^ 32) then in_blocks special4 (z mod 2 ^ 32)
      else in_blocks special6 z
  end.

Definition addr_ok (a : Addr) : Prop :=
  match a with V4 z => 0 <= z < 2 ^ 32 | V6 z zone => 0 <= z < 2 ^ 128 /\ zone = EmptyString end.

(** ** Blocks as intervals *)

Definition within (lo hi z : Z) : bool := (lo <=? z) && (z <=? hi).

Definition Within := within.

Lemma block_interval z d b : 0 < d -> (z / d =? b) = within (b * d) (b * d + d - 1) z.
Proof.
  intros Hd. apply eq_iff_eq_true. unfold within. rewrite andb_true_iff, Z.eqb_eq, !Z.leb_le.
  pose proof (Z.div_mod z d ltac:(lia)). pose proof (Z.mod_pos_bound z d Hd). split; [intros <-; nia|].
  intros [H1 H2]. symmetry. apply (Z.div_unique z d b (z - d * b)); nia.
Qed.

(** The leading field of a number of [n] fields of [w]. *)
Lemma top_field z d w b : 0 < d -> 0 <= z < d * w -> ((z / d) mod w =? b) = within (b * d) (b * d + d - 1) z.
Proof.
  intros Hd Hz. rewrite <- block_interval by done. rewrite Z.mod_small; [done|].
  split; [apply Z.div_pos; lia|apply Z.div_lt_upper_bound; lia].
Qed.

(** Two tests, of the leading field and of the field below it, are one. *)
Lemma two_fields z d e u w b c :
  0 < e -> 0 < w -> 0 < u -> 0 <= z < e * w * u -> d = e * w -> 0 <= c < w ->
  ((z / d) mod u =? b) && ((z / e) mod w =? c) = within ((b * w + c) * e) ((b * w + c) * e + e - 1) z.
Proof.
  intros He Hw Hu Hz -> Hc. rewrite <- block_interval by done. rewrite <- Z.div_div by lia. set (y := z / e).
  assert (Hy : 0 <= y < w * u) by (unfold y; split; [apply Z.div_pos; lia|apply Z.div_lt_upper_bound; nia]).
  assert (0 <= y / w < u) by (split; [apply Z.div_pos; lia|apply Z.div_lt_upper_bound; lia]).
  rewrite (Z.mod_small (y / w)) by done.
  apply eq_iff_eq_true. rewrite andb_true_iff, !Z.eqb_eq.
  pose proof (Z.div_mod y w ltac:(lia)). pose proof (Z.mod_pos_bound y w Hw). split.
  - intros [<- <-]. lia.
  - intros E. assert (y / w = b) by (symmetry; apply (Z.div_unique y w b c); lia).
    split; [done|]. symmetry. apply (Z.mod_unique y w b c); lia.
Qed.

Lemma field_part z e a b : 0 < e -> 0 < a -> 0 < b -> ((z / e) mod (a * b)) / a = (z / (e * a)) mod b.
Proof.
  intros He Ha Hb. rewrite <- Z.div_div by lia. set (y := z / e).
  rewrite Z.rem_mul_r by lia. rewrite Z.mul_comm, Z.div_add, Z.div_small by (try apply Z.mod_pos_bound; lia). lia.
Qed.

Lemma point_within z b : (z =? b) = within b b z.
Proof. apply eq_iff_eq_true. unfold within. rewrite andb_true_iff, Z.eqb_eq, !Z.leb_le. lia. Qed.

Lemma existsb_within l z : in_blocks l z = existsb (fun r => within r.1 r.2 z) l.
Proof. done. Qed.

(** Compute the bounds of the intervals of the goal. *)
Ltac eval_blocks :=
  repeat match goal with
  | |- context [within ?a ?b ?z] =>
      let a' := eval vm_compute in a in let b' := eval vm_compute in b in
      progress change (within a b z) with (Within a' b' z)
  end.

Lemma IsPublic_V4 z f : 0 <= z < 2 ^ 32 -> IsPublic_fuel (S f) (V4 z) = negb (in_blocks special4 z).
Proof.
  intros Hz. rewrite existsb_within. cbn [IsPublic_fuel]. change (Contains nat64 _) with false. cbv iota. unfold IsGlobalUnicast, IsPrivate, IsLoopback, IsMulticast, IsLinkLocalUnicast, v4_byte.
  change (Unmap (V4 z)) with (V4 z). cbv zeta iota beta. change (Unmap (V4 z)) with (V4 z). cbv iota beta.
  change (24 - 8 * 0) with 24. change (24 - 8 * 1) with 16.
  rewrite !(field_part z _ 16 16) by lia.
  rewrite !(two_fields z (2 ^ 24) (2 ^ 16) 256 256) by lia.
  rewrite !(two_fields z (2 ^ 24) (2 ^ 16 * 16) 256 16) by lia.
  rewrite !(top_field z (2 ^ 24) 256) by lia.
  rewrite !(top_field z (2 ^ 24 * 16) 16) by lia.
  unfold nonPublic, special4, cidr4, Contains. cbn [existsb fst snd].
  rewrite !block_interval by reflexivity. rewrite !(point_within z).
  match goal with |- (if ?c then false else negb ?d) = _ => transitivity (negb (c || d)); [by destruct c|] end.
  f_equal. eval_blocks. unfold Within, within.
  lia.
Qed.

Lemma IsPublic_V6 z f :
  0 <= z < 2 ^ 128 -> z / 2 ^ 32 <> 65535 -> z / 2 ^ 32 <> V6_top 100 65435 / 2 ^ 32 ->
  IsPublic_fuel (S f) (V6 z EmptyString) = negb (in_blocks special6 z).
Proof.
  intros Hz Hm Hn. rewrite existsb_within. cbn [IsPublic_fuel].
  assert (HU : Unmap (V6 z EmptyString) = V6 z EmptyString) by (unfold Unmap; by rewrite (proj2 (Z.eqb_neq _ _) Hm)).
  rewrite HU. unfold Contains, nat64 at 1. change (128 - 96) with 32. rewrite (proj2 (Z.eqb_neq _ _) Hn).
  change (String.eqb EmptyString EmptyString && false) with false. cbv iota.
  unfold IsGlobalUnicast, IsPrivate. rewrite HU.
  unfold IsLoopback, IsMulticast, IsLinkLocalUnicast, v6_group. cbv zeta iota beta.
  change (112 - 16 * 0) with 112. change (String.eqb EmptyString EmptyString) with true.
  rewrite !(field_part z _ 64 1024), !(field_part z _ 256 256), !(field_part z _ 512 128) by lia.
  rewrite !(top_field z (2 ^ 112 * 64) 1024), !(top_field z (2 ^ 112 * 256) 256), !(top_field z (2 ^ 112 * 512) 128) by lia.
  unfold nonPublic, special6, cidr4, Contains. cbn [existsb fst snd]. rewrite !andb_true_l, !block_interval by reflexivity.
  rewrite !(point_within z).
  match goal with |- (if ?c then false else negb ?d) = _ => transitivity (negb (c || d)); [by destruct c|] end.
  f_equal. eval_blocks. unfold Within, within. lia.
Qed.

Lemma low_bits_range z : 0 <= z mod 2 ^ 32 < 2 ^ 32.
Proof. apply Z.mod_pos_bound. lia. Qed.

(** C12: The address guard lets an address without a zone through exactly when
    it lies in none of the blocks that are not the public internet, after the
    addresses that stand for an IPv4 one, mapped or behind NAT64, are read as
    that one. *)
Theorem IsPublic_refuses_special a : addr_ok a -> IsPublic a = negb (special a).
Proof.
  intros Ha. destruct a as [z|z zone]; [by apply IsPublic_V4|]. destruct Ha as [Hz ->]. unfold special.
  destruct (Z.eqb_spec (z / 2 ^ 32) 65535) as [Hm|Hm].
  { change (IsPublic (V6 z EmptyString)) with (IsPublic_fuel 2 (V6 z EmptyString)).
    cbn [orb]. rewrite <- (IsPublic_V4 _ 1 (low_bits_range z)). cbn [IsPublic_fuel].
    unfold Unmap. by rewrite (proj2 (Z.eqb_eq _ _) Hm). }
  destruct (Z.eqb_spec (z / 2 ^ 32) (V6_top 100 65435 / 2 ^ 32)) as [Hn|Hn]; [|by apply IsPublic_V6].
  cbn [orb]. rewrite <- (IsPublic_V4 _ 0 (low_bits_range z)).
  assert (HU : Unmap (V6 z EmptyString) = V6 z EmptyString) by (unfold Unmap; by rewrite (proj2 (Z.eqb_neq _ _) Hm)).
  unfold IsPublic. cbn [IsPublic_fuel]. rewrite !HU. unfold Contains, nat64 at 1. change (128 - 96) with 32.
  rewrite (proj2 (Z.eqb_eq _ _) Hn). done.
Qed.

Lemma IsPublic_refuses_special_witness :
  addr_ok (V6 (65535 * 2 ^ 32 + V4_bytes 10 0 0 1) EmptyString) /\
  IsPublic (V6 (65535 * 2 ^ 32 + V4_bytes 10 0 0 1) EmptyString) =
  negb (special (V6 (65535 * 2 ^ 32 + V4_bytes 10 0 0 1) EmptyString)) /\
  special (V6 (65535 * 2 ^ 32 + V4_bytes 10 0 0 1) EmptyString) = true.
Proof.
  split; [by vm_compute; repeat split|]. split; [|by vm_compute].
  apply IsPublic_refuses_special. by vm_compute; repeat split.
Defined.

(** A zone defeats the guard: the unspecified address with any zone counts
    as public, and [Control] lets a connection to it through, though the guard
    refuses the address without one. *)
Theorem zone_defeats_guard split_error parse_error :
  IsPublic (V6 0 EmptyString) = false /\ (forall zone, zone <> EmptyString -> IsPublic (V6 0 zone) = true) /\
  Control split_error parse_error "[::%lo]:80" = None.
Proof.
  split; [done|]. split; [|by vm_compute]. intros zone Hz. unfold IsPublic. cbn [IsPublic_fuel].
  change (Unmap (V6 0 zone)) with (V6 0 zone). unfold Contains, nat64 at 1. cbv iota.
  rewrite (proj2 (String.eqb_neq _ _) Hz). cbn [andb]. unfold IsGlobalUnicast.
  change (Unmap (V6 0 zone)) with (V6 0 zone). cbv iota zeta beta.
  rewrite (proj2 (String.eqb_neq _ _) Hz). unfold nonPublic, cidr4, Contains. by vm_compute.
Qed.

(** ** Splitting at dots *)

Lemma join_app l k sep : l <> [] -> k <> [] -> join (l ++ k) sep = join l sep +:+ sep +:+ join k sep.
Proof.
  intros Hl Hk. induction l as [|h l IH]; [done|]. destruct l as [|h' l].
  - cbn [app]. by rewrite join_cons.
  - change ((h :: h' :: l) ++ k) with (h :: ((h' :: l) ++ k)). rewrite !(join_cons h) by done.
    rewrite IH by done. by rewrite !str_app_assoc.
Qed.

Lemma str_take_drop n s : str_take n s +:+ str_drop n s = s.
Proof.
  revert s. induction n as [|n IH]; intros [|a s]; try done. cbn. rewrite str_app_cons. by rewrite IH.
Qed.

Lemma has_suffix_iff s p : has_suffix s p = true <-> exists x, s = x +:+ p.
Proof.
  split; [|intros [x ->]; apply has_suffix_app].
  unfold has_suffix. intros [_ E%String.eqb_eq]%andb_true_iff.
  exists (str_take (String.length s - String.length p) s). 
  pose proof (str_take_drop (String.length s - String.length p) s) as H. by rewrite E in H.
Qed.

Lemma has_prefix_iff s p : has_prefix s p = true <-> exists x, s = p +:+ x.
Proof.
  split; [|intros [x ->]; apply prefix_app]. unfold has_prefix. revert s.
  induction p as [|a p IH]; intros s H; [by exists s|]. destruct s as [|b s]; [done|]. cbn in H.
  destruct (Ascii.ascii_dec a b) as [->|]; [|done]. destruct (IH s H) as [x ->]. by exists x.
Qed.

Lemma str_app_inj_l p s t : p +:+ s = p +:+ t -> s = t.
Proof. intros E. rewrite <- (str_drop_app p s), E. apply str_drop_app. Qed.

(** ** The allowlist *)

(** A pattern covers a host: a name covers itself, a wildcard the names with
    at least one more label in front of its own. *)
Inductive covers (host : string) : string -> Prop :=
| covers_name : has_prefix host star_dot = false -> covers host host
| covers_below s pre : pre <> [] -> split host dot = pre ++ split s dot -> covers host (star_dot +:+ s).

Lemma matches_covers host p : matches host p = true <-> covers host p.
Proof.
  unfold matches. destruct (has_prefix p star_dot) eqn:Hp.
  - apply has_prefix_iff in Hp as [s ->]. rewrite trim_prefix_app, has_suffix_iff. split.
    + intros [x ->]. apply (covers_below _ s (split x dot)); [apply split_ne|]. apply split_app.
    + remember (star_dot +:+ s) as q eqn:Eq. intros H. destruct H as [Hn|s' pre Hpre E].
      * rewrite Eq in Hn. unfold has_prefix in Hn. by rewrite prefix_app in Hn.
      * apply str_app_inj_l in Eq as ->. exists (join pre (String dot EmptyString)).
        rewrite <- (join_split dot host), E, join_app, join_split; [done|done|apply split_ne].
  - split; [by intros ->%String.eqb_eq; constructor|]. intros H.
    destruct H as [Hn|s' pre Hpre E]; [apply String.eqb_refl|].
    unfold has_prefix in Hp. by rewrite prefix_app in Hp.
Qed.

(** ** What gets through *)

Section egress.
Context (lower_rune : Z -> Z).

(** What a request asks to reach, when it is one the proxy takes. *)
Definition asked (r : ProxyRequest) : option string :=
  if is_connect r then Some (request_host r)
  else if String.eqb (url_scheme r) "http" && negb (String.eqb (url_host r) EmptyString) then Some (url_host r) else None.

Definition host_part (target : string) : string :=
  match SplitHostPort target with Some (h, _) => h | None => target end.

Definition connects (v : verdict) : option string :=
  match v with Tunnel t | Forward t => Some t | _ => None end.

(** The workspace a request speaks for, when it has that workspace's token. *)
Definition speaks_for (policy_of : string -> Policy + bool) (r : ProxyRequest) (id : string) (policy : Policy) : Prop :=
  creds r = Some (id, PToken policy) /\ PToken policy <> EmptyString /\ policy_of id = inl policy.

Definition permits (policy : Policy) (host : string) : Prop :=
  PMode policy <> ModeNone /\
  (PMode policy = ModeAllowlist -> exists p, p ∈ PAllow policy /\ covers (normal_host lower_rune host) p).

Lemma Allowed_covers allow host :
  Allowed lower_rune allow host = true <-> exists p, p ∈ allow /\ covers (normal_host lower_rune host) p.
Proof.
  unfold Allowed. rewrite existsb_exists. split; intros (p & Hin & Hp); exists p.
  - apply list_elem_of_In in Hin. split; [done|]. by apply matches_covers.
  - apply list_elem_of_In in Hin. split; [done|]. by apply matches_covers.
Qed.

Definition permitted (policy : Policy) (host : string) : bool :=
  negb (String.eqb (PMode policy) ModeNone) &&
  (negb (String.eqb (PMode policy) ModeAllowlist) || Allowed lower_rune (PAllow policy) host).

Lemma permitted_spec policy host : permitted policy host = true <-> permits policy host.
Proof.
  unfold permitted, permits. rewrite <- Allowed_covers, andb_true_iff, orb_true_iff, !negb_true_iff, !String.eqb_neq.
  destruct (decide (PMode policy = ModeAllowlist)); tauto.
Qed.

Definition refused (now : Z) (id host : string) (blocked : gmap string (list Blocked)) : gmap string (list Blocked) :=
  <[id := block now host (default [] (blocked !! id))]> blocked.

(** What becomes of a request with the token of its workspace. *)
Lemma ServeHTTP_signed_in policy_of now r blocked id policy :
  speaks_for policy_of r id policy ->
  ServeHTTP lower_rune policy_of now r blocked =
  match asked r with
  | None => (Refuse 400, blocked)
  | Some t => if permitted policy (host_part t) then ((if is_connect r then Tunnel t else Forward t), blocked)
              else (Refuse 403, refused now id (host_part t) blocked)
  end.
Proof.
  intros (Hc & Ht & Hp). unfold ServeHTTP, asked, permitted, host_part. rewrite Hc, Hp, (proj2 (String.eqb_neq _ _) Ht), String.eqb_refl.
  cbn [orb negb]. destruct (is_connect r); cbn [negb andb].
  - destruct (String.eqb (PMode policy) ModeNone); [done|].
    destruct (String.eqb (PMode policy) ModeAllowlist); [|done]. by destruct (Allowed _ _ _).
  - destruct (String.eqb (url_scheme r) "http"), (String.eqb (url_host r) EmptyString); try done. cbn [negb orb].
    destruct (String.eqb (PMode policy) ModeNone); [done|].
    destruct (String.eqb (PMode policy) ModeAllowlist); [|done].
    cbn [andb]. by destruct (Allowed _ _ _).
Qed.

(** A request without such a token is answered and forgotten. *)
Lemma ServeHTTP_signed_out policy_of now r blocked :
  (exists id policy, speaks_for policy_of r id policy) \/
  (exists v, ServeHTTP lower_rune policy_of now r blocked = (v, blocked) /\ connects v = None).
Proof.
  unfold ServeHTTP, speaks_for. destruct (creds r) as [[id token]|]; [|right; eauto].
  destruct (policy_of id) as [policy|[]] eqn:Hp; [|right; eauto..].
  destruct (String.eqb_spec (PToken policy) EmptyString) as [|Hne]; [right; eauto|].
  destruct (String.eqb_spec token (PToken policy)) as [->|]; [|right; eauto]. left. eauto 10.
Qed.

Lemma speaks_for_inj policy_of r i1 p1 i2 p2 :
  speaks_for policy_of r i1 p1 -> speaks_for policy_of r i2 p2 -> i1 = i2 /\ p1 = p2.
Proof. intros (E1 & _ & H1) (E2 & _ & H2). rewrite E1 in E2. injection E2 as -> _. rewrite H1 in H2. by injection H2 as ->. Qed.

(** C10: The proxy connects a request to a target exactly when the request has
    the non-empty token of the workspace it names, asks for that target as a
    tunnel or an absolute http URL, and the workspace's policy permits the
    target's host: the mode is not none, and in allowlist mode some pattern
    covers the host, a name itself and a wildcard the names with more labels
    in front of its own. *)
Theorem ServeHTTP_connects policy_of now r blocked target :
  connects (ServeHTTP lower_rune policy_of now r blocked).1 = Some target <->
  exists id policy, speaks_for policy_of r id policy /\ asked r = Some target /\ permits policy (host_part target).
Proof.
  destruct (ServeHTTP_signed_out policy_of now r blocked) as [(id & policy & Hs)|(v & E & Hv)].
  2:{ rewrite E. cbn [fst]. rewrite Hv. split; [done|]. intros (id & policy & Hs & Ha & Hp%permitted_spec).
      rewrite (ServeHTTP_signed_in _ _ _ _ _ _ Hs), Ha, Hp in E. injection E as <-. by destruct (is_connect r). }
  rewrite (ServeHTTP_signed_in _ _ _ _ _ _ Hs). destruct (asked r) as [t|].
  2:{ split; [done|by intros (? & ? & _ & ? & _)]. }
  destruct (permitted policy (host_part t)) eqn:Hp; cbn [fst].
  - apply permitted_spec in Hp. split.
    + intros E. exists id, policy. by destruct (is_connect r); cbn in E; simplify_eq.
    + intros (? & ? & _ & E & _). simplify_eq. by destruct (is_connect r).
  - split; [done|]. intros (id' & p' & Hs' & E & Hp'%permitted_spec). simplify_eq.
    destruct (speaks_for_inj _ _ _ _ _ _ Hs Hs') as [-> ->]. congruence.
Qed.

(** ** What the proxy remembers *)

Inductive proxy_op : Type :=
| Serve (policy_of : string -> Policy + bool) (now : Z) (r : ProxyRequest)
| ForgetWorkspace (id : string).

Definition proxy_step (blocked : gmap string (list Blocked)) (o : proxy_op) : gmap string (list Blocked) :=
  match o with
  | Serve policy_of now r => (ServeHTTP lower_rune policy_of now r blocked).2
  | ForgetWorkspace id => Forget id blocked
  end.

Definition memory (ops : list proxy_op) : gmap string (list Blocked) := foldl proxy_step ∅ ops.

Definition memory_ok (l : list Blocked) : Prop := (length l <= maxBlocked)%nat /\ NoDup (map BHost l).

Lemma block_known now host l1 b l2 :
  host ∉ map BHost l1 -> BHost b = host -> block now host (l1 ++ b :: l2) = l1 ++ l2 ++ [mkBlocked host (BCount b + 1) now].
Proof.
  intros H1 Hb. unfold block.
  assert (E : list_find (fun b => BHost b = host) (l1 ++ b :: l2) = Some (length l1, b)).
  { apply list_find_Some. split; [by rewrite list_lookup_middle|]. split; [done|].
    intros j y Hj Hlt Hy. apply H1. rewrite lookup_app_l in Hj by done. rewrite <- Hy. apply list_elem_of_fmap_2.
    by eapply list_elem_of_lookup_2. }
  rewrite E. rewrite delete_middle, Hb, app_assoc. done.
Qed.

Lemma block_new now host l :
  host ∉ map BHost l -> (length l <= maxBlocked)%nat ->
  block now host l = (if (length l =? maxBlocked)%nat then drop 1 l else l) ++ [mkBlocked host 1 now].
Proof.
  intros H1 Hl. unfold block.
  assert (E : list_find (fun b => BHost b = host) l = None).
  { apply list_find_None. apply Forall_forall. intros b Hb Hy. apply H1. rewrite <- Hy. by apply list_elem_of_fmap_2. }
  rewrite E, length_app. cbn [length].
  destruct (Nat.eqb_spec (length l) maxBlocked) as [E1|E1].
  - rewrite (proj2 (Nat.ltb_lt _ _)) by lia. replace (_ + 1 - _)%nat with 1%nat by lia.
    apply drop_app_le. rewrite E1. unfold maxBlocked. lia.
  - by rewrite (proj2 (Nat.ltb_ge _ _)) by lia.
Qed.

(** How often a host has been refused, as far as the list remembers. *)
Definition count_of (host : string) (l : list Blocked) : Z := sumZ (map BCount (base.filter (fun b => BHost b = host) l)).

Lemma filter_others host (l : list Blocked) : host ∉ map BHost l ->
  base.filter (fun b => BHost b <> host) l = l /\ base.filter (fun b => BHost b = host) l = [].
Proof.
  induction l as [|b l IH]; [done|]. cbn [map]. intros [H1 H2]%not_elem_of_cons. destruct (IH H2) as [E1 E2].
  by rewrite filter_cons_True, E1, filter_cons_False by congruence.
Qed.

(** The newest [n] of a list that has its newest last. *)
Definition newest {A} (n : nat) (l : list A) : list A := drop (length l - n) l.

Lemma block_remembers now host l :
  memory_ok l ->
  block now host l = newest 19 (base.filter (fun b => BHost b <> host) l) ++ [mkBlocked host (count_of host l + 1) now].
Proof.
  intros [Hlen Hnd]. unfold newest, count_of. destruct (decide (host ∈ map BHost l)) as [Hin|Hout].
  - apply list_elem_of_fmap in Hin as (b & Hb & Hin). apply list_elem_of_split in Hin as (l1 & l2 & ->).
    rewrite map_app in Hnd. cbn [map] in Hnd. apply NoDup_app in Hnd as (_ & Hd & [Hn _]%NoDup_cons).
    subst host. assert (H1 : BHost b ∉ map BHost l1) by (intros H; apply (Hd _ H); by left).
    rewrite block_known by done. rewrite !filter_app, filter_cons_False, filter_cons_True by congruence.
    destruct (filter_others _ _ H1) as [-> ->]. destruct (filter_others _ _ Hn) as [-> ->].
    rewrite length_app in Hlen |- *. cbn [length] in Hlen. unfold maxBlocked in Hlen.
    replace (length l1 + length l2 - 19)%nat with 0%nat by lia. rewrite drop_0, app_assoc. cbn. by rewrite Z.add_0_r.
  - rewrite block_new by done. destruct (filter_others _ _ Hout) as [-> ->].
    destruct (Nat.eqb_spec (length l) maxBlocked) as [E|E]; [by rewrite E|].
    unfold maxBlocked in *. by replace (length l - 19)%nat with 0%nat by lia.
Qed.

Lemma filter_hosts host l : NoDup (map BHost l) -> NoDup (map BHost (base.filter (fun b => BHost b <> host) l)).
Proof.
  intros H. eapply sublist_NoDup; [exact H|]. apply (fmap_sublist BHost), sublist_filter.
Qed.

Lemma block_ok now host l : memory_ok l -> memory_ok (block now host l).
Proof.
  intros Hok. rewrite block_remembers by done. destruct Hok as [Hlen Hnd]. unfold memory_ok, newest.
  rewrite length_app, length_drop, map_app. cbn [length map BHost]. split; [unfold maxBlocked; lia|].
  apply NoDup_app. split; [|split; [|apply NoDup_singleton]].
  - eapply sublist_NoDup; [by apply filter_hosts|]. apply (fmap_sublist BHost), sublist_drop.
  - intros h Hh ->%list_elem_of_singleton. apply list_elem_of_fmap in Hh as (b & Hb & Hin).
    assert (Hin' : b ∈ base.filter (fun b => BHost b <> host) l) by (eapply elem_of_sublist; [exact Hin|apply sublist_drop]).
    by apply list_elem_of_filter in Hin' as [? _].
Qed.

Definition remembered (id : string) (blocked : gmap string (list Blocked)) : list Blocked := default [] (blocked !! id).

Lemma memory_step_ok blocked o :
  (forall id, memory_ok (remembered id blocked)) -> forall id, memory_ok (remembered id (proxy_step blocked o)).
Proof.
  intros H id. destruct o as [policy_of now r|id']; cbn [proxy_step].
  - destruct (ServeHTTP_signed_out policy_of now r blocked) as [(i & policy & Hs)|(v & -> & _)]; [|apply H].
    rewrite (ServeHTTP_signed_in _ _ _ _ _ _ Hs). destruct (asked r) as [t|]; [|apply H].
    destruct (permitted policy (host_part t)); [apply H|]. cbn [snd]. unfold remembered, refused.
    destruct (decide (i = id)) as [->|Hne]; [|rewrite lookup_insert_ne by done; apply H].
    rewrite lookup_insert_eq. apply block_ok, H.
  - unfold remembered, Forget. destruct (decide (id' = id)) as [->|Hne]; [|rewrite lookup_delete_ne by done; apply H].
    rewrite lookup_delete_eq. split; [cbn; lia|constructor].
Qed.

Lemma memory_steps_ok ops id : memory_ok (remembered id (memory ops)).
Proof.
  unfold memory. rewrite <- (rev_involutive ops). revert id. induction (rev ops) as [|o l IH]; intros id.
  - unfold remembered. cbn [rev foldl]. rewrite lookup_empty. split; [cbn; lia|constructor].
  - cbn [rev]. rewrite foldl_snoc. by apply memory_step_ok.
Qed.

(** Whatever requests were served, the refusals remembered of a workspace
    are of at most twenty hosts, each once; and refusing a request for a host
    makes it the newest, counted once more than before, keeps the other
    hosts, of them the newest nineteen, in their order, and leaves the other
    workspaces alone. *)
Theorem refusals_remembered ops policy_of now r id policy target :
  speaks_for policy_of r id policy -> asked r = Some target -> ~ permits policy (host_part target) ->
  let '(v, after) := ServeHTTP lower_rune policy_of now r (memory ops) in
  let host := host_part target in
  v = Refuse 403 /\ memory_ok (remembered id after) /\
  remembered id after = newest 19 (base.filter (fun b => BHost b <> host) (remembered id (memory ops))) ++
                        [mkBlocked host (count_of host (remembered id (memory ops)) + 1) now] /\
  forall id', id' <> id -> remembered id' after = remembered id' (memory ops).
Proof.
  intros Hs Ha Hp. rewrite <- permitted_spec, not_true_iff_false in Hp.
  rewrite (ServeHTTP_signed_in _ _ _ _ _ _ Hs), Ha, Hp. unfold refused, remembered at 1 2 4.
  rewrite lookup_insert_eq. cbn [default]. pose proof (memory_steps_ok ops id) as Hok.
  split; [done|]. split; [by apply block_ok|]. split; [by apply block_remembers|].
  intros id' Hne. unfold remembered. by rewrite lookup_insert_ne.
Qed.
End egress.

Definition sample_policy : Policy := mkPolicy "secret" ModeAllowlist ["*.github.com"]%string.
Definition sample_request (target : string) : ProxyRequest :=
  mkProxyRequest (Some ("w1", "secret")%string) true EmptyString EmptyString target.
Definition sample_policies (_ : string) : Policy + bool := inl sample_policy.
Definition same_rune (r : Z) : Z := r.

Lemma refusals_remembered_witness :
  exists target, speaks_for sample_policies (sample_request target) "w1" sample_policy /\
  asked (sample_request target) = Some target /\ ~ permits same_rune sample_policy (host_part target) /\
  remembered "w1" (ServeHTTP same_rune sample_policies 7 (sample_request target)
    (memory same_rune [Serve sample_policies 5 (sample_request target); ForgetWorkspace "w2"])).2 =
  [mkBlocked "evilgithub.com" 2 7].
Proof.
  exists "evilgithub.com:443"%string.
  assert (Hs : speaks_for sample_policies (sample_request "evilgithub.com:443") "w1" sample_policy) by done.
  assert (Hp : ~ permits same_rune sample_policy (host_part "evilgithub.com:443"))
    by (rewrite <- permitted_spec; by vm_compute).
  split; [exact Hs|]. split; [done|]. split; [exact Hp|].
  pose proof (refusals_remembered same_rune [Serve sample_policies 5 (sample_request "evilgithub.com:443");
    ForgetWorkspace "w2"] sample_policies 7 _ _ _ _ Hs eq_refl Hp) as H.
  destruct (ServeHTTP _ _ _ _ _) as [v after] eqn:E. destruct H as (_ & _ & H & _). cbn [snd]. rewrite H.
  vm_compute. reflexivity.
Defined.

(** A wildcard admits the names below it, however they are spelled, and
    neither the name itself nor one that only ends alike. *)
Example wildcard_admits :
  map (Allowed same_rune ["*.github.com"; "10.0.0.1"]%string)
    ["api.GitHub.com."; "a.b.github.com"; "[::ffff:10.0.0.1]"; "github.com"; "evilgithub.com"]%string =
  [true; true; true; false; false].
Proof. vm_compute. reflexivity. Qed.
