(* ===== verification/OpenAI.v ===== *)
(** The adapter for OpenAI-compatible endpoints (internal/provider/openai):
    how tool calls are assembled from fragments, how fast the endpoint says it
    is, how the chunks of a stream become provider events, and which failures
    are worth another attempt. The SDK decodes the chunks: a chunk here is
    what it hands over, with the fields the adapter reads out of its raw JSON
    already decoded. *)
From S2P Require Import Prelude GoStr Float64 Provider Sampling Failure Conversation.
From stdpp Require Import sorting.
From stdpp Require Import options.
Open Scope Z_scope.

(** ** Tool calls *)

(** A fragment of a tool call, as the SDK decodes it. *)
Record fragment := mkFragment { f_index : Z; f_id : string; f_name : string; f_args : string }.

(* @src internal/provider/openai/toolcalls.go 19-24 partialCall *)
Record partialCall := mkPartialCall { pc_id : string; pc_name : string; pc_args : string }.

(** The calls by stream index. *)
(* @src internal/provider/openai/toolcalls.go 26-29 newToolCalls *)
Definition newToolCalls : gmap Z partialCall := ∅.

Definition nonempty_or (s d : string) : string := if String.eqb s EmptyString then d else s.

(* @src internal/provider/openai/toolcalls.go 31-45 toolCalls.add *)
Definition add (t : gmap Z partialCall) (delta : fragment) : gmap Z partialCall :=
  let call := default (mkPartialCall EmptyString EmptyString EmptyString) (t !! f_index delta) in
  <[f_index delta := mkPartialCall (nonempty_or (f_id delta) (pc_id call)) (nonempty_or (f_name delta) (pc_name call))
                       (pc_args call +:+ f_args delta)]> t.

Definition finish_call (call : partialCall) : ToolCall :=
  let args := trim_space (pc_args call) in
  mkToolCall (pc_id call) (pc_name call) (if String.eqb args EmptyString then "{}" else args).

(* @src internal/provider/openai/toolcalls.go 47-67 toolCalls.calls *)
Definition calls (t : gmap Z partialCall) : list ToolCall :=
  let indexes := merge_sort Z.le (map fst (map_to_list t)) in
  omap (fun i => finish_call <$> t !! i) indexes.

(** ** Speed *)

(* @src internal/provider/openai/timings.go 80-90 usageWire *)
Record usageWire := mkUsageWire {
  u_PromptTokens : float64;
  u_CompletionTokens : float64;
  u_PromptTokensPerSec : float64;
  u_CompletionTokensPerSec : float64;
  u_PromptTime : float64;
  u_CompletionTime : float64;
}.

(** A field nobody sends is zero. *)
(* @src internal/provider/openai/timings.go 34-78 timingsWire *)
Record timingsWire := mkTimingsWire {
  w_PromptN : float64;
  w_PromptMS : float64;
  w_PromptPerSecond : float64;
  w_PredictedN : float64;
  w_PredictedMS : float64;
  w_PredictedPerSecond : float64;
  w_TimeToFirstTokenMS : float64;
  w_QueueTimeMS : float64;
  w_GenerationTimeMS : float64;
  w_InputTokenLength : float64;
  w_TimeInQueueInMS : float64;
  w_GenerationTimeInMS : float64;
  w_ResponseLength : float64;
  w_TimeToFirstTokenInMS : float64;
  w_ResponseTokensPerSecond : float64;
  w_TimeToFirstToken : float64;
  w_GenerationTime : float64;
  w_TokensPerSecond : float64;
  w_Usage : usageWire;
  w_XGroq : usageWire;
  w_PromptEvalCount : float64;
  w_PromptEvalDuration : float64;
  w_EvalCount : float64;
  w_EvalDuration : float64;
}.

(* @src internal/provider/openai/timings.go 92-96 nanosecondsPerMS *)
Definition nanosecondsPerMS : float64 := f64_of_Z 1000000.
Definition msPerSecond : float64 := f64_of_Z 1000.

(* @src internal/provider/openai/timings.go 175-185 orRate *)
Definition orRate (ms tokens perSecond : float64) : float64 :=
  if f64_pos ms then ms
  else if f64_leb tokens f64_zero || f64_leb perSecond f64_zero then f64_zero
  else f64_mul (f64_div tokens perSecond) msPerSecond.

(* @src internal/provider/openai/timings.go 187-194 orCount *)
Definition orCount (own usage : float64) : float64 := if f64_pos own then own else usage.

(** The tokens and duration of a phase, unless one was measured before. *)
Definition phase (tokens ms : float64) (into : Z * float64) : Z * float64 :=
  if (0 <? into.1) || f64_ltb tokens (f64_of_Z 1) || f64_leb ms f64_zero then into
  else (f64_to_int tokens, ms).

(** What each engine says of a phase, in the order the code prefers them. *)
Definition prompt_phases (w : timingsWire) (tin : float64) : list (float64 * float64) :=
  [(w_PromptN w, orRate (w_PromptMS w) (w_PromptN w) (w_PromptPerSecond w));
   (tin, f64_sub (w_TimeToFirstTokenMS w) (w_QueueTimeMS w));
   (orCount (w_InputTokenLength w) tin, f64_sub (w_TimeToFirstTokenInMS w) (w_TimeInQueueInMS w));
   (tin, f64_mul (w_TimeToFirstToken w) msPerSecond)] ++
  map (fun u => (tin, orRate (f64_mul (u_PromptTime u) msPerSecond) tin (u_PromptTokensPerSec u)))
    [w_Usage w; w_XGroq w] ++
  [(orCount (w_PromptEvalCount w) tin, f64_div (w_PromptEvalDuration w) nanosecondsPerMS)].

Definition decode_phases (w : timingsWire) (tout : float64) : list (float64 * float64) :=
  [(w_PredictedN w, orRate (w_PredictedMS w) (w_PredictedN w) (w_PredictedPerSecond w));
   (f64_sub tout (f64_of_Z 1), w_GenerationTimeMS w);
   (orCount (w_ResponseLength w) tout,
    orRate (w_GenerationTimeInMS w) (orCount (w_ResponseLength w) tout) (w_ResponseTokensPerSecond w));
   (tout, orRate (f64_mul (w_GenerationTime w) msPerSecond) tout (w_TokensPerSecond w))] ++
  map (fun u => (tout, orRate (f64_mul (u_CompletionTime u) msPerSecond) tout (u_CompletionTokensPerSec u)))
    [w_Usage w; w_XGroq w] ++
  [(orCount (w_EvalCount w) tout, f64_div (w_EvalDuration w) nanosecondsPerMS)].

Definition first_phase (l : list (float64 * float64)) : Z * float64 :=
  foldl (fun into p => phase p.1 p.2 into) (0, f64_zero) l.

(** The phases do not depend on each other, so all of one are taken before
    the other. [None] for JSON that does not decode. *)
(* @src internal/provider/openai/timings.go 98-173 parseTimings *)
Definition parseTimings (wire : option timingsWire) (usage : Usage) : option Timings :=
  match wire with
  | None => None
  | Some w =>
      let count used field := foldl (fun n u => if f64_is_zero n then field u else n) (f64_of_Z used) [w_Usage w; w_XGroq w] in
      let p := first_phase (prompt_phases w (count (InputTokens usage) u_PromptTokens)) in
      let d := first_phase (decode_phases w (count (OutputTokens usage) u_CompletionTokens)) in
      let t := mkTimings p.1 p.2 d.1 d.2 EmptyString in
      if negb (Known t) then None
      else Some (mkTimings p.1 p.2 d.1 d.2 (if HasDecode t then TimedByEndpoint else EmptyString))
  end.

(** ** Failures *)

(** A failure of the SDK: the error, and for a response with an error status,
    the status and the Retry-After header, empty when absent. *)
Record sdkFailure := mkFailure { sf_err : GoError; sf_status : option (Z * string) }.

Section adapter.
(** How far in the future an HTTP date is, by Go's [http.ParseTime] and
    [time.Until]. *)
Context (until : string -> option Z).

(* @src internal/provider/openai/openai.go 445-466 retryAfter *)
Definition retryAfter (v : string) : Z :=
  if String.eqb v EmptyString then 0
  else match Atoi v with
  | Some secs => if secs <? 0 then 0 else wrap64 (secs * 1000000000)
  | None => match until v with Some d => if 0 <? d then d else 0 | None => 0 end
  end.

(* @src internal/provider/openai/openai.go 426-443 apiError *)
Definition apiError (op : string) (f : sdkFailure) : GoError :=
  match sf_status f with
  | None => ErrProvider op 0 true 0 (sf_err f)
  | Some (status, header) =>
      ErrProvider op status ((status =? 408) || (status =? 409) || (status =? 429) || (500 <=? status))
        (retryAfter header) (sf_err f)
  end.

(* @src internal/provider/openai/openai.go 419-424 streamError *)
Definition streamError (f : sdkFailure) : GoError := apiError "stream chat completion" f.

(** ** The stream *)

Record choice := mkChoice { ch_finish : string; ch_content : string; ch_reasoning : string; ch_calls : list fragment }.

(** [c_usage] has the three counts, [c_wire] what the timings decode to. *)
Record chunk := mkChunk { c_usage : Usage; c_wire : option timingsWire; c_choices : list choice }.

(** What [relay] does is to send, until a send finds the context done. The
    argument is how many sends go through, [None] when all do; the result is
    [None] when [relay] has returned. *)
Definition R (A : Type) : Type := option nat -> option A * option nat * list StreamEvent.

#[export] Instance R_ret : MRet R := fun A a b => (Some a, b, []).
#[export] Instance R_bind : MBind R := fun A B f m b =>
  match m b with
  | (None, b, es) => (None, b, es)
  | (Some a, b, es) => let '(r, b', es') := f a b in (r, b', es ++ es')
  end.

Definition send (e : StreamEvent) : R unit := fun b =>
  match b with
  | Some O => (None, b, [])
  | Some (S n) => (Some tt, Some n, [e])
  | None => (Some tt, None, [e])
  end.

(** [relay]'s variables. *)
Record relayState := mkRelay {
  r_acc : gmap Z partialCall;
  r_usage : Usage;
  r_reported : Usage;
  r_timings : Timings;
  r_reportedTimings : Timings;
  r_stop : string;
}.

Definition start_relay : relayState := mkRelay newToolCalls zeroUsage zeroUsage zeroTimings zeroTimings EmptyString.
Definition set_acc x r := mkRelay x (r_usage r) (r_reported r) (r_timings r) (r_reportedTimings r) (r_stop r).
Definition set_stop x r := mkRelay (r_acc r) (r_usage r) (r_reported r) (r_timings r) (r_reportedTimings r) x.

(* @src internal/provider/openai/openai.go 95-106 relay *)
Definition sendUsage (r : relayState) : R relayState :=
  if bool_decide (r_usage r = zeroUsage) && negb (Known (r_timings r)) then mret r
  else if bool_decide (r_usage r = r_reported r) && bool_decide (r_timings r = r_reportedTimings r) then mret r
  else
    _ ← send (KindUsage (r_usage r) (r_timings r));
    mret (mkRelay (r_acc r) (r_usage r) (r_usage r) (r_timings r) (r_timings r) (r_stop r)).

Fixpoint relay_calls (r : relayState) (fs : list fragment) : R relayState :=
  match fs with
  | [] => mret r
  | f :: fs' =>
      _ ← send (KindToolCallDelta (f_index f) (f_id f) (f_name f) (f_args f));
      relay_calls (set_acc (add (r_acc r) f) r) fs'
  end.

(* @src internal/provider/openai/openai.go 120-149 relay *)
Definition relay_choice (r : relayState) (c : choice) : R relayState :=
  let r := if String.eqb (ch_finish c) EmptyString then r else set_stop (ch_finish c) r in
  _ ← (if String.eqb (ch_content c) EmptyString then mret tt else send (KindTextDelta (ch_content c)));
  _ ← (if String.eqb (ch_reasoning c) EmptyString then mret tt else send (KindReasoningDelta (ch_reasoning c)));
  relay_calls r (ch_calls c).

Fixpoint relay_choices (r : relayState) (cs : list choice) : R relayState :=
  match cs with
  | [] => mret r
  | c :: cs' => r ← relay_choice r c; relay_choices r cs'
  end.

(* @src internal/provider/openai/openai.go 108-154 relay *)
Definition relay_chunk (r : relayState) (c : chunk) : R relayState :=
  let usage := if bool_decide (c_usage c = zeroUsage) then r_usage r else c_usage c in
  let timings := default (r_timings r) (parseTimings (c_wire c) usage) in
  r ← relay_choices (mkRelay (r_acc r) usage (r_reported r) timings (r_reportedTimings r) (r_stop r)) (c_choices c);
  sendUsage r.

Fixpoint relay_chunks (r : relayState) (cs : list chunk) : R relayState :=
  match cs with
  | [] => mret r
  | c :: cs' => r ← relay_chunk r c; relay_chunks r cs'
  end.

Fixpoint send_calls (cs : list ToolCall) : R unit :=
  match cs with
  | [] => mret tt
  | c :: cs' => _ ← send (KindToolCall c); send_calls cs'
  end.

(** The chunks, and how the stream ended. *)
(* @src internal/provider/openai/openai.go 76-187 relay *)
Definition relay (cs : list chunk) (err : option sdkFailure) : R unit :=
  r ← relay_chunks start_relay cs;
  match err with
  | Some f => send (KindError (streamError f))
  | None =>
      if String.eqb (r_stop r) EmptyString
      then send (KindError (ErrText "stream chat completion: stream ended without finish_reason"))
      else if String.eqb (r_stop r) "length" then
        _ ← sendUsage r;
        send (KindDone (r_stop r))
      else
        _ ← send_calls (calls (r_acc r));
        _ ← sendUsage r;
        send (KindDone (r_stop r))
  end.
End adapter.

(** ** Requests *)

(** A message as the SDK sends it: a part of a user message is an image's
    data URL or text. *)
Inductive part : Type := ImagePart (url : string) | TextPart (text : string).

Inductive sdkMessage : Type :=
| SystemMsg (text : string)
| UserMsg (text : string)
| UserPartsMsg (parts : list part)
| ToolMsg (content callID : string)
| AssistantMsg (content : option string) (calls : list ToolCall) (reasoning_content : option string).

Definition text_opt (s : string) : option string := if String.eqb s EmptyString then None else Some s.

(* @src internal/provider/openai/openai.go 329-343 userParts *)
Definition userParts (m : Message) : list part :=
  map (fun img => ImagePart ("data:" +:+ MediaType img +:+ ";base64," +:+ of_bytes (base64 (bytes_of (Data img))))) (Images m) ++
  (if String.eqb (Content m) EmptyString then [] else [TextPart (Content m)]).

(* @src internal/provider/openai/openai.go 294-327 message *)
Definition message (preserveThinking : bool) (m : Message) : sdkMessage + GoError :=
  if String.eqb (MRole m) RoleUser then
    inl (if (length (Images m) =? 0)%nat then UserMsg (Content m) else UserPartsMsg (userParts m))
  else if String.eqb (MRole m) RoleTool then inl (ToolMsg (Content m) (ToolCallID m))
  else if String.eqb (MRole m) RoleAssistant then
    inl (AssistantMsg (text_opt (Content m)) (ToolCalls m)
           (if preserveThinking then text_opt (Reasoning m) else None))
  else inr (ErrText ("convert message: unknown role " +:+ go_quote (MRole m))).

(** The parameters of a request; the last four are the extra fields. *)
Record sdkParams := mkParams {
  p_model : string;
  p_messages : list sdkMessage;
  p_include_usage : bool;
  p_max_completion_tokens : option Z;
  p_temperature : option float64;
  p_top_p : option float64;
  p_frequency_penalty : option float64;
  p_presence_penalty : option float64;
  p_seed : option Z;
  p_stop : option (list string);
  p_reasoning_effort : option string;
  p_tools : list ToolDef;
  p_top_k : option Z;
  p_min_p : option float64;
  p_thinking_off : option ThinkingSwitch;
  p_preserve_thinking : bool;
}.

Fixpoint convert_all (preserveThinking : bool) (ms : list Message) : list sdkMessage + GoError :=
  match ms with
  | [] => inl []
  | m :: ms' =>
      match message preserveThinking m with
      | inr err => inr err
      | inl c => match convert_all preserveThinking ms' with inr err => inr err | inl cs => inl (c :: cs) end
      end
  end.

Section requests.
(** Why a tool's schema does not decode to a JSON object. *)
Context (schema_error : string -> option GoError).

(* @src internal/provider/openai/openai.go 202-292 Provider.params *)
Definition params (req : Request) : sdkParams + GoError :=
  match convert_all (RPreserveThinking req) (RMessages req) with
  | inr err => inr err
  | inl converted =>
      let messages := (if String.eqb (RSystem req) EmptyString then [] else [SystemMsg (RSystem req)]) ++ converted in
      if String.eqb (RModel req) EmptyString then inr (ErrText "build chat completion: request names no model")
      else
        let s := RSampling req in
        let effort := default EmptyString (ReasoningEffort s) in
        let off := String.eqb effort EffortNone &&
                   (String.eqb (RThinkingSwitch req) SwitchTemplate || String.eqb (RThinkingSwitch req) SwitchThinking) in
        match list_find (fun t => is_Some (if String.eqb (DefSchema t) EmptyString then None else schema_error (DefSchema t))) (RTools req) with
        | Some (_, t) =>
            inr (ErrWrap ("encode schema of tool " +:+ DefName t)
                   (default (ErrText EmptyString) (schema_error (DefSchema t))))
        | None =>
            inl (mkParams (RModel req) messages true (MaxOutput s) (Temperature s) (TopP s) (FrequencyPenalty s)
              (PresencePenalty s) (Seed s) (match Stop s with Some [] => None | l => l end)
              (if off then None else text_opt effort) (RTools req) (TopK s) (MinP s)
              (if off then Some (RThinkingSwitch req) else None) (RPreserveThinking req))
        end
  end.
End requests.

(** ** A whole answer *)

(** The events that are read, and what the context says once the channel is
    closed. *)
Fixpoint complete_events (text : string) (es : list StreamEvent) (cancelled : option GoError) : (string * string) + GoError :=
  match es with
  | [] => match cancelled with
          | Some err => inr err
          | None => inr (ErrText "the response ended without finishing")
          end
  | KindTextDelta t :: es' => complete_events (text +:+ t) es' cancelled
  | KindError err :: _ => inr err
  | KindDone stop :: _ => inl (text, stop)
  | _ :: es' => complete_events text es' cancelled
  end.

(* @src internal/provider/complete.go 9-32 Complete *)
Definition Complete (stream : list StreamEvent + GoError) (cancelled : option GoError) : (string * string) + GoError :=
  match stream with
  | inr err => inr err
  | inl es => complete_events EmptyString es cancelled
  end.
