(* ===== verification/OpenAIClaims.v ===== *)
(** What the adapter promises the agent loop: the response the loop reads
    from its events is the one the endpoint's chunks spell out. *)
From S2P Require Import Prelude GoStr Float64 Provider Failure Conversation Stream Outside OpenAI.
From stdpp Require Import sorting.
From stdpp Require Import options.
Open Scope Z_scope.

(** ** Assembling tool calls *)

Definition of_index (i : Z) (fs : list fragment) : list fragment := base.filter (fun f => f_index f = i) fs.
Definition last_nonempty (l : list string) : string := foldl (fun d s => nonempty_or s d) EmptyString l.

(** The call with an index: the last id and name its fragments carry, and
    their arguments one after the other. *)
Definition partial_of (fs : list fragment) (i : Z) : partialCall :=
  let fs := of_index i fs in
  mkPartialCall (last_nonempty (map f_id fs)) (last_nonempty (map f_name fs)) (concat_strings (map f_args fs)).

Definition assembled (fs : list fragment) : list ToolCall :=
  map (fun i => finish_call (partial_of fs i)) (merge_sort Z.le (remove_dups (map f_index fs))).

Lemma of_index_snoc i fs f : of_index i (fs ++ [f]) = of_index i fs ++ (if decide (f_index f = i) then [f] else []).
Proof. unfold of_index. by rewrite filter_app. Qed.

Lemma concat_strings_app l k : concat_strings (l ++ k) = concat_strings l +:+ concat_strings k.
Proof. induction l as [|s l IH]; [done|]. unfold concat_strings in *. cbn [app foldr]. by rewrite IH, str_app_assoc. Qed.

Lemma last_nonempty_snoc l s : last_nonempty (l ++ [s]) = nonempty_or s (last_nonempty l).
Proof. unfold last_nonempty. by rewrite foldl_snoc. Qed.

Lemma partial_of_snoc fs f i :
  partial_of (fs ++ [f]) i =
  if decide (f_index f = i)
  then mkPartialCall (nonempty_or (f_id f) (pc_id (partial_of fs i))) (nonempty_or (f_name f) (pc_name (partial_of fs i)))
         (pc_args (partial_of fs i) +:+ f_args f)
  else partial_of fs i.
Proof.
  unfold partial_of. rewrite of_index_snoc. case_decide; [|by rewrite app_nil_r].
  rewrite !map_app. cbn [map]. rewrite !last_nonempty_snoc, concat_strings_app. cbn.
  by rewrite str_app_nil_r.
Qed.

Lemma partial_of_absent fs i : i ∉ map f_index fs -> partial_of fs i = mkPartialCall EmptyString EmptyString EmptyString.
Proof.
  intros H. assert (E : of_index i fs = []).
  { unfold of_index. induction fs as [|f fs IH]; [done|]. cbn in H. apply not_elem_of_cons in H as [H1 H2].
    rewrite filter_cons_False by congruence. auto. }
  unfold partial_of. by rewrite E.
Qed.

Lemma add_lookup fs i :
  foldl add newToolCalls fs !! i = if decide (i ∈ map f_index fs) then Some (partial_of fs i) else None.
Proof.
  induction fs as [|f fs IH] using rev_ind; [done|]. rewrite foldl_snoc, map_app. unfold add at 1.
  rewrite partial_of_snoc. destruct (decide (f_index f = i)) as [<-|Hne].
  - rewrite lookup_insert_eq, decide_True by (apply elem_of_app; right; by left).
    rewrite IH. case_decide as Hin; [done|]. by rewrite partial_of_absent.
  - rewrite lookup_insert_ne, IH by done.
    destruct (decide (i ∈ map f_index fs)) as [Hin|Hout].
    + by rewrite decide_True by (apply elem_of_app; by left).
    + rewrite decide_False; [done|]. intros [?|H]%elem_of_app; [done|]. cbn in H.
      apply list_elem_of_singleton in H. congruence.
Qed.

Lemma calls_assembled fs : calls (foldl add newToolCalls fs) = assembled fs.
Proof.
  unfold calls, assembled. set (t := foldl add newToolCalls fs).
  assert (Hperm : map fst (map_to_list t) ≡ₚ remove_dups (map f_index fs)).
  { apply NoDup_Permutation; [apply NoDup_fst_map_to_list|apply NoDup_remove_dups|]. intros i.
    rewrite elem_of_remove_dups, list_elem_of_fmap. split.
    - intros ([i' c] & -> & H%elem_of_map_to_list). unfold t in H. rewrite add_lookup in H. by case_decide.
    - intros H. exists (i, partial_of fs i). split; [done|]. apply elem_of_map_to_list. unfold t. by rewrite add_lookup, decide_True. }
  assert (E : merge_sort Z.le (map fst (map_to_list t)) = merge_sort Z.le (remove_dups (map f_index fs))).
  { apply (Sorted_unique Z.le); [apply (Sorted_merge_sort Z.le)..|]. by rewrite !(merge_sort_Permutation Z.le). }
  rewrite E. clear E Hperm. assert (Hall : Forall (fun i => i ∈ map f_index fs) (merge_sort Z.le (remove_dups (map f_index fs)))).
  { apply Forall_forall. intros i. rewrite (merge_sort_Permutation Z.le). apply elem_of_remove_dups. }
  induction Hall as [|i l Hi Hl IH]; [done|]. cbn [omap list_omap map]. unfold t at 1. rewrite add_lookup, decide_True by done.
  cbn. f_equal. exact IH.
Qed.

(** ** Sending *)

(** [m] sends [es] and goes on with [a], and when the context is done after
    [n] sends, it has sent the first [n] of them. *)
Definition sends {A} (m : R A) (a : A) (es : list StreamEvent) : Prop :=
  m None = (Some a, None, es) /\
  forall n, m (Some n) = if (length es <=? n)%nat then (Some a, Some (n - length es)%nat, es) else (None, Some O, take n es).

Lemma sends_ret {A} (a : A) : sends (mret a) a [].
Proof. split; [done|]. intros n. cbn. by rewrite Nat.sub_0_r. Qed.

Lemma sends_send e : sends (send e) tt [e].
Proof. split; [done|]. intros [|n]; [done|]. cbn. by rewrite Nat.sub_0_r. Qed.

Lemma sends_bind {A B} (m : R A) (f : A -> R B) a es b es' :
  sends m a es -> sends (f a) b es' -> sends (m ≫= f) b (es ++ es').
Proof.
  intros [H1 H2] [H3 H4]. unfold mbind, R_bind. split; [by rewrite H1, H3|]. intros n. rewrite H2, length_app.
  destruct (Nat.leb_spec (length es) n) as [Hn|Hn].
  - rewrite H4. replace (length es + length es' <=? n)%nat with (length es' <=? n - length es)%nat
      by (apply eq_iff_eq_true; rewrite !Nat.leb_le; lia).
    destruct (Nat.leb_spec (length es') (n - length es)); [by rewrite Nat.sub_add_distr|].
    by rewrite take_app, (take_ge es) by lia.
  - rewrite (proj2 (Nat.leb_gt _ _)) by lia. by rewrite take_app_le by lia.
Qed.

Lemma sends_if {A} (b : bool) (m1 m2 : R A) a1 e1 a2 e2 :
  sends m1 a1 e1 -> sends m2 a2 e2 -> sends (if b then m1 else m2) (if b then a1 else a2) (if b then e1 else e2).
Proof. by destruct b. Qed.

(** What a stretch of events adds to a response: no tool call and no end. *)
Record adds (es : list StreamEvent) (text reasoning : string) : Prop := {
  adds_parts : Forall (fun e => is_part e = true) es;
  adds_text : concat_strings (map text_of es) = text;
  adds_reasoning : concat_strings (map reasoning_of es) = reasoning;
  adds_calls : omap call_of es = [];
}.

Lemma adds_nil : adds [] EmptyString EmptyString.
Proof. by split. Qed.

Lemma adds_app es es' t t' r r' : adds es t r -> adds es' t' r' -> adds (es ++ es') (t +:+ t') (r +:+ r').
Proof.
  intros [p1 t1 r1 c1] [p2 t2 r2 c2]. split.
  - by apply Forall_app.
  - by rewrite map_app, concat_strings_app, t1, t2.
  - by rewrite map_app, concat_strings_app, r1, r2.
  - by rewrite omap_app, c1, c2.
Qed.

(** The usage a response has after more events. *)
Definition usage_after (u : Usage) (es : list StreamEvent) : Usage := List.last (omap usage_of es) u.

Lemma last_cons_default {A} (x : A) l d : List.last (x :: l) d = List.last l x.
Proof. induction l as [|y l IH] in x, d |- *; [done|]. transitivity (List.last (y :: l) d); [done|]. by rewrite !IH. Qed.

Lemma last_app_default {A} (l k : list A) d : List.last (l ++ k) d = List.last k (List.last l d).
Proof. induction l as [|x l IH] in d |- *; [done|]. cbn [app]. by rewrite !last_cons_default. Qed.

Lemma usage_after_app u es es' : usage_after u (es ++ es') = usage_after (usage_after u es) es'.
Proof. unfold usage_after. by rewrite omap_app, last_app_default. Qed.

Section relay.
Context (until : string -> option Z).

(** The usage has been reported whenever there is something to report. *)
Definition reported_ok (r : relayState) : Prop := r_reported r = r_usage r.

Lemma sends_usage r (before : Usage) :
  r_reported r = before -> (r_usage r = zeroUsage -> before = zeroUsage) ->
  exists es, sends (sendUsage r) (mkRelay (r_acc r) (r_usage r) (r_usage r) (r_timings r)
               (if bool_decide (es = []) then r_reportedTimings r else r_timings r) (r_stop r)) es /\
    adds es EmptyString EmptyString /\ usage_after before es = r_usage r.
Proof.
  intros Hb Hz. unfold sendUsage. destruct r as [acc u rep t rt s]. cbn in *. subst before.
  case_bool_decide as H1.
  - destruct (Known t) eqn:Hk; cbn [andb negb].
    + case_bool_decide as H2; [case_bool_decide as H3|]; cbn [andb].
      * subst. exists []. split; [apply sends_ret|]. split; [apply adds_nil|done].
      * exists [KindUsage u t]. split; [eapply (sends_bind _ _ tt [_] _ []); [apply sends_send|apply sends_ret]|].
        split; [by split; [repeat constructor|..]|]. unfold usage_after. cbn. rewrite bool_decide_true by done. cbn. congruence.
      * exfalso. apply H2. rewrite H1. symmetry. auto.
    + exists []. subst u. rewrite (Hz eq_refl). split; [apply sends_ret|]. split; [apply adds_nil|done].
  - cbn [andb]. case_bool_decide as H2; [case_bool_decide as H3|]; cbn [andb].
    + subst. exists []. split; [apply sends_ret|]. split; [apply adds_nil|done].
    + exists [KindUsage u t]. split; [eapply (sends_bind _ _ tt [_] _ []); [apply sends_send|apply sends_ret]|].
      split; [by split; [repeat constructor|..]|]. unfold usage_after. cbn. by rewrite bool_decide_false.
    + exists [KindUsage u t]. split; [eapply (sends_bind _ _ tt [_] _ []); [apply sends_send|apply sends_ret]|].
      split; [by split; [repeat constructor|..]|]. unfold usage_after. cbn. by rewrite bool_decide_false.
Qed.

Lemma sends_relay_calls r fs :
  exists es, sends (relay_calls r fs) (set_acc (foldl add (r_acc r) fs) r) es /\ adds es EmptyString EmptyString /\
    omap usage_of es = [].
Proof.
  induction fs as [|f fs IH] in r |- *; cbn [relay_calls foldl].
  - exists []. split; [destruct r; apply sends_ret|]. split; [apply adds_nil|done].
  - destruct (IH (set_acc (add (r_acc r) f) r)) as (es & H1 & H2 & H3).
    exists ([KindToolCallDelta (f_index f) (f_id f) (f_name f) (f_args f)] ++ es).
    split; [eapply sends_bind; [apply sends_send|exact H1]|]. split; [|done].
    apply (adds_app [_] es EmptyString EmptyString EmptyString EmptyString); [by split; [repeat constructor|..]|done].
Qed.

Lemma sends_relay_choice r c :
  exists es, sends (relay_choice r c)
      (set_acc (foldl add (r_acc r) (ch_calls c)) (set_stop (nonempty_or (ch_finish c) (r_stop r)) r)) es /\
    adds es (ch_content c) (ch_reasoning c) /\ omap usage_of es = [].
Proof.
  unfold relay_choice.
  set (r1 := if String.eqb (ch_finish c) EmptyString then r else set_stop (ch_finish c) r).
  assert (E1 : r1 = set_stop (nonempty_or (ch_finish c) (r_stop r)) r).
  { unfold r1, nonempty_or. destruct (String.eqb _ _); [by destruct r|done]. }
  destruct (sends_relay_calls r1 (ch_calls c)) as (es & H1 & H2 & H3). clearbody r1. subst r1.
  exists ((if String.eqb (ch_content c) EmptyString then [] else [KindTextDelta (ch_content c)]) ++
          (if String.eqb (ch_reasoning c) EmptyString then [] else [KindReasoningDelta (ch_reasoning c)]) ++ es).
  split; [|split].
  - eapply (sends_bind _ _ tt); [destruct (String.eqb (ch_content c) _); [apply sends_ret|apply sends_send]|].
    eapply (sends_bind _ _ tt); [destruct (String.eqb (ch_reasoning c) _); [apply sends_ret|apply sends_send]|]. exact H1.
  - assert (Hc : adds (if String.eqb (ch_content c) EmptyString then [] else [KindTextDelta (ch_content c)])
                   (ch_content c) EmptyString).
    { destruct (String.eqb_spec (ch_content c) EmptyString) as [->|]; [apply adds_nil|].
      split; cbn; rewrite ?str_app_nil_r; repeat constructor. }
    assert (Hr : adds (if String.eqb (ch_reasoning c) EmptyString then [] else [KindReasoningDelta (ch_reasoning c)])
                   EmptyString (ch_reasoning c)).
    { destruct (String.eqb_spec (ch_reasoning c) EmptyString) as [->|]; [apply adds_nil|].
      split; cbn; rewrite ?str_app_nil_r; repeat constructor. }
    pose proof (adds_app _ _ _ _ _ _ Hc (adds_app _ _ _ _ _ _ Hr H2)) as H.
    by rewrite !str_app_nil_l, !str_app_nil_r in H.
  - rewrite !omap_app, H3. by destruct (String.eqb (ch_content c) _), (String.eqb (ch_reasoning c) _).
Qed.

Lemma sends_relay_choices r cs :
  exists es, sends (relay_choices r cs)
      (set_acc (foldl add (r_acc r) (concat (map ch_calls cs)))
         (set_stop (foldl (fun s c => nonempty_or (ch_finish c) s) (r_stop r) cs) r)) es /\
    adds es (concat_strings (map ch_content cs)) (concat_strings (map ch_reasoning cs)) /\ omap usage_of es = [].
Proof.
  induction cs as [|c cs IH] in r |- *.
  - exists []. split; [destruct r; apply sends_ret|]. split; [apply adds_nil|done].
  - destruct (sends_relay_choice r c) as (e1 & H1 & H2 & H3).
    destruct (IH (set_acc (foldl add (r_acc r) (ch_calls c)) (set_stop (nonempty_or (ch_finish c) (r_stop r)) r)))
      as (e2 & K1 & K2 & K3).
    exists (e1 ++ e2). split; [|split; [by apply adds_app|by rewrite omap_app, H3, K3]].
    cbn [map concat foldl]. rewrite foldl_app. exact (sends_bind _ _ _ _ _ _ H1 K1).
Qed.

Definition usage_with (u : Usage) (c : chunk) : Usage := if bool_decide (c_usage c = zeroUsage) then u else c_usage c.
Definition choices_of (cs : list chunk) : list choice := concat (map c_choices cs).

(** What a state is after more chunks, apart from the timings. *)
Definition relayed (r : relayState) (cs : list chunk) (r' : relayState) : Prop :=
  r_acc r' = foldl add (r_acc r) (concat (map ch_calls (choices_of cs))) /\
  r_usage r' = foldl usage_with (r_usage r) cs /\
  r_stop r' = foldl (fun s c => nonempty_or (ch_finish c) s) (r_stop r) (choices_of cs) /\
  r_reported r' = r_usage r'.

Lemma sends_relay_chunk r c :
  r_reported r = r_usage r ->
  exists r' es, sends (relay_chunk r c) r' es /\ relayed r [c] r' /\
    adds es (concat_strings (map ch_content (c_choices c))) (concat_strings (map ch_reasoning (c_choices c))) /\
    usage_after (r_usage r) es = r_usage r'.
Proof.
  intros Hr. unfold relay_chunk. fold (usage_with (r_usage r) c).
  set (t := default _ _). destruct r as [acc u rep ti rt s]. cbn in Hr. subst rep. cbn [r_acc r_usage r_reported r_reportedTimings r_stop].
  set (r1 := mkRelay acc (usage_with u c) u t rt s).
  destruct (sends_relay_choices r1 (c_choices c)) as (e1 & H1 & H2 & H3).
  set (r2 := set_acc _ _) in H1. assert (Hz : r_usage r2 = zeroUsage -> u = zeroUsage).
  { cbn. unfold usage_with. case_bool_decide as E; [done|]. intros E2. by rewrite E2 in E. }
  destruct (sends_usage r2 u eq_refl Hz) as (e2 & K1 & K2 & K3).
  eexists _, (e1 ++ e2). split; [exact (sends_bind _ _ _ _ _ _ H1 K1)|]. split; [|split].
  - unfold relayed, choices_of. cbn. by rewrite app_nil_r.
  - pose proof (adds_app _ _ _ _ _ _ H2 K2) as H. by rewrite !str_app_nil_r in H.
  - rewrite usage_after_app. unfold usage_after at 2. rewrite H3. exact K3.
Qed.

Lemma sends_relay_chunks r cs :
  r_reported r = r_usage r ->
  exists r' es, sends (relay_chunks r cs) r' es /\ relayed r cs r' /\
    adds es (concat_strings (map ch_content (choices_of cs))) (concat_strings (map ch_reasoning (choices_of cs))) /\
    usage_after (r_usage r) es = r_usage r'.
Proof.
  induction cs as [|c cs IH] in r |- *; intros Hr.
  - exists r, []. split; [apply sends_ret|]. split; [done|]. split; [apply adds_nil|done].
  - destruct (sends_relay_chunk r c Hr) as (r1 & e1 & H1 & (A1 & U1 & S1 & R1) & H2 & H3).
    destruct (IH r1 R1) as (r2 & e2 & K1 & (A2 & U2 & S2 & R2) & K2 & K3).
    unfold choices_of in *. cbn [map concat] in *. rewrite app_nil_r in *.
    exists r2, (e1 ++ e2). split; [exact (sends_bind _ _ _ _ _ _ H1 K1)|]. split; [|split].
    + unfold relayed, choices_of. cbn [map concat]. split; [|split; [|split; [|done]]].
      * by rewrite A2, A1, map_app, concat_app, foldl_app.
      * by rewrite U2, U1.
      * by rewrite S2, S1, foldl_app.
    + rewrite !map_app, !concat_strings_app. by apply adds_app.
    + by rewrite usage_after_app, H3, K3.
Qed.

Lemma sends_calls cs : sends (send_calls cs) tt (map KindToolCall cs).
Proof.
  induction cs as [|c cs IH]; [apply sends_ret|]. exact (sends_bind _ _ _ _ _ _ (sends_send _) IH).
Qed.
End relay.

(** What the chunks of a stream spell out, given how it ended. *)
Definition spelled_out (until : string -> option Z) (cs : list chunk) (err : option sdkFailure) : response + GoError :=
  let choices := choices_of cs in
  let stop := last_nonempty (map ch_finish choices) in
  match err with
  | Some f => inr (ErrWrap "call model" (streamError until f))
  | None =>
      if String.eqb stop EmptyString
      then inr (ErrWrap "call model" (ErrText "stream chat completion: stream ended without finish_reason"))
      else inl (mkResponse
        (AssistantMessageWithReasoning (concat_strings (map ch_content choices)) (concat_strings (map ch_reasoning choices))
           (if cutOff stop then [] else assembled (concat (map ch_calls choices))))
        stop (List.last (base.filter (fun u => u <> zeroUsage) (map c_usage cs)) zeroUsage))
  end.

Lemma foldl_finish s cs : foldl (fun s c => nonempty_or (ch_finish c) s) s cs = foldl (fun d s => nonempty_or s d) s (map ch_finish cs).
Proof. induction cs as [|c cs IH] in s |- *; [done|]. cbn. by rewrite IH. Qed.

Lemma foldl_usage u cs : foldl usage_with u cs = List.last (base.filter (fun u => u <> zeroUsage) (map c_usage cs)) u.
Proof.
  induction cs as [|c cs IH] in u |- *; [done|]. cbn [foldl map]. rewrite IH. unfold usage_with.
  case_bool_decide as E; [by rewrite filter_cons_False by tauto|]. by rewrite filter_cons_True, last_cons_default by done.
Qed.

Lemma call_of_map cs : omap call_of (map KindToolCall cs) = cs.
Proof. induction cs as [|c cs IH]; [done|]. cbn. by f_equal. Qed.

Lemma map_empty {A} (f : A -> string) (l : list A) : (forall x, f x = EmptyString) -> concat_strings (map f l) = EmptyString.
Proof. intros H. induction l as [|x l IH]; [done|]. cbn [map]. unfold concat_strings in *. cbn. by rewrite H, IH. Qed.

Lemma calls_parts cs :
  Forall (fun e => is_part e = true) (map KindToolCall cs) /\ omap usage_of (map KindToolCall cs) = [] /\
  concat_strings (map text_of (map KindToolCall cs)) = EmptyString /\
  concat_strings (map reasoning_of (map KindToolCall cs)) = EmptyString.
Proof.
  rewrite !map_map. split; [by apply Forall_map, Forall_forall|].
  split; [by induction cs|]. by split; apply map_empty.
Qed.

(** The response of a stream that delivered [es], then the calls, then what
    was left to say of the usage. *)
Lemma response_of_relay es cs e2 stop text reasoning u :
  stop <> EmptyString -> adds es text reasoning -> adds e2 EmptyString EmptyString ->
  usage_after (usage_after zeroUsage es) e2 = u ->
  response_of (es ++ map KindToolCall cs ++ e2 ++ [KindDone stop]) =
  inl (mkResponse (AssistantMessageWithReasoning text reasoning (if cutOff stop then [] else cs)) stop u).
Proof.
  intros Hs [p1 t1 r1 c1] [p2 t2 r2 c2] Hu. destruct (calls_parts cs) as (q1 & q2 & q3 & q4).
  rewrite !app_assoc. rewrite response_of_parts; [|by repeat apply Forall_app_2|done].
  rewrite !map_app, !concat_strings_app, !omap_app, t1, t2, q3, r1, r2, q4, c1, c2, q2, call_of_map, !app_nil_r.
  rewrite !str_app_nil_r. cbn [app]. rewrite <- Hu. unfold usage_after. by rewrite last_app_default.
Qed.


(** Two calls whose fragments are mixed, with the arguments of the second
    first, and a usage that grows. *)
Example relay_mixed :
  (relay (fun _ => None)
     [mkChunk (mkUsage 1 0 1) None [mkChoice EmptyString "hi" EmptyString [mkFragment 1 "b" "two" "{"; mkFragment 0 "a" "one" EmptyString]];
      mkChunk (mkUsage 1 5 6) None [mkChoice "tool_calls" EmptyString "hm" [mkFragment 0 EmptyString EmptyString " "; mkFragment 1 EmptyString EmptyString "}"]]]
     None None).2 =
  [KindTextDelta "hi"; KindToolCallDelta 1 "b" "two" "{"; KindToolCallDelta 0 "a" "one" EmptyString;
   KindUsage (mkUsage 1 0 1) zeroTimings; KindReasoningDelta "hm"; KindToolCallDelta 0 EmptyString EmptyString " ";
   KindToolCallDelta 1 EmptyString EmptyString "}"; KindUsage (mkUsage 1 5 6) zeroTimings;
   KindToolCall (mkToolCall "a" "one" "{}"); KindToolCall (mkToolCall "b" "two" "{}"); KindDone "tool_calls"]%string.
Proof. vm_compute. reflexivity. Qed.
