(* ===== verification/Search.v ===== *)
(** Web search (internal/search): the cache of answers, the quotas and
    cooldowns of the services, the text a model reads, and the engine that
    chooses whom to ask. *)
From S2P Require Import Prelude GoStr Float64 Failure.
From stdpp Require Import options.

(** ** The cache *)

(** A map from keys to the elements of a list, most recently used first. An
    element is known by its address, which the map holds. *)
Section cache.
Context {V : Type}.

(* @src internal/search/cache.go 21-26 cacheEntry *)
Record cacheEntry := mkEntry { e_key : string; e_value : V; e_expires : Z }.

(* @src internal/search/cache.go 9-19 Cache *)
Record Cache := mkCache {
  c_size : nat;
  c_ttl : Z;
  c_entries : gmap string nat;
  c_order : list (nat * cacheEntry);
  c_fresh : nat;
}.

(* @src internal/search/cache.go 28-31 NewCache *)
Definition NewCache (size : nat) (ttl : Z) : Cache := mkCache size ttl ∅ [] 0.

Definition element (p : nat) (l : list (nat * cacheEntry)) : option cacheEntry :=
  snd <$> List.find (fun x => (x.1 =? p)%nat) l.
Definition without (p : nat) (l : list (nat * cacheEntry)) : list (nat * cacheEntry) :=
  base.filter (fun x => x.1 <> p) l.
Definition set_cache (entries : gmap string nat) (order : list (nat * cacheEntry)) (c : Cache) : Cache :=
  mkCache (c_size c) (c_ttl c) entries order (c_fresh c).

(* @src internal/search/cache.go 33-50 Cache.Get *)
Definition Get (key : string) (now : Z) (c : Cache) : option V * Cache :=
  match c_entries c !! key with
  | None => (None, c)
  | Some p =>
      match element p (c_order c) with
      | None => (None, c)
      | Some entry =>
          if negb (now <? e_expires entry) then
            (None, set_cache (base.delete key (c_entries c)) (without p (c_order c)) c)
          else (Some (e_value entry), set_cache (c_entries c) ((p, entry) :: without p (c_order c)) c)
      end
  end.

(** Evict from the back until the cache fits. *)
Fixpoint evict (fuel : nat) (c : Cache) : Cache :=
  match fuel with
  | O => c
  | S fuel' =>
      if (c_size c <? length (c_order c))%nat then
        match last (c_order c) with
        | Some (p, oldest) => evict fuel' (set_cache (base.delete (e_key oldest) (c_entries c)) (without p (c_order c)) c)
        | None => c
        end
      else c
  end.

(* @src internal/search/cache.go 52-69 Cache.Put *)
Definition Put (key : string) (value : V) (now : Z) (c : Cache) : Cache :=
  let entry := mkEntry key value (now + c_ttl c) in
  match c_entries c !! key with
  | Some p => set_cache (c_entries c) ((p, entry) :: without p (c_order c)) c
  | None =>
      let c := mkCache (c_size c) (c_ttl c) (<[key := c_fresh c]> (c_entries c)) ((c_fresh c, entry) :: c_order c) (S (c_fresh c)) in
      evict (length (c_order c)) c
  end.

(* @src internal/search/cache.go 71-77 Cache.Len *)
Definition Len (c : Cache) : Z := Z.of_nat (length (c_order c)).
End cache.
Arguments cacheEntry : clear implicits.
Arguments Cache : clear implicits.

(** ** Quotas and cooldowns *)

Definition minute : Z := 60 * 1000000000.

(* @src internal/search/usage.go 15-26 cooldownBase *)
Definition cooldownBase : Z := 15 * minute.
Definition cooldownMax : Z := 360 * minute.
Definition maxRetryWait : Z := 1440 * minute.

(* @src internal/search/usage.go 28-32 Limit *)
Record Limit := mkLimit { l_Day : Z; l_Month : Z }.

(** The zero time is [None]. *)
(* @src internal/search/usage.go 34-44 Usage *)
Record SearchUsage := mkSearchUsage {
  su_Day : string;
  su_DayUsed : Z;
  su_Month : string;
  su_MonthUsed : Z;
  su_CooldownUntil : option Z;
  su_FailStreak : Z;
}.

(** [a.After(b)] of a time that may be zero. *)
Definition after (a : option Z) (b : Z) : bool := match a with Some a => b <? a | None => false end.

Section tracker.
(** The UTC day and month of a time, as text. *)
Context (day_of month_of : Z -> string).

(* @src internal/search/usage.go 87-103 Tracker.entry *)
Definition tracker_entry (name : string) (now : Z) (usage : gmap string SearchUsage) : SearchUsage :=
  let u := default (mkSearchUsage (day_of now) 0 (month_of now) 0 None 0) (usage !! name) in
  let u := if String.eqb (su_Day u) (day_of now) then u
           else mkSearchUsage (day_of now) 0 (su_Month u) (su_MonthUsed u) (su_CooldownUntil u) (su_FailStreak u) in
  if String.eqb (su_Month u) (month_of now) then u
  else mkSearchUsage (su_Day u) (su_DayUsed u) (month_of now) 0 (su_CooldownUntil u) (su_FailStreak u).

(* @src internal/search/usage.go 105-110 Tracker.Usage *)
Definition TrackerUsage (name : string) (now : Z) (usage : gmap string SearchUsage) : SearchUsage * gmap string SearchUsage :=
  let u := tracker_entry name now usage in (u, <[name := u]> usage).

(** [int(math.Ceil(d.Minutes()))] of a positive duration. *)
Definition ceil_minutes (d : Z) : Z := (d + minute - 1) / minute.

(* @src internal/search/usage.go 112-126 Tracker.Blocked *)
Definition Blocked (name : string) (limit : Limit) (now : Z) (usage : gmap string SearchUsage)
    : string * gmap string SearchUsage :=
  let '(u, usage) := TrackerUsage name now usage in
  ((if after (su_CooldownUntil u) now
    then "cooling down " +:+ itoa (ceil_minutes (default now (su_CooldownUntil u) - now)) +:+ "m"
    else if (0 <? l_Day limit) && (l_Day limit <=? su_DayUsed u) then "daily quota spent"
    else if (0 <? l_Month limit) && (l_Month limit <=? su_MonthUsed u) then "monthly quota spent"
    else EmptyString), usage).

(** What the store is told, when there is one, is the bucket's new counters. *)
(* @src internal/search/usage.go 153-171 Tracker.update *)
Definition tracker_update (name : string) (now : Z) (change : SearchUsage -> SearchUsage) (usage : gmap string SearchUsage)
    : gmap string SearchUsage :=
  <[name := change (tracker_entry name now usage)]> usage.

(* @src internal/search/usage.go 128-137 Tracker.RecordUse *)
Definition RecordUse (name : string) (now : Z) : gmap string SearchUsage -> gmap string SearchUsage :=
  tracker_update name now (fun u => mkSearchUsage (su_Day u) (su_DayUsed u + 1) (su_Month u) (su_MonthUsed u + 1) None 0).

(** The cooldown after so many failures in a row. *)
Definition backoff (streak : Z) : Z := Z.min (Z.shiftl cooldownBase (Z.min (streak - 1) 10)) cooldownMax.

(* @src internal/search/usage.go 139-151 Tracker.RecordFailure *)
Definition RecordFailure (name : string) (now : Z) (until : option Z) : gmap string SearchUsage -> gmap string SearchUsage :=
  tracker_update name now (fun u =>
    let streak := su_FailStreak u + 1 in
    let cooldown := now + backoff streak in
    mkSearchUsage (su_Day u) (su_DayUsed u) (su_Month u) (su_MonthUsed u)
      (if after until cooldown then until else Some cooldown) streak).
End tracker.

(** ** Failures of a service *)

(** An [*HTTPError], with the two headers that matter, empty when absent, or
    another error, as [DescribeNetwork] words it. *)
(* @src internal/search/search.go 64-73 HTTPError *)
Inductive SearchError : Type :=
| HTTPError (Status : Z) (Message : string) (header : option (string * string))
| OtherError (text : string).

(** [strings.Contains]. *)
Definition contains (s sub : string) : bool :=
  match find_after (String.length s) s sub with Some _ => true | None => false end.

(* @src internal/search/search.go 84-95 Describe *)
Definition Describe (err : SearchError) : string :=
  match err with
  | OtherError text => text
  | HTTPError status msg _ =>
      if (0 <? status) && negb (contains msg (itoa status)) then msg +:+ " - " +:+ itoa status else msg
  end.

(* @src internal/search/engine.go 399-409 failureReason *)
Definition failureReason (err : SearchError) : string :=
  match err with
  | HTTPError status _ _ =>
      if status =? 429 then "rate limited" else if 0 <? status then "HTTP " +:+ itoa status else Describe err
  | OtherError _ => Describe err
  end.

Section deadline.
(** [strconv.ParseFloat] and [http.ParseTime]; a time is in nanoseconds. *)
Context (parse_float : string -> option float64) (parse_time : string -> option Z).

Definition second : Z := 1000000000.

Definition f64_min (x y : float64) : float64 := if f64_ltb y x then y else x.

(* @src internal/search/usage.go 185-214 retryDeadline *)
Definition retryDeadline (err : SearchError) (now : Z) : option Z :=
  match err with
  | HTTPError _ _ (Some (retry_after, reset)) =>
      let by_reset :=
        match parse_float reset with
        | None => None
        | Some r =>
            if f64_leb r f64_zero then None
            else
              let r := if f64_ltb (f64_of_Z 100000000000) r then f64_div r (f64_of_Z 1000) else r in
              if f64_ltb (f64_of_Z ((now + maxRetryWait) / second)) r then Some (now + maxRetryWait)
              else Some (f64_to_int r * second)
        end in
      if String.eqb retry_after EmptyString then by_reset
      else match parse_float retry_after with
      | Some seconds =>
          if negb (f64_leb f64_zero seconds) then None
          else Some (now + f64_to_int (f64_mul (f64_min seconds (f64_of_Z 86400)) (f64_of_Z second)))
      | None => match parse_time retry_after with Some t => Some t | None => by_reset end
      end
  | _ => None
  end.

(* @src internal/search/usage.go 173-183 RetryDeadline *)
Definition RetryDeadline (err : SearchError) (now : Z) : option Z :=
  let at_ := retryDeadline err now in
  if after at_ (now + maxRetryWait) then Some (now + maxRetryWait) else at_.
End deadline.

(** ** Results *)

(* @src internal/search/search.go 17-22 Result *)
Record SearchResult := mkResult { r_Title : string; r_URL : string; r_Description : string }.

Section results.
(** The identity of a page, [NormalizeURL], over [net/url]; markup taken out
    of a snippet, [Clean], over [html]. *)
Context (NormalizeURL Clean : string -> string).

Fixpoint dedupe_go (seen : gset string) (results : list SearchResult) : list SearchResult :=
  match results with
  | [] => []
  | r :: results' =>
      if String.eqb (r_URL r) EmptyString || String.eqb (r_Title r) EmptyString then dedupe_go seen results'
      else
        let key := NormalizeURL (r_URL r) in
        if bool_decide (key ∈ seen) then dedupe_go seen results' else r :: dedupe_go ({[key]} ∪ seen) results'
  end.

(* @src internal/search/format.go 48-65 Dedupe *)
Definition Dedupe (results : list SearchResult) : list SearchResult := dedupe_go ∅ results.

(* @src internal/search/format.go 15-17 CharsPerToken *)
Definition CharsPerToken : Z := 4.

(** Cut bytes off the end until the text is valid UTF-8. *)
Fixpoint valid_front (fuel : nat) (l : list Z) : list Z :=
  match fuel with
  | O => l
  | S fuel' => if forallb seg_ok (segs l) then l else valid_front fuel' (take (length l - 1) l)
  end.

Fixpoint last_space (l : list Z) : option nat :=
  match l with
  | [] => None
  | b :: l' => match last_space l' with
               | Some i => Some (S i)
               | None => if b =? 32 then Some O else None
               end
  end.

Fixpoint drop_blanks (l : list Z) : list Z :=
  match l with
  | b :: l' => if (b =? 32) || (b =? 9) || (b =? 10) then drop_blanks l' else l
  | [] => []
  end.

Definition ellipsis : list Z := [226; 128; 166].

(* @src internal/search/format.go 77-93 Truncate *)
Definition Truncate (text : string) (tokens : Z) : string :=
  let limit := tokens * CharsPerToken in
  if str_len text <=? limit then text
  else
    let slice := take (Z.to_nat limit) (bytes_of text) in
    let slice := valid_front (length slice) slice in
    let slice := match last_space slice with
                 | Some cut => if limit * 6 / 10 <? Z.of_nat cut then take cut slice else slice
                 | None => slice
                 end in
    of_bytes (rev (drop_blanks (rev slice)) ++ ellipsis).

Definition format_one (descriptionTokens : Z) (i : Z) (r : SearchResult) : string :=
  let d := Truncate (Clean (r_Description r)) descriptionTokens in
  join ([itoa (i + 1) +:+ ". " +:+ Clean (r_Title r); "   " +:+ r_URL r] ++
        (if String.eqb d EmptyString then [] else ["   " +:+ d])) nl.

(* @src internal/search/format.go 116-131 FormatResults *)
Definition FormatResults (results : list SearchResult) (descriptionTokens : Z) : string :=
  match results with
  | [] => "No results."
  | _ => join (imap (fun i r => format_one descriptionTokens (Z.of_nat i) r) results) nl2
  end.
End results.
