(* ===== verification/SearchEngine.v ===== *)
(** The search engine (internal/search/engine.go): the web through a chain of
    services, of which the first usable one is asked, and every other source
    directly, with keys, quotas, cooldowns, pacing, and a cache. What is
    around it, the clock, the settings, the keys, the services, and the
    search being cancelled, are functions of a step counter. *)
From S2P Require Import Prelude GoStr Failure Search.
From stdpp Require Import options.

(* @src internal/search/engine.go 16-35 DefaultCount *)
Definition DefaultCount : Z := 10.
Definition MaxCount : Z := 25.
Definition MaxQueryRunes : nat := 500.
Definition descriptionTokens : Z := 100.
Definition poolSize : Z := 30.
Definition cacheTTL : Z := 1440 * minute.
Definition cacheSize : nat := 512.

(* @src internal/search/engine.go 37-39 SourceWeb *)
Definition SourceWeb : string := "web".

(** A backend; its searcher is known by its name, and [b_Searcher] says that
    it has one. *)
(* @src internal/search/engine.go 41-68 Backend *)
Record Backend := mkBackend {
  b_Name : string;
  b_Searcher : bool;
  b_Web : bool;
  b_Key : string;
  b_KeyRequired : bool;
  b_Bucket : string;
  b_Limit : Limit;
  b_Pool : Z;
  b_Interval : Z;
}.

(** A nil order is [None]. *)
(* @src internal/search/engine.go 70-79 Options *)
Record SearchOptions := mkOptions { o_Order : option (list string); o_Limits : gmap string Limit }.

(* @src internal/search/search.go 24-33 Query *)
Record Query := mkQuery { q_Text : string; q_Limit : Z; q_Key : string }.

(* @src internal/search/engine.go 124-128 cached *)
Record cached := mkCached { ca_provider : string; ca_results : list SearchResult }.

(* @src internal/search/engine.go 207-215 Request *)
Record SearchRequest := mkSearchRequest { sr_Query : string; sr_Source : string; sr_Count : Z }.

(* @src internal/search/engine.go 242-246 Attempt *)
Record Attempt := mkAttempt { at_Provider : string; at_Error : string }.

(* @src internal/search/engine.go 225-240 Details *)
Record Details := mkDetails {
  d_Source : string;
  d_Query : string;
  d_Count : Z;
  d_Providers : list string;
  d_Attempts : list Attempt;
  d_Cached : bool;
  d_Pool : Z;
  d_Results : list SearchResult;
  d_Ms : Z;
}.

(* @src internal/search/engine.go 217-223 Outcome *)
Record Outcome := mkOutcome { oc_Text : string; oc_IsError : bool; oc_Details : Details }.

Definition with_attempt (a : Attempt) (d : Details) : Details :=
  mkDetails (d_Source d) (d_Query d) (d_Count d) (d_Providers d) (d_Attempts d ++ [a]) (d_Cached d) (d_Pool d) (d_Results d) (d_Ms d).
Definition with_answer (providers : list string) (hit : bool) (pool : Z) (d : Details) : Details :=
  mkDetails (d_Source d) (d_Query d) (d_Count d) providers (d_Attempts d) hit pool (d_Results d) (d_Ms d).
Definition with_results (rs : list SearchResult) (d : Details) : Details :=
  mkDetails (d_Source d) (d_Query d) (d_Count d) (d_Providers d) (d_Attempts d) (d_Cached d) (d_Pool d) rs (d_Ms d).
Definition with_cached (d : Details) : Details :=
  mkDetails (d_Source d) (d_Query d) (d_Count d) (d_Providers d) (d_Attempts d) true (d_Pool d) (d_Results d) (d_Ms d).
Definition with_ms (ms : Z) (d : Details) : Details :=
  mkDetails (d_Source d) (d_Query d) (d_Count d) (d_Providers d) (d_Attempts d) (d_Cached d) (d_Pool d) (d_Results d) ms.

(** ** The engine *)

Definition backend_named (name : string) (bs : list Backend) : option Backend :=
  List.find (fun b => String.eqb (b_Name b) name) bs.

Definition with_bucket (b : Backend) : Backend :=
  if b_Web b && String.eqb (b_Bucket b) EmptyString
  then mkBackend (b_Name b) (b_Searcher b) (b_Web b) (b_Key b) (b_KeyRequired b) (b_Name b) (b_Limit b) (b_Pool b) (b_Interval b)
  else b.

(** [i] is the position of the next backend, [done] those registered. *)
(* @src internal/search/engine.go 144-158 NewEngine *)
Fixpoint register (i : Z) (done bs : list Backend) : list Backend + GoError :=
  match bs with
  | [] => inl done
  | b :: bs' =>
      if String.eqb (b_Name b) EmptyString || String.eqb (b_Name b) SourceWeb
      then inr (ErrText ("search backend " +:+ itoa i +:+ ": invalid name " +:+ go_quote (b_Name b)))
      else match backend_named (b_Name b) done with
      | Some _ => inr (ErrText ("search backend " +:+ go_quote (b_Name b) +:+ " registered twice"))
      | None =>
          if negb (b_Searcher b) then inr (ErrText ("search backend " +:+ go_quote (b_Name b) +:+ " has no searcher"))
          else register (i + 1) (done ++ [with_bucket b]) bs'
      end
  end.

(* @src internal/search/engine.go 130-160 NewEngine *)
Definition NewEngine (bs : list Backend) : list Backend + GoError := register 0 [] bs.

Section engine.
Context (backends : list Backend).

(* @src internal/search/engine.go 162-171 Engine.Web *)
Definition Web : list string := map b_Name (base.filter (fun b => b_Web b = true) backends).

(* @src internal/search/engine.go 173-183 Engine.Sources *)
Definition Sources : list string := SourceWeb :: map b_Name (base.filter (fun b => b_Web b = false) backends).

(* @src internal/search/engine.go 185-194 Engine.DefaultLimits *)
Definition DefaultLimits : gmap string Limit :=
  foldl (fun m b => if String.eqb (b_Bucket b) EmptyString then m else <[b_Bucket b := b_Limit b]> m) ∅ backends.

(* @src internal/search/engine.go 196-205 Engine.KeyNames *)
Definition KeyNames : list string :=
  foldl (fun l b => if String.eqb (b_Key b) EmptyString || bool_decide (b_Key b ∈ l) then l else l ++ [b_Key b]) [] backends.

(** ** Effects *)

(** Waiting for a turn and for an interval may end with the search being
    cancelled. *)
Record SearchEnv := mkSearchEnv {
  se_now : nat -> Z;
  se_cancelled : nat -> option GoError;
  se_options : nat -> SearchOptions + GoError;
  se_key : nat -> string -> string + GoError;
  se_search : nat -> string -> Query -> list SearchResult + SearchError;
  se_turn : nat -> option GoError;
  se_wait : nat -> Z -> option GoError;
}.

(** [w_cache] is the engine's, [w_usage] its tracker's, [w_next] the
    backends'; [w_asked] are the requests to services, oldest first. *)
(* @src internal/search/engine.go 108-122 Engine *)
Record SearchWorld := mkSearchWorld {
  w_tick : nat;
  w_cache : Cache cached;
  w_usage : gmap string SearchUsage;
  w_next : gmap string Z;
  w_asked : list (string * Query);
}.

Definition Eff (A : Type) : Type := SearchWorld -> A * SearchWorld.
#[export] Instance Eff_ret : MRet Eff := fun A a w => (a, w).
#[export] Instance Eff_bind : MBind Eff := fun A B f m w => let '(a, w) := m w in f a w.

Definition set_cache_of (c : Cache cached) (w : SearchWorld) := mkSearchWorld (w_tick w) c (w_usage w) (w_next w) (w_asked w).
Definition set_usage (u : gmap string SearchUsage) (w : SearchWorld) := mkSearchWorld (w_tick w) (w_cache w) u (w_next w) (w_asked w).
Definition set_next (n : gmap string Z) (w : SearchWorld) := mkSearchWorld (w_tick w) (w_cache w) (w_usage w) n (w_asked w).

Definition act {A} (f : SearchWorld -> A * SearchWorld) : Eff A := f.
Definition ask {A} (f : nat -> A) : Eff A := fun w =>
  (f (w_tick w), mkSearchWorld (S (w_tick w)) (w_cache w) (w_usage w) (w_next w) (w_asked w)).

Context (E : SearchEnv) (day_of month_of : Z -> string).
Context (parse_float : string -> option Float64.float64) (parse_time : string -> option Z).
Context (NormalizeURL Clean : string -> string) (searxng_url : string).

Definition now : Eff Z := ask (se_now E).
Definition cache_get (key : string) : Eff (option cached) :=
  t ← now; act (fun w => let '(r, c) := Get key t (w_cache w) in (r, set_cache_of c w)).
Definition cache_put (key : string) (v : cached) : Eff unit :=
  t ← now; act (fun w => (tt, set_cache_of (Put key v t (w_cache w)) w)).
Definition blocked (bucket : string) (limit : Limit) : Eff string :=
  t ← now; act (fun w => let '(r, u) := Blocked day_of month_of bucket limit t (w_usage w) in (r, set_usage u w)).
Definition record_use (bucket : string) : Eff unit :=
  t ← now; act (fun w => (tt, set_usage (RecordUse day_of month_of bucket t (w_usage w)) w)).
Definition record_failure (bucket : string) (err : SearchError) : Eff unit :=
  t ← now; act (fun w =>
    (tt, set_usage (RecordFailure day_of month_of bucket t (RetryDeadline parse_float parse_time err t) (w_usage w)) w)).
Definition search_backend (name : string) (q : Query) : Eff (list SearchResult + SearchError) := fun w =>
  (se_search E (w_tick w) name q,
   mkSearchWorld (S (w_tick w)) (w_cache w) (w_usage w) (w_next w) (w_asked w ++ [(name, q)])).

Definition limit_of (bucket : string) (limits : gmap string Limit) : Limit := default (mkLimit 0 0) (limits !! bucket).

(** The options with the defaults filled in: the order and the limits. *)
(* @src internal/search/engine.go 291-309 Engine.options *)
Definition options : Eff ((list string * gmap string Limit) + GoError) :=
  r ← ask (se_options E);
  match r with
  | inr err => mret (inr (ErrWrap "read search settings" err))
  | inl o => mret (inl (default Web (o_Order o), o_Limits o ∪ DefaultLimits))
  end.

(* @src internal/search/engine.go 311-319 Engine.Limit *)
Definition EngineLimit (bucket : string) : Eff (Limit + GoError) :=
  r ← options;
  match r with
  | inr err => mret (inr err)
  | inl (_, limits) => mret (inl (limit_of bucket limits))
  end.

(* @src internal/search/engine.go 321-331 Engine.key *)
Definition key (b : Backend) : Eff (string + GoError) :=
  if String.eqb (b_Key b) EmptyString then mret (inl EmptyString)
  else
    r ← ask (fun t => se_key E t (b_Key b));
    match r with
    | inr err => mret (inr (ErrWrap ("read the " +:+ b_Key b +:+ " search key") err))
    | inl k => mret (inl k)
    end.

(** ** What the model is told *)

(* @src internal/search/engine.go 427-432 Engine.recovery *)
Definition recovery : string :=
  "Set EIKA_SEARXNG_URL to a reachable SearXNG JSON API (currently " +:+ searxng_url +:+ "), " +:+
  "or add an Exa, Tavily, or Brave API key under Settings, Search.".

(* @src internal/search/engine.go 434-442 Engine.noProvider *)
Definition noProvider (attempts : list Attempt) : string :=
  let detail := join (map (fun a => at_Provider a +:+ ": " +:+ at_Error a) attempts) "; " in
  "web search failed: no provider returned results (" +:+
  (if String.eqb detail EmptyString then "no providers configured" else detail) +:+ "). " +:+ recovery.

Definition index_of (s : string) (l : list string) : Z :=
  match list_find (fun x => x = s) l with Some (i, _) => Z.of_nat i | None => -1 end.

(* @src internal/search/engine.go 444-460 Engine.notices *)
Definition notices (provider : string) (attempts : list Attempt) (order : list string) : list string :=
  if String.eqb provider "searxng" then []
  else match List.find (fun a => String.eqb (at_Provider a) "searxng") attempts with
  | Some a => ["SearXNG unavailable (" +:+ at_Error a +:+ "); used " +:+ provider +:+ " fallback. " +:+ recovery]
  | None =>
      let s := index_of "searxng" order in
      let p := index_of provider order in
      if (length attempts =? 0)%nat && (0 <=? s) && (s <? p)
      then ["Using cached " +:+ provider +:+ " fallback results; SearXNG did not answer when this query was cached. " +:+ recovery]
      else []
  end.

(* @src internal/search/engine.go 411-425 Engine.webOutcome *)
Definition webOutcome (pool : list SearchResult) (count : Z) (order : list string) (d : Details) : Outcome :=
  let results := take (Z.to_nat count) pool in
  let d := with_results results d in
  let text := FormatResults Clean results descriptionTokens in
  let text := match notices (default EmptyString (head (d_Providers d))) (d_Attempts d) order with
              | [] => text
              | ns => join (map (fun n => "Notice: " +:+ n) ns) nl +:+ nl2 +:+ text
              end in
  mkOutcome text false d.

(** ** Searching *)

(** The chain: the pool of the first provider that has results, or none, and
    the details with the attempts; an error ends the search. *)
(* @src internal/search/engine.go 352-389 Engine.searchWeb *)
Fixpoint chain (query : string) (limits : gmap string Limit) (order : list string) (d : Details)
    : Eff ((list SearchResult * Details) + GoError) :=
  match order with
  | [] => mret (inl ([], d))
  | name :: order' =>
      match backend_named name backends with
      | None => chain query limits order' (with_attempt (mkAttempt name "unknown provider") d)
      | Some b =>
          if negb (b_Web b) then chain query limits order' (with_attempt (mkAttempt name "unknown provider") d)
          else
            k ← key b;
            match k with
            | inr err => mret (inr err)
            | inl key =>
                if b_KeyRequired b && String.eqb key EmptyString
                then chain query limits order' (with_attempt (mkAttempt name "no API key") d)
                else
                  why ← blocked (b_Bucket b) (limit_of (b_Bucket b) limits);
                  if negb (String.eqb why EmptyString) then chain query limits order' (with_attempt (mkAttempt name why) d)
                  else
                    r ← search_backend (b_Name b) (mkQuery query poolSize key);
                    match r with
                    | inr err =>
                        c ← ask (se_cancelled E);
                        match c with
                        | Some e => mret (inr e)
                        | None =>
                            _ ← record_failure (b_Bucket b) err;
                            chain query limits order' (with_attempt (mkAttempt name (failureReason err)) d)
                        end
                    | inl results =>
                        _ ← record_use (b_Bucket b);
                        match Dedupe NormalizeURL results with
                        | [] => chain query limits order' (with_attempt (mkAttempt name "no results") d)
                        | found => mret (inl (found, with_answer [name] (d_Cached d) (d_Pool d) d))
                        end
                    end
            end
      end
  end.

(* @src internal/search/engine.go 333-397 Engine.searchWeb *)
Definition searchWeb (query : string) (count : Z) (order : list string) (limits : gmap string Limit) (d : Details)
    : Eff (Outcome + GoError) :=
  match order with
  | [] => mret (inl (mkOutcome ("web search is turned off: no web provider is selected under Settings, Search. " +:+
                                "The other sources still work.") true d))
  | _ =>
      let cacheKey := SourceWeb +:+ "|" +:+ query in
      hit ← cache_get cacheKey;
      match hit with
      | Some h => mret (inl (webOutcome (ca_results h) count order
                               (with_answer [ca_provider h] true (Z.of_nat (length (ca_results h))) d)))
      | None =>
          r ← chain query limits order d;
          match r with
          | inr err => mret (inr err)
          | inl ([], d) => mret (inl (mkOutcome (noProvider (d_Attempts d)) true d))
          | inl (found, d) =>
              _ ← cache_put cacheKey (mkCached (default EmptyString (head (d_Providers d))) found);
              mret (inl (webOutcome found count order
                           (with_answer (d_Providers d) (d_Cached d) (Z.of_nat (length found)) d)))
          end
      end
  end.

(* @src internal/search/engine.go 531-551 Engine.pace *)
Definition pace (b : Backend) : Eff (option GoError) :=
  turn ← ask (se_turn E);
  match turn with
  | Some err => mret (Some err)
  | None =>
      t ← now;
      due ← act (fun w => (default t (w_next w !! b_Name b), w));
      cut ← (if 0 <? due - t then ask (fun n => se_wait E n (due - t)) else mret None);
      match cut with
      | Some err => mret (Some err)
      | None =>
          t ← now;
          act (fun w => (None, set_next (<[b_Name b := t + b_Interval b]> (w_next w)) w))
      end
  end.

Definition source_fails (b : Backend) (why : string) (d : Details) : Outcome + GoError :=
  inl (mkOutcome (b_Name b +:+ " search failed: " +:+ why) true d).

Definition source_answer (results : list SearchResult) (count : Z) (d : Details) : Outcome + GoError :=
  let results := take (Z.to_nat count) results in
  inl (mkOutcome (FormatResults Clean results descriptionTokens) false (with_results results d)).

(** The cached pool of a source that has one. *)
Definition pooled (b : Backend) (cacheKey : string) : Eff (option cached) :=
  if 0 <? b_Pool b then cache_get cacheKey else mret None.

(** The request itself, and what becomes of its answer. *)
(* @src internal/search/engine.go 506-528 Engine.searchSource *)
Definition ask_source (b : Backend) (query key : string) (count : Z) (d : Details) : Eff (Outcome + GoError) :=
  r ← search_backend (b_Name b) (mkQuery query (if 0 <? b_Pool b then b_Pool b else count) key);
  match r with
  | inr err =>
      c ← ask (se_cancelled E);
      match c with
      | Some e => mret (inr e)
      | None =>
          _ ← (match err with
               | HTTPError status _ _ =>
                   if negb (String.eqb (b_Bucket b) EmptyString) && ((status =? 403) || (status =? 429))
                   then record_failure (b_Bucket b) err else mret tt
               | _ => mret tt
               end);
          mret (source_fails b (Describe err) d)
      end
  | inl results =>
      _ ← (if String.eqb (b_Bucket b) EmptyString then mret tt else record_use (b_Bucket b));
      _ ← (if 0 <? b_Pool b then cache_put (b_Name b +:+ "|" +:+ query) (mkCached (b_Name b) results) else mret tt);
      mret (source_answer results count d)
  end.

(* @src internal/search/engine.go 462-529 Engine.searchSource *)
Definition searchSource (b : Backend) (query : string) (count : Z) (limits : gmap string Limit) (d : Details)
    : Eff (Outcome + GoError) :=
  k ← key b;
  match k with
  | inr err => mret (inr err)
  | inl key =>
      if b_KeyRequired b && String.eqb key EmptyString
      then mret (source_fails b (b_Name b +:+ " needs a " +:+ b_Key b +:+ " key; add one under Settings, Search.") d)
      else
        why ← (if String.eqb (b_Bucket b) EmptyString then mret EmptyString
               else blocked (b_Bucket b) (limit_of (b_Bucket b) limits));
        if negb (String.eqb why EmptyString) then mret (source_fails b (b_Bucket b +:+ " " +:+ why +:+ ".") d)
        else
          let cacheKey := b_Name b +:+ "|" +:+ query in
          hit ← pooled b cacheKey;
          match hit with
          | Some h => mret (source_answer (ca_results h) count (with_cached d))
          | None =>
              if 0 <? b_Interval b then
                cut ← pace b;
                match cut with
                | Some err => mret (inr err)
                | None =>
                    hit ← (c ← cache_get cacheKey; mret (if 0 <? b_Pool b then c else None));
                    match hit with
                    | Some h => mret (source_answer (ca_results h) count (with_cached d))
                    | None => ask_source b query key count d
                    end
                end
              else ask_source b query key count d
          end
  end.

(* @src internal/search/engine.go 248-289 Engine.Search *)
Definition Search (req : SearchRequest) : Eff (Outcome + GoError) :=
  started ← now;
  let source := trim_space (sr_Source req) in
  let source := if String.eqb source EmptyString then SourceWeb else source in
  let query := trim_space (sr_Query req) in
  let count := if sr_Count req =? 0 then DefaultCount else sr_Count req in
  let count := Z.max 1 (Z.min count MaxCount) in
  let d := mkDetails source query count [] [] false 0 [] 0 in
  let fail why := mret (inl (mkOutcome (source +:+ " search failed: " +:+ why) true d)) in
  if String.eqb query EmptyString then fail "query is empty."
  else if (MaxQueryRunes <? length (runes query))%nat
  then fail ("query is longer than " +:+ itoa (Z.of_nat MaxQueryRunes) +:+ " characters.")
  else
    let run b :=
      o ← options;
      match o with
      | inr err => mret (inr err)
      | inl (order, limits) =>
          r ← (match b with
               | None => searchWeb query count order limits d
               | Some b => searchSource b query count limits d
               end);
          match r with
          | inr err => mret (inr err)
          | inl out =>
              t ← now;
              mret (inl (mkOutcome (oc_Text out) (oc_IsError out) (with_ms (Z.quot (t - started) 1000000) (oc_Details out))))
          end
      end in
    if String.eqb source SourceWeb then run None
    else match backend_named source backends with
    | Some b => if b_Web b then fail ("unknown source; use one of " +:+ join Sources ", " +:+ ".") else run (Some b)
    | None => fail ("unknown source; use one of " +:+ join Sources ", " +:+ ".")
    end.
End engine.
