(* ===== verification/SearchClaims.v ===== *)
(** What the search cache and the trackers promise. *)
From S2P Require Import Prelude GoStr Float64 Failure Search SearchEngine.
From stdpp Require Import options.

(** ** The cache against a list

    The specification of a cache: its entries, most recently used first, one
    for each key. *)
Section lru.
Context {V : Type}.
Abbreviation entry := (cacheEntry V).

Definition rm (key : string) (l : list entry) : list entry := base.filter (fun e => e_key e <> key) l.

Definition lru_get (key : string) (now : Z) (l : list entry) : option V * list entry :=
  match List.find (fun e => String.eqb (e_key e) key) l with
  | Some e => if now <? e_expires e then (Some (e_value e), e :: rm key l) else (None, rm key l)
  | None => (None, l)
  end.

Definition lru_put (size : nat) (ttl : Z) (key : string) (value : V) (now : Z) (l : list entry) : list entry :=
  take size (mkEntry key value (now + ttl) :: rm key l).

Inductive cache_op : Type := OpGet (key : string) (now : Z) | OpPut (key : string) (value : V) (now : Z).

Definition cache_step (o : cache_op) (c : Cache V) : option V * Cache V :=
  match o with OpGet k now => Get k now c | OpPut k v now => (None, Put k v now c) end.
Definition lru_step (size : nat) (ttl : Z) (o : cache_op) (l : list entry) : option V * list entry :=
  match o with OpGet k now => lru_get k now l | OpPut k v now => (None, lru_put size ttl k v now l) end.

(** What a sequence of operations answers. *)
Fixpoint answers {S} (step : cache_op -> S -> option V * S) (ops : list cache_op) (s : S) : list (option V) * S :=
  match ops with
  | [] => ([], s)
  | o :: ops' => let '(r, s) := step o s in let '(rs, s) := answers step ops' s in (r :: rs, s)
  end.

Record cache_ok (c : Cache V) : Prop := {
  co_addresses : NoDup (map fst (c_order c));
  co_keys : NoDup (map (fun x => e_key x.2) (c_order c));
  co_entries : forall key p, c_entries c !! key = Some p <-> exists e, (p, e) ∈ c_order c /\ e_key e = key;
  co_fresh : Forall (fun x => (x.1 < c_fresh c)%nat) (c_order c);
  co_size : (length (c_order c) <= c_size c)%nat;
}.

Definition contents (c : Cache V) : list entry := map snd (c_order c).

Lemma map_filter {A B} (f : A -> B) (P : A -> Prop) (Q : B -> Prop) `{!forall x, Decision (P x), !forall x, Decision (Q x)} l :
  (forall x, x ∈ l -> (P x <-> Q (f x))) -> map f (base.filter P l) = base.filter Q (map f l).
Proof.
  induction l as [|x l IH]; [done|]. intros Hpq. cbn [map].
  assert (IH' : map f (base.filter P l) = base.filter Q (map f l)) by (apply IH; intros y Hy; apply Hpq; by right).
  destruct (decide (P x)) as [Hp|Hp].
  - rewrite !filter_cons_True; [|by apply Hpq; [left|]|done]. cbn [map]. by f_equal.
  - rewrite !filter_cons_False; [done| |done]. intros Hq. apply Hp, Hpq; [left|done].
Qed.

Lemma address_inj c p e f : cache_ok c -> (p, e) ∈ c_order c -> (p, f) ∈ c_order c -> e = f.
Proof.
  intros [a _ _ _ _] He Hf. apply list_elem_of_lookup in He as [i Hi]. apply list_elem_of_lookup in Hf as [j Hj].
  assert (i = j) as ->.
  { eapply NoDup_lookup; [exact a|..]; rewrite list_lookup_fmap; [by rewrite Hi|by rewrite Hj]. }
  rewrite Hi in Hj. by simplify_eq.
Qed.

(** The addresses and the keys of the entries say the same. *)
Lemma same_entry c p e x :
  cache_ok c -> (p, e) ∈ c_order c -> x ∈ c_order c -> (x.1 <> p <-> e_key x.2 <> e_key e).
Proof.
  intros Hok Hp Hx. destruct x as [q f]. cbn.
  assert (Ep : c_entries c !! e_key e = Some p) by (apply (co_entries c Hok); eauto).
  assert (Eq : c_entries c !! e_key f = Some q) by (apply (co_entries c Hok); eauto). split.
  - intros Hne E. rewrite E in Eq. congruence.
  - intros Hne ->. apply Hne. by rewrite (address_inj c p e f Hok Hp Hx).
Qed.

Lemma contents_without c p e :
  cache_ok c -> (p, e) ∈ c_order c -> map snd (without p (c_order c)) = rm (e_key e) (contents c).
Proof.
  intros Hok Hp. unfold without, rm, contents. apply map_filter. intros x Hx. by apply (same_entry c p e).
Qed.

Lemma element_found c p e : cache_ok c -> (p, e) ∈ c_order c -> element p (c_order c) = Some e.
Proof.
  intros Hok Hp. unfold element. destruct (List.find _ _) as [[q f]|] eqn:E.
  - apply find_some in E as [Hin Hq]. apply Nat.eqb_eq in Hq. cbn in *. subst q.
    apply list_elem_of_In in Hin. f_equal. by apply (address_inj c p f e).
  - exfalso. pose proof (find_none _ _ E (p, e)) as H. cbn in H. rewrite Nat.eqb_refl in H. discriminate H. by apply list_elem_of_In.
Qed.

(** What [List.find] finds among the contents. *)
Lemma contents_find c key :
  cache_ok c ->
  List.find (fun e => String.eqb (e_key e) key) (contents c) =
  match c_entries c !! key with Some p => element p (c_order c) | None => None end.
Proof.
  intros Hok. destruct (c_entries c !! key) as [p|] eqn:E.
  - pose proof E as E'. apply (co_entries c Hok) in E' as (e & He & Hk). rewrite (element_found c p e Hok He).
    destruct (List.find _ _) as [f|] eqn:Ef.
    + apply find_some in Ef as [Hin Hf]. apply String.eqb_eq in Hf. apply list_elem_of_In, list_elem_of_fmap in Hin as ([q f'] & -> & Hin).
      cbn in *. f_equal. destruct (decide (q = p)) as [->|Hne].
      * assert (element p (c_order c) = Some f') by (by apply element_found). pose proof (element_found c p e Hok He). congruence.
      * exfalso. apply (same_entry c p e (q, f') Hok He Hin) in Hne. cbn in Hne. congruence.
    + exfalso. pose proof (find_none _ _ Ef e) as H. cbv beta in H. rewrite Hk, String.eqb_refl in H. discriminate H.
      apply list_elem_of_In, list_elem_of_fmap. by exists (p, e).
  - destruct (List.find _ _) as [f|] eqn:Ef; [|done]. exfalso.
    apply find_some in Ef as [Hin Hf]. apply String.eqb_eq in Hf. apply list_elem_of_In, list_elem_of_fmap in Hin as ([q f'] & -> & Hin).
    cbn in Hf. assert (c_entries c !! key = Some q) by (apply (co_entries c Hok); eauto). congruence.
Qed.

(** Moving an entry to the front, or dropping it, keeps the invariant. *)
Lemma without_perm c p e : cache_ok c -> (p, e) ∈ c_order c -> c_order c ≡ₚ (p, e) :: without p (c_order c).
Proof.
  intros Hok Hp. apply list_elem_of_split in Hp as (l1 & l2 & E). pose proof (co_addresses c Hok) as Hn.
  unfold without. rewrite E in *. rewrite map_app in Hn. cbn [map fst] in Hn. apply NoDup_app in Hn as (_ & Hd & [Hn _]%NoDup_cons).
  assert (Hall : forall l : list (nat * entry), p ∉ map fst l -> base.filter (fun x => x.1 <> p) l = l).
  { clear. induction l as [|x l IH]; [done|]. cbn [map]. intros [H1 H2]%not_elem_of_cons.
    rewrite filter_cons_True by congruence. by rewrite IH. }
  rewrite filter_app, filter_cons_False by (cbn; tauto). rewrite !Hall; [by rewrite Permutation_middle|done|].
  intros H. apply (Hd _ H). by left.
Qed.

Lemma front_ok c p e e' :
  cache_ok c -> (p, e) ∈ c_order c -> e_key e' = e_key e ->
  cache_ok (set_cache (c_entries c) ((p, e') :: without p (c_order c)) c).
Proof.
  intros Hok Hp Hk. pose proof (without_perm c p e Hok Hp) as HP.
  assert (Hel : forall x, x ∈ c_order c <-> x = (p, e) \/ x ∈ without p (c_order c)) by (intros x; rewrite <- elem_of_cons; by apply elem_of_Permutation_proper).
  destruct Hok as [a b en f s]. split; cbn.
  - by rewrite HP in a.
  - rewrite HP in b. cbn in b. by rewrite Hk.
  - intros key q. rewrite en. split; intros (x & Hx & Hkx).
    + apply Hel in Hx as [Hx|Hx]; [simplify_eq; exists e'; split; [by left|done]|exists x; split; [by right|done]].
    + apply elem_of_cons in Hx as [Hx|Hx]; [simplify_eq; exists e|exists x]; (split; [apply Hel; auto|congruence]).
  - rewrite HP in f. inversion f; subst. by constructor.
  - rewrite HP in s. exact s.
Qed.

Lemma drop_ok c p e :
  cache_ok c -> (p, e) ∈ c_order c -> cache_ok (set_cache (base.delete (e_key e) (c_entries c)) (without p (c_order c)) c).
Proof.
  intros Hok Hp. pose proof (without_perm c p e Hok Hp) as HP.
  assert (Hel : forall x, x ∈ c_order c <-> x = (p, e) \/ x ∈ without p (c_order c)) by (intros x; rewrite <- elem_of_cons; by apply elem_of_Permutation_proper).
  destruct Hok as [a b en f s]. split; cbn.
  - rewrite HP in a. by inversion a.
  - rewrite HP in b. by inversion b.
  - rewrite HP in b. cbn in b. apply NoDup_cons in b as [b _]. intros key q. rewrite lookup_delete_Some, en. split.
    + intros (Hne & x & [Hx|Hx]%Hel & Hkx); [simplify_eq|eauto].
    + intros (x & Hx & Hkx). split; [|exists x; split; [apply Hel; auto|done]].
      intros E. apply b. apply list_elem_of_fmap. exists (q, x). cbn. split; [congruence|done].
  - rewrite HP in f. by inversion f.
  - rewrite HP in s. cbn in s. lia.
Qed.

Lemma Get_refines key now c :
  cache_ok c -> (Get key now c).1 = (lru_get key now (contents c)).1 /\
    contents (Get key now c).2 = (lru_get key now (contents c)).2 /\ cache_ok (Get key now c).2 /\
    c_size (Get key now c).2 = c_size c /\ c_ttl (Get key now c).2 = c_ttl c.
Proof.
  intros Hok. unfold Get, lru_get. rewrite contents_find by done.
  destruct (c_entries c !! key) as [p|] eqn:E; [|done]. apply (co_entries c Hok) in E as (e & He & <-).
  rewrite (element_found c p e Hok He). destruct (now <? e_expires e); cbn [negb fst snd].
  - split; [done|]. split; [|split; [by eapply front_ok|done]]. unfold contents. cbn.
    f_equal. by apply contents_without.
  - split; [done|]. split; [|split; [by apply drop_ok|done]]. by apply contents_without.
Qed.

Definition resize (n : nat) (c : Cache V) : Cache V := mkCache n (c_ttl c) (c_entries c) (c_order c) (c_fresh c).

Lemma resize_ok n c : cache_ok c -> (length (c_order c) <= n)%nat -> cache_ok (resize n c).
Proof. intros [a b en f s] Hn. by split. Qed.

(** An entry with a new key in front. *)
Definition pushed (key : string) (e : entry) (c : Cache V) : Cache V :=
  mkCache (c_size c) (c_ttl c) (<[key := c_fresh c]> (c_entries c)) ((c_fresh c, e) :: c_order c) (S (c_fresh c)).

Lemma pushed_ok key e c :
  cache_ok c -> c_entries c !! key = None -> e_key e = key -> cache_ok (resize (S (c_size c)) (pushed key e c)).
Proof.
  intros Hok Hnew Hk. pose proof Hok as [a b en f s].
  assert (Hfresh : c_fresh c ∉ map fst (c_order c)).
  { intros ([q x] & E & Hx)%list_elem_of_fmap. cbn in E. subst q. rewrite Forall_forall in f. specialize (f _ Hx). cbn in f. lia. }
  assert (Hkey : key ∉ map (fun x => e_key x.2) (c_order c)).
  { intros ([q x] & E & Hx)%list_elem_of_fmap. cbn in E. assert (c_entries c !! key = Some q) by (apply en; eauto). congruence. }
  split; cbn; [by constructor|constructor; [by rewrite Hk|done]| | |lia].
  - intros k q. rewrite lookup_insert_Some, en. split.
    + intros [[<- <-]|(Hne & x & Hx & Hkx)]; [exists e; split; [by left|done]|exists x; split; [by right|done]].
    + intros (x & [Hx|Hx]%elem_of_cons & Hkx); [simplify_eq; by left|right]. split; [|eauto].
      intros ->. apply Hkey, list_elem_of_fmap. by exists (q, x).
  - constructor; [cbn; lia|]. eapply Forall_impl; [exact f|]. intros x Hx. cbn in *. lia.
Qed.

(** At most one entry is evicted, the last. *)
Lemma evict_one c :
  cache_ok (resize (S (c_size c)) c) -> (0 < length (c_order c))%nat ->
  contents (evict (length (c_order c)) c) = take (c_size c) (contents c) /\ cache_ok (evict (length (c_order c)) c) /\
  c_size (evict (length (c_order c)) c) = c_size c /\ c_ttl (evict (length (c_order c)) c) = c_ttl c.
Proof.
  intros Hok Hlen. pose proof (co_size _ Hok) as Hs. cbn in Hs.
  destruct (length (c_order c)) as [|fuel] eqn:El; [lia|]. cbn [evict]. rewrite El.
  destruct (Nat.ltb_spec (c_size c) (S fuel)) as [Hlt|Hge].
  - assert (Ef : fuel = c_size c) by lia.
    destruct (last_snoc_cases (c_order c)) as [E|(l & [p e] & E)]; [by rewrite E in El|].
    assert (Hp : (p, e) ∈ c_order c) by (rewrite E; apply elem_of_app; right; by left).
    pose proof (drop_ok _ p e Hok Hp) as Hd. pose proof (without_perm _ p e Hok Hp) as HP. cbn [resize c_order] in HP.
    rewrite E, last_snoc. rewrite <- E. set (c1 := set_cache _ _ c).
    assert (Hl1 : length (without p (c_order c)) = c_size c) by (apply Permutation_length in HP; cbn in HP; lia).
    assert (Hend : forall n, evict n c1 = c1).
    { intros [|n]; [done|]. cbn [evict]. rewrite (proj2 (Nat.ltb_ge _ _)); [done|]. unfold c1. cbn. lia. }
    rewrite Hend. split; [|split; [|done]].
    + unfold contents, c1. cbn. pose proof (co_addresses _ Hok) as Hn. cbn in Hn.
      assert (Hw : without p (c_order c) = l).
      { unfold without. rewrite E, filter_app, filter_cons_False by (cbn; tauto). cbn.
        rewrite app_nil_r. rewrite E, map_app in Hn. cbn in Hn. apply NoDup_app in Hn as (_ & Hd' & _).
        clear -Hd'. induction l as [|x l IH]; [done|]. rewrite filter_cons_True.
        - f_equal. apply IH. intros y Hy. apply Hd'. by right.
        - intros Ex. apply (Hd' p); [rewrite <- Ex|]; by left. }
      rewrite Hw, E, map_app in *. rewrite <- Hl1, <- (length_map snd l) at 1. by rewrite take_app_length.
    + destruct Hd as [a b en f s]. split; [done..|]. cbn. by rewrite Hl1.
  - split; [|split; [|done]].
    + unfold contents. rewrite take_ge; [done|]. rewrite length_map. lia.
    + destruct Hok as [a b en f s]. split; [done..|]. lia.
Qed.

Lemma Put_refines key value now c :
  cache_ok c ->
  contents (Put key value now c) = lru_put (c_size c) (c_ttl c) key value now (contents c) /\ cache_ok (Put key value now c) /\
  c_size (Put key value now c) = c_size c /\ c_ttl (Put key value now c) = c_ttl c.
Proof.
  intros Hok. unfold Put, lru_put. destruct (c_entries c !! key) as [p|] eqn:E.
  - apply (co_entries c Hok) in E as (e & He & <-). pose proof (without_perm c p e Hok He) as HP. split; [|split; [by eapply front_ok|done]].
    unfold contents at 1. cbn. rewrite (contents_without c p e Hok He), take_ge; [done|].
    rewrite <- (contents_without c p e Hok He). cbn. rewrite length_map.
    apply Permutation_length in HP. cbn in HP. pose proof (co_size c Hok). lia.
  - set (e := mkEntry key value (now + c_ttl c)). change (mkCache _ _ _ _ _) with (pushed key e c).
    assert (Hrm : rm key (contents c) = contents c).
    { unfold rm. pose proof (contents_find c key Hok) as Hf. rewrite E in Hf.
      induction (contents c) as [|x l IH]; [done|]. cbn in Hf. destruct (String.eqb_spec (e_key x) key); [done|].
      rewrite filter_cons_True by done. by rewrite IH. }
    rewrite Hrm. destruct (evict_one (pushed key e c)) as (H1 & H2 & H3 & H4); [exact (pushed_ok key e c Hok E eq_refl)|cbn; lia|].
    split; [exact H1|done].
Qed.

Lemma step_refines o c :
  cache_ok c -> (cache_step o c).1 = (lru_step (c_size c) (c_ttl c) o (contents c)).1 /\
    contents (cache_step o c).2 = (lru_step (c_size c) (c_ttl c) o (contents c)).2 /\ cache_ok (cache_step o c).2 /\
    c_size (cache_step o c).2 = c_size c /\ c_ttl (cache_step o c).2 = c_ttl c.
Proof.
  intros Hok. destruct o as [k now|k v now]; cbn [cache_step lru_step fst snd]; [by apply Get_refines|].
  destruct (Put_refines k v now c Hok) as (H1 & H2 & H3 & H4). done.
Qed.

Lemma answers_refine ops c :
  cache_ok c -> (answers cache_step ops c).1 = (answers (lru_step (c_size c) (c_ttl c)) ops (contents c)).1 /\
    contents (answers cache_step ops c).2 = (answers (lru_step (c_size c) (c_ttl c)) ops (contents c)).2 /\
    cache_ok (answers cache_step ops c).2 /\ c_size (answers cache_step ops c).2 = c_size c.
Proof.
  induction ops as [|o ops IH] in c |- *; intros Hok; [done|]. cbn [answers].
  destruct (step_refines o c Hok) as (H1 & H2 & H3 & H4 & H5).
  destruct (cache_step o c) as [r c1]. destruct (lru_step _ _ o _) as [r' l1]. cbn [fst snd] in *. subst.
  destruct (IH c1 H3) as (K1 & K2 & K3 & K4). rewrite H4, H5 in *.
  destruct (answers cache_step ops c1) as [rs c2]. destruct (answers _ ops (contents c1)) as [rs' l2]. cbn [fst snd] in *.
  split; [congruence|]. split; [done|]. split; [done|]. congruence.
Qed.

Lemma NewCache_ok size ttl : cache_ok (@NewCache V size ttl).
Proof. split; cbn; try constructor; [|intros (? & H & _); by apply elem_of_nil in H|lia]. by rewrite lookup_empty. Qed.

(** C37: The search cache, a map into a list it reorders, is a list of at most
    [size] entries with the most recently used first: whatever is stored and
    looked up, it answers what that list answers, an entry is served until
    its lifetime is over, and what is evicted is the entry used least
    recently. *)
Theorem Cache_refines_lru size ttl ops :
  let '(rs, c) := answers cache_step ops (NewCache size ttl) in
  let '(rs', l) := answers (lru_step size ttl) ops [] in
  rs = rs' /\ contents c = l /\ Len c = Z.of_nat (length l) /\ Len c <= Z.of_nat size.
Proof.
  destruct (answers_refine ops (NewCache size ttl) (NewCache_ok size ttl)) as (H1 & H2 & H3 & H4).
  change (contents (NewCache size ttl)) with (@nil entry) in *. cbn [NewCache c_size c_ttl] in *.
  destruct (answers cache_step ops _) as [rs c]. destruct (answers _ ops []) as [rs' l]. cbn [fst snd] in *.
  split; [done|]. split; [done|]. unfold Len. rewrite <- H2. unfold contents. rewrite length_map. split; [done|].
  pose proof (co_size c H3). lia.
Qed.
End lru.

Section claims.
Context (backends : list Backend) (E : SearchEnv) (day_of month_of : Z -> string).
Context (parse_float : string -> option Float64.float64) (parse_time : string -> option Z).
Context (NormalizeURL Clean : string -> string) (searxng_url : string).
Abbreviation chain := (chain backends E day_of month_of parse_float parse_time NormalizeURL).
Abbreviation searchWeb := (searchWeb backends E day_of month_of parse_float parse_time NormalizeURL Clean searxng_url).
Abbreviation searchSource := (searchSource E day_of month_of parse_float parse_time Clean).
Abbreviation Search := (Search backends E day_of month_of parse_float parse_time NormalizeURL Clean searxng_url).

(** ** Triples of effects *)

Definition triple {A} (P : SearchWorld -> Prop) (m : Eff A) (Q : A -> SearchWorld -> Prop) : Prop :=
  forall w, P w -> Q (m w).1 (m w).2.

Lemma eff_ret {A} (P : SearchWorld -> Prop) (a : A) (Q : A -> SearchWorld -> Prop) :
  (forall w, P w -> Q a w) -> triple P (mret a) Q.
Proof. intros H w Hw. by apply H. Qed.

Lemma eff_bind {A B} P (m : Eff A) (f : A -> Eff B) R Q :
  triple P m R -> (forall a, triple (R a) (f a) Q) -> triple P (m ≫= f) Q.
Proof.
  intros Hm Hf w Hw. specialize (Hm w Hw). unfold mbind, Eff_bind. destruct (m w) as [a w']. by apply Hf.
Qed.

Lemma triple_pre {A} (P P' : SearchWorld -> Prop) (m : Eff A) Q : (forall w, P' w -> P w) -> triple P m Q -> triple P' m Q.
Proof. intros H Hm w Hw. by apply Hm, H. Qed.

Lemma triple_post {A} P (m : Eff A) (Q Q' : A -> SearchWorld -> Prop) :
  (forall a w, Q a w -> Q' a w) -> triple P m Q -> triple P m Q'.
Proof. intros H Hm w Hw. by apply H, Hm. Qed.

Lemma triple_pure {A} P (phi : Prop) (m : Eff A) Q : (phi -> triple P m Q) -> triple (fun w => P w /\ phi) m Q.
Proof. intros H w [Hw Hphi]. by apply H. Qed.

(** ** Quotas *)

(** The counters, the requests: all that the invariant is about. *)
Definition seen (w : SearchWorld) : gmap string SearchUsage * list (string * Query) := (w_usage w, w_asked w).

Definition quiet {A} (m : Eff A) : Prop := forall w, seen (m w).2 = seen w.

Lemma quiet_triple {A} (P : gmap string SearchUsage * list (string * Query) -> Prop) (m : Eff A) :
  quiet m -> triple (fun w => P (seen w)) m (fun _ w => P (seen w)).
Proof. intros Hq w Hw. by rewrite Hq. Qed.

Lemma quietly_bind_all {A B} (m : Eff A) (f : A -> Eff B) : quiet m -> (forall a, quiet (f a)) -> quiet (m ≫= f).
Proof. intros Hm Hf w. unfold mbind, Eff_bind. specialize (Hm w). destruct (m w) as [a w']. by rewrite Hf. Qed.

Lemma quietly_ret_all {A} (a : A) : quiet (mret a). Proof. done. Qed.
Lemma quietly_ask_all {A} (f : nat -> A) : quiet (ask f). Proof. done. Qed.
Lemma quiet_now : quiet (now E). Proof. done. Qed.
Lemma quiet_cache_get k : quiet (cache_get E k).
Proof. apply quietly_bind_all; [apply quiet_now|]. intros t w. unfold act. by destruct (Get k t (w_cache w)). Qed.
Lemma quiet_cache_put k v : quiet (cache_put E k v).
Proof. by apply quietly_bind_all; [apply quiet_now|]. Qed.
Lemma quiet_options : quiet (options backends E).
Proof. apply quietly_bind_all; [apply quietly_ask_all|]. by intros [o|err]. Qed.
Lemma quiet_key b : quiet (key E b).
Proof. unfold key. destruct (String.eqb _ _); [done|]. apply quietly_bind_all; [apply quietly_ask_all|]. by intros [k|err]. Qed.
Lemma quiet_pace b : quiet (pace E b).
Proof.
  apply quietly_bind_all; [apply quietly_ask_all|]. intros [err|]; [done|]. apply quietly_bind_all; [apply quiet_now|]. intros t.
  apply quietly_bind_all; [done|]. intros due. apply quietly_bind_all; [by destruct (0 <? due - t)|].
  intros [err|]; [done|]. by apply quietly_bind_all; [apply quiet_now|].
Qed.
Lemma quiet_pooled b k : quiet (pooled E b k).
Proof. unfold pooled. destruct (0 <? b_Pool b); [apply quiet_cache_get|done]. Qed.

(** A quota that is not zero is not exceeded, or has room left. *)
Definition within (limit : Limit) (u : SearchUsage) : Prop :=
  (0 < l_Day limit -> su_DayUsed u <= l_Day limit) /\ (0 < l_Month limit -> su_MonthUsed u <= l_Month limit).
Definition room (limit : Limit) (u : SearchUsage) : Prop :=
  (0 < l_Day limit -> su_DayUsed u < l_Day limit) /\ (0 < l_Month limit -> su_MonthUsed u < l_Month limit).

Context (limits : gmap string Limit).

(** A request to a registered service, with its key when it needs one. *)
Definition keyed (r : string * Query) : Prop :=
  exists b, backend_named r.1 backends = Some b /\ (b_KeyRequired b = true -> q_Key r.2 <> EmptyString).

Definition quotas (s : gmap string SearchUsage * list (string * Query)) : Prop :=
  map_Forall (fun bucket u => within (limit_of bucket limits) u) s.1 /\ Forall keyed s.2.
Definition spare (bucket : string) (s : gmap string SearchUsage * list (string * Query)) : Prop :=
  quotas s /\ forall u, s.1 !! bucket = Some u -> room (limit_of bucket limits) u.
Abbreviation holds P := (fun w => P (seen w)).

Lemma entry_within bucket limit t usage :
  (forall u, usage !! bucket = Some u -> within limit u) -> within limit (tracker_entry day_of month_of bucket t usage).
Proof.
  unfold tracker_entry. destruct (usage !! bucket) as [u|]; cbn [default]; intros H.
  - specialize (H u eq_refl). unfold within in *. by repeat case_match; cbn in *; split; intros; try lia; apply H.
  - unfold within. cbn. rewrite String.eqb_refl. cbn. rewrite String.eqb_refl. cbn. lia.
Qed.

Lemma entry_room bucket limit t usage :
  (forall u, usage !! bucket = Some u -> room limit u) -> room limit (tracker_entry day_of month_of bucket t usage).
Proof.
  unfold tracker_entry. destruct (usage !! bucket) as [u|]; cbn [default]; intros H.
  - specialize (H u eq_refl). unfold room in *. by repeat case_match; cbn in *; split; intros; try lia; apply H.
  - unfold room. cbn. rewrite String.eqb_refl. cbn. rewrite String.eqb_refl. cbn. lia.
Qed.

Lemma quotas_insert bucket u usage asked :
  quotas (usage, asked) -> within (limit_of bucket limits) u -> quotas (<[bucket := u]> usage, asked).
Proof. intros [H1 H2] Hu. split; [|exact H2]. by apply map_Forall_insert_2. Qed.

Lemma triple_blocked bucket :
  triple (holds quotas) (blocked E day_of month_of bucket (limit_of bucket limits))
    (fun r w => quotas (seen w) /\ (r = EmptyString -> spare bucket (seen w))).
Proof.
  intros w Hw. set (u := tracker_entry day_of month_of bucket (se_now E (w_tick w)) (w_usage w)).
  change (seen (blocked E day_of month_of bucket (limit_of bucket limits) w).2) with (<[bucket := u]> (w_usage w), w_asked w).
  assert (Hu : within (limit_of bucket limits) u) by (apply entry_within; intros u' E'; by apply (proj1 Hw bucket u')).
  assert (Hq : quotas (<[bucket := u]> (w_usage w), w_asked w)) by by apply quotas_insert.
  split; [exact Hq|]. intros Hr. split; [exact Hq|]. cbn [fst]. intros u' Hu'.
  rewrite lookup_insert_eq in Hu'. injection Hu' as <-.
  unfold blocked, mbind, Eff_bind, now, ask, act, Blocked, TrackerUsage in Hr. cbn [fst w_usage w_tick] in Hr. fold u in Hr.
  destruct (after (su_CooldownUntil u) (se_now E (w_tick w))); [discriminate Hr|].
  destruct ((0 <? l_Day (limit_of bucket limits)) && (l_Day (limit_of bucket limits) <=? su_DayUsed u)) eqn:E1; [discriminate Hr|].
  destruct ((0 <? l_Month (limit_of bucket limits)) && (l_Month (limit_of bucket limits) <=? su_MonthUsed u)) eqn:E2; [discriminate Hr|].
  unfold room. lia.
Qed.

Lemma triple_record_use bucket :
  triple (holds (spare bucket)) (record_use E day_of month_of bucket) (fun _ w => quotas (seen w)).
Proof.
  intros w [Hq Hr]. unfold seen in *. cbn in *. unfold tracker_update. apply quotas_insert; [exact Hq|].
  pose proof (entry_room bucket _ (se_now E (w_tick w)) (w_usage w) Hr) as H. unfold within, room in *. cbn. lia.
Qed.

Lemma triple_record_failure bucket err :
  triple (holds quotas) (record_failure E day_of month_of parse_float parse_time bucket err) (fun _ w => quotas (seen w)).
Proof.
  intros w Hq. unfold seen in *. cbn in *. unfold tracker_update. apply quotas_insert; [exact Hq|].
  exact (entry_within bucket (limit_of bucket limits) (se_now E (w_tick w)) (w_usage w) (fun u Hu => proj1 Hq bucket u Hu)).
Qed.

Lemma triple_search name q P :
  keyed (name, q) -> (P = quotas \/ exists bucket, P = spare bucket) ->
  triple (holds P) (search_backend E name q) (fun _ => holds P).
Proof.
  intros Hk HP w Hw. unfold seen in *. cbn. assert (Hadd : forall u l, quotas (u, l) -> quotas (u, l ++ [(name, q)])).
  { intros u l [H1 H2]. split; [exact H1|]. cbn. apply Forall_app. by split; [|constructor]. }
  destruct HP as [->|[bucket ->]]; [by apply Hadd|]. destruct Hw as [H1 H2]. split; [by apply Hadd|exact H2].
Qed.

Lemma named_name name b : backend_named name backends = Some b -> b_Name b = name.
Proof. intros H. apply find_some in H as [_ H]. by apply String.eqb_eq. Qed.

(** What an effect does that asks nobody. *)
Ltac quietly H := eapply eff_bind; [eapply quiet_triple; apply H|].

Lemma chain_quotas query order d : triple (holds quotas) (chain query limits order d) (fun _ w => quotas (seen w)).
Proof.
  induction order as [|name order IH] in d |- *; [by apply eff_ret|]. cbn [SearchEngine.chain].
  destruct (backend_named name backends) as [b|] eqn:Eb; [|apply IH]. destruct (b_Web b); cbn [negb]; [|apply IH].
  quietly quiet_key. intros [key|err]; [|by apply eff_ret].
  destruct (b_KeyRequired b && String.eqb key EmptyString) eqn:Ek; [apply IH|].
  eapply eff_bind; [apply triple_blocked|]. intros why.
  destruct (String.eqb_spec why EmptyString) as [->|]; cbn [negb]; [|eapply triple_pre; [|apply IH]; intros w Hw; cbv beta; exact (proj1 Hw)].
  apply triple_pre with (P := holds (spare (b_Bucket b))); [intros w [_ H]; by apply H|].
  eapply eff_bind; [apply (triple_search _ _ (spare (b_Bucket b)))|]; [| |].
  - exists b. rewrite (named_name name b Eb). split; [exact Eb|]. intros Hr E0. cbn in E0. by rewrite Hr, E0 in Ek.
  - right. by eexists.
  - intros [results|err].
    + eapply eff_bind; [apply triple_record_use|]. intros []. destruct (Dedupe _ _); [apply IH|by apply eff_ret].
    + quietly @quietly_ask_all. intros [e|]; [by apply eff_ret; intros w Hw; apply Hw|].
      eapply eff_bind; [eapply triple_pre; [|apply triple_record_failure]; intros w Hw; apply Hw|]. intros []. apply IH.
Qed.

Lemma searchWeb_quotas query count order d :
  triple (holds quotas) (searchWeb query count order limits d) (fun _ w => quotas (seen w)).
Proof.
  unfold SearchEngine.searchWeb. destruct order as [|n order]; [by apply eff_ret|].
  quietly quiet_cache_get. intros [h|]; [by apply eff_ret|].
  eapply eff_bind; [apply chain_quotas|]. intros [[[|r found] d']|err]; [by apply eff_ret| |by apply eff_ret].
  quietly quiet_cache_put. intros []. by apply eff_ret.
Qed.

(** The bucket of a source, when it has one, has room. *)
Definition spare_of (b : Backend) : gmap string SearchUsage * list (string * Query) -> Prop :=
  if String.eqb (b_Bucket b) EmptyString then quotas else spare (b_Bucket b).

Lemma spare_of_quotas b s : spare_of b s -> quotas s.
Proof. unfold spare_of. destruct (String.eqb _ _); [done|by intros [? _]]. Qed.

Lemma ask_source_quotas b query key count d :
  keyed (b_Name b, mkQuery query (if 0 <? b_Pool b then b_Pool b else count) key) ->
  triple (holds (spare_of b)) (ask_source E day_of month_of parse_float parse_time Clean b query key count d) (fun _ w => quotas (seen w)).
Proof.
  intros Hk. unfold ask_source. eapply eff_bind.
  { apply triple_search with (P := spare_of b); [exact Hk|]. unfold spare_of. destruct (String.eqb _ _); eauto. }
  intros [results|err].
  - eapply eff_bind with (R := fun _ => holds quotas).
    { unfold spare_of. destruct (String.eqb _ _); [by apply eff_ret|apply triple_record_use]. }
    intros []. eapply eff_bind with (R := fun _ => holds quotas); [|by intros _; apply eff_ret].
    destruct (0 <? b_Pool b); [apply quiet_triple, quiet_cache_put|by apply eff_ret].
  - eapply triple_pre; [intros w; apply spare_of_quotas|]. quietly @quietly_ask_all. intros [e|]; [by apply eff_ret|].
    eapply eff_bind with (R := fun _ => holds quotas); [|by intros _; apply eff_ret].
    destruct err as [status msg h|text]; [|by apply eff_ret].
    destruct (negb _ && _); [apply triple_record_failure|by apply eff_ret].
Qed.

Lemma searchSource_quotas b query count d :
  backend_named (b_Name b) backends = Some b ->
  triple (holds quotas) (searchSource b query count limits d) (fun _ w => quotas (seen w)).
Proof.
  intros Hb. unfold SearchEngine.searchSource. quietly quiet_key. intros [key|err]; [|by apply eff_ret].
  destruct (b_KeyRequired b && String.eqb key EmptyString) eqn:Ek; [by apply eff_ret|].
  assert (Hk : forall n, keyed (b_Name b, mkQuery query n key)).
  { intros n. exists b. split; [exact Hb|]. intros Hr E0. cbn in E0. by rewrite Hr, E0 in Ek. }
  eapply eff_bind with (R := fun r w => quotas (seen w) /\ (r = EmptyString -> spare_of b (seen w))).
  { unfold spare_of. destruct (String.eqb (b_Bucket b) EmptyString); [by apply eff_ret; auto|apply triple_blocked]. }
  intros why. destruct (String.eqb_spec why EmptyString) as [->|]; cbn [negb]; [|by apply eff_ret; intros w Hw; apply Hw].
  apply triple_pre with (P := holds (spare_of b)); [intros w [_ H]; by apply H|].
  assert (Hdone : forall o : Outcome + GoError, triple (holds (spare_of b)) (mret o) (fun _ w => quotas (seen w))).
  { intros o. apply eff_ret. intros w. apply spare_of_quotas. }
  quietly quiet_pooled. intros [h|]; [apply Hdone|]. destruct (0 <? b_Interval b); [|by apply ask_source_quotas].
  quietly quiet_pace. intros [err|]; [apply Hdone|]. eapply eff_bind; [apply quiet_triple|].
  - apply quietly_bind_all; [apply quiet_cache_get|]. intros c. apply quietly_ret_all.
  - intros [h|]; [apply Hdone|by apply ask_source_quotas].
Qed.

Context (Hlimits : forall t o, se_options E t = inl o -> o_Limits o ∪ DefaultLimits backends = limits).

Lemma triple_options :
  triple (holds quotas) (options backends E) (fun r w => quotas (seen w) /\ match r with inl (_, l) => l = limits | inr _ => True end).
Proof using Hlimits.
  intros w Hw. rewrite (quiet_options w). split; [exact Hw|]. unfold options, mbind, Eff_bind, ask.
  destruct (se_options E (w_tick w)) as [o|err] eqn:Eo; [|done]. cbn. by eapply Hlimits.
Qed.

Lemma Search_quotas req : triple (holds quotas) (Search req) (fun _ w => quotas (seen w)).
Proof using Hlimits.
  unfold SearchEngine.Search. quietly quiet_now. intros started. cbv zeta.
  set (source := if String.eqb (trim_space (sr_Source req)) EmptyString then SourceWeb else _). clearbody source.
  destruct (String.eqb (trim_space (sr_Query req)) EmptyString); [by apply eff_ret|].
  destruct (MaxQueryRunes <? _)%nat; [by apply eff_ret|].
  assert (Hrun : forall b d query count, match b with Some b => backend_named (b_Name b) backends = Some b | None => True end ->
    triple (holds quotas)
      (o ← options backends E; match o with
       | inr err => mret (inr err)
       | inl (order, limits) =>
           r ← match b with None => searchWeb query count order limits d | Some b => searchSource b query count limits d end;
           match r with
           | inr err => mret (inr err)
           | inl out => t ← now E; mret (inl (mkOutcome (oc_Text out) (oc_IsError out) (with_ms (Z.quot (t - started) 1000000) (oc_Details out))))
           end
       end) (fun _ w => quotas (seen w))).
  { intros b d query count Hb. eapply eff_bind; [apply triple_options|].
    intros [[order l]|err]; [|by apply eff_ret; intros w [H _]].
    apply triple_pure. intros ->.
    eapply eff_bind; [destruct b; [by apply searchSource_quotas|by apply searchWeb_quotas]|].
    intros [out|err]; [|by apply eff_ret]. quietly quiet_now. intros t. by apply eff_ret. }
  destruct (String.eqb source SourceWeb); [by apply (Hrun None)|].
  destruct (backend_named source backends) as [b|] eqn:Eb; [|by apply eff_ret].
  destruct (b_Web b); [by apply eff_ret|]. apply (Hrun (Some b)). by rewrite (named_name _ _ Eb).
Qed.

(** Searches one after the other. *)
Fixpoint searches (reqs : list SearchRequest) (w : SearchWorld) : SearchWorld :=
  match reqs with [] => w | req :: reqs' => searches reqs' (Search req w).2 end.

Lemma searches_quotas reqs w : quotas (seen w) -> quotas (seen (searches reqs w)).
Proof using Hlimits. revert w. induction reqs as [|req reqs IH]; intros w Hw; [exact Hw|]. cbn. by apply IH, Search_quotas. Qed.

(** ** The chain *)

(** What a chain ended with, when it was not cut short: it went through the
    whole order without results, or the first provider that had any ended
    it. [asked] are the requests since [before]. *)
Definition chain_end (query : string) (order : list string) (d : Details) (before asked : list (string * Query))
    (found : list SearchResult) (d' : Details) : Prop :=
  match found with
  | [] => map at_Provider (d_Attempts d') = map at_Provider (d_Attempts d) ++ order /\
          exists new, asked = before ++ new /\ sublist (map fst new) order
  | _ => exists pre p post new t key results,
      order = pre ++ p :: post /\ map at_Provider (d_Attempts d') = map at_Provider (d_Attempts d) ++ pre /\
      d_Providers d' = [p] /\ d_Cached d' = d_Cached d /\
      asked = before ++ new ++ [(p, mkQuery query poolSize key)] /\ sublist (map fst new) pre /\
      se_search E t p (mkQuery query poolSize key) = inl results /\ found = Dedupe NormalizeURL results
  end.

(** A provider that is passed over, asked or not. *)
Lemma chain_end_skip query name order d why before new asked found d' :
  chain_end query order (with_attempt (mkAttempt name why) d) (before ++ new) asked found d' ->
  map fst new = [] \/ map fst new = [name] -> chain_end query (name :: order) d before asked found d'.
Proof.
  intros H Hnew. assert (Hsub : forall l l' : list string, sublist l l' -> sublist (map fst new ++ l) (name :: l')).
  { intros l l' Hl. destruct Hnew as [->| ->]; cbn; [by apply sublist_cons|by apply sublist_skip]. }
  unfold chain_end in *. destruct found as [|r found].
  - destruct H as (H1 & new' & -> & H2). cbn in H1. rewrite map_app, <- app_assoc in H1. split; [exact H1|].
    exists (new ++ new'). rewrite map_app. split; [by rewrite app_assoc|by apply Hsub].
  - destruct H as (pre & p & post & new' & t & key & results & -> & H1 & H2 & H3 & -> & H4 & H5).
    exists (name :: pre), p, post, (new ++ new'), t, key, results. cbn in H1. rewrite map_app, <- app_assoc in H1.
    split; [done|]. split; [exact H1|]. split; [exact H2|]. split; [exact H3|].
    split; [by rewrite <- !app_assoc|]. split; [rewrite map_app; by apply Hsub|exact H5].
Qed.

Lemma quiet_asked {A} (m : Eff A) l : quiet m -> triple (fun w => w_asked w = l) m (fun _ w => w_asked w = l).
Proof. intros Hq. exact (quiet_triple (fun s => s.2 = l) m Hq). Qed.

Lemma chain_ends query limits' order d before :
  triple (fun w => w_asked w = before) (chain query limits' order d)
    (fun r w => match r with inl (found, d') => chain_end query order d before (w_asked w) found d' | inr _ => True end).
Proof.
  induction order as [|name order IH] in d, before |- *.
  { apply eff_ret. intros w ->. split; [by rewrite app_nil_r|]. exists []. by rewrite app_nil_r. }
  assert (Hskip : forall why, triple (fun w => w_asked w = before) (chain query limits' order (with_attempt (mkAttempt name why) d))
    (fun r w => match r with inl (found, d') => chain_end query (name :: order) d before (w_asked w) found d' | inr _ => True end)).
  { intros why. eapply triple_post; [|apply IH]. intros [[found d']|err] w H; [|done].
    apply (chain_end_skip query name order d why before []); [by rewrite app_nil_r|by left]. }
  cbn [SearchEngine.chain]. destruct (backend_named name backends) as [b|] eqn:Eb; [|apply Hskip].
  destruct (b_Web b); cbn [negb]; [|apply Hskip].
  eapply eff_bind; [apply quiet_asked, quiet_key|]. intros [key|err]; [|by apply eff_ret].
  destruct (b_KeyRequired b && String.eqb key EmptyString); [apply Hskip|].
  eapply eff_bind with (R := fun _ w => w_asked w = before); [by intros w Hw|]. intros why.
  destruct (negb (String.eqb why EmptyString)); [apply Hskip|].
  rewrite (named_name name b Eb). set (q := mkQuery query poolSize key).
  assert (Hskip' : forall why, triple (fun w => w_asked w = before ++ [(name, q)]) (chain query limits' order (with_attempt (mkAttempt name why) d))
    (fun r w => match r with inl (found, d') => chain_end query (name :: order) d before (w_asked w) found d' | inr _ => True end)).
  { intros why'. eapply triple_post; [|apply IH]. intros [[found d']|err] w H; [|done].
    apply (chain_end_skip query name order d why' before [(name, q)]); [exact H|by right]. }
  eapply eff_bind with (R := fun r w => w_asked w = before ++ [(name, q)] /\ exists t, se_search E t name q = r).
  { intros w <-. cbn. eauto. }
  intros [results|err]; apply triple_pure; intros [t Ht].
  - eapply eff_bind with (R := fun _ w => w_asked w = before ++ [(name, q)]); [by intros w Hw|]. intros [].
    destruct (Dedupe NormalizeURL results) as [|r found] eqn:Ed; [apply Hskip'|]. apply eff_ret. intros w Hw.
    exists [], name, order, [], t, key, results. rewrite app_nil_r. by rewrite Ed.
  - eapply eff_bind; [apply quiet_asked, quietly_ask_all|]. intros [e|]; [by apply eff_ret|].
    eapply eff_bind with (R := fun _ w => w_asked w = before ++ [(name, q)]); [by intros w Hw|]. intros []. apply Hskip'.
Qed.

(** While the settings stay the same, searches one after the other never
    make a bucket's counter of answered requests, of the day or of the month,
    larger than its quota, whatever the clock, the services, the cache and
    the cancellations do; and no service that needs a key, or that is not
    registered, is ever asked without it. *)
Theorem searches_within_quota reqs tick cache next :
  let w := searches reqs (mkSearchWorld tick cache ∅ next []) in
  (forall bucket u, w_usage w !! bucket = Some u ->
     let l := limit_of bucket limits in
     (0 < l_Day l -> su_DayUsed u <= l_Day l) /\ (0 < l_Month l -> su_MonthUsed u <= l_Month l)) /\
  (forall name q, (name, q) ∈ w_asked w ->
     exists b, backend_named name backends = Some b /\ (b_KeyRequired b = true -> q_Key q <> EmptyString)).
Proof using Hlimits.
  intros w. assert (Hq : quotas (seen w)) by (apply searches_quotas; split; [apply map_Forall_empty|constructor]).
  destruct Hq as [H1 H2]. split; [intros bucket u Hu; exact (H1 bucket u Hu)|].
  intros name q Hin. rewrite Forall_forall in H2. exact (H2 _ Hin).
Qed.

(** What a web search that is not cut short comes to, from the requests
    before it and after it. *)
Definition fails_over (query : string) (count : Z) (order : list string) (before : list (string * Query))
    (r : Outcome + GoError) (asked : list (string * Query)) : Prop :=
  match r with
  | inl (mkOutcome text true d) =>
      map at_Provider (d_Attempts d) = order /\ exists new, asked = before ++ new /\ sublist (map fst new) order
  | inl (mkOutcome text false d) =>
      (d_Cached d = true /\ asked = before) \/
      exists p post new t key results,
        order = map at_Provider (d_Attempts d) ++ p :: post /\ d_Providers d = [p] /\
        asked = before ++ new ++ [(p, mkQuery query poolSize key)] /\ sublist (map fst new) (map at_Provider (d_Attempts d)) /\
        se_search E t p (mkQuery query poolSize key) = inl results /\
        d_Results d = take (Z.to_nat count) (Dedupe NormalizeURL results)
  | inr _ => True
  end.

(** A web search that is answered names the provider that answered, and
    the attempts are the providers before it in the order, passed over or
    asked in that order, each at most once; what is shown are the first of
    its results, without duplicates. One that is not cut short and fails has
    an attempt for every provider. A cached answer asks nobody. *)
Theorem searchWeb_fails_over query count order limits' d w :
  d_Attempts d = [] -> d_Cached d = false ->
  let '(r, w') := searchWeb query count order limits' d w in fails_over query count order (w_asked w) r (w_asked w').
Proof.
  intros Ha Hc. set (before := w_asked w).
  enough (H : triple (fun w => w_asked w = before) (searchWeb query count order limits' d)
    (fun r w => fails_over query count order before r (w_asked w))) by (specialize (H w eq_refl); by destruct (searchWeb _ _ _ _ _ w)).
  assert (Hnone : exists new : list (string * Query), before = before ++ new /\ sublist (map fst new) order).
  { exists []. rewrite app_nil_r. split; [done|apply sublist_nil_l]. }
  unfold SearchEngine.searchWeb. destruct order as [|n order]; [by apply eff_ret; intros w' ->; cbn; rewrite Ha|].
  eapply eff_bind; [apply quiet_asked, quiet_cache_get|]. intros [h|]; [by apply eff_ret; intros w' ->; left|].
  eapply eff_bind; [apply chain_ends|]. intros [[[|r found] d']|err]; [| |by apply eff_ret].
  - apply eff_ret. intros w'. unfold chain_end. by rewrite Ha.
  - intros w' (pre & p & post & new & t & key & results & Eo & H1 & H2 & H3 & H4 & H5 & H6 & H7).
    rewrite Ha in H1. cbn [map app] in H1.
    cbn -[webOutcome]. unfold webOutcome. rewrite H2. cbn. right. exists p, post, new, t, key, results.
    subst pre. rewrite <- H7. by repeat split.
Qed.
End claims.

(** ** Two providers

    The first needs a key and has a quota of one request a day, which answers
    the first search; the second answers the next. *)
Definition two : list Backend :=
  [mkBackend "exa" true true "exa" true "exa" (mkLimit 1 0) 0 0; mkBackend "searxng" true true "" false "searxng" (mkLimit 0 0) 0 0].
Definition two_env : SearchEnv :=
  mkSearchEnv Z.of_nat (fun _ => None) (fun _ => inl (mkOptions None ∅)) (fun _ _ => inl "secret")
    (fun _ name q => inl [mkResult (q_Text q) ("https://" +:+ name) ""; mkResult (q_Text q) ("https://" +:+ name) ""]) (fun _ => None) (fun _ _ => None).
Definition two_searches : SearchWorld :=
  searches two two_env (fun _ => "2024-05-01") (fun _ => "2024-05") (fun _ => None) (fun _ => None) id id ""
    [mkSearchRequest " rocq " "" 1; mkSearchRequest "coq" "web" 0; mkSearchRequest "rocq" "" 0]
    (mkSearchWorld 0 (NewCache cacheSize cacheTTL) ∅ ∅ []).

Example two_searches_ask :
  map fst (w_asked two_searches) = ["exa"; "searxng"] /\ su_DayUsed <$> w_usage two_searches !! "exa" = Some 1.
Proof. by vm_compute. Qed.

Lemma searches_within_quota_witness :
  exists limits, limit_of "exa" limits = mkLimit 1 0 /\
  forall u, w_usage two_searches !! "exa" = Some u -> su_DayUsed u <= 1.
Proof.
  exists (∅ ∪ DefaultLimits two). split; [reflexivity|]. intros u Hu.
  refine (proj1 (proj1 (searches_within_quota two two_env (fun _ => "2024-05-01") (fun _ => "2024-05") (fun _ => None) (fun _ => None)
    id id "" (∅ ∪ DefaultLimits two) (fun t o H => _) _ _ _ _) "exa" u Hu) _); [|reflexivity].
  injection H as <-. reflexivity.
Defined.

Lemma searchWeb_fails_over_witness :
  let d := mkDetails SourceWeb "rocq" 1 [] [] false 0 [] 0 in
  let '(r, w') := searchWeb two two_env (fun _ => "2024-05-01") (fun _ => "2024-05") (fun _ => None) (fun _ => None) id id ""
    "rocq" 1 ["brave"; "exa"; "searxng"] ∅ d (mkSearchWorld 0 (NewCache cacheSize cacheTTL) ∅ ∅ []) in
  fails_over two_env id "rocq" 1 ["brave"; "exa"; "searxng"] [] r (w_asked w').
Proof. apply (searchWeb_fails_over two two_env); reflexivity. Defined.
