(* ===== verification/Threads.v ===== *)
(** Goroutines over a shared state. A thread is a tree of atomic actions, each
    a section of code under a lock or a call of something outside; [go] starts
    another thread, and an action that cannot happen yet blocks its thread. A
    schedule says whose turn it is. The logic that follows is one of rely and
    guarantee: a thread may own one object, whose view nobody else changes. *)
From S2P Require Import Prelude.
From stdpp Require Import options.

#[local] Set Default Proof Using "Type*".

Universe u.

Section threads.
Context {St : Type}.

Inductive prog (A : Type) : Type :=
| Ret (a : A)
| Act {R : Type} (f : St -> option (R * St)) (k : R -> prog A)
| Go (t : prog unit) (k : prog A).
Arguments Ret {A}. Arguments Act {A R}. Arguments Go {A}.

(** Induction along a thread, what it starts left aside. *)
Lemma prog_along {A} (P : prog A -> Prop) :
  (forall a, P (Ret a)) -> (forall R (f : St -> option (R * St)) k, (forall r, P (k r)) -> P (Act f k)) ->
  (forall t k, P k -> P (Go t k)) -> forall m, P m.
Proof.
  intros Hret Hact Hgo. fix IH 1. intros [a|R f k|t k]; [apply Hret|apply Hact; intros r; apply IH|apply Hgo, IH].
Qed.

#[export] Instance prog_ret : MRet prog := fun A => Ret.
#[export] Instance prog_bind : MBind prog := fun A B f =>
  fix bind (m : prog A) : prog B :=
    match m with
    | Ret a => f a
    | Act g k => Act g (fun r => bind (k r))
    | Go t k => Go t (bind k)
    end.

Definition act {R} (f : St -> R * St) : prog R := Act (fun s => Some (f s)) Ret.
Definition await {R} (f : St -> option (R * St)) : prog R := Act f Ret.
Definition read {R} (f : St -> R) : prog R := act (fun s => (f s, s)).
Definition modify (f : St -> St) : prog unit := act (fun s => (tt, f s)).
Definition go (t : prog unit) : prog unit := Go t (Ret tt).

(** ** Running *)

Record config := mkConfig { c_state : St; c_threads : list (prog unit) }.

(** One action of the thread [i], when it has one that is not blocked. *)
Definition turn (i : nat) (c : config) : option config :=
  match c_threads c !! i with
  | Some (Act f k) =>
      match f (c_state c) with
      | Some (r, s') => Some (mkConfig s' (<[i := k r]> (c_threads c)))
      | None => None
      end
  | Some (Go t k) => Some (mkConfig (c_state c) (<[i := k]> (c_threads c) ++ [t]))
  | _ => None
  end.

(** A schedule, of which the turns that cannot be taken are skipped. *)
Fixpoint schedule (turns : list nat) (c : config) : config :=
  match turns with [] => c | i :: turns' => schedule turns' (default c (turn i c)) end.

(** A thread alone, with what it starts left aside. *)
Fixpoint alone {A : Type@{u}} (m : prog A) (s : St) : option (A * St) :=
  match m with
  | Ret a => Some (a, s)
  | Act f k => match f s with Some (r, s') => alone (k r) s' | None => None end
  | Go _ k => alone k s
  end.

Lemma alone_bind {A B} (m : prog A) (f : A -> prog B) s :
  alone (m ≫= f) s = match alone m s with Some (a, s') => alone (f a) s' | None => None end.
Proof.
  revert s. induction m as [a|R g k IH|t k IH] using prog_along; intros s; cbn; [done| |apply IH].
  destruct (g s) as [[r s']|]; [apply IH|done].
Qed.

(** An invariant that every action of every thread keeps, of what they start
    as well. *)
Fixpoint keeping (I : St -> Prop) {A : Type@{u}} (m : prog A) : Prop :=
  match m with
  | Ret _ => True
  | Act f k => (forall s r s', I s -> f s = Some (r, s') -> I s') /\ forall r, keeping I (k r)
  | Go t k => keeping I t /\ keeping I k
  end.

Lemma keeping_bind (I : St -> Prop) {A B} (m : prog A) (f : A -> prog B) : keeping I m -> (forall a, keeping I (f a)) -> keeping I (m ≫= f).
Proof.
  intros Hm Hf. induction m as [a|R g k IH|t k IH] using prog_along; cbn in *; [apply Hf| |].
  - destruct Hm as [H1 H2]. split; [exact H1|]. intros r. by apply IH.
  - destruct Hm as [H1 H2]. split; [exact H1|]. by apply IH.
Qed.

Theorem schedule_keeps (I : St -> Prop) turns c :
  I (c_state c) -> Forall (keeping I) (c_threads c) -> I (c_state (schedule turns c)) /\ Forall (keeping I) (c_threads (schedule turns c)).
Proof.
  revert c. induction turns as [|i turns IH]; intros c Hi Hk; [done|]. cbn. apply IH; unfold turn.
  - destruct (c_threads c !! i) as [[a|R f k|t k]|] eqn:Et; cbn; [done| |done|done].
    destruct (f (c_state c)) as [[r s']|] eqn:Ef; [|done]. pose proof (Forall_lookup_1 _ _ _ _ Hk Et) as [H1 _]. by eapply H1.
  - destruct (c_threads c !! i) as [[a|R f k|t k]|] eqn:Et; cbn; [done| | |done].
    + destruct (f (c_state c)) as [[r s']|] eqn:Ef; [|done]. pose proof (Forall_lookup_1 _ _ _ _ Hk Et) as [_ H2]. cbn.
      by apply Forall_insert.
    + pose proof (Forall_lookup_1 _ _ _ _ Hk Et) as [H1 H2]. apply Forall_app. split; [by apply Forall_insert|by constructor].
Qed.

(** A thread that has ended stays so. *)
Lemma ended_stays c i u turns : c_threads c !! i = Some (Ret u) -> c_threads (schedule turns c) !! i = Some (Ret u).
Proof.
  revert c. induction turns as [|j turns IH]; intros c Hc; [done|]. cbn. apply IH. unfold turn.
  destruct (decide (j = i)) as [->|Hne]; [by rewrite Hc|].
  destruct (c_threads c !! j) as [[a|R f k|t k]|]; cbn; [done| | |done].
  - destruct (f (c_state c)) as [[r s']|]; cbn; [by rewrite list_lookup_insert_ne|done].
  - rewrite lookup_app_l by (rewrite length_insert; by eapply lookup_lt_Some). by rewrite list_lookup_insert_ne.
Qed.

(** No thread goes away. *)
Lemma threads_stay c i turns : is_Some (c_threads c !! i) -> is_Some (c_threads (schedule turns c) !! i).
Proof.
  rewrite !lookup_lt_is_Some. revert c. induction turns as [|j turns IH]; intros c Hc; [done|]. cbn. apply IH. unfold turn.
  destruct (c_threads c !! j) as [[a|R f k|t k]|]; cbn; [done| | |done].
  - destruct (f (c_state c)) as [[r s']|]; cbn; [by rewrite length_insert|done].
  - rewrite length_app, length_insert. lia.
Qed.

(** ** Rely and guarantee *)

(** An invariant of the state, how every action may change it, and the part
    of an object that only its owner changes. *)
Context {V : Type} (I : St -> Prop) (G : St -> St -> Prop) (view : nat -> St -> option V).

(** What a thread that owns [o] may rely on while others take their turns. *)
Definition rely (o : option nat) (s s' : St) : Prop :=
  I s' /\ G s s' /\ forall p, o = Some p -> view p s' = view p s.
Definition stable (o : option nat) (P : St -> Prop) : Prop := forall s s', I s -> rely o s s' -> P s -> P s'.
(** What an action of a thread that owns [o] may do, if it owns [o'] after it. *)
Definition guar (o o' : option nat) (s s' : St) : Prop :=
  I s' /\ G s s' /\ (forall p, o <> Some p -> o' <> Some p -> view p s' = view p s \/ view p s = None) /\
  match o' with
  | None => True
  | Some p => is_Some (view p s') /\ (o = Some p \/ view p s = None)
  end.

(** A thread that does nothing another could notice: every action is one it
    might as well have relied on, whatever is owned. *)
Fixpoint quiet {A : Type@{u}} (m : prog A) : Prop :=
  match m with
  | Ret _ => True
  | Act f k => (forall s r s', I s -> f s = Some (r, s') -> I s' /\ G s s' /\ forall p, view p s' = view p s \/ view p s = None) /\
               forall r, quiet (k r)
  | Go _ _ => False
  end.

Lemma quiet_bind {A B} (m : prog A) (f : A -> prog B) : quiet m -> (forall a, quiet (f a)) -> quiet (m ≫= f).
Proof.
  intros Hm Hf. induction m as [a|X g k IH|t k IH] using prog_along; cbn in *; [apply Hf| |done].
  destruct Hm as [H1 H2]. split; [exact H1|]. intros r. by apply IH.
Qed.

(** Where a thread may have to wait. *)
Context (Wait : St -> Prop).

(** The thread keeps to the guarantee from [P] on, and ends with [Q]. *)
Fixpoint safe {A : Type@{u}} (m : prog A) (o : option nat) (P : St -> Prop) (Q : A -> option nat -> St -> Prop) : Prop :=
  match m with
  | Ret a => forall s, I s -> P s -> Q a o s
  | Act f k => forall s, I s -> P s ->
      match f s with
      | None => Wait s
      | Some (r, s') => exists o' P', guar o o' s s' /\ stable o' P' /\ P' s' /\ safe (k r) o' P' Q
      end
  | Go t k => exists o1 o2 P1 P2,
      (o1 = None /\ o2 = o \/ o1 = o /\ o2 = None) /\ stable o1 P1 /\ stable o2 P2 /\
      (forall s, I s -> P s -> P1 s /\ P2 s) /\ safe t o1 P1 (fun _ _ _ => True) /\ safe k o2 P2 Q
  end.

Lemma safe_pre {A} (m : prog A) o (P P' : St -> Prop) Q : (forall s, I s -> P' s -> P s) -> safe m o P Q -> safe m o P' Q.
Proof.
  intros H. destruct m as [a|R f k|t k]; cbn.
  - intros Hs s Hi Hp. auto.
  - intros Hs s Hi Hp. exact (Hs s Hi (H s Hi Hp)).
  - intros (o1 & o2 & P1 & P2 & Ho & H1 & H2 & Hp & Hs). exists o1, o2, P1, P2. split; [done|]. split; [done|]. split; [done|].
    split; [|done]. intros s Hi Hp'. auto.
Qed.

Lemma safe_post {A} (m : prog A) o P (Q Q' : A -> option nat -> St -> Prop) :
  (forall a o s, I s -> Q a o s -> Q' a o s) -> safe m o P Q -> safe m o P Q'.
Proof.
  intros H. revert o P. induction m as [a|R f k IH|t k IH] using prog_along; intros o P; cbn.
  - intros Hs s Hi Hp. auto.
  - intros Hs s Hi Hp. specialize (Hs s Hi Hp). destruct (f s) as [[r s']|]; [|done].
    destruct Hs as (o' & P' & Hg & Hst & Hp' & Hs). exists o', P'. split; [done|]. split; [done|]. split; [done|]. by apply IH.
  - intros (o1 & o2 & P1 & P2 & Ho & H1 & H2 & Hp & Ht & Hk). exists o1, o2, P1, P2.
    split; [done|]. split; [done|]. split; [done|]. split; [done|]. split; [done|]. by apply IH.
Qed.

Lemma safe_bind {A B} (m : prog A) (f : A -> prog B) o P R Q :
  safe m o P R -> (forall a o', safe (f a) o' (R a o') Q) -> safe (m ≫= f) o P Q.
Proof.
  intros Hm Hf. revert o P Hm. induction m as [a|X g k IH|t k IH] using prog_along; intros o P Hm; cbn in Hm |- *.
  - exact (safe_pre (f a) o (R a o) P Q (fun s Hi Hp => Hm s Hi Hp) (Hf a o)).
  - intros s Hi Hp. specialize (Hm s Hi Hp). destruct (g s) as [[r s']|]; [|done].
    destruct Hm as (o' & P' & Hg & Hst & Hp' & Hs). exists o', P'. split; [done|]. split; [done|]. split; [done|]. by apply IH.
  - destruct Hm as (o1 & o2 & P1 & P2 & Ho & H1 & H2 & Hp & Ht & Hk). exists o1, o2, P1, P2.
    split; [done|]. split; [done|]. split; [done|]. split; [done|]. split; [done|]. by apply IH.
Qed.

(** Threads are proved safe where they can get to. *)
Definition ok {A : Type@{u}} (m : prog A) (o : option nat) (P : St -> Prop) (Q : A -> option nat -> St -> Prop) : Prop :=
  (exists s, I s /\ P s) -> safe m o P Q.

Lemma ok_bind {A B} (m : prog A) (f : A -> prog B) o P R Q :
  ok m o P R -> (forall a o', ok (f a) o' (R a o') Q) -> ok (m ≫= f) o P Q.
Proof.
  intros Hm Hf Hs. specialize (Hm Hs). revert o P Hs Hm. induction m as [a|X g k IH|t k IH] using prog_along; intros o P [s [Hi Hp]] Hm; cbn in Hm |- *.
  - eapply safe_pre; [exact Hm|]. apply Hf. exists s. auto.
  - clear s Hi Hp. intros s Hi Hp. specialize (Hm s Hi Hp). destruct (g s) as [[r s']|]; [|done].
    destruct Hm as (o' & P' & Hg & Hst & Hp' & Hs). exists o', P'. split; [done|]. split; [done|]. split; [done|].
    apply IH; [|done]. exists s'. split; [apply Hg|done].
  - destruct Hm as (o1 & o2 & P1 & P2 & Ho & H1 & H2 & Himp & Ht & Hk). exists o1, o2, P1, P2.
    split; [done|]. split; [done|]. split; [done|]. split; [done|]. split; [done|]. apply IH; [|done].
    exists s. split; [done|]. by apply Himp.
Qed.

Lemma ok_pure {A} (m : prog A) o (phi : Prop) P Q : (phi -> ok m o P Q) -> ok m o (fun s => phi /\ P s) Q.
Proof.
  intros H (s & Hi & Hphi & Hp). eapply safe_pre; [|apply (H Hphi); by exists s]. by intros s' _ [_ ?].
Qed.

Lemma ok_pre {A} (m : prog A) o (P P' : St -> Prop) Q : (forall s, I s -> P' s -> P s) -> ok m o P Q -> ok m o P' Q.
Proof. intros H Hm (s & Hi & Hp). eapply safe_pre; [exact H|]. apply Hm. exists s. auto. Qed.

Lemma ok_post {A} (m : prog A) o P (Q Q' : A -> option nat -> St -> Prop) :
  (forall a o s, I s -> Q a o s -> Q' a o s) -> ok m o P Q -> ok m o P Q'.
Proof. intros H Hm Hs. eapply safe_post; [exact H|]. by apply Hm. Qed.

Lemma ok_ret {A} (a : A) o (P : St -> Prop) (Q : A -> option nat -> St -> Prop) : (forall s, I s -> P s -> Q a o s) -> ok (mret a) o P Q.
Proof. by intros H _. Qed.

(** One action, and that it need not wait. *)
Lemma ok_await {A} (f : St -> option (A * St)) o P (R : A -> option nat -> St -> Prop) :
  (forall s, I s -> P s -> f s = None -> Wait s) ->
  (forall s a s', I s -> P s -> f s = Some (a, s') -> exists o', guar o o' s s' /\ stable o' (R a o') /\ R a o' s') ->
  ok (await f) o P R.
Proof.
  intros Hw H _ s Hi Hp. destruct (f s) as [[a s']|] eqn:E; [|by apply Hw]. destruct (H s a s' Hi Hp E) as (o' & Hg & Hst & Hr).
  exists o', (R a o'). split; [done|]. split; [done|]. split; [done|]. by cbn.
Qed.

(** What is owned does not vary. *)
Lemma ok_own {A} (m : prog A) o (P : nat -> St -> Prop) Q :
  (forall t, ok m (Some t) (P t) Q) -> ok m o (fun s => exists t, o = Some t /\ P t s) Q.
Proof.
  intros H (s & Hi & t & -> & Hp). eapply safe_pre; [|apply (H t); by exists s]. intros s' _ (t' & [= ->] & Hp'). exact Hp'.
Qed.

(** ** Soundness *)

(** What is known of a thread: what it owns, where it is, and its end. *)
Record knowledge := mkKnown { k_own : option nat; k_pre : St -> Prop; k_end : St -> Prop }.

Definition known (s : St) (t : prog unit) (k : knowledge) : Prop :=
  safe t (k_own k) (k_pre k) (fun _ _ => k_end k) /\ stable (k_own k) (k_pre k) /\ k_pre k s /\
  forall p, k_own k = Some p -> is_Some (view p s).

Definition owners (ks : list knowledge) : list nat := omap k_own ks.

(** Every thread is known, and no two own the same. *)
Definition sound (ends : list (St -> Prop)) (c : config) : Prop :=
  I (c_state c) /\ exists ks, Forall2 (known (c_state c)) (c_threads c) ks /\ NoDup (owners ks) /\
    forall i P, ends !! i = Some P -> exists k, ks !! i = Some k /\ k_end k = P.

Lemma owners_insert ks i k k' :
  ks !! i = Some k -> (forall p, k_own k' = Some p -> k_own k = Some p \/ p ∉ owners ks) -> NoDup (owners ks) ->
  NoDup (owners (<[i := k']> ks)).
Proof.
  intros Hi Hk Hn. unfold owners in *. rewrite insert_take_drop by by eapply lookup_lt_Some.
  rewrite <- (take_drop_middle ks i k Hi) in Hn, Hk. rewrite omap_app in *. cbn in *.
  destruct (k_own k') as [p|]; [|destruct (k_own k) as [q|]; [|done]].
  - specialize (Hk p eq_refl). destruct (k_own k) as [q|].
    + destruct Hk as [[= ->]|Hp]; [done|]. apply NoDup_app in Hn as (H1 & H2 & H3). apply NoDup_cons in H3 as [H3 H4].
      apply NoDup_app. rewrite NoDup_cons. split; [done|]. split; [|split; [|done]].
      * intros x Hx [->|Hx']%elem_of_cons; [apply Hp, elem_of_app; by left|]. apply (H2 x Hx). by right.
      * intros Hx. apply Hp, elem_of_app. right. by right.
    + destruct Hk as [[=]|Hp]. apply NoDup_app in Hn as (H1 & H2 & H3).
      apply NoDup_app. rewrite NoDup_cons. split; [done|]. split; [|split; [|done]].
      * intros x Hx [->|Hx']%elem_of_cons; [apply Hp, elem_of_app; by left|]. by apply (H2 x Hx).
      * intros Hx. apply Hp, elem_of_app. by right.
  - apply NoDup_app in Hn as (H1 & H2 & H3). apply NoDup_cons in H3 as [H3 H4]. apply NoDup_app.
    split; [done|]. split; [|done]. intros x Hx Hx'. apply (H2 x Hx). by right.
Qed.

Lemma owned_elsewhere ks i j k k' p :
  NoDup (owners ks) -> ks !! i = Some k -> ks !! j = Some k' -> k_own k = Some p -> k_own k' = Some p -> i = j.
Proof.
  intros Hn Hi Hj Hk Hk'. unfold owners in Hn. destruct (decide (i = j)) as [|Hne]; [done|exfalso].
  assert (Hlt : forall i j k k', ks !! i = Some k -> ks !! j = Some k' -> k_own k = Some p -> k_own k' = Some p -> (i < j)%nat -> False).
  { clear -Hn. intros i j k k' Hi Hj Hk Hk' Hlt. rewrite <- (take_drop_middle ks j k' Hj), omap_app in Hn.
    apply NoDup_app in Hn as (_ & Hd & _). apply (Hd p).
    - apply list_elem_of_omap. exists k. split; [|done]. apply list_elem_of_lookup. exists i. by rewrite lookup_take_lt.
    - cbn. rewrite Hk'. by left. }
  destruct (Nat.lt_total i j) as [?|[?|?]]; [by eapply (Hlt i j)|done|by eapply (Hlt j i)].
Qed.

(** What a thread relies on when another keeps to its guarantee. *)
Lemma known_rely s s' t k : known s t k -> I s -> rely (k_own k) s s' -> known s' t k.
Proof.
  intros (Hs & Hst & Hp & Hv) Hi Hr. split; [done|]. split; [done|]. split; [by eapply Hst|].
  intros p Ho. destruct Hr as (_ & _ & Hr). rewrite (Hr p Ho). by apply Hv.
Qed.

Lemma guar_rely o o' q s s' :
  guar o o' s s' -> (forall p, q = Some p -> is_Some (view p s)) -> (forall p, q = Some p -> o <> Some p) -> rely q s s'.
Proof.
  intros (Hi & Hg & Hv & Ho) Hq Hne. split; [done|]. split; [done|]. intros p Hp. destruct (Hq p Hp) as [v Hv'].
  destruct (Hv p) as [|]; [by apply Hne| |done|congruence]. intros ->. destruct Ho as (_ & [Ho|Ho]); [by apply (Hne p)|congruence].
Qed.

Theorem turn_sound ends i c c' : sound ends c -> turn i c = Some c' -> sound ends c'.
Proof.
  intros (Hi & ks & Hks & Hn & He) Ht. unfold turn in Ht. destruct (c_threads c !! i) as [t|] eqn:Et; [|done].
  destruct (Forall2_lookup_l _ _ _ _ _ Hks Et) as (k & Ek & (Hs & Hst & Hp & Hv)).
  assert (Hlen : (i < length ks)%nat) by by eapply lookup_lt_Some.
  destruct t as [a|R f kont|t kont]; [done| |].
  - cbn in Hs. specialize (Hs _ Hi Hp). destruct (f (c_state c)) as [[r s']|] eqn:Ef; [|done]. injection Ht as <-. cbn in *.
    destruct Hs as (o' & P' & Hg & Hst' & Hp' & Hs). split; [exact (proj1 Hg)|].
    exists (<[i := mkKnown o' P' (k_end k)]> ks). split; [|split].
    + apply Forall2_same_length_lookup. split; [cbn; rewrite !length_insert; eapply Forall2_length, Hks|].
      intros j t kj Htj Hkj. destruct (decide (i = j)) as [<-|Hne].
      * cbn in Htj; rewrite list_lookup_insert_eq in Htj by by eapply lookup_lt_Some. rewrite list_lookup_insert_eq in Hkj by done.
        simplify_eq. split; [done|]. split; [done|]. split; [done|]. intros p Ho. cbn in Ho. subst.
        destruct Hg as (_ & _ & _ & [Hg _]). done.
      * cbn in Htj; rewrite list_lookup_insert_ne in Htj by done; rewrite list_lookup_insert_ne in Hkj by done. pose proof (Forall2_lookup_lr _ _ _ _ _ _ Hks Htj Hkj) as Hj.
        eapply known_rely; [exact Hj|done|]. apply (guar_rely _ _ _ _ _ Hg); [apply Hj|].
        intros p Hpj Hpi. apply Hne. by eapply owned_elsewhere.
    + eapply owners_insert; [done| |done]. cbn. intros p ->. destruct Hg as (_ & _ & _ & [_ [Ho|Ho]]); [by left|right].
      intros Hin. unfold owners in Hin. apply list_elem_of_omap in Hin as (kj & Hj & Hpj). apply list_elem_of_lookup in Hj as [j Hj].
      destruct (Forall2_lookup_r _ _ _ _ _ Hks Hj) as (tj & _ & Hkj). destruct Hkj as (_ & _ & _ & Hvj). destruct (Hvj p Hpj). congruence.
    + intros j P Hj. destruct (He j P Hj) as (kj & Hkj & Hend). destruct (decide (i = j)) as [<-|Hne].
      * rewrite list_lookup_insert_eq by done. eexists. split; [done|]. cbn. congruence.
      * rewrite list_lookup_insert_ne by done. eauto.
  - injection Ht as <-. cbn in *. destruct Hs as (o1 & o2 & P1 & P2 & Ho & Hst1 & Hst2 & Himp & Hs1 & Hs2).
    destruct (Himp _ Hi Hp) as [Hp1 Hp2]. split; [done|].
    exists (<[i := mkKnown o2 P2 (k_end k)]> ks ++ [mkKnown o1 P1 (fun _ => True)]). split; [|split].
    + apply Forall2_app.
      * apply Forall2_same_length_lookup. split; [cbn; rewrite !length_insert; eapply Forall2_length, Hks|].
        intros j t' kj Htj Hkj. destruct (decide (i = j)) as [<-|Hne].
        -- cbn in Htj; rewrite list_lookup_insert_eq in Htj by by eapply lookup_lt_Some. rewrite list_lookup_insert_eq in Hkj by done.
           simplify_eq. split; [done|]. split; [done|]. split; [done|]. cbn. intros p ->. destruct Ho as [[_ Ho]|[_ Ho]]; [|done].
           by apply Hv.
        -- cbn in Htj; rewrite list_lookup_insert_ne in Htj by done; rewrite list_lookup_insert_ne in Hkj by done. by eapply Forall2_lookup_lr.
      * constructor; [|constructor]. split; [done|]. split; [done|]. split; [done|]. cbn. intros p ->.
        destruct Ho as [[Ho _]|[Ho _]]; [done|]. by apply Hv.
    + unfold owners. rewrite omap_app. cbn. assert (Hn' : NoDup (omap k_own (<[i := mkKnown o2 P2 (k_end k)]> ks))).
      { apply (owners_insert ks i k); [done| |done]. cbn. intros p ->. left. by destruct Ho as [[_ <-]|[_ ?]]. }
      destruct o1 as [p|]; [|by rewrite app_nil_r]. destruct Ho as [[? _]|[Ho ->]]; [done|].
      apply NoDup_app. split; [done|]. split; [|repeat constructor; apply not_elem_of_nil].
      intros q Hq Hqp. apply list_elem_of_singleton in Hqp as ->. apply list_elem_of_omap in Hq as (kj & Hj & Hpj).
      apply list_elem_of_lookup in Hj as [j Hj]. destruct (decide (i = j)) as [<-|Hne].
      * rewrite list_lookup_insert_eq in Hj by done. by simplify_eq.
      * rewrite list_lookup_insert_ne in Hj by done. apply Hne. symmetry in Ho. exact (owned_elsewhere ks i j k kj p Hn Ek Hj Ho Hpj).
    + intros j P Hj. destruct (He j P Hj) as (kj & Hkj & Hend). destruct (decide (i = j)) as [<-|Hne].
      * rewrite lookup_app_l by by rewrite length_insert. rewrite list_lookup_insert_eq by done. eexists. split; [done|]. cbn. congruence.
      * exists kj. split; [|done]. rewrite lookup_app_l by (rewrite length_insert; by eapply lookup_lt_Some).
        by rewrite list_lookup_insert_ne.
Qed.

Theorem schedule_sound ends turns c : sound ends c -> sound ends (schedule turns c).
Proof.
  revert c. induction turns as [|i turns IH]; intros c Hc; [done|]. cbn. apply IH.
  destruct (turn i c) as [c'|] eqn:Et; [|done]. by eapply turn_sound.
Qed.

(** From a good state, threads that are safe without owning anything. *)
Lemma sound_start s ts ends :
  I s -> Forall2 (fun t P => safe t None (fun _ => True) (fun _ _ => P)) ts ends -> sound ends (mkConfig s ts).
Proof.
  intros Hi Hts. split; [done|]. exists (map (mkKnown None (fun _ => True)) ends). cbn. split; [|split].
  - apply Forall2_fmap_r. eapply Forall2_impl; [exact Hts|]. intros t P Hs. by split.
  - unfold owners. replace (omap _ _) with (@nil nat); [constructor|]. clear. by induction ends.
  - intros i P Hi'. rewrite list_lookup_fmap, Hi'. by eexists.
Qed.

(** A thread that has ended has its end. *)
Lemma sound_ended ends c i P u :
  sound ends c -> c_threads c !! i = Some (Ret u) -> ends !! i = Some P -> P (c_state c).
Proof.
  intros (Hi & ks & Hks & _ & He) Ht Hp. destruct (He i P Hp) as (k & Hk & <-).
  destruct (Forall2_lookup_lr _ _ _ _ _ _ Hks Ht Hk) as (Hs & _ & Hpre & _). cbn in Hs. auto.
Qed.

(** ** Progress *)

(** A thread that cannot go on has ended, or is where it may have to wait. *)
Lemma blocked_why ends c i m : sound ends c -> c_threads c !! i = Some m -> turn i c = None -> (exists u, m = Ret u) \/ Wait (c_state c).
Proof.
  intros (Hi & ks & Hks & _ & _) Ht Hb. unfold turn in Hb. rewrite Ht in Hb. destruct m as [u|R f k|t k]; [by left; exists u| |done].
  destruct (f (c_state c)) as [[r s']|] eqn:Ef; [done|]. right. destruct (Forall2_lookup_l _ _ _ _ _ Hks Ht) as (kn & _ & Hs & _ & Hp & _).
  cbn in Hs. specialize (Hs _ Hi Hp). by rewrite Ef in Hs.
Qed.

Lemma turn_guards ends i c c' : sound ends c -> turn i c = Some c' -> G (c_state c) (c_state c') \/ c_state c' = c_state c.
Proof.
  intros (Hi & ks & Hks & _ & _) Ht. unfold turn in Ht. destruct (c_threads c !! i) as [[u|R f k|t k]|] eqn:El; [done| | |done].
  - destruct (f (c_state c)) as [[r s']|] eqn:Ef; [|done]. injection Ht as <-. left.
    destruct (Forall2_lookup_l _ _ _ _ _ Hks El) as (kn & _ & Hs & _ & Hp & _). cbn in Hs. specialize (Hs _ Hi Hp).
    rewrite Ef in Hs. by destruct Hs as (o' & P' & (_ & Hg & _) & _).
  - injection Ht as <-. by right.
Qed.
Lemma schedule_guards (L : St -> Prop) ends turns c :
  (forall s s', G s s' -> L s -> L s') -> sound ends c -> L (c_state c) -> L (c_state (schedule turns c)).
Proof.
  intros HL. revert c. induction turns as [|i turns IH]; intros c Hs Hl; [done|]. cbn. destruct (turn i c) as [c'|] eqn:Et; [|by apply IH].
  apply IH; [by eapply turn_sound|]. cbn. destruct (turn_guards _ _ _ _ Hs Et) as [Hg|Hg]; [by eapply HL|by rewrite Hg].
Qed.

(** Whose turn it is, for ever, and what came of the first [n] turns. *)
Definition first (sigma : nat -> nat) (n : nat) : list nat := map sigma (seq 0 n).
Definition fair (sigma : nat -> nat) (i : nat) : Prop := forall n, exists k, (n <= k)%nat /\ sigma k = i.

Lemma first_S sigma n : first sigma (S n) = first sigma n ++ [sigma n].
Proof. unfold first. by rewrite seq_S, map_app. Qed.
Lemma schedule_app turns turns' c : schedule (turns ++ turns') c = schedule turns' (schedule turns c).
Proof. revert c. induction turns as [|i turns IH]; intros c; [done|]. apply IH. Qed.
Lemma others_turn i j c m : i <> j -> c_threads c !! i = Some m -> c_threads (default c (turn j c)) !! i = Some m.
Proof.
  intros Hne Hi. unfold turn. destruct (c_threads c !! j) as [[u|R f k|t k]|]; cbn; [done| | |done].
  - destruct (f (c_state c)) as [[r s']|]; cbn; [by rewrite list_lookup_insert_ne|done].
  - rewrite lookup_app_l by (rewrite length_insert; by eapply lookup_lt_Some). by rewrite list_lookup_insert_ne.
Qed.

(** The turn of a thread comes, and until then it stays where it is. *)
Lemma turn_comes sigma i c n m : fair sigma i -> c_threads (schedule (first sigma n) c) !! i = Some m ->
  exists k, (n <= k)%nat /\ sigma k = i /\ c_threads (schedule (first sigma k) c) !! i = Some m.
Proof.
  intros Hf Hm. destruct (Hf n) as (k & Hk & Hi). remember (k - n)%nat as d eqn:Hd. revert n Hm Hk Hd.
  induction d as [|d IH]; intros n Hm Hk Hd; [exists k; replace k with n in * by lia; done|].
  destruct (decide (sigma n = i)) as [Hn|Hn]; [by exists n|].
  destruct (IH (S n)) as (k' & Hk' & H); [|lia|lia|exists k'; split; [lia|done]].
  rewrite first_S, schedule_app. cbn. by apply others_turn.
Qed.

(** Threads are finite: one whose turn comes again and again ends, as long as
    it never is where it would have to wait. *)
Theorem fair_ends ends sigma i m c :
  sound ends c -> fair sigma i -> c_threads c !! i = Some m -> (forall turns, ~ Wait (c_state (schedule turns c))) ->
  exists n u, c_threads (schedule (first sigma n) c) !! i = Some (Ret u).
Proof.
  intros Hs Hf Hm Hb.
  assert (H : forall n, c_threads (schedule (first sigma n) c) !! i = Some m -> exists n u, c_threads (schedule (first sigma n) c) !! i = Some (Ret u)).
  { clear Hm. induction m as [u|R f k IH|t k IH] using prog_along; intros n Hm; [by exists n, u| |];
    destruct (turn_comes sigma i c n _ Hf Hm) as (j & _ & Hj & Hm').
    - set (c' := schedule (first sigma j) c) in *. assert (Hs' : sound ends c') by by apply schedule_sound.
      destruct (turn i c') as [c''|] eqn:Et; [|destruct (blocked_why _ _ _ _ Hs' Hm' Et) as [[u [=]]|Hw]; by destruct (Hb (first sigma j))].
      unfold turn in Et. rewrite Hm' in Et. destruct (f (c_state c')) as [[r s']|] eqn:Ef; [|done].
      apply (IH r (S j)). rewrite first_S, schedule_app. fold c'. cbn [schedule]. rewrite Hj. unfold turn. rewrite Hm', Ef. cbn.
      apply list_lookup_insert_eq. by eapply lookup_lt_Some.
    - apply (IH (S j)). rewrite first_S, schedule_app. cbn [schedule]. rewrite Hj. unfold turn. rewrite Hm'. cbn.
      rewrite lookup_app_l by (rewrite length_insert; by eapply lookup_lt_Some). apply list_lookup_insert_eq. by eapply lookup_lt_Some. }
  apply (H O). exact Hm.
Qed.
End threads.
Arguments prog : clear implicits.
Arguments config : clear implicits.
Arguments Ret {St A}. Arguments Act {St A R}. Arguments Go {St A}.

(** ** Where it ends *)

(** Nobody can move. *)
Definition stuck {St} (c : config St) : Prop := forall i, turn i c = None.
Lemma stuck_check {St} (c : config St) :
  forallb (fun i => match turn i c with None => true | Some _ => false end) (seq 0 (length (c_threads c))) = true -> stuck c.
Proof using Type.
  intros H i. destruct (turn i c) as [c'|] eqn:Et; [exfalso|done]. rewrite forallb_forall in H.
  assert (Hi : (i < length (c_threads c))%nat).
  { unfold turn in Et. destruct (c_threads c !! i) as [m|] eqn:El; [|done]. by eapply lookup_lt_Some. }
  specialize (H i). rewrite Et in H. apply diff_false_true, H. apply in_seq. lia.
Qed.

Lemma stuck_stays {St} (c : config St) turns : stuck c -> schedule turns c = c.
Proof using Type. intros Hs. induction turns as [|i turns IH]; [done|]. cbn [schedule]. by rewrite (Hs i). Qed.

Definition ended_threads {St} (c : config St) : list bool := map (fun m => match m with Ret _ => true | _ => false end) (c_threads c).

(** ** Threads that may wait anywhere *)

Definition anywhere {St : Type} (_ : St) : Prop := True.

Section anywhere.
Context {St V : Type} (I : St -> Prop) (G : St -> St -> Prop) (view : nat -> St -> option V).
Abbreviation ok := (ok I G view anywhere).

Lemma ok_act {A} (f : St -> option (A * St)) o P (R : A -> option nat -> St -> Prop) :
  (forall s a s', I s -> P s -> f s = Some (a, s') -> exists o', guar I G view o o' s s' /\ stable I G view o' (R a o') /\ R a o' s') ->
  ok (await f) o P R.
Proof. intros H. by apply ok_await. Qed.

Lemma quiet_ok {A} (m : prog St A) o P :
  quiet I G view m -> stable I G view o P -> (forall s p, P s -> o = Some p -> is_Some (view p s)) -> ok m o P (fun _ o' s => o' = o /\ P s).
Proof.
  intros Hm Hst Ho _. induction m as [a|X g k IH|t k IH] using prog_along; cbn in *; [done| |done].
  intros s Hi Hp. destruct Hm as [H1 H2]. destruct (g s) as [[r s']|] eqn:Eg; [|done].
  destruct (H1 s r s' Hi Eg) as (Hi' & Hg & Hv). exists o, P.
  assert (Hsame : forall p, o = Some p -> view p s' = view p s).
  { intros p Hop. destruct (Hv p) as [|Hn]; [done|]. destruct (Ho s p Hp Hop). congruence. }
  split; [|split; [done|split; [|by apply IH]]].
  - split; [done|]. split; [done|]. split; [by intros p _ _|]. destruct o as [p|]; [|done].
    split; [|by left]. rewrite Hsame by done. by apply (Ho s).
  - by apply (Hst s).
Qed.

End anywhere.

(** ** Threads that own nothing *)

Section unowned.
Context {St : Type} (I : St -> Prop) (G : St -> St -> Prop).

Definition unseen (_ : nat) (_ : St) : option unit := None.
Definition lasts (X : St -> Prop) : Prop := forall s s', I s -> I s' -> G s s' -> X s -> X s'.
(** From what is known before to what is known of the result. *)
Definition goes {A} (m : prog St A) (X : St -> Prop) (R : A -> St -> Prop) : Prop :=
  ok I G unseen anywhere m None X (fun a o s => o = None /\ R a s).

Lemma goes_bind {A C} (m : prog St A) (f : A -> prog St C) X R Q : goes m X R -> (forall a, goes (f a) (R a) Q) -> goes (m ≫= f) X Q.
Proof. intros Hm Hf. eapply ok_bind; [exact Hm|]. intros a o. apply ok_pure. intros ->. apply Hf. Qed.
Lemma goes_ret {A} (a : A) X (R : A -> St -> Prop) : (forall s, I s -> X s -> R a s) -> goes (mret a) X R.
Proof. intros HR. apply ok_ret. intros s Hi Hx. split; [done|by apply HR]. Qed.
Lemma goes_pre {A} (m : prog St A) (X X' : St -> Prop) R : (forall s, I s -> X' s -> X s) -> goes m X R -> goes m X' R.
Proof. apply ok_pre. Qed.
Lemma goes_post {A} (m : prog St A) X (R R' : A -> St -> Prop) : (forall a s, I s -> R a s -> R' a s) -> goes m X R -> goes m X R'.
Proof. intros HR. apply ok_post. intros a o s Hi [-> Hr]. split; [done|by apply HR]. Qed.
(** What is known of no state. *)
Lemma goes_pure {A} (m : prog St A) (phi : Prop) X R : (phi -> goes m X R) -> goes m (fun s => phi /\ X s) R.
Proof. apply ok_pure. Qed.
Lemma goes_await {A} (f : St -> option (A * St)) (X : St -> Prop) (R : A -> St -> Prop) :
  (forall a, lasts (R a)) -> (forall s a s', I s -> X s -> f s = Some (a, s') -> I s' /\ G s s' /\ R a s') -> goes (await f) X R.
Proof.
  intros HR Hf. apply ok_act. intros s a s' Hi Hx Hs. destruct (Hf s a s' Hi Hx Hs) as (H1 & H2 & H3). exists None.
  split; [split; [done|]; split; [done|]; split; [by left|done]|]. split; [|done].
  intros t t' Ht (Ht' & Hg & _) [_ Hr]. split; [done|]. by apply (HR a t).
Qed.

(** A thread that begins anywhere and keeps to the guarantee. *)
Lemma goes_sound s (ts : list (prog St unit)) turns :
  I s -> Forall (fun t => goes t (fun _ => True) (fun _ _ => True)) ts ->
  sound I G unseen anywhere (map (fun _ _ => True) ts) (schedule turns (mkConfig s ts)).
Proof.
  intros Hi Hts. apply schedule_sound, sound_start; [done|]. apply Forall2_fmap_r, Forall_Forall2_diag.
  eapply Forall_impl; [exact Hts|]. intros t Ht. eapply safe_post; [|apply Ht; by exists s]. done.
Qed.
End unowned.
