(* ===== verification/Tables.v ===== *)
(** The tables of workspaces and of subagents (internal/store workspaces.go
    and subagents.go), beside those of sessions and entries ([Entries]), and
    what deleting a workspace takes with it. *)
From S2P Require Import Prelude GoStr Failure Entries.
From stdpp Require Import sorting options.
Open Scope Z_scope.

(* @src internal/store/workspaces.go 12-47 Workspace *)
Record WorkspaceRow := mkWorkspaceRow {
  ws_ID : string;
  ws_ProjectID : string;
  ws_Name : string;
  ws_Branch : string;
  ws_BaseCommit : string;
  ws_Image : string;
  ws_State : string;
  ws_ContainerID : string;
  ws_ParentWorkspaceID : string;
  ws_WorktreeOf : string;
  ws_Sandbox : json;
  ws_Pinned : bool;
  ws_Archived : bool;
  ws_CreatedAt : Z;
}.


(* @src internal/store/subagents.go 10-25 Subagent *)
Record Subagent := mkSubagent {
  sb_ID : string;
  sb_ParentSessionID : string;
  sb_ChildSessionID : string;
  sb_ChildWorkspaceID : string;
  sb_State : string;
  sb_Result : string;
  sb_CreatedAt : Z;
  sb_FinishedAt : option Z;
}.

Record Tables := mkTables {
  t_db : DB;
  t_workspaces : gmap string WorkspaceRow;
  t_subagents : gmap string Subagent;
}.

Definition set_db db t := mkTables db (t_workspaces t) (t_subagents t).
Definition set_workspaces ws t := mkTables (t_db t) ws (t_subagents t).
Definition set_subagents sb t := mkTables (t_db t) (t_workspaces t) sb.

(** ** Workspaces *)

Definition sets_workspace (w : WorkspaceRow) (t : Tables) : Tables :=
  set_workspaces (<[ws_ID w := w]> (t_workspaces t)) t.
Definition refers (id : string) (t : Tables) : bool :=
  String.eqb id EmptyString || bool_decide (is_Some (t_workspaces t !! id)).

(** [id] is what [NewID] gave, [now] the time of the transaction. *)
(* @src internal/store/workspaces.go 79-101 Store.CreateWorkspace *)
Definition CreateWorkspace (id : string) (now : Z) (w : WorkspaceRow) (t : Tables) : (WorkspaceRow + GoError) * Tables :=
  let w := mkWorkspaceRow (if String.eqb (ws_ID w) EmptyString then id else ws_ID w) (ws_ProjectID w) (ws_Name w) (ws_Branch w)
    (ws_BaseCommit w) (ws_Image w) (ws_State w) (ws_ContainerID w) (ws_ParentWorkspaceID w) (ws_WorktreeOf w) (ws_Sandbox w)
    (ws_Pinned w) (ws_Archived w) now in
  let failed e := (inr (wrap ("create workspace " +:+ ws_ID w) e), t) in
  match t_workspaces t !! ws_ID w with
  | Some _ => failed UniqueViolation
  | None =>
      if refers (ws_ParentWorkspaceID w) t && refers (ws_WorktreeOf w) t then (inl w, sets_workspace w t)
      else failed ForeignKeyViolation
  end.

(* @src internal/store/workspaces.go 103-111 Store.Workspace *)
Definition getWorkspace (id : string) (t : Tables) : WorkspaceRow + GoError :=
  match t_workspaces t !! id with
  | Some w => inl w
  | None => inr (wrap ("read workspace " +:+ id) NoRows)
  end.

(** [ORDER BY created_at, id]; ids are compared bytewise. *)
Definition oldest_first {A} (created : A -> Z) (id : A -> string) : relation A := fun x y =>
  created x < created y \/ created x = created y /\ String.leb (id x) (id y) = true.
#[export] Instance oldest_first_dec {A} (created : A -> Z) id : RelDecision (oldest_first created id).
Proof. intros x y. unfold oldest_first. apply _. Defined.

(* @src internal/store/workspaces.go 113-148 Store.Workspaces *)
Definition Workspaces (projectID : string) (t : Tables) : list WorkspaceRow :=
  merge_sort (oldest_first ws_CreatedAt ws_ID)
    (base.filter (fun w => String.eqb projectID EmptyString || String.eqb (ws_ProjectID w) projectID)
       (map snd (map_to_list (t_workspaces t)))).

Definition change_workspace (op id : string) (f : WorkspaceRow -> WorkspaceRow) (t : Tables) : (WorkspaceRow + GoError) * Tables :=
  match t_workspaces t !! id with
  | Some w => (inl (f w), sets_workspace (f w) t)
  | None => (inr (wrap (op +:+ id) NoRows), t)
  end.

(* @src internal/store/workspaces.go 150-167 Store.SetWorkspaceState *)
Definition SetWorkspaceState (id state containerID : string) (t : Tables) : (WorkspaceRow + GoError) * Tables :=
  change_workspace "set workspace state " id (fun w =>
    mkWorkspaceRow (ws_ID w) (ws_ProjectID w) (ws_Name w) (ws_Branch w) (ws_BaseCommit w) (ws_Image w) state
      (if String.eqb containerID EmptyString then ws_ContainerID w else containerID) (ws_ParentWorkspaceID w) (ws_WorktreeOf w)
      (ws_Sandbox w) (ws_Pinned w) (ws_Archived w) (ws_CreatedAt w)) t.

(* @src internal/store/workspaces.go 169-183 Store.SetWorkspaceSandbox *)
Definition SetWorkspaceSandbox (id : string) (sandbox : json) (t : Tables) : (WorkspaceRow + GoError) * Tables :=
  change_workspace "set sandbox of workspace " id (fun w =>
    mkWorkspaceRow (ws_ID w) (ws_ProjectID w) (ws_Name w) (ws_Branch w) (ws_BaseCommit w) (ws_Image w) (ws_State w)
      (ws_ContainerID w) (ws_ParentWorkspaceID w) (ws_WorktreeOf w) sandbox (ws_Pinned w) (ws_Archived w) (ws_CreatedAt w)) t.

(* @src internal/store/workspaces.go 185-191 WorkspaceChanges *)
Record WorkspaceChanges := mkWorkspaceChanges { wc_Name : option string; wc_Pinned : option bool; wc_Archived : option bool }.

(* @src internal/store/workspaces.go 193-208 Store.UpdateWorkspace *)
Definition UpdateWorkspace (id : string) (c : WorkspaceChanges) (t : Tables) : (WorkspaceRow + GoError) * Tables :=
  change_workspace "update workspace " id (fun w =>
    mkWorkspaceRow (ws_ID w) (ws_ProjectID w) (default (ws_Name w) (wc_Name c)) (ws_Branch w) (ws_BaseCommit w) (ws_Image w)
      (ws_State w) (ws_ContainerID w) (ws_ParentWorkspaceID w) (ws_WorktreeOf w) (ws_Sandbox w)
      (default (ws_Pinned w) (wc_Pinned c)) (default (ws_Archived w) (wc_Archived c)) (ws_CreatedAt w)) t.

(** Whether a chain of [worktree_of] leads from a workspace to [root]. *)
Fixpoint held_by (fuel : nat) (ws : gmap string WorkspaceRow) (root id : string) : bool :=
  String.eqb id root ||
  match fuel with
  | O => false
  | S fuel' =>
      match ws !! id with
      | Some w => negb (String.eqb (ws_WorktreeOf w) EmptyString) && held_by fuel' ws root (ws_WorktreeOf w)
      | None => false
      end
  end.

(** The foreign keys: worktrees, sessions, entries, and subagents go with a
    workspace; parents of what stays are forgotten. *)
(* @src internal/store/workspaces.go 210-220 Store.DeleteWorkspace *)
Definition DeleteWorkspace (id : string) (t : Tables) : option GoError * Tables :=
  match t_workspaces t !! id with
  | None => (Some (wrap ("delete workspace " +:+ id) NoRows), t)
  | Some _ =>
      let ws := t_workspaces t in
      let gone w := held_by (size ws) ws id w in
      let over s := gone (SWorkspaceID s) in
      let all := sessions (t_db t) in
      let dead sid := match all !! sid with Some s => over s | None => false end in
      let orphan s := if dead (ParentSessionID s)
        then mkDSession (SID s) (SWorkspaceID s) (Title s) (Untitled s) (SKind s) (HeadEntryID s) EmptyString
               (STools s) (ProfileID s) (Overrides s) (Pinned s) (Archived s)
        else s in
      let forgets w := if gone (ws_ParentWorkspaceID w)
        then mkWorkspaceRow (ws_ID w) (ws_ProjectID w) (ws_Name w) (ws_Branch w) (ws_BaseCommit w) (ws_Image w) (ws_State w)
               (ws_ContainerID w) EmptyString (ws_WorktreeOf w) (ws_Sandbox w) (ws_Pinned w) (ws_Archived w) (ws_CreatedAt w)
        else w in
      (None, mkTables
        (mkDB (orphan <$> base.filter (fun p => over p.2 = false) all)
              (base.filter (fun p => dead (ESession p.2) = false) (entries (t_db t))))
        (forgets <$> base.filter (fun p => gone p.1 = false) ws)
        (base.filter (fun p => dead (sb_ParentSessionID p.2) || dead (sb_ChildSessionID p.2) || gone (sb_ChildWorkspaceID p.2) = false)
           (t_subagents t)))
  end.

(** ** Subagents *)

(* @src internal/store/subagents.go 32-48 Store.StartSubagent *)
Definition StartSubagent (id : string) (now : Z) (sub : Subagent) (t : Tables) : (Subagent + GoError) * Tables :=
  let sub := mkSubagent (if String.eqb (sb_ID sub) EmptyString then id else sb_ID sub) (sb_ParentSessionID sub) (sb_ChildSessionID sub)
    (sb_ChildWorkspaceID sub) RunRunning EmptyString now None in
  let failed e := (inr (wrap ("start subagent for session " +:+ sb_ParentSessionID sub) e), t) in
  let has sid := bool_decide (is_Some (sessions (t_db t) !! sid)) in
  match t_subagents t !! sb_ID sub with
  | Some _ => failed UniqueViolation
  | None =>
      if has (sb_ParentSessionID sub) && has (sb_ChildSessionID sub) && bool_decide (is_Some (t_workspaces t !! sb_ChildWorkspaceID sub))
      then (inl sub, set_subagents (<[sb_ID sub := sub]> (t_subagents t)) t)
      else failed ForeignKeyViolation
  end.

(* @src internal/store/subagents.go 50-61 Store.FinishSubagent *)
Definition FinishSubagent (id state result : string) (now : Z) (t : Tables) : option GoError * Tables :=
  match t_subagents t !! id with
  | Some r =>
      (None, set_subagents (<[id := mkSubagent (sb_ID r) (sb_ParentSessionID r) (sb_ChildSessionID r) (sb_ChildWorkspaceID r)
                                      state result (sb_CreatedAt r) (Some now)]> (t_subagents t)) t)
  | None => (Some (wrap ("finish subagent " +:+ id) NoRows), t)
  end.

(* @src internal/store/subagents.go 63-71 Store.Subagent *)
Definition getSubagent (id : string) (t : Tables) : Subagent + GoError :=
  match t_subagents t !! id with
  | Some r => inl r
  | None => inr (wrap ("read subagent " +:+ id) NoRows)
  end.

(** A row of the child session; the ids of sessions are unique, so there is at
    most one. *)
(* @src internal/store/subagents.go 73-84 Store.SubagentOfSession *)
Definition SubagentOfSession (childSessionID : string) (t : Tables) : Subagent + GoError :=
  match List.find (fun r => String.eqb (sb_ChildSessionID r) childSessionID) (map snd (map_to_list (t_subagents t))) with
  | Some r => inl r
  | None => inr (wrap ("read subagent of session " +:+ childSessionID) NoRows)
  end.

(* @src internal/store/subagents.go 86-107 Store.Subagents *)
Definition Subagents (parentSessionID : string) (t : Tables) : list Subagent :=
  merge_sort (oldest_first sb_CreatedAt sb_ID)
    (base.filter (fun r => sb_ParentSessionID r = parentSessionID) (map snd (map_to_list (t_subagents t)))).
