(* ===== verification/Subagent.v ===== *)
(** Subagents (internal/subagent): child agents in worktrees of their parent's
    container, started within limits, driven by goroutines, waited for,
    aborted, and stopped when the harness shuts down. Each operation is a
    thread of atomic actions ([Threads]); what is outside, the database
    failing, the workspaces, git, and the runs of children, is a function of
    a step counter. *)
From S2P Require Import Prelude GoStr Json GoPath Failure Provider Entries Session Tables Threads.
From stdpp Require Import options.
Open Scope Z_scope.

(* @src internal/tool/builtin/agents.go 33-47 SpawnRequest *)
Record SpawnRequest := mkSpawnRequest {
  rq_ParentSessionID : string; rq_Name : string; rq_Task : string; rq_BranchSuffix : string; rq_Model : string;
}.

(* @src internal/tool/builtin/agents.go 49-70 AgentResult *)
Record AgentResult := mkAgentResult {
  ar_ID : string; ar_SessionID : string; ar_WorkspaceID : string; ar_Name : string; ar_Branch : string;
  ar_State : string; ar_Commit : string; ar_Summary : string; ar_DiffStat : string; ar_Error : string;
}.

Definition set_state_error state error r :=
  mkAgentResult (ar_ID r) (ar_SessionID r) (ar_WorkspaceID r) (ar_Name r) (ar_Branch r) state (ar_Commit r) (ar_Summary r) (ar_DiffStat r) error.
Definition set_error error r := set_state_error (ar_State r) error r.
Definition set_commit commit r :=
  mkAgentResult (ar_ID r) (ar_SessionID r) (ar_WorkspaceID r) (ar_Name r) (ar_Branch r) (ar_State r) commit (ar_Summary r) (ar_DiffStat r) (ar_Error r).
Definition set_diffstat stat r :=
  mkAgentResult (ar_ID r) (ar_SessionID r) (ar_WorkspaceID r) (ar_Name r) (ar_Branch r) (ar_State r) (ar_Commit r) (ar_Summary r) stat (ar_Error r).
Definition set_summary summary r :=
  mkAgentResult (ar_ID r) (ar_SessionID r) (ar_WorkspaceID r) (ar_Name r) (ar_Branch r) (ar_State r) (ar_Commit r) summary (ar_DiffStat r) (ar_Error r).

(* @src internal/tool/builtin/agents.go 72-73 AgentResult.Done *)
Definition Done (r : AgentResult) : bool := nonempty (ar_State r) && negb (String.eqb (ar_State r) "running").

(* @src internal/tool/builtin/agents.go 75-93 AgentResult.Report *)
Definition Report (r : AgentResult) : string :=
  "agent " +:+ ar_Name r +:+ " (" +:+ ar_ID r +:+ ") is " +:+ ar_State r +:+ nl +:+ "branch: " +:+ ar_Branch r +:+ nl +:+
  (if nonempty (ar_Commit r) then "commit: " +:+ ar_Commit r +:+ nl else EmptyString) +:+
  "workspace: " +:+ ar_WorkspaceID r +:+ nl +:+ "session: " +:+ ar_SessionID r +:+ nl +:+
  (if nonempty (ar_Error r) then "error: " +:+ ar_Error r +:+ nl else EmptyString) +:+
  (if nonempty (ar_Summary r) then nl +:+ "summary:" +:+ nl +:+ trim_space (ar_Summary r) +:+ nl else EmptyString) +:+
  (if nonempty (ar_DiffStat r) then nl +:+ "changes:" +:+ nl +:+ trim_space (ar_DiffStat r) +:+ nl else EmptyString).

(** [json.Marshal] of a result. *)
Definition encodeResult (r : AgentResult) : string :=
  let text k v := member k (quote v) in
  let opt k v := opt_member (nonempty v) k (quote v) in
  obj ([text "id" (ar_ID r); text "session_id" (ar_SessionID r); text "workspace_id" (ar_WorkspaceID r);
        text "name" (ar_Name r); text "branch" (ar_Branch r); text "state" (ar_State r)] ++
       opt "commit" (ar_Commit r) ++ opt "summary" (ar_Summary r) ++ opt "diff_stat" (ar_DiffStat r) ++ opt "error" (ar_Error r)).

(** The last member of a name, [null] leaving what was there. *)
Fixpoint member_text (key : string) (ps : list (string * string)) (v : string) : option string :=
  match ps with
  | [] => Some v
  | (k, raw) :: ps' =>
      if negb (String.eqb k key) || String.eqb raw "null" then member_text key ps' v
      else match unquote raw with Some v' => member_text key ps' v' | None => None end
  end.

(* @src internal/subagent/spawn.go 521-528 decodeResult *)
Definition decodeResult (raw : string) : option AgentResult :=
  if negb (json_valid raw) then None
  else
    ps ← object_pairs raw;
    let get k := member_text k ps EmptyString in
    id ← get "id"; sid ← get "session_id"; wid ← get "workspace_id"; name ← get "name"; branch ← get "branch";
    state ← get "state"; commit ← get "commit"; summary ← get "summary"; stat ← get "diff_stat"; error ← get "error";
    Some (mkAgentResult id sid wid name branch state commit summary stat error).

(** ** Names and reports *)

(* @src internal/subagent/subagent.go 27-46 ErrBadName *)
Definition ErrBadName : GoError := ErrSentinel "invalid subagent name".
Definition ErrTooDeep : GoError := ErrSentinel "subagent tree is too deep".
Definition ErrTooMany : GoError := ErrSentinel "too many subagents are already running".
Definition ErrNoRunner : GoError := ErrSentinel "no runner is attached".
Definition ErrNotChild : GoError := ErrSentinel "not a child of this session".
Definition ErrStopped : GoError := ErrSentinel "the harness is shutting down".

Definition alnum (b : Z) : bool := (48 <=? b) && (b <=? 57) || (65 <=? b) && (b <=? 90) || (97 <=? b) && (b <=? 122).

(** [^[A-Za-z0-9][A-Za-z0-9_-]{0,39}$]. *)
(* @src internal/subagent/subagent.go 21-25 namePattern *)
Definition namePattern (s : string) : bool :=
  match bytes_of s with
  | [] => false
  | b :: l => alnum b && forallb (fun b => alnum b || (b =? 95) || (b =? 45)) l && (length l <=? 39)%nat
  end.

(* @src internal/subagent/subagent.go 333-339 checkName *)
Definition checkName (candidate : string) : option GoError :=
  if namePattern candidate then None else Some (ErrSuffix ErrBadName (go_quote candidate)).

(* @src internal/subagent/subagent.go 341-344 branchTag *)
Definition branchTag : nat := 6.

(* @src internal/subagent/subagent.go 346-358 childBranch *)
Definition childBranch (parentBranch suffix id : string) : string :=
  let name := suffix +:+ "-" +:+ str_take branchTag id in
  if String.eqb parentBranch EmptyString then name else parentBranch +:+ "-" +:+ name.

(* @src internal/subagent/subagent.go 360-368 describe *)
Definition describe (r : AgentResult) : string :=
  if nonempty (ar_DiffStat r)
  then "the child ended " +:+ ar_State r +:+ " without a closing message; it changed:" +:+ nl +:+ ar_DiffStat r
  else "the child ended " +:+ ar_State r +:+ " without a closing message and changed nothing".

(** [respell] is how the database spells the parts of a document that are
    text. *)
(* @src internal/subagent/subagent.go 370-383 summaryOf *)
Definition summaryOf (respell : string -> string) (entries : list Entry) : string :=
  let closing e := match entry_message respell e with
    | inl (Some m) => if String.eqb (MRole m) RoleAssistant && nonempty (trim_space (Content m)) then Some (trim_space (Content m)) else None
    | _ => None
    end in
  default EmptyString (head (omap closing (rev entries))).

(* @src internal/subagent/spawn.go 567-573 join *)
Definition join_errors (existing message : string) : string :=
  if String.eqb existing EmptyString then message else existing +:+ "; " +:+ message.

(** ** The spawner's state *)

(* @src internal/subagent/subagent.go 95-102 Limits *)
Record Limits := mkLimits { MaxDepth : Z; MaxChildren : Z }.

(** [c_closed] is how often the channel [done] was closed. *)
(* @src internal/subagent/spawn.go 29-44 child *)
Record child := mkChild {
  c_id : string;
  c_parentSessionID : string;
  c_name : string;
  c_cancelled : bool;
  c_closed : nat;
  c_result : AgentResult;
  c_aborted : bool;
}.

Definition set_cancelled (c : child) := mkChild (c_id c) (c_parentSessionID c) (c_name c) true (c_closed c) (c_result c) (c_aborted c).
Definition set_closed (c : child) := mkChild (c_id c) (c_parentSessionID c) (c_name c) (c_cancelled c) (S (c_closed c)) (c_result c) (c_aborted c).
Definition set_result r (c : child) := mkChild (c_id c) (c_parentSessionID c) (c_name c) (c_cancelled c) (c_closed c) r (c_aborted c).
Definition set_aborted (c : child) := mkChild (c_id c) (c_parentSessionID c) (c_name c) (c_cancelled c) (c_closed c) (c_result c) true.

(* @src internal/event/payload.go 322-362 SubagentStarted *)
Inductive SubagentEvent : Type :=
| SubagentStarted (SubagentID ParentSessionID ChildSessionID ChildWorkspaceID Name Branch BaseCommit Task : string)
| SubagentFinished (ParentSessionID : string) (result : AgentResult).

(** Children are shared objects, known by their addresses. [sp_running] are
    those whose session the runner is driving, [sp_worktrees] the worktrees
    there are. *)
(* @src internal/subagent/subagent.go 104-117 Spawner *)
Record SpawnState := mkSpawn {
  sp_tick : nat;
  sp_stopped : bool;
  sp_children : gmap string nat;
  sp_heap : gmap nat child;
  sp_running : gset nat;
  sp_tables : Tables;
  sp_worktrees : gset string;
  sp_events : list SubagentEvent;
}.

(* @src internal/subagent/subagent.go 119-128 New *)
Definition NewSpawner (tables : Tables) (worktrees : gset string) : SpawnState := mkSpawn 0 false ∅ ∅ ∅ tables worktrees [].

Definition tick s := mkSpawn (S (sp_tick s)) (sp_stopped s) (sp_children s) (sp_heap s) (sp_running s) (sp_tables s) (sp_worktrees s) (sp_events s).
Definition set_stopped s := mkSpawn (sp_tick s) true (sp_children s) (sp_heap s) (sp_running s) (sp_tables s) (sp_worktrees s) (sp_events s).
Definition set_children x s := mkSpawn (sp_tick s) (sp_stopped s) x (sp_heap s) (sp_running s) (sp_tables s) (sp_worktrees s) (sp_events s).
Definition set_heap x s := mkSpawn (sp_tick s) (sp_stopped s) (sp_children s) x (sp_running s) (sp_tables s) (sp_worktrees s) (sp_events s).
Definition set_running x s := mkSpawn (sp_tick s) (sp_stopped s) (sp_children s) (sp_heap s) x (sp_tables s) (sp_worktrees s) (sp_events s).
Definition set_tables x s := mkSpawn (sp_tick s) (sp_stopped s) (sp_children s) (sp_heap s) (sp_running s) x (sp_worktrees s) (sp_events s).
Definition set_worktrees x s := mkSpawn (sp_tick s) (sp_stopped s) (sp_children s) (sp_heap s) (sp_running s) (sp_tables s) x (sp_events s).
Definition add_event e s := mkSpawn (sp_tick s) (sp_stopped s) (sp_children s) (sp_heap s) (sp_running s) (sp_tables s) (sp_worktrees s) (sp_events s ++ [e]).
Definition at_child (p : nat) (f : child -> child) (s : SpawnState) : SpawnState := set_heap (alter f p (sp_heap s)) s.

(** A workspace's container, or a directory in it, as the host reports it; it
    also names the executor there. *)
Record Host := mkHost { h_ID : string; h_ContainerID : string; h_State : string; h_Dir : string }.
Definition at_dir dir h := mkHost (h_ID h) (h_ContainerID h) (h_State h) dir.

(** What is around the spawner. [e_fails] says whether the database can be
    reached; [e_run] is what driving a child's session comes to. *)
Record SpawnEnv := mkSpawnEnv {
  e_runner : bool;
  e_limits : nat -> Limits;
  e_newID : nat -> string;
  e_now : nat -> Z;
  e_fails : nat -> option GoError;
  e_cancelled : nat -> option GoError;
  e_project : nat -> string -> string + GoError;
  e_inspect : nat -> string -> Host + GoError;
  e_executor : nat -> Host -> option GoError;
  e_exec : nat -> Host -> list string -> (Z * string * string) + GoError;
  e_write : nat -> Host -> string -> option GoError;
  e_stat : nat -> Host -> string -> option GoError;
  e_push : nat -> Host -> string -> string -> option GoError;
  e_run : nat -> string -> string -> string -> option GoError;
}.

Section spawner.
Context (E : SpawnEnv) (respell : string -> string).
Abbreviation P := (prog SpawnState).

(** ** Actions *)

Definition step {A} (f : SpawnState -> A * SpawnState) : P A := act (fun s => f (tick s)).
Definition ask {A} (f : nat -> A) : P A := step (fun s => (f (sp_tick s), s)).

(** A transaction, when the database can be reached. *)
Definition store {A} (f : nat -> Tables -> (A + GoError) * Tables) : P (A + GoError) :=
  step (fun s => match e_fails E (sp_tick s) with
                 | Some e => (inr e, s)
                 | None => let '(r, t) := f (sp_tick s) (sp_tables s) in (r, set_tables t s)
                 end).
Definition load {A} (f : Tables -> A + GoError) : P (A + GoError) := store (fun _ t => (f t, t)).
(** A statement that returns nothing. *)
Definition exec {A} (r : option GoError * A) : (unit + GoError) * A :=
  (match r.1 with None => inl tt | Some e => inr e end, r.2).

Definition try {A B} (m : P (A + GoError)) (f : A -> P (B + GoError)) : P (B + GoError) :=
  r ← m; match r with inl a => f a | inr e => mret (inr e) end.
Notation "x '<-?' m ; k" := (try m (fun x => k)) (at level 20, m at level 100, k at level 200, only parsing).
Definition check (e : option GoError) : P (unit + GoError) := mret (match e with None => inl tt | Some e => inr e end).

(** Reading and changing a child under its lock. *)
Definition of_child {A} (p : nat) (d : A) (f : child -> A) : P A :=
  step (fun s => (match sp_heap s !! p with Some c => f c | None => d end, s)).
Definition change_child (p : nat) (f : child -> child) : P unit := step (fun s => (tt, at_child p f s)).

Definition no_result : AgentResult :=
  mkAgentResult EmptyString EmptyString EmptyString EmptyString EmptyString EmptyString EmptyString EmptyString EmptyString EmptyString.

(* @src internal/subagent/spawn.go 46-51 child.snapshot *)
Definition snapshot (p : nat) : P AgentResult := of_child p no_result c_result.
(* @src internal/subagent/spawn.go 53-58 child.begin *)
Definition begin (p : nat) (result : AgentResult) : P unit := change_child p (set_result result).
(* @src internal/subagent/spawn.go 60-65 child.update *)
Definition update (p : nat) (result : AgentResult) : P unit := change_child p (set_result result).
(* @src internal/subagent/spawn.go 67-73 child.abort *)
Definition abort (p : nat) : P unit :=
  _ ← change_child p set_aborted;
  change_child p set_cancelled.
(* @src internal/subagent/spawn.go 75-80 child.wasAborted *)
Definition wasAborted (p : nat) : P bool := of_child p false c_aborted.

(* @src internal/subagent/spawn.go 510-519 Spawner.emit *)
Definition emit (e : SubagentEvent) : P unit := step (fun s => (tt, add_event e s)).

(** ** Git in a workspace *)

Definition git_result (args : list string) (r : (Z * string * string) + GoError) : string + GoError :=
  let op := "run git " +:+ default EmptyString (head args) in
  match r with
  | inr e => inr (ErrWrap op e)
  | inl (0, out, _) => inl (trim_space out)
  | inl (code, _, err) => inr (ErrText (op +:+ ": exit " +:+ itoa code +:+ ": " +:+ trim_space err))
  end.

(** [done_] is what a command that succeeds does to the worktrees. *)
Definition git_does (done_ : SpawnState -> SpawnState) (h : Host) (args : list string) : P (string + GoError) :=
  step (fun s => let r := git_result args (e_exec E (sp_tick s) h args) in
                 (r, match r with inl _ => done_ s | inr _ => s end)).
(* @src internal/subagent/spawn.go 548-565 git *)
Definition git (h : Host) (args : list string) : P (string + GoError) := git_does id h args.

(* @src internal/subagent/spawn.go 530-546 commitAll *)
Definition commitAll (h : Host) (message : string) : P (bool + GoError) :=
  status <-? git h ["status"; "--porcelain"];
  if String.eqb (trim_space status) EmptyString then mret (inl false)
  else
    _ <-? git h ["add"; "-A"];
    _ <-? git h ["commit"; "-m"; message];
    mret (inl true).

(* @src internal/workspace/worktree.go 12-16 worktreesDir *)
Definition worktreesDir : string := ".eika/worktrees".
(* @src internal/workspace/worktree.go 18-20 WorktreeDir *)
Definition WorktreeDir (id : string) : string := GoPath.Join [worktreesDir; id].

Definition ErrBadBranch : GoError := ErrSentinel "invalid branch name".

(* @src internal/workspace/worktree.go 22-38 Locate *)
Definition Locate (id worktreeOf : string) : P (Host + GoError) :=
  if String.eqb worktreeOf EmptyString then ask (fun t => e_inspect E t id)
  else
    holder <-? ask (fun t => e_inspect E t worktreeOf);
    mret (inl (at_dir (WorktreeDir id) holder)).

(* @src internal/workspace/clone.go 221-234 CheckBranch *)
Definition CheckBranch (h : Host) (branch : string) : P (unit + GoError) :=
  let bad := ErrSuffix ErrBadBranch (go_quote branch) in
  if String.eqb branch EmptyString then mret (inl tt)
  else if has_prefix branch "-" then mret (inr bad)
  else
    r ← git h ["check-ref-format"; "refs/heads/" +:+ branch];
    mret (match r with inl _ => inl tt | inr _ => inr bad end).

(* @src internal/workspace/worktree.go 40-67 AddWorktree *)
Definition AddWorktree (h : Host) (id branch commit : string) : P (unit + GoError) :=
  let op := "add worktree for workspace " +:+ id in
  if String.eqb commit EmptyString then mret (inr (ErrText (op +:+ ": no commit to start from")))
  else if String.eqb branch EmptyString then mret (inr (ErrSuffix ErrBadBranch "a worktree needs a branch of its own"))
  else
    _ <-? CheckBranch h branch;
    w ← ask (fun t => e_write E t h (GoPath.Join [worktreesDir; ".gitignore"]));
    match w with
    | Some e => mret (inr (ErrWrap op e))
    | None =>
        r ← git_does (fun s => set_worktrees ({[id]} ∪ sp_worktrees s) s) h
              ["-c"; "worktree.useRelativePaths=true"; "worktree"; "add"; "-b"; branch; WorktreeDir id; commit];
        mret (match r with inl _ => inl tt | inr e => inr (ErrWrap op e) end)
    end.

Definition FileNotFound : string := "file does not exist".

(* @src internal/workspace/worktree.go 69-86 RemoveWorktree *)
Definition RemoveWorktree (h : Host) (id : string) : P (unit + GoError) :=
  let op := "remove worktree of workspace " +:+ id in
  let gone s := set_worktrees (sp_worktrees s ∖ {[id]}) s in
  r ← git_does gone h ["worktree"; "remove"; "--force"; WorktreeDir id];
  match r with
  | inl _ => mret (inl tt)
  | inr err =>
      st ← ask (fun t => e_stat E t h (WorktreeDir id));
      if negb (match st with Some e => is_sentinel FileNotFound e | None => false end) then mret (inr (ErrWrap op err))
      else
        r ← git_does gone h ["worktree"; "prune"];
        mret (match r with inl _ => inl tt | inr e => inr (ErrWrap op e) end)
  end.

(** ** Starting a child *)

(* @src internal/subagent/subagent.go 130-137 Spawner.limits *)
Definition limits : P Limits :=
  l ← ask (e_limits E);
  mret (mkLimits (Z.max (MaxDepth l) 1) (Z.max (MaxChildren l) 1)).

(** [fuel] rows are read before the depth is past any limit. *)
Fixpoint depth_from (fuel : nat) (depth : Z) (id : string) : P (Z + GoError) :=
  match fuel with
  | O => mret (inl depth)
  | S fuel' =>
      r ← load (SubagentOfSession id);
      match r with
      | inr err => if is_sentinel "not found" err then mret (inl depth) else mret (inr err)
      | inl row => depth_from fuel' (depth + 1) (sb_ParentSessionID row)
      end
  end.

(* @src internal/subagent/spawn.go 476-492 Spawner.depthOf *)
Definition depthOf (sessionID : string) (maxDepth : Z) : P (Z + GoError) := depth_from (Z.to_nat (maxDepth + 1)) 0 sessionID.

(* @src internal/subagent/spawn.go 494-508 Spawner.recordedChildren *)
Definition recordedChildren (parentSessionID : string) : P (Z + GoError) :=
  rows <-? load (fun t => inl (Subagents parentSessionID t));
  mret (inl (Z.of_nat (length (base.filter (fun r => sb_State r = RunRunning) rows)))).

(** The children of a session that are going, reservations included. *)
Definition live (parentSessionID : string) (s : SpawnState) : list nat :=
  base.filter (fun p => c_parentSessionID <$> sp_heap s !! p = Some parentSessionID) (map snd (map_to_list (sp_children s))).

(** The part of [reserve] under the lock: a new child, or why not. *)
(* @src internal/subagent/spawn.go 226-254 Spawner.reserve *)
Definition claim (limits : Limits) (recorded : Z) (parentSessionID id name : string) (s : SpawnState)
    : (nat + GoError) * SpawnState :=
  if sp_stopped s then (inr ErrStopped, s)
  else if MaxChildren limits <=? Z.max recorded (Z.of_nat (length (live parentSessionID s)))
  then (inr (ErrSuffix ErrTooMany (itoa (MaxChildren limits) +:+ " at a time are allowed")), s)
  else
    let p := fresh (dom (sp_heap s)) in
    let r := mkAgentResult id EmptyString EmptyString name EmptyString RunRunning EmptyString EmptyString EmptyString EmptyString in
    (inl p, set_children (<[id := p]> (sp_children s))
              (set_heap (<[p := mkChild id parentSessionID name false 0 r false]> (sp_heap s)) s)).

(* @src internal/subagent/spawn.go 202-255 Spawner.reserve *)
Definition reserve (parentSessionID id name : string) : P (nat + GoError) :=
  l ← limits;
  depth <-? depthOf parentSessionID (MaxDepth l);
  if MaxDepth l <? depth + 1
  then mret (inr (ErrSuffix ErrTooDeep (itoa (MaxDepth l) +:+ " levels are allowed")))
  else
    recorded <-? recordedChildren parentSessionID;
    step (claim l recorded parentSessionID id name).

(** What [forget] does under the lock. *)
Definition drop_child (p : nat) (s : SpawnState) : SpawnState :=
  match sp_heap s !! p with
  | Some c => if bool_decide (sp_children s !! c_id c = Some p) then set_children (base.delete (c_id c) (sp_children s)) s else s
  | None => s
  end.
(* @src internal/subagent/spawn.go 265-272 Spawner.forget *)
Definition forget (p : nat) : P unit := step (fun s => (tt, drop_child p s)).

(* @src internal/subagent/spawn.go 257-263 Spawner.release *)
Definition release (p : nat) : P unit :=
  _ ← forget p;
  _ ← change_child p set_cancelled;
  change_child p set_closed.

(* @src internal/subagent/spawn.go 385-402 Spawner.handOver *)
Definition handOver (parent : Host) (name : string) : P (string + GoError) :=
  ex ← ask (fun t => e_executor E t parent);
  _ <-? check ex;
  _ <-? commitAll parent ("wip: before spawning " +:+ name);
  head ← git parent ["rev-parse"; "HEAD"];
  mret (match head with inl h => inl h | inr err => inr (ErrWrap "read the parent workspace's commit" err) end).

(* @src internal/subagent/spawn.go 444-450 Spawner.holderExecutor *)
Definition holderExecutor (host : Host) : P (Host + GoError) :=
  let h := at_dir EmptyString host in
  ex ← ask (fun t => e_executor E t h);
  mret (match ex with None => inl h | Some err => inr err end).

(* @src internal/subagent/spawn.go 465-474 Spawner.removeWorktree *)
Definition removeWorktree (h : Host) (id : string) : P unit :=
  _ ← RemoveWorktree h id;
  mret tt.

(* @src internal/subagent/spawn.go 452-463 Spawner.discard *)
Definition discard (parentHost : Host) (id : string) : P unit :=
  ex ← holderExecutor parentHost;
  _ ← (match ex with inl h => removeWorktree h id | inr _ => mret tt end);
  _ ← store (fun _ t => exec (DeleteWorkspace id t));
  mret tt.

(* @src internal/subagent/spawn.go 404-442 Spawner.addChild *)
Definition addChild (parent : WorkspaceRow) (parentHost : Host) (name branch base : string) : P (WorkspaceRow + GoError) :=
  let holderID := if String.eqb (ws_WorktreeOf parent) EmptyString then ws_ID parent else ws_WorktreeOf parent in
  ex <-? holderExecutor parentHost;
  id ← ask (e_newID E);
  _ <-? AddWorktree ex id branch base;
  r ← store (fun t => CreateWorkspace EmptyString (e_now E t)
        (mkWorkspaceRow id (ws_ProjectID parent) name branch base (ws_Image parent) (h_State parentHost) (h_ContainerID parentHost)
           (ws_ID parent) holderID JNull false false 0));
  match r with
  | inl w => mret (inl w)
  | inr err => _ ← removeWorktree ex id; mret (inr err)
  end.

(** Everything between the reservation and the run: the child's workspace,
    session, and row, or the failure that ends it. *)
(* @src internal/subagent/spawn.go 134-171 Spawner.start *)
Definition build (id : string) (req : SpawnRequest) (parent : DSession) (parentWS : WorkspaceRow) (branch : string)
    : P ((string * WorkspaceRow * DSession) + GoError) :=
  parentHost <-? Locate (ws_ID parentWS) (ws_WorktreeOf parentWS);
  base <-? handOver parentHost (rq_Name req);
  childWS <-? addChild parentWS parentHost (rq_Name req) branch base;
  sid ← ask (e_newID E);
  sess ← store (fun _ t =>
    let '(r, db) := createSession sid (mkDSession EmptyString (ws_ID childWS) (rq_Name req) false SessionAgent EmptyString (SID parent) None
                      (ProfileID parent) (Overrides parent) false false) (t_db t) in
    (match r with inl x => inl x | inr err => inr (wrap "create session" err) end, set_db db t));
  match sess with
  | inr err => _ ← discard parentHost (ws_ID childWS); mret (inr err)
  | inl sess =>
      row ← store (fun t => StartSubagent EmptyString (e_now E t)
              (mkSubagent id (SID parent) (SID sess) (ws_ID childWS) EmptyString EmptyString 0 None));
      match row with
      | inr err => _ ← discard parentHost (ws_ID childWS); mret (inr err)
      | inl _ => mret (inl (base, childWS, sess))
      end
  end.

(** ** A child's run *)

(* @src internal/subagent/spawn.go 341-383 Spawner.keepWork *)
Definition keepWork (result : AgentResult) (base project : string) : P AgentResult :=
  let failed err r := set_error (join_errors (ar_Error r) (error_text err)) r in
  row ← load (getWorkspace (ar_WorkspaceID result));
  match row with
  | inr err => mret (failed err result)
  | inl row =>
      host ← Locate (ws_ID row) (ws_WorktreeOf row);
      match host with
      | inr err => mret (failed err result)
      | inl host =>
          ex ← ask (fun t => e_executor E t host);
          match ex with
          | Some err => mret (failed err result)
          | None =>
              c ← commitAll host ("wip: subagent " +:+ ar_Name result +:+ " finished");
              let result := match c with inl _ => result | inr err => failed err result end in
              head ← git host ["rev-parse"; "HEAD"];
              let result := match head with inl h => set_commit h result | inr _ => result end in
              pushed ← (if nonempty (ar_Commit result) then ask (fun t => e_push E t host project (ar_Branch result)) else mret None);
              let result := match pushed with Some err => failed err result | None => result end in
              if nonempty base && nonempty (ar_Commit result) && negb (String.eqb base (ar_Commit result)) then
                stat ← git host ["diff"; "--stat"; base; ar_Commit result];
                mret (match stat with inl s => set_diffstat s result | inr _ => result end)
              else mret result
          end
      end
  end.

(* @src internal/subagent/spawn.go 325-339 Spawner.report *)
Definition report (result : AgentResult) (base project : string) : P AgentResult :=
  result ← keepWork result base project;
  entries ← load (fun t => SessionPath (ar_SessionID result) (t_db t));
  let result := match entries with
    | inr err => set_error (join_errors (ar_Error result) (error_text err)) result
    | inl es => set_summary (summaryOf respell es) result
    end in
  mret (if nonempty (ar_Summary result) then result else set_summary (describe result) result).

(** The runner drives the child's session from the first action to the
    second, and other goroutines take their turns between them. *)
Definition RunChild (p : nat) (sessionID message model : string) : P (option GoError) :=
  _ ← step (fun s => (tt, set_running ({[p]} ∪ sp_running s) s));
  step (fun s => (e_run E (sp_tick s) sessionID message model, set_running (sp_running s ∖ {[p]}) s)).

Definition ended (runErr : option GoError) (aborted : bool) : string * string :=
  match runErr with
  | None => (RunDone, EmptyString)
  | Some err => (if aborted then RunAborted else RunError, error_text err)
  end.

(* @src internal/subagent/spawn.go 274-323 Spawner.run *)
Definition run (p : nat) (id parentSessionID : string) (req : SpawnRequest) (base project : string) : P unit :=
  result ← snapshot p;
  runErr ← RunChild p (ar_SessionID result) (rq_Task req) (rq_Model req);
  aborted ← (match runErr with Some _ => wasAborted p | None => mret false end);
  let '(state, message) := ended runErr aborted in
  result ← report (set_state_error state message result) base project;
  _ ← update p result;
  _ ← store (fun t tb => exec (FinishSubagent id state (encodeResult result) (e_now E t) tb));
  _ ← forget p;
  _ ← emit (SubagentFinished parentSessionID result);
  _ ← change_child p set_cancelled;
  change_child p set_closed.

(* @src internal/subagent/spawn.go 82-200 Spawner.start *)
Definition start (req : SpawnRequest) : P (nat + GoError) :=
  if negb (e_runner E) then mret (inr ErrNoRunner)
  else
    _ <-? check (checkName (rq_Name req));
    let suffix := if String.eqb (rq_BranchSuffix req) EmptyString then rq_Name req else rq_BranchSuffix req in
    _ <-? check (checkName suffix);
    if String.eqb (trim_space (rq_Task req)) EmptyString
    then mret (inr (ErrText ("spawn subagent " +:+ rq_Name req +:+ ": task is empty")))
    else
      parent <-? load (fun t => getSession (rq_ParentSessionID req) (t_db t));
      parentWS <-? load (getWorkspace (SWorkspaceID parent));
      project <-? ask (fun t => e_project E t (ws_ProjectID parentWS));
      id ← ask (e_newID E);
      p <-? reserve (SID parent) id (rq_Name req);
      let branch := childBranch (ws_Branch parentWS) suffix id in
      built ← build id req parent parentWS branch;
      match built with
      | inr err => _ ← release p; mret (inr err)
      | inl (base, childWS, sess) =>
          _ ← begin p (mkAgentResult id (SID sess) (ws_ID childWS) (rq_Name req) branch RunRunning
                         EmptyString EmptyString EmptyString EmptyString);
          _ ← emit (SubagentStarted id (SID parent) (SID sess) (ws_ID childWS) (rq_Name req) branch base (rq_Task req));
          _ ← go (run p id (SID parent) req base project);
          mret (inl p)
      end.

(** ** Waiting and stopping *)

(** The end of a child, or of the caller's patience. *)
Definition wait_done (p : nat) : P (unit + GoError) :=
  await (fun s => match e_cancelled E (S (sp_tick s)) with
                  | Some err => Some (inr err, tick s)
                  | None => if (0 <? default O (c_closed <$> sp_heap s !! p))%nat then Some (inl tt, tick s) else None
                  end).

(* @src internal/subagent/subagent.go 266-274 Spawner.await *)
Definition await_child (p : nat) : P (AgentResult + GoError) :=
  _ <-? wait_done p;
  r ← snapshot p;
  mret (inl r).

(* @src internal/subagent/subagent.go 149-158 Spawner.Spawn *)
Definition Spawn (req : SpawnRequest) : P (AgentResult + GoError) :=
  p <-? start req;
  await_child p.

(* @src internal/subagent/subagent.go 160-168 Spawner.Start *)
Definition Start (req : SpawnRequest) : P (AgentResult + GoError) :=
  p <-? start req;
  r ← snapshot p;
  mret (inl r).

Definition child_at (id : string) : P (option nat) := step (fun s => (sp_children s !! id, s)).

(* @src internal/subagent/subagent.go 298-324 Spawner.resultOf *)
Definition resultOf (row : Subagent) : P AgentResult :=
  c ← child_at (sb_ID row);
  match c with
  | Some p => snapshot p
  | None =>
      let result := mkAgentResult (sb_ID row) (sb_ChildSessionID row) (sb_ChildWorkspaceID row) EmptyString EmptyString (sb_State row)
        EmptyString EmptyString EmptyString EmptyString in
      mret (if String.eqb (sb_Result row) EmptyString then result
            else match decodeResult (sb_Result row) with
                 | Some st => mkAgentResult (sb_ID row) (sb_ChildSessionID row) (sb_ChildWorkspaceID row) (ar_Name st) (ar_Branch st)
                                (sb_State row) (ar_Commit st) (ar_Summary st) (ar_DiffStat st) (ar_Error st)
                 | None => set_error (sb_Result row) result
                 end)
  end.

(* @src internal/subagent/subagent.go 276-296 Spawner.waitOne *)
Definition waitOne (parentSessionID id : string) : P (AgentResult + GoError) :=
  let not_child := ErrWrap ("wait for subagent " +:+ id) ErrNotChild in
  c ← child_at id;
  match c with
  | Some p =>
      parent ← of_child p EmptyString c_parentSessionID;
      if negb (String.eqb parent parentSessionID) then mret (inr not_child) else await_child p
  | None =>
      row <-? load (getSubagent id);
      if negb (String.eqb (sb_ParentSessionID row) parentSessionID) then mret (inr not_child)
      else r ← resultOf row; mret (inl r)
  end.

(* @src internal/subagent/subagent.go 170-183 Spawner.Wait *)
Fixpoint Wait (parentSessionID : string) (ids : list string) : P (list AgentResult + GoError) :=
  match ids with
  | [] => mret (inl [])
  | id :: ids' =>
      result <-? waitOne parentSessionID id;
      out <-? Wait parentSessionID ids';
      mret (inl (result :: out))
  end.

Fixpoint results_of (rows : list Subagent) : P (list AgentResult) :=
  match rows with
  | [] => mret []
  | row :: rows' => r ← resultOf row; out ← results_of rows'; mret (r :: out)
  end.

(* @src internal/subagent/subagent.go 185-196 Spawner.List *)
Definition List (parentSessionID : string) : P (list AgentResult + GoError) :=
  rows <-? load (fun t => inl (Subagents parentSessionID t));
  out ← results_of rows;
  mret (inl out).

(* @src internal/subagent/subagent.go 198-222 Spawner.Abort *)
Definition Abort (id : string) : P (unit + GoError) :=
  c ← child_at id;
  match c with
  | None =>
      row <-? load (getSubagent id);
      if negb (String.eqb (sb_State row) RunRunning)
      then mret (inr (ErrText ("abort subagent " +:+ id +:+ ": it is already " +:+ sb_State row)))
      else store (fun t tb => exec (FinishSubagent id RunAborted EmptyString (e_now E t) tb))
  | Some p =>
      _ ← abort p;
      wait_done p
  end.

Fixpoint abort_all (ps : list nat) : P unit :=
  match ps with [] => mret tt | p :: ps' => _ ← abort p; abort_all ps' end.

(* @src internal/subagent/subagent.go 224-239 Spawner.AbortChildren *)
Definition AbortChildren (parentSessionID : string) : P unit :=
  stopping ← step (fun s => (live parentSessionID s, s));
  abort_all stopping.

(** Whether every child was done in time. *)
Fixpoint wait_all (ps : list nat) : P bool :=
  match ps with
  | [] => mret true
  | p :: ps' => r ← wait_done p; match r with inl _ => wait_all ps' | inr _ => mret false end
  end.

(* @src internal/subagent/subagent.go 241-264 Spawner.Shutdown *)
Definition Shutdown : P bool :=
  stopping ← step (fun s => (map snd (map_to_list (sp_children s)), set_stopped s));
  _ ← abort_all stopping;
  wait_all stopping.
End spawner.
