(* ===== verification/SubagentClaims.v ===== *)
(** What the spawner of subagents promises, however the requests to it and
    the runs of the children interleave: its invariants and the claims. *)
From S2P Require Import Prelude GoStr Json Provider Failure Entries Session Threads Tables Subagent.
From stdpp Require Import options.
Open Scope Z_scope.

#[local] Set Default Proof Using "All".

Section spec.
Context (E : SpawnEnv) (respell : string -> string) (N : Z).
Context (Hids : forall t t', e_newID E t = e_newID E t' -> t = t').
Context (HN : 1 <= N) (Hlimits : forall t, MaxChildren (e_limits E t) <= N).

(** What limits and shutting down are about: of a child its id, its parent,
    and how often [done] was closed. *)
Definition shape (c : child) : string * string * nat := (c_id c, c_parentSessionID c, c_closed c).
Definition shapes (s : SpawnState) : gmap nat (string * string * nat) := shape <$> sp_heap s.
Definition core (s : SpawnState) := (sp_stopped s, sp_children s, shapes s, sp_running s).

(** [live] from the core. *)
Definition live_core (parent : string) (children : gmap string nat) (sh : gmap nat (string * string * nat)) : list nat :=
  base.filter (fun p => (fun x => x.1.2) <$> sh !! p = Some parent) (map snd (map_to_list children)).

Lemma live_shapes parent s : live parent s = live_core parent (sp_children s) (shapes s).
Proof.
  unfold live, live_core. apply list_filter_iff. intros p. unfold shapes. rewrite lookup_fmap.
  by destruct (sp_heap s !! p).
Qed.

Record Inv (s : SpawnState) : Prop := {
  inv_ids : forall p sh, shapes s !! p = Some sh -> exists t, (t <= sp_tick s)%nat /\ sh.1.1 = e_newID E t;
  inv_children : forall id p, sp_children s !! id = Some p -> exists par, shapes s !! p = Some (id, par, O);
  inv_running : forall p, p ∈ sp_running s -> exists id par, shapes s !! p = Some (id, par, O) /\ sp_children s !! id = Some p;
  inv_closed : forall p sh, shapes s !! p = Some sh -> (sh.2 <= 1)%nat;
  inv_bound : forall parent, Z.of_nat (length (live parent s)) <= N;
}.

(** What may happen: time passes, a harness that stops stays stopped and
    takes no more children, and nothing is opened again. *)
Definition Guard (s s' : SpawnState) : Prop :=
  (sp_tick s <= sp_tick s')%nat /\
  (sp_stopped s = true -> sp_stopped s' = true /\ sp_children s' ⊆ sp_children s) /\
  (forall p sh, shapes s !! p = Some sh -> exists sh', shapes s' !! p = Some sh' /\ sh'.1 = sh.1 /\ (sh.2 <= sh'.2)%nat).

(** The child with the id of a moment, which its starter owns. *)
Definition mine (t : nat) (s : SpawnState) : gmap nat (string * string * nat) :=
  base.filter (fun x => x.2.1.1 = e_newID E t) (shapes s).
Definition view (t : nat) (s : SpawnState) : option (gmap nat (string * string * nat) * option nat * gset nat) :=
  if (t <=? sp_tick s)%nat
  then Some (mine t s, sp_children s !! e_newID E t, base.filter (fun p => is_Some (mine t s !! p)) (sp_running s))
  else None.

Lemma core_live parent s s' : core s' = core s -> live parent s' = live parent s.
Proof. intros [= _ H2 H3 _]. by rewrite !live_shapes, H2, H3. Qed.

Lemma Inv_core s s' : core s' = core s -> (sp_tick s <= sp_tick s')%nat -> Inv s -> Inv s'.
Proof.
  intros Hc Ht [H1 H2 H3 H4 H5]. pose proof Hc as [= E1 E2 E3 E4]. split.
  - rewrite E3. intros p sh Hp. destruct (H1 p sh Hp) as (t & Hlt & ?). exists t. split; [lia|done].
  - by rewrite E2, E3.
  - by rewrite E2, E3, E4.
  - by rewrite E3.
  - intros parent. by rewrite (core_live parent s s' Hc).
Qed.

Lemma Guard_core s s' : core s' = core s -> (sp_tick s <= sp_tick s')%nat -> Guard s s'.
Proof.
  intros [= E1 E2 E3 E4] Ht. split; [done|]. split; [by rewrite E1, E2|]. rewrite E3. intros p sh Hp. eauto.
Qed.

Lemma view_core t s s' : core s' = core s -> (sp_tick s <= sp_tick s')%nat -> view t s' = view t s \/ view t s = None.
Proof.
  intros [= E1 E2 E3 E4] Ht. unfold view, mine. rewrite E2, E3, E4.
  destruct (Nat.leb_spec t (sp_tick s)); [|by right]. rewrite (proj2 (Nat.leb_le _ _)) by lia. by left.
Qed.

Abbreviation P := (prog SpawnState).
Abbreviation quiet := (quiet Inv Guard view).

(** An action that leaves the core alone. *)
Lemma quiet_step {A} (f : SpawnState -> A * SpawnState) :
  (forall s, core (f s).2 = core s /\ sp_tick (f s).2 = sp_tick s) -> quiet (step f).
Proof.
  intros Hf. split; [|done]. intros s r s' Hi Hs. injection Hs as Hs. pose proof (Hf (tick s)) as [H1 H2].
  rewrite Hs in H1, H2. cbn [snd] in H1, H2. assert (Hc : core s' = core s) by by rewrite H1.
  assert (Ht : (sp_tick s <= sp_tick s')%nat) by (rewrite H2; cbn; lia).
  split; [by eapply Inv_core|]. split; [by apply Guard_core|]. intros p. by apply view_core.
Qed.

Lemma quiet_ret {A} (a : A) : quiet (mret a : P A). Proof. done. Qed.
Lemma quiet_ask {A} (f : nat -> A) : quiet (ask f). Proof. by apply quiet_step. Qed.
Lemma quiet_store {A} (f : nat -> Tables -> (A + GoError) * Tables) : quiet (store E f).
Proof. apply quiet_step. intros s. destruct (e_fails E _); [done|]. by destruct (f _ _). Qed.
Lemma quiet_load {A} (f : Tables -> A + GoError) : quiet (load E f). Proof. apply quiet_store. Qed.
Lemma quiet_of_child {A} p (d : A) f : quiet (of_child p d f). Proof. by apply quiet_step. Qed.
Lemma quiet_snapshot p : quiet (snapshot p). Proof. apply quiet_of_child. Qed.
Lemma quiet_child_at id : quiet (child_at id). Proof. by apply quiet_step. Qed.
Lemma quiet_change p f : (forall c, shape (f c) = shape c) -> quiet (change_child p f).
Proof.
  intros Hf. apply quiet_step. intros s. split; [|done]. cbn [snd].
  assert (Hs : shapes (at_child p f s) = shapes s); [|unfold core; by rewrite Hs].
  unfold shapes. apply map_eq. intros q. rewrite !lookup_fmap. unfold at_child, set_heap. cbn [sp_heap]. destruct (decide (p = q)) as [<-|Hne].
  - rewrite lookup_alter_eq. destruct (sp_heap s !! p); cbn; [by rewrite Hf|done].
  - by rewrite lookup_alter_ne.
Qed.
Lemma quiet_emit e : quiet (emit e). Proof. by apply quiet_step. Qed.
Lemma quiet_try {A B} (m : P (A + GoError)) (f : A -> P (B + GoError)) : quiet m -> (forall a, quiet (f a)) -> quiet (try m f).
Proof. intros Hm Hf. apply quiet_bind; [exact Hm|]. by intros [a|err]. Qed.
Lemma quiet_check e : quiet (check e). Proof. done. Qed.
Lemma quiet_git_does done_ h args : (forall s, core (done_ s) = core s /\ sp_tick (done_ s) = sp_tick s) -> quiet (git_does E done_ h args).
Proof. intros Hd. apply quiet_step. intros s. cbv zeta. destruct (git_result _ _); [apply Hd|done]. Qed.
Lemma quiet_git h args : quiet (git E h args). Proof. by apply quiet_git_does. Qed.
Lemma quiet_wait_done p : quiet (wait_done E p).
Proof.
  split; [|done]. intros s r s' Hi Hs.
  assert (Hs' : s' = tick s) by (destruct (e_cancelled E _); [congruence|]; destruct (_ <? _)%nat; congruence). subst.
  split; [by eapply Inv_core; [| |exact Hi]; [|cbn; lia]|]. split; [apply Guard_core; [done|cbn; lia]|].
  intros q. apply view_core; [done|cbn; lia].
Qed.

(** Quietness by the shape of a program. *)
Create HintDb quiet.
#[local] Hint Resolve quiet_ret quiet_ask quiet_store quiet_load quiet_of_child quiet_snapshot quiet_child_at quiet_emit
  quiet_check quiet_git quiet_wait_done : quiet.
Ltac quietly :=
  repeat (intros; first
    [ progress auto with quiet
    | apply quiet_bind | apply quiet_try | apply quiet_git_does; by intros | apply quiet_change; by intros
    | match goal with |- Threads.quiet _ _ _ (if ?b then _ else _) => destruct b end
    | match goal with |- Threads.quiet _ _ _ (match ?x with _ => _ end) => destruct x end ]).

Lemma quiet_depth_from fuel depth id : quiet (depth_from E fuel depth id).
Proof. induction fuel as [|fuel IH] in depth, id |- *; cbn [depth_from]; quietly. Qed.
Lemma quiet_commitAll h m : quiet (commitAll E h m). Proof. unfold commitAll. quietly. Qed.
Lemma quiet_Locate id w : quiet (Locate E id w). Proof. unfold Locate. quietly. Qed.
#[local] Hint Resolve quiet_depth_from quiet_commitAll quiet_Locate : quiet.
Lemma quiet_AddWorktree h id b c : quiet (AddWorktree E h id b c). Proof. unfold AddWorktree, CheckBranch. quietly. Qed.
Lemma quiet_RemoveWorktree h id : quiet (RemoveWorktree E h id). Proof. unfold RemoveWorktree. quietly. Qed.
Lemma quiet_holderExecutor h : quiet (holderExecutor E h). Proof. unfold holderExecutor. quietly. Qed.
Lemma quiet_handOver h n : quiet (handOver E h n). Proof. unfold handOver. quietly. Qed.
#[local] Hint Resolve quiet_AddWorktree quiet_RemoveWorktree quiet_holderExecutor quiet_handOver : quiet.
Lemma quiet_addChild w h n b c : quiet (addChild E w h n b c). Proof. unfold addChild, removeWorktree. quietly. Qed.
Lemma quiet_discard h id : quiet (discard E h id). Proof. unfold discard, removeWorktree. quietly. Qed.
#[local] Hint Resolve quiet_addChild quiet_discard : quiet.
Lemma quiet_build id req parent ws b : quiet (build E id req parent ws b). Proof. unfold build. quietly. Qed.
Lemma quiet_keepWork r b p : quiet (keepWork E r b p). Proof. unfold keepWork. quietly. Qed.
#[local] Hint Resolve quiet_build quiet_keepWork : quiet.
Lemma quiet_report r b p : quiet (report E respell r b p). Proof. unfold report. quietly. Qed.
Lemma quiet_abort p : quiet (abort p). Proof. unfold abort. quietly. Qed.
#[local] Hint Resolve quiet_report quiet_abort : quiet.
Lemma quiet_abort_all ps : quiet (abort_all ps). Proof. induction ps; cbn [abort_all]; quietly. Qed.
Lemma quiet_resultOf row : quiet (resultOf row). Proof. unfold resultOf. quietly. Qed.
#[local] Hint Resolve quiet_abort_all quiet_resultOf : quiet.
Lemma quiet_results_of rows : quiet (results_of rows). Proof. induction rows; cbn [results_of]; quietly. Qed.
Lemma quiet_await_child p : quiet (await_child E p). Proof. unfold await_child. quietly. Qed.
#[local] Hint Resolve quiet_results_of quiet_await_child : quiet.
Lemma quiet_waitOne parent id : quiet (waitOne E parent id). Proof. unfold waitOne. quietly. Qed.
#[local] Hint Resolve quiet_waitOne : quiet.
Lemma quiet_Wait parent ids : quiet (Wait E parent ids). Proof. induction ids; cbn [Wait]; quietly. Qed.
Lemma quiet_List parent : quiet (List E parent). Proof. unfold List. quietly. Qed.
Lemma quiet_Abort id : quiet (Abort E id). Proof. unfold Abort. quietly. Qed.
Lemma quiet_AbortChildren parent : quiet (AbortChildren parent).
Proof. unfold AbortChildren. apply quiet_bind; [by apply quiet_step|]. quietly. Qed.
Lemma quiet_limits : quiet (limits E). Proof. unfold limits. quietly. Qed.
Lemma quiet_recordedChildren id : quiet (recordedChildren E id). Proof. unfold recordedChildren. quietly. Qed.

(** ** Owning a child *)

Abbreviation ok := (ok Inv Guard view anywhere).
Abbreviation stable := (stable Inv Guard view).
Abbreviation guar := (guar Inv Guard view).
Abbreviation status := (gmap nat (string * string * nat) * option nat * gset nat)%type.

Definition owns (t : nat) (v : status) (s : SpawnState) : Prop := view t s = Some v.
(** Whatever is owned has been handed out. *)
Definition held (o : option nat) (s : SpawnState) : Prop := forall t, o = Some t -> is_Some (view t s).

Lemma owns_stable t v : stable (Some t) (owns t v).
Proof. intros s s' _ (_ & _ & Hv) Ho. unfold owns. by rewrite (Hv t eq_refl). Qed.
Lemma held_stable o : stable o (held o).
Proof. intros s s' _ (_ & _ & Hv) Ho t Et. rewrite (Hv t Et). by apply Ho. Qed.
Lemma true_stable o : stable o (fun _ => True).
Proof. done. Qed.
Lemma owns_held t v s : owns t v s -> held (Some t) s.
Proof. intros H u [= <-]. rewrite H. by eexists. Qed.

Lemma owns_inv t m c r s :
  owns t (m, c, r) s -> (t <= sp_tick s)%nat /\ mine t s = m /\ sp_children s !! e_newID E t = c /\
    base.filter (fun p => is_Some (mine t s !! p)) (sp_running s) = r.
Proof. unfold owns, view. destruct (Nat.leb_spec t (sp_tick s)); [|done]. intros [= <- <- <-]. done. Qed.

Lemma mine_lookup t s q sh : mine t s !! q = Some sh <-> shapes s !! q = Some sh /\ sh.1.1 = e_newID E t.
Proof. unfold mine. by rewrite map_lookup_filter_Some. Qed.

(** A change to the child with one id is not seen by who owns another. *)
Lemma view_frame t p u s s' :
  u <> t -> (sp_tick s <= sp_tick s')%nat ->
  (forall q, q <> p -> shapes s' !! q = shapes s !! q) ->
  (forall sh, shapes s !! p = Some sh \/ shapes s' !! p = Some sh -> sh.1.1 = e_newID E t) ->
  (forall id, id <> e_newID E t -> sp_children s' !! id = sp_children s !! id) ->
  (forall q, q <> p -> q ∈ sp_running s' <-> q ∈ sp_running s) ->
  view u s' = view u s \/ view u s = None.
Proof.
  intros Hne Ht Hq Hp Hc Hr. unfold view. destruct (Nat.leb_spec u (sp_tick s)); [left|by right].
  rewrite (proj2 (Nat.leb_le _ _)) by lia.
  assert (Hid : e_newID E u <> e_newID E t) by (intros Heq; by apply Hids in Heq).
  assert (Hm : mine u s' = mine u s).
  { apply map_eq. intros q. apply option_eq. intros sh. rewrite !mine_lookup. destruct (decide (q = p)) as [->|Hqp]; [|by rewrite Hq].
    split; intros [Hs Hu]; exfalso; apply Hid; rewrite <- Hu; auto. }
  rewrite Hm, Hc by done.
  assert (Hf : base.filter (fun p => is_Some (mine u s !! p)) (sp_running s') = base.filter (fun p => is_Some (mine u s !! p)) (sp_running s)); [|by rewrite Hf].
  apply set_eq. intros q. rewrite !elem_of_filter.
  destruct (decide (q = p)) as [->|Hqp]; [|by rewrite Hr].
  split; intros [[sh Hs] _]; exfalso; apply mine_lookup in Hs as [Hs Hu]; apply Hid; rewrite <- Hu; auto.
Qed.

Lemma guar_intro t p s s' v :
  Inv s' -> (t <= sp_tick s')%nat -> (sp_tick s <= sp_tick s')%nat ->
  (sp_stopped s = true -> sp_stopped s' = true /\ sp_children s' ⊆ sp_children s) ->
  (forall sh, shapes s !! p = Some sh -> exists sh', shapes s' !! p = Some sh' /\ sh'.1 = sh.1 /\ (sh.2 <= sh'.2)%nat) ->
  (forall q, q <> p -> shapes s' !! q = shapes s !! q) ->
  (forall sh, shapes s !! p = Some sh \/ shapes s' !! p = Some sh -> sh.1.1 = e_newID E t) ->
  (forall id, id <> e_newID E t -> sp_children s' !! id = sp_children s !! id) ->
  (forall q, q <> p -> q ∈ sp_running s' <-> q ∈ sp_running s) ->
  owns t v s' -> guar (Some t) (Some t) s s'.
Proof.
  intros Hi Ht Hle Hst Hp Hq Hid Hc Hr Ho. split; [done|]. split; [|split].
  - split; [done|]. split; [done|]. intros q sh Hs. destruct (decide (q = p)) as [->|Hne]; [by apply Hp|].
    exists sh. rewrite Hq by done. done.
  - intros u Hu _. eapply view_frame; [|exact Hle|exact Hq|exact Hid|exact Hc|exact Hr]. congruence.
  - split; [|by left]. rewrite Ho. by eexists.
Qed.

(** What the steps of an owner come to. *)
Definition reserved (t p : nat) (par : string) : status := ({[p := (e_newID E t, par, O)]}, Some p, ∅).
Definition driven (t p : nat) (par : string) : status := ({[p := (e_newID E t, par, O)]}, Some p, {[p]}).
Definition forgotten (t p : nat) (par : string) : status := ({[p := (e_newID E t, par, O)]}, None, ∅).
Definition over (t p : nat) (par : string) : status := ({[p := (e_newID E t, par, 1%nat)]}, None, ∅).

Lemma newID_ok o :
  o = None -> ok (ask (e_newID E)) o (fun _ => True)
    (fun id o' s => exists t, o' = Some t /\ id = e_newID E t /\ owns t (∅, None, ∅) s).
Proof.
  intros ->. apply ok_act. intros s id s' Hi _ [= <- <-]. exists (Some (S (sp_tick s))). set (t := S (sp_tick s)).
  assert (Hv : view t (tick s) = Some (∅, None, ∅)).
  { assert (Hm : mine t (tick s) = ∅).
    { apply map_empty. intros q. apply map_lookup_filter_None. right. intros sh Hq. change (shapes (tick s)) with (shapes s) in Hq.
      destruct (inv_ids s Hi q sh Hq) as (t' & Hle & Heq). cbn. rewrite Heq. intros Heq'. apply Hids in Heq'. unfold t in Heq'. lia. }
    unfold view. rewrite Hm, (proj2 (Nat.leb_le _ _)) by done. change (sp_children (tick s)) with (sp_children s).
    change (sp_running (tick s)) with (sp_running s).
    assert (Hn : sp_children s !! e_newID E t = None).
    { destruct (sp_children s !! e_newID E t) as [p|] eqn:Ec; [exfalso|done].
      destruct (inv_children s Hi _ _ Ec) as (par & Hs). destruct (inv_ids s Hi p _ Hs) as (t' & Hle & Heq). cbn in Heq.
      apply Hids in Heq. unfold t in Heq. lia. }
    rewrite Hn. assert (Hr : base.filter (fun p => is_Some ((∅ : gmap nat (string * string * nat)) !! p)) (sp_running s) = ∅); [|by rewrite Hr].
    apply set_eq. intros q. rewrite elem_of_filter, lookup_empty, elem_of_empty. split; [|done]. intros [H _]. by apply is_Some_None in H. }
  split; [|split].
  - split; [apply (Inv_core s); [done|cbn; lia|done]|]. split; [apply Guard_core; [done|cbn; lia]|].
    split; [intros q _ _; apply view_core; [done|cbn; lia]|]. split; [by rewrite Hv|]. right. unfold view.
    destruct (Nat.leb_spec t (sp_tick s)); [unfold t in *; lia|done].
  - clearbody t. intros s1 s2 _ (_ & _ & Hr) (t' & [= Et] & Eid & Ho). exists t. subst t'. split; [done|]. split; [done|]. unfold owns. by rewrite Hr.
  - by exists t.
Qed.

(** ** The steps of an owner *)

Lemma owns_child t v p par c s :
  owns t ({[p := (e_newID E t, par, c)]}, v.1, v.2) s -> shapes s !! p = Some (e_newID E t, par, c).
Proof.
  intros (_ & Hm & _)%owns_inv. apply (proj1 (mine_lookup t s p _)). rewrite Hm. by rewrite lookup_singleton_eq.
Qed.

(** What an owner has after a step, from the state it leaves. *)
Lemma owns_intro t p par c k (on : bool) s :
  (t <= sp_tick s)%nat -> shapes s !! p = Some (e_newID E t, par, c) ->
  (forall q sh, shapes s !! q = Some sh -> sh.1.1 = e_newID E t -> q = p) ->
  sp_children s !! e_newID E t = k -> (p ∈ sp_running s <-> on = true) ->
  owns t ({[p := (e_newID E t, par, c)]}, k, if on then {[p]} else ∅) s.
Proof.
  intros Ht Hp Hq Hk Hr. assert (Hm : mine t s = {[p := (e_newID E t, par, c)]}).
  { apply map_eq. intros q. apply option_eq. intros sh. rewrite mine_lookup, lookup_singleton_Some. split.
    - intros [Hs He]. pose proof (Hq q sh Hs He) as ->. rewrite Hp in Hs. by simplify_eq.
    - intros [<- <-]. done. }
  unfold owns, view. rewrite Hm, Hk, (proj2 (Nat.leb_le _ _)) by done.
  assert (Hf : base.filter (fun q => is_Some (({[p := (e_newID E t, par, c)]} : gmap nat (string * string * nat)) !! q)) (sp_running s) =
               if on then {[p]} else ∅); [|by rewrite Hf].
  apply set_eq. intros q. rewrite elem_of_filter. destruct (decide (q = p)) as [->|Hne].
  - rewrite lookup_singleton_eq, Hr. destruct on; rewrite ?elem_of_singleton, ?elem_of_empty; (split; [by intros [_ ?]|done || by intros _; split]).
  - rewrite lookup_singleton_ne by done. destruct on; [rewrite elem_of_singleton|rewrite elem_of_empty]; (split; [by intros [[? ?] _]|done]).
Qed.

Lemma owns_only t p par c k r s q sh :
  owns t ({[p := (e_newID E t, par, c)]}, k, r) s -> shapes s !! q = Some sh -> sh.1.1 = e_newID E t -> q = p.
Proof.
  intros (_ & Hm & _)%owns_inv Hs Hq. assert (H : mine t s !! q = Some sh) by by apply mine_lookup.
  rewrite Hm in H. by apply lookup_singleton_Some in H as [<- _].
Qed.

Lemma owns_running t p par c k r s : owns t ({[p := (e_newID E t, par, c)]}, k, r) s -> p ∈ sp_running s <-> p ∈ r.
Proof.
  intros (_ & Hm & _ & Hr)%owns_inv. rewrite <- Hr, Hm, elem_of_filter, lookup_singleton_eq.
  split; [intros H; split; [by eexists|done]|by intros [_ ?]].
Qed.

(** A step that only turns the run of the owned child on or off. *)
Lemma driving_ok t p par (on : bool) {A} (f : SpawnState -> A) :
  ok (step (fun s => (f s, set_running (if on then {[p]} ∪ sp_running s else sp_running s ∖ {[p]}) s))) (Some t)
    (owns t (if on then reserved t p par else driven t p par))
    (fun _ o s => o = Some t /\ owns t (if on then driven t p par else reserved t p par) s).
Proof.
  apply ok_act. intros s a s' Hi Ho [= <- <-]. exists (Some t).
  assert (Hp : shapes s !! p = Some (e_newID E t, par, O)) by (apply (owns_child t (Some p, if on then ∅ else {[p]})); by destruct on).
  assert (Ht : (t <= sp_tick s)%nat) by (destruct on; by apply owns_inv in Ho as [? _]).
  assert (Hk : sp_children s !! e_newID E t = Some p) by (destruct on; by apply owns_inv in Ho as (_ & _ & ? & _)).
  assert (Hq : forall q sh, shapes s !! q = Some sh -> sh.1.1 = e_newID E t -> q = p) by (intros q sh; destruct on; by eapply owns_only).
  set (r := if on then _ else _). set (s' := set_running r (tick s)).
  assert (Ho' : owns t (if on then driven t p par else reserved t p par) s').
  { assert (H : owns t ({[p := (e_newID E t, par, O)]}, Some p, if on then {[p]} else ∅) s').
    - apply owns_intro; [cbn; lia|exact Hp|exact Hq|exact Hk|]. unfold s', r. cbn. destruct on; set_solver.
    - by destruct on. }
  split; [|split; [|by split]].
  - apply (guar_intro t p s s' (if on then driven t p par else reserved t p par)); [|cbn; lia|cbn; lia|done| |done| |done| |exact Ho'].
    + destruct Hi as [H1 H2 H3 H4 H5]. split; [|exact H2| |exact H4|exact H5].
      * intros q sh Hs. destruct (H1 q sh Hs) as (u & Hu & ?). exists u. cbn. split; [lia|done].
      * intros q Hin. destruct (decide (q = p)) as [->|Hne]; [by exists (e_newID E t), par|]. apply H3.
        unfold s', r in Hin. cbn in Hin. destruct on; set_solver.
    + intros sh Hs. exists sh. done.
    + intros sh [Hs|Hs]; [|change (shapes s') with (shapes s) in Hs]; rewrite Hp in Hs; by simplify_eq.
    + intros q Hne. unfold s', r. cbn. destruct on; set_solver.
  - intros s1 s2 Hi1 Hrel [_ Ho1]. split; [done|]. exact (owns_stable t _ s1 s2 Hi1 Hrel Ho1).
Qed.

Lemma shapes_child p id par c s : shapes s !! p = Some (id, par, c) -> exists ch, sp_heap s !! p = Some ch /\ c_id ch = id.
Proof. unfold shapes. rewrite lookup_fmap. destruct (sp_heap s !! p) as [ch|]; [|done]. intros [= <- _ _]. by exists ch. Qed.

Lemma live_core_delete par children sh id : (length (live_core par (base.delete id children) sh) <= length (live_core par children sh))%nat.
Proof.
  destruct (submseteq_Permutation (map_to_list (base.delete id children)) (map_to_list children)) as [k Hk];
    [apply map_to_list_submseteq, delete_subseteq|].
  unfold live_core. rewrite Hk, map_app, filter_app, length_app. lia.
Qed.

(** The owner gives its child's slot back. *)
Lemma forget_ok t p par :
  ok (forget p) (Some t) (owns t (reserved t p par)) (fun _ o s => o = Some t /\ owns t (forgotten t p par) s).
Proof.
  apply ok_act. intros s a s' Hi Ho [= <- <-]. exists (Some t).
  pose proof (owns_child t (Some p, ∅) p par O s Ho) as Hp. pose proof (owns_inv t _ _ _ s Ho) as (Ht & _ & Hk & _).
  pose proof (owns_running t p par O _ _ s Ho) as Hr. rewrite elem_of_empty in Hr.
  destruct (shapes_child p _ _ _ s Hp) as (ch & Hch & Hid).
  assert (Es : drop_child p (tick s) = set_children (base.delete (e_newID E t) (sp_children s)) (tick s)).
  { unfold drop_child. cbn [sp_heap tick sp_children]. rewrite Hch, Hid, Hk. by rewrite bool_decide_true. }
  rewrite Es. set (s' := set_children _ _).
  assert (Ho' : owns t (forgotten t p par) s').
  { apply (owns_intro t p par O None false); [cbn; lia|exact Hp|intros q sh; exact (owns_only t p par O _ _ s q sh Ho)|apply lookup_delete_eq|]. cbn. rewrite Hr. by split. }
  split; [|split; [|by split]].
  - apply (guar_intro t p s s' (forgotten t p par)); [|cbn; lia|cbn; lia| | |done| | |done|exact Ho'].
    + destruct Hi as [H1 H2 H3 H4 H5]. split; [| | |exact H4|].
      * intros q sh Hs. destruct (H1 q sh Hs) as (u & Hu & ?). exists u. cbn. split; [lia|done].
      * intros id q Hq. change (sp_children s') with (base.delete (e_newID E t) (sp_children s)) in Hq.
        apply lookup_delete_Some in Hq as [_ Hq]. by apply H2.
      * intros q Hq. destruct (H3 q Hq) as (id & par' & Hs & Hc). exists id, par'. split; [exact Hs|]. cbn. apply lookup_delete_Some.
        split; [|exact Hc]. intros <-. rewrite Hk in Hc. injection Hc as <-. tauto.
      * intros parent. rewrite live_shapes. specialize (H5 parent). rewrite live_shapes in H5.
        change (sp_children s') with (base.delete (e_newID E t) (sp_children s)).
        pose proof (live_core_delete parent (sp_children s) (shapes s) (e_newID E t)) as Hle. change (shapes s') with (shapes s). lia.
    + intros Hstop. split; [exact Hstop|]. apply delete_subseteq.
    + intros sh Hs. by exists sh.
    + intros sh [Hs|Hs]; [|change (shapes s') with (shapes s) in Hs]; rewrite Hp in Hs; by simplify_eq.
    + intros id Hne. cbn. by rewrite lookup_delete_ne.
  - intros s1 s2 Hi1 Hrel [_ Ho1]. split; [done|]. exact (owns_stable t _ s1 s2 Hi1 Hrel Ho1).
Qed.

(** The owner closes the channel its child's callers wait on. *)
Lemma closed_ok t p par :
  ok (change_child p set_closed) (Some t) (owns t (forgotten t p par)) (fun _ o s => o = Some t /\ owns t (over t p par) s).
Proof.
  apply ok_act. intros s a s' Hi Ho [= <- <-]. exists (Some t).
  pose proof (owns_child t (None, ∅) p par O s Ho) as Hp. pose proof (owns_inv t _ _ _ s Ho) as (Ht & _ & Hk & _).
  pose proof (owns_running t p par O _ _ s Ho) as Hr. rewrite elem_of_empty in Hr.
  set (s' := at_child p set_closed (tick s)).
  assert (Hs' : shapes s' = <[p := (e_newID E t, par, 1%nat)]> (shapes s)).
  { apply map_eq. intros q. unfold shapes, s', at_child, set_heap. cbn [sp_heap tick]. rewrite lookup_fmap.
    unfold shapes in Hp. rewrite lookup_fmap in Hp. destruct (decide (p = q)) as [<-|Hne].
    - rewrite lookup_alter_eq, lookup_insert_eq. destruct (sp_heap s !! p) as [ch|]; [|done]. injection Hp as E1 E2 E3.
      cbn. unfold shape. cbn. congruence.
    - by rewrite lookup_alter_ne, lookup_insert_ne, lookup_fmap. }
  assert (Ho' : owns t (over t p par) s').
  { apply (owns_intro t p par 1%nat None false); [cbn; lia|by rewrite Hs', lookup_insert_eq| |exact Hk|cbn; rewrite Hr; by split].
    intros q sh Hq Hid. rewrite Hs' in Hq. apply lookup_insert_Some in Hq as [[? _]|[_ Hq]]; [done|].
    exact (owns_only t p par O _ _ s q sh Ho Hq Hid). }
  assert (Hchild : forall id q par', sp_children s !! id = Some q -> shapes s !! q = Some (id, par', O) -> q <> p).
  { intros id q par' Hc Hs ->. rewrite Hp in Hs. injection Hs as <- <-. congruence. }
  split; [|split; [|by split]].
  - apply (guar_intro t p s s' (over t p par)); [|cbn; lia|cbn; lia|done| | | |done|done|exact Ho'].
    + destruct Hi as [H1 H2 H3 H4 H5]. split.
      * intros q sh Hs. rewrite Hs' in Hs. apply lookup_insert_Some in Hs as [[<- <-]|[_ Hs]].
        -- exists t. cbn. split; [lia|done].
        -- destruct (H1 q sh Hs) as (u & Hu & ?). exists u. cbn. split; [lia|done].
      * intros id q Hc. change (sp_children s') with (sp_children s) in Hc. destruct (H2 id q Hc) as (par' & Hs). exists par'.
        rewrite Hs', lookup_insert_ne; [exact Hs|]. symmetry. by eapply Hchild.
      * intros q Hq. destruct (H3 q Hq) as (id & par' & Hs & Hc). exists id, par'. split; [|exact Hc].
        rewrite Hs', lookup_insert_ne; [exact Hs|]. symmetry. by eapply Hchild.
      * intros q sh Hs. rewrite Hs' in Hs. apply lookup_insert_Some in Hs as [[_ <-]|[_ Hs]]; [done|by eapply H4].
      * intros parent. specialize (H5 parent). rewrite live_shapes in H5 |- *. rewrite Hs'. change (sp_children s') with (sp_children s).
        replace (live_core parent (sp_children s) (<[p:=_]> (shapes s))) with (live_core parent (sp_children s) (shapes s)); [exact H5|].
        unfold live_core. apply list_filter_iff. intros q. destruct (decide (p = q)) as [<-|Hne].
        -- by rewrite lookup_insert_eq, Hp.
        -- by rewrite lookup_insert_ne.
    + intros sh Hs. rewrite Hp in Hs. injection Hs as <-. eexists. rewrite Hs', lookup_insert_eq. split; [done|]. cbn. split; [done|lia].
    + intros q Hne. by rewrite Hs', lookup_insert_ne.
    + intros sh [Hs|Hs]; [|rewrite Hs', lookup_insert_eq in Hs]; [rewrite Hp in Hs|]; by simplify_eq.
  - intros s1 s2 Hi1 Hrel [_ Ho1]. split; [done|]. exact (owns_stable t _ s1 s2 Hi1 Hrel Ho1).
Qed.

Lemma guar_quiet t v s s' :
  core s' = core s -> (sp_tick s <= sp_tick s')%nat -> Inv s -> owns t v s -> guar (Some t) (Some t) s s' /\ owns t v s'.
Proof.
  intros Hc Ht Hi Ho. assert (Ho' : owns t v s').
  { destruct (view_core t s s' Hc Ht) as [Hv|Hv]; unfold owns in *; congruence. }
  split; [|exact Ho']. split; [by eapply Inv_core|]. split; [by apply Guard_core|].
  split; [intros q _ _; by apply view_core|]. split; [rewrite Ho'; by eexists|by left].
Qed.

Lemma owns_result_stable {A} t (v : A -> status) a :
  stable (Some t) (fun s => Some t = Some t /\ owns t (v a) s).
Proof. intros s1 s2 Hi1 Hrel [_ Ho1]. split; [done|]. exact (owns_stable t _ s1 s2 Hi1 Hrel Ho1). Qed.

(** A new child among those that are live. *)
Lemma live_core_insert par children sh id p par' c :
  children !! id = None -> (forall id q, children !! id = Some q -> q <> p) ->
  length (live_core par (<[id := p]> children) (<[p := (id, par', c)]> sh)) =
    ((if String.eqb par' par then 1 else 0) + length (live_core par children sh))%nat.
Proof.
  intros Hid Hp. unfold live_core. rewrite map_to_list_insert by done. cbn [map snd].
  assert (Hsame : forall l : list nat, p ∉ l ->
    base.filter (fun q => (fun x => x.1.2) <$> <[p := (id, par', c)]> sh !! q = Some par) l =
    base.filter (fun q => (fun x => x.1.2) <$> sh !! q = Some par) l).
  { induction l as [|q l IH]; [done|]. intros [Hne Hl]%not_elem_of_cons. rewrite !filter_cons.
    rewrite lookup_insert_ne by done. by rewrite IH. }
  assert (Hnot : p ∉ map snd (map_to_list children)).
  { intros ([id' q] & E' & Hin)%list_elem_of_fmap. cbn in E'. subst. apply elem_of_map_to_list in Hin. by eapply Hp. }
  rewrite filter_cons, lookup_insert_eq, Hsame by done. cbn. destruct (String.eqb_spec par' par) as [->|Hne].
  - rewrite decide_True by done. done.
  - rewrite decide_False by congruence. done.
Qed.

(** Claiming a slot, in one piece. *)
Lemma claim_ok t l recorded par name :
  MaxChildren l <= N ->
  ok (step (claim l recorded par (e_newID E t) name)) (Some t) (owns t (∅, None, ∅))
    (fun r o s => o = Some t /\ owns t (match r with inl p => reserved t p par | inr _ => (∅, None, ∅) end) s).
Proof.
  intros Hl. apply ok_act. intros s r s' Hi Ho Hs. exists (Some t). injection Hs as Hs. unfold claim in Hs.
  change (sp_stopped (tick s)) with (sp_stopped s) in Hs. change (live par (tick s)) with (live par s) in Hs.
  destruct (sp_stopped s) eqn:Est; [|destruct (Z.leb_spec (MaxChildren l) (Z.max recorded (Z.of_nat (length (live par s))))) as [Hge|Hlt]].
  1, 2: injection Hs as <- <-; split; [|split; [exact (owns_result_stable t (fun _ : unit => _) tt)|]];
    [by apply (guar_quiet t (∅, None, ∅)); [done|cbn; lia|..]|split; [done|by apply (guar_quiet t (∅, None, ∅) s); [done|cbn; lia|..]]].
  change (sp_heap (tick s)) with (sp_heap s) in Hs. set (p := fresh (dom (sp_heap s))) in *. set (id := e_newID E t) in *.
  injection Hs as <- <-. set (s' := set_children _ _).
  assert (Hfresh : sp_heap s !! p = None) by (apply not_elem_of_dom; apply is_fresh).
  assert (Hnone : shapes s !! p = None) by (unfold shapes; by rewrite lookup_fmap, Hfresh).
  assert (Hs' : shapes s' = <[p := (id, par, O)]> (shapes s)) by (unfold shapes, s'; cbn; by rewrite fmap_insert).
  pose proof (owns_inv t _ _ _ s Ho) as (Ht & Hm & Hk & _). fold id in Hk.
  assert (Hother : forall id' q, sp_children s !! id' = Some q -> q <> p).
  { intros id' q Hq ->. destruct (inv_children s Hi _ _ Hq) as [par' Hs1]. congruence. }
  assert (Hrun : p ∉ sp_running s) by (intros Hin; destruct (inv_running s Hi p Hin) as (? & ? & Hs1 & _); congruence).
  assert (Ho' : owns t (reserved t p par) s').
  { apply (owns_intro t p par O (Some p) false); [cbn; lia|by rewrite Hs', lookup_insert_eq| |apply lookup_insert_eq|cbn; split; [by intros ?|done]].
    intros q sh Hq Hid. rewrite Hs' in Hq. apply lookup_insert_Some in Hq as [[? _]|[_ Hq]]; [done|exfalso].
    assert (H : mine t s !! q = Some sh) by by apply mine_lookup. by rewrite Hm, lookup_empty in H. }
  split; [|split; [exact (owns_result_stable t (fun _ : unit => _) tt)|by split]].
  apply (guar_intro t p s s' (reserved t p par)); [|cbn; lia|cbn; lia|congruence|intros sh Hs1; congruence| | | |done|exact Ho'].
  - destruct Hi as [H1 H2 H3 H4 H5]. split.
    + intros q sh Hq. rewrite Hs' in Hq. apply lookup_insert_Some in Hq as [[<- <-]|[_ Hq]].
      * exists t. cbn. split; [lia|done].
      * destruct (H1 q sh Hq) as (u & Hu & ?). exists u. cbn. split; [lia|done].
    + intros id' q Hq. change (sp_children s') with (<[id := p]> (sp_children s)) in Hq. rewrite Hs'.
      apply lookup_insert_Some in Hq as [[<- <-]|[_ Hq]]; [exists par; by rewrite lookup_insert_eq|].
      destruct (H2 id' q Hq) as [par' Hs1]. exists par'. rewrite lookup_insert_ne; [done|]. symmetry. by eapply Hother.
    + intros q Hq. change (q ∈ sp_running s) in Hq. destruct (H3 q Hq) as (id' & par' & Hs1 & Hc). exists id', par'. rewrite Hs'.
      assert (q <> p) by by eapply Hother. split; [by rewrite lookup_insert_ne|].
      change (sp_children s') with (<[id := p]> (sp_children s)). rewrite lookup_insert_ne; [done|congruence].
    + intros q sh Hq. rewrite Hs' in Hq. apply lookup_insert_Some in Hq as [[_ <-]|[_ Hq]]; [cbn; lia|by eapply H4].
    + intros parent. specialize (H5 parent). rewrite live_shapes in H5 |- *. rewrite Hs'.
      change (sp_children s') with (<[id := p]> (sp_children s)). rewrite live_core_insert by done.
      destruct (String.eqb_spec par parent) as [->|]; [|exact H5]. rewrite live_shapes in Hlt. lia.
  - intros q Hne. by rewrite Hs', lookup_insert_ne.
  - intros sh [Hs1|Hs1]; [congruence|]. rewrite Hs', lookup_insert_eq in Hs1. by injection Hs1 as <-.
  - intros id' Hne. change (sp_children s') with (<[id := p]> (sp_children s)). by rewrite lookup_insert_ne.
Qed.

(** ** Threads *)

Lemma own_step {A B} t v (v' : A -> status) (m : P A) (f : A -> P B) Q :
  ok m (Some t) (owns t v) (fun a o s => o = Some t /\ owns t (v' a) s) ->
  (forall a, ok (f a) (Some t) (owns t (v' a)) Q) -> ok (m ≫= f) (Some t) (owns t v) Q.
Proof. intros Hm Hf. eapply ok_bind; [exact Hm|]. intros a o'. apply ok_pure. intros ->. apply Hf. Qed.

Lemma owned_ok {A} t v (m : P A) : quiet m -> ok m (Some t) (owns t v) (fun _ o s => o = Some t /\ owns t v s).
Proof. intros Hm. apply quiet_ok; [exact Hm|apply owns_stable|]. intros s q Ho [= <-]. rewrite Ho. by eexists. Qed.

Lemma own_quiet {A B} t v (m : P A) (f : A -> P B) Q :
  quiet m -> (forall a, ok (f a) (Some t) (owns t v) Q) -> ok (m ≫= f) (Some t) (owns t v) Q.
Proof. intros Hm. apply own_step with (v' := fun _ => v). by apply owned_ok. Qed.

Lemma free_ok {A} (m : P A) : quiet m -> ok m None (fun _ => True) (fun _ o s => o = None /\ True).
Proof. intros Hm. by apply quiet_ok. Qed.

Lemma free_quiet {A B} (m : P A) (f : A -> P B) Q :
  quiet m -> (forall a, ok (f a) None (fun _ => True) Q) -> ok (m ≫= f) None (fun _ => True) Q.
Proof. intros Hm Hf. eapply ok_bind; [by apply free_ok|]. intros a o'. apply ok_pure. intros ->. apply Hf. Qed.

Lemma free_try {A B} (m : P (A + GoError)) (f : A -> P (B + GoError)) (Q : (B + GoError) -> option nat -> SpawnState -> Prop) :
  quiet m -> (forall err s, Q (inr err) None s) -> (forall a, ok (f a) None (fun _ => True) Q) -> ok (try m f) None (fun _ => True) Q.
Proof. intros Hm Hq Hf. apply free_quiet; [exact Hm|]. intros [a|err]; [apply Hf|]. by apply ok_ret. Qed.

Lemma own_try {A B} t v (m : P (A + GoError)) (f : A -> P (B + GoError)) (Q : (B + GoError) -> option nat -> SpawnState -> Prop) :
  quiet m -> (forall err s, owns t v s -> Q (inr err) (Some t) s) -> (forall a, ok (f a) (Some t) (owns t v) Q) ->
  ok (try m f) (Some t) (owns t v) Q.
Proof. intros Hm Hq Hf. apply own_quiet; [exact Hm|]. intros [a|err]; [apply Hf|]. apply ok_ret. auto. Qed.

Lemma go_ok t v (m : P unit) :
  ok m (Some t) (owns t v) (fun _ _ _ => True) -> ok (go m) (Some t) (owns t v) (fun _ o s => o = None /\ True).
Proof.
  intros Hm Hs. exists (Some t), None, (owns t v), (fun _ => True).
  split; [by right|]. split; [apply owns_stable|]. split; [apply true_stable|]. split; [by intros s _ ?|].
  split; [by apply Hm|]. by intros s _ _.
Qed.

Lemma run_ok t p par id req base project :
  ok (run E respell p id par req base project) (Some t) (owns t (reserved t p par)) (fun _ _ _ => True).
Proof.
  unfold run. apply own_quiet; [apply quiet_snapshot|]. intros result. unfold RunChild.
  eapply own_step with (v' := fun _ => reserved t p par).
  { eapply own_step with (v' := fun _ => driven t p par).
    - exact (driving_ok t p par true (fun _ => tt)).
    - intros _. exact (driving_ok t p par false (fun s => e_run E (sp_tick s) (ar_SessionID result) (rq_Task req) (rq_Model req))). }
  intros err. apply own_quiet; [by destruct err; [apply quiet_of_child|]|]. intros aborted. destruct (ended err aborted) as [state message].
  apply own_quiet; [apply quiet_report|]. intros result'. apply own_quiet; [by apply quiet_change|]. intros _.
  apply own_quiet; [apply quiet_store|]. intros _. eapply own_step with (v' := fun _ => forgotten t p par); [apply forget_ok|]. intros _.
  apply own_quiet; [apply quiet_emit|]. intros _. apply own_quiet; [by apply quiet_change|]. intros _.
  eapply ok_post; [|apply closed_ok]. done.
Qed.

Lemma release_ok t p par : ok (release p) (Some t) (owns t (reserved t p par)) (fun _ o s => o = Some t /\ owns t (over t p par) s).
Proof.
  unfold release. eapply own_step with (v' := fun _ => forgotten t p par); [apply forget_ok|]. intros _.
  apply own_quiet; [by apply quiet_change|]. intros _. apply closed_ok.
Qed.

Lemma limits_ok t v :
  ok (limits E) (Some t) (owns t v) (fun l o s => o = Some t /\ MaxChildren l <= N /\ owns t v s).
Proof.
  unfold limits. eapply ok_bind with (R := fun l o s => o = Some t /\ MaxChildren l <= N /\ owns t v s).
  - apply ok_act. intros s l s' Hi Ho [= <- <-]. exists (Some t).
    destruct (guar_quiet t v s (tick s)) as [Hg Ho']; [done|cbn; lia|done|done|]. split; [exact Hg|]. split; [|by split].
    intros s1 s2 Hi1 Hrel (_ & Hl & Ho1). split; [done|]. split; [exact Hl|]. exact (owns_stable t _ s1 s2 Hi1 Hrel Ho1).
  - intros l o'. apply ok_ret. intros s _ (-> & Hl & Ho). split; [done|]. split; [cbn; lia|exact Ho].
Qed.

Lemma reserve_ok t par name :
  ok (reserve E par (e_newID E t) name) (Some t) (owns t (∅, None, ∅))
    (fun r o s => o = Some t /\ owns t (match r with inl p => reserved t p par | inr _ => (∅, None, ∅) end) s).
Proof.
  unfold reserve. eapply ok_bind; [apply limits_ok|]. intros l o'. apply ok_pure. intros ->. apply ok_pure. intros Hl.
  apply own_try; [apply quiet_depth_from|done|]. intros depth. destruct (_ <? _); [by apply ok_ret|].
  apply own_try; [apply quiet_recordedChildren|done|]. intros recorded. by apply claim_ok.
Qed.

Lemma start_ok req : ok (start E respell req) None (fun _ => True) (fun _ => held).
Proof.
  assert (Hnone : forall s, held None s) by done.
  unfold start. destruct (negb (e_runner E)); [by apply ok_ret|].
  apply free_try; [done|done|]. intros _. apply free_try; [done|done|]. intros _.
  destruct (String.eqb _ _); [by apply ok_ret|].
  apply free_try; [apply quiet_load|done|]. intros parent. apply free_try; [apply quiet_load|done|]. intros parentWS.
  apply free_try; [apply quiet_ask|done|]. intros project.
  eapply ok_bind; [by apply newID_ok|]. intros id o'. apply ok_own. intros t. apply ok_pure. intros ->.
  eapply own_step with (v' := fun r => match r with inl p => reserved t p (SID parent) | inr _ => (∅, None, ∅) end); [apply reserve_ok|].
  intros [p|err]; [|apply ok_ret; intros s _; apply owns_held].
  apply own_quiet; [apply quiet_build|]. intros [[[base childWS] sess]|err].
  - apply own_quiet; [by apply quiet_change|]. intros _. apply own_quiet; [apply quiet_emit|]. intros _.
    eapply ok_bind; [apply go_ok, run_ok|]. intros u o1. apply ok_pure. intros ->. by apply ok_ret.
  - eapply own_step with (v' := fun _ => over t p (SID parent)); [apply release_ok|]. intros _.
    apply ok_ret. intros s _. apply owns_held.
Qed.

Lemma held_quiet {A B} (m : P A) (f : A -> P B) Q :
  ok m None (fun _ => True) (fun _ => held) -> (forall a, quiet (f a)) -> (forall b o s, Q b o s) ->
  ok (m ≫= f) None (fun _ => True) Q.
Proof.
  intros Hm Hf Hq. eapply ok_bind; [apply Hm|]. intros a o. eapply ok_post; [|apply quiet_ok; [apply Hf|apply held_stable|]]; [done|].
  intros s p Hh ->. by apply Hh.
Qed.

(** ** Shutting down *)

(** Nothing is left but these. *)
Definition stopping (ps : list nat) (s : SpawnState) : Prop :=
  sp_stopped s = true /\ forall id p, sp_children s !! id = Some p -> p ∈ ps.
Definition gone (s : SpawnState) : Prop := sp_stopped s = true /\ sp_children s = ∅ /\ sp_running s = ∅.

Lemma stopping_stable ps : stable None (stopping ps).
Proof.
  intros s s' _ (_ & (_ & Hst & _) & _) [Hs Hc]. destruct (Hst Hs) as [Hs' Hsub]. split; [exact Hs'|].
  intros id p Hp. eapply Hc, lookup_weaken; [exact Hp|exact Hsub].
Qed.

Lemma stopping_none s : Inv s -> stopping [] s -> gone s.
Proof.
  intros Hi [Hs Hc]. assert (Hempty : sp_children s = ∅).
  { apply map_empty. intros id. destruct (sp_children s !! id) as [p|] eqn:Ep; [|done]. by apply Hc, elem_of_nil in Ep. }
  split; [exact Hs|]. split; [exact Hempty|]. apply set_eq. intros p. rewrite elem_of_empty. split; [|done].
  intros Hp. destruct (inv_running s Hi p Hp) as (id & par & _ & Hid). by rewrite Hempty, lookup_empty in Hid.
Qed.

Lemma wait_all_ok ps : ok (wait_all E ps) None (stopping ps) (fun r o s => o = None /\ (r = true -> gone s)).
Proof.
  induction ps as [|p ps IH]; cbn [wait_all].
  - apply ok_ret. intros s Hi Hs. split; [done|]. intros _. by apply stopping_none.
  - eapply ok_bind with (R := fun r o s => o = None /\ match r with inl _ => stopping ps s | inr _ => True end).
    + apply ok_act. intros s r s' Hi Hs Hw. exists None.
      assert (Hcore : s' = tick s) by (destruct (e_cancelled E _); [congruence|]; destruct (_ <? _)%nat; congruence). subst s'.
      assert (Hi' : Inv (tick s)) by (apply (Inv_core s); [done|cbn; lia|done]).
      split; [|split].
      * split; [done|]. split; [apply Guard_core; [done|cbn; lia]|]. split; [intros q _ _; apply view_core; [done|cbn; lia]|done].
      * intros s1 s2 Hi1 Hrel [_ H]. split; [done|]. destruct r; [|done]. by eapply stopping_stable.
      * split; [done|]. destruct r as [[]|err]; [|done]. destruct Hs as [Hs Hc]. split; [exact Hs|]. intros id q Hq.
        specialize (Hc id q Hq). apply elem_of_cons in Hc as [->|Hin]; [exfalso|exact Hin].
        destruct (inv_children s Hi id p Hq) as [par Hp]. unfold shapes in Hp. rewrite lookup_fmap in Hp.
        destruct (e_cancelled E _); [done|]. destruct (sp_heap s !! p) as [c|]; [|done]. injection Hp as _ _ Hcl.
        cbn in Hw. by rewrite Hcl in Hw.
    + intros r o'. apply ok_pure. intros ->. destruct r as [_|err]; [exact IH|]. by apply ok_ret.
Qed.

Lemma Shutdown_ok : ok (Shutdown E) None (fun _ => True) (fun r o s => o = None /\ (r = true -> gone s)).
Proof.
  unfold Shutdown. eapply ok_bind with (R := fun ps o s => o = None /\ stopping ps s).
  - apply ok_act. intros s ps s' Hi _ [= <- <-]. exists None. split; [|split].
    + destruct Hi as [H1 H2 H3 H4 H5]. split.
      { split; [|exact H2|exact H3|exact H4|exact H5]. intros q sh Hq. destruct (H1 q sh Hq) as (u & Hu & ?). exists u. cbn. split; [lia|done]. }
      split; [split; [cbn; lia|split; [done|]]; intros q sh Hq; by exists sh|]. split; [|done].
      intros q _ _. unfold view. destruct (Nat.leb_spec q (sp_tick s)); [left|by right]. cbn [sp_tick set_stopped tick].
      rewrite (proj2 (Nat.leb_le _ _)) by lia. done.
    + intros s1 s2 Hi1 Hrel [_ H]. split; [done|]. by eapply stopping_stable.
    + split; [done|]. split; [done|]. intros id p Hp. change (sp_children s !! id = Some p) in Hp.
      apply list_elem_of_fmap. exists (id, p). split; [done|]. by apply elem_of_map_to_list.
  - intros ps o'. apply ok_pure. intros ->. eapply ok_bind; [apply quiet_ok; [apply quiet_abort_all|apply stopping_stable|done]|].
    intros u o1. apply ok_pure. intros ->. apply wait_all_ok.
Qed.

(** ** Clients *)

(** What is asked of a spawner. A thread that shuts it down gets past that
    only when every child was done in time. *)
Inductive client : Type :=
| CSpawn (req : SpawnRequest) | CStart (req : SpawnRequest) | CWait (parentSessionID : string) (ids : list string)
| CList (parentSessionID : string) | CAbort (id : string) | CAbortChildren (parentSessionID : string) | CShutdown.

Definition client_thread (c : client) : P unit :=
  match c with
  | CSpawn req => _ ← Spawn E respell req; mret tt
  | CStart req => _ ← Start E respell req; mret tt
  | CWait parent ids => _ ← Wait E parent ids; mret tt
  | CList parent => _ ← List E parent; mret tt
  | CAbort id => _ ← Abort E id; mret tt
  | CAbortChildren parent => AbortChildren parent
  | CShutdown => in_time ← Shutdown E; if in_time : bool then mret tt else await (fun _ => None)
  end.

Definition client_end (c : client) (s : SpawnState) : Prop := match c with CShutdown => gone s | _ => True end.

Lemma free_quiet_end {A} (m : P A) : quiet m -> ok (_ ← m; mret tt) None (fun _ => True) (fun _ _ _ => True).
Proof. intros Hm. apply free_quiet; [exact Hm|]. intros a. by apply ok_ret. Qed.

Lemma client_ok c : ok (client_thread c) None (fun _ => True) (fun _ _ => client_end c).
Proof.
  destruct c; cbn [client_thread client_end].
  - apply held_quiet with (m := Spawn E respell req); [|done|done]. unfold Spawn, try.
    eapply ok_bind; [apply start_ok|]. intros [p|err] o; [|by apply ok_ret].
    eapply ok_post; [|apply quiet_ok; [apply quiet_await_child|apply held_stable|]]; [by intros a o1 s _ [-> ?]|].
    intros s q Hh ->. by apply Hh.
  - apply held_quiet with (m := Start E respell req); [|done|done]. unfold Start, try.
    eapply ok_bind; [apply start_ok|]. intros [p|err] o; [|by apply ok_ret].
    eapply ok_post; [|apply quiet_ok; [apply quiet_bind; [apply quiet_snapshot|done]|apply held_stable|]]; [by intros a o1 s _ [-> ?]|].
    intros s q Hh ->. by apply Hh.
  - apply free_quiet_end, quiet_Wait.
  - apply free_quiet_end, quiet_List.
  - apply free_quiet_end, quiet_Abort.
  - eapply ok_post; [|apply free_ok, quiet_AbortChildren]. done.
  - eapply ok_bind; [apply Shutdown_ok|]. intros [|] o; apply ok_pure; intros ->; [apply ok_ret; intros s _ Hs; by apply Hs|by intros _ s _ _].
Qed.

Lemma Inv_new tables trees : Inv (NewSpawner tables trees).
Proof.
  split; cbn.
  - intros p sh Hp. by rewrite lookup_fmap, lookup_empty in Hp.
  - intros id p Hp. by rewrite lookup_empty in Hp.
  - intros p Hp. by apply elem_of_empty in Hp.
  - intros p sh Hp. by rewrite lookup_fmap, lookup_empty in Hp.
  - intros parent. rewrite live_shapes. unfold live_core. cbn [sp_children NewSpawner]. rewrite map_to_list_empty. cbn. lia.
Qed.

Lemma clients_sound tables trees cs turns :
  sound Inv Guard view anywhere (map client_end cs) (schedule turns (mkConfig (NewSpawner tables trees) (map client_thread cs))).
Proof.
  apply schedule_sound, sound_start.
  - apply Inv_new.
  - apply Forall2_fmap, Forall_Forall2_diag, Forall_true. intros c. apply client_ok.
    exists (NewSpawner tables trees). split; [apply Inv_new|done].
Qed.
End spec.

Lemma size_list_to_set_le (l : list nat) : (size (list_to_set l : gset nat) <= length l)%nat.
Proof.
  induction l as [|x l IH]; [done|]. cbn. rewrite size_union_alt, size_singleton.
  assert (size ((list_to_set l : gset nat) ∖ {[x]}) <= size (list_to_set l : gset nat))%nat by (apply subseteq_size; set_solver). lia.
Qed.

Section claims.
Context (E : SpawnEnv) (respell : string -> string) (tables : Tables) (trees : gset string).

(** The spawner after some turns of the threads of its clients and of those
    they started. *)
Definition after (cs : list client) (turns : list nat) : config SpawnState :=
  schedule turns (mkConfig (NewSpawner tables trees) (map (client_thread E respell) cs)).

(** The children of a session whose run is going. *)
Definition running_children (parent : string) (s : SpawnState) : gset nat :=
  base.filter (fun p => c_parentSessionID <$> sp_heap s !! p = Some parent) (sp_running s).

(** C18: Whatever is asked of the spawner, and however the requests and the
    children's runs interleave, a session never has more children running,
    or more slots taken, than the limit allows, and no child is said to be
    done twice, which would panic. *)
Theorem children_bounded N cs turns parent :
  (forall t t', e_newID E t = e_newID E t' -> t = t') -> 1 <= N -> (forall t, MaxChildren (e_limits E t) <= N) ->
  let s := c_state (after cs turns) in
  Z.of_nat (size (running_children parent s)) <= Z.of_nat (length (live parent s)) <= N /\
  forall p c, sp_heap s !! p = Some c -> (c_closed c <= 1)%nat.
Proof.
  intros Hids HN Hlim s. destruct (clients_sound E respell N Hids HN Hlim tables trees cs turns) as [Hi _]. fold (after cs turns) in Hi.
  fold s in Hi. split; [split; [|by apply (inv_bound E N s Hi)]|].
  - apply Nat2Z.inj_le. transitivity (size (list_to_set (live parent s) : gset nat)); [|apply size_list_to_set_le].
    apply subseteq_size. intros p [Hp Hr]%elem_of_filter. apply elem_of_list_to_set, list_elem_of_filter. split; [exact Hp|].
    destruct (inv_running E N s Hi p Hr) as (id & par & _ & Hc). apply list_elem_of_fmap. exists (id, p). split; [done|].
    by apply elem_of_map_to_list.
  - intros p c Hp. apply (inv_closed E N s Hi p (shape c)). unfold shapes. by rewrite lookup_fmap, Hp.
Qed.

(** Once a shutdown has seen its children done, no child is running or
    being started, and none ever is again, whatever was and is asked
    meanwhile. *)
Theorem shutdown_is_final N cs turns turns' i :
  (forall t t', e_newID E t = e_newID E t' -> t = t') -> 1 <= N -> (forall t, MaxChildren (e_limits E t) <= N) ->
  cs !! i = Some CShutdown -> c_threads (after cs turns) !! i = Some (Ret tt) ->
  let s := c_state (schedule turns' (after cs turns)) in
  sp_stopped s = true /\ sp_children s = ∅ /\ sp_running s = ∅.
Proof.
  intros Hids HN Hlim Hi Hend s. pose proof (clients_sound E respell N Hids HN Hlim tables trees cs turns) as Hs.
  apply (schedule_sound _ _ _ _ _ turns') in Hs. fold (after cs turns) in Hs.
  eapply (sound_ended _ _ _ _ _ _ i (client_end CShutdown) tt Hs); [by apply ended_stays|].
  by rewrite list_lookup_fmap, Hi.
Qed.
End claims.

(** ** A session with a limit of two

    Three children are asked for at once: two run at the same time, the third
    is refused; then the harness shuts down. *)
Definition demo_env : SpawnEnv :=
  mkSpawnEnv true (fun _ => mkLimits 2 2) pretty Z.of_nat (fun _ => None) (fun _ => None) (fun _ _ => inl "proj")
    (fun _ id => inl (mkHost id "c1" "running" "")) (fun _ _ => None)
    (fun _ _ args => inl (0, if bool_decide (args = ["rev-parse"; "HEAD"]) then "abc123" else "", "")) (fun _ _ _ => None)
    (fun _ _ _ => None) (fun _ _ _ _ => None) (fun _ _ _ _ => None).

Definition demo_tables : Tables :=
  mkTables (mkDB {["root" := mkDSession "root" "w1" "" false "user" "" "" None "" JNull false false]} ∅)
    {["w1" := mkWorkspaceRow "w1" "p1" "w" "main" "" "img" "running" "c1" "" "" JNull false false 0]} ∅.

Definition demo_clients : list client :=
  CShutdown :: map (fun n => CSpawn (mkSpawnRequest "root" n "do it" "" "")) ["a"; "b"; "c"].

(** The clients take turns, then two of the children, then all. *)
Definition demo_turns : list nat := concat (repeat [1; 2; 3]%nat 24) ++ concat (repeat [4; 5]%nat 2).

Example demo_runs :
  let c := after demo_env id demo_tables ∅ demo_clients demo_turns in
  size (running_children "root" (c_state c)) = 2%nat /\ length (live "root" (c_state c)) = 2%nat /\
  map sb_State (Subagents "root" (sp_tables (c_state c))) = ["running"; "running"].
Proof. by vm_compute. Qed.

Lemma children_bounded_witness :
  Z.of_nat (size (running_children "root" (c_state (after demo_env id demo_tables ∅ demo_clients demo_turns)))) <= 2.
Proof.
  assert (Hids : forall t t' : nat, pretty t = pretty t' -> t = t') by (intros t t'; apply (inj pretty)).
  destruct (children_bounded demo_env id demo_tables ∅ 2 demo_clients demo_turns "root" Hids) as [[H1 H2] _]; [lia|intros t; cbn; lia|].
  exact (Z.le_trans _ _ _ H1 H2).
Defined.

Definition demo_end : list nat := demo_turns ++ concat (repeat [0; 4; 5; 1; 2]%nat 40).

Lemma shutdown_is_final_witness :
  sp_running (c_state (schedule [1; 2; 3]%nat (after demo_env id demo_tables ∅ demo_clients demo_end))) = ∅.
Proof.
  assert (Hids : forall t t' : nat, pretty t = pretty t' -> t = t') by (intros t t'; apply (inj pretty)).
  refine (proj2 (proj2 (shutdown_is_final demo_env id demo_tables ∅ 2 demo_clients demo_end [1; 2; 3]%nat 0%nat Hids _ _ _ _)));
    [lia|intros t; cbn; lia|reflexivity|vm_compute; reflexivity].
Defined.
