(* ===== verification/Files.v ===== *)
(** Files of a workspace: how a path is confined to the root, lexically
    (internal/executor path.go) and through symbolic links (internal/eikad
    path.go, internal/executor/local), and the daemon's reading and writing
    (internal/eikad files.go). A file system is a map from locations, the
    elements of a path without links, to what is there; following links,
    creating directories, and opening files are those of the system. *)
From stdpp Require Import sorting.
From S2P Require Import Prelude GoStr GoPath Failure.
From stdpp Require Import options.

(** ** The system's files *)

Inductive node : Type := NDir | NFile (data : string) | NLink (target : string).
Abbreviation FS := (gmap (list string) node).
Inductive fsError : Type := ENOENT | ENOTDIR | ELOOP | EISDIR | EEXIST.

Definition lstat (fs : FS) (loc : list string) : option node := match loc with [] => Some NDir | _ => fs !! loc end.

(** Follow a path from a directory without links. An element before others,
    or before a slash, has to be a directory; the last may be missing when it
    is to be created. [links] bounds the links that are followed. *)
Fixpoint walk (create : bool) (fs : FS) (links : nat) : list string -> list string -> list string + fsError :=
  fix go (dest todo : list string) : list string + fsError :=
    match todo with
    | [] => inl dest
    | e :: rest =>
        if String.eqb e EmptyString || String.eqb e dot_s then go dest rest
        else if String.eqb e dotdot then go (removelast dest) rest
        else
          let here := dest ++ [e] in
          match lstat fs here with
          | None => if create && bool_decide (rest = []) then inl here else inr ENOENT
          | Some NDir => go here rest
          | Some (NFile _) => if bool_decide (rest = []) then inl here else inr ENOTDIR
          | Some (NLink target) =>
              match links with
              | O => inr ELOOP
              | S links' => walk create fs links' (if is_abs target then [] else dest) (split target slash ++ rest)
              end
          end
    end.

Definition open_links : nat := 40.
Definition eval_links : nat := 255.

Definition show (loc : list string) : string := render true loc.
Definition elems (p : string) : list string := clean_elems true (split p slash).

(** [filepath.EvalSymlinks] of an absolute path. *)
Definition EvalSymlinks (fs : FS) (p : string) : string + fsError :=
  match walk false fs eval_links [] (split p slash) with inl loc => inl (show loc) | inr e => inr e end.

(** Where opening an absolute path leads. *)
Definition open (create : bool) (fs : FS) (p : string) : list string + fsError := walk create fs open_links [] (split p slash).

Definition stat (fs : FS) (p : string) : node + fsError :=
  match open false fs p with
  | inl loc => match lstat fs loc with Some n => inl n | None => inr ENOENT end
  | inr e => inr e
  end.

Definition read_file (fs : FS) (p : string) : string + fsError :=
  match stat fs p with
  | inl (NFile data) => inl data
  | inl _ => inr EISDIR
  | inr e => inr e
  end.

Definition write_file (fs : FS) (p data : string) : FS + fsError :=
  match open true fs p with
  | inl loc => match lstat fs loc with Some NDir => inr EISDIR | _ => inl (<[loc := NFile data]> fs) end
  | inr e => inr e
  end.

Definition mkdir (fs : FS) (parent : list string) (e : string) : FS + fsError :=
  match open false fs (show parent) with
  | inl d =>
      match lstat fs d, lstat fs (d ++ [e]) with
      | Some NDir, None => inl (<[d ++ [e] := NDir]> fs)
      | Some NDir, Some NDir => inl fs
      | Some NDir, Some _ => inr EEXIST
      | _, _ => inr ENOTDIR
      end
  | inr err => inr err
  end.

(** [os.MkdirAll] of the directory with these elements, newest first: what
    was created stays when it fails. *)
Fixpoint mkdir_all (fs : FS) (p : list string) : option fsError * FS :=
  match stat fs (show (rev p)) with
  | inl NDir => (None, fs)
  | inl _ => (Some ENOTDIR, fs)
  | inr _ =>
      match p with
      | [] => (None, fs)
      | e :: up =>
          match mkdir_all fs up with
          | (None, fs') => match mkdir fs' (rev up) e with inl fs'' => (None, fs'') | inr err => (Some err, fs') end
          | (Some err, fs') => (Some err, fs')
          end
      end
  end.

(** [os.ReadDir]: what is in a directory, by name, links not followed. *)
Definition read_dir (fs : FS) (p : string) : list (string * node) + fsError :=
  match open false fs p with
  | inr e => inr e
  | inl loc =>
      match lstat fs loc with
      | Some NDir =>
          let child (kv : list string * node) := match last kv.1 with
            | Some e => if bool_decide (kv.1 = loc ++ [e]) then Some (e, kv.2) else None
            | None => None
            end in
          inl (merge_sort (fun a b => String.le a.1 b.1) (omap child (map_to_list fs)))
      | _ => inr ENOTDIR
      end
  end.

(** [filepath.Dir] and [filepath.Base] of a cleaned absolute path. *)
Definition Dir (p : string) : string := show (removelast (elems p)).
Definition Base (p : string) : string := List.last (elems p) slash_s.

(** [filepath.Rel] of two cleaned absolute paths, as elements. *)
Fixpoint rel_elems (base targ : list string) : list string :=
  match base, targ with
  | b :: base', t :: targ' => if String.eqb b t then rel_elems base' targ' else map (fun _ => dotdot) base ++ targ
  | _, _ => map (fun _ => dotdot) base ++ targ
  end.
Definition Rel (base targ : string) : string := render false (rel_elems (elems base) (elems targ)).

(** ** The lexical check *)

(* @src internal/executor/path.go 10-13 ErrPathOutsideRoot *)
Definition ErrPathOutsideRoot : GoError := ErrSentinel "path is outside the workspace root".

(** [p] is [root] or lies under it. *)
(* @src internal/eikad/path.go 80-83 within *)
Definition within (root p : string) : bool := String.eqb p root || has_prefix p (root +:+ slash_s).

Definition climbs (p : string) : bool := String.eqb p dotdot || has_prefix p (dotdot +:+ slash_s).

(* @src internal/executor/path.go 15-33 Resolve *)
Definition Resolve (root path : string) : string + GoError :=
  if String.eqb root EmptyString then inr (ErrText "resolve path: root is empty")
  else
    let root := Clean root in
    let p := Clean (if is_abs path then path else Join [root; path]) in
    if within root p then inl p else inr (ErrWrap ("resolve path " +:+ go_quote path) ErrPathOutsideRoot).

(* @src internal/executor/path.go 35-46 Rel *)
Definition ExecutorRel (root abs : string) : string + GoError :=
  let rel := Rel (Clean root) (Clean abs) in
  if climbs rel then inr (ErrWrap ("relativize path " +:+ go_quote abs) ErrPathOutsideRoot) else inl rel.

(* @src internal/eikad/path.go 36-56 relativeTo *)
Definition relativeTo (root path : string) : option string :=
  let path := trim_space path in
  if String.eqb path EmptyString then Some dot_s
  else
    let cleaned := Clean (if is_abs path then Rel root (Clean path) else path) in
    if climbs cleaned then None else Some cleaned.

(** ** Through links *)

(** Why a request for a file fails. *)
Inductive FileError : Type := OutsideRoot | System (e : fsError) | BadRequest (why : string).

(** [up] are the elements of the part still to be tried, newest first. *)
Fixpoint longest (fs : FS) (up : list string) (rest : string) : string + fsError :=
  match EvalSymlinks fs (show (rev up)) with
  | inl resolved => inl (Join [resolved; rest])
  | inr ENOENT => match up with [] => inr ENOENT | e :: up' => longest fs up' (Join [e; rest]) end
  | inr err => inr err
  end.

(* @src internal/eikad/path.go 58-78 resolveExisting *)
Definition resolveExisting (fs : FS) (p : string) : string + fsError := longest fs (rev (elems p)) EmptyString.

(* @src internal/eikad/path.go 15-34 Daemon.resolve *)
Definition resolve (fs : FS) (root path : string) : string + FileError :=
  match relativeTo root path with
  | None => inr OutsideRoot
  | Some rel =>
      match resolveExisting fs (Join [root; rel]) with
      | inr err => inr (System err)
      | inl resolved => if within root resolved then inl resolved else inr OutsideRoot
      end
  end.

(** The local executor hands on the path itself and not what it leads to. *)
(* @src internal/executor/local/local.go 220-240 evalExisting *)
Definition evalExisting (fs : FS) (abs : string) : string + fsError :=
  match longest fs (rev (elems abs)) EmptyString with
  | inr ENOENT => inl abs
  | r => r
  end.

(* @src internal/executor/local/local.go 203-218 Executor.resolve *)
Definition local_resolve (fs : FS) (root path : string) : string + GoError :=
  match Resolve root path with
  | inr err => inr err
  | inl abs =>
      match evalExisting fs abs with
      | inr err => inr (ErrText "resolve symlinks")
      | inl resolved =>
          match Resolve root resolved with
          | inl _ => inl abs
          | inr _ => inr (ErrWrap ("resolve path " +:+ go_quote path) ErrPathOutsideRoot)
          end
      end
  end.

(** ** The daemon *)

(* @src internal/eikad/daemon.go 22-23 maxWriteBytes *)
Definition maxWriteBytes : Z := 67108864.

(** [strconv.ParseInt] of a decimal, a parameter. *)
Section daemon.
Context (parse_int : string -> option Z) (root : string) (maxRead : Z).

(* @src internal/eikad/files.go 123-136 Daemon.readLimit *)
Definition readLimit (raw : string) : Z + FileError :=
  if String.eqb raw EmptyString then inl maxRead
  else match parse_int raw with
  | None => inr (BadRequest "parse max_bytes")
  | Some n => if n <=? 0 then inr (BadRequest "parse max_bytes: must be positive") else inl (Z.min n maxRead)
  end.

(** The daemon and the executor describe a file by its name, its path from
    the root, and what is there: its size, its mode, and whether it is a
    directory; times are left out. *)
(* @src internal/eikad/api.go 58-67 FileInfo *)
Record FileInfo : Type := { fi_Name : string; fi_Path : string; fi_node : node }.

(* @src internal/eikad/daemon.go 186-198 statusFor *)
Definition statusFor (err : FileError) : Z :=
  match err with
  | OutsideRoot => 403
  | System ENOENT => 404
  | _ => 400
  end.

(** A refusal, with the status it is sent with. *)
Definition Refusal : Type := Z * FileError.
Definition refuse (err : FileError) : Refusal := (statusFor err, err).
Definition refusing {A} (r : A + FileError) : A + Refusal := match r with inl a => inl a | inr err => inr (refuse err) end.

(* @src internal/eikad/daemon.go 146-154 Daemon.rel *)
Definition rel (abs : string) : string := Rel root abs.

(* @src internal/eikad/daemon.go 156-166 Daemon.fileInfo *)
Definition fileInfo (abs : string) (n : node) : FileInfo := {| fi_Name := Base abs; fi_Path := rel abs; fi_node := n |}.

(* @src internal/eikad/daemon.go 141-144 Daemon.requestPath *)
Definition requestPath (fs : FS) (path : string) : string + Refusal := refusing (resolve fs root path).

(* @src internal/eikad/files.go 20-53 Daemon.handleReadFile *)
Definition handleReadFile (fs : FS) (path max_bytes : string) : string + Refusal :=
  match requestPath fs path with
  | inr err => inr err
  | inl p =>
      match readLimit max_bytes with
      | inr err => inr (400, err)
      | inl limit =>
          match read_file fs p with
          | inl data => inl (str_take (Z.to_nat limit) data)
          | inr EISDIR => inr (400, BadRequest "is a directory")
          | inr e => inr (refuse (System e))
          end
      end
  end.

(** The answer, and the files. *)
(* @src internal/eikad/files.go 55-82 Daemon.handleWriteFile *)
Definition handleWriteFile (fs : FS) (path data : string) : (FileInfo + Refusal) * FS :=
  match requestPath fs path with
  | inr err => (inr err, fs)
  | inl p =>
      if maxWriteBytes <? str_len data then (inr (413, BadRequest "read request body"), fs)
      else match mkdir_all fs (rev (elems (Dir p))) with
      | (Some err, fs) => (inr (refuse (System err)), fs)
      | (None, fs) =>
          match write_file fs p data with
          | inr err => (inr (refuse (System err)), fs)
          | inl fs =>
              match stat fs p with
              | inr err => (inr (refuse (System err)), fs)
              | inl n => (inl (fileInfo p n), fs)
              end
          end
      end
  end.

(* @src internal/eikad/files.go 84-97 Daemon.handleStat *)
Definition handleStat (fs : FS) (path : string) : FileInfo + Refusal :=
  match requestPath fs path with
  | inr err => inr err
  | inl p => match stat fs p with inl n => inl (fileInfo p n) | inr err => inr (refuse (System err)) end
  end.

(* @src internal/eikad/files.go 99-121 Daemon.handleList *)
Definition handleList (fs : FS) (path : string) : list FileInfo + Refusal :=
  match requestPath fs path with
  | inr err => inr err
  | inl p =>
      match read_dir fs p with
      | inr err => inr (refuse (System err))
      | inl entries => inl (map (fun e => fileInfo (Join [p; e.1]) e.2) entries)
      end
  end.
End daemon.

(** ** The local executor *)

Section executor.
Context (root : string).

(* @src internal/executor/local/local.go 187-201 Executor.fileInfo *)
Definition local_fileInfo (abs : string) (n : node) : FileInfo + GoError :=
  match ExecutorRel root abs with
  | inr err => inr err
  | inl rel => inl {| fi_Name := Base abs; fi_Path := rel; fi_node := n |}
  end.

(** Why the system refused. *)
Definition syscall_error (e : fsError) : GoError :=
  ErrText match e with
  | ENOENT => "no such file or directory"
  | ENOTDIR => "not a directory"
  | ELOOP => "too many levels of symbolic links"
  | EISDIR => "is a directory"
  | EEXIST => "file exists"
  end.

(* @src internal/executor/local/local.go 111-131 Executor.ReadFile *)
Definition local_ReadFile (fs : FS) (path : string) (MaxBytes : Z) : string + GoError :=
  match local_resolve fs root path with
  | inr err => inr (ErrWrap "read file" err)
  | inl abs =>
      match read_file fs abs with
      | inr e => inr (ErrWrap ("read file " +:+ go_quote path) (syscall_error e))
      | inl data => inl (if 0 <? MaxBytes then str_take (Z.to_nat MaxBytes) data else data)
      end
  end.

(* @src internal/executor/local/local.go 133-146 Executor.WriteFile *)
Definition local_WriteFile (fs : FS) (path data : string) : option GoError * FS :=
  match local_resolve fs root path with
  | inr err => (Some (ErrWrap "write file" err), fs)
  | inl abs =>
      match mkdir_all fs (rev (elems (Dir abs))) with
      | (Some e, fs) => (Some (ErrWrap ("create directory for " +:+ go_quote path) (syscall_error e)), fs)
      | (None, fs) =>
          match write_file fs abs data with
          | inr e => (Some (ErrWrap ("write file " +:+ go_quote path) (syscall_error e)), fs)
          | inl fs => (None, fs)
          end
      end
  end.

(* @src internal/executor/local/local.go 148-159 Executor.Stat *)
Definition local_Stat (fs : FS) (path : string) : FileInfo + GoError :=
  match local_resolve fs root path with
  | inr err => inr (ErrWrap "stat" err)
  | inl abs =>
      match stat fs abs with
      | inr e => inr (ErrWrap ("stat " +:+ go_quote path) (syscall_error e))
      | inl n => local_fileInfo abs n
      end
  end.

(* @src internal/executor/local/local.go 161-185 Executor.List *)
Definition local_List (fs : FS) (path : string) : list FileInfo + GoError :=
  match local_resolve fs root path with
  | inr err => inr (ErrWrap "list" err)
  | inl abs =>
      match read_dir fs abs with
      | inr e => inr (ErrWrap ("list " +:+ go_quote path) (syscall_error e))
      | inl entries =>
          foldr (fun e out =>
            match local_fileInfo (Join [abs; e.1]) e.2, out with
            | inr err, _ => inr err
            | inl fi, inl l => inl (fi :: l)
            | inl _, inr err => inr err
            end) (inl []) entries
      end
  end.
End executor.
