(* ===== verification/FilesClaims.v ===== *)
(** What the daemon's confinement to a root promises: the laws of paths and of
    the tree of files, and the claims about reads and writes. *)
From S2P Require Import Prelude GoStr Failure GoPath Files.
From stdpp Require Import options.

(** ** Splitting and joining *)

Definition no_slash (e : string) : Prop := Forall (fun b => b <> 47) (bytes_of e).
Definition normal (e : string) : Prop := element e /\ e <> dotdot.

Lemma normal_no_slash e : normal e -> no_slash e. Proof. by intros [(_ & _ & H) _]. Qed.
Lemma normal_nonempty e : normal e -> e <> EmptyString. Proof. by intros [(H & _) _]. Qed.

Lemma split_go_app acc a b : split_go slash acc (a +:+ slash_s +:+ b) = split_go slash acc a ++ split b slash.
Proof.
  revert acc. induction a as [|c a IH]; intros acc; cbn [split_go].
  - rewrite str_app_nil. change (slash_s +:+ b) with (String slash (EmptyString +:+ b)). by rewrite str_app_nil.
  - rewrite str_app_cons. cbn [split_go]. destruct (Ascii.eqb c slash); [|apply IH]. by rewrite IH.
Qed.

Lemma split_slash_app a b : split (a +:+ slash_s +:+ b) slash = split a slash ++ split b slash.
Proof. apply split_go_app. Qed.

Lemma split_go_elem acc e : no_slash e -> split_go slash acc e = [acc +:+ e].
Proof.
  revert acc. induction e as [|c e IH]; intros acc He; cbn [split_go]; [by rewrite str_app_empty_r|].
  inversion He as [|? ? Hc He']; subst. destruct (Ascii.eqb_spec c slash) as [->|]; [by destruct Hc|].
  rewrite IH by done. by rewrite <- str_app_assoc.
Qed.

Lemma split_elem e : no_slash e -> split e slash = [e].
Proof. intros He. unfold split. by rewrite split_go_elem. Qed.

Lemma split_join es : es <> [] -> Forall no_slash es -> split (join es slash_s) slash = es.
Proof.
  induction es as [|e es IH]; [done|]. intros _ H. inversion H as [|? ? He Hes]; subst.
  destruct es as [|e' es]; [by apply split_elem|]. change (join (e :: e' :: es) slash_s) with (e +:+ slash_s +:+ join (e' :: es) slash_s).
  rewrite split_slash_app, split_elem by done. by rewrite IH.
Qed.

Lemma split_show es : Forall normal es -> split (show es) slash = EmptyString :: match es with [] => [EmptyString] | _ => es end.
Proof.
  intros H. unfold show, render. destruct es as [|e es]; [done|].
  change (slash_s +:+ join (e :: es) slash_s) with (EmptyString +:+ slash_s +:+ join (e :: es) slash_s).
  rewrite split_slash_app, split_join; [done|done|]. eapply Forall_impl; [exact H|]. apply normal_no_slash.
Qed.

Lemma clean_step_normal rooted acc e : normal e -> clean_step rooted acc e = e :: acc.
Proof.
  intros [(H1 & H2 & H3) H4]. unfold clean_step.
  destruct (String.eqb_spec e EmptyString); [done|]. destruct (String.eqb_spec e dot_s); [done|]. cbn [orb].
  by destruct (String.eqb_spec e dotdot).
Qed.

Lemma clean_fold_normal rooted acc es : Forall normal es -> foldl (clean_step rooted) acc es = rev es ++ acc.
Proof.
  intros H. revert acc. induction es as [|e es IH]; intros acc; [done|]. inversion H; subst. cbn [foldl rev].
  rewrite clean_step_normal, IH, <- app_assoc by done. done.
Qed.

Lemma clean_elems_normal rooted es : Forall normal es -> clean_elems rooted (EmptyString :: es) = es.
Proof. intros H. unfold clean_elems. cbn [foldl]. change (clean_step rooted [] EmptyString) with (@nil string). rewrite clean_fold_normal, app_nil_r by done. apply rev_involutive. Qed.

Lemma elems_show es : Forall normal es -> elems (show es) = es.
Proof. intros H. unfold elems. rewrite split_show by done. destruct es as [|e es]; [done|]. by apply clean_elems_normal. Qed.

Lemma elems_normal p : Forall normal (elems p).
Proof. apply clean_elems_rooted. Qed.

Lemma show_abs es : is_abs (show es) = true.
Proof. unfold show, render, is_abs, has_prefix. apply prefix_app. Qed.

Lemma Clean_show es : Forall normal es -> Clean (show es) = show es.
Proof.
  intros H. unfold Clean. rewrite show_abs. destruct (String.eqb_spec (show es) EmptyString) as [E|_].
  - pose proof (show_abs es) as Ha. by rewrite E in Ha.
  - change (clean_elems true (split (show es) slash)) with (elems (show es)). by rewrite elems_show.
Qed.

(** Joining a directory and the rest of a path. *)
Definition joined (es : list string) : string := join es slash_s.

Lemma joined_nonempty es : es <> [] -> Forall normal es -> joined es <> EmptyString.
Proof.
  intros Hne H. destruct es as [|e es]; [done|]. inversion H as [|? ? He]; subst. apply normal_nonempty in He.
  unfold joined. destruct e as [|c e]; [done|]. by destruct es.
Qed.

Lemma Join_show d es : Forall normal d -> Forall normal es -> Join [show d; joined es] = show (d ++ es).
Proof.
  intros Hd Hes. unfold Join. assert (Hne : show d <> EmptyString).
  { intros E. pose proof (show_abs d) as Ha. by rewrite E in Ha. }
  rewrite filter_cons_True by done. destruct es as [|e es].
  - rewrite filter_cons_False by (by intros H). rewrite app_nil_r. cbn. by apply Clean_show.
  - rewrite filter_cons_True by by apply joined_nonempty. change (base.filter _ []) with (@nil string). cbn [join String.concat].
    change (String.concat slash_s [show d; joined (e :: es)]) with (show d +:+ slash_s +:+ joined (e :: es)).
    unfold Clean. destruct (String.eqb_spec (show d +:+ slash_s +:+ joined (e :: es)) EmptyString) as [E|_].
    { pose proof (show_abs d) as Ha. destruct (show d); [done|]. by rewrite str_app_cons in E. }
    assert (Ha : is_abs (show d +:+ slash_s +:+ join (e :: es) slash_s) = true).
    { unfold is_abs, has_prefix, show, render. rewrite <- str_app_assoc. apply prefix_app. }
    unfold joined. rewrite Ha, split_slash_app, split_show, split_join by (done || (eapply Forall_impl; [exact Hes|apply normal_no_slash])).
    destruct d as [|x d].
    + unfold show. f_equal. exact (clean_elems_normal true (e :: es) Hes).
    + unfold show. f_equal. change ((EmptyString :: x :: d) ++ e :: es) with (EmptyString :: ((x :: d) ++ e :: es)).
      apply clean_elems_normal. by apply Forall_app.
Qed.

Lemma is_abs_elem e t : no_slash e -> e <> EmptyString -> is_abs (e +:+ t) = false.
Proof.
  intros He Hne. destruct e as [|c e]; [done|]. inversion He as [|? ? Hc _]; subst. rewrite str_app_cons.
  unfold is_abs, has_prefix, slash_s, chr. cbn [String.prefix]. destruct (Ascii.ascii_dec (of_byte 47) c) as [<-|Hne2]; [by destruct Hc|]. done.
Qed.

Lemma Join_elem e es : normal e -> Forall normal es -> Join [e; joined es] = joined (e :: es).
Proof.
  intros He Hes. unfold Join. rewrite filter_cons_True by by apply normal_nonempty.
  assert (Hall : Forall normal (e :: es)) by by constructor.
  assert (Hrel : Clean (joined (e :: es)) = joined (e :: es)).
  { unfold Clean. destruct (String.eqb_spec (joined (e :: es)) EmptyString) as [E|_]; [by apply joined_nonempty in E|].
    assert (Ha : is_abs (joined (e :: es)) = false).
    { pose proof (is_abs_elem e) as Hn. destruct es as [|x es]; [rewrite <- (str_app_empty_r (joined [e]))|]; apply Hn;
        (by apply normal_no_slash) || by apply normal_nonempty. }
    rewrite Ha. unfold joined at 1. rewrite split_join; [|done|by eapply Forall_impl; [exact Hall|apply normal_no_slash]].
    unfold clean_elems. rewrite clean_fold_normal, app_nil_r, rev_involutive by done. done. }
  destruct es as [|x es].
  - rewrite filter_cons_False by (by intros H). exact Hrel.
  - inversion Hes; subst. rewrite filter_cons_True by (apply joined_nonempty; done). exact Hrel.
Qed.

(** A path lies under a root only when its elements begin with the root's. *)
Lemma within_prefix r q : Forall normal r -> Forall normal q -> within (show r) (show q) = true -> r `prefix_of` q.
Proof.
  intros Hr Hq H. unfold within in H. apply orb_true_iff in H as [H|H].
  - apply String.eqb_eq in H. apply (f_equal elems) in H. rewrite !elems_show in H by done. by subst.
  - assert (Hu : exists u, show q = (show r +:+ slash_s) +:+ u).
    { revert H. unfold has_prefix. generalize (show r +:+ slash_s) as a, (show q) as b. induction a as [|c a IH]; intros b H; [by exists b|].
      destruct b as [|c' b]; [done|]. cbn in H. destruct (Ascii.ascii_dec c c') as [<-|]; [|done].
      destruct (IH b H) as [u ->]. by exists u. }
    destruct Hu as [u Hu]. rewrite <- str_app_assoc in Hu. apply (f_equal (fun s => split s slash)) in Hu.
    rewrite split_slash_app, !split_show in Hu by done. destruct r as [|x r]; [apply prefix_nil|]. destruct q as [|y q].
    + injection Hu as Hx _. inversion Hr as [|? ? Hn]; subst. by apply normal_nonempty in Hn.
    + injection Hu as -> Hu. exists (split u slash). cbn. by rewrite Hu.
Qed.

(** ** Following links *)

Lemma walk_nil create fs n dest : walk create fs n dest [] = inl dest.
Proof. by destruct n. Qed.

Lemma walk_cons create fs n dest e rest :
  walk create fs n dest (e :: rest) =
  if String.eqb e EmptyString || String.eqb e dot_s then walk create fs n dest rest
  else if String.eqb e dotdot then walk create fs n (removelast dest) rest
  else match lstat fs (dest ++ [e]) with
  | None => if create && bool_decide (rest = []) then inl (dest ++ [e]) else inr ENOENT
  | Some NDir => walk create fs n (dest ++ [e]) rest
  | Some (NFile _) => if bool_decide (rest = []) then inl (dest ++ [e]) else inr ENOTDIR
  | Some (NLink target) =>
      match n with
      | O => inr ELOOP
      | S n' => walk create fs n' (if is_abs target then [] else dest) (split target slash ++ rest)
      end
  end.
Proof. by destruct n. Qed.

Lemma walk_normal create fs n dest e rest : normal e ->
  walk create fs n dest (e :: rest) =
  match lstat fs (dest ++ [e]) with
  | None => if create && bool_decide (rest = []) then inl (dest ++ [e]) else inr ENOENT
  | Some NDir => walk create fs n (dest ++ [e]) rest
  | Some (NFile _) => if bool_decide (rest = []) then inl (dest ++ [e]) else inr ENOTDIR
  | Some (NLink target) =>
      match n with
      | O => inr ELOOP
      | S n' => walk create fs n' (if is_abs target then [] else dest) (split target slash ++ rest)
      end
  end.
Proof.
  intros [(H1 & H2 & _) H3]. rewrite walk_cons. destruct (String.eqb_spec e EmptyString); [done|].
  destruct (String.eqb_spec e dot_s); [done|]. cbn [orb]. by destruct (String.eqb_spec e dotdot).
Qed.

Lemma walk_show create fs n es : Forall normal es -> walk create fs n [] (split (show es) slash) = walk create fs n [] es.
Proof.
  intros H. rewrite split_show by done. rewrite walk_cons. cbn [String.eqb orb]. destruct es; [|done].
  by rewrite walk_cons.
Qed.

(** Directories all the way. *)
Definition canon_dir (fs : FS) (d : list string) : Prop := forall k, (k <= length d)%nat -> lstat fs (take k d) = Some NDir.

Lemma canon_nil fs : canon_dir fs [].
Proof. intros k _. by destruct k. Qed.

Lemma canon_snoc fs d e : canon_dir fs d -> lstat fs (d ++ [e]) = Some NDir -> canon_dir fs (d ++ [e]).
Proof.
  intros Hd He k Hk. rewrite length_app in Hk. cbn in Hk. destruct (decide (k <= length d)%nat) as [Hle|Hgt].
  - rewrite take_app_le by done. by apply Hd.
  - rewrite take_ge; [done|]. rewrite length_app. cbn. lia.
Qed.

Lemma canon_prefix fs a b : canon_dir fs (a ++ b) -> canon_dir fs a.
Proof. intros H k Hk. specialize (H k). rewrite length_app, take_app_le in H by done. apply H. lia. Qed.

Lemma canon_removelast fs d : canon_dir fs d -> canon_dir fs (removelast d).
Proof.
  intros H. destruct (last_snoc_cases d) as [->|(l & x & ->)]; [done|]. rewrite removelast_last. by eapply canon_prefix.
Qed.

Lemma canon_here fs d : canon_dir fs d -> lstat fs d = Some NDir.
Proof. intros H. rewrite <- (take_ge d (length d)) at 1 by done. by apply H. Qed.

(** Along directories a path leads to itself. *)
Lemma walk_along create fs n a b rest :
  Forall normal b -> canon_dir fs (a ++ b) -> walk create fs n a (b ++ rest) = walk create fs n (a ++ b) rest.
Proof.
  intros Hb. revert a. induction b as [|e b IH]; intros a Hc; [by rewrite app_nil_r|]. inversion Hb; subst.
  assert (Hc' : canon_dir fs ((a ++ [e]) ++ b)) by by rewrite <- app_assoc.
  cbn [app]. rewrite walk_normal, (canon_here fs (a ++ [e])) by (done || by eapply canon_prefix).
  rewrite IH by done. by rewrite <- app_assoc.
Qed.

(** What a walk reaches is a directory among directories, or a file in one. *)
Lemma walk_reaches fs n dest todo loc :
  canon_dir fs dest -> Forall normal dest -> Forall no_slash todo -> walk false fs n dest todo = inl loc ->
  Forall normal loc /\ canon_dir fs (removelast loc) /\
  (lstat fs loc = Some NDir \/ exists data, lstat fs loc = Some (NFile data)).
Proof.
  revert dest todo. induction n as [n IHn] using lt_wf_ind. intros dest todo. induction todo as [|e rest IH] in dest |- *; intros Hc Hn Ht Hw.
  - rewrite walk_nil in Hw. injection Hw as <-. split; [done|]. split; [by apply canon_removelast|]. left. by apply canon_here.
  - inversion Ht as [|? ? He Ht']; subst. rewrite walk_cons in Hw.
    destruct (String.eqb_spec e EmptyString) as [->|H1]; [by eapply IH|].
    destruct (String.eqb_spec e dot_s) as [->|H2]; [by eapply IH|]. cbn [orb] in Hw.
    destruct (String.eqb_spec e dotdot) as [->|H3].
    { eapply (IH (removelast dest)); [by apply canon_removelast| |done|done].
      destruct (last_snoc_cases dest) as [->|(l & x & ->)]; [done|]. rewrite removelast_last. by apply Forall_app in Hn as [? _]. }
    assert (Hen : normal e) by by split.
    assert (Hde : Forall normal (dest ++ [e])) by (apply Forall_app; split; [done|by constructor]).
    destruct (lstat fs (dest ++ [e])) as [[|data|target]|] eqn:El; [| | |done].
    + eapply (IH (dest ++ [e])); [by apply canon_snoc|done|done|done].
    + destruct (bool_decide (rest = [])); [|done]. injection Hw as <-. split; [done|]. split; [by rewrite removelast_last|]. right. eauto.
    + destruct n as [|n']; [done|]. eapply (IHn n'); [lia| | | |exact Hw].
      * destruct (is_abs target); [apply canon_nil|done].
      * destruct (is_abs target); [constructor|done].
      * apply Forall_app. split; [|done]. apply split_go_no_slash. constructor.
Qed.

(** A path with something missing on its way leads nowhere, however many
    links are followed and whatever comes after it. *)
Lemma walk_missing fs n dest a :
  walk false fs n dest a = inr ENOENT -> forall n' b, exists err, walk false fs n' dest (a ++ b) = inr err.
Proof.
  revert dest a. induction n as [n IHn] using lt_wf_ind. intros dest a. induction a as [|e rest IH] in dest |- *; intros Hw n' b.
  - by rewrite walk_nil in Hw.
  - cbn [app]. rewrite walk_cons in Hw |- *. destruct (_ || _); [by apply IH|]. destruct (String.eqb e dotdot); [by apply IH|].
    destruct (lstat fs (dest ++ [e])) as [[|data|target]|]; [by apply IH| | |by eexists].
    + destruct (bool_decide (rest = [])); discriminate Hw.
    + destruct n as [|m]; [discriminate Hw|]. destruct n' as [|m']; [by eexists|]. rewrite app_assoc. eapply (IHn m); [lia|exact Hw].
Qed.

(** More links to follow do not change where a path leads. *)
Lemma walk_more create fs n m dest a loc : (n <= m)%nat -> walk create fs n dest a = inl loc -> walk create fs m dest a = inl loc.
Proof.
  revert m dest a. induction n as [n IHn] using lt_wf_ind. intros m dest a Hle. induction a as [|e rest IH] in dest |- *; intros Hw.
  - by rewrite walk_nil in Hw |- *.
  - rewrite walk_cons in Hw |- *. destruct (_ || _); [by apply IH|]. destruct (String.eqb e dotdot); [by apply IH|].
    destruct (lstat fs (dest ++ [e])) as [[|data|target]|]; [by apply IH|done| |done].
    destruct n as [|n']; [done|]. destruct m as [|m']; [lia|]. eapply (IHn n'); [lia|lia|exact Hw].
Qed.

(** Walking on from where a path leads. *)
Lemma walk_then fs n dest a d :
  canon_dir fs dest -> Forall normal dest -> Forall no_slash a -> walk false fs n dest a = inl d ->
  (canon_dir fs d /\ exists n', forall b, walk false fs n dest (a ++ b) = walk false fs n' d b) \/
  (forall b, b <> [] -> walk false fs n dest (a ++ b) = inr ENOTDIR).
Proof.
  revert dest a. induction n as [n IHn] using lt_wf_ind. intros dest a. induction a as [|e rest IH] in dest |- *; intros Hc Hn Ht Hw.
  - rewrite walk_nil in Hw. injection Hw as <-. left. split; [done|]. by exists n.
  - inversion Ht as [|? ? He Ht']; subst. cbn [app]. rewrite walk_cons in Hw. setoid_rewrite walk_cons.
    destruct (String.eqb_spec e EmptyString) as [->|H1]; [by apply IH|].
    destruct (String.eqb_spec e dot_s) as [->|H2]; [by apply IH|]. cbn [orb] in Hw |- *.
    destruct (String.eqb_spec e dotdot) as [->|H3].
    { apply IH; [by apply canon_removelast| |done|done].
      destruct (last_snoc_cases dest) as [->|(l & x & ->)]; [done|]. rewrite removelast_last. by apply Forall_app in Hn as [? _]. }
    assert (Hde : Forall normal (dest ++ [e])) by (apply Forall_app; split; [done|by constructor; [split|]]).
    destruct (lstat fs (dest ++ [e])) as [[|data|target]|] eqn:El; [| | |done].
    + apply IH; [by apply canon_snoc|done|done|done].
    + right. intros b Hb. by rewrite bool_decide_false by (destruct rest; [exact Hb|done]).
    + destruct n as [|n']; [done|]. setoid_rewrite app_assoc. apply (IHn n'); [lia| | | |exact Hw].
      * destruct (is_abs target); [apply canon_nil|done].
      * destruct (is_abs target); [constructor|done].
      * apply Forall_app. split; [|done]. apply split_go_no_slash. constructor.
Qed.

Lemma prefix_cases {A} (r d : list A) e b : r `prefix_of` d ++ e :: b -> r `prefix_of` d \/ d ++ [e] `prefix_of` r.
Proof.
  intros [k Hk]. destruct (decide (length r <= length d)%nat) as [Hle|Hgt].
  - left. exists (drop (length r) d). rewrite <- (take_drop (length r) d) at 1. f_equal.
    apply (f_equal (take (length r))) in Hk. by rewrite take_app_length, take_app_le in Hk.
  - right. exists (drop (S (length d)) r). rewrite <- (take_drop (S (length d)) r) at 1. f_equal.
    apply (f_equal (take (S (length d)))) in Hk. rewrite (take_app_le r) in Hk by lia.
    rewrite <- Hk, cons_middle, app_assoc. apply take_app_length'. rewrite length_app. cbn. lia.
Qed.

(** What [resolveExisting] gives: the longest part of the path that leads
    somewhere, where it leads, and the rest. *)
Lemma longest_spec fs l rest p :
  Forall normal l -> Forall normal rest -> longest fs (rev l) (joined rest) = inl p ->
  exists a b d, l = a ++ b /\ walk false fs eval_links [] a = inl d /\ p = show (d ++ b ++ rest) /\
    match b with [] => True | e :: _ => walk false fs eval_links [] (a ++ [e]) = inr ENOENT end.
Proof.
  intros Hl. revert rest p. induction l as [|e l IH] using rev_ind; intros rest p Hrest H.
  - cbn [rev longest] in H. unfold EvalSymlinks in H. rewrite walk_show in H by done. rewrite walk_nil in H.
    injection H as <-. exists [], [], []. split; [done|]. split; [done|]. split; [|done].
    apply (Join_show [] rest); [constructor|done].
  - apply Forall_app in Hl as [Hl He]. apply Forall_cons_1 in He as [He _]. rewrite rev_unit in H. cbn [longest] in H.
    change (rev (e :: rev l)) with (rev (rev l) ++ [e]) in H. rewrite rev_involutive in H.
    assert (Hle : Forall normal (l ++ [e])) by (apply Forall_app_2; [exact Hl|apply Forall_cons_2; [exact He|constructor]]).
    unfold EvalSymlinks in H. rewrite walk_show in H by done.
    destruct (walk false fs eval_links [] (l ++ [e])) as [d|err] eqn:Ew.
    + injection H as <-. exists (l ++ [e]), [], d. rewrite app_nil_r. split; [done|]. split; [done|]. split; [|done].
      apply Join_show; [|done]. apply walk_reaches in Ew as (Hd & _ & _); [done|apply canon_nil|done|].
      eapply Forall_impl; [exact Hle|apply normal_no_slash].
    + destruct err; try discriminate H. rewrite Join_elem in H by done.
      destruct (IH Hl (e :: rest) p) as (a & b & d & -> & Ha & -> & Hb); [by constructor|exact H|].
      exists a, (b ++ [e]), d. rewrite app_assoc. split; [done|]. split; [done|]. split; [by rewrite <- app_assoc|].
      destruct b as [|x b]; [by rewrite app_nil_r in Ew|exact Hb].
Qed.

Section root.
(** The root, a directory without links on its way. *)
Context (fs : FS) (r : list string) (Hr : Forall normal r) (Hroot : canon_dir fs r).
Abbreviation root := (show r).

(** A path the daemon accepts is under the root, begins with what is there,
    without links, and continues with what is missing, if at most for a link
    that leads to nothing. *)
Lemma resolve_spec path p :
  resolve fs root path = inl p ->
  exists d b, p = show (d ++ b) /\ Forall normal (d ++ b) /\ r `prefix_of` d ++ b /\ canon_dir fs (removelast d) /\
    match b with
    | [] => lstat fs d = Some NDir \/ exists data, lstat fs d = Some (NFile data)
    | e :: _ => r `prefix_of` d /\ canon_dir fs d /\
                match lstat fs (d ++ [e]) with
                | None => True
                | Some (NLink _) => forall n rest, exists err, walk false fs n d (e :: rest) = inr err
                | Some _ => False
                end
    end.
Proof using Hr Hroot.
  intros H. unfold resolve in H. destruct (relativeTo root path) as [rel|]; [|done].
  unfold resolveExisting in H. set (l := elems (Join [root; rel])) in H. change EmptyString with (joined []) in H.
  destruct (longest fs (rev l) (joined [])) as [q|] eqn:El; [|done].
  destruct (within root q) eqn:Ew; [|done]. injection H as <-.
  apply longest_spec in El as (a & b & d & Hl & Ha & -> & Hb); [|apply elems_normal|done]. rewrite app_nil_r in Ew |- *.
  assert (Hn : Forall normal (a ++ b)) by (rewrite <- Hl; apply elems_normal). apply Forall_app in Hn as [Hna Hnb].
  pose proof (walk_reaches fs eval_links [] a d (canon_nil fs) (Forall_nil_2 _)) as Hd.
  destruct Hd as (Hnd & Hcd & Hls); [by eapply Forall_impl; [exact Hna|apply normal_no_slash]|done|].
  assert (Hndb : Forall normal (d ++ b)) by by apply Forall_app.
  assert (Hpre : r `prefix_of` d ++ b) by (apply within_prefix; done).
  exists d, b. split; [done|]. split; [done|]. split; [done|]. split; [done|]. destruct b as [|e b]; [done|].
  inversion Hnb as [|? ? He _]; subst.
  destruct (walk_then fs eval_links [] a d (canon_nil fs) (Forall_nil_2 _)) as [[Hcan [n' Hw]]|Hw];
    [by eapply Forall_impl; [exact Hna|apply normal_no_slash]|done| |by rewrite Hw in Hb].
  rewrite Hw, walk_normal in Hb by done. cbn [andb] in Hb.
  assert (Hlink : match lstat fs (d ++ [e]) with
    | None => True
    | Some (NLink _) => forall n rest, exists err, walk false fs n d (e :: rest) = inr err
    | Some _ => False
    end).
  { destruct (lstat fs (d ++ [e])) as [[|data|target]|] eqn:El; [by rewrite walk_nil in Hb|done| |done].
    destruct n' as [|m]; [done|]. rewrite app_nil_r in Hb. intros n rest. rewrite walk_normal, El by done.
    destruct n as [|n]; [by eexists|]. by eapply walk_missing. }
  split; [|by split]. destruct (prefix_cases r d e b Hpre) as [|[k ->]]; [done|exfalso].
  rewrite (canon_here fs (d ++ [e])) in Hlink; [done|]. by eapply canon_prefix.
Qed.

(** What is there leads to itself. *)
Lemma walk_there create n d :
  Forall normal d -> canon_dir fs (removelast d) ->
  (lstat fs d = Some NDir \/ exists data, lstat fs d = Some (NFile data)) -> walk create fs n [] d = inl d.
Proof.
  intros Hd Hc Hl. destruct (last_snoc_cases d) as [->|(l & x & ->)]; [by rewrite walk_nil|].
  rewrite removelast_last in Hc. apply Forall_app in Hd as [Hn Hx]. apply Forall_cons_1 in Hx as [Hx _].
  rewrite walk_along by done. rewrite walk_normal by done. cbn [app].
  destruct Hl as [->|[data ->]]; [by rewrite walk_nil|done].
Qed.
End root.

(** ** Writing *)

(** What is in a directory has the directory above it. *)
Definition tree (fs : FS) : Prop := forall l x, is_Some (fs !! (l ++ [x])) -> lstat fs l = Some NDir.

Lemma lstat_snoc fs l x : lstat fs (l ++ [x]) = fs !! (l ++ [x]).
Proof. by destruct l. Qed.

Lemma tree_above fs l k : tree fs -> k <> [] -> is_Some (lstat fs (l ++ k)) -> lstat fs l = Some NDir.
Proof.
  intros Ht. induction k as [|x k IH] using rev_ind; [done|]. intros _ Hs. rewrite app_assoc, lstat_snoc in Hs.
  apply Ht in Hs. destruct (decide (k = [])) as [->|Hne]; [by rewrite app_nil_r in Hs|]. apply IH; [done|]. by rewrite Hs.
Qed.

Lemma mkdir_all_eq fs p :
  mkdir_all fs p =
  match stat fs (show (rev p)) with
  | inl NDir => (None, fs)
  | inl _ => (Some ENOTDIR, fs)
  | inr _ =>
      match p with
      | [] => (None, fs)
      | e :: up =>
          match mkdir_all fs up with
          | (None, fs') => match mkdir fs' (rev up) e with inl fs'' => (None, fs'') | inr err => (Some err, fs') end
          | (Some err, fs') => (Some err, fs')
          end
      end
  end.
Proof. by destruct p. Qed.

Lemma open_dir create fs d : Forall normal d -> canon_dir fs d -> open create fs (show d) = inl d.
Proof.
  intros Hn Hc. unfold open. rewrite walk_show by done. rewrite <- (app_nil_r d) at 1. rewrite walk_along by done. apply walk_nil.
Qed.

Lemma canon_insert fs l x : canon_dir fs l -> canon_dir (<[l ++ [x] := NDir]> fs) (l ++ [x]).
Proof.
  intros Hc. apply canon_snoc; [|by rewrite lstat_snoc, lookup_insert_eq]. intros k Hk. specialize (Hc k Hk).
  destruct (take k l) as [|y t] eqn:Et; [done|]. unfold lstat in *. rewrite lookup_insert_ne; [done|].
  intros E. apply (f_equal length) in E. rewrite <- Et, length_app, length_take in E. cbn in E. lia.
Qed.

(** A part of a path that is missing, if at most for a link that leads to
    nothing. *)
Definition missing (fs : FS) (d b : list string) : Prop :=
  match b with
  | [] => True
  | e :: _ => match lstat fs (d ++ [e]) with
              | None => True
              | Some (NLink _) => forall n rest, exists err, walk false fs n d (e :: rest) = inr err
              | Some _ => False
              end
  end.

Lemma missing_fails fs n d b : Forall normal (d ++ b) -> canon_dir fs d -> b <> [] -> missing fs d b ->
  exists err, walk false fs n [] (d ++ b) = inr err.
Proof.
  intros Hn Hc Hne Hm. apply Forall_app in Hn as [Hd Hb]. rewrite walk_along by done. cbn [app]. destruct b as [|e b]; [done|].
  apply Forall_cons_1 in Hb as [He _]. cbn in Hm. destruct (lstat fs (d ++ [e])) as [[| |]|] eqn:El; [done|done|apply Hm|].
  rewrite walk_normal, El by done. by eexists.
Qed.

(** Below what is missing there is nothing. *)
Lemma missing_below fs d b x : tree fs -> b <> [] -> missing fs d b -> fs !! (d ++ b ++ [x]) = None.
Proof.
  intros Ht Hne Hm. destruct b as [|e b]; [done|]. destruct (fs !! (d ++ (e :: b) ++ [x])) as [n|] eqn:E; [exfalso|done].
  assert (Hd : lstat fs (d ++ [e]) = Some NDir).
  { apply (tree_above fs _ (b ++ [x])); [done|by destruct b|].
    replace ((d ++ [e]) ++ b ++ [x]) with ((d ++ e :: b) ++ [x]) by (by rewrite <- !app_assoc).
    rewrite app_assoc in E. rewrite lstat_snoc, E. by eexists. }
  cbn in Hm. by rewrite Hd in Hm.
Qed.

Lemma mkdir_all_spec fs d b :
  tree fs -> Forall normal (d ++ b) -> canon_dir fs d -> missing fs d b ->
  let '(err, fs') := mkdir_all fs (rev (d ++ b)) in
  (forall loc, ~ d `prefix_of` loc \/ (length (d ++ b) < length loc)%nat \/ loc = d -> fs' !! loc = fs !! loc) /\
  (err = None -> canon_dir fs' (d ++ b) /\ match b with [] => True | e :: _ => lstat fs (d ++ [e]) = None end).
Proof.
  intros Ht Hn Hc. induction b as [|x b IH] using rev_ind; intros Hm.
  - rewrite app_nil_r in *. rewrite mkdir_all_eq, rev_involutive. unfold stat. rewrite open_dir, (canon_here fs d) by done. done.
  - assert (Hne : b ++ [x] <> []) by by destruct b. rewrite mkdir_all_eq, rev_involutive. unfold stat at 1, open at 1.
    destruct (missing_fails fs open_links d (b ++ [x]) Hn Hc Hne Hm) as [err0 Herr]. rewrite walk_show, Herr by done.
    rewrite app_assoc, rev_unit. rewrite app_assoc in Hn. apply Forall_app in Hn as [Hn Hx].
    assert (Hmb : missing fs d b) by by destruct b. specialize (IH Hn Hmb).
    destruct (mkdir_all fs (rev (d ++ b))) as [[err|] fs1]; destruct IH as [Hsame Hok].
    { split; [|done]. intros loc Hloc. apply Hsame. rewrite !length_app in *. cbn in Hloc. destruct Hloc as [?|[?|?]]; auto. right. left. lia. }
    destruct (Hok eq_refl) as [Hc1 Hfirst]. rewrite rev_involutive. unfold mkdir. rewrite open_dir, (canon_here fs1 _ Hc1) by done.
    assert (Hlast : fs1 !! ((d ++ b) ++ [x]) = fs !! ((d ++ b) ++ [x])) by (apply Hsame; right; left; rewrite (length_app (d ++ b)); cbn; lia).
    rewrite lstat_snoc, Hlast.
    assert (Hfs2 : forall loc, ~ d `prefix_of` loc \/ (length ((d ++ b) ++ [x]) < length loc)%nat \/ loc = d ->
      fs1 !! loc = fs !! loc /\ loc <> (d ++ b) ++ [x]).
    { intros loc Hloc. split.
      - apply Hsame. rewrite !length_app in *. cbn in Hloc. destruct Hloc as [?|[?|?]]; auto. right. left. lia.
      - intros ->. destruct Hloc as [Hp|[?|E]]; [apply Hp; rewrite <- app_assoc; by apply prefix_app_r|lia|].
        apply (f_equal length) in E. rewrite !length_app in E. cbn in E. lia. }
    destruct b as [|e b].
    + rewrite app_nil_r in *. cbn in Hm. rewrite lstat_snoc in Hm.
      destruct (fs !! (d ++ [x])) as [[| |]|] eqn:Ex; [done|done| |].
      * split; [|done]. intros loc Hloc. by apply Hfs2.
      * split; [|intros _; split; [by apply canon_insert|exact (eq_trans (lstat_snoc fs d x) Ex)]].
        intros loc Hloc. destruct (Hfs2 loc Hloc) as [? ?]. by rewrite lookup_insert_ne.
    + assert (Hnone : fs !! ((d ++ e :: b) ++ [x]) = None).
      { rewrite <- app_assoc. by apply (missing_below fs d (e :: b)). }
      rewrite Hnone. split; [|intros _; split; [by apply canon_insert|exact Hfirst]].
      intros loc Hloc. destruct (Hfs2 loc Hloc) as [? ?]. by rewrite lookup_insert_ne.
Qed.


(** The files after a write that was not refused. *)
Lemma handleWriteFile_files fs root path p data :
  resolve fs root path = inl p ->
  (handleWriteFile root fs path data).2 =
  (if maxWriteBytes <? str_len data then fs
   else match mkdir_all fs (rev (elems (Dir p))) with
   | (Some _, fs1) => fs1
   | (None, fs1) => match write_file fs1 p data with inl fs2 => fs2 | inr _ => fs1 end
   end).
Proof.
  intros H. unfold handleWriteFile, requestPath. rewrite H. cbn [refusing]. destruct (_ <? _); [done|].
  destruct (mkdir_all _ _) as [[|] fs1]; [done|]. destruct (write_file _ _ _) as [fs2|]; [by destruct (stat fs2 p)|done].
Qed.

(** C31: What the daemon writes is under its root, in a tree of files whose
    links it does not race with: unless the path it writes is itself a link,
    nothing outside the root changes, whether the request succeeds or
    fails. *)
Theorem writes_confined fs r path data loc :
  Forall normal r -> canon_dir fs r -> tree fs ->
  (forall p, resolve fs (show r) path = inl p -> forall target, lstat fs (elems p) <> Some (NLink target)) ->
  ~ r `prefix_of` loc -> (handleWriteFile (show r) fs path data).2 !! loc = fs !! loc.
Proof.
  intros Hr Hroot Ht Hlink Hloc. destruct (resolve fs (show r) path) as [p|err] eqn:Ep; [|by unfold handleWriteFile, requestPath; rewrite Ep].
  rewrite (handleWriteFile_files _ _ _ p) by done.
  destruct (_ <? _); [done|]. specialize (Hlink p eq_refl).
  destruct (resolve_spec fs r Hr Hroot path p Ep) as (d & b & -> & Hn & Hpre & Hc & Hb).
  unfold Dir. rewrite (elems_show (d ++ b)) in * by done.
  assert (Hcut : Forall normal (removelast (d ++ b))).
  { destruct (last_snoc_cases (d ++ b)) as [->|(l & x & E)]; [constructor|]. rewrite E in *. rewrite removelast_last. by apply Forall_app in Hn as [? _]. }
  rewrite elems_show by done.
  destruct (decide (b = [])) as [->|Hne].
  - rewrite app_nil_r in *. pose proof (mkdir_all_spec fs (removelast d) []) as Hmk. rewrite app_nil_r in Hmk.
    specialize (Hmk Ht Hcut Hc I). rewrite mkdir_all_eq, rev_involutive. unfold stat. rewrite open_dir, (canon_here fs _ Hc) by done.
    unfold write_file, open. rewrite walk_show, walk_there by done.
    destruct Hb as [->|[old ->]]; [done|]. cbn. rewrite lookup_insert_ne; [done|]. by intros ->.
  - destruct (last_snoc_cases b) as [->|(b0 & x & ->)]; [done|]. rewrite app_assoc, removelast_last in *.
    assert (Hb' : r `prefix_of` d /\ canon_dir fs d /\ missing fs d (b0 ++ [x])) by by destruct b0.
    destruct Hb' as (Hrd & Hcd & Hm). assert (Hm0 : missing fs d b0) by by destruct b0.
    pose proof (mkdir_all_spec fs d b0 Ht Hcut Hcd Hm0) as Hmk.
    destruct (mkdir_all fs (rev (d ++ b0))) as [err fs1]. destruct Hmk as [Hsame Hok].
    assert (Hout : fs1 !! loc = fs !! loc).
    { apply Hsame. left. intros Hd. apply Hloc. by transitivity d. }
    destruct err as [err|]; [exact Hout|]. destruct (Hok eq_refl) as [Hc1 Hfirst].
    apply Forall_app in Hn as [_ Hx]. apply Forall_cons_1 in Hx as [Hx _].
    assert (Hw : open true fs1 (show ((d ++ b0) ++ [x])) = inl ((d ++ b0) ++ [x]) \/ lstat fs1 ((d ++ b0) ++ [x]) = Some NDir).
    { unfold open. rewrite walk_show by (apply Forall_app_2; [done|]; by apply Forall_cons_2).
      rewrite walk_along, walk_normal by done. cbn [app].
      destruct (lstat fs1 ((d ++ b0) ++ [x])) as [[| |target]|] eqn:El; [by right|by left| |by left]. exfalso.
      rewrite lstat_snoc, Hsame in El by (right; left; rewrite (length_app (d ++ b0)); cbn; lia).
      apply (Hlink target). by rewrite lstat_snoc. }
    unfold write_file. destruct Hw as [->|Hd].
    + destruct (lstat fs1 _) as [[| |]|]; cbn; [exact Hout| | |]; (rewrite lookup_insert_ne; [exact Hout|]; intros <-; exact (Hloc Hpre)).
    + unfold open. rewrite walk_show by (apply Forall_app_2; [done|]; by apply Forall_cons_2).
      rewrite walk_along, walk_normal by done. cbn [app]. rewrite Hd, walk_nil, Hd. exact Hout.
Qed.

(** ** A concrete tree *)

(** A root [/work] with a file in a directory, beside [/etc]. *)
Definition a_tree : FS :=
  {[ ["work"] := NDir; ["work"; "src"] := NDir; ["work"; "src"; "a.go"] := NFile "package a"; ["work"; "in"] := NLink "src";
     ["etc"] := NDir; ["etc"; "passwd"] := NFile "root"; ["work"; "up"] := NLink "/etc" ]}.

(** [a_tree] with a link in the root to a file that does not exist. *)
Definition a_trap : FS := <[["work"; "out"] := NLink "/etc/new"]> a_tree.

Lemma tree_check fs :
  map_Forall (fun k _ => lstat fs (removelast k) = Some NDir) fs -> tree fs.
Proof. intros H l x [n Hn]. specialize (H _ _ Hn). cbn in H. by rewrite removelast_last in H. Qed.

Lemma a_tree_tree : tree a_tree.
Proof. apply tree_check, map_Forall_to_list. vm_compute. repeat constructor. Defined.

Lemma work_normal : Forall normal ["work"].
Proof. apply (elems_normal "/work"). Defined.

Lemma work_canon : canon_dir a_tree ["work"].
Proof. intros [|[|k]] Hk; [reflexivity|reflexivity|cbn in Hk; lia]. Defined.


(** A write through a link that stays in the root, creating a directory. *)
Lemma writes_confined_witness :
  (handleWriteFile "/work" a_tree "in/new/b.go" "package b").2 !! ["work"; "src"; "new"; "b.go"] = Some (NFile "package b") /\
  (handleWriteFile "/work" a_tree "in/new/b.go" "package b").2 !! ["etc"; "passwd"] = Some (NFile "root").
Proof.
  split; [vm_compute; reflexivity|].
  transitivity (a_tree !! ["etc"; "passwd"]); [|vm_compute; reflexivity].
  apply (writes_confined a_tree ["work"] "in/new/b.go" "package b" ["etc"; "passwd"]);
    [exact work_normal|exact work_canon|exact a_tree_tree| |].
  - intros p Hp target. vm_compute in Hp. injection Hp as <-. vm_compute. discriminate.
  - intros [k Hk]. discriminate Hk.
Defined.

