(* ===== verification/Pool.v ===== *)
(** The pool of connections to MCP servers (internal/mcp pool.go, server.go,
    conn.go, and the retries of tools.go): one connection to each remote
    server and one to each stdio server in each workspace that runs it, opened
    on demand by goroutines of their own. Each operation is a thread of atomic
    actions ([Threads]), a section under a lock or a call of what is outside:
    the configuration, the protocol client and its transports, and clocks are
    functions of a step counter. Authorization is left out, but for the
    challenge a server refuses with. *)
From stdpp Require Import sorting.
From S2P Require Import Prelude GoStr Failure Threads.
From stdpp Require Import options.
Open Scope Z_scope.

(** ** Data *)

(* @src internal/mcp/pool.go 18-30 StateDisabled *)
Definition StateDisabled : string := "disabled".
Definition StateIdle : string := "idle".
Definition StateConnecting : string := "connecting".
Definition StateConnected : string := "connected".
Definition StateUnauthorized : string := "unauthorized".
Definition StateError : string := "error".
Definition StateRemoved : string := "removed".

(* @src internal/mcp/pool.go 32-39 KindHTTP *)
Definition KindHTTP : string := "http".
Definition KindStdio : string := "stdio".

(* @src internal/mcp/pool.go 41-42 ErrDisabled *)
Definition ErrDisabled : GoError := ErrSentinel "the server is turned off".
(* @src internal/mcp/pool.go 44-45 ErrNeedsWorkspace *)
Definition ErrNeedsWorkspace : GoError := ErrSentinel "a stdio server runs in a workspace, and none was given".

(* @src internal/mcp/limits.go 42-52 retryAfter *)
Definition retryAfter : Z := 30.
Definition maxLogLines : nat := 200.
Definition maxLogLine : nat := 2000.

(** What a server's configuration says, without what authorizes it. *)
(* @src internal/mcp/pool.go 47-66 ServerConfig *)
Record ServerConfig := mkServerConfig {
  sc_ID : string; sc_Name : string; sc_Kind : string; sc_URL : string; sc_Headers : gmap string string;
  sc_Command : string; sc_Args : list string; sc_Env : list string; sc_Enabled : bool; sc_DisabledTools : list string;
}.

(** A tool, resource, template, or prompt, as the server describes it. *)
Record Listed := mkListed { li_Name : string; li_Description : string; li_Schema : string }.

(* @src internal/mcp/conn.go 27-38 Catalog *)
Record Catalog := mkCatalog {
  ct_Tools : list Listed; ct_Excluded : list (string * string); ct_Resources : list Listed; ct_Templates : list Listed;
  ct_Prompts : list Listed; ct_Errors : gmap string string; ct_FetchedAt : Z;
}.
Definition no_catalog : Catalog := mkCatalog [] [] [] [] [] ∅ 0.

(* @src internal/mcp/pool.go 150-158 LogLine *)
Record LogLine := mkLogLine { ll_Time : Z; ll_Source : string; ll_Level : string; ll_Text : string }.

(* @src internal/mcp/pool.go 160-166 Status *)
Record Status := mkStatus { st_State : string; st_Error : string; st_Workspaces : list string }.

(** [cn_ready] is how often the channel [ready] was closed; [cn_listening]
    whether the subscription, when there is one, was told to stop. *)
(* @src internal/mcp/conn.go 12-25 conn *)
Record conn := mkConn {
  cn_workspace : string; cn_ready : nat; cn_cancelled : bool; cn_client : option nat; cn_err : option GoError;
  cn_attempted : Z; cn_lists : Catalog; cn_listening : option bool;
}.

(** The protocol client of a connection: what it was opened with, and
    whether it is closed. *)
Record mcpClient := mkClient { cl_conn : nat; cl_server : nat; cl_config : ServerConfig; cl_closed : bool }.

(** [sv_conns] are the connections by workspace, the remote one under the
    empty name. *)
(* @src internal/mcp/server.go 16-40 server *)
Record server := mkServer {
  sv_id : string; sv_name : string; sv_kind : string; sv_enabled : bool; sv_disabled : list string;
  sv_conns : gmap string nat; sv_catalog : Catalog; sv_challenge : option string; sv_logs : list LogLine;
}.

Record ServerEvent := mkServerEvent { ev_ServerID : string; ev_Name : string; ev_State : string; ev_Error : string }.

(** Connections, servers, and clients are shared objects, known by their
    addresses. Of the pool's goroutines, which the wait group counts,
    [pl_opening] are the connections that one is opening and [pl_others] the
    number of the rest. [pl_closing] are the connections that were taken from
    their server and not closed yet; nothing depends on it. *)
(* @src internal/mcp/pool.go 128-148 Pool *)
Record PoolState := mkPool {
  pl_tick : nat; pl_stopped : bool; pl_cancelled : bool; pl_others : nat; pl_servers : gmap string nat;
  pl_heap : gmap nat server; pl_conns : gmap nat conn; pl_opening : gset nat; pl_closing : gset nat;
  pl_clients : gmap nat mcpClient; pl_events : list ServerEvent;
}.

(* @src internal/mcp/pool.go 168-185 NewPool *)
Definition NewPool : PoolState := mkPool 0 false false 0 ∅ ∅ ∅ ∅ ∅ ∅ [].

Definition tick s := mkPool (S (pl_tick s)) (pl_stopped s) (pl_cancelled s) (pl_others s) (pl_servers s) (pl_heap s) (pl_conns s) (pl_opening s) (pl_closing s) (pl_clients s) (pl_events s).
Definition set_stopped s := mkPool (pl_tick s) (true) (pl_cancelled s) (pl_others s) (pl_servers s) (pl_heap s) (pl_conns s) (pl_opening s) (pl_closing s) (pl_clients s) (pl_events s).
Definition set_cancelled s := mkPool (pl_tick s) (pl_stopped s) (true) (pl_others s) (pl_servers s) (pl_heap s) (pl_conns s) (pl_opening s) (pl_closing s) (pl_clients s) (pl_events s).
Definition set_others x s := mkPool (pl_tick s) (pl_stopped s) (pl_cancelled s) (x) (pl_servers s) (pl_heap s) (pl_conns s) (pl_opening s) (pl_closing s) (pl_clients s) (pl_events s).
Definition set_servers x s := mkPool (pl_tick s) (pl_stopped s) (pl_cancelled s) (pl_others s) (x) (pl_heap s) (pl_conns s) (pl_opening s) (pl_closing s) (pl_clients s) (pl_events s).
Definition set_heap x s := mkPool (pl_tick s) (pl_stopped s) (pl_cancelled s) (pl_others s) (pl_servers s) (x) (pl_conns s) (pl_opening s) (pl_closing s) (pl_clients s) (pl_events s).
Definition set_conns x s := mkPool (pl_tick s) (pl_stopped s) (pl_cancelled s) (pl_others s) (pl_servers s) (pl_heap s) (x) (pl_opening s) (pl_closing s) (pl_clients s) (pl_events s).
Definition set_opening x s := mkPool (pl_tick s) (pl_stopped s) (pl_cancelled s) (pl_others s) (pl_servers s) (pl_heap s) (pl_conns s) (x) (pl_closing s) (pl_clients s) (pl_events s).
Definition set_closing x s := mkPool (pl_tick s) (pl_stopped s) (pl_cancelled s) (pl_others s) (pl_servers s) (pl_heap s) (pl_conns s) (pl_opening s) (x) (pl_clients s) (pl_events s).
Definition set_clients x s := mkPool (pl_tick s) (pl_stopped s) (pl_cancelled s) (pl_others s) (pl_servers s) (pl_heap s) (pl_conns s) (pl_opening s) (pl_closing s) (x) (pl_events s).
Definition set_events x s := mkPool (pl_tick s) (pl_stopped s) (pl_cancelled s) (pl_others s) (pl_servers s) (pl_heap s) (pl_conns s) (pl_opening s) (pl_closing s) (pl_clients s) (x).

Definition cancel (c : conn) := mkConn (cn_workspace c) (cn_ready c) (true) (cn_client c) (cn_err c) (cn_attempted c) (cn_lists c) (cn_listening c).
Definition become_ready (c : conn) := mkConn (cn_workspace c) (S (cn_ready c)) (cn_cancelled c) (cn_client c) (cn_err c) (cn_attempted c) (cn_lists c) (cn_listening c).
Definition with_client cl (c : conn) := mkConn (cn_workspace c) (cn_ready c) (cn_cancelled c) (Some cl) (cn_err c) (cn_attempted c) (cn_lists c) (cn_listening c).
Definition with_err err (c : conn) := mkConn (cn_workspace c) (cn_ready c) (cn_cancelled c) (cn_client c) (Some err) (cn_attempted c) (cn_lists c) (cn_listening c).
Definition with_lists l (c : conn) := mkConn (cn_workspace c) (cn_ready c) (cn_cancelled c) (cn_client c) (cn_err c) (cn_attempted c) (l) (cn_listening c).
Definition with_listening b (c : conn) := mkConn (cn_workspace c) (cn_ready c) (cn_cancelled c) (cn_client c) (cn_err c) (cn_attempted c) (cn_lists c) (Some b).
Definition with_config (cfg : ServerConfig) (v : server) := mkServer (sv_id v) (sc_Name cfg) (sc_Kind cfg) (sc_Enabled cfg) (sc_DisabledTools cfg) (sv_conns v) (sv_catalog v) (sv_challenge v) (sv_logs v).
Definition with_conns x (v : server) := mkServer (sv_id v) (sv_name v) (sv_kind v) (sv_enabled v) (sv_disabled v) (x) (sv_catalog v) (sv_challenge v) (sv_logs v).
Definition with_catalog x (v : server) := mkServer (sv_id v) (sv_name v) (sv_kind v) (sv_enabled v) (sv_disabled v) (sv_conns v) (x) (sv_challenge v) (sv_logs v).
Definition with_challenge x (v : server) := mkServer (sv_id v) (sv_name v) (sv_kind v) (sv_enabled v) (sv_disabled v) (sv_conns v) (sv_catalog v) (x) (sv_logs v).
Definition with_logs x (v : server) := mkServer (sv_id v) (sv_name v) (sv_kind v) (sv_enabled v) (sv_disabled v) (sv_conns v) (sv_catalog v) (sv_challenge v) (x).
Definition closed_client (c : mcpClient) := mkClient (cl_conn c) (cl_server c) (cl_config c) true.

Definition at_conn (p : nat) (f : conn -> conn) (s : PoolState) : PoolState := set_conns (alter f p (pl_conns s)) s.
Definition at_server (r : nat) (f : server -> server) (s : PoolState) : PoolState := set_heap (alter f r (pl_heap s)) s.
Definition close_client (cl : nat) (s : PoolState) : PoolState := set_clients (alter closed_client cl (pl_clients s)) s.

(** ** Outside *)

(** What a client lists: its tools, of which a header annotation can rule one
    out, and the rest, each unless the server does not offer it. *)
Record PoolEnv := mkPoolEnv {
  pe_config : nat -> string -> ServerConfig + GoError;
  pe_configs : nat -> list ServerConfig + GoError;
  pe_now : nat -> Z;
  pe_cancelled : nat -> option GoError;
  pe_launcher : bool;
  pe_launch : nat -> ServerConfig -> string -> option GoError;
  pe_connect : nat -> ServerConfig -> option GoError;
  pe_refresh : nat -> bool;
  pe_auth : GoError -> option (Z * string);
  pe_rpc : GoError -> option Z;
  pe_http : GoError -> bool;
  pe_info : nat -> string;
  pe_offers : nat -> bool * bool * bool;
  pe_checks_headers : nat -> bool;
  pe_bad_headers : string -> option string;
  pe_tools : nat -> nat -> list Listed + GoError;
  pe_resources : nat -> nat -> list Listed + GoError;
  pe_templates : nat -> nat -> list Listed + GoError;
  pe_prompts : nat -> nat -> list Listed + GoError;
  pe_listens : nat -> bool;
  pe_listen : nat -> nat -> GoError;
  pe_timer : nat -> bool;
  pe_call : nat -> nat -> string + GoError;
}.

(** ** A server's record *)

(* @src internal/mcp/server.go 153-159 server.connFor *)
Definition connFor (v : server) (workspace : string) : option nat := sv_conns v !! workspace.
(* @src internal/mcp/server.go 161-168 server.setConn *)
Definition setConn (workspace : string) (p : nat) (v : server) : server := with_conns (<[workspace := p]> (sv_conns v)) v.

(** The connections a server gives up, and what it keeps. *)
Definition taken (workspace : string) (v : server) : list nat :=
  if String.eqb workspace EmptyString then map snd (map_to_list (sv_conns v)) else option_list (sv_conns v !! workspace).
Definition kept (workspace : string) (v : server) : server :=
  with_conns (if String.eqb workspace EmptyString then ∅ else base.delete workspace (sv_conns v)) v.

(** A log keeps its newest lines. *)
Definition add_line (l : LogLine) (v : server) : server :=
  let logs := sv_logs v ++ [l] in with_logs (drop (length logs - maxLogLines) logs) v.

Definition ellipsis : string := of_bytes [226; 128; 166].
Definition cut_line (line : string) : string :=
  if (maxLogLine <? String.length line)%nat then str_take maxLogLine line +:+ ellipsis else line.
Definition newline : Ascii.ascii := Ascii.ascii_of_nat 10.

(* @src internal/mcp/conn.go 412-418 where *)
Definition where_ (workspace : string) : string :=
  if String.eqb workspace EmptyString then EmptyString else " in workspace " +:+ workspace.

(* @src internal/mcp/conn.go 380-388 conn.finished *)
Definition finished (c : conn) : bool := (0 <? cn_ready c)%nat.

Definition is_open (s : PoolState) (cl : nat) : bool :=
  match pl_clients s !! cl with Some c => negb (cl_closed c) | None => false end.

(* @src internal/mcp/conn.go 390-397 conn.alive *)
Definition alive (s : PoolState) (c : conn) : bool :=
  match cn_err c, cn_client c with None, Some cl => is_open s cl | _, _ => false end.

Section pool.
(** [rounds] is how often a server ends a subscription at most. *)
Context (E : PoolEnv) (rounds : nat).
Abbreviation P := (prog PoolState).

(** ** Actions *)

Definition step {A} (f : PoolState -> A * PoolState) : P A := act (fun s => f (tick s)).
Definition ask {A} (f : nat -> A) : P A := step (fun s => (f (pl_tick s), s)).
Definition look {A} (f : PoolState -> A) : P A := step (fun s => (f s, s)).
Definition change (f : PoolState -> PoolState) : P unit := step (fun s => (tt, f s)).

Definition try {A B} (m : P (A + GoError)) (f : A -> P (B + GoError)) : P (B + GoError) :=
  r ← m; match r with inl a => f a | inr e => mret (inr e) end.
Notation "x '<-?' m ; k" := (try m (fun x => k)) (at level 20, m at level 100, k at level 200, only parsing).

Definition new_server (id : string) : server := mkServer id EmptyString EmptyString false [] ∅ no_catalog None [].
Definition server_at (r : nat) (s : PoolState) : server := default (new_server EmptyString) (pl_heap s !! r).

(* @src internal/mcp/server.go 42-56 Pool.serverFor *)
Definition serverFor (cfg : ServerConfig) : P nat :=
  r ← step (fun s => match pl_servers s !! sc_ID cfg with
    | Some r => (r, s)
    | None => let r := fresh (dom (pl_heap s)) in
              (r, set_servers (<[sc_ID cfg := r]> (pl_servers s)) (set_heap (<[r := new_server (sc_ID cfg)]> (pl_heap s)) s))
    end);
  _ ← change (at_server r (with_config cfg));
  mret r.

(* @src internal/mcp/server.go 58-66 Pool.lookup *)
Definition lookupServer (id : string) : P ((nat * ServerConfig) + GoError) :=
  cfg <-? ask (fun t => pe_config E t id);
  r ← serverFor cfg;
  mret (inl (r, cfg)).

Fixpoint add_lines (r : nat) (source level : string) (lines : list string) : P unit :=
  match lines with
  | [] => mret tt
  | line :: lines' =>
      _ ← step (fun s => (tt, at_server r (add_line (mkLogLine (pe_now E (pl_tick s)) source level (cut_line line))) s));
      add_lines r source level lines'
  end.
(* @src internal/mcp/server.go 194-207 server.addLog *)
Definition addLog (r : nat) (source level text : string) : P unit :=
  add_lines r source level (split (trim_right text 10) newline).

(** What the connections of a server make of its state, and the failure of
    one of them. *)
Definition tell (s : PoolState) (out : Status * option GoError) (c : conn) : Status * option GoError :=
  let '(st, failure) := out in
  if negb (finished c)
  then (if String.eqb (st_State st) StateConnected then st else mkStatus StateConnecting (st_Error st) (st_Workspaces st), failure)
  else if alive s c
  then (mkStatus StateConnected (st_Error st)
          (if String.eqb (cn_workspace c) EmptyString then st_Workspaces st else st_Workspaces st ++ [cn_workspace c]), failure)
  else match cn_err c with Some err => (st, Some err) | None => (st, failure) end.

(** The stdio connections come in the order of [map_to_list], of a Go map in
    any. *)
(* @src internal/mcp/server.go 112-151 server.statusLocked *)
Definition statusLocked (s : PoolState) (v : server) : Status :=
  if negb (sv_enabled v) then mkStatus StateDisabled EmptyString []
  else
    let conns := omap (fun kp => pl_conns s !! kp.2) (map_to_list (sv_conns v)) in
    let '(st, failure) := foldl (tell s) (mkStatus StateIdle EmptyString [], None) conns in
    match String.eqb (st_State st) StateIdle, failure with
    | true, Some err =>
        match pe_auth E err with
        | Some (401, _) => mkStatus StateUnauthorized (error_text err) []
        | _ => mkStatus StateError (error_text err) []
        end
    | _, _ => mkStatus (st_State st) (st_Error st) (merge_sort String.le (st_Workspaces st))
    end.

(* @src internal/mcp/server.go 105-110 server.status *)
Definition status (r : nat) : P Status := look (fun s => statusLocked s (server_at r s)).

(* @src internal/mcp/server.go 90-103 Pool.emitState *)
Definition emitState (id name : string) (st : Status) : P unit :=
  change (fun s => set_events (pl_events s ++ [mkServerEvent id name (st_State st) (st_Error st)]) s).

(* @src internal/mcp/server.go 81-88 Pool.emit *)
Definition emit (r : nat) : P unit :=
  st ← status r;
  v ← look (server_at r);
  emitState (sv_id v) (sv_name v) st.

(* @src internal/mcp/pool.go 313-322 Pool.Status *)
Definition PoolStatus (id : string) : P Status :=
  r ← look (fun s => pl_servers s !! id);
  match r with None => mret (mkStatus StateIdle EmptyString []) | Some r => status r end.

(** Whether a connection is its server's. *)
Definition current (r p : nat) (s : PoolState) : bool :=
  match pl_conns s !! p with
  | Some c => bool_decide (connFor (server_at r s) (cn_workspace c) = Some p)
  | None => false
  end.
Definition of_conn {A} (p : nat) (d : A) (f : conn -> A) : P A :=
  look (fun s => match pl_conns s !! p with Some c => f c | None => d end).

(** ** Ending connections *)

Definition wait_ready (p : nat) : P (unit + GoError) :=
  await (fun s => match pe_cancelled E (S (pl_tick s)) with
                  | Some err => Some (inr err, tick s)
                  | None => match pl_conns s !! p with
                            | Some c => if finished c then Some (inl tt, tick s) else None
                            | None => None
                            end
                  end).

(** The last action closes the client, and the connection needs no more of
    anyone. *)
Definition end_client (p : nat) (s : PoolState) : PoolState :=
  let s := set_closing (pl_closing s ∖ {[p]}) s in
  match pl_conns s !! p with
  | Some c => match cn_client c with Some cl => close_client cl s | None => s end
  | None => s
  end.
(* @src internal/mcp/conn.go 399-410 conn.close *)
Definition close (p : nat) : P unit :=
  _ ← change (at_conn p cancel);
  _ ← await (fun s => match pl_conns s !! p with
                      | Some c => if finished c then Some (tt, tick s) else None
                      | None => None
                      end);
  _ ← change (at_conn p (fun c => match cn_listening c with Some _ => with_listening true c | None => c end));
  change (end_client p).

Fixpoint close_all (ps : list nat) : P unit :=
  match ps with [] => mret tt | p :: ps' => _ ← close p; close_all ps' end.

(* @src internal/mcp/server.go 170-192 server.takeConns *)
Definition takeConns (r : nat) (workspace : string) : P (list nat) :=
  step (fun s => let ps := taken workspace (server_at r s) in
                 (ps, set_closing (list_to_set ps ∪ pl_closing s) (at_server r (kept workspace) s))).

(** A goroutine of the pool's that does not open a connection. *)
Definition background (m : P unit) : P unit :=
  _ ← change (fun s => set_others (S (pl_others s)) s);
  go (_ ← m; change (fun s => set_others (pred (pl_others s)) s)).

(* @src internal/mcp/conn.go 359-378 Pool.dropped *)
Definition dropped (r p : nat) (err : GoError) : P unit :=
  ws ← of_conn p EmptyString cn_workspace;
  cur ← step (fun s => if current r p s then (true, at_conn p (with_err err) s) else (false, s));
  if negb cur then mret tt
  else
    _ ← addLog r "eika" "error" ("connection lost" +:+ where_ ws +:+ ": " +:+ error_text err);
    _ ← background (close p);
    emit r.

(** ** What a connection serves *)

Definition with_error (op : string) (err : GoError) (c : Catalog) : Catalog :=
  mkCatalog (ct_Tools c) (ct_Excluded c) (ct_Resources c) (ct_Templates c) (ct_Prompts c) (<[op := error_text err]> (ct_Errors c)) (ct_FetchedAt c).

(* @src internal/mcp/conn.go 261-282 Pool.listTools *)
Definition listTools (cl : nat) (cat : Catalog) : P Catalog :=
  r ← ask (fun t => pe_tools E t cl);
  match r with
  | inr err => mret (with_error "tools/list" err cat)
  | inl tools =>
      checks ← ask (fun _ => pe_checks_headers E cl);
      let bad (t : Listed) : option string := if checks : bool then pe_bad_headers E (li_Schema t) else None in
      mret (mkCatalog (base.filter (fun t => bad t = None) tools)
              (omap (fun t => (fun why => (li_Name t, why)) <$> bad t) tools)
              (ct_Resources cat) (ct_Templates cat) (ct_Prompts cat) (ct_Errors cat) (ct_FetchedAt cat))
  end.

(* @src internal/mcp/conn.go 225-259 Pool.catalog *)
Definition catalog (cl : nat) : P Catalog :=
  cat ← ask (fun t => mkCatalog [] [] [] [] [] ∅ (pe_now E t));
  let '(tools, resources, prompts) := pe_offers E cl in
  cat ← (if tools then listTools cl cat else mret cat);
  cat ← (if resources then
    r ← ask (fun t => pe_resources E t cl);
    let cat := match r with
      | inr err => with_error "resources/list" err cat
      | inl l => mkCatalog (ct_Tools cat) (ct_Excluded cat) l (ct_Templates cat) (ct_Prompts cat) (ct_Errors cat) (ct_FetchedAt cat)
      end in
    r ← ask (fun t => pe_templates E t cl);
    mret match r with
      | inr err => if bool_decide (pe_rpc E err = Some (-32601)) then cat else with_error "resources/templates/list" err cat
      | inl l => mkCatalog (ct_Tools cat) (ct_Excluded cat) (ct_Resources cat) l (ct_Prompts cat) (ct_Errors cat) (ct_FetchedAt cat)
      end
    else mret cat);
  if prompts then
    r ← ask (fun t => pe_prompts E t cl);
    mret match r with
      | inr err => with_error "prompts/list" err cat
      | inl l => mkCatalog (ct_Tools cat) (ct_Excluded cat) (ct_Resources cat) (ct_Templates cat) l (ct_Errors cat) (ct_FetchedAt cat)
      end
  else mret cat.

(* @src internal/mcp/conn.go 306-324 Pool.relist *)
Definition relist (r p : nat) : P unit :=
  client ← of_conn p None cn_client;
  match client with
  | None => mret tt
  | Some cl =>
      lists ← catalog cl;
      _ ← change (fun s => let s' := at_conn p (with_lists lists) s in
                           if current r p s then at_server r (with_catalog lists) s' else s');
      emit r
  end.

(** Whether a subscription was told to stop. *)
Definition told (p : nat) (s : PoolState) : bool :=
  pl_cancelled s || match pl_conns s !! p with Some c => bool_decide (cn_listening c = Some true) | None => false end.

(* @src internal/mcp/conn.go 326-357 Pool.listen *)
Fixpoint listen (fuel : nat) (r p cl : nat) : P unit :=
  match fuel with
  | O => mret tt
  | S fuel' =>
      err ← ask (fun t => pe_listen E t cl);
      stop ← look (told p);
      if stop : bool then mret tt
      else if bool_decide (is_Some (pe_rpc E err)) || pe_http E err
      then addLog r "eika" "warning" ("the server refused a subscription to its list changes: " +:+ error_text err)
      else
        up ← look (fun s => is_open s cl);
        if negb up then mret tt
        else
          stop ← look (fun s => told p s && pe_timer E (pl_tick s));
          if stop : bool then mret tt
          else
            _ ← relist r p;
            listen fuel' r p cl
  end.

(** What a server sends unasked. *)
Inductive Notification : Type := ListChanged | LogMessage (Level Logger Data : string) | OtherNotification.

(** [strings.Trim] of double quotes. *)
Fixpoint trim_left_quotes (s : string) : string :=
  match s with String a s' => if Ascii.eqb a (Ascii.ascii_of_nat 34) then trim_left_quotes s' else s | EmptyString => s end.
Definition trim_quotes (s : string) : string := trim_right (trim_left_quotes s) 34.

(* @src internal/mcp/conn.go 284-304 Pool.notified *)
Definition notified (r p : nat) (n : Notification) : P unit :=
  match n with
  | ListChanged => background (relist r p)
  | LogMessage level logger data =>
      let text := trim_quotes data in
      addLog r "server" level (if String.eqb logger EmptyString then text else logger +:+ ": " +:+ text)
  | OtherNotification => mret tt
  end.

(** ** Opening a connection *)

(** The protocol client, when it connects. *)
Definition connect (r p : nat) (cfg : ServerConfig) : P (nat + GoError) :=
  step (fun s => match pe_connect E (pl_tick s) cfg with
                 | Some err => (inr err, s)
                 | None => let cl := fresh (dom (pl_clients s)) in
                           (inl cl, set_clients (<[cl := mkClient p r cfg false]> (pl_clients s)) s)
                 end).

(* @src internal/mcp/conn.go 174-204 Pool.dial *)
Definition dial (r p : nat) (cfg : ServerConfig) : P (nat + GoError) :=
  if String.eqb (sc_Kind cfg) KindHTTP then
    c ← connect r p cfg;
    match c with
    | inl cl => mret (inl cl)
    | inr err =>
        refreshed ← ask (fun t => match pe_auth E err with Some (401, _) => pe_refresh E t | _ => false end);
        if refreshed : bool then connect r p cfg else mret (inr err)
    end
  else if String.eqb (sc_Kind cfg) KindStdio then
    if negb (pe_launcher E) then mret (inr (ErrText "this harness cannot start stdio servers"))
    else
      ws ← of_conn p EmptyString cn_workspace;
      l ← ask (fun t => pe_launch E t cfg ws);
      match l with
      | Some err => mret (inr (ErrWrap ("start " +:+ sc_Command cfg) err))
      | None => connect r p cfg
      end
  else mret (inr (ErrText ("unknown server kind " +:+ go_quote (sc_Kind cfg)))).

(* @src internal/mcp/conn.go 206-223 Pool.failed *)
Definition failed (r p : nat) (err : GoError) : P unit :=
  ws ← of_conn p EmptyString cn_workspace;
  _ ← (match pe_auth E err with
       | Some (_, challenge) =>
           _ ← change (at_server r (with_challenge (Some challenge)));
           addLog r "eika" "warning" "the server asks for authorization"
       | None => addLog r "eika" "error" ("connection failed" +:+ where_ ws +:+ ": " +:+ error_text err)
       end);
  _ ← change (at_conn p (with_err err));
  _ ← change (at_conn p become_ready);
  emit r.

Definition stale : GoError := ErrText "the server's configuration changed while connecting".

(** What connecting came to, when the connection is still its server's. *)
Definition install (r p cl : nat) (lists : Catalog) (s : PoolState) : bool * PoolState :=
  if current r p s
  then (true, at_server r (with_catalog lists) (at_conn p (fun c => with_lists lists (with_client cl c)) s))
  else (false, s).

(* @src internal/mcp/conn.go 131-172 Pool.open *)
Definition open (r p : nat) (cfg : ServerConfig) : P unit :=
  d ← dial r p cfg;
  match d with
  | inr err => failed r p err
  | inl cl =>
      lists ← catalog cl;
      cur ← step (install r p cl lists);
      if negb cur then
        _ ← change (close_client cl);
        _ ← change (at_conn p (with_err stale));
        change (at_conn p become_ready)
      else
        ws ← of_conn p EmptyString cn_workspace;
        info ← ask (fun _ => pe_info E cl);
        _ ← addLog r "eika" "info" ("connected: " +:+ info +:+ where_ ws);
        _ ← (if pe_listens E cl then
               _ ← change (at_conn p (with_listening false));
               background (listen rounds r p cl)
             else mret tt);
        _ ← change (at_conn p become_ready);
        emit r
  end.

(** Connecting, in a goroutine of its own. *)
Definition opener (r p : nat) (cfg : ServerConfig) : P unit :=
  _ ← open r p cfg;
  _ ← change (at_conn p cancel);
  change (fun s => set_opening (pl_opening s ∖ {[p]}) s).

Inductive choice : Type := Live (p : nat) | Recent (err : GoError) | Wait (p : nat) | Fresh (p : nat).

(** The connection to use, under the server's lock. *)
(* @src internal/mcp/conn.go 59-129 Pool.connection *)
Definition pick (r : nat) (key : string) (retry : bool) (s : PoolState) : choice * PoolState :=
  let now := pe_now E (pl_tick s) in
  let p := fresh (dom (pl_conns s)) in
  let anew := (Fresh p, at_server r (setConn key p)
                          (set_conns (<[p := mkConn key O false None None now no_catalog None]> (pl_conns s)) s)) in
  match connFor (server_at r s) key with
  | None => anew
  | Some q =>
      match pl_conns s !! q with
      | None => anew
      | Some c =>
          if negb (finished c) then (Wait q, s)
          else if alive s c then (Live q, s)
          else match cn_err c with
               | Some err => if negb retry && (now - cn_attempted c <? retryAfter) then (Recent err, s) else anew
               | None => anew
               end
      end
  end.

Definition await_conn (p : nat) : P (nat + GoError) :=
  _ <-? wait_ready p;
  err ← of_conn p None cn_err;
  mret (match err with Some e => inr e | None => inl p end).

(* @src internal/mcp/conn.go 59-129 Pool.connection *)
Definition connection (id workspaceID : string) (retry : bool) : P (nat + GoError) :=
  x <-? lookupServer id;
  let '(r, cfg) := x in
  let stdio := String.eqb (sc_Kind cfg) KindStdio in
  if negb (sc_Enabled cfg) then mret (inr ErrDisabled)
  else if stdio && String.eqb workspaceID EmptyString then mret (inr ErrNeedsWorkspace)
  else
    c ← step (pick r (if stdio then workspaceID else EmptyString) retry);
    match c with
    | Live p => mret (inl p)
    | Recent err => mret (inr err)
    | Wait p => await_conn p
    | Fresh p =>
        stopped ← step (fun s => if pl_stopped s then (true, s) else (false, set_opening ({[p]} ∪ pl_opening s) s));
        if stopped : bool then
          _ ← change (at_conn p cancel);
          mret (inr (ErrText "the harness is shutting down"))
        else
          _ ← emit r;
          _ ← go (opener r p cfg);
          await_conn p
    end.

(* @src internal/mcp/conn.go 46-57 Pool.connectInBackground *)
Definition connectInBackground (id : string) : P unit := background (_ ← connection id EmptyString false; mret tt).

(** ** The pool *)

Fixpoint start_all (cfgs : list ServerConfig) : P unit :=
  match cfgs with
  | [] => mret tt
  | cfg :: cfgs' =>
      _ ← serverFor cfg;
      _ ← (if sc_Enabled cfg && String.eqb (sc_Kind cfg) KindHTTP then connectInBackground (sc_ID cfg) else mret tt);
      start_all cfgs'
  end.
(* @src internal/mcp/pool.go 187-201 Pool.Start *)
Definition Start : P (unit + GoError) :=
  cfgs ← ask (pe_configs E);
  match cfgs with
  | inr err => mret (inr (ErrWrap "list mcp servers" err))
  | inl cfgs => _ ← start_all cfgs; mret (inl tt)
  end.

Definition known (s : PoolState) : list nat := map snd (map_to_list (pl_servers s)).

Fixpoint end_all (workspace : string) (telling : bool) (rs : list nat) : P unit :=
  match rs with
  | [] => mret tt
  | r :: rs' =>
      ps ← takeConns r workspace;
      _ ← close_all ps;
      _ ← (if telling && negb (bool_decide (ps = [])) then emit r else mret tt);
      end_all workspace telling rs'
  end.

(* @src internal/mcp/pool.go 203-219 Pool.Close *)
Definition Close : P unit :=
  rs ← step (fun s => (known s, set_stopped s));
  _ ← change set_cancelled;
  _ ← end_all EmptyString false rs;
  await (fun s => if bool_decide (pl_opening s = ∅) && Nat.eqb (pl_others s) O then Some (tt, tick s) else None).

(* @src internal/mcp/pool.go 221-240 Pool.Changed *)
Definition Changed (id : string) : P unit :=
  x ← lookupServer id;
  match x with
  | inr _ => mret tt
  | inl (r, cfg) =>
      ps ← takeConns r EmptyString;
      _ ← close_all ps;
      _ ← change (at_server r (with_challenge None));
      _ ← addLog r "eika" "info" "configuration changed";
      _ ← emit r;
      if sc_Enabled cfg && String.eqb (sc_Kind cfg) KindHTTP then connectInBackground id else mret tt
  end.

(* @src internal/mcp/pool.go 242-264 Pool.Removed *)
Definition Removed (id : string) : P unit :=
  found ← step (fun s => (pl_servers s !! id, set_servers (base.delete id (pl_servers s)) s));
  name ← (match found with
          | None => mret EmptyString
          | Some r =>
              ps ← takeConns r EmptyString;
              _ ← close_all ps;
              look (fun s => sv_name (server_at r s))
          end);
  emitState id name (mkStatus StateRemoved EmptyString []).

(* @src internal/mcp/pool.go 266-284 Pool.StopWorkspace *)
Definition StopWorkspace (workspaceID : string) : P unit :=
  rs ← look known;
  end_all workspaceID true rs.

(* @src internal/mcp/pool.go 286-311 Pool.Reconnect *)
Definition Reconnect (id workspaceID : string) : P (unit + GoError) :=
  x <-? lookupServer id;
  let '(r, cfg) := x in
  let key := if String.eqb (sc_Kind cfg) KindStdio then workspaceID else EmptyString in
  old ← step (fun s => let old := connFor (server_at r s) key in
                       (old, set_closing (list_to_set (option_list old) ∪ pl_closing s)
                               (at_server r (fun v => with_conns (base.delete key (sv_conns v)) v) s)));
  _ ← (match old with Some p => close p | None => mret tt end);
  _ <-? connection id workspaceID true;
  mret (inl tt).

(** ** Requests over a connection *)

(* @src internal/mcp/tools.go 324-339 Pool.retire *)
Definition retire (r p : nat) (err : GoError) : P unit :=
  cur ← step (fun s => match pl_conns s !! p with
    | Some c =>
        if current r p s then
          let q := fresh (dom (pl_conns s)) in
          let failed := mkConn (cn_workspace c) 1 false None (Some err) (cn_attempted c) no_catalog None in
          (true, set_closing ({[p]} ∪ pl_closing s)
                   (at_server r (setConn (cn_workspace c) q) (set_conns (<[q := failed]> (pl_conns s)) s)))
        else (false, s)
    | None => (false, s)
    end);
  if cur : bool then
    _ ← close p;
    emit r
  else mret tt.

Definition ErrSessionExpired : string := "the server ended the session".

Fixpoint cancelled_call (err : GoError) : bool :=
  match err with
  | ErrContext _ => true
  | ErrWrap _ e | ErrSuffix e _ | ErrProvider _ _ _ _ e => cancelled_call e
  | _ => false
  end.

(* @src internal/mcp/tools.go 280-322 Pool.recover *)
Definition recover (id : string) (p : nat) (err : GoError) : P bool :=
  found ← look (fun s => pl_servers s !! id);
  match found with
  | None => mret false
  | Some r =>
      if is_sentinel ErrSessionExpired err then
        _ ← addLog r "eika" "warning" "the server ended the session; connecting again";
        _ ← retire r p err;
        mret true
      else match pe_auth E err with
      | Some (code, challenge) =>
          _ ← change (at_server r (with_challenge (Some challenge)));
          refreshed ← ask (fun t => (code =? 401) && pe_refresh E t);
          if refreshed : bool then mret true
          else if code =? 401 then _ ← retire r p err; mret false
          else _ ← addLog r "eika" "warning" (error_text err); _ ← emit r; mret false
      | None =>
          if cancelled_call err || bool_decide (is_Some (pe_rpc E err)) || pe_http E err then mret false
          else _ ← retire r p err; mret false
      end
  end.

(** A request is sent again at most once. *)
(* @src internal/mcp/tools.go 249-278 Pool.call *)
Definition call (id workspace : string) : P (string + GoError) :=
  let attempt (again : bool) (k : nat -> GoError -> P (string + GoError)) : P (string + GoError) :=
    c ← connection id workspace again;
    match c with
    | inr err => mret (inr (ErrWrap "the server is not available" err))
    | inl p =>
        client ← of_conn p None cn_client;
        res ← ask (fun t => pe_call E t (default O client));
        match res with inl out => mret (inl out) | inr err => k p err end
    end in
  attempt false (fun p err =>
    again ← recover id p err;
    if again : bool then attempt true (fun _ err => mret (inr err)) else mret (inr err)).

(** The channel of a connection ends by itself. *)
(* @src internal/mcp/client.go 640-662 Client.closedBy *)
Definition closedBy (cl : nat) (err : GoError) : P unit :=
  up ← step (fun s => match pl_clients s !! cl with
    | Some c => if cl_closed c then (None, s) else (Some (cl_server c, cl_conn c), close_client cl s)
    | None => (None, s)
    end);
  match up with Some (r, p) => dropped r p err | None => mret tt end.
End pool.
