(* ===== verification/PoolClaims.v ===== *)
(** What the pool of connections promises, however requests, the goroutines
    that open connections, and the servers' own doings interleave, and where
    it does not keep its word. *)
From S2P Require Import Prelude GoStr Failure Threads Pool.
From stdpp Require Import options.
Open Scope Z_scope.

(** ** What the invariant is about *)

(** Of a connection, its workspace, how often [ready] was closed, its client,
    and whether it failed. *)
Record shape := mkShape { q_ws : string; q_ready : nat; q_client : option nat; q_err : bool }.
Definition shape_of (c : conn) : shape := mkShape (cn_workspace c) (cn_ready c) (cn_client c) (bool_decide (is_Some (cn_err c))).

(** Of a client, whose it is and whether it is closed. *)
Record Core := mkCore {
  k_stopped : bool; k_servers : gmap string nat; k_slots : gmap nat (gmap string nat); k_conns : gmap nat shape;
  k_opening : gset nat; k_closing : gset nat; k_clients : gmap nat (nat * bool);
}.
Definition core (s : PoolState) : Core :=
  mkCore (pl_stopped s) (pl_servers s) (sv_conns <$> pl_heap s) (shape_of <$> pl_conns s) (pl_opening s) (pl_closing s)
    ((fun c => (cl_conn c, cl_closed c)) <$> pl_clients s).

(** A server has the connection for a workspace. *)
Definition slot (k : Core) (r : nat) (w : string) (p : nat) : Prop := exists m, k_slots k !! r = Some m /\ m !! w = Some p.
Definition slotted (k : Core) (p : nat) : Prop := exists r w, slot k r w p.

Record CInv (k : Core) : Prop := {
  ci_slot : forall r w p, slot k r w p -> exists q, k_conns k !! p = Some q /\ q_ws q = w;
  ci_once : forall r r' w w' p, slot k r w p -> slot k r' w' p -> r = r';
  ci_ready : forall p q, k_conns k !! p = Some q -> (q_ready q <= 1)%nat;
  ci_client : forall p q cl, k_conns k !! p = Some q -> q_client q = Some cl -> exists b, k_clients k !! cl = Some (p, b);
  ci_one : forall p cl cl' b b', k_clients k !! cl = Some (p, b) -> k_clients k !! cl' = Some (p, b') -> cl = cl';
  ci_kept : forall p q cl, k_conns k !! p = Some q -> q_client q = Some cl -> k_clients k !! cl = Some (p, false) ->
              slotted k p \/ p ∈ k_closing k;
  ci_hand : forall p cl, k_clients k !! cl = Some (p, false) -> exists q, k_conns k !! p = Some q /\
              (q_client q = Some cl \/ p ∈ k_opening k /\ q_ready q = O);
  ci_err : forall p q cl b, k_conns k !! p = Some q -> q_err q = true -> k_clients k !! cl = Some (p, b) -> b = true;
  ci_opening : forall p, p ∈ k_opening k -> is_Some (k_conns k !! p);
  ci_clients : forall cl p b, k_clients k !! cl = Some (p, b) -> is_Some (k_conns k !! p);
}.

(** What may happen: a pool that stopped stays so and opens no more, nothing
    that was closed is opened again, a connection that lost its place never
    has one again, and clients are of connections that are being opened. *)
Record CGuard (k k' : Core) : Prop := {
  cg_stopped : k_stopped k = true -> k_stopped k' = true /\ k_opening k' ⊆ k_opening k;
  cg_conns : forall p q, k_conns k !! p = Some q -> exists q', k_conns k' !! p = Some q' /\ q_ws q' = q_ws q /\
               (q_ready q <= q_ready q')%nat /\ forall cl, q_client q = Some cl -> q_client q' = Some cl;
  cg_clients : forall cl p b, k_clients k !! cl = Some (p, b) -> exists b', k_clients k' !! cl = Some (p, b') /\ (b = true -> b' = true);
  cg_dialled : forall cl p b, k_clients k' !! cl = Some (p, b) -> k_clients k !! cl = None -> p ∈ k_opening k;
  cg_slots : forall r w p, slot k' r w p -> slot k r w p \/ k_conns k !! p = None;
  cg_fresh : forall p, k_conns k !! p = None -> p ∉ k_opening k' /\ forall cl b, k_clients k' !! cl <> Some (p, b);
  cg_servers : forall id r, k_servers k' !! id = Some r -> k_servers k !! id = Some r \/ k_slots k !! r = None;
}.

(** A connection as the goroutine that opens it has it. *)
Definition clients_of (k : Core) (p : nat) : gset nat := dom (base.filter (fun x => x.2.1 = p) (k_clients k)).
Record pstate := mkPState { ps_ready : nat; ps_client : option nat; ps_opening : bool; ps_clients : gset nat; ps_failed : bool }.
Definition cview (p : nat) (k : Core) : option pstate :=
  q ← k_conns k !! p;
  Some (mkPState (q_ready q) (q_client q) (bool_decide (p ∈ k_opening k)) (clients_of k p) (q_err q && bool_decide (clients_of k p = ∅))).

Lemma elem_of_clients_of k p cl : cl ∈ clients_of k p <-> exists b, k_clients k !! cl = Some (p, b).
Proof.
  unfold clients_of. rewrite elem_of_dom. split.
  - intros [[p' b] H]. apply map_lookup_filter_Some in H as [H E]. cbn in E. subst p'. by exists b.
  - intros [b H]. exists (p, b). by apply map_lookup_filter_Some.
Qed.

Lemma clients_of_eq k k' p :
  (forall cl, (exists b, k_clients k' !! cl = Some (p, b)) <-> (exists b, k_clients k !! cl = Some (p, b))) -> clients_of k' p = clients_of k p.
Proof. intros H. apply set_eq. intros cl. rewrite !elem_of_clients_of. apply H. Qed.

(** A change, of which a goroutine that has none of [own] notices nothing. *)
Record moved (own : nat -> Prop) (k k' : Core) : Prop := {
  mv_inv : CInv k';
  mv_guard : CGuard k k';
  mv_view : forall p, ~ own p -> cview p k' = cview p k \/ cview p k = None;
}.

Lemma CGuard_refl k : CInv k -> CGuard k k.
Proof.
  intros Hi. split.
  - by intros ->.
  - intros p q Hp. exists q. eauto.
  - intros cl p b H. exists b. eauto.
  - intros cl p b H1 H2. congruence.
  - intros r w p H. by left.
  - intros p Hp. split.
    + intros Ho. destruct (ci_opening k Hi p Ho). congruence.
    + intros cl b H. destruct (ci_clients k Hi cl p b H). congruence.
  - intros id r H. by left.
Qed.

Lemma moved_refl own k : CInv k -> moved own k k.
Proof. intros H. split; [done|by apply CGuard_refl|by left]. Qed.

(** ** The changes there are *)

(** Changes that touch neither connections nor clients. *)
Lemma move_servers own k stopped servers :
  CInv k -> (k_stopped k = true -> stopped = true) ->
  (forall id r, servers !! id = Some r -> k_servers k !! id = Some r \/ k_slots k !! r = None) ->
  moved own k (mkCore stopped servers (k_slots k) (k_conns k) (k_opening k) (k_closing k) (k_clients k)).
Proof.
  intros Hi Hst Hs. pose proof (CGuard_refl k Hi) as [G1 G2 G3 G4 G5 G6 G7]. split; [|split; [|done..]|by left].
  - by destruct Hi.
  - cbn. intros H. split; [auto|done].
Qed.

(** A new server. *)
Lemma move_server own k servers r :
  CInv k -> k_slots k !! r = None -> (forall id r', servers !! id = Some r' -> k_servers k !! id = Some r' \/ r' = r) ->
  moved own k (mkCore (k_stopped k) servers (<[r := ∅]> (k_slots k)) (k_conns k) (k_opening k) (k_closing k) (k_clients k)).
Proof.
  intros Hi Hr Hs. set (k' := mkCore _ _ _ _ _ _ _).
  assert (Hslot : forall r' w p, slot k' r' w p <-> slot k r' w p).
  { intros r' w p. unfold slot. cbn. destruct (decide (r' = r)) as [->|Hne]; [|by rewrite lookup_insert_ne].
    rewrite lookup_insert_eq, Hr. split; [intros (m & [= <-] & H); by rewrite lookup_empty in H|by intros (m & ? & _)]. }
  pose proof (CGuard_refl k Hi) as [G1 G2 G3 G4 G5 G6 G7]. destruct Hi as [H1 H2 H3 H4 H5 H6 H7 H8 H9 H10].
  split; [split; [| |done|done|done| |done..]|split; [done..| |done|]|by left].
  - intros r' w p Hp. apply Hslot in Hp. by apply (H1 r').
  - intros r1 r2 w1 w2 p Hp Hp'. apply Hslot in Hp, Hp'. by eapply H2.
  - intros p q cl Hp Hq Hc. destruct (H6 p q cl Hp Hq Hc) as [(r' & w & Hw)|]; [left|by right]. exists r', w. by apply Hslot.
  - intros r' w p Hp. left. by apply Hslot.
  - intros id r' Hid. destruct (Hs id r' Hid) as [| ->]; [by left|by right].
Qed.

(** Connections lose their places, and somebody is to close them. *)
Lemma move_take own k (g : gmap string nat -> gmap string nat) r (X : gset nat) :
  CInv k -> (forall m w p, g m !! w = Some p -> m !! w = Some p) ->
  (forall m w p, k_slots k !! r = Some m -> m !! w = Some p -> g m !! w = Some p \/ p ∈ X) ->
  moved own k (mkCore (k_stopped k) (k_servers k) (alter g r (k_slots k)) (k_conns k) (k_opening k) (X ∪ k_closing k) (k_clients k)).
Proof.
  intros Hi Hg HX. set (k' := mkCore _ _ _ _ _ _ _).
  assert (Hback : forall r' w p, slot k' r' w p -> slot k r' w p).
  { intros r' w p (m & Hm & Hp). cbn in Hm. destruct (decide (r' = r)) as [->|Hne].
    - rewrite lookup_alter_eq in Hm. destruct (k_slots k !! r) as [m0|] eqn:E; [|done]. injection Hm as <-. exists m0. split; [done|by apply Hg].
    - rewrite lookup_alter_ne in Hm by done. by exists m. }
  assert (Hforth : forall r' w p, slot k r' w p -> slot k' r' w p \/ p ∈ X).
  { intros r' w p (m & Hm & Hp). destruct (decide (r' = r)) as [->|Hne].
    - destruct (HX m w p Hm Hp) as [Hp'|]; [left|by right]. exists (g m). cbn. by rewrite lookup_alter_eq, Hm.
    - left. exists m. cbn. by rewrite lookup_alter_ne. }
  pose proof (CGuard_refl k Hi) as [G1 G2 G3 G4 G5 G6 G7]. destruct Hi as [H1 H2 H3 H4 H5 H6 H7 H8 H9 H10].
  split; [split; [| |done|done|done| |done..]|split; [done..| |done|]|by left].
  - intros r' w p Hp. by apply (H1 r'), Hback.
  - intros r1 r2 w1 w2 p Hp Hp'. eapply H2; by apply Hback.
  - intros p q cl Hp Hq Hc. cbn. destruct (H6 p q cl Hp Hq Hc) as [(r' & w & Hw)|Hcl]; [|right; set_solver].
    destruct (Hforth r' w p Hw) as [|]; [left; by exists r', w|right; set_solver].
  - intros r' w p Hp. left. by apply Hback.
  - intros id r' Hid. by left.
Qed.

(** A new connection takes a place, for good or because the one before it is
    closed or going to be. *)
Lemma move_new own k r w p q (X : gset nat) :
  CInv k -> k_conns k !! p = None -> q_ws q = w -> (q_ready q <= 1)%nat -> q_client q = None ->
  (forall old, slot k r w old -> old ∈ X \/ forall cl b, k_clients k !! cl = Some (old, b) -> b = true) ->
  moved own k (mkCore (k_stopped k) (k_servers k) (alter <[w := p]> r (k_slots k)) (<[p := q]> (k_conns k)) (k_opening k) (X ∪ k_closing k) (k_clients k)).
Proof.
  intros Hi Hp Hw Hr Hc Hold. set (k' := mkCore _ _ _ _ _ _ _).
  assert (Hback : forall r' w' p', slot k' r' w' p' -> slot k r' w' p' \/ r' = r /\ w' = w /\ p' = p).
  { intros r' w' p' (m & Hm & Hp'). cbn in Hm. destruct (decide (r' = r)) as [->|Hne].
    - rewrite lookup_alter_eq in Hm. destruct (k_slots k !! r) as [m0|] eqn:E; [|done]. injection Hm as <-.
      apply lookup_insert_Some in Hp' as [[<- <-]|[_ Hp']]; [by right|left; by exists m0].
    - rewrite lookup_alter_ne in Hm by done. left. by exists m. }
  assert (Hforth : forall r' w' p', slot k r' w' p' -> slot k' r' w' p' \/ r' = r /\ w' = w).
  { intros r' w' p' (m & Hm & Hp'). destruct (decide (r' = r)) as [->|Hne].
    - destruct (decide (w' = w)) as [->|Hw']; [by right|left]. exists (<[w := p]> m). cbn. by rewrite lookup_alter_eq, Hm, lookup_insert_ne.
    - left. exists m. cbn. by rewrite lookup_alter_ne. }
  pose proof (CGuard_refl k Hi) as [G1 G2 G3 G4 G5 G6 G7]. destruct Hi as [H1 H2 H3 H4 H5 H6 H7 H8 H9 H10].
  assert (Hnone : forall r' w', ~ slot k r' w' p). { intros r' w' Hs. destruct (H1 r' w' p Hs) as (? & ? & _). congruence. }
  assert (Hnc : forall cl b, k_clients k !! cl <> Some (p, b)). { intros cl b H. destruct (H10 cl p b H). congruence. }
  assert (Hother : forall p' q', k_conns k !! p' = Some q' -> p' <> p) by congruence.
  split; [split|split|].
  - intros r' w' p' Hs. cbn. destruct (Hback r' w' p' Hs) as [Hs'|(-> & -> & ->)].
    + destruct (H1 r' w' p' Hs') as (q' & Hq & Hq'). rewrite lookup_insert_ne by naive_solver. eauto.
    + rewrite lookup_insert_eq. eauto.
  - intros r1 r2 w1 w2 p' Hs Hs'. apply Hback in Hs as [Hs|(-> & -> & ->)], Hs' as [Hs'|(-> & -> & Hpp)]; [by eapply H2|subst p'; by apply Hnone in Hs|by apply Hnone in Hs'|done].
  - cbn. intros p' q' [[<- <-]|[_ Hq]]%lookup_insert_Some; [done|eauto].
  - cbn. intros p' q' cl [[<- <-]|[_ Hq]]%lookup_insert_Some; [congruence|eauto].
  - exact H5.
  - cbn. intros p' q' cl [[<- <-]|[Hne Hq]]%lookup_insert_Some Hcl Hop; [congruence|].
    destruct (H6 p' q' cl Hq Hcl Hop) as [(r' & w' & Hs)|]; [|right; set_solver].
    destruct (Hforth r' w' p' Hs) as [|[-> ->]]; [left; by exists r', w'|].
    destruct (Hold p' Hs) as [|Hno]; [right; set_solver|]. by specialize (Hno cl false Hop).
  - cbn. intros p' cl Hcl. destruct (H7 p' cl Hcl) as (q' & Hq & Hq'). rewrite lookup_insert_ne by naive_solver. eauto.
  - cbn. intros p' q' cl b [[<- <-]|[Hne Hq]]%lookup_insert_Some Herr Hcl; [by apply Hnc in Hcl|eauto].
  - cbn. intros p' Ho. apply lookup_insert_is_Some'. right. by apply H9.
  - cbn. intros cl p' b Hcl. apply lookup_insert_is_Some'. right. by eapply H10.
  - done.
  - cbn. intros p' q' Hq. rewrite lookup_insert_ne by naive_solver. eauto.
  - exact G3.
  - cbn. intros cl p' b H1' H2'. congruence.
  - intros r' w' p' Hs. destruct (Hback r' w' p' Hs) as [|(-> & -> & ->)]; [by left|by right].
  - intros p' Hn. by apply G6.
  - cbn. intros id r' Hid. by left.
  - intros p' _. unfold cview. cbn. destruct (decide (p' = p)) as [->|Hne]; [right; by rewrite Hp|left]. by rewrite lookup_insert_ne.
Qed.

(** A connection changes. *)
Lemma move_conn (own : nat -> Prop) k p q q' :
  CInv k -> k_conns k !! p = Some q -> q_ws q' = q_ws q -> (q_ready q <= q_ready q')%nat -> (q_ready q' <= 1)%nat ->
  (forall cl, q_client q = Some cl -> q_client q' = Some cl) ->
  (forall cl, q_client q' = Some cl -> exists b, k_clients k !! cl = Some (p, b)) ->
  (forall cl, q_client q' = Some cl -> q_client q = Some cl \/ slotted k p) ->
  (forall cl, k_clients k !! cl = Some (p, false) -> q_client q' = Some cl \/ p ∈ k_opening k /\ q_ready q' = O) ->
  (q_err q' = true -> forall cl b, k_clients k !! cl = Some (p, b) -> b = true) ->
  own p \/ q_ready q' = q_ready q /\ q_client q' = q_client q /\ clients_of k p <> ∅ ->
  moved own k (mkCore (k_stopped k) (k_servers k) (k_slots k) (<[p := q']> (k_conns k)) (k_opening k) (k_closing k) (k_clients k)).
Proof.
  intros Hi Hp Hws Hle Hr Hkeep Hcl Hkept Hhand Herr Hown. set (k' := mkCore _ _ _ _ _ _ _).
  pose proof (CGuard_refl k Hi) as [G1 G2 G3 G4 G5 G6 G7]. destruct Hi as [H1 H2 H3 H4 H5 H6 H7 H8 H9 H10].
  split; [split|split|].
  - intros r w p' Hs. cbn. destruct (H1 r w p' Hs) as (q1 & Hq & Hw). destruct (decide (p' = p)) as [->|Hne].
    + rewrite lookup_insert_eq. exists q'. split; [done|]. congruence.
    + rewrite lookup_insert_ne by done. eauto.
  - exact H2.
  - cbn. intros p' q1 [[<- <-]|[_ Hq]]%lookup_insert_Some; [done|eauto].
  - cbn. intros p' q1 cl [[<- <-]|[_ Hq]]%lookup_insert_Some; [apply Hcl|eauto].
  - exact H5.
  - cbn. intros p' q1 cl [[<- <-]|[_ Hq]]%lookup_insert_Some Hc Hop; [|eauto].
    destruct (Hkept cl Hc) as [Hc'|]; [eauto|by left].
  - cbn. intros p' cl Hc. destruct (decide (p' = p)) as [->|Hne]; [rewrite lookup_insert_eq; eauto|rewrite lookup_insert_ne by done; eauto].
  - cbn. intros p' q1 cl b [[<- <-]|[_ Hq]]%lookup_insert_Some; eauto.
  - cbn. intros p' Ho. apply lookup_insert_is_Some'. right. by apply H9.
  - cbn. intros cl p' b Hc. apply lookup_insert_is_Some'. right. by eapply H10.
  - done.
  - cbn. intros p' q1 Hq. destruct (decide (p' = p)) as [->|Hne].
    + rewrite lookup_insert_eq. exists q'. assert (q1 = q) as -> by congruence. done.
    + rewrite lookup_insert_ne by done. eauto.
  - exact G3.
  - exact G4.
  - intros r w p' Hs. by left.
  - exact G6.
  - exact G7.
  - intros p' Hno. left. unfold cview. cbn. destruct (decide (p' = p)) as [->|Hne]; [|by rewrite lookup_insert_ne].
    destruct Hown as [|(E1 & E2 & E3)]; [done|]. rewrite lookup_insert_eq, Hp. cbn.
    change (clients_of k' p) with (clients_of k p). by rewrite E1, E2, (bool_decide_false (clients_of k p = ∅)), !andb_false_r.
Qed.

(** A goroutine begins to open a connection, or has opened it. *)
Lemma move_opening (own : nat -> Prop) k p O :
  CInv k -> own p -> is_Some (k_conns k !! p) -> (forall p', p' <> p -> p' ∈ O <-> p' ∈ k_opening k) ->
  (p ∈ O -> k_stopped k = true -> p ∈ k_opening k) ->
  (p ∉ O -> forall q, k_conns k !! p = Some q -> q_ready q <> Datatypes.O \/ forall cl b, k_clients k !! cl = Some (p, b) -> b = true) ->
  moved own k (mkCore (k_stopped k) (k_servers k) (k_slots k) (k_conns k) O (k_closing k) (k_clients k)).
Proof.
  intros Hi Hown Hp HO Hst Hready. set (k' := mkCore _ _ _ _ _ _ _).
  pose proof (CGuard_refl k Hi) as [G1 G2 G3 G4 G5 G6 G7]. destruct Hi as [H1 H2 H3 H4 H5 H6 H7 H8 H9 H10].
  split; [split; [done..| |done| |done]|split; [| | | |done| |done]|].
  - cbn. intros p' cl Hc. destruct (H7 p' cl Hc) as (q & Hq & Hd). exists q. split; [done|].
    destruct Hd as [|[Ho Hr]]; [by left|]. destruct (decide (p' = p)) as [->|Hne]; [|right; by rewrite HO].
    destruct (decide (p ∈ O)) as [|Hn]; [by right|]. destruct (Hready Hn q Hq) as [|Hcl]; [done|]. by specialize (Hcl cl false Hc).
  - cbn. intros p' Ho. destruct (decide (p' = p)) as [->|Hne]; [done|]. apply H9. by apply HO.
  - cbn. intros Hs. split; [done|]. intros p' Ho. destruct (decide (p' = p)) as [->|Hne]; [by apply Hst|by apply HO].
  - exact G2.
  - exact G3.
  - exact G4.
  - cbn. intros p' Hn. split; [|by apply G6]. intros Ho. destruct (decide (p' = p)) as [->|Hne]; [destruct Hp; congruence|].
    apply HO in Ho; [|done]. by apply (G6 p').
  - intros p' Hno. left. assert (Hne : p' <> p) by (intros ->; done).
    assert (Hb : bool_decide (p' ∈ O) = bool_decide (p' ∈ k_opening k)) by (apply bool_decide_ext; by apply HO).
    unfold cview. cbn. by rewrite Hb.
Qed.

(** A client of a connection that is being opened. *)
Lemma move_dial (own : nat -> Prop) k p q cl :
  CInv k -> own p -> k_conns k !! p = Some q -> q_ready q = O -> q_err q = false -> p ∈ k_opening k -> k_clients k !! cl = None ->
  (forall cl' b, k_clients k !! cl' <> Some (p, b)) ->
  moved own k (mkCore (k_stopped k) (k_servers k) (k_slots k) (k_conns k) (k_opening k) (k_closing k) (<[cl := (p, false)]> (k_clients k))).
Proof.
  intros Hi Hown Hp Hr Herr Ho Hcl Hno. set (k' := mkCore _ _ _ _ _ _ _).
  pose proof (CGuard_refl k Hi) as [G1 G2 G3 G4 G5 G6 G7]. destruct Hi as [H1 H2 H3 H4 H5 H6 H7 H8 H9 H10].
  assert (Hnew : forall p' q' cl', k_conns k !! p' = Some q' -> q_client q' = Some cl' -> cl' <> cl).
  { intros p' q' cl' Hq Hc ->. destruct (H4 p' q' cl Hq Hc) as [b Hb]. congruence. }
  split; [split; [done..| | | | | |done|]|split; [done| | | |done| |done]|].
  - cbn. intros p' q' cl' Hq Hc. rewrite lookup_insert_ne by (intros <-; by eapply Hnew). eauto.
  - cbn. intros p' cl1 cl2 b1 b2 [[<- [= <- <-]]|[_ Hc1]]%lookup_insert_Some [[<- Hc2]|[_ Hc2]]%lookup_insert_Some; [done|by apply Hno in Hc2|injection Hc2 as <- <-; by apply Hno in Hc1|eauto].
  - cbn. intros p' q' cl' Hq Hc Hop. rewrite lookup_insert_ne in Hop by (intros <-; by eapply Hnew). eauto.
  - cbn. intros p' cl' [[<- [= <-]]|[_ Hc]]%lookup_insert_Some; [exists q; auto|eauto].
  - cbn. intros p' q' cl' b Hq He [[<- [= <- <-]]|[_ Hc]]%lookup_insert_Some; [congruence|eauto].
  - cbn. intros cl' p' b [[<- [= <- <-]]|[_ Hc]]%lookup_insert_Some; [by eexists|eauto].
  - exact G2.
  - cbn. intros cl' p' b Hc. rewrite lookup_insert_ne by congruence. eauto.
  - cbn. intros cl' p' b [[<- [= <- <-]]|[_ Hc]]%lookup_insert_Some Hn; [done|congruence].
  - cbn. intros p' Hn. split; [by apply G6|]. intros cl' b [[<- [= <- <-]]|[_ Hc]]%lookup_insert_Some; [congruence|by apply (G6 p') in Hc].
  - intros p' Hno'. left. assert (Hne : p' <> p) by (intros ->; done). unfold cview. cbn.
    assert (E : clients_of k' p' = clients_of k p'); [|by rewrite E]. apply clients_of_eq. intros cl'. cbn.
    destruct (decide (cl' = cl)) as [->|Hc]; [rewrite lookup_insert_eq, Hcl; naive_solver|by rewrite lookup_insert_ne].
Qed.

(** A client is closed, and so a connection may need no more of anyone. *)
Lemma move_close own k cl p b C :
  CInv k -> k_clients k !! cl = Some (p, b) -> (forall p', p' ∈ k_closing k -> p' ∈ C \/ p' = p) -> 
  moved own k (mkCore (k_stopped k) (k_servers k) (k_slots k) (k_conns k) (k_opening k) C (<[cl := (p, true)]> (k_clients k))).
Proof.
  intros Hi Hcl HC. set (k' := mkCore _ _ _ _ _ _ _).
  pose proof (CGuard_refl k Hi) as [G1 G2 G3 G4 G5 G6 G7]. destruct Hi as [H1 H2 H3 H4 H5 H6 H7 H8 H9 H10].
  assert (Hback : forall cl' p' b', k_clients k' !! cl' = Some (p', b') -> exists b0, k_clients k !! cl' = Some (p', b0)).
  { cbn. intros cl' p' b' [[<- [= <- <-]]|[_ Hc]]%lookup_insert_Some; eauto. }
  assert (Hopen : forall cl' p', k_clients k' !! cl' = Some (p', false) -> k_clients k !! cl' = Some (p', false) /\ p' <> p).
  { cbn. intros cl' p' [[<- [=]]|[Hne Hc]]%lookup_insert_Some. split; [done|]. intros ->. apply Hne. by eapply H5. }
  split; [split; [done..| | | | | |done|]|split; [done| | | |done| |done]|].
  - cbn. intros p' q' cl' Hq Hc. destruct (H4 p' q' cl' Hq Hc) as [b' Hb].
    destruct (decide (cl' = cl)) as [->|Hne]; [|rewrite lookup_insert_ne by done; eauto]. rewrite lookup_insert_eq. exists true. congruence.
  - intros p' cl1 cl2 b1 b2 Hc1 Hc2. destruct (Hback _ _ _ Hc1), (Hback _ _ _ Hc2). by eapply H5.
  - intros p' q' cl' Hq Hc Hop. apply Hopen in Hop as [Hop Hne]. destruct (H6 p' q' cl' Hq Hc Hop) as [|Hin]; [by left|].
    destruct (HC p' Hin); [by right|done].
  - intros p' cl' Hop. apply Hopen in Hop as [Hop _]. eauto.
  - cbn. intros p' q' cl' b' Hq He [[<- [= <- <-]]|[_ Hc]]%lookup_insert_Some; [done|eauto].
  - intros cl' p' b' Hc. destruct (Hback _ _ _ Hc). eauto.
  - exact G2.
  - cbn. intros cl' p' b' Hc. destruct (decide (cl' = cl)) as [->|Hne]; [|rewrite lookup_insert_ne by done; eauto].
    rewrite lookup_insert_eq. exists true. split; [congruence|done].
  - intros cl' p' b' Hc Hn. destruct (Hback _ _ _ Hc). congruence.
  - cbn. intros p' Hn. split; [by apply G6|]. intros cl' b' Hc. destruct (Hback _ _ _ Hc) as [b0 H]. by apply (G6 p') in H.
  - intros p' _. left. unfold cview. cbn. assert (E : clients_of k' p' = clients_of k p'); [|by rewrite E].
    apply clients_of_eq. intros cl'. cbn. destruct (decide (cl' = cl)) as [->|Hc]; [rewrite lookup_insert_eq, Hcl; naive_solver|by rewrite lookup_insert_ne].
Qed.

(** A connection without an open client needs no more of anyone. *)
Lemma move_closing own k C :
  CInv k ->
  (forall p q cl, p ∈ k_closing k -> k_conns k !! p = Some q -> q_client q = Some cl -> k_clients k !! cl = Some (p, false) -> p ∈ C) ->
  moved own k (mkCore (k_stopped k) (k_servers k) (k_slots k) (k_conns k) (k_opening k) C (k_clients k)).
Proof.
  intros Hi HC. pose proof (CGuard_refl k Hi) as [G1 G2 G3 G4 G5 G6 G7]. destruct Hi as [H1 H2 H3 H4 H5 H6 H7 H8 H9 H10].
  split; [split; [done..| |done|done|done|done]|by split|by left].
  cbn. intros p q cl Hq Hc Hop. destruct (H6 p q cl Hq Hc Hop) as [|Hin]; [by left|right; by eapply HC].
Qed.

(** ** The pool's actions *)

Definition PInv (s : PoolState) : Prop := CInv (core s).
Definition PGuard (s s' : PoolState) : Prop := CGuard (core s) (core s').
Definition pview (p : nat) (s : PoolState) := cview p (core s).

Lemma fmap_alter_eq {A B} (f : A -> B) (g : A -> A) (h : B -> B) (m : gmap nat A) i :
  (forall x, f (g x) = h (f x)) -> f <$> alter g i m = alter h i (f <$> m).
Proof.
  intros H. apply map_eq. intros j. rewrite lookup_fmap. destruct (decide (j = i)) as [->|Hne].
  - rewrite !lookup_alter_eq, lookup_fmap. destruct (m !! i); cbn; [by rewrite H|done].
  - by rewrite !lookup_alter_ne, lookup_fmap.
Qed.
Lemma alter_same {A} (m : gmap nat A) i : alter (fun x => x) i m = m.
Proof.
  apply map_eq. intros j. destruct (decide (j = i)) as [->|Hne]; [rewrite lookup_alter_eq|by rewrite lookup_alter_ne].
  by destruct (m !! i).
Qed.
Lemma alter_at {A} (m : gmap nat A) i f x : m !! i = Some x -> alter f i m = <[i := f x]> m.
Proof.
  intros H. apply map_eq. intros j. destruct (decide (j = i)) as [->|Hne]; [by rewrite lookup_alter_eq, lookup_insert_eq, H|].
  by rewrite lookup_alter_ne, lookup_insert_ne.
Qed.

Lemma core_at_server r f g s : (forall v, sv_conns (f v) = g (sv_conns v)) ->
  core (at_server r f s) = mkCore (k_stopped (core s)) (k_servers (core s)) (alter g r (k_slots (core s))) (k_conns (core s))
                             (k_opening (core s)) (k_closing (core s)) (k_clients (core s)).
Proof. intros H. unfold core, at_server. cbn. by rewrite (fmap_alter_eq _ f g) by done. Qed.
Lemma core_server_same r f s : (forall v, sv_conns (f v) = sv_conns v) -> core (at_server r f s) = core s.
Proof. intros H. rewrite (core_at_server r f (fun x => x)) by done. by rewrite alter_same. Qed.
Lemma core_at_conn p f g s : (forall c, shape_of (f c) = g (shape_of c)) ->
  core (at_conn p f s) = mkCore (k_stopped (core s)) (k_servers (core s)) (k_slots (core s)) (alter g p (k_conns (core s)))
                           (k_opening (core s)) (k_closing (core s)) (k_clients (core s)).
Proof. intros H. unfold core, at_conn. cbn. by rewrite (fmap_alter_eq _ f g) by done. Qed.
Lemma core_conn_same p f s : (forall c, shape_of (f c) = shape_of c) -> core (at_conn p f s) = core s.
Proof. intros H. rewrite (core_at_conn p f (fun x => x)) by done. by rewrite alter_same. Qed.
Lemma core_close_client cl s c : pl_clients s !! cl = Some c ->
  core (close_client cl s) = mkCore (k_stopped (core s)) (k_servers (core s)) (k_slots (core s)) (k_conns (core s))
                               (k_opening (core s)) (k_closing (core s)) (<[cl := (cl_conn c, true)]> (k_clients (core s))).
Proof.
  intros H. unfold core, close_client. cbn. rewrite (fmap_alter_eq _ closed_client (fun x => (x.1, true))) by done.
  by rewrite (alter_at _ cl _ (cl_conn c, cl_closed c)) by (by rewrite lookup_fmap, H).
Qed.

Lemma slot_server s r w p : slot (core s) r w p <-> exists v, pl_heap s !! r = Some v /\ sv_conns v !! w = Some p.
Proof.
  unfold slot. cbn. setoid_rewrite lookup_fmap. split.
  - intros (m & Hm & Hp). destruct (pl_heap s !! r) as [v|]; [|done]. injection Hm as <-. eauto.
  - intros (v & Hv & Hp). exists (sv_conns v). by rewrite Hv.
Qed.
Lemma current_slot r p s c : pl_conns s !! p = Some c -> current r p s = true <-> slot (core s) r (cn_workspace c) p.
Proof.
  intros Hc. unfold current, server_at, connFor. rewrite Hc, bool_decide_eq_true, slot_server.
  destruct (pl_heap s !! r) as [v|]; cbn; [split; [eauto|by intros (? & [= <-] & ?)]|].
  split; [by rewrite lookup_empty|by intros (? & [=] & _)].
Qed.

Section pool.
Context (E : PoolEnv) (rounds : nat).
Abbreviation P := (prog PoolState).
Abbreviation quiet := (quiet PInv PGuard pview).
Abbreviation ok := (ok PInv PGuard pview anywhere).
Abbreviation stable := (stable PInv PGuard pview).
Abbreviation guar := (guar PInv PGuard pview).
Abbreviation nobody := (fun _ : nat => False).

Lemma quiet_moved {A} (f : PoolState -> A * PoolState) :
  (forall s, PInv s -> moved nobody (core s) (core (f s).2)) -> quiet (step f).
Proof.
  intros Hf. split; [|done]. intros s r s' Hi Hs. injection Hs as Hs. destruct (Hf (tick s) Hi) as [H1 H2 H3]. rewrite Hs in H1, H2, H3.
  split; [exact H1|]. split; [exact H2|]. intros p. exact (H3 p (fun H => H)).
Qed.
Lemma quiet_same {A} (f : PoolState -> A * PoolState) : (forall s, core (f s).2 = core s) -> quiet (step f).
Proof. intros Hf. apply quiet_moved. intros s Hi. rewrite Hf. by apply moved_refl. Qed.
Lemma quiet_await {A} (f : PoolState -> option (A * PoolState)) :
  (forall s a s', f s = Some (a, s') -> s' = tick s) -> quiet (await f).
Proof.
  intros Hf. split; [|done]. intros s r s' Hi Hs. apply Hf in Hs as ->. split; [exact Hi|]. split; [by apply CGuard_refl|]. by left.
Qed.

Lemma pool_quiet_ret {A} (a : A) : quiet (mret a : P A). Proof. done. Qed.
Lemma pool_quiet_ask {A} (f : nat -> A) : quiet (ask f). Proof. by apply quiet_same. Qed.
Lemma quiet_look {A} (f : PoolState -> A) : quiet (look f). Proof. by apply quiet_same. Qed.
Lemma quiet_of_conn {A} p (d : A) f : quiet (of_conn p d f). Proof. apply quiet_look. Qed.
Lemma pool_quiet_change f : (forall s, core (f s) = core s) -> quiet (change f).
Proof. intros Hf. apply quiet_same. exact Hf. Qed.
Lemma quiet_server r f : (forall v, sv_conns (f v) = sv_conns v) -> quiet (change (at_server r f)).
Proof. intros Hf. apply pool_quiet_change. intros s. by apply core_server_same. Qed.
Lemma quiet_conn p f : (forall c, shape_of (f c) = shape_of c) -> quiet (change (at_conn p f)).
Proof. intros Hf. apply pool_quiet_change. intros s. by apply core_conn_same. Qed.
Lemma pool_quiet_try {A B} (m : P (A + GoError)) (f : A -> P (B + GoError)) : quiet m -> (forall a, quiet (f a)) -> quiet (try m f).
Proof. intros Hm Hf. apply quiet_bind; [exact Hm|]. by intros [a|err]. Qed.

Lemma quiet_serverFor cfg : quiet (serverFor cfg).
Proof.
  apply quiet_bind; [|intros r; apply quiet_bind; [by apply quiet_server|done]].
  apply quiet_moved. intros s Hi. destruct (pl_servers s !! sc_ID cfg) as [r|] eqn:Er; [by apply moved_refl|]. cbn [snd].
  set (r := fresh (dom (pl_heap s))). assert (Hr : pl_heap s !! r = None) by (apply not_elem_of_dom, is_fresh).
  assert (Hm : moved nobody (core s) (mkCore (k_stopped (core s)) (<[sc_ID cfg := r]> (pl_servers s)) (<[r := ∅]> (k_slots (core s)))
    (k_conns (core s)) (k_opening (core s)) (k_closing (core s)) (k_clients (core s)))).
  { apply move_server; [exact Hi|cbn; by rewrite lookup_fmap, Hr|]. cbn. intros id r' [[<- <-]|[_ H]]%lookup_insert_Some; auto. }
  unfold core in Hm at 2. cbn in Hm. unfold core at 2. cbn. by rewrite fmap_insert.
Qed.

Lemma quiet_add_lines r source level lines : quiet (add_lines E r source level lines).
Proof. induction lines; cbn [add_lines]; [done|]. apply quiet_bind; [|done]. apply quiet_same. intros s. by apply core_server_same. Qed.
Lemma quiet_addLog r source level text : quiet (addLog E r source level text). Proof. apply quiet_add_lines. Qed.
Lemma quiet_emitState id name st : quiet (emitState id name st). Proof. by apply pool_quiet_change. Qed.

Create HintDb pool.
#[local] Hint Resolve pool_quiet_ret pool_quiet_ask quiet_look quiet_of_conn quiet_serverFor quiet_addLog quiet_emitState : pool.
Ltac quietly :=
  repeat (intros; first
    [ progress auto with pool
    | apply quiet_bind | apply pool_quiet_try | apply quiet_server; done | apply quiet_conn; done
    | match goal with |- Threads.quiet _ _ _ (if ?b then _ else _) => destruct b end
    | match goal with |- Threads.quiet _ _ _ (match ?x with _ => _ end) => destruct x end ]).

Lemma quiet_lookupServer id : quiet (lookupServer E id). Proof. unfold lookupServer. quietly. Qed.
Lemma pool_quiet_emit r : quiet (emit E r). Proof. unfold emit, status. quietly. Qed.
#[local] Hint Resolve quiet_lookupServer pool_quiet_emit : pool.
Lemma quiet_PoolStatus id : quiet (PoolStatus E id). Proof. unfold PoolStatus, status. quietly. Qed.
Lemma quiet_wait_ready p : quiet (wait_ready E p).
Proof.
  apply quiet_await. intros s a s'. destruct (pe_cancelled E _); [congruence|]. destruct (pl_conns s !! p) as [c|]; [|done].
  destruct (finished c); congruence.
Qed.
Lemma quiet_listTools cl cat : quiet (listTools E cl cat). Proof. unfold listTools. quietly. Qed.
#[local] Hint Resolve quiet_wait_ready quiet_listTools : pool.
Lemma quiet_catalog cl : quiet (catalog E cl).
Proof. unfold catalog. destruct (pe_offers E cl) as [[? ?] ?]. quietly. Qed.
#[local] Hint Resolve quiet_catalog : pool.
Lemma quiet_relist r p : quiet (relist E r p).
Proof.
  unfold relist. apply quiet_bind; [quietly|]. intros [cl|]; [|done]. apply quiet_bind; [quietly|]. intros lists. apply quiet_bind; [|quietly].
  apply pool_quiet_change. intros s. cbv zeta. destruct (current r p s); [rewrite core_server_same by done|]; by apply core_conn_same.
Qed.
#[local] Hint Resolve quiet_relist : pool.
Lemma quiet_listen fuel r p cl : quiet (listen E fuel r p cl).
Proof. induction fuel; cbn [listen]; quietly. Qed.
Lemma quiet_await_conn p : quiet (await_conn E p). Proof. unfold await_conn. quietly. Qed.
#[local] Hint Resolve quiet_await_conn quiet_listen : pool.

Lemma quiet_taking {A} (f : PoolState -> A) (g : server -> server) (h : gmap string nat -> gmap string nat) r (X : PoolState -> gset nat) :
  (forall v, sv_conns (g v) = h (sv_conns v)) -> (forall m w p, h m !! w = Some p -> m !! w = Some p) ->
  (forall s m w p, k_slots (core s) !! r = Some m -> m !! w = Some p -> h m !! w = Some p \/ p ∈ X s) ->
  quiet (step (fun s => (f s, set_closing (X s ∪ pl_closing s) (at_server r g s)))).
Proof.
  intros Hg Hh HX. apply quiet_moved. intros s Hi. cbn [snd].
  assert (Hc : core (set_closing (X s ∪ pl_closing s) (at_server r g s)) =
    mkCore (k_stopped (core s)) (k_servers (core s)) (alter h r (k_slots (core s))) (k_conns (core s)) (k_opening (core s))
      (X s ∪ k_closing (core s)) (k_clients (core s))).
  { pose proof (core_at_server r g h s Hg) as Hc. unfold core in Hc |- *. cbn in Hc |- *. injection Hc as Hc. by rewrite Hc. }
  rewrite Hc. apply move_take; [exact Hi|exact Hh|apply HX].
Qed.

Lemma server_at_slots r s m : k_slots (core s) !! r = Some m -> sv_conns (server_at r s) = m.
Proof. unfold server_at. cbn. rewrite lookup_fmap. destruct (pl_heap s !! r) as [v|]; [|done]. by intros [= <-]. Qed.

Lemma quiet_takeConns r w : quiet (takeConns r w).
Proof.
  apply (quiet_taking (fun s => taken w (server_at r s)) (kept w)
           (fun m => if String.eqb w EmptyString then ∅ else base.delete w m) r (fun s => list_to_set (taken w (server_at r s)))); [done| |].
  - intros m w' p. destruct (String.eqb w EmptyString); [by rewrite lookup_empty|]. by intros [_ ?]%lookup_delete_Some.
  - intros s m w' p Hm Hp. unfold taken. rewrite (server_at_slots r s m Hm), elem_of_list_to_set. destruct (String.eqb w EmptyString).
    + right. apply list_elem_of_fmap. exists (w', p). split; [done|]. by apply elem_of_map_to_list.
    + destruct (decide (w' = w)) as [->|Hne]; [right; rewrite Hp; cbn; by left|left; by rewrite lookup_delete_ne].
Qed.

Lemma core_end_client p s : PInv s -> moved nobody (core s) (core (end_client p s)).
Proof.
  intros Hi. unfold end_client. cbv zeta. cbn [pl_conns set_closing].
  assert (Hquiet : (forall q cl, k_conns (core s) !! p = Some q -> q_client q <> Some cl) -> moved nobody (core s) (core (set_closing (pl_closing s ∖ {[p]}) s))).
  { intros Hno. apply (move_closing nobody (core s) (pl_closing s ∖ {[p]}) Hi). intros p' q cl Hin Hq Hc _.
    assert (p' <> p) by (intros ->; by eapply Hno). cbn in Hin. set_solver. }
  destruct (pl_conns s !! p) as [c|] eqn:Ec; [|apply Hquiet; cbn; by rewrite lookup_fmap, Ec].
  destruct (cn_client c) as [cl|] eqn:Ecl; [|apply Hquiet; cbn; rewrite lookup_fmap, Ec; intros q cl [= <-]; cbn; congruence].
  clear Hquiet. destruct (ci_client (core s) Hi p (shape_of c) cl) as [b Hb]; [cbn; by rewrite lookup_fmap, Ec|done|].
  assert (Hm : exists c', pl_clients s !! cl = Some c' /\ cl_conn c' = p).
  { cbn in Hb. rewrite lookup_fmap in Hb. destruct (pl_clients s !! cl) as [c'|]; [|done]. injection Hb as Hb _. by exists c'. }
  destruct Hm as (c' & Hc' & Hp). rewrite (core_close_client cl _ c') by done. rewrite Hp.
  apply (move_close nobody (core s) cl p b (pl_closing s ∖ {[p]}) Hi Hb). intros p' Hin. cbn in Hin.
  destruct (decide (p' = p)); [by right|left; set_solver].
Qed.

Lemma quiet_close p : quiet (close p).
Proof.
  unfold close. apply quiet_bind; [by apply quiet_conn|]. intros _. apply quiet_bind.
  { apply quiet_await. intros s a s'. destruct (pl_conns s !! p) as [c|]; [|done]. destruct (finished c); congruence. }
  intros _. apply quiet_bind; [apply quiet_conn; intros c; by destruct (cn_listening c)|]. intros _.
  apply quiet_moved. intros s Hi. by apply core_end_client.
Qed.
#[local] Hint Resolve quiet_close quiet_takeConns : pool.
Lemma quiet_close_all ps : quiet (close_all ps). Proof. induction ps; cbn [close_all]; quietly. Qed.
#[local] Hint Resolve quiet_close_all : pool.
Lemma quiet_end_all w telling rs : quiet (end_all E w telling rs). Proof. induction rs; cbn [end_all]; quietly. Qed.

Lemma core_anew r w p c X s :
  core (set_closing (X ∪ pl_closing s) (at_server r (setConn w p) (set_conns (<[p := c]> (pl_conns s)) s))) =
  mkCore (k_stopped (core s)) (k_servers (core s)) (alter <[w := p]> r (k_slots (core s))) (<[p := shape_of c]> (k_conns (core s)))
    (k_opening (core s)) (X ∪ k_closing (core s)) (k_clients (core s)).
Proof.
  pose proof (core_at_server r (setConn w p) <[w := p]> (set_conns (<[p := c]> (pl_conns s)) s) (fun v => eq_refl)) as Hc.
  unfold core in Hc |- *. cbn in Hc |- *. injection Hc as Hc. by rewrite Hc, fmap_insert.
Qed.
Lemma fresh_conn s : k_conns (core s) !! fresh (dom (pl_conns s)) = None.
Proof. cbn. rewrite lookup_fmap. by rewrite (proj1 (not_elem_of_dom _ _) (is_fresh (dom (pl_conns s)))). Qed.

Lemma quiet_retire r p err : quiet (retire E r p err).
Proof.
  unfold retire. apply quiet_bind; [|quietly]. apply quiet_moved. intros s Hi.
  destruct (pl_conns s !! p) as [c|] eqn:Ec; [|by apply moved_refl]. destruct (current r p s) eqn:Ecur; [|by apply moved_refl].
  cbv zeta. cbn [snd]. rewrite (core_anew r (cn_workspace c) _ _ {[p]} s). apply move_new; [exact Hi|apply fresh_conn|done|cbn; lia|done|].
  intros old Hold. left. pose proof (proj1 (current_slot r p s c Ec) Ecur) as (m & Hm & Hp). destruct Hold as (m' & Hm' & Hp').
  assert (m' = m) as -> by congruence. assert (old = p) as -> by congruence. by apply elem_of_singleton.
Qed.
#[local] Hint Resolve quiet_retire : pool.
Lemma quiet_recover id p err : quiet (recover E id p err). Proof. unfold recover. quietly. Qed.

(** ** What is owned *)

Definition held (o : option nat) (s : PoolState) : Prop := forall p, o = Some p -> is_Some (pview p s).
Definition owns (p : nat) (v : pstate) (X : Core -> Prop) (s : PoolState) : Prop := pview p s = Some v /\ X (core s).
(** What stays true whatever happens. *)
Definition lasting (X : Core -> Prop) : Prop := forall k k', CInv k -> CInv k' -> CGuard k k' -> X k -> X k'.

Lemma pool_held_stable o : stable o (held o).
Proof. intros s s' _ (_ & _ & Hv) Ho p Ep. rewrite (Hv p Ep). by apply Ho. Qed.
Lemma pool_owns_stable p v X : lasting X -> stable (Some p) (owns p v X).
Proof. intros HX s s' Hi (Hi' & Hg & Hv) [Ho Hx]. split; [by rewrite (Hv p eq_refl)|exact (HX _ _ Hi Hi' Hg Hx)]. Qed.
Lemma lasting_stable X : lasting X -> stable None (fun s => X (core s)).
Proof. intros HX s s' Hi (Hi' & Hg & _) Hx. exact (HX _ _ Hi Hi' Hg Hx). Qed.
Lemma pool_owns_held p v X s : owns p v X s -> held (Some p) s.
Proof. intros [H _] q [= <-]. rewrite H. by eexists. Qed.

Definition anything : Core -> Prop := fun _ => True.
Definition closed_of (p cl : nat) (k : Core) : Prop := k_clients k !! cl = Some (p, true).
Lemma lasting_anything : lasting anything. Proof. done. Qed.
Lemma lasting_closed p cl : lasting (closed_of p cl).
Proof. intros k k' _ _ Hg H. destruct (cg_clients k k' Hg cl p true H) as (b & Hb & Ht). unfold closed_of. by rewrite Hb, Ht. Qed.
#[local] Hint Resolve lasting_anything lasting_closed : pool.

Lemma moved_weaken (own own' : nat -> Prop) k k' : (forall p, own p -> own' p) -> moved own k k' -> moved own' k k'.
Proof. intros H [H1 H2 H3]. split; [done|done|]. intros p Hp. apply H3. intros Ho. by apply Hp, H. Qed.

(** A step of an owner. *)
Lemma own_moved {A} (f : PoolState -> A * PoolState) p v v' X X' :
  (forall a, lasting (X' a)) ->
  (forall s, PInv s -> owns p v X s ->
     moved (eq p) (core s) (core (f s).2) /\ owns p (v' (f s).1) (X' (f s).1) (f s).2) ->
  ok (step f) (Some p) (owns p v X) (fun a o s => o = Some p /\ owns p (v' a) (X' a) s).
Proof.
  intros HX Hf. apply ok_act. intros s a s' Hi Ho [= Hs]. exists (Some p). destruct (Hf (tick s) Hi Ho) as [[H1 H2 H3] Ho'].
  rewrite Hs in H1, H2, H3, Ho'. cbn [fst snd] in *. split; [|split].
  - split; [exact H1|]. split; [exact H2|]. split; [intros q Hq _; apply (H3 q); congruence|]. split; [|by left].
    by eapply pool_owns_held.
  - intros s1 s2 Hi1 Hr [_ H]. split; [done|]. eapply pool_owns_stable; eauto.
  - done.
Qed.

Lemma pool_own_quiet {A B} (m : P A) (f : A -> P B) p v X Q :
  quiet m -> lasting X -> (forall a, ok (f a) (Some p) (owns p v X) Q) -> ok (m ≫= f) (Some p) (owns p v X) Q.
Proof.
  intros Hm HX Hf. eapply ok_bind; [apply quiet_ok; [exact Hm|by apply pool_owns_stable|]|].
  - intros s q Ho [= <-]. by eapply pool_owns_held.
  - intros a o. apply ok_pure. intros ->. apply Hf.
Qed.
Lemma own_then {A B} (m : P A) (f : A -> P B) p v v' X X' Q :
  ok m (Some p) (owns p v X) (fun a o s => o = Some p /\ owns p (v' a) (X' a) s) ->
  (forall a, ok (f a) (Some p) (owns p (v' a) (X' a)) Q) -> ok (m ≫= f) (Some p) (owns p v X) Q.
Proof. intros Hm Hf. eapply ok_bind; [exact Hm|]. intros a o. apply ok_pure. intros ->. apply Hf. Qed.

(** A goroutine is started, which takes nothing with it. *)
Lemma go_free t o R : stable o R -> ok t None (fun _ => True) (fun _ _ _ => True) -> ok (go t) o R (fun _ o' s => o' = o /\ R s).
Proof.
  intros Hst Ht (s & Hi & Hr). cbn. exists None, o, (fun _ => True), R. split; [by left|]. split; [done|]. split; [done|].
  split; [done|]. split; [|done]. apply Ht. by exists s.
Qed.
(** Or what is owned. *)
Lemma go_owned t p R : stable (Some p) R -> ok t (Some p) R (fun _ _ _ => True) -> ok (go t) (Some p) R (fun _ o' _ => o' = None /\ True).
Proof.
  intros Hst Ht (s & Hi & Hr). cbn. exists (Some p), None, R, (fun _ => True). split; [by right|]. split; [done|]. split; [done|].
  split; [done|]. split; [|done]. apply Ht. by exists s.
Qed.

Lemma quiet_free {A} (m : P A) : quiet m -> ok m None (fun _ => True) (fun _ _ _ => True).
Proof. intros Hm. eapply ok_post; [|by apply quiet_ok]. done. Qed.
Lemma ok_tail {A} (m : P A) (f : A -> P unit) o R Q : ok m o R Q -> (forall a, quiet (f a)) -> (forall a o s, PInv s -> Q a o s -> held o s) ->
  ok (m ≫= f) o R (fun _ _ _ => True).
Proof.
  intros Hm Hf HQ. eapply ok_bind; [exact Hm|]. intros a o'. eapply ok_pre; [apply HQ|]. eapply ok_post; [|apply quiet_ok; [apply Hf|apply pool_held_stable|]]; [done|].
  intros s p Hh Ho. by apply Hh.
Qed.

(** A background goroutine that counts itself off. *)
Lemma background_ok m o R : stable o R -> (forall s p, R s -> o = Some p -> is_Some (pview p s)) ->
  ok m None (fun _ => True) (fun _ => held) -> ok (background m) o R (fun _ o' s => o' = o /\ R s).
Proof.
  intros Hst Ho Hm. unfold background. eapply ok_bind; [apply quiet_ok; [by apply pool_quiet_change|exact Hst|exact Ho]|].
  intros a o'. apply ok_pure. intros ->. apply go_free; [exact Hst|]. eapply ok_tail; [exact Hm|intros; by apply pool_quiet_change|done].
Qed.

(** ** Opening a connection *)

Lemma pview_conn p s v : pview p s = Some v -> exists c, pl_conns s !! p = Some c /\ ps_ready v = cn_ready c /\
  ps_client v = cn_client c /\ ps_opening v = bool_decide (p ∈ pl_opening s) /\ ps_clients v = clients_of (core s) p /\
  ps_failed v = (q_err (shape_of c) && bool_decide (ps_clients v = ∅)).
Proof.
  unfold pview, cview. cbn. rewrite lookup_fmap. destruct (pl_conns s !! p) as [c|]; [|done]. cbn. intros [= <-]. by exists c.
Qed.
Lemma pview_intro p s c : pl_conns s !! p = Some c ->
  pview p s = Some (mkPState (cn_ready c) (cn_client c) (bool_decide (p ∈ pl_opening s)) (clients_of (core s) p)
                      (q_err (shape_of c) && bool_decide (clients_of (core s) p = ∅))).
Proof. intros H. unfold pview, cview. cbn. by rewrite lookup_fmap, H. Qed.

Definition begun (cls : gset nat) : pstate := mkPState O None true cls false.

(** What a choice leaves: a new connection is owned. *)
Definition picked (o : option nat) (c : choice) (o' : option nat) (s : PoolState) : Prop :=
  match c with Fresh p => o' = Some p /\ owns p (mkPState O None false ∅ false) anything s | _ => o' = o /\ held o s end.

Lemma picked_stable o c o' : stable o' (picked o c o').
Proof.
  intros s1 s2 Hi1 Hr H. destruct c; cbn in *; destruct H as [-> H]; (split; [done|]); [by eapply pool_held_stable..|by eapply pool_owns_stable].
Qed.

Lemma picked_same o c s : PInv s -> held o s -> (forall p, c <> Fresh p) ->
  exists o', guar o o' s (tick s) /\ stable o' (picked o c o') /\ picked o c o' (tick s).
Proof.
  intros Hi Ho Hc. exists o. split; [|split; [apply picked_stable|]].
  - split; [exact Hi|]. split; [by apply CGuard_refl|]. split; [by left|]. destruct o as [p|]; [|done]. split; [by apply Ho|by left].
  - destruct c as [q|err|q|q]; [by split; [|exact Ho]..|by destruct (Hc q)].
Qed.

(** The connection that had the place has no open client. *)
Lemma picked_new o s r key c : PInv s ->
  cn_workspace c = key -> cn_ready c = O -> cn_client c = None -> cn_err c = None ->
  (forall old, slot (core s) r key old -> forall cl b, k_clients (core s) !! cl = Some (old, b) -> b = true) ->
  let p := fresh (dom (pl_conns s)) in
  exists o', guar o o' s (at_server r (setConn key p) (set_conns (<[p := c]> (pl_conns s)) (tick s))) /\
    stable o' (picked o (Fresh p) o') /\ picked o (Fresh p) o' (at_server r (setConn key p) (set_conns (<[p := c]> (pl_conns s)) (tick s))).
Proof.
  intros Hi Hws Hr0 Hcl0 Herr Hold p. set (s' := at_server _ _ _). exists (Some p).
  assert (Hp : k_conns (core s) !! p = None) by exact (fresh_conn s).
  assert (Hc : core s' = mkCore (k_stopped (core s)) (k_servers (core s)) (alter <[key := p]> r (k_slots (core s)))
                 (<[p := shape_of c]> (k_conns (core s))) (k_opening (core s)) (∅ ∪ k_closing (core s)) (k_clients (core s))).
  { rewrite <- (core_anew r key p c ∅ (tick s)). unfold core. cbn. f_equal. set_solver. }
  destruct (move_new nobody (core s) r key p (shape_of c) ∅ Hi Hp) as [H1 H2 H3];
    [exact Hws|cbn; lia|exact Hcl0|intros old Hs; right; by apply Hold|].
  rewrite <- Hc in H1, H2, H3. destruct (cg_fresh _ _ H2 p Hp) as [Hno Hnc].
  assert (Hv : pview p s' = Some (mkPState O None false ∅ false)).
  { rewrite (pview_intro p s' c) by (cbn; by rewrite lookup_insert_eq). rewrite Hr0, Hcl0. cbn [shape_of q_err].
    rewrite Herr, bool_decide_false by exact Hno. assert (Hcl : clients_of (core s') p = ∅); [|by rewrite Hcl].
    apply set_eq. intros cl. rewrite elem_of_clients_of, elem_of_empty. split; [|done]. intros [b H]. by apply Hnc in H. }
  split; [|split; [apply picked_stable|by split]].
  split; [exact H1|]. split; [exact H2|]. split; [intros q _ _; exact (H3 q (fun H => H))|]. split; [by rewrite Hv|right].
  unfold pview, cview. by rewrite Hp.
Qed.

(** A connection that is over has no open client. *)
Lemma over_closed s q d cl b :
  PInv s -> pl_conns s !! q = Some d -> finished d = true -> alive s d = false -> k_clients (core s) !! cl = Some (q, b) -> b = true.
Proof.
  intros Hi Ed Ef Ea Hcl. destruct b; [done|].
  assert (Hd : k_conns (core s) !! q = Some (shape_of d)) by (cbn; by rewrite lookup_fmap, Ed).
  destruct (cn_err d) as [err|] eqn:Eerr; [by apply (ci_err _ Hi q (shape_of d) cl false Hd); [cbn; rewrite Eerr|]|].
  destruct (ci_hand _ Hi q cl Hcl) as (d' & Hd' & Hh). assert (d' = shape_of d) as -> by congruence.
  destruct Hh as [Hh|[_ Hh]]; [|cbn in Hh; unfold finished in Ef; by rewrite Hh in Ef].
  unfold alive, is_open in Ea. cbn in Hh, Hcl. rewrite Eerr, Hh in Ea. rewrite lookup_fmap in Hcl.
  destruct (pl_clients s !! cl) as [cc|]; [|done]. injection Hcl as _ Hcl. by rewrite Hcl in Ea.
Qed.

Lemma pick_ok r key retry o : ok (step (pick E r key retry)) o (held o) (picked o).
Proof.
  apply ok_act. intros s a s' Hi Ho [= Hs]. unfold pick in Hs. cbv zeta in Hs.
  change (pl_conns (tick s)) with (pl_conns s) in Hs. change (server_at r (tick s)) with (server_at r s) in Hs.
  assert (Hslot : forall old, slot (core s) r key old -> connFor (server_at r s) key = Some old).
  { intros old (m & Hm & Hold). unfold connFor. by rewrite (server_at_slots r s m Hm). }
  assert (Hsame : forall c, (c, tick s) = (a, s') -> (forall p, c <> Fresh p) -> exists o', guar o o' s s' /\ stable o' (picked o a o') /\ picked o a o' s')
    by (intros c [= <- <-] Hc; by apply picked_same).
  destruct (connFor (server_at r s) key) as [q|] eqn:Eq.
  2: { injection Hs as <- <-. apply picked_new; [done..|]. intros old Hold. by apply Hslot in Hold. }
  destruct (pl_conns s !! q) as [d|] eqn:Ed.
  2: { injection Hs as <- <-. apply picked_new; [done..|]. intros old Hold. apply Hslot in Hold as Hq. injection Hq as <-.
       destruct Hold as (m & Hm & Hold). destruct (ci_slot _ Hi r key q) as (d & Hd & _); [by exists m|].
       cbn in Hd. by rewrite lookup_fmap, Ed in Hd. }
  destruct (finished d) eqn:Ef; cbn [negb] in Hs; [|by apply (Hsame (Wait q))].
  destruct (alive (tick s) d) eqn:Ea; [by apply (Hsame (Live q))|].
  assert (Hclosed : forall old, slot (core s) r key old -> forall cl b, k_clients (core s) !! cl = Some (old, b) -> b = true).
  { intros old Hold cl b Hcl. apply Hslot in Hold. injection Hold as <-. by eapply over_closed. }
  destruct (cn_err d) as [err|]; [destruct (negb retry && _); [by apply (Hsame (Recent err))|]|];
    (injection Hs as <- <-; by apply picked_new).
Qed.

(** A pool that has not stopped counts one more. *)
Lemma register_ok p :
  ok (step (fun s => if pl_stopped s then (true, s) else (false, set_opening ({[p]} ∪ pl_opening s) s))) (Some p)
    (owns p (mkPState O None false ∅ false) anything)
    (fun b o s => o = Some p /\ owns p (if b : bool then mkPState O None false ∅ false else begun ∅) anything s).
Proof.
  apply own_moved with (v' := fun b : bool => if b then mkPState O None false ∅ false else begun ∅) (X' := fun _ => anything); [done|].
  intros s Hi [Ho _]. destruct (pl_stopped s) eqn:Es; [split; [by apply moved_refl|by split]|]. cbn [fst snd].
  destruct (pview_conn p s _ Ho) as (c & Hc & E1 & E2 & E3 & E4 & E5). cbn in E1, E2, E3, E4, E5. split.
  - apply (move_opening (eq p) (core s) p ({[p]} ∪ pl_opening s) Hi); [done|cbn; rewrite lookup_fmap, Hc; by eexists|set_solver|cbn; congruence|set_solver].
  - split; [|done]. rewrite (pview_intro p _ c) by done. cbn [pl_opening set_opening]. rewrite bool_decide_true by set_solver.
    change (clients_of (core (set_opening ({[p]} ∪ pl_opening s) s)) p) with (clients_of (core s) p). rewrite <- E1, <- E2, <- E4.
    exact (f_equal (fun b => Some (mkPState O None true ∅ b)) (eq_sym E5)).
Qed.

Lemma connect_ok r p cfg :
  ok (connect E r p cfg) (Some p) (owns p (begun ∅) anything)
    (fun d o s => o = Some p /\ owns p (begun (match d with inl cl => {[cl]} | inr _ => ∅ end)) anything s).
Proof.
  apply own_moved with (v' := fun d : nat + GoError => begun (match d with inl cl => {[cl]} | inr _ => ∅ end)) (X' := fun _ => anything); [done|].
  intros s Hi [Ho _]. destruct (pe_connect E _ cfg) as [err|]; [split; [by apply moved_refl|by split]|]. cbn [fst snd].
  destruct (pview_conn p s _ Ho) as (c & Hc & E1 & E2 & E3 & E4 & E5). cbn in E1, E2, E3, E4, E5.
  set (cl := fresh (dom (pl_clients s))). assert (Hcl : pl_clients s !! cl = None) by (apply not_elem_of_dom, is_fresh).
  assert (Hno : forall cl' b, k_clients (core s) !! cl' <> Some (p, b)).
  { intros cl' b H. assert (cl' ∈ clients_of (core s) p) by (apply elem_of_clients_of; eauto). rewrite <- E4 in H0. by apply elem_of_empty in H0. }
  set (s' := set_clients _ s). assert (Hcore : core s' = mkCore (k_stopped (core s)) (k_servers (core s)) (k_slots (core s)) (k_conns (core s))
    (k_opening (core s)) (k_closing (core s)) (<[cl := (p, false)]> (k_clients (core s)))).
  { unfold core, s'. cbn. by rewrite fmap_insert. }
  split.
  - rewrite Hcore. apply (move_dial (eq p) (core s) p (shape_of c) cl Hi); [done|cbn; by rewrite lookup_fmap, Hc|done| | |cbn; by rewrite lookup_fmap, Hcl|exact Hno].
    + rewrite (bool_decide_true (∅ = ∅)) in E5 by done. symmetry. by rewrite andb_true_r in E5.
    + symmetry in E3. by apply bool_decide_eq_true in E3.
  - split; [|done]. rewrite (pview_intro p s' c) by done. change (pl_opening s') with (pl_opening s).
    assert (Hset : clients_of (core s') p = {[cl]}).
    { rewrite Hcore. apply set_eq. intros cl'. rewrite elem_of_clients_of, elem_of_singleton. cbn. split.
      - intros [b [[<- _]|[_ H]]%lookup_insert_Some]; [done|by apply Hno in H].
      - intros ->. exists false. by rewrite lookup_insert_eq. }
    rewrite Hset, <- E1, <- E2, <- E3, (bool_decide_false ({[cl]} = ∅)), andb_false_r by (apply non_empty_singleton_L). done.
Qed.

Lemma dial_ok r p cfg :
  ok (dial E r p cfg) (Some p) (owns p (begun ∅) anything)
    (fun d o s => o = Some p /\ owns p (begun (match d with inl cl => {[cl]} | inr _ => ∅ end)) anything s).
Proof.
  unfold dial. destruct (String.eqb (sc_Kind cfg) KindHTTP).
  - eapply own_then with (v' := fun d => begun (match d with inl cl => {[cl]} | inr _ => ∅ end)) (X' := fun _ => anything); [apply connect_ok|].
    intros [cl|err]; [by apply ok_ret|]. apply pool_own_quiet; [apply pool_quiet_ask|done|]. intros [|]; [apply connect_ok|by apply ok_ret].
  - destruct (String.eqb (sc_Kind cfg) KindStdio); [|by apply ok_ret]. destruct (negb (pe_launcher E)); [by apply ok_ret|].
    apply pool_own_quiet; [apply quiet_of_conn|done|]. intros ws. apply pool_own_quiet; [apply pool_quiet_ask|done|]. intros [err|]; [by apply ok_ret|apply connect_ok].
Qed.

(** A change of the owned connection itself. *)
Lemma own_conn p f v v' (X : Core -> Prop) :
  lasting X -> (forall c, cn_workspace (f c) = cn_workspace c) ->
  (forall c, cn_ready c = ps_ready v -> cn_client c = ps_client v ->
     ps_failed v = (bool_decide (is_Some (cn_err c)) && bool_decide (ps_clients v = ∅)) ->
     cn_ready (f c) = ps_ready v' /\ cn_client (f c) = ps_client v' /\ ps_failed v' = (bool_decide (is_Some (cn_err (f c))) && bool_decide (ps_clients v = ∅))) ->
  ps_opening v' = ps_opening v -> ps_clients v' = ps_clients v ->
  (ps_ready v <= ps_ready v')%nat -> (ps_ready v' <= 1)%nat -> ps_client v' = ps_client v ->
  (forall k, CInv k -> X k -> clients_of k p = ps_clients v -> forall cl, k_clients k !! cl = Some (p, false) ->
     ps_client v = Some cl \/ ps_opening v = true /\ ps_ready v' = O) ->
  (forall c, cn_err (f c) = cn_err c \/ forall k, CInv k -> X k -> clients_of k p = ps_clients v ->
     forall cl b, k_clients k !! cl = Some (p, b) -> b = true) ->
  ok (change (at_conn p f)) (Some p) (owns p v X) (fun _ o s => o = Some p /\ owns p v' X s).
Proof.
  intros HX Hws Hf Hop Hcls Hle Hr Hcl Hhand Herr.
  apply own_moved with (v' := fun _ => v') (X' := fun _ => X); [done|]. intros s Hi [Ho Hx]. cbn [fst snd].
  destruct (pview_conn p s _ Ho) as (c & Hc & E1 & E2 & E3 & E4 & E5). destruct (Hf c) as (F1 & F2 & F3); [done..|].
  assert (Hcore : core (at_conn p f s) = mkCore (k_stopped (core s)) (k_servers (core s)) (k_slots (core s)) (<[p := shape_of (f c)]> (k_conns (core s)))
    (k_opening (core s)) (k_closing (core s)) (k_clients (core s))).
  { unfold core, at_conn. cbn. by rewrite (alter_at _ p f c Hc), fmap_insert. }
  assert (Hq : k_conns (core s) !! p = Some (shape_of c)) by (cbn; by rewrite lookup_fmap, Hc).
  assert (Hm : moved (eq p) (core s) (core (at_conn p f s))).
  { rewrite Hcore. apply (move_conn (eq p) (core s) p (shape_of c) (shape_of (f c)) Hi Hq); cbn [shape_of q_ws q_ready q_client q_err].
    - apply Hws.
    - rewrite F1, <- E1. exact Hle.
    - by rewrite F1.
    - intros cl H. rewrite F2, Hcl, E2. exact H.
    - intros cl H. rewrite F2, Hcl, E2 in H. exact (ci_client _ Hi p (shape_of c) cl Hq H).
    - intros cl H. left. rewrite F2, Hcl, E2 in H. exact H.
    - intros cl H. destruct (Hhand (core s) Hi Hx (eq_sym E4) cl H) as [Hl|[Hl Hl']]; [left; by rewrite F2, Hcl|right].
      split; [|by rewrite F1]. rewrite E3 in Hl. by apply bool_decide_eq_true in Hl.
    - intros He cl b Hb. destruct (Herr c) as [Hsame|Hall]; [|by eapply Hall].
      rewrite Hsame in He. exact (ci_err _ Hi p (shape_of c) cl b Hq He Hb).
    - by left. }
  split; [exact Hm|]. split; [|exact (HX _ _ Hi (mv_inv _ _ _ Hm) (mv_guard _ _ _ Hm) Hx)].
  rewrite (pview_intro p _ (f c)) by (cbn; by rewrite lookup_alter_eq, Hc). rewrite F1, F2. cbn [shape_of q_err].
  change (clients_of (core (at_conn p f s)) p) with (clients_of (core s) p). rewrite <- E4. change (pl_opening (at_conn p f s)) with (pl_opening s).
  rewrite <- E3, <- F3, <- Hop, <- Hcls. by destruct v'.
Qed.

Definition carried (client : option nat) (cls : gset nat) (failed : bool) : pstate := mkPState O client true cls failed.
Definition opened (client : option nat) (cls : gset nat) (failed : bool) : pstate := mkPState 1 client true cls failed.

(** The connection becomes ready when its client is in place or closed. *)
Lemma ready_ok p client cls failed X :
  lasting X ->
  (forall k, CInv k -> X k -> clients_of k p = cls -> forall cl, k_clients k !! cl = Some (p, false) -> client = Some cl) ->
  ok (change (at_conn p become_ready)) (Some p) (owns p (carried client cls failed) X)
    (fun _ o s => o = Some p /\ owns p (opened client cls failed) X s).
Proof.
  intros HX Hc. apply own_conn; [done|done| |done|done|cbn; lia|cbn; lia|done| |by left].
  - intros c H1 H2 H3. cbn in *. by rewrite H1.
  - intros k Hi Hx Hcls cl Hcl. left. by apply (Hc k Hi Hx Hcls).
Qed.

(** It fails when it has no open client. *)
Lemma fail_ok p cls failed err X :
  lasting X ->
  (forall k, CInv k -> X k -> clients_of k p = cls -> forall cl b, k_clients k !! cl = Some (p, b) -> b = true) ->
  ok (change (at_conn p (with_err err))) (Some p) (owns p (carried None cls failed) X)
    (fun _ o s => o = Some p /\ owns p (carried None cls (bool_decide (cls = ∅))) X s).
Proof.
  intros HX Hc. apply own_conn; [done|done| |done|done|done|cbn; lia|done| |intros c; right; exact Hc].
  - intros c H1 H2 H3. split; [exact H1|]. split; [exact H2|reflexivity].
  - intros k Hi Hx Hcls cl Hcl. by specialize (Hc k Hi Hx Hcls cl false Hcl).
Qed.

Lemma install_ok r p cl lists :
  ok (step (install r p cl lists)) (Some p) (owns p (carried None {[cl]} false) anything)
    (fun b o s => o = Some p /\ owns p (carried (if b : bool then Some cl else None) {[cl]} false) anything s).
Proof.
  apply own_moved with (v' := fun b : bool => carried (if b then Some cl else None) {[cl]} false) (X' := fun _ => anything); [done|].
  intros s Hi [Ho Hx]. unfold install. destruct (current r p s) eqn:Ecur; [|split; [by apply moved_refl|by split]]. cbn [fst snd].
  destruct (pview_conn p s _ Ho) as (c & Hc & E1 & E2 & E3 & E4 & E5). cbn in E1, E2, E3, E4, E5.
  set (f := fun c => with_lists lists (with_client cl c)).
  assert (Hcore : core (at_server r (with_catalog lists) (at_conn p f s)) =
    mkCore (k_stopped (core s)) (k_servers (core s)) (k_slots (core s)) (<[p := shape_of (f c)]> (k_conns (core s)))
      (k_opening (core s)) (k_closing (core s)) (k_clients (core s))).
  { rewrite core_server_same by done. unfold core, at_conn. cbn. by rewrite (alter_at _ p f c Hc), fmap_insert. }
  assert (Hq : k_conns (core s) !! p = Some (shape_of c)) by (cbn; by rewrite lookup_fmap, Hc).
  assert (Hmine : forall cl', cl' = cl <-> exists b, k_clients (core s) !! cl' = Some (p, b)).
  { intros cl'. rewrite <- elem_of_clients_of, <- E4. by rewrite elem_of_singleton. }
  split.
  - rewrite Hcore. apply (move_conn (eq p) (core s) p (shape_of c) (shape_of (f c)) Hi Hq); cbn [f shape_of with_lists with_client cn_workspace cn_ready cn_client cn_err q_ws q_ready q_client q_err].
    + done.
    + done.
    + rewrite <- E1. lia.
    + rewrite <- E2. done.
    + intros cl' [= <-]. by apply Hmine.
    + intros cl' _. right. exists r, (cn_workspace c). by apply (current_slot r p s c Hc).
    + intros cl' Hcl'. left. f_equal. symmetry. apply Hmine. by exists false.
    + intros He cl' b Hb. exact (ci_err _ Hi p (shape_of c) cl' b Hq He Hb).
    + by left.
  - split; [|done]. rewrite (pview_intro p _ (f c)) by (cbn; by rewrite lookup_alter_eq, Hc).
    assert (Hcl : clients_of (core (at_server r (with_catalog lists) (at_conn p f s))) p = clients_of (core s) p) by by rewrite Hcore.
    rewrite Hcl, <- E4. cbn [f with_lists with_client cn_ready cn_client]. rewrite <- E1. change (pl_opening (at_server r _ _)) with (pl_opening s).
    rewrite <- E3, (bool_decide_false ({[cl]} = ∅)), andb_false_r by (apply non_empty_singleton_L). done.
Qed.

Lemma close_own_ok p cl :
  ok (change (close_client cl)) (Some p) (owns p (carried None {[cl]} false) anything)
    (fun _ o s => o = Some p /\ owns p (carried None {[cl]} false) (closed_of p cl) s).
Proof.
  apply own_moved with (v' := fun _ => carried None {[cl]} false) (X' := fun _ => closed_of p cl); [auto with pool|].
  intros s Hi [Ho Hx]. cbn [fst snd]. destruct (pview_conn p s _ Ho) as (c & Hc & E1 & E2 & E3 & E4 & E5). cbn in E1, E2, E3, E4, E5.
  destruct (proj1 (elem_of_clients_of (core s) p cl)) as [b Hb]; [rewrite <- E4; by apply elem_of_singleton|].
  assert (Hm : exists c', pl_clients s !! cl = Some c' /\ cl_conn c' = p).
  { cbn in Hb. rewrite lookup_fmap in Hb. destruct (pl_clients s !! cl) as [c'|]; [|done]. injection Hb as Hb _. by exists c'. }
  destruct Hm as (c' & Hc' & Hp). pose proof (core_close_client cl s c' Hc') as Hcore. rewrite Hp in Hcore.
  pose proof (move_close nobody (core s) cl p b (k_closing (core s)) Hi Hb) as Hmv. rewrite <- Hcore in Hmv.
  destruct Hmv as [M1 M2 M3]; [by left|].
  split; [split; [done|done|]|split].
  - intros q _. exact (M3 q (fun H => H)).
  - destruct (M3 p (fun H => H)) as [Hv|Hv]; [unfold pview in Ho |- *; by rewrite Hv|]. unfold pview in Ho. congruence.
  - rewrite Hcore. unfold closed_of. cbn. by rewrite lookup_insert_eq.
Qed.

Lemma leave_ok p client cls failed X :
  lasting X ->
  ok (change (fun s => set_opening (pl_opening s ∖ {[p]}) s)) (Some p) (owns p (opened client cls failed) X)
    (fun _ o s => o = Some p /\ held o s).
Proof.
  intros HX. eapply ok_post; [|apply own_moved with (v' := fun _ => mkPState 1 client false cls failed) (X' := fun _ => anything); [done|]].
  - cbn. intros a o s _ [-> Ho]. split; [done|]. by eapply pool_owns_held.
  - intros s Hi [Ho Hx]. cbn [fst snd]. destruct (pview_conn p s _ Ho) as (c & Hc & E1 & E2 & E3 & E4 & E5). cbn in E1, E2, E3, E4, E5. split.
    + apply (move_opening (eq p) (core s) p (pl_opening s ∖ {[p]}) Hi); [done|cbn; rewrite lookup_fmap, Hc; by eexists|cbn; set_solver|set_solver|].
      intros _ q Hq. left. cbn in Hq. rewrite lookup_fmap, Hc in Hq. injection Hq as <-. cbn. by rewrite <- E1.
    + split; [|done]. rewrite (pview_intro p _ c) by done. cbn [pl_opening set_opening]. rewrite bool_decide_false by set_solver.
      change (clients_of (core (set_opening (pl_opening s ∖ {[p]}) s)) p) with (clients_of (core s) p). rewrite <- E1, <- E2, <- E4.
      exact (f_equal (fun b => Some (mkPState 1 client false cls b)) (eq_sym E5)).
Qed.

Lemma failed_ok r p err :
  ok (failed E r p err) (Some p) (owns p (carried None ∅ false) anything)
    (fun _ o s => o = Some p /\ owns p (opened None ∅ true) anything s).
Proof.
  assert (Hno : forall k, CInv k -> anything k -> clients_of k p = ∅ -> forall cl b, k_clients k !! cl <> Some (p, b)).
  { intros k _ _ Hcls cl b H. assert (Hin : cl ∈ clients_of k p) by (apply elem_of_clients_of; eauto). rewrite Hcls in Hin. by apply elem_of_empty in Hin. }
  unfold failed. apply pool_own_quiet; [apply quiet_of_conn|done|]. intros ws.
  apply pool_own_quiet; [destruct (pe_auth E err) as [[code challenge]|]; quietly|done|]. intros _.
  eapply own_then with (v' := fun _ => carried None ∅ true) (X' := fun _ => anything).
  { apply fail_ok; [done|]. intros k H1 H2 H3 cl b H. by apply (Hno k H1 H2 H3) in H. }
  intros _. eapply own_then with (v' := fun _ => opened None ∅ true) (X' := fun _ => anything).
  { apply ready_ok; [done|]. intros k H1 H2 H3 cl H. by apply (Hno k H1 H2 H3) in H. }
  intros _. eapply ok_post; [|apply quiet_ok; [apply pool_quiet_emit|by apply pool_owns_stable|]]; [done|].
  intros s q Ho [= <-]. by eapply pool_owns_held.
Qed.

Definition settled (p : nat) (s : PoolState) : Prop := exists client cls failed, owns p (opened client cls failed) anything s.
Lemma settled_stable p : stable (Some p) (settled p).
Proof. intros s s' Hi Hr (client & cls & failed & Ho). exists client, cls, failed. by eapply (pool_owns_stable p _ anything). Qed.

Lemma step_ex {A T} (f : PoolState -> A * PoolState) o (R : T -> PoolState -> Prop) Q :
  (forall t, ok (step f) o (R t) Q) -> ok (step f) o (fun s => exists t, R t s) Q.
Proof. intros H (s & Hi & t & Hr). cbn. intros s' Hi' (t' & Hr'). exact (H t' (ex_intro _ s' (conj Hi' Hr')) s' Hi' Hr'). Qed.

(** However it goes, the connection is ready, and its client is in place or
    closed. *)
Lemma open_ok r p cfg :
  ok (open E rounds r p cfg) (Some p) (owns p (begun ∅) anything)
    (fun _ o s => o = Some p /\ settled p s).
Proof.
  unfold open. eapply own_then with (v' := fun d => begun (match d with inl cl => {[cl]} | inr _ => ∅ end)) (X' := fun _ => anything); [apply dial_ok|].
  intros [cl|err].
  2: { eapply ok_post; [|apply failed_ok]. intros a o s _ [-> [Ho _]]. split; [done|]. by exists None, ∅, true. }
  assert (Hone : forall k, clients_of k p = {[cl]} -> forall cl' b, k_clients k !! cl' = Some (p, b) -> cl' = cl).
  { intros k Hcls cl' b H. assert (Hin : cl' ∈ clients_of k p) by (apply elem_of_clients_of; eauto). rewrite Hcls in Hin. by apply elem_of_singleton in Hin. }
  apply pool_own_quiet; [apply quiet_catalog|done|]. intros lists.
  eapply own_then with (v' := fun b : bool => carried (if b then Some cl else None) {[cl]} false) (X' := fun _ => anything); [apply install_ok|].
  intros [|]; cbn [negb].
  - apply pool_own_quiet; [apply quiet_of_conn|done|]. intros ws. apply pool_own_quiet; [apply pool_quiet_ask|done|]. intros info.
    apply pool_own_quiet; [apply quiet_addLog|done|]. intros _.
    eapply own_then with (v' := fun _ => carried (Some cl) {[cl]} false) (X' := fun _ => anything).
    { destruct (pe_listens E cl); [|by apply ok_ret]. apply pool_own_quiet; [by apply quiet_conn|done|]. intros _.
      apply background_ok; [by apply pool_owns_stable|intros s q Ho [= <-]; by eapply pool_owns_held|].
      eapply ok_post; [|apply quiet_ok; [apply quiet_listen|done|done]]. by intros a o s _ [-> _] q. }
    intros _. eapply own_then with (v' := fun _ => opened (Some cl) {[cl]} false) (X' := fun _ => anything).
    { apply ready_ok; [done|]. intros k _ _ Hcls cl' H. f_equal. symmetry. by eapply Hone. }
    intros _. eapply ok_post; [|apply quiet_ok; [apply pool_quiet_emit|by apply pool_owns_stable|]].
    + intros a o s _ [-> [Ho _]]. split; [done|]. by exists (Some cl), {[cl]}, false.
    + intros s q Ho [= <-]. by eapply pool_owns_held.
  - eapply own_then with (v' := fun _ => carried None {[cl]} false) (X' := fun _ => closed_of p cl); [apply close_own_ok|]. intros _.
    assert (Hcl : forall k, CInv k -> closed_of p cl k -> clients_of k p = {[cl]} -> forall cl' b, k_clients k !! cl' = Some (p, b) -> b = true).
    { intros k _ Hc Hcls cl' b H. rewrite (Hone k Hcls cl' b H) in H. unfold closed_of in Hc. congruence. }
    eapply own_then with (v' := fun _ => carried None {[cl]} (bool_decide (({[cl]} : gset nat) = ∅))) (X' := fun _ => closed_of p cl); [apply fail_ok; [auto with pool|exact Hcl]|].
    intros _. eapply ok_post; [|apply ready_ok; [auto with pool|]].
    + intros a o s _ [-> [Ho _]]. split; [done|]. by eexists _, _, _.
    + intros k Hi Hc Hcls cl' H. by specialize (Hcl k Hi Hc Hcls cl' false H).
Qed.

Lemma opener_ok r p cfg : ok (opener E rounds r p cfg) (Some p) (owns p (begun ∅) anything) (fun _ _ _ => True).
Proof.
  unfold opener. eapply ok_bind; [apply open_ok|]. intros a o. apply ok_pure. intros ->.
  eapply ok_bind; [apply quiet_ok; [by apply quiet_conn|apply settled_stable|]|].
  { intros s q (client & cls & failed & Ho) [= <-]. by eapply pool_owns_held. }
  intros a' o. apply ok_pure. intros ->. apply step_ex. intros client. apply step_ex. intros cls. apply step_ex. intros failed.
  eapply ok_post; [|by apply leave_ok]. done.
Qed.

(** ** The pool's operations *)

(** An operation that keeps to the guarantee, whatever is owned before it. *)
Definition fine {A} (m : P A) : Prop := forall o, ok m o (held o) (fun _ => held).

Lemma fine_quiet {A} (m : P A) : quiet m -> fine m.
Proof. intros Hm o. eapply ok_post; [|apply quiet_ok; [exact Hm|apply pool_held_stable|]]; [by intros a o' s _ [-> ?]|]. intros s p Hh Ho. by apply Hh. Qed.
Lemma fine_bind {A B} (m : P A) (f : A -> P B) : fine m -> (forall a, fine (f a)) -> fine (m ≫= f).
Proof. intros Hm Hf o. eapply ok_bind; [apply Hm|]. intros a o'. apply Hf. Qed.
Lemma fine_try {A B} (m : P (A + GoError)) (f : A -> P (B + GoError)) : fine m -> (forall a, fine (f a)) -> fine (try m f).
Proof. intros Hm Hf. apply fine_bind; [exact Hm|]. intros [a|err]; [apply Hf|by apply fine_quiet]. Qed.
Lemma fine_free {A} (m : P A) : fine m -> ok m None (fun _ => True) (fun _ => held).
Proof. intros Hm. eapply ok_pre; [|apply Hm]. by intros s _ _ p. Qed.
Lemma fine_background m : fine m -> fine (background m).
Proof.
  intros Hm o. eapply ok_post; [|apply background_ok; [apply pool_held_stable| |by apply fine_free]]; [by intros a o' s _ [-> ?]|].
  intros s p Hh Ho. by apply Hh.
Qed.

Lemma fine_connection id ws retry : fine (connection E rounds id ws retry).
Proof.
  unfold connection. apply fine_try; [apply fine_quiet; quietly|]. intros [r cfg].
  destruct (negb (sc_Enabled cfg)); [by apply fine_quiet|]. destruct (_ && _); [by apply fine_quiet|].
  intros o. eapply ok_bind; [apply pick_ok|]. intros [p|err|p|p] o'; cbn [picked]; [apply ok_pure; intros ->; apply fine_quiet; quietly..|].
  apply ok_pure. intros ->.
  eapply own_then with (v' := fun b : bool => if b then mkPState O None false ∅ false else begun ∅) (X' := fun _ => anything).
  { eapply ok_post; [|apply register_ok]. by intros [|] o1 s _ [-> ?]. }
  intros [|].
  - eapply ok_pre; [|apply fine_quiet; quietly]. intros s _ Ho. by eapply pool_owns_held.
  - apply pool_own_quiet; [apply pool_quiet_emit|done|]. intros _. eapply ok_bind; [apply go_owned; [by apply pool_owns_stable|apply opener_ok]|].
    intros a o1. apply ok_pure. intros ->. apply fine_free, fine_quiet. quietly.
Qed.

(** A client that ended by itself fails its connection. *)
Lemma dropped_ok r p err cl : ok (dropped E r p err) None (fun s => closed_of p cl (core s)) (fun _ => held).
Proof.
  assert (Hst : stable None (fun s => closed_of p cl (core s))) by apply lasting_stable, lasting_closed.
  unfold dropped. eapply ok_bind; [apply quiet_ok; [apply quiet_of_conn|exact Hst|done]|]. intros ws o. apply ok_pure. intros ->.
  eapply ok_bind with (R := fun _ o s => o = None /\ True).
  - apply ok_act. intros s a s' Hi Hc [= Hs]. exists None. split; [|by split]. change (pl_conns (tick s)) with (pl_conns s) in Hs.
    assert (Hmv : moved nobody (core s) (core s')).
    { destruct (current r p (tick s)); injection Hs as <- <-; [|by apply moved_refl].
      destruct (pl_conns s !! p) as [c|] eqn:Ec.
      - assert (Hcore : core (at_conn p (with_err err) (tick s)) = mkCore (k_stopped (core s)) (k_servers (core s)) (k_slots (core s))
          (<[p := shape_of (with_err err c)]> (k_conns (core s))) (k_opening (core s)) (k_closing (core s)) (k_clients (core s))).
        { unfold core, at_conn. cbn. by rewrite (alter_at _ p _ c Ec), fmap_insert. }
        assert (Hq : k_conns (core s) !! p = Some (shape_of c)) by (cbn; by rewrite lookup_fmap, Ec).
        rewrite Hcore. apply (move_conn nobody (core s) p (shape_of c)); cbn [shape_of with_err cn_workspace cn_ready cn_client cn_err q_ws q_ready q_client q_err];
          [exact Hi|exact Hq|done|done|exact (ci_ready _ Hi p _ Hq)|done| | | | |right].
        + intros cl' H. exact (ci_client _ Hi p _ cl' Hq H).
        + auto.
        + intros cl' H. destruct (ci_hand _ Hi p cl' H) as (q & Hq' & Hh). assert (q = shape_of c) as -> by congruence. exact Hh.
        + intros _ cl' b H. assert (cl' = cl) as -> by (eapply (ci_one _ Hi p); eauto). unfold closed_of in Hc. congruence.
        + split; [done|]. split; [done|]. assert (Hin : cl ∈ clients_of (core s) p) by (apply elem_of_clients_of; eauto). set_solver.
      - assert (Hsame : core (at_conn p (with_err err) (tick s)) = core s); [|rewrite Hsame; by apply moved_refl].
        unfold core, at_conn. cbn. replace (alter (with_err err) p (pl_conns s)) with (pl_conns s); [done|].
        apply map_eq. intros q. destruct (decide (q = p)) as [->|Hne]; [by rewrite lookup_alter_eq, Ec|by rewrite lookup_alter_ne]. }
    destruct Hmv as [H1 H2 H3]. split; [exact H1|]. split; [exact H2|]. split; [|done]. intros q _ _. exact (H3 q (fun H => H)).
  - intros cur o. apply ok_pure. intros ->. apply fine_free. destruct (negb cur); [by apply fine_quiet|].
    apply fine_bind; [apply fine_quiet; quietly|]. intros _. apply fine_bind; [apply fine_background, fine_quiet; quietly|]. intros _. apply fine_quiet. quietly.
Qed.

Lemma closedBy_ok cl err : ok (closedBy E cl err) None (fun _ => True) (fun _ => held).
Proof.
  unfold closedBy. eapply ok_bind with (R := fun up o s => o = None /\ match up with Some (_, p) => closed_of p cl (core s) | None => True end).
  - apply ok_act. intros s a s' Hi _ [= Hs]. exists None. change (pl_clients (tick s)) with (pl_clients s) in Hs.
    destruct (pl_clients s !! cl) as [c|] eqn:Ec; [destruct (cl_closed c) eqn:Ecl|]; injection Hs as <- <-.
    1, 3: split; [split; [exact Hi|]; split; [by apply CGuard_refl|]; split; [by left|done]|by split].
    pose proof (core_close_client cl (tick s) c Ec) as Hcore.
    assert (Hb : k_clients (core s) !! cl = Some (cl_conn c, false)) by (cbn; by rewrite lookup_fmap, Ec; cbn; rewrite Ecl).
    pose proof (move_close nobody (core s) cl (cl_conn c) false (k_closing (core s)) Hi Hb) as Hmv.
    change (core (tick s)) with (core s) in Hcore. rewrite <- Hcore in Hmv. destruct Hmv as [H1 H2 H3]; [by left|].
    split; [|split].
    + split; [exact H1|]. split; [exact H2|]. split; [|done]. intros q _ _. exact (H3 q (fun H => H)).
    + intros s1 s2 Hi1 (Hi2 & Hg & _) [_ H]. split; [done|]. exact (lasting_closed _ _ _ _ Hi1 Hi2 Hg H).
    + split; [done|]. rewrite Hcore. unfold closed_of. cbn. by rewrite lookup_insert_eq.
  - intros [[r p]|] o; apply ok_pure; intros ->; [apply dropped_ok|]. apply fine_free. by apply fine_quiet.
Qed.

Lemma fine_notified r p n : fine (notified E r p n).
Proof. destruct n; cbn [notified]; [apply fine_background, fine_quiet|apply fine_quiet|apply fine_quiet]; quietly. Qed.
Lemma fine_in_background id : fine (connectInBackground E rounds id).
Proof. apply fine_background, fine_bind; [apply fine_connection|]. intros a. by apply fine_quiet. Qed.

Lemma fine_start_all cfgs : fine (start_all E rounds cfgs).
Proof.
  induction cfgs as [|cfg cfgs IH]; cbn [start_all]; [by apply fine_quiet|]. apply fine_bind; [apply fine_quiet; quietly|]. intros _.
  apply fine_bind; [|done]. destruct (_ && _); [apply fine_in_background|by apply fine_quiet].
Qed.
Lemma fine_Start : fine (Start E rounds).
Proof.
  unfold Start. apply fine_bind; [apply fine_quiet; quietly|]. intros [cfgs|err]; [|by apply fine_quiet].
  apply fine_bind; [apply fine_start_all|]. intros _. by apply fine_quiet.
Qed.
Lemma fine_Changed id : fine (Changed E rounds id).
Proof.
  unfold Changed. apply fine_bind; [apply fine_quiet; quietly|]. intros [[r cfg]|err]; [|by apply fine_quiet].
  do 5 (apply fine_bind; [apply fine_quiet; quietly|]; intros ?). destruct (_ && _); [apply fine_in_background|by apply fine_quiet].
Qed.
Lemma quiet_Removed id : quiet (Removed id).
Proof.
  unfold Removed. apply quiet_bind; [|quietly]. apply quiet_moved. intros s Hi.
  apply (move_servers nobody (core s) (pl_stopped s) (base.delete id (pl_servers s)) Hi); [done|].
  cbn. intros id' r [_ H]%lookup_delete_Some. by left.
Qed.
Lemma quiet_StopWorkspace ws : quiet (StopWorkspace E ws).
Proof. unfold StopWorkspace. apply quiet_bind; [quietly|]. intros rs. apply quiet_end_all. Qed.
Lemma fine_Reconnect id ws : fine (Reconnect E rounds id ws).
Proof.
  unfold Reconnect. apply fine_try; [apply fine_quiet; quietly|]. intros [r cfg]. set (key := if _ : bool then ws else _).
  apply fine_bind; [apply fine_quiet|].
  - apply (quiet_taking (fun s => connFor (server_at r s) key) (fun v => with_conns (base.delete key (sv_conns v)) v) (base.delete key) r
      (fun s => list_to_set (option_list (connFor (server_at r s) key)))); [done|by intros m w p [_ ?]%lookup_delete_Some|].
    intros s m w p Hm Hp. destruct (decide (w = key)) as [->|Hne]; [right|left; by rewrite lookup_delete_ne].
    unfold connFor. rewrite (server_at_slots r s m Hm), Hp. set_solver.
  - intros old. apply fine_bind; [apply fine_quiet; destruct old; quietly|]. intros _. apply fine_try; [apply fine_connection|].
    intros p. by apply fine_quiet.
Qed.
Lemma fine_call id ws : fine (call E rounds id ws).
Proof.
  unfold call. assert (Hattempt : forall again k, (forall p err, fine (k p err)) -> fine (
    c ← connection E rounds id ws again;
    match c with
    | inl p => client ← of_conn p None cn_client; res ← ask (fun t => pe_call E t (default O client));
               match res with inl out => mret (inl out) | inr err => k p err end
    | inr err => mret (inr (ErrWrap "the server is not available" err))
    end)).
  { intros again k Hk. apply fine_bind; [apply fine_connection|]. intros [p|err]; [|by apply fine_quiet].
    apply fine_bind; [apply fine_quiet; quietly|]. intros client. apply fine_bind; [apply fine_quiet; quietly|].
    intros [out|err]; [by apply fine_quiet|apply Hk]. }
  apply Hattempt. intros p err. apply fine_bind; [apply fine_quiet, quiet_recover|]. intros [|]; [|by apply fine_quiet].
  apply Hattempt. intros p' err'. by apply fine_quiet.
Qed.

(** ** Closing the pool *)

(** None of a server's connections has a client or is getting one. *)
Definition idle (k : Core) (r : nat) : Prop :=
  forall w p, slot k r w p -> p ∉ k_opening k /\ forall cl b, k_clients k !! cl <> Some (p, b).
(** The pool has stopped, and of its servers only these may have any. *)
Definition stopping (rs : list nat) (k : Core) : Prop :=
  k_stopped k = true /\ forall id r, k_servers k !! id = Some r -> r ∈ rs \/ idle k r.
Definition closed_down (k : Core) : Prop := stopping [] k /\ k_opening k = ∅.

Lemma idle_lasting k k' r : CGuard k k' -> k_stopped k = true -> idle k r -> idle k' r.
Proof.
  intros Hg Hst Hr w p Hp. destruct (cg_slots _ _ Hg r w p Hp) as [Hs|Hn]; [|by apply (cg_fresh _ _ Hg)].
  destruct (Hr w p Hs) as [Ho Hc]. destruct (cg_stopped _ _ Hg Hst) as [_ Hsub]. split; [set_solver|].
  intros cl b H. destruct (k_clients k !! cl) as [[p' b']|] eqn:Ecl.
  - destruct (cg_clients _ _ Hg cl p' b' Ecl) as (b2 & H2 & _). assert (p' = p) as -> by congruence. by apply Hc in Ecl.
  - by apply Ho, (cg_dialled _ _ Hg cl p b).
Qed.
Lemma stopping_lasting rs : lasting (stopping rs).
Proof.
  intros k k' Hi Hi' Hg [Hst Hs]. split; [by apply (cg_stopped _ _ Hg)|]. intros id r Hr.
  destruct (cg_servers _ _ Hg id r Hr) as [Hold|Hnew].
  - destruct (Hs id r Hold) as [|Hidle]; [by left|right]. by apply (idle_lasting k).
  - right. intros w p Hp. destruct (cg_slots _ _ Hg r w p Hp) as [(m & Hm & _)|Hn]; [congruence|by apply (cg_fresh _ _ Hg)].
Qed.
Lemma closed_down_lasting : lasting closed_down.
Proof.
  intros k k' Hi Hi' Hg [Hs Ho]. split; [exact (stopping_lasting [] k k' Hi Hi' Hg Hs)|]. destruct Hs as [Hst _].
  destruct (cg_stopped _ _ Hg Hst) as [_ Hsub]. set_solver.
Qed.

Lemma takeConns_stopping r rs :
  ok (takeConns r EmptyString) None (fun s => stopping (r :: rs) (core s)) (fun _ o s => o = None /\ stopping rs (core s)).
Proof.
  apply ok_act. intros s ps s' Hi Hs [= Ha Hs']. exists None. pose proof (quiet_takeConns r EmptyString) as [Hq _].
  destruct (Hq s ps s' Hi) as (H1 & H2 & H3); [by rewrite <- Ha, <- Hs'|]. split; [split; [done|]; split; [done|]; split; [by intros p _ _|done]|].
  split; [intros s1 s2 Hi1 (Hi2 & Hg & _) [_ H]; split; [done|exact (stopping_lasting _ _ _ Hi1 Hi2 Hg H)]|]. split; [done|].
  pose proof (stopping_lasting (r :: rs) _ _ Hi H1 H2 Hs) as [Hst Hsv]. split; [exact Hst|]. intros id r' Hr'.
  destruct (Hsv id r' Hr') as [[->|Hin]%elem_of_cons|]; [right|by left|by right]. intros w p (m & Hm & Hp). exfalso.
  rewrite <- Hs' in Hm. cbn in Hm. rewrite lookup_fmap, lookup_alter_eq in Hm. destruct (pl_heap s !! r) as [v|]; [|done].
  injection Hm as <-. by rewrite lookup_empty in Hp.
Qed.

Lemma end_all_stopping rs : ok (end_all E EmptyString false rs) None (fun s => stopping rs (core s)) (fun _ o s => o = None /\ stopping [] (core s)).
Proof.
  induction rs as [|r rs IH]; cbn [end_all]; [by apply ok_ret|]. eapply ok_bind; [apply takeConns_stopping|].
  intros ps o. apply ok_pure. intros ->. eapply ok_bind; [apply quiet_ok; [apply quiet_close_all|apply lasting_stable, stopping_lasting|done]|].
  intros a o. apply ok_pure. intros ->. exact IH.
Qed.

Lemma Close_ok : ok (Close E) None (fun _ => True) (fun _ o s => o = None /\ closed_down (core s)).
Proof.
  unfold Close. eapply ok_bind with (R := fun rs o s => o = None /\ stopping rs (core s)).
  - apply ok_act. intros s rs s' Hi _ [= <- <-]. exists None.
    pose proof (move_servers nobody (core s) true (pl_servers s) Hi) as Hmv. destruct Hmv as [H1 H2 H3]; [done|by left|].
    split; [|split].
    + split; [exact H1|]. split; [exact H2|]. split; [|done]. intros q _ _. exact (H3 q (fun H => H)).
    + intros s1 s2 Hi1 (Hi2 & Hg & _) [_ H]. split; [done|exact (stopping_lasting _ _ _ Hi1 Hi2 Hg H)].
    + split; [done|]. split; [done|]. intros id r Hr. left. cbn in Hr. apply list_elem_of_fmap. exists (id, r). split; [done|].
      by apply elem_of_map_to_list.
  - intros rs o. apply ok_pure. intros ->.
    eapply ok_bind; [apply quiet_ok; [by apply pool_quiet_change|apply lasting_stable, (stopping_lasting rs)|done]|].
    intros a o. apply ok_pure. intros ->. eapply ok_bind; [apply end_all_stopping|]. intros a' o. apply ok_pure. intros ->.
    apply ok_act. intros s u s' Hi Hs Hf. exists None. destruct (bool_decide_reflect (pl_opening s = ∅)) as [Ho|]; [|done]. cbn [andb] in Hf.
    destruct (Nat.eqb _ _); [|done]. injection Hf as _ <-.
    split; [|split].
    + split; [exact Hi|]. split; [by apply CGuard_refl|]. split; [by left|done].
    + intros s1 s2 Hi1 (Hi2 & Hg & _) [_ H]. split; [done|exact (closed_down_lasting _ _ Hi1 Hi2 Hg H)].
    + split; [done|]. by split.
Qed.

(** ** Requests *)

(** What is asked of the pool, by requests, runs, and transports. *)
Inductive request : Type :=
| RStart | RClose | RConnect (id workspaceID : string) (retry : bool) | RCall (id workspaceID : string)
| RChanged (id : string) | RRemoved (id : string) | RStopWorkspace (workspaceID : string) | RReconnect (id workspaceID : string)
| RStatus (id : string) | RNotified (r p : nat) (n : Notification) | RClosedBy (cl : nat) (err : GoError).

Definition request_thread (q : request) : P unit :=
  match q with
  | RStart => _ ← Start E rounds; mret tt
  | RClose => Close E
  | RConnect id ws retry => _ ← connection E rounds id ws retry; mret tt
  | RCall id ws => _ ← call E rounds id ws; mret tt
  | RChanged id => Changed E rounds id
  | RRemoved id => Removed id
  | RStopWorkspace ws => StopWorkspace E ws
  | RReconnect id ws => _ ← Reconnect E rounds id ws; mret tt
  | RStatus id => _ ← PoolStatus E id; mret tt
  | RNotified r p n => notified E r p n
  | RClosedBy cl err => closedBy E cl err
  end.
Definition request_end (q : request) (s : PoolState) : Prop := match q with RClose => closed_down (core s) | _ => True end.

Lemma fine_ends {A} (m : P A) : fine m -> ok (_ ← m; mret tt) None (fun _ => True) (fun _ _ _ => True).
Proof. intros Hm. eapply ok_bind; [by apply fine_free|]. intros a o. by apply ok_ret. Qed.
Lemma held_ends {A} (m : P A) : ok m None (fun _ => True) (fun _ => held) -> ok m None (fun _ => True) (fun _ _ _ => True).
Proof. intros Hm. by eapply ok_post; [|exact Hm]. Qed.

Lemma request_ok q : ok (request_thread q) None (fun _ => True) (fun _ _ => request_end q).
Proof.
  destruct q; cbn [request_thread request_end].
  - apply fine_ends, fine_Start.
  - eapply ok_post; [|apply Close_ok]. by intros a o s _ [_ ?].
  - apply fine_ends, fine_connection.
  - apply fine_ends, fine_call.
  - apply held_ends, fine_free, fine_Changed.
  - apply held_ends, fine_free, fine_quiet, quiet_Removed.
  - apply held_ends, fine_free, fine_quiet, quiet_StopWorkspace.
  - apply fine_ends, fine_Reconnect.
  - apply fine_ends, fine_quiet, quiet_PoolStatus.
  - apply held_ends, fine_free, fine_notified.
  - apply held_ends, closedBy_ok.
Qed.

Lemma CInv_new : CInv (core NewPool).
Proof.
  split; cbn.
  - intros r w p (m & Hm & _). cbn in Hm. by rewrite fmap_empty, lookup_empty in Hm.
  - intros r r' w w' p (m & Hm & _). cbn in Hm. by rewrite fmap_empty, lookup_empty in Hm.
  - intros p q. by rewrite fmap_empty, lookup_empty.
  - intros p q cl. by rewrite fmap_empty, lookup_empty.
  - intros p cl cl' b b'. by rewrite fmap_empty, lookup_empty.
  - intros p q cl. by rewrite fmap_empty, lookup_empty.
  - intros p cl. by rewrite fmap_empty, lookup_empty.
  - intros p q cl b. by rewrite fmap_empty, lookup_empty.
  - intros p. by rewrite elem_of_empty.
  - intros cl p b. by rewrite fmap_empty, lookup_empty.
Qed.

Lemma requests_sound qs turns :
  sound PInv PGuard pview anywhere (map request_end qs) (schedule turns (mkConfig NewPool (map request_thread qs))).
Proof.
  apply schedule_sound, sound_start.
  - apply CInv_new.
  - apply Forall2_fmap, Forall_Forall2_diag, Forall_true. intros q. apply request_ok. exists NewPool. split; [apply CInv_new|done].
Qed.
End pool.

Section claims.
Context (E : PoolEnv) (rounds : nat).

(** The pool after some turns of the threads of the requests to it and of the
    goroutines they started. *)
Definition pool_after (qs : list request) (turns : list nat) : config PoolState :=
  schedule turns (mkConfig NewPool (map (request_thread E rounds) qs)).

(** A server, in the pool or not, has the connection for a workspace. *)
Definition connected (s : PoolState) (r : nat) (w : string) (p : nat) : Prop :=
  exists v, pl_heap s !! r = Some v /\ sv_conns v !! w = Some p.

Lemma open_client s cl c :
  PInv s -> pl_clients s !! cl = Some c -> cl_closed c = false -> exists d, pl_conns s !! cl_conn c = Some d /\
    (cn_client d = Some cl /\ ((exists r w, connected s r w (cl_conn c)) \/ cl_conn c ∈ pl_closing s) \/
     cl_conn c ∈ pl_opening s /\ cn_ready d = O).
Proof.
  intros Hi Hc Hop. assert (Hk : k_clients (core s) !! cl = Some (cl_conn c, false)) by (cbn; by rewrite lookup_fmap, Hc; cbn; rewrite Hop).
  destruct (ci_hand _ Hi _ cl Hk) as (q & Hq & Hh). pose proof Hq as Hq'. cbn in Hq'. rewrite lookup_fmap in Hq'.
  destruct (pl_conns s !! cl_conn c) as [d|]; [|done]. injection Hq' as <-. exists d. split; [done|].
  destruct Hh as [Hh|Hh]; [left|by right]. split; [exact Hh|]. destruct (ci_kept _ Hi _ _ cl Hq Hh Hk) as [(r & w & Hs)|]; [left|by right].
  exists r, w. by apply slot_server in Hs.
Qed.


(** Once the pool has been closed, it is opening no connection and never
    does again, none of its servers has a connection with a client, and a
    client that is open is about to be closed by another request or belongs
    to a server that the pool had forgotten. *)
Theorem Close_is_final qs turns turns' i :
  qs !! i = Some RClose -> c_threads (pool_after qs turns) !! i = Some (Ret tt) ->
  let s := c_state (schedule turns' (pool_after qs turns)) in
  pl_stopped s = true /\ pl_opening s = ∅ /\
  (forall id r w p c, pl_servers s !! id = Some r -> connected s r w p -> pl_conns s !! p = Some c -> cn_client c = None) /\
  (forall cl c, pl_clients s !! cl = Some c -> cl_closed c = false ->
     cl_conn c ∈ pl_closing s \/ exists r w, connected s r w (cl_conn c) /\ forall id, pl_servers s !! id <> Some r).
Proof.
  intros Hq Hend s. pose proof (requests_sound E rounds qs turns) as Hs. apply (schedule_sound _ _ _ _ _ turns') in Hs.
  fold (pool_after qs turns) in Hs. pose proof Hs as [Hi _]. fold s in Hi.
  assert (Hd : closed_down (core s)).
  { eapply (sound_ended _ _ _ _ _ _ i (request_end RClose) tt Hs); [by apply ended_stays|]. by rewrite list_lookup_fmap, Hq. }
  destruct Hd as [[Hst Hsv] Ho]. split; [exact Hst|]. split; [exact Ho|].
  assert (Hidle : forall id r, pl_servers s !! id = Some r -> idle (core s) r).
  { intros id r Hr. by destruct (Hsv id r Hr) as [[]%elem_of_nil|]. }
  split.
  - intros id r w p c Hr Hp Hc. apply slot_server in Hp. destruct (Hidle id r Hr w p Hp) as [_ Hno].
    destruct (cn_client c) as [cl|] eqn:Ecl; [exfalso|done].
    destruct (ci_client _ Hi p (shape_of c) cl) as [b Hb]; [cbn; by rewrite lookup_fmap, Hc|done|]. by apply Hno in Hb.
  - intros cl c Hc Hop. destruct (open_client s cl c Hi Hc Hop) as (d & Hd & [[Hcl [(r & w & Hp)|]]|[Hin _]]); [right|by left|].
    + exists r, w. split; [done|]. intros id Hr. apply slot_server in Hp. destruct (Hidle id r Hr w _ Hp) as [_ Hno].
      apply (Hno cl false). cbn. by rewrite lookup_fmap, Hc; cbn; rewrite Hop.
    + change (pl_opening s) with (k_opening (core s)) in Hin. rewrite Ho in Hin. by apply elem_of_empty in Hin.
Qed.
End claims.

(** ** Concrete pools *)

(** One remote server, whose address changes after five actions; whatever
    is asked of it succeeds. *)
Definition demo_config (t : nat) : ServerConfig :=
  mkServerConfig "a" "files" KindHTTP (if (t <=? 5)%nat then "https://old" else "https://new") ∅ "" [] [] true [].
Definition demo_pool : PoolEnv :=
  mkPoolEnv (fun t _ => inl (demo_config t)) (fun t => inl [demo_config t]) Z.of_nat (fun _ => None) true (fun _ _ _ => None)
    (fun _ _ => None) (fun _ => false) (fun _ => None) (fun _ => None) (fun _ => false) (fun _ => "2026-07-28") (fun _ => (true, false, false))
    (fun _ => false) (fun _ => None) (fun _ _ => inl []) (fun _ _ => inl []) (fun _ _ => inl []) (fun _ _ => inl []) (fun _ => false)
    (fun _ _ => ErrText "ended") (fun _ => false) (fun _ _ => inl "out").

Definition demo_closing : list nat := repeat 0%nat 20 ++ concat (repeat [2; 3; 0]%nat 60) ++ repeat 1%nat 20.

(** A pool that connected its server and was closed. *)
Lemma Close_is_final_witness :
  map cl_closed (map snd (map_to_list (pl_clients (c_state (pool_after demo_pool 0 [RStart; RClose] demo_closing))))) = [true] /\
  pl_opening (c_state (schedule [0; 1]%nat (pool_after demo_pool 0 [RStart; RClose] demo_closing))) = ∅.
Proof.
  split; [vm_compute; reflexivity|].
  refine (proj1 (proj2 (Close_is_final demo_pool 0 [RStart; RClose] demo_closing [0; 1]%nat 1%nat _ _))); [reflexivity|vm_compute; reflexivity].
Defined.

(** Closing the pool can wait forever. A request that finds the pool
    stopped right after it gave a server a new connection leaves that
    connection where it is, never ready and with nobody to open it, and
    closing the pool waits for it. *)
Theorem close_hangs :
  let c := pool_after demo_pool 0 [RConnect "a" EmptyString false; RClose] ([0; 0; 0; 0; 1] ++ repeat 0 4 ++ repeat 1 5)%nat in
  ended_threads c = [true; false] /\ stuck c /\ (forall turns, schedule turns c = c) /\
  cn_ready <$> pl_conns (c_state c) !! 0%nat = Some O.
Proof.
  cbv zeta. split; [vm_compute; reflexivity|]. split; [apply stuck_check; vm_compute; reflexivity|].
  split; [intros turns; apply stuck_stays, stuck_check; vm_compute; reflexivity|]. vm_compute. reflexivity.
Qed.

(** A change of a server can be missed. A request that read the old
    configuration and takes its place once the change has ended the server's
    connections connects with it and stays connected when everybody is done;
    and with a server that was removed it stays connected even when the pool
    has been closed. *)
Theorem late_connection_stays :
  (let c := pool_after demo_pool 0 [RConnect "a" EmptyString false; RChanged "a"] ([0; 0; 0] ++ repeat 1 40 ++ concat (repeat [0; 2; 3] 40))%nat in
   ended_threads c = [true; true; true; true] /\
   (fun cl => (cl_server cl, cl_conn cl, cl_closed cl, sc_URL (cl_config cl))) <$> pl_clients (c_state c) !! 0%nat = Some (0%nat, 0%nat, false, "https://old") /\
   (fun v => sv_conns v !! EmptyString) <$> pl_heap (c_state c) !! 0%nat = Some (Some 0%nat)) /\
  (let c := pool_after demo_pool 0 [RConnect "a" EmptyString false; RRemoved "a"; RClose]
              ([0; 0; 0] ++ repeat 1 40 ++ concat (repeat [0; 3] 40) ++ repeat 2 10)%nat in
   ended_threads c = [true; true; true; true] /\ pl_servers (c_state c) = ∅ /\
   cl_closed <$> pl_clients (c_state c) !! 0%nat = Some false).
Proof. repeat split; vm_compute; reflexivity. Qed.
