(* ===== verification/Api.v ===== *)
(** What the HTTP API answers a request that fails with (internal/server
    json.go): the failures a handler chooses itself, and the status and code
    of the errors the other packages return. *)
From S2P Require Import Prelude GoStr Failure Entries.
From stdpp Require Import options.
Open Scope Z_scope.

(* @src internal/server/json.go 59-69 codeInvalidRequest *)
Definition codeInvalidRequest : string := "invalid_request".
Definition codeUnauthorized : string := "unauthorized".
Definition codeForbidden : string := "forbidden".
Definition codeNotFound : string := "not_found".
Definition codeConflict : string := "conflict".
Definition codeTooLarge : string := "too_large".
Definition codeInternal : string := "internal".

(** An error a handler fails with: its own choice of status, or another
    package's. *)
(* @src internal/server/json.go 82-89 apiError *)
Inductive failure : Type :=
| Api (status : Z) (code message : string)
| Plain (e : GoError).

(* @src internal/server/json.go 91-92 apiError.Error *)
Definition failure_text (f : failure) : string :=
  match f with Api _ _ m => m | Plain e => error_text e end.

(* @src internal/server/json.go 94-97 invalidf *)
Definition invalidf (message : string) : failure := Api 400 codeInvalidRequest message.
(* @src internal/server/json.go 99-103 forbiddenf *)
Definition forbiddenf (message : string) : failure := Api 403 codeForbidden message.
(* @src internal/server/json.go 105-108 tooLargef *)
Definition tooLargef (message : string) : failure := Api 413 codeTooLarge message.
(* @src internal/server/json.go 110-113 notFoundf *)
Definition notFoundf (message : string) : failure := Api 404 codeNotFound message.
(* @src internal/server/json.go 115-119 conflictf *)
Definition conflictf (message : string) : failure := Api 409 codeConflict message.

(** The sentinels of the other packages, by their texts. *)
Definition not_found_sentinels : list string :=
  ["not found"; "workspace not found"; "project not found"; "question not found"; "elicitation not found";
   "no authorization is waiting for this answer"].
Definition conflict_sentinels : list string := ["conflict"; "the server is turned off"].
Definition invalid_sentinels : list string :=
  ["invalid project name"; "invalid branch name"; "invalid answer"; "invalid elicitation answer";
   "a stdio server runs in a workspace, and none was given";
   "restricting a sandbox's network needs the internal sandbox network, which this harness is not configured with"].

Definition is_one_of (l : list string) (e : GoError) : bool := existsb (fun s => is_sentinel s e) l.

(* @src internal/server/json.go 138-157 statusOf *)
Definition statusOf (f : failure) : Z * string :=
  match f with
  | Api status code _ => (status, code)
  | Plain e =>
      if is_one_of not_found_sentinels e then (404, codeNotFound)
      else if is_one_of conflict_sentinels e then (409, codeConflict)
      else if is_one_of invalid_sentinels e then (400, codeInvalidRequest)
      else (500, codeInternal)
  end.

(** The answer: a message of the harness's own failures never leaves it. *)
(* @src internal/server/json.go 121-136 Server.fail *)
Definition fail (f : failure) : Z * string * string :=
  let '(status, code) := statusOf f in
  (status, code, if status =? 500 then "internal error" else failure_text f).

(** A handler's answer: its status and what it writes, or what it fails with. *)
Definition answer (A : Type) : Type := (Z * A) + failure.
