(* ===== verification/ToolChoice.v ===== *)
(** What the tools of an MCP server are called and described as (internal/mcp
    tools.go), and which tools a session's runs offer (internal/server
    tools.go): the choice
    a session or a profile makes, how it is checked, and the registry of a
    run. *)
From stdpp Require Import sorting.
From S2P Require Import Prelude GoStr Json Failure Tool Entries Pool Api.
From stdpp Require Import options.
Open Scope Z_scope.

(* @src internal/mcp/tools.go 18-19 ToolPrefix *)
Definition ToolPrefix : string := "mcp__".
(* @src internal/mcp/tools.go 21-22 maxToolName *)
Definition maxToolName : Z := 64.
(* @src internal/mcp/tools.go 24-29 listResourcesTool *)
Definition listResourcesTool : string := "mcp_list_resources".
Definition readResourceTool : string := "mcp_read_resource".

Definition is_alnum (r : Z) : bool :=
  ((97 <=? r) && (r <=? 122)) || ((65 <=? r) && (r <=? 90)) || ((48 <=? r) && (r <=? 57)).
Definition function_rune (r : Z) : bool := is_alnum r || (r =? 95) || (r =? 45).

(* @src internal/mcp/tools.go 51-66 functionName *)
Definition functionName (s : string) : string :=
  let b := map (fun r => if function_rune r then r else 95) (runes s) in
  match b with [] => "tool" | _ => of_bytes b end.

(** A tool as its server lists it. *)
(* @src internal/mcp/protocol.go 99-108 Tool *)
Record ServerToolDef := mkServerToolDef {
  mt_Name : string; mt_Title : string; mt_Description : string; mt_InputSchema : string;
}.

Section names.
(** [sha256.Sum256] of a string. *)
Context (sha256 : string -> list Z).

Fixpoint name_tools (server : string) (taken : gset string) (tools : list ServerToolDef) : list string :=
  match tools with
  | [] => []
  | t :: tools' =>
      let base := ToolPrefix +:+ functionName server +:+ "__" +:+ functionName (mt_Name t) in
      let name :=
        if (maxToolName <? str_len base) || bool_decide (base ∈ taken)
        then str_take (Z.to_nat (Z.min (str_len base) (maxToolName - 7))) base +:+ "_" +:+
               hex_string (firstn 3 (sha256 (mt_Name t)))
        else base in
      name :: name_tools server (taken ∪ {[name]}) tools'
  end.

(* @src internal/mcp/tools.go 31-49 ToolNames *)
Definition ToolNames (server : string) (tools : list ServerToolDef) : list string := name_tools server ∅ tools.

(* @src internal/mcp/content.go 195-200 orName *)
Definition orName (title name : string) : string := if String.eqb title EmptyString then name else title.

Definition no_schema : string := obj [member "type" (quote "object"); member "properties" (obj [])].

(** The last of two members with one key is kept. *)
Definition as_map (l : list (string * string)) : gmap string string := foldl (fun m p => <[p.1 := p.2]> m) ∅ l.
Definition add_missing (k v : string) (m : gmap string string) : gmap string string :=
  match m !! k with Some _ => m | None => <[k := v]> m end.

(* @src internal/mcp/tools.go 110-128 toolSchema *)
Definition toolSchema (raw : string) : string :=
  if negb (json_valid raw) then no_schema else
  match object_pairs raw with
  | None => no_schema
  | Some l =>
      let m := add_missing "properties" (obj []) (add_missing "type" (quote "object") (delete "$schema" (as_map l))) in
      obj (map (fun p => member p.1 p.2) (merge_sort (fun x y => String.le x.1 y.1) (map_to_list m)))
  end.

(** A tool of a run, with the server it calls: none for a tool the harness
    has itself and for the resource tools. *)
(* @src internal/mcp/tools.go 68-79 serverTool *)
Record OfferedTool := mkOffered { of_tool : Tool; of_server : string; of_serverID : string }.

(* @src internal/mcp/tools.go 217-227 ServerOf *)
Definition ServerOf (t : OfferedTool) : string := of_server t.

(* @src internal/mcp/tools.go 84-90 serverTool.Description *)
Definition tool_description (server : string) (t : ServerToolDef) : string :=
  let d := trim_space (mt_Description t) in
  if String.eqb d EmptyString
  then orName (mt_Title t) (mt_Name t) +:+ ", from the MCP server " +:+ server +:+ "."
  else d.

(** A remote server's tools need no workspace. *)
(* @src internal/mcp/tools.go 229-247 Pool.serverTools *)
Definition serverTools (cfg : ServerConfig) (tools : list ServerToolDef) : list OfferedTool :=
  let names := ToolNames (sc_Name cfg) tools in
  omap (fun p =>
    let '(name, t) := p in
    if bool_decide (mt_Name t ∈ sc_DisabledTools cfg) then None
    else Some (mkOffered (mkTool name (tool_description (sc_Name cfg) t) (toolSchema (mt_InputSchema t))
                 (negb (String.eqb (sc_Kind cfg) KindStdio))) (sc_Name cfg) (sc_ID cfg)))
    (combine names tools).

(** A server with what it listed: its tools, and whether it has resources or
    templates. *)
(* @src internal/mcp/tools.go 191-195 listedServer *)
Record listedServer := mkListedServer { ls_cfg : ServerConfig; ls_tools : list ServerToolDef; ls_resources : bool }.

(* @src internal/mcp/tools.go 406-411 resourceServer *)
Record resourceServer := mkResourceServer { rs_id : string; rs_name : string; rs_local : bool }.

(* @src internal/mcp/tools.go 432-438 listResources.names *)
Definition resource_names (servers : list resourceServer) : string := join (map rs_name servers) ", ".

(* @src internal/mcp/tools.go 413-443 listResources methods *)
Definition listResources (servers : list resourceServer) : OfferedTool :=
  mkOffered (mkTool listResourcesTool
    ("List the resources (documents, files, records) the connected MCP servers offer, with their URIs and the URI templates that address more. " +:+
     "Read one with " +:+ readResourceTool +:+ ". Servers: " +:+ resource_names servers +:+ ".")
    (obj [member "type" (quote "object");
          member "properties" (obj [member "server" (obj [member "type" (quote "string");
            member "description" (quote "List only this server's resources.")])]);
          member "additionalProperties" "false"]) true) EmptyString EmptyString.

(* @src internal/mcp/tools.go 490-510 readResource methods *)
Definition readResource : OfferedTool :=
  mkOffered (mkTool readResourceTool
    ("Read one resource of a connected MCP server by its URI, as " +:+ listResourcesTool +:+
     " lists them or a template fills in.")
    (obj [member "type" (quote "object");
          member "properties" (obj [
            member "server" (obj [member "type" (quote "string"); member "description" (quote "The MCP server's name.")]);
            member "uri" (obj [member "type" (quote "string"); member "description" (quote "The resource's URI.")])]);
          member "required" (arr [quote "server"; quote "uri"]);
          member "additionalProperties" "false"]) true) EmptyString EmptyString.

(* @src internal/mcp/tools.go 197-215 Pool.offer *)
Definition offer (found : list listedServer) : list OfferedTool :=
  let found := merge_sort (fun x y => String.le (sc_Name (ls_cfg x)) (sc_Name (ls_cfg y))) found in
  let out := concat (map (fun l => serverTools (ls_cfg l) (ls_tools l)) found) in
  let resources := omap (fun l => if ls_resources l
    then Some (mkResourceServer (sc_ID (ls_cfg l)) (sc_Name (ls_cfg l)) (String.eqb (sc_Kind (ls_cfg l)) KindStdio))
    else None) found in
  match resources with [] => out | _ => out ++ [listResources resources; readResource] end.

(** What a server listed, and what its description says of it. *)
Context (listed : Catalog -> list ServerToolDef).
Definition has_resources (c : Catalog) : bool :=
  match ct_Resources c, ct_Templates c with [], [] => false | _, _ => true end.

(* @src internal/mcp/tools.go 166-189 Pool.Offered *)
Definition Offered (servers : list server) : list OfferedTool :=
  offer (omap (fun s =>
    if sv_enabled s
    then Some (mkListedServer (mkServerConfig (sv_id s) (sv_name s) (sv_kind s) EmptyString ∅ EmptyString [] [] (sv_enabled s) (sv_disabled s))
                 (listed (sv_catalog s)) (has_resources (sv_catalog s)))
    else None) servers).
End names.

(* @src internal/server/tools.go 139-141 serverChoiceSuffix *)
Definition serverChoiceSuffix : string := "__*".

(* @src internal/server/tools.go 150-162 choiceServer *)
Definition choiceServer (name : string) : option string :=
  if has_prefix name ToolPrefix then
    let server := trim_prefix name ToolPrefix in
    if has_suffix server serverChoiceSuffix then
      let server := trim_suffix server serverChoiceSuffix in
      if String.eqb server EmptyString then None else Some server
    else None
  else None.

(* @src internal/server/tools.go 143-148 isServerChoice *)
Definition isServerChoice (name : string) : bool := match choiceServer name with Some _ => true | None => false end.

(** [None] is a choice that was not made. *)
(* @src internal/server/tools.go 164-179 toolChosen *)
Definition toolChosen (choice : option (list string)) (t : OfferedTool) : bool :=
  match choice with
  | None => true
  | Some entries =>
      existsb (fun entry =>
        match choiceServer entry with
        | Some s => negb (String.eqb (ServerOf t) EmptyString) && String.eqb s (ServerOf t)
        | None => String.eqb entry (Name (of_tool t))
        end) entries
  end.

(** The tools every run shares, none in a server without them; none of them
    is an MCP server's. *)
Definition own (t : Tool) : OfferedTool := mkOffered t EmptyString EmptyString.

(* @src internal/server/tools.go 207-227 Server.narrowed *)
Definition narrowed (shared : option Registry) (keep : OfferedTool -> bool) (mcpTools : list OfferedTool) : Registry :=
  let out := match shared with Some r => Filter r (fun t => keep (own t)) | None => mkRegistry ∅ end in
  foldl (fun out t =>
    if keep t then match Register out (of_tool t) with inl out' => out' | inr _ => out end else out) out mcpTools.

(* @src internal/server/tools.go 187-191 Server.allTools *)
Definition allTools (shared : option Registry) (offered : list OfferedTool) : Registry :=
  narrowed shared (fun _ => true) offered.

(* @src internal/server/tools.go 181-185 Server.toolNamed *)
Definition toolNamed (shared : option Registry) (offered : list OfferedTool) (name : string) : option Tool :=
  Get (allTools shared offered) name.

(* @src internal/server/tools.go 193-205 Server.runTools *)
Definition runTools (shared : option Registry) (chat : bool) (choice : option (list string)) (mcpTools : list OfferedTool) : Registry :=
  narrowed shared (fun t => if chat && NeedsWorkspace (of_tool t) then false else toolChosen choice t) mcpTools.

(* @src internal/server/tools.go 229-238 Server.sessionToolNames *)
Definition sessionToolNames (shared : option Registry) (offered : list OfferedTool) (chat : bool) (choice : option (list string)) : list string :=
  map Name (List (runTools shared chat choice offered)).

(* @src internal/server/tools.go 263-265 isMCPTool *)
Definition isMCPTool (name : string) : bool := has_prefix name "mcp_".

(** [connected] is what connecting the servers gives. *)
(* @src internal/server/tools.go 249-261 Server.mcpToolsFor *)
Definition mcpToolsFor (pool : bool) (choice : option (list string)) (connected : list OfferedTool) : list OfferedTool :=
  if negb pool then [] else
  match choice with
  | Some names => if existsb isMCPTool names then connected else []
  | None => connected
  end.

Section check.
(** The shared tools, what the pool offers, and the configured MCP servers by
    name and kind, none without a pool. *)
Context (shared : option Registry) (offered : list OfferedTool) (servers : list (string * string)) (chat : bool).

Definition check_choice (name : string) : option failure :=
  match choiceServer name with
  | Some server =>
      match List.find (fun m => String.eqb m.1 server) servers with
      | None => Some (invalidf ("there is no MCP server " +:+ go_quote server +:+ " for " +:+ name))
      | Some m =>
          if chat && String.eqb m.2 KindStdio
          then Some (invalidf ("the tools of " +:+ server +:+ " run in a workspace, and a chat has none")) else None
      end
  | None =>
      match toolNamed shared offered name with
      | None => Some (invalidf ("there is no tool " +:+ go_quote name))
      | Some t =>
          if chat && NeedsWorkspace t
          then Some (invalidf (name +:+ " needs a workspace, and a chat has none")) else None
      end
  end.

Fixpoint check_names (names choice : list string) : list string + failure :=
  match choice with
  | [] => inl names
  | name :: choice' =>
      match check_choice name with
      | Some e => inr e
      | None => check_names (if bool_decide (name ∈ names) then names else names ++ [name]) choice'
      end
  end.

(* @src internal/server/tools.go 100-137 Server.checkToolChoice *)
Definition checkToolChoice (choice : list string) : list string + failure :=
  match check_names [] choice with
  | inl names => inl (merge_sort String.le names)
  | inr e => inr e
  end.
End check.

(** [choice] is [None] for a body whose tools is neither null nor a list. *)
(* @src internal/server/tools.go 65-98 Server.handleSetSessionTools *)
Definition handleSetSessionTools (shared : option Registry) (offered : list OfferedTool) (servers : list (string * string))
    (sid : string) (choice : option (option (list string))) (db : DB) : answer DSession * DB :=
  match choice with
  | None => (inr (invalidf "tools is required: a list of tool names, empty for none, or null for the profile's"), db)
  | Some choice =>
      match getSession sid db with
      | inr e => (inr (Plain e), db)
      | inl sess =>
          match match choice with
                | Some names => match checkToolChoice shared offered servers (Chat sess) names with
                                | inl names => inl (Some names) | inr e => inr e end
                | None => inl None
                end with
          | inr e => (inr e, db)
          | inl names =>
              match SetSessionTools sid names db with
              | (Some e, db) => (inr (Plain e), db)
              | (None, db) =>
                  (inl (200, mkDSession (SID sess) (SWorkspaceID sess) (Title sess) (Untitled sess) (SKind sess) (HeadEntryID sess)
                     (ParentSessionID sess) names (ProfileID sess) (Overrides sess) (Pinned sess) (Archived sess)), db)
              end
          end
      end
  end.
