(* ===== verification/ToolChoiceClaims.v ===== *)
(** The claims about tool choices: what a run offers is what was chosen, and a
    chat never holds a tool that needs a workspace. *)
From stdpp Require Import sorting.
From S2P Require Import Prelude GoStr Failure Tool Entries Pool ToolChoice Api.
From stdpp Require Import options.
Open Scope Z_scope.

(** A tool a run may offer: the session can run it, and the choice takes it. *)
Definition allowed (chat : bool) (choice : option (list string)) (t : OfferedTool) : bool :=
  if chat && NeedsWorkspace (of_tool t) then false else toolChosen choice t.

Lemma fold_keep (r : Registry) (keep : Tool -> bool) n t l (m : gmap string Tool) :
  (forall u, u ∈ l -> tools r !! Name u = Some u) -> (forall n' u, m !! n' = Some u -> tools r !! n' = Some u) ->
  foldl (fun m t => if keep t then <[Name t := t]> m else m) m l !! n = Some t <->
  m !! n = Some t \/ (t ∈ l /\ Name t = n /\ keep t = true).
Proof.
  revert m. induction l as [|u l IH]; intros m Hl Hm; cbn [foldl]; [rewrite elem_of_nil; tauto|].
  assert (Hu : tools r !! Name u = Some u) by (apply Hl, elem_of_cons; by left).
  rewrite IH; [|intros v Hv; apply Hl, elem_of_cons; by right|]; rewrite ?elem_of_cons.
  - destruct (keep u) eqn:Hk; [|split; [naive_solver|intros [|([->|] & ? & ?)]; [by left|congruence|by right]]].
    rewrite lookup_insert_Some. split; [intros [[[<- <-]|[_ Hm']]|(Hin & Hn & Hk')]; [right; auto|by left|right; auto]|].
    intros [Hm'|([->|Hin] & Hn & Hk')]; [|left; by left|by right].
    destruct (decide (Name u = n)) as [<-|Hne]; [|left; by right].
    left. left. split; [done|]. apply Hm in Hm'. congruence.
  - intros n' v. destruct (keep u); [|apply Hm]. rewrite lookup_insert_Some. intros [[<- <-]|[_ Hv]]; [done|by apply Hm].
Qed.

Lemma Filter_Get r keep n t :
  registry_ok r -> Get (Filter r keep) n = Some t <-> Get r n = Some t /\ keep t = true.
Proof.
  intros Hr. unfold Filter, Get. cbn. rewrite (fold_keep r).
  - rewrite lookup_empty. split.
    + intros [|(Hin & <- & Hk)]; [done|]. split; [|done]. by apply elem_of_List in Hin.
    + intros [Ht Hk]. right. destruct (Hr _ _ Ht) as [Hn _]. split; [|done]. apply elem_of_List; [done|]. unfold Get. by rewrite Hn.
  - intros u Hu. by apply elem_of_List in Hu.
  - intros n' u. by rewrite lookup_empty.
Qed.

Lemma Filter_ok r keep : registry_ok r -> registry_ok (Filter r keep).
Proof. intros Hr n t Hn. apply (Filter_Get r keep n t Hr) in Hn as [Hn _]. by apply Hr. Qed.

Section narrowed.
Context (keep : OfferedTool -> bool).

Definition add_mcp (out : Registry) (t : OfferedTool) : Registry :=
  if keep t then match Register out (of_tool t) with inl out' => out' | inr _ => out end else out.

Lemma add_mcp_ok out t : registry_ok out -> registry_ok (add_mcp out t).
Proof. intros H. unfold add_mcp. destruct (keep t); [|done]. destruct (Register out _) eqn:E; [by eapply Register_ok|done]. Qed.

(** What is in stays, and what comes in has a name that was free. *)
Lemma add_mcp_Get out t n u :
  Get (add_mcp out t) n = Some u <->
  Get out n = Some u \/
  (Get out n = None /\ keep t = true /\ of_tool t = u /\ Name u = n /\ n <> EmptyString).
Proof.
  unfold add_mcp, Register, Get. destruct (keep t); [|naive_solver].
  destruct (String.eqb_spec (Name (of_tool t)) EmptyString) as [He|He]; [naive_solver|].
  destruct (tools out !! Name (of_tool t)) eqn:E; cbn; [naive_solver congruence|].
  rewrite lookup_insert_Some. destruct (decide (Name (of_tool t) = n)) as [<-|Hne]; naive_solver congruence.
Qed.

Lemma add_all_Get l out n u :
  Get (foldl add_mcp out l) n = Some u <->
  Get out n = Some u \/
  (Get out n = None /\ exists i t, l !! i = Some t /\ keep t = true /\ of_tool t = u /\ Name u = n /\ n <> EmptyString /\
     forall j t', l !! j = Some t' -> (j < i)%nat -> keep t' = true -> Name (of_tool t') <> n).
Proof.
  revert out. induction l as [|t l IH]; intros out; cbn [foldl].
  - split; [by left|]. intros [|(_ & i & t & H & _)]; [done|]. by rewrite lookup_nil in H.
  - rewrite IH, add_mcp_Get. split.
    + intros [[Hu|(Hn & Hk & Ht & Hname & He)]|(Hn & i & t' & Hi & Hk & Ht & Hname & He & Hfirst)].
      * by left.
      * right. split; [done|]. exists 0%nat, t. split; [done|]. do 4 (split; [done|]). intros j t' _ Hj. lia.
      * assert (Hout : Get out n = None).
        { destruct (Get out n) eqn:E; [|done]. assert (Hc : Get (add_mcp out t) n = Some t0) by (apply add_mcp_Get; by left). congruence. }
        right. split; [done|]. exists (S i), t'. split; [done|]. do 4 (split; [done|]).
        intros [|j] t'' Hj Hlt Hk''; [|eapply (Hfirst j); [exact Hj|lia|done]].
        injection Hj as <-. intros Hname'. assert (Hc : Get (add_mcp out t) n = Some (of_tool t)).
        { apply add_mcp_Get. right. rewrite Hname'. auto. }
        congruence.
    + intros [Hu|(Hn & [|i] & t' & Hi & Hk & Ht & Hname & He & Hfirst)]; [by left; left| |].
      * injection Hi as ->. left. right. auto.
      * right. split.
        -- destruct (Get (add_mcp out t) n) eqn:E; [|done]. apply add_mcp_Get in E as [E|(_ & Hkt & Ht' & Hname' & _)]; [congruence|].
           exfalso. eapply (Hfirst 0%nat t); [done|lia|done|]. congruence.
        -- exists i, t'. split; [done|]. do 4 (split; [done|]). intros j t'' Hj Hlt. apply (Hfirst (S j)); [done|lia].
Qed.
End narrowed.

(** a run offers exactly the tools its session can run and its choice
    takes: each such tool every run shares, and of the MCP tools each such one
    that has a name and whose name no shared tool and no earlier MCP tool it
    offers has. A chat's registry holds no tool that needs a workspace. *)
Theorem run_offers_choice shared chat choice mcpTools n t :
  registry_ok (default (mkRegistry ∅) shared) ->
  let offers := Get (runTools shared chat choice mcpTools) in
  let built_in u := Get (default (mkRegistry ∅) shared) n = Some u /\ allowed chat choice (own u) = true in
  (offers n = Some t <->
     built_in t \/
     ((forall u, ~ built_in u) /\ exists i s, mcpTools !! i = Some s /\ allowed chat choice s = true /\ of_tool s = t /\
        Name t = n /\ n <> EmptyString /\
        forall j s', mcpTools !! j = Some s' -> (j < i)%nat -> allowed chat choice s' = true -> Name (of_tool s') <> n)) /\
  (chat = true -> offers n = Some t -> NeedsWorkspace t = false).
Proof.
  intros Hok offers built_in.
  assert (Hchat : forall s, chat = true -> allowed chat choice s = true -> NeedsWorkspace (of_tool s) = false).
  { intros s ->. unfold allowed. cbn. by destruct (NeedsWorkspace (of_tool s)). }
  set (out := match shared with Some r => Filter r (fun t => allowed chat choice (own t)) | None => mkRegistry ∅ end).
  assert (Hout : forall u, Get out n = Some u <-> built_in u).
  { intros u. unfold out, built_in. destruct shared as [r|]; [by apply Filter_Get|]. cbn. unfold Get. cbn.
    rewrite lookup_empty. naive_solver. }
  assert (Hspec : offers n = Some t <-> built_in t \/
     ((forall u, ~ built_in u) /\ exists i s, mcpTools !! i = Some s /\ allowed chat choice s = true /\ of_tool s = t /\
        Name t = n /\ n <> EmptyString /\
        forall j s', mcpTools !! j = Some s' -> (j < i)%nat -> allowed chat choice s' = true -> Name (of_tool s') <> n)).
  { unfold offers, runTools, narrowed. fold (allowed chat choice). change (foldl _ _ mcpTools) with (foldl (add_mcp (allowed chat choice)) out mcpTools).
    rewrite add_all_Get, Hout. f_equiv. f_equiv. split.
    - intros Hn u Hu%Hout. congruence.
    - intros Hn. destruct (Get out n) eqn:E; [|done]. exfalso. by apply (Hn t0), Hout. }
  split; [done|]. intros Hc [[_ Ha]|(_ & i & s & _ & Ha & <- & _)]%Hspec; [by apply (Hchat (own t))|by apply Hchat].
Qed.

(** ** The names of MCP tools *)

Section names.
Context (sha256 : string -> list Z).
Context (sha256_bytes : forall s, Forall (fun b => 0 <= b < 256) (sha256 s)).
#[local] Set Default Proof Using "Type".

Definition function_name (s : string) : Prop := Forall (fun b => function_rune b = true) (bytes_of s).

Lemma function_rune_range b : function_rune b = true -> 0 <= b < 256.
Proof. unfold function_rune, is_alnum. intros H. lia. Qed.

Lemma function_name_app s t : function_name s -> function_name t -> function_name (s +:+ t).
Proof. unfold function_name. rewrite bytes_of_app. apply Forall_app_2. Qed.

Lemma function_name_take k s : function_name s -> function_name (str_take k s).
Proof.
  unfold function_name. revert s. induction k as [|k IH]; intros [|a s] H; cbn in *; try constructor; inversion H; subst; [done|by apply IH].
Qed.

Lemma function_name_of_bytes l : Forall (fun b => function_rune b = true) l -> function_name (of_bytes l).
Proof.
  intros H. unfold function_name. rewrite bytes_of_bytes; [done|]. eapply Forall_impl; [exact H|apply function_rune_range].
Qed.

Lemma functionName_ok s : function_name (functionName s).
Proof.
  unfold functionName. set (b := map _ _). assert (H : Forall (fun b => function_rune b = true) b).
  { apply Forall_map, Forall_true. intros r. by destruct (function_rune r) eqn:E. }
  destruct b; [by repeat constructor|by apply function_name_of_bytes].
Qed.

Lemma hex_lower_rune k : 0 <= k < 16 -> function_rune (hex_lower k) = true.
Proof. intros H. unfold hex_lower. case_match; unfold function_rune, is_alnum; lia. Qed.

Lemma hex_string_ok l : Forall (fun b => 0 <= b < 256) l -> function_name (hex_string l) /\ str_len (hex_string l) = 2 * Z.of_nat (length l).
Proof.
  intros H. set (h := concat (map (fun b => [hex_lower (b / 16); hex_lower (b mod 16)]) l)).
  assert (Hh : Forall (fun b => function_rune b = true) h /\ length h = (2 * length l)%nat).
  { unfold h. induction H as [|b l Hb _ [IH1 IH2]]; [done|]. cbn. split; [|lia].
    repeat constructor; [apply hex_lower_rune..|done].
    - split; [apply Z.div_pos; lia|apply Z.div_lt_upper_bound; lia].
    - apply Z.mod_pos_bound. lia. }
  destruct Hh as [Hf Hl]. split; [by apply function_name_of_bytes|].
  unfold str_len, hex_string. fold h. rewrite <- length_bytes_of, bytes_of_bytes; [lia|].
  eapply Forall_impl; [exact Hf|apply function_rune_range].
Qed.

Lemma str_take_len k s : str_len (str_take k s) <= Z.of_nat k.
Proof.
  revert s. induction k as [|k IH]; intros [|a s]; unfold str_len in *; cbn; try lia. specialize (IH s). lia.
Qed.

Lemma str_take_prefix p k s : (String.length p <= k)%nat -> has_prefix s p = true -> has_prefix (str_take k s) p = true.
Proof.
  unfold has_prefix. revert k s. induction p as [|a p IH]; intros k s Hk Hp; [by destruct k, s|].
  destruct s as [|a' s]; [done|]. destruct k as [|k]; [cbn in Hk; lia|]. cbn in *. destruct (Ascii.ascii_dec a a'); [|done].
  apply IH; [lia|done].
Qed.

Lemma has_prefix_app s t p : has_prefix s p = true -> has_prefix (s +:+ t) p = true.
Proof.
  unfold has_prefix. revert s. induction p as [|a p IH]; intros s Hp; [by destruct (s +:+ t)|].
  destruct s as [|a' s]; [done|]. rewrite str_app_cons. cbn in *. destruct (Ascii.ascii_dec a a'); [by apply IH|done].
Qed.

(** every name an MCP server's tool gets is one an endpoint takes for a
    function: at most 64 characters, none but letters, digits, hyphens and
    underscores, and with the prefix that marks it as an MCP tool, whatever
    the server calls itself and its tools. *)
Theorem ToolNames_valid server tools :
  length (ToolNames sha256 server tools) = length tools /\
  Forall (fun name => str_len name <= maxToolName /\ function_name name /\ has_prefix name ToolPrefix = true)
    (ToolNames sha256 server tools).
Proof using sha256_bytes.
  unfold ToolNames. generalize (∅ : gset string). induction tools as [|t tools IH]; intros taken; [by split|].
  cbn [name_tools length]. set (base := ToolPrefix +:+ functionName server +:+ "__" +:+ functionName (mt_Name t)).
  assert (Hbase : function_name base).
  { repeat apply function_name_app; try apply functionName_ok; by repeat constructor. }
  assert (Hpre : has_prefix base ToolPrefix = true) by apply prefix_app.
  set (name := if _ || _ then _ else base). destruct (IH (taken ∪ {[name]})) as [IHl IHf]. split; [by rewrite IHl|].
  constructor; [|exact IHf]. unfold name. destruct ((maxToolName <? str_len base) || _) eqn:E.
  - destruct (hex_string_ok (firstn 3 (sha256 (mt_Name t)))) as [Hh Hl]; [apply Forall_take, sha256_bytes|]. split; [|split].
    + unfold str_len in *. rewrite !str_length_app. cbn [String.length].
      pose proof (str_take_len (Z.to_nat (Z.min (Z.of_nat (String.length base)) (maxToolName - 7))) base) as Ht.
      pose proof (firstn_le_length 3 (sha256 (mt_Name t))). unfold str_len, maxToolName in *. lia.
    + apply function_name_app; [by apply function_name_take|]. apply function_name_app; [by repeat constructor|done].
    + apply has_prefix_app, str_take_prefix; [|done]. unfold base, str_len, maxToolName. rewrite str_length_app. cbn. lia.
  - apply orb_false_iff in E as [E _]. apply Z.ltb_ge in E. done.
Qed.
End names.

Lemma run_offers_choice_witness :
  let read := mkTool "read" EmptyString EmptyString false in
  let search := mkTool "mcp_web_search" EmptyString EmptyString true in
  let shared := Some (mkRegistry {["read"%string := read]}) in
  Get (runTools shared true None [mkOffered search "web" "s1"]) "mcp_web_search" = Some search /\ NeedsWorkspace search = false.
Proof.
  cbv zeta. set (shared := Some _). set (ts := [_]). set (search := mkTool "mcp_web_search" _ _ true) in *.
  assert (Hg : Get (runTools shared true None ts) "mcp_web_search" = Some search) by reflexivity.
  split; [exact Hg|].
  refine (proj2 (run_offers_choice shared true None ts "mcp_web_search" search _) eq_refl Hg).
  intros n t Hn. unfold shared in Hn. cbn in Hn. apply lookup_singleton_Some in Hn as [<- <-]. by split.
Defined.

Lemma ToolNames_valid_witness :
  let names := ToolNames (fun _ => [1; 171; 255]) "my server"
    [mkServerToolDef "a.b" EmptyString EmptyString EmptyString; mkServerToolDef "a b" EmptyString EmptyString EmptyString] in
  names = ["mcp__my_server__a_b"; "mcp__my_server__a_b_01abff"]%string /\ length names = 2%nat.
Proof.
  cbv zeta. split; [reflexivity|].
  refine (proj1 (ToolNames_valid (fun _ => [1; 171; 255]) _ "my server" [_; _])).
  intros _. repeat constructor; lia.
Defined.
