(* ===== verification/Config.v ===== *)
(** What the user configures: the tables of providers, models, profiles and
    settings (internal/store providers.go, models.go, profiles.go,
    settings.go), beside the sessions of [Entries], with what the schema's
    keys do when a row goes. Each operation is one transaction. *)
From Stdlib Require Import Floats.SpecFloat.
From stdpp Require Import sorting.
From S2P Require Import Prelude GoStr Float64 Provider Sampling Failure Entries Tables.
From stdpp Require Import options.
Open Scope Z_scope.

(** ** Documents *)

Fixpoint doc_get (k : string) (l : list (string * json)) : option json :=
  match l with
  | [] => None
  | (k', j) :: l' => if String.eqb k k' then Some j else doc_get k l'
  end.

(** A member that is left out when it is not set. *)
Definition opt_doc {T} (k : string) (f : T -> json) (o : option T) : list (string * json) :=
  match o with Some v => [(k, f v)] | None => [] end.

(** A pointer field of a decoded struct: absent and null leave it nil, and
    [None] is a value of another type. *)
Definition field {T} (dec : json -> option T) (k : string) (l : list (string * json)) : option (option T) :=
  match doc_get k l with
  | None | Some JNull => Some None
  | Some j => match dec j with Some v => Some (Some v) | None => None end
  end.

Definition int64 (n : Z) : bool := (- 2 ^ 63 <=? n) && (n <? 2 ^ 63).
Definition dec_string (j : json) : option string := match j with JString s => Some s | _ => None end.
Definition dec_bool (j : json) : option bool := match j with JBool b => Some b | _ => None end.
Definition dec_int (j : json) : option Z :=
  match j with JInt n => if int64 n then Some n else None | _ => None end.
(** No document spells an infinity or a NaN. *)
Definition finite (f : float64) : bool :=
  match f with S754_zero _ | S754_finite _ _ _ => true | S754_infinity _ | S754_nan => false end.
Definition finite_or_nil (o : option float64) : bool := match o with Some f => finite f | None => true end.
Definition dec_float (j : json) : option float64 :=
  match j with
  | JFloat f => if finite f then Some f else None
  | JInt n => if finite (f64_of_Z n) then Some (f64_of_Z n) else None
  | _ => None
  end.
(** A null of a list is the empty string. *)
Definition dec_element (j : json) : option string := match j with JNull => Some EmptyString | _ => dec_string j end.
Definition dec_strings (j : json) : option (list string) :=
  match j with JArray l => mapM dec_element l | _ => None end.

(** [json.Marshal] of the sampling parameters: a float that is no number has
    no encoding. *)
Definition sampling_members (s : Sampling) : list (string * json) :=
  opt_doc "temperature" JFloat (Temperature s) ++
  opt_doc "top_p" JFloat (TopP s) ++
  opt_doc "top_k" JInt (TopK s) ++
  opt_doc "min_p" JFloat (MinP s) ++
  opt_doc "frequency_penalty" JFloat (FrequencyPenalty s) ++
  opt_doc "presence_penalty" JFloat (PresencePenalty s) ++
  opt_doc "seed" JInt (Seed s) ++
  opt_doc "stop" (fun l => JArray (map JString l)) (Stop s) ++
  opt_doc "max_output" JInt (MaxOutput s) ++
  opt_doc "reasoning_effort" JString (ReasoningEffort s).

Definition marshal_sampling (s : Sampling) : option json :=
  if finite_or_nil (Temperature s) && finite_or_nil (TopP s) && finite_or_nil (MinP s) &&
     finite_or_nil (FrequencyPenalty s) && finite_or_nil (PresencePenalty s)
  then Some (JObject (sampling_members s)) else None.

Definition unmarshal_sampling (j : json) : option Sampling :=
  match j with
  | JNull => Some zeroSampling
  | JObject l =>
      t ← field dec_float "temperature" l;
      tp ← field dec_float "top_p" l;
      tk ← field dec_int "top_k" l;
      mp ← field dec_float "min_p" l;
      fp ← field dec_float "frequency_penalty" l;
      pp ← field dec_float "presence_penalty" l;
      sd ← field dec_int "seed" l;
      st ← field dec_strings "stop" l;
      mo ← field dec_int "max_output" l;
      re ← field dec_string "reasoning_effort" l;
      Some (mkSampling t tp tk mp fp pp sd st mo re)
  | _ => None
  end.

(** ** Rows *)

(** [ps_Sampling] is [None] for an empty [json.RawMessage]. *)
(* @src internal/store/profiles.go 15-41 ProfileSettings *)
Record ProfileSettings := mkSettings {
  ps_ModelID : string;
  ps_WorkspacePrompt : option string;
  ps_ChatPrompt : option string;
  ps_Instructions : option string;
  ps_ContextFiles : option bool;
  ps_PreserveThinking : option bool;
  ps_Sampling : option json;
}.

Definition noSettings : ProfileSettings := mkSettings EmptyString None None None None None None.

Definition is_unset {T} (o : option T) : bool := match o with Some _ => false | None => true end.

(* @src internal/store/profiles.go 43-47 ProfileSettings.Empty *)
Definition Empty (p : ProfileSettings) : bool :=
  String.eqb (ps_ModelID p) EmptyString && is_unset (ps_WorkspacePrompt p) && is_unset (ps_ChatPrompt p) &&
  is_unset (ps_Instructions p) && is_unset (ps_ContextFiles p) && is_unset (ps_PreserveThinking p) &&
  match ps_Sampling p with None | Some (JObject []) => true | _ => false end.

(* @src internal/store/profiles.go 49-63 Profile *)
Record ProfileRow := mkProfile {
  pf_ID : string;
  pf_Name : string;
  pf_Description : string;
  pf_Settings : ProfileSettings;
  pf_Tools : option (list string);
  pf_CreatedAt : Z;
}.

(* @src internal/store/models.go 10-40 Model *)
Record ModelRow := mkModel {
  m_ID : string;
  m_ProviderID : string;
  m_Name : string;
  m_Model : string;
  m_ContextWindow : Z;
  m_MaxOutput : Z;
  m_ReasoningEffort : string;
  m_ReasoningEfforts : list string;
  m_ThinkingSwitch : string;
  m_PreserveThinking : bool;
  m_ImageInput : bool;
  m_CreatedAt : Z;
}.

Definition zeroModel : ModelRow :=
  mkModel EmptyString EmptyString EmptyString EmptyString 0 0 EmptyString [] EmptyString false false 0.
Definition zeroProfile : ProfileRow := mkProfile EmptyString EmptyString EmptyString noSettings None 0.

(** [pr_APIKey] is the sealed key, empty for none. *)
(* @src internal/store/providers.go 10-23 Provider *)
Record ProviderRow := mkProvider {
  pr_ID : string;
  pr_Name : string;
  pr_Kind : string;
  pr_BaseURL : string;
  pr_APIKey : string;
  pr_CreatedAt : Z;
}.

Record CDB := mkCDB {
  c_providers : gmap string ProviderRow;
  c_models : gmap string ModelRow;
  c_profiles : gmap string ProfileRow;
  c_settings : gmap string json;
  c_db : DB;
}.

Definition with_providers x t := mkCDB x (c_models t) (c_profiles t) (c_settings t) (c_db t).
Definition with_models x t := mkCDB (c_providers t) x (c_profiles t) (c_settings t) (c_db t).
Definition with_profiles x t := mkCDB (c_providers t) (c_models t) x (c_settings t) (c_db t).
Definition with_settings x t := mkCDB (c_providers t) (c_models t) (c_profiles t) x (c_db t).
Definition with_db x t := mkCDB (c_providers t) (c_models t) (c_profiles t) (c_settings t) x.

(** A [UNIQUE] column: whether another row has the value. *)
Definition taken {A} (col : A -> string) (id v : string) (m : gmap string A) : bool :=
  existsb (fun p => negb (String.eqb p.1 id) && String.eqb (col p.2) v) (map_to_list m).

(** A nullable key to another table. *)
Definition key_ok {A} (id : string) (m : gmap string A) : bool :=
  String.eqb id EmptyString || bool_decide (is_Some (m !! id)).

Definition set_sessions (f : DSession -> DSession) (db : DB) : DB := mkDB (f <$> sessions db) (entries db).

(** ** Providers *)

(* @src internal/store/providers.go 29-43 Store.CreateProvider *)
Definition CreateProvider (id : string) (now : Z) (p : ProviderRow) (t : CDB) : (ProviderRow + GoError) * CDB :=
  let p := mkProvider (if String.eqb (pr_ID p) EmptyString then id else pr_ID p) (pr_Name p) (pr_Kind p) (pr_BaseURL p)
    (pr_APIKey p) now in
  if bool_decide (is_Some (c_providers t !! pr_ID p)) || taken pr_Name (pr_ID p) (pr_Name p) (c_providers t)
  then (inr (wrap ("create provider " +:+ pr_Name p) UniqueViolation), t)
  else (inl p, with_providers (<[pr_ID p := p]> (c_providers t)) t).

(* @src internal/store/providers.go 45-52 Store.Provider *)
Definition getProvider (id : string) (t : CDB) : ProviderRow + GoError :=
  match c_providers t !! id with
  | Some p => inl p
  | None => inr (wrap ("read provider " +:+ id) NoRows)
  end.

(* @src internal/store/providers.go 54-73 Store.Providers *)
Definition Providers (t : CDB) : list ProviderRow :=
  merge_sort (oldest_first pr_CreatedAt pr_ID) (map snd (map_to_list (c_providers t))).

(** The kind is not written. *)
(* @src internal/store/providers.go 75-87 Store.UpdateProvider *)
Definition UpdateProvider (p : ProviderRow) (t : CDB) : (ProviderRow + GoError) * CDB :=
  match c_providers t !! pr_ID p with
  | None => (inr (wrap ("update provider " +:+ pr_ID p) NoRows), t)
  | Some old =>
      if taken pr_Name (pr_ID p) (pr_Name p) (c_providers t)
      then (inr (wrap ("update provider " +:+ pr_ID p) UniqueViolation), t)
      else
        let out := mkProvider (pr_ID p) (pr_Name p) (pr_Kind old) (pr_BaseURL p) (pr_APIKey p) (pr_CreatedAt old) in
        (inl out, with_providers (<[pr_ID p := out]> (c_providers t)) t)
  end.

(** A profile that names a model that is gone names none. *)
Definition unset_gone (models : gmap string ModelRow) (p : ProfileRow) : ProfileRow :=
  let s := pf_Settings p in
  if key_ok (ps_ModelID s) models then p
  else mkProfile (pf_ID p) (pf_Name p) (pf_Description p)
         (mkSettings EmptyString (ps_WorkspacePrompt s) (ps_ChatPrompt s) (ps_Instructions s) (ps_ContextFiles s)
            (ps_PreserveThinking s) (ps_Sampling s)) (pf_Tools p) (pf_CreatedAt p).

(** The models table with fewer rows, and what the profiles' key does. *)
Definition drop_models (models : gmap string ModelRow) (t : CDB) : CDB :=
  mkCDB (c_providers t) models (unset_gone models <$> c_profiles t) (c_settings t) (c_db t).

(** The models go with their provider. *)
(* @src internal/store/providers.go 89-99 Store.DeleteProvider *)
Definition DeleteProvider (id : string) (t : CDB) : option GoError * CDB :=
  match c_providers t !! id with
  | None => (Some (wrap ("delete provider " +:+ id) NoRows), t)
  | Some _ =>
      (None, with_providers (delete id (c_providers t))
               (drop_models (base.filter (fun p => m_ProviderID p.2 <> id) (c_models t)) t))
  end.

(** ** Models *)

(* @src internal/store/models.go 157-164 thinkingSwitch *)
Definition thinkingSwitch (s : string) : string := if String.eqb s EmptyString then "reasoning_effort" else s.

(** Both columns have a check that they are positive. *)
Definition model_check (m : ModelRow) : bool := (0 <? m_ContextWindow m) && (0 <? m_MaxOutput m).

(* @src internal/store/models.go 47-65 Store.CreateModel *)
Definition CreateModel (id : string) (now : Z) (m : ModelRow) (t : CDB) : (ModelRow + GoError) * CDB :=
  let m := mkModel (if String.eqb (m_ID m) EmptyString then id else m_ID m) (m_ProviderID m) (m_Name m) (m_Model m)
    (m_ContextWindow m) (m_MaxOutput m) (m_ReasoningEffort m) (m_ReasoningEfforts m) (thinkingSwitch (m_ThinkingSwitch m))
    (m_PreserveThinking m) (m_ImageInput m) now in
  let failed e := (inr (wrap ("create model " +:+ m_Name m) e), t) in
  match c_providers t !! m_ProviderID m with
  | None => failed NoRows
  | Some _ =>
      if negb (model_check m) then failed CheckViolation
      else if bool_decide (is_Some (c_models t !! m_ID m)) || taken m_Name (m_ID m) (m_Name m) (c_models t)
      then failed UniqueViolation
      else (inl m, with_models (<[m_ID m := m]> (c_models t)) t)
  end.

(* @src internal/store/models.go 67-74 Store.Model *)
Definition getModel (id : string) (t : CDB) : ModelRow + GoError :=
  match c_models t !! id with
  | Some m => inl m
  | None => inr (wrap ("read model " +:+ id) NoRows)
  end.

(** The name is unique, so the first row that has it is the one. *)
(* @src internal/store/models.go 76-83 Store.ModelByName *)
Definition ModelByName (name : string) (t : CDB) : ModelRow + GoError :=
  match List.find (fun m => String.eqb (m_Name m) name) (map snd (map_to_list (c_models t))) with
  | Some m => inl m
  | None => inr (wrap ("read model " +:+ name) NoRows)
  end.

(* @src internal/store/models.go 85-105 Store.Models *)
Definition Models (t : CDB) : list ModelRow :=
  merge_sort (oldest_first m_CreatedAt m_ID) (map snd (map_to_list (c_models t))).

(* @src internal/store/models.go 107-123 Store.UpdateModel *)
Definition UpdateModel (m : ModelRow) (t : CDB) : (ModelRow + GoError) * CDB :=
  let failed e := (inr (wrap ("update model " +:+ m_ID m) e), t) in
  match c_models t !! m_ID m with
  | None => failed NoRows
  | Some old =>
      let out := mkModel (m_ID m) (m_ProviderID old) (m_Name m) (m_Model m) (m_ContextWindow m) (m_MaxOutput m)
        (m_ReasoningEffort m) (m_ReasoningEfforts m) (thinkingSwitch (m_ThinkingSwitch m)) (m_PreserveThinking m)
        (m_ImageInput m) (m_CreatedAt old) in
      if negb (model_check out) then failed CheckViolation
      else if taken m_Name (m_ID m) (m_Name m) (c_models t) then failed UniqueViolation
      else (inl out, with_models (<[m_ID m := out]> (c_models t)) t)
  end.

(** [overrides - 'model_id'], the empty document as NULL. *)
Definition unset_override (id : string) (s : DSession) : DSession :=
  match Overrides s with
  | JObject l =>
      if match doc_get "model_id" l with Some (JString v) => String.eqb v id | _ => false end
      then
        let rest := base.filter (fun p => p.1 <> "model_id") l in
        mkDSession (SID s) (SWorkspaceID s) (Title s) (Untitled s) (SKind s) (HeadEntryID s) (ParentSessionID s) (STools s)
          (ProfileID s) (match rest with [] => JNull | _ => JObject rest end) (Pinned s) (Archived s)
      else s
  | _ => s
  end.

(* @src internal/store/models.go 125-146 Store.DeleteModel *)
Definition DeleteModel (id : string) (t : CDB) : option GoError * CDB :=
  match c_models t !! id with
  | None => (Some (wrap ("delete model " +:+ id) NoRows), t)
  | Some _ =>
      let t := drop_models (delete id (c_models t)) t in
      (None, with_db (set_sessions (unset_override id) (c_db t)) t)
  end.

(** ** Profiles *)

(** An empty document reads back as none. *)
(* @src internal/store/profiles.go 272-274 scanProfile *)
Definition scan_sampling (j : json) : option json := match j with JObject [] => None | _ => Some j end.
(* @src internal/store/profiles.go 240-247 jsonObject *)
Definition jsonObject (o : option json) : json := match o with Some j => j | None => JObject [] end.

(** A row as it is read back. *)
Definition stored_settings (s : ProfileSettings) : ProfileSettings :=
  mkSettings (ps_ModelID s) (ps_WorkspacePrompt s) (ps_ChatPrompt s) (ps_Instructions s) (ps_ContextFiles s)
    (ps_PreserveThinking s) (scan_sampling (jsonObject (ps_Sampling s))).

(* @src internal/store/profiles.go 249-257 wrapMissing *)
Definition wrapMissing (op : string) (detail : string) (e : dbError) : GoError :=
  match e with ForeignKeyViolation => ErrWrap op (ErrWrap detail ErrNotFound) | _ => wrap op e end.

(* @src internal/store/profiles.go 70-88 Store.CreateProfile *)
Definition CreateProfile (id : string) (now : Z) (p : ProfileRow) (t : CDB) : (ProfileRow + GoError) * CDB :=
  let p := mkProfile (if String.eqb (pf_ID p) EmptyString then id else pf_ID p) (pf_Name p) (pf_Description p)
    (stored_settings (pf_Settings p)) (pf_Tools p) now in
  let failed e := (inr (wrapMissing ("create profile " +:+ pf_Name p) (ps_ModelID (pf_Settings p)) e), t) in
  if bool_decide (is_Some (c_profiles t !! pf_ID p)) || taken pf_Name (pf_ID p) (pf_Name p) (c_profiles t)
  then failed UniqueViolation
  else if negb (key_ok (ps_ModelID (pf_Settings p)) (c_models t)) then failed ForeignKeyViolation
  else (inl p, with_profiles (<[pf_ID p := p]> (c_profiles t)) t).

(* @src internal/store/profiles.go 90-97 Store.Profile *)
Definition getProfile (id : string) (t : CDB) : ProfileRow + GoError :=
  match c_profiles t !! id with
  | Some p => inl p
  | None => inr (wrap ("read profile " +:+ id) NoRows)
  end.

(* @src internal/store/profiles.go 99-119 Store.Profiles *)
Definition Profiles (t : CDB) : list ProfileRow :=
  merge_sort (oldest_first pf_CreatedAt pf_ID) (map snd (map_to_list (c_profiles t))).

(* @src internal/store/profiles.go 121-137 Store.UpdateProfile *)
Definition UpdateProfile (p : ProfileRow) (t : CDB) : (ProfileRow + GoError) * CDB :=
  let failed e := (inr (wrapMissing ("update profile " +:+ pf_ID p) (ps_ModelID (pf_Settings p)) e), t) in
  match c_profiles t !! pf_ID p with
  | None => failed NoRows
  | Some old =>
      let out := mkProfile (pf_ID p) (pf_Name p) (pf_Description p) (stored_settings (pf_Settings p)) (pf_Tools p)
        (pf_CreatedAt old) in
      if taken pf_Name (pf_ID p) (pf_Name p) (c_profiles t) then failed UniqueViolation
      else if negb (key_ok (ps_ModelID (pf_Settings p)) (c_models t)) then failed ForeignKeyViolation
      else (inl out, with_profiles (<[pf_ID p := out]> (c_profiles t)) t)
  end.

(** The key of [sessions] to [profiles]: a profile that goes is chosen by no session. *)
Definition unset_profile (id : string) (s : DSession) : DSession :=
  if String.eqb (ProfileID s) id
  then mkDSession (SID s) (SWorkspaceID s) (Title s) (Untitled s) (SKind s) (HeadEntryID s) (ParentSessionID s) (STools s)
         EmptyString (Overrides s) (Pinned s) (Archived s)
  else s.

(* @src internal/store/profiles.go 139-162 Store.DeleteProfile *)
Definition DeleteProfile (id : string) (t : CDB) : option GoError * CDB :=
  let op := "delete profile " +:+ id in
  let ids := map fst (map_to_list (c_profiles t)) in
  if negb (bool_decide (id ∈ ids)) then (Some (wrap op NoRows), t)
  else if (length ids =? 1)%nat then (Some (ErrWrap op (ErrWrap "it is the last profile" ErrConflict)), t)
  else (None, with_db (set_sessions (unset_profile id) (c_db t)) (with_profiles (delete id (c_profiles t)) t)).

Definition change_session (f : DSession -> DSession) (sid : string) (t : CDB) : option CDB :=
  match sessions (c_db t) !! sid with
  | Some s => Some (with_db (mkDB (<[sid := f s]> (sessions (c_db t))) (entries (c_db t))) t)
  | None => None
  end.

(* @src internal/store/profiles.go 182-195 Store.SetSessionProfile *)
Definition SetSessionProfile (sid profileID : string) (t : CDB) : option GoError * CDB :=
  let set s := mkDSession (SID s) (SWorkspaceID s) (Title s) (Untitled s) (SKind s) (HeadEntryID s) (ParentSessionID s)
    (STools s) profileID (Overrides s) (Pinned s) (Archived s) in
  match change_session set sid t with
  | None => (Some (wrap ("set session profile " +:+ sid) NoRows), t)
  | Some t' =>
      if key_ok profileID (c_profiles t) then (None, t')
      else (Some (wrapMissing ("set session profile " +:+ sid) profileID ForeignKeyViolation), t)
  end.

(** [json.Marshal] of the settings: what is not set is left out. *)
Definition settings_members (o : ProfileSettings) : list (string * json) :=
  opt_doc "model_id" JString (if String.eqb (ps_ModelID o) EmptyString then None else Some (ps_ModelID o)) ++
  opt_doc "workspace_prompt" JString (ps_WorkspacePrompt o) ++
  opt_doc "chat_prompt" JString (ps_ChatPrompt o) ++
  opt_doc "instructions" JString (ps_Instructions o) ++
  opt_doc "context_files" JBool (ps_ContextFiles o) ++
  opt_doc "preserve_thinking" JBool (ps_PreserveThinking o) ++
  opt_doc "sampling" id (ps_Sampling o).

(** NULL is [JNull]. *)
(* @src internal/store/profiles.go 215-226 overridesJSON *)
Definition overridesJSON (o : ProfileSettings) : json := if Empty o then JNull else JObject (settings_members o).

(** A null of the document leaves a [json.RawMessage] holding [null]. *)
(* @src internal/store/profiles.go 228-238 readOverrides *)
Definition readOverrides (raw : json) : ProfileSettings + GoError :=
  match raw with
  | JNull => inl noSettings
  | JObject l =>
      match
        m ← field dec_string "model_id" l;
        wp ← field dec_string "workspace_prompt" l;
        cp ← field dec_string "chat_prompt" l;
        ins ← field dec_string "instructions" l;
        cf ← field dec_bool "context_files" l;
        pt ← field dec_bool "preserve_thinking" l;
        Some (mkSettings (default EmptyString m) wp cp ins cf pt (doc_get "sampling" l))
      with
      | Some o => inl o
      | None => inr (ErrText "decode overrides")
      end
  | _ => inr (ErrText "decode overrides")
  end.

(* @src internal/store/profiles.go 197-213 Store.SetSessionOverrides *)
Definition SetSessionOverrides (sid : string) (o : ProfileSettings) (t : CDB) : option GoError * CDB :=
  let set s := mkDSession (SID s) (SWorkspaceID s) (Title s) (Untitled s) (SKind s) (HeadEntryID s) (ParentSessionID s)
    (STools s) (ProfileID s) (overridesJSON o) (Pinned s) (Archived s) in
  match change_session set sid t with
  | None => (Some (wrap ("set session overrides " +:+ sid) NoRows), t)
  | Some t' => (None, t')
  end.

(** ** Settings *)

(* @src internal/store/settings.go 16-28 Store.Setting *)
Definition Setting (key : string) (t : CDB) : json + GoError :=
  match c_settings t !! key with
  | Some v => inl v
  | None => inr (wrap ("read setting " +:+ key) NoRows)
  end.

(** A value that is no document is refused, and then nothing is written. *)
(* @src internal/store/settings.go 42-53 Store.SetSettings *)
Definition SetSettings (values : list (string * option json)) (t : CDB) : option GoError * CDB :=
  match
    foldl (fun acc kv =>
      match acc, kv with
      | inl m, (k, Some v) => inl (<[k := v]> m)
      | inl _, (k, None) => inr (wrap ("write setting " +:+ k) InvalidText)
      | inr e, _ => inr e
      end) (inl (c_settings t)) values
  with
  | inl m => (None, with_settings m t)
  | inr e => (Some e, t)
  end.

(* @src internal/store/settings.go 55-78 Store.Settings *)
Definition Settings (t : CDB) : list (string * json) :=
  merge_sort (fun x y => String.le x.1 y.1) (map_to_list (c_settings t)).
