(* ===== verification/Configuration.v ===== *)
(** What a run's configuration resolves to (internal/server configuration.go):
    the layers of a session, top first, the model row below them and the
    defaults below that, each value with the layer it came from. *)
From stdpp Require Import sorting.
From S2P Require Import Prelude GoStr Provider Sampling Failure Context Entries Tables Config.
From stdpp Require Import options.
Open Scope Z_scope.

(* @src internal/server/configuration.go 18-35 layerRequest *)
Definition layerRequest : string := "request".
Definition layerSession : string := "session".
Definition layerProfile : string := "profile".
Definition layerModel : string := "model".
Definition layerDefault : string := "default".

(* @src internal/server/configuration.go 37-46 sourceProfile *)
Definition sourceProfile : string := "profile".
Definition samplingSource : string := "sampling.".

(* @src internal/server/configuration.go 80-86 configLayer *)
Record configLayer := mkLayer { cl_name : string; cl_settings : ProfileSettings; cl_tools : option (list string) }.

(* @src internal/server/configuration.go 88-107 runConfig *)
Record runConfig := mkRunConfig {
  rc_profile : ProfileRow;
  rc_profileSource : string;
  rc_model : ModelRow;
  rc_modelOK : bool;
  rc_workspacePrompt : option string;
  rc_chatPrompt : option string;
  rc_instructions : string;
  rc_contextFiles : bool;
  rc_preserveThinking : bool;
  rc_tools : option (list string);
  rc_sampling : Sampling;
  rc_droppedEffort : string;
  rc_sources : gmap string string;
}.

(* @src internal/server/configuration.go 109-117 configBase *)
Record configBase := mkBase {
  b_models : list ModelRow;
  b_defaultModel : ModelRow;
  b_profiles : list ProfileRow;
  b_defaultProfile : ProfileRow;
}.

(** ** What is read *)

(** [json.Unmarshal] of a setting into a string: [None] is a value the caller
    does not use. *)
(* @src internal/server/settings.go 289-308 readSetting *)
Definition readSetting {T} (dec : json -> option T) (key : string) (t : CDB) : option T :=
  match Setting key t with
  | inr _ => None
  | inl JNull => None
  | inl v => dec v
  end.

Definition settingDefaultModel : string := "default_model".
Definition settingDefaultProfile : string := "default_profile".

(* @src internal/server/settings.go 310-316 Server.defaultModelSetting *)
Definition defaultModelSetting (t : CDB) : string := default EmptyString (readSetting dec_string settingDefaultModel t).

(* @src internal/server/models.go 233-248 Server.defaultModel *)
Definition defaultModel (models : list ModelRow) (t : CDB) : ModelRow * bool :=
  match models with
  | [] => (zeroModel, false)
  | first :: _ =>
      let name := defaultModelSetting t in
      if String.eqb name EmptyString then (first, true) else
      match List.find (fun m => String.eqb (m_Name m) name) models with
      | Some m => (m, true)
      | None => (first, true)
      end
  end.

(* @src internal/server/configuration.go 135-152 Server.defaultProfile *)
Definition defaultProfile (profiles : list ProfileRow) (t : CDB) : ProfileRow :=
  match profiles with
  | [] => zeroProfile
  | first :: _ =>
      match readSetting dec_string settingDefaultProfile t with
      | Some id =>
          if String.eqb id EmptyString then first else
          default first (List.find (fun p => String.eqb (pf_ID p) id) profiles)
      | None => first
      end
  end.

(* @src internal/server/configuration.go 119-133 Server.loadConfigBase *)
Definition loadConfigBase (t : CDB) : configBase :=
  let models := Models t in
  let profiles := Profiles t in
  mkBase models (fst (defaultModel models t)) profiles (defaultProfile profiles t).

(* @src internal/server/configuration.go 154-165 configBase.profileOf *)
Definition profileOf (b : configBase) (profileID : string) : ProfileRow * string :=
  if String.eqb profileID EmptyString then (b_defaultProfile b, layerDefault) else
  match List.find (fun p => String.eqb (pf_ID p) profileID) (b_profiles b) with
  | Some p => (p, layerSession)
  | None => (b_defaultProfile b, layerDefault)
  end.

(* @src internal/server/configuration.go 167-175 configBase.model *)
Definition model (b : configBase) (id : string) : option ModelRow :=
  List.find (fun m => String.eqb (m_ID m) id) (b_models b).

(** What a session adds: its profile, its overrides and its tool choice, as
    its row is read. *)
Record sessionConf := mkConf { sc_ProfileID : string; sc_Overrides : ProfileSettings; sc_Tools : option (list string) }.

(* @src internal/store/sessions.go 267-269 scanSession *)
Definition scan_conf (s : DSession) : sessionConf + GoError :=
  match readOverrides (Overrides s) with
  | inl o => inl (mkConf (ProfileID s) o (STools s))
  | inr e => inr e
  end.

Definition only_model (id : string) : ProfileSettings := mkSettings id None None None None None None.

(* @src internal/server/configuration.go 177-195 configBase.sessionLayers *)
Definition sessionLayers (b : configBase) (sess : sessionConf) (requested : string)
    : (list configLayer * ProfileRow * string) + GoError :=
  let '(profile, source) := profileOf b (sc_ProfileID sess) in
  let own := [mkLayer layerSession (sc_Overrides sess) (sc_Tools sess);
              mkLayer layerProfile (pf_Settings profile) (pf_Tools profile)] in
  if String.eqb requested EmptyString then inl (own, profile, source) else
  match List.find (fun m => String.eqb (m_Name m) requested) (b_models b) with
  | None => inr (ErrText ("unknown model " +:+ go_quote requested))
  | Some m => inl (mkLayer layerRequest (only_model (m_ID m)) None :: own, profile, source)
  end.

(** ** The rule *)

(* @src internal/server/configuration.go 308-319 modelSampling *)
Definition modelSampling (m : ModelRow) : Sampling :=
  let s := zeroSampling in
  mkSampling (Temperature s) (TopP s) (TopK s) (MinP s) (FrequencyPenalty s) (PresencePenalty s) (Seed s) (Stop s)
    (if 0 <? m_MaxOutput m then Some (m_MaxOutput m) else None)
    (if String.eqb (m_ReasoningEffort m) EmptyString then None else Some (m_ReasoningEffort m)).

(* @src internal/server/configuration.go 321-333 samplingKeys *)
Definition samplingKeys (s : Sampling) : list string :=
  match marshal_sampling s with
  | Some (JObject l) => merge_sort String.le (map fst l)
  | _ => []
  end.

(** The configuration before any layer, and what the loop carries: the
    switch a layer set, and each layer's parameters. *)
Record reading := mkReading { rd_config : runConfig; rd_preserve : option bool; rd_samplings : list Sampling }.

Definition set_source (key layer : string) (m : gmap string string) : gmap string string := <[key := layer]> m.
Definition start (b : configBase) (profile : ProfileRow) (profileSource : string) : runConfig :=
  mkRunConfig profile profileSource (b_defaultModel b) (match b_models b with [] => false | _ => true end)
    None None EmptyString true false None zeroSampling EmptyString
    (list_to_map [(sourceProfile, profileSource); ("model", layerDefault); ("workspace_prompt", layerDefault);
       ("chat_prompt", layerDefault); ("instructions", layerDefault); ("context_files", layerDefault);
       ("tools", layerDefault)]).

(** One pass of the loop's body over a layer, its sampling parameters aside. *)
Definition read_layer (b : configBase) (l : configLayer) (c : runConfig) (preserve : option bool) : runConfig * option bool :=
  let set := cl_settings l in
  let name := cl_name l in
  let src0 := rc_sources c in
  let chosen := if String.eqb (ps_ModelID set) EmptyString then None else model b (ps_ModelID set) in
  let src1 := match chosen with Some _ => set_source "model" name src0 | None => src0 end in
  let src2 := match ps_WorkspacePrompt set with Some _ => set_source "workspace_prompt" name src1 | None => src1 end in
  let src3 := match ps_ChatPrompt set with Some _ => set_source "chat_prompt" name src2 | None => src2 end in
  let src4 := match ps_Instructions set with Some _ => set_source "instructions" name src3 | None => src3 end in
  let src5 := match ps_ContextFiles set with Some _ => set_source "context_files" name src4 | None => src4 end in
  let src6 := match ps_PreserveThinking set with Some _ => set_source "preserve_thinking" name src5 | None => src5 end in
  let src7 := match cl_tools l with Some _ => set_source "tools" name src6 | None => src6 end in
  (mkRunConfig (rc_profile c) (rc_profileSource c)
     (match chosen with Some m => m | None => rc_model c end)
     (match chosen with Some _ => true | None => rc_modelOK c end)
     (match ps_WorkspacePrompt set with Some p => Some p | None => rc_workspacePrompt c end)
     (match ps_ChatPrompt set with Some p => Some p | None => rc_chatPrompt c end)
     (match ps_Instructions set with Some p => p | None => rc_instructions c end)
     (match ps_ContextFiles set with Some p => p | None => rc_contextFiles c end)
     (rc_preserveThinking c)
     (match cl_tools l with Some ts => Some ts | None => rc_tools c end)
     (rc_sampling c) (rc_droppedEffort c) src7,
   match ps_PreserveThinking set with Some p => Some p | None => preserve end).

Definition layer_sampling (l : configLayer) : option Sampling :=
  match ps_Sampling (cl_settings l) with None => Some zeroSampling | Some raw => unmarshal_sampling raw end.

(** The layers are read bottom first. *)
Fixpoint read_layers (b : configBase) (layers : list configLayer) (c : runConfig) : reading + GoError :=
  match layers with
  | [] => inl (mkReading c None [])
  | l :: below =>
      match read_layers b below c with
      | inr e => inr e
      | inl r =>
          let '(c', preserve) := read_layer b l (rd_config r) (rd_preserve r) in
          match layer_sampling l with
          | None => inr (ErrText ("decode the sampling parameters of the " +:+ cl_name l +:+ " layer"))
          | Some s => inl (mkReading c' preserve (s :: rd_samplings r))
          end
      end
  end.

(** The layer a parameter of the resolved sampling came from. *)
Definition key_source (layers : list configLayer) (samplings : list Sampling) (key : string) : string :=
  match List.find (fun p => bool_decide (key ∈ samplingKeys p.2)) (combine layers samplings) with
  | Some (l, _) => cl_name l
  | None => layerModel
  end.

Definition with_effort (e : option string) (s : Sampling) : Sampling :=
  mkSampling (Temperature s) (TopP s) (TopK s) (MinP s) (FrequencyPenalty s) (PresencePenalty s) (Seed s) (Stop s)
    (MaxOutput s) e.
Definition effortKey : string := samplingSource +:+ "reasoning_effort".

Definition sampled (layers : list configLayer) (r : reading) : runConfig :=
  let c := rd_config r in
  let '(preserving, src) :=
    match rd_preserve r with
    | Some p => (p, rc_sources c)
    | None => if rc_modelOK c then (m_PreserveThinking (rc_model c), set_source "preserve_thinking" layerModel (rc_sources c))
              else (rc_preserveThinking c, set_source "preserve_thinking" layerDefault (rc_sources c))
    end in
  let row := modelSampling (rc_model c) in
  let resolved := foldr Over row (rd_samplings r) in
  let src := foldl (fun m key => set_source (samplingSource +:+ key) (key_source layers (rd_samplings r) key) m) src
               (samplingKeys resolved) in
  let keep := (resolved, EmptyString, src) in
  let '(resolved, dropped, src) :=
    match ReasoningEffort resolved with
    | Some e =>
        if negb (String.eqb e EmptyString) && negb (bool_decide (src !! effortKey = Some layerModel)) && rc_modelOK c &&
           negb (bool_decide (e ∈ m_ReasoningEfforts (rc_model c)))
        then (with_effort (ReasoningEffort row) resolved, e,
              match ReasoningEffort row with
              | Some _ => set_source effortKey layerModel (delete effortKey src)
              | None => delete effortKey src
              end)
        else keep
    | None => keep
    end in
  mkRunConfig (rc_profile c) (rc_profileSource c) (rc_model c) (rc_modelOK c) (rc_workspacePrompt c) (rc_chatPrompt c)
    (rc_instructions c) (rc_contextFiles c) preserving (rc_tools c) resolved dropped src.

(* @src internal/server/configuration.go 197-286 configBase.resolve *)
Definition resolve (b : configBase) (profile : ProfileRow) (profileSource : string) (layers : list configLayer)
    : runConfig + GoError :=
  match read_layers b layers (start b profile profileSource) with
  | inr e => inr e
  | inl r => inl (sampled layers r)
  end.

Definition with_model (m : ModelRow) (ok : bool) (source : option string) (c : runConfig) : runConfig :=
  mkRunConfig (rc_profile c) (rc_profileSource c) m ok (rc_workspacePrompt c) (rc_chatPrompt c) (rc_instructions c)
    (rc_contextFiles c) (rc_preserveThinking c) (rc_tools c) (rc_sampling c) (rc_droppedEffort c)
    (set_source "model" (default EmptyString source) (rc_sources c)).

(* @src internal/server/configuration.go 288-306 configBase.inherited *)
Definition inherited (b : configBase) (profile : ProfileRow) (profileSource : string) (layer : configLayer)
    (below : list configLayer) : runConfig + GoError :=
  let own := mkLayer (cl_name layer) (only_model (ps_ModelID (cl_settings layer))) None in
  match resolve b profile profileSource (own :: below) with
  | inr e => inr e
  | inl out =>
      match resolve b profile profileSource below with
      | inr e => inr e
      | inl under => inl (with_model (rc_model under) (rc_modelOK under) (rc_sources under !! "model") out)
      end
  end.

(* @src internal/server/configuration.go 345-353 configBase.resolveSession *)
Definition resolveSession (b : configBase) (sess : sessionConf) (requested : string) : runConfig + GoError :=
  match sessionLayers b sess requested with
  | inr e => inr e
  | inl (layers, profile, source) => resolve b profile source layers
  end.

(* @src internal/server/configuration.go 335-343 Server.configure *)
Definition configure (sess : sessionConf) (requested : string) (t : CDB) : runConfig + GoError :=
  resolveSession (loadConfigBase t) sess requested.

(* @src internal/server/configuration.go 355-362 runConfig.basePrompt *)
Definition basePrompt (c : runConfig) (chat : bool) : option string :=
  if chat then rc_chatPrompt c else rc_workspacePrompt c.

(** ** On the wire *)

(* @src internal/server/configuration.go 48-78 configurationBody *)
Record configurationBody := mkConfigurationBody {
  cb_ProfileID : string;
  cb_ProfileName : string;
  cb_ModelID : string;
  cb_Model : string;
  cb_WorkspacePrompt : string;
  cb_ChatPrompt : string;
  cb_Instructions : string;
  cb_ContextFiles : bool;
  cb_PreserveThinking : bool;
  cb_Tools : option (list string);
  cb_Sampling : Sampling;
  cb_DroppedEffort : string;
  cb_Sources : gmap string string;
}.

(* @src internal/server/configuration.go 364-389 asConfiguration *)
Definition asConfiguration (c : runConfig) : configurationBody :=
  mkConfigurationBody (pf_ID (rc_profile c)) (pf_Name (rc_profile c))
    (if rc_modelOK c then m_ID (rc_model c) else EmptyString) (if rc_modelOK c then m_Name (rc_model c) else EmptyString)
    (default WorkspacePrompt (rc_workspacePrompt c)) (default ChatPrompt (rc_chatPrompt c)) (rc_instructions c)
    (rc_contextFiles c) (rc_preserveThinking c) (rc_tools c) (rc_sampling c) (rc_droppedEffort c) (rc_sources c).

(* @src internal/server/configuration.go 391-406 runConfig.parameterSources *)
Definition parameterSources (c : runConfig) : gmap string string :=
  let out := list_to_map [("model", default EmptyString (rc_sources c !! "model"));
                          ("preserve_thinking", default EmptyString (rc_sources c !! "preserve_thinking"))] in
  let out := base.filter (fun p => has_prefix p.1 samplingSource = true) (rc_sources c) ∪ out in
  if rc_modelOK c then set_source "image_input" layerModel (set_source "thinking_switch" layerModel out) else out.
