(* ===== verification/Providers.v ===== *)
(** Providers and their keys (internal/server providers.go, internal/secret,
    internal/provider registry.go): a key is sealed where it is stored, and is
    sent only to the endpoint it was entered for. *)
From stdpp Require Import sorting.
From S2P Require Import Prelude GoStr Failure Entries Tables Config Configuration Api.
From stdpp Require Import options.
Open Scope Z_scope.

(** ** Sealing *)

(** [secret.ErrCorrupt]. *)
(* @src internal/secret/secret.go 18-20 ErrCorrupt *)
Definition ErrCorrupt : GoError := ErrSentinel "sealed data does not open with this key".

(** An authenticated cipher under the harness's key. *)
(* @src internal/secret/secret.go 22-26 Box *)
Record Box := mkBox {
  NonceSize : nat;
  Overhead : nat;
  aead_seal : string -> string -> string;
  aead_open : string -> string -> option string;
}.

(** [nonce] is the fresh one. *)
(* @src internal/secret/secret.go 90-101 Box.Seal *)
Definition Seal (b : Box) (nonce plaintext : string) : string :=
  if String.eqb plaintext EmptyString then EmptyString else nonce +:+ aead_seal b nonce plaintext.

(* @src internal/secret/secret.go 103-118 Box.Open *)
Definition Open (b : Box) (sealed : string) : string + GoError :=
  if String.eqb sealed EmptyString then inl EmptyString else
  if (String.length sealed <? NonceSize b + Overhead b)%nat then inr (ErrWrap "open secret" ErrCorrupt) else
  match aead_open b (str_take (NonceSize b) sealed) (str_drop (NonceSize b) sealed) with
  | Some plain => inl plain
  | None => inr (ErrWrap "open secret" ErrCorrupt)
  end.

(** What package cipher says of an AEAD: opening gives back what was sealed
    under the same nonce, which takes the overhead more. *)
Record box_ok (b : Box) : Prop := {
  opens : forall nonce p, aead_open b nonce (aead_seal b nonce p) = Some p;
  overhead : forall nonce p, String.length (aead_seal b nonce p) = (String.length p + Overhead b)%nat;
}.

(** ** URLs *)

(** What the handlers read of a [url.URL]. *)
Record URL := mkURL {
  u_Scheme : string; u_Host : string; u_User : bool; u_RawQuery : string; u_ForceQuery : bool; u_Fragment : string;
}.

Definition is_control (r : Z) : bool := ((0 <=? r) && (r <? 32)) || ((127 <=? r) && (r <=? 159)).
(** [strings.IndexFunc(s, unicode.IsControl) >= 0]. *)
Definition has_control (s : string) : bool := existsb is_control (runes s).

(* @src internal/server/providers.go 19-21 defaultProviderKind *)
Definition defaultProviderKind : string := "openai".
(* @src internal/server/providers.go 23-49 maxProviderName *)
Definition maxProviderName : Z := 64.
Definition maxModelName : Z := 128.
Definition maxModelID : Z := 256.
Definition maxAPIKey : Z := 4096.
Definition maxReasoningEfforts : Z := 12.
Definition maxContextWindow : Z := 100000000.
Definition testMaxTokens : Z := 512.
Definition keyHintLength : nat := 4.
Definition minHintedKey : Z := 16.

(** Where a provider's client is built: the API root and the key it sends. *)
(* @src internal/provider/registry.go 8-17 Endpoint *)
Record Endpoint := mkEndpoint { BaseURL : string; APIKey : string }.

(* @src internal/server/providers_wire.go 32-38 createProviderRequest *)
Record createProviderRequest := mkCreateProvider { cp_Name : string; cp_Kind : string; cp_BaseURL : string; cp_APIKey : string }.
(* @src internal/server/providers_wire.go 40-47 updateProviderRequest *)
Record updateProviderRequest := mkUpdateProvider { up_Name : option string; up_BaseURL : option string; up_APIKey : option string }.
(* @src internal/server/providers_wire.go 49-58 probeRequest *)
Record probeRequest := mkProbe { pb_ProviderID : string; pb_Kind : string; pb_BaseURL : option string; pb_APIKey : option string }.
(* @src internal/server/providers_wire.go 10-23 providerBody *)
Record providerBody := mkProviderBody {
  pv_ID : string; pv_Name : string; pv_Kind : string; pv_BaseURL : string; pv_APIKeySet : bool; pv_APIKeyHint : string;
}.

(** [strings.ReplaceAll] of a non-empty string. *)
Fixpoint replace_all (fuel : nat) (s old new : string) : string :=
  match fuel, s with
  | S fuel', String a s' =>
      if has_prefix s old then new +:+ replace_all fuel' (str_drop (String.length old) s) old new
      else String a (replace_all fuel' s' old new)
  | _, _ => s
  end.

(* @src internal/server/providers.go 351-357 scrub *)
Definition scrub (message secret : string) : string :=
  if String.eqb secret EmptyString then message else replace_all (S (String.length message)) message secret "[REDACTED]".

Section providers.
(** The box of the harness, [url.Parse], and the constructors by kind, which
    may refuse an endpoint. *)
Context (box : Box) (url_parse : string -> option URL) (kinds : list (string * (Endpoint -> option GoError))).

(* @src internal/provider/registry.go 47-55 Registry.Kinds *)
Definition Kinds : list string := merge_sort String.le (map fst kinds).

(** The client is its endpoint. *)
(* @src internal/provider/registry.go 38-45 Registry.Build *)
Definition Build (kind : string) (e : Endpoint) : Endpoint + GoError :=
  match List.find (fun c => String.eqb c.1 kind) kinds with
  | None => inr (ErrText ("build provider: unknown kind " +:+ go_quote kind))
  | Some c => match c.2 e with None => inl e | Some err => inr err end
  end.

(* @src internal/server/providers.go 283-301 validateBaseURL *)
Definition validateBaseURL (raw : string) : option failure :=
  if String.eqb raw EmptyString then Some (invalidf "base_url is required, such as https://api.openai.com/v1") else
  match url_parse raw with
  | None => Some (invalidf "base_url must be an http or https URL, such as https://api.openai.com/v1")
  | Some u =>
      if (negb (String.eqb (u_Scheme u) "http") && negb (String.eqb (u_Scheme u) "https")) || String.eqb (u_Host u) EmptyString
      then Some (invalidf "base_url must be an http or https URL, such as https://api.openai.com/v1")
      else if u_User u then Some (invalidf "base_url must not contain credentials; put the key in api_key")
      else if negb (String.eqb (u_RawQuery u) EmptyString) || u_ForceQuery u || negb (String.eqb (u_Fragment u) EmptyString)
      then Some (invalidf "base_url must not contain a query string or fragment")
      else None
  end.

(* @src internal/server/providers.go 267-281 Server.validateProvider *)
Definition validateProvider (p : ProviderRow) : option failure :=
  if String.eqb (pr_Name p) EmptyString || (maxProviderName <? str_len (pr_Name p)) || has_control (pr_Name p)
  then Some (invalidf ("name must be 1 to " +:+ itoa maxProviderName +:+ " characters"))
  else if negb (existsb (String.eqb (pr_Kind p)) Kinds)
  then Some (invalidf ("kind must be one of " +:+ join Kinds ", "))
  else validateBaseURL (pr_BaseURL p).

(* @src internal/server/providers.go 303-310 Server.sealKey *)
Definition sealKey (nonce key : string) : string + failure :=
  let key := trim_space key in
  if maxAPIKey <? str_len key then inr (invalidf ("api_key must be at most " +:+ itoa maxAPIKey +:+ " bytes"))
  else inl (Seal box nonce key).

(* @src internal/server/providers.go 312-322 Server.openKey *)
Definition openKey (p : ProviderRow) : string + failure :=
  match Open box (pr_APIKey p) with
  | inl key => inl key
  | inr e =>
      if is_sentinel "sealed data does not open with this key" e
      then inr (conflictf ("the API key of provider " +:+ pr_Name p +:+ " cannot be read, which happens when the harness's secret key file changes; enter the key again under Settings, Models"))
      else inr (Plain e)
  end.

(* @src internal/server/providers_wire.go 65-80 Server.asProvider *)
Definition asProvider (p : ProviderRow) : providerBody :=
  mkProviderBody (pr_ID p) (pr_Name p) (pr_Kind p) (pr_BaseURL p) (negb (String.eqb (pr_APIKey p) EmptyString))
    (match Open box (pr_APIKey p) with
     | inl key => if minHintedKey <=? str_len key then str_drop (String.length key - keyHintLength) key else EmptyString
     | inr _ => EmptyString
     end).

(* @src internal/server/providers.go 51-63 Server.handleListProviders *)
Definition handleListProviders (t : CDB) : answer (list providerBody * list string) :=
  inl (200, (map asProvider (Providers t), Kinds)).

(** A name that is taken. *)
Definition provider_conflict (name : string) (e : GoError) : failure :=
  if is_sentinel "conflict" e then conflictf ("a provider named " +:+ go_quote name +:+ " already exists") else Plain e.

(* @src internal/server/providers.go 65-98 Server.handleCreateProvider *)
Definition handleCreateProvider (id nonce : string) (now : Z) (req : createProviderRequest) (t : CDB) : answer providerBody * CDB :=
  let p := mkProvider EmptyString (trim_space (cp_Name req)) (or_string (trim_space (cp_Kind req)) defaultProviderKind)
    (trim_space (cp_BaseURL req)) EmptyString 0 in
  match validateProvider p with
  | Some e => (inr e, t)
  | None =>
      match sealKey nonce (cp_APIKey req) with
      | inr e => (inr e, t)
      | inl sealed =>
          match CreateProvider id now (mkProvider EmptyString (pr_Name p) (pr_Kind p) (pr_BaseURL p) sealed 0) t with
          | (inl created, t') => (inl (201, asProvider created), t')
          | (inr e, t') => (inr (provider_conflict (pr_Name p) e), t')
          end
      end
  end.

(** What an update makes of the row it read. *)
(* @src internal/server/providers.go 114-136 Server.handleUpdateProvider (what it changes) *)
Definition planUpdate (nonce : string) (req : updateProviderRequest) (p : ProviderRow) : ProviderRow + failure :=
  let name := match up_Name req with Some n => trim_space n | None => pr_Name p end in
  let base := match up_BaseURL req with Some b => trim_space b | None => pr_BaseURL p end in
  let keyCleared := match up_BaseURL req, up_APIKey req with
    | Some _, None => negb (String.eqb base (pr_BaseURL p)) && negb (String.eqb (pr_APIKey p) EmptyString)
    | _, _ => false
    end in
  let key := if keyCleared then EmptyString else pr_APIKey p in
  let p := mkProvider (pr_ID p) name (pr_Kind p) base key (pr_CreatedAt p) in
  match validateProvider p with
  | Some e => inr e
  | None =>
      match up_APIKey req with
      | None => inl p
      | Some k =>
          match sealKey nonce k with
          | inl sealed => inl (mkProvider (pr_ID p) name (pr_Kind p) base sealed (pr_CreatedAt p))
          | inr e => inr e
          end
      end
  end.

(** The read and the write are two transactions, between which others run. *)
(* @src internal/server/providers.go 104-113 Server.handleUpdateProvider (the read) *)
Definition readUpdate (id nonce : string) (req : updateProviderRequest) (t : CDB) : ProviderRow + failure :=
  match getProvider id t with
  | inr e => inr (Plain e)
  | inl p => planUpdate nonce req p
  end.
(* @src internal/server/providers.go 137-147 Server.handleUpdateProvider (the write) *)
Definition writeUpdate (p : ProviderRow) (t : CDB) : answer providerBody * CDB :=
  match UpdateProvider p t with
  | (inl updated, t') => (inl (200, asProvider updated), t')
  | (inr e, t') => (inr (provider_conflict (pr_Name p) e), t')
  end.
(* @src internal/server/providers.go 100-147 Server.handleUpdateProvider *)
Definition handleUpdateProvider (id nonce : string) (req : updateProviderRequest) (t : CDB) : answer providerBody * CDB :=
  match readUpdate id nonce req t with
  | inr e => (inr e, t)
  | inl p => writeUpdate p t
  end.

(* @src internal/server/providers.go 149-159 Server.handleDeleteProvider *)
Definition handleDeleteProvider (id : string) (t : CDB) : answer unit * CDB :=
  match DeleteProvider id t with
  | (Some e, t') => (inr (Plain e), t')
  | (None, t') => (inl (204, tt), t')
  end.

(* @src internal/server/providers.go 198-238 Server.probeTarget *)
Definition probeTarget (req : probeRequest) (t : CDB) : (ProviderRow * string) + failure :=
  let target :=
    if negb (String.eqb (pb_ProviderID req) EmptyString) then
      match getProvider (pb_ProviderID req) t with
      | inr e => inr (Plain e)
      | inl stored => match openKey stored with inl key => inl (stored, key) | inr e => inr e end
      end
    else inl (mkProvider EmptyString "probe" (or_string (trim_space (pb_Kind req)) defaultProviderKind) EmptyString EmptyString 0, EmptyString) in
  match target with
  | inr e => inr e
  | inl (p, key) =>
      let '(p, key) := match pb_BaseURL req with
        | None => (p, key)
        | Some b =>
            let baseURL := trim_space b in
            (mkProvider (pr_ID p) (pr_Name p) (pr_Kind p) baseURL (pr_APIKey p) (pr_CreatedAt p),
             if negb (String.eqb (pb_ProviderID req) EmptyString) && negb (String.eqb baseURL (pr_BaseURL p)) then EmptyString else key)
        end in
      let key := match pb_APIKey req with Some k => trim_space k | None => key end in
      match validateProvider p with
      | Some e => inr e
      | None => inl (p, key)
      end
  end.

(* @src internal/server/providers.go 250-265 Server.providerOf *)
Definition providerOf (m : ModelRow) (t : CDB) : Endpoint + failure :=
  match getProvider (m_ProviderID m) t with
  | inr e => inr (Plain e)
  | inl p =>
      match openKey p with
      | inr e => inr e
      | inl key =>
          match Build (pr_Kind p) (mkEndpoint (pr_BaseURL p) key) with
          | inl client => inl client
          | inr err => inr (Plain (ErrText ("build provider " +:+ pr_Name p +:+ ": " +:+ scrub (error_text err) key)))
          end
      end
  end.

(* @src internal/server/providers.go 240-248 Server.providerFor *)
Definition providerFor (cfg : runConfig) (t : CDB) : Endpoint + failure :=
  if negb (rc_modelOK cfg) then inr (conflictf "no model is configured; add one under Settings, Models")
  else providerOf (rc_model cfg) t.

(** Whether a URL names the local machine. *)
Context (loopback : string -> bool).

(* @src internal/server/providers.go 324-335 endpointFailure *)
Definition endpointFailure (baseURL : string) (err : GoError) (transport : bool) (key : string) : failure :=
  let message := scrub (error_text err) key in
  let message := if transport && loopback baseURL
    then message +:+ "; the harness runs in a container, where localhost is the container itself: use http://host.docker.internal instead to reach the Docker host"
    else message in
  invalidf ("the endpoint could not be used: " +:+ message).

(** The endpoint's list of models, none from a client that cannot list them;
    a failure says whether it came before an HTTP status. *)
Context (list_models : Endpoint -> option (list string + GoError * bool)).

(** With the endpoint that was asked, when one was. *)
(* @src internal/server/providers.go 161-196 Server.handleProbeProvider *)
Definition handleProbeProvider (req : probeRequest) (t : CDB) : answer (list string) * option Endpoint :=
  match probeTarget req t with
  | inr e => (inr e, None)
  | inl (p, key) =>
      match Build (pr_Kind p) (mkEndpoint (pr_BaseURL p) key) with
      | inr err => (inr (invalidf (scrub (error_text err) key)), None)
      | inl client =>
          match list_models client with
          | None => (inr (invalidf ("a " +:+ pr_Kind p +:+ " provider cannot list its models; add them by name")), None)
          | Some (inl models) => (inl (200, models), Some client)
          | Some (inr (err, transport)) => (inr (endpointFailure (pr_BaseURL p) err transport key), Some client)
          end
      end
  end.
End providers.
