(* ===== verification/ProvidersClaims.v ===== *)
(** The claims about providers: what was sealed opens, and a key reaches no
    endpoint but the one it was entered for. *)
From S2P Require Import Prelude GoStr Failure Entries Tables Config Configuration Api Providers.
From stdpp Require Import options.
Open Scope Z_scope.

Lemma Open_Seal b nonce k : box_ok b -> String.length nonce = NonceSize b -> Open b (Seal b nonce k) = inl k.
Proof.
  intros [Ho Hl] Hn. unfold Open, Seal. destruct (String.eqb_spec k EmptyString) as [->|Hk]; [done|].
  assert (Hlen : String.length (nonce +:+ aead_seal b nonce k) = (NonceSize b + (String.length k + Overhead b))%nat)
    by (by rewrite str_length_app, Hl, Hn).
  assert (Hpos : (0 < String.length k)%nat) by (destruct k; [done|cbn; lia]).
  destruct (String.eqb_spec (nonce +:+ aead_seal b nonce k) EmptyString) as [E|_]; [rewrite E in Hlen; cbn in Hlen; lia|].
  rewrite Hlen, (proj2 (Nat.ltb_ge _ _)) by lia. rewrite <- Hn, str_take_app, str_drop_app, Ho. done.
Qed.

Section keys.
Context (box : Box) (url_parse : string -> option URL) (kinds : list (string * (Endpoint -> option GoError))).
Context (loopback : string -> bool) (list_models : Endpoint -> option (list string + GoError * bool)).

(** The tables with the updates that have read their row and not written it,
    the endpoints a client was used on, and the keys as they were entered,
    each with the URL of its endpoint. *)
Record KeyState := mkKeys {
  k_db : CDB; k_inflight : list ProviderRow; k_used : list Endpoint; k_entered : list (string * string);
}.

Inductive key_step (s : KeyState) : KeyState -> Prop :=
| key_create id nonce now req : String.length nonce = NonceSize box ->
    key_step s (mkKeys (handleCreateProvider box url_parse kinds id nonce now req (k_db s)).2 (k_inflight s) (k_used s)
      ((trim_space (cp_BaseURL req), trim_space (cp_APIKey req)) :: k_entered s))
| key_read id nonce req p : String.length nonce = NonceSize box ->
    readUpdate box url_parse kinds id nonce req (k_db s) = inl p ->
    key_step s (mkKeys (k_db s) (p :: k_inflight s) (k_used s)
      (match up_APIKey req with Some k => [(pr_BaseURL p, trim_space k)] | None => [] end ++ k_entered s))
| key_write p : p ∈ k_inflight s ->
    key_step s (mkKeys (writeUpdate box p (k_db s)).2 (k_inflight s) (k_used s) (k_entered s))
| key_delete id : key_step s (mkKeys (handleDeleteProvider id (k_db s)).2 (k_inflight s) (k_used s) (k_entered s))
| key_probe req r e : handleProbeProvider box url_parse kinds loopback list_models req (k_db s) = (r, Some e) ->
    key_step s (mkKeys (k_db s) (k_inflight s) (e :: k_used s)
      (match pb_APIKey req with Some k => [(BaseURL e, trim_space k)] | None => [] end ++ k_entered s))
| key_run m e : providerOf box kinds m (k_db s) = inl e ->
    key_step s (mkKeys (k_db s) (k_inflight s) (e :: k_used s) (k_entered s))
| key_other t : c_providers t = c_providers (k_db s) ->
    key_step s (mkKeys t (k_inflight s) (k_used s) (k_entered s)).

(** A key in the clear that was entered for the URL, or none. *)
Definition entered (s : KeyState) (url key : string) : Prop := key = EmptyString \/ (url, key) ∈ k_entered s.
Definition row_ok (s : KeyState) (p : ProviderRow) : Prop := forall k, Open box (pr_APIKey p) = inl k -> entered s (pr_BaseURL p) k.
Record keys_ok (s : KeyState) : Prop := {
  stored_ok : forall id p, c_providers (k_db s) !! id = Some p -> row_ok s p;
  inflight_ok : Forall (row_ok s) (k_inflight s);
  used_ok : Forall (fun e => entered s (BaseURL e) (APIKey e)) (k_used s);
}.

Definition knows (s s' : KeyState) : Prop := forall x, x ∈ k_entered s -> x ∈ k_entered s'.
Lemma entered_knows s s' url k : knows s s' -> entered s url k -> entered s' url k.
Proof using. intros H [->|Hk]; [by left|right; auto]. Qed.
Lemma row_knows s s' p : knows s s' -> row_ok s p -> row_ok s' p.
Proof using. intros H Hp k Hk. eapply entered_knows; [done|by apply Hp]. Qed.

Lemma keys_ok_knows s s' :
  knows s s' -> keys_ok s -> (forall id p, c_providers (k_db s') !! id = Some p -> row_ok s' p) ->
  (forall p, p ∈ k_inflight s' -> p ∈ k_inflight s \/ row_ok s' p) ->
  (forall e, e ∈ k_used s' -> e ∈ k_used s \/ entered s' (BaseURL e) (APIKey e)) -> keys_ok s'.
Proof using.
  intros H [H1 H2 H3] Hs Hi Hu. rewrite Forall_forall in H2. rewrite Forall_forall in H3. constructor; [done| |]; apply Forall_forall.
  - intros p [Hp|Hp]%Hi; [eapply row_knows; [done|by apply H2]|done].
  - intros e [He|He]%Hu; [eapply entered_knows; [done|by apply H3]|done].
Qed.

Lemma sealed_row s nonce key p sealed :
  box_ok box -> String.length nonce = NonceSize box -> sealKey box nonce key = inl sealed ->
  pr_APIKey p = sealed -> (pr_BaseURL p, trim_space key) ∈ k_entered s -> row_ok s p.
Proof using.
  intros Hb Hn Hs Hp Hin k Hk. unfold sealKey in Hs. destruct (maxAPIKey <? _); [done|]. injection Hs as <-.
  rewrite Hp, Open_Seal in Hk by done. injection Hk as <-. by right.
Qed.

(** The plan of an update keeps the pair of a URL and its key, or makes a new
    one. *)
Lemma planUpdate_row s nonce req p q :
  box_ok box -> String.length nonce = NonceSize box -> row_ok s p ->
  planUpdate box url_parse kinds nonce req p = inl q ->
  (forall k, up_APIKey req = Some k -> (pr_BaseURL q, trim_space k) ∈ k_entered s) -> row_ok s q.
Proof using.
  intros Hb Hn Hp Hq Hin. unfold planUpdate in Hq. destruct (validateProvider _ _ _); [done|].
  destruct (up_APIKey req) as [key|].
  - destruct (sealKey box nonce key) as [sealed|] eqn:E; [|done]. injection Hq as <-.
    eapply (sealed_row s nonce key); [done..|]. cbn. by apply (Hin key).
  - injection Hq as <-. intros k. cbn. destruct (up_BaseURL req) as [b|]; cbn; [|by apply Hp].
    destruct (String.eqb_spec (trim_space b) (pr_BaseURL p)) as [->|Hne]; cbn; [by apply Hp|].
    destruct (String.eqb_spec (pr_APIKey p) EmptyString) as [->|]; cbn; intros [= <-]; by left.
Qed.

Lemma openKey_entered s p k : row_ok s p -> openKey box p = inl k -> entered s (pr_BaseURL p) k.
Proof using.
  intros Hp H. unfold openKey in H. destruct (Open box (pr_APIKey p)) as [k'|e] eqn:E; [|by case_match].
  injection H as <-. by apply Hp.
Qed.

Lemma Build_inl kind e e' : Build kinds kind e = inl e' -> e' = e.
Proof using. unfold Build. intros H. repeat case_match; by simplify_eq. Qed.

Lemma probe_entered s req p key :
  keys_ok s -> probeTarget box url_parse kinds req (k_db s) = inl (p, key) ->
  match pb_APIKey req with Some k => key = trim_space k | None => entered s (pr_BaseURL p) key end.
Proof using.
  intros Hs H. unfold probeTarget, getProvider in H.
  destruct (match negb _ with true => _ | false => _ end) as [[p0 k0]|] eqn:E; [|done].
  assert (H0 : entered s (pr_BaseURL p0) k0).
  { destruct (String.eqb (pb_ProviderID req) EmptyString); cbn in E; [injection E as <- <-; by left|].
    destruct (c_providers (k_db s) !! pb_ProviderID req) as [stored|] eqn:Ep; [|done].
    destruct (openKey box stored) as [k|] eqn:Ek; [|done]. injection E as <- <-.
    eapply openKey_entered; [by eapply stored_ok|done]. }
  assert (Hnew : pb_ProviderID req = EmptyString -> k0 = EmptyString).
  { intros Hid. rewrite Hid in E. cbn in E. by injection E as _ <-. }
  clear E. destruct (pb_BaseURL req) as [b|]; cbn in H.
  - destruct (validateProvider _ _ _); [done|]. injection H as <- <-. destruct (pb_APIKey req); [done|]. cbn.
    destruct (String.eqb_spec (pb_ProviderID req) EmptyString) as [Hid|]; cbn; [left; auto|].
    destruct (String.eqb_spec (trim_space b) (pr_BaseURL p0)) as [->|]; [done|by left].
  - destruct (validateProvider _ _ _); [done|]. injection H as <- <-. by destruct (pb_APIKey req).
Qed.

Lemma create_rows s id nonce now req :
  box_ok box -> String.length nonce = NonceSize box -> keys_ok s ->
  (trim_space (cp_BaseURL req), trim_space (cp_APIKey req)) ∈ k_entered s ->
  forall i p, c_providers (handleCreateProvider box url_parse kinds id nonce now req (k_db s)).2 !! i = Some p -> row_ok s p.
Proof using.
  intros Hb Hn Hs Hin i p. unfold handleCreateProvider. destruct (validateProvider _ _ _); [by apply stored_ok|].
  destruct (sealKey box nonce (cp_APIKey req)) as [sealed|] eqn:E; [|by apply stored_ok].
  unfold CreateProvider. destruct (_ || _); [by apply stored_ok|]. cbn. rewrite lookup_insert_Some.
  intros [[_ <-]|[_ Hp]]; [|by eapply stored_ok]. by eapply (sealed_row s nonce (cp_APIKey req)).
Qed.

Lemma write_rows s q :
  keys_ok s -> row_ok s q -> forall i p, c_providers (writeUpdate box q (k_db s)).2 !! i = Some p -> row_ok s p.
Proof using.
  intros Hs Hq i p. unfold writeUpdate, UpdateProvider.
  destruct (c_providers (k_db s) !! pr_ID q) as [old|]; [|by apply stored_ok]. destruct (taken _ _ _ _); [by apply stored_ok|].
  cbn. rewrite lookup_insert_Some. intros [[_ <-]|[_ Hp]]; [exact Hq|by eapply stored_ok].
Qed.

Lemma delete_rows id t i p : c_providers (handleDeleteProvider id t).2 !! i = Some p -> c_providers t !! i = Some p.
Proof using.
  unfold handleDeleteProvider, DeleteProvider. destruct (c_providers t !! id); [|done]. cbn. by intros [_ H]%lookup_delete_Some.
Qed.

Lemma key_step_ok s s' : box_ok box -> keys_ok s -> key_step s s' -> keys_ok s'.
Proof using.
  intros Hb Hs Hstep. assert (Hall : forall p, p ∈ k_inflight s -> row_ok s p) by (apply Forall_forall, Hs).
  destruct Hstep as [id nonce now req Hn|id nonce req p Hn Hr|p Hp|id|req r e Hp|m e Hm|t Ht];
    (eapply keys_ok_knows; [|exact Hs|..]; cbn; [intros x Hx; cbn; rewrite ?elem_of_cons, ?elem_of_app; by auto|..]).
  - pose proof (create_rows (mkKeys (k_db s) (k_inflight s) (k_used s)
      ((trim_space (cp_BaseURL req), trim_space (cp_APIKey req)) :: k_entered s)) id nonce now req Hb Hn) as Hc.
    apply Hc; [|apply elem_of_cons; by left].
    eapply keys_ok_knows; [|exact Hs|..]; cbn; [intros x Hx; apply elem_of_cons; by right| |by left..].
    intros i p Hi. eapply row_knows; [|by eapply stored_ok]. intros x Hx. apply elem_of_cons. by right.
  - by left.
  - by left.
  - intros i q Hi. eapply row_knows; [|by eapply stored_ok]. intros x Hx. apply elem_of_app. by right.
  - intros q [->|Hq]%elem_of_cons; [right|by left]. unfold readUpdate, getProvider in Hr.
    destruct (c_providers (k_db s) !! id) as [old|] eqn:Eo; [|done].
    eapply planUpdate_row; [done|done| |exact Hr|].
    + eapply row_knows; [|by eapply stored_ok]. intros x Hx. apply elem_of_app. by right.
    + intros k Hk. cbn. rewrite Hk. apply elem_of_app. left. apply elem_of_cons. by left.
  - by left.
  - intros i q Hi. eapply row_knows; [|eapply (write_rows s p); eauto]. by intros x Hx.
  - by left.
  - by left.
  - intros i q Hi. eapply (row_knows s); [by intros x Hx|]. eapply stored_ok; [done|]. by eapply delete_rows.
  - by left.
  - by left.
  - intros i q Hi. eapply row_knows; [|by eapply stored_ok]. intros x Hx. apply elem_of_app. by right.
  - by left.
  - intros e' [->|He]%elem_of_cons; [right|by left]. unfold handleProbeProvider in Hp.
    destruct (probeTarget box url_parse kinds req (k_db s)) as [[p key]|] eqn:E; [|done].
    pose proof (probe_entered _ _ _ _ Hs E) as Hkey.
    destruct (Build kinds (pr_Kind p) _) as [client|] eqn:Eb; [|done]. apply Build_inl in Eb as ->.
    assert (He : e = mkEndpoint (pr_BaseURL p) key) by (destruct (list_models _) as [[|[]]|]; by simplify_eq).
    subst e. cbn. destruct (pb_APIKey req) as [k|].
    + right. subst key. apply elem_of_app. left. apply elem_of_cons. by left.
    + eapply entered_knows; [|exact Hkey]. intros x Hx. done.
  - intros i q Hi. eapply (row_knows s); [by intros x Hx|]. by eapply stored_ok.
  - by left.
  - intros e' [->|He]%elem_of_cons; [right|by left]. unfold providerOf, getProvider in Hm.
    destruct (c_providers (k_db s) !! m_ProviderID m) as [p|] eqn:E; [|done].
    destruct (openKey box p) as [key|] eqn:Ek; [|done].
    destruct (Build kinds (pr_Kind p) _) as [client|] eqn:Eb; [|done]. apply Build_inl in Eb as ->. injection Hm as <-. cbn.
    eapply (openKey_entered _ p); [|done]. eapply (row_knows s); [by intros x Hx|]. by eapply stored_ok.
  - intros i q Hi. rewrite Ht in Hi. eapply (row_knows s); [by intros x Hx|]. by eapply stored_ok.
  - by left.
  - by left.
Qed.

(** C27: from a deployment without providers, through any interleaving of
    requests that create, update, delete and probe providers and of runs that
    use them (an update reads its row in one transaction and writes it in a
    later one), a client is built with a key only on the URL the key was
    entered for: in the request that carried both, or in one that carried the
    key alone for a row that had the URL. *)
Theorem key_reaches_its_endpoint_only s0 s e :
  box_ok box -> c_providers (k_db s0) = ∅ -> k_inflight s0 = [] -> k_used s0 = [] -> rtc key_step s0 s ->
  e ∈ k_used s -> APIKey e <> EmptyString -> (BaseURL e, APIKey e) ∈ k_entered s.
Proof using.
  intros Hb H1 H2 H3 Hsteps He Hne.
  assert (Hs : keys_ok s).
  { assert (H0 : keys_ok s0) by (constructor; [by intros id p; rewrite H1, lookup_empty|by rewrite H2|by rewrite H3]).
    clear -Hb H0 Hsteps. induction Hsteps; eauto using key_step_ok. }
  destruct Hs as [_ _ Hu]. rewrite Forall_forall in Hu. by destruct (Hu e He).
Qed.
End keys.

Lemma key_reaches_its_endpoint_only_witness :
  let box := mkBox 1 1 (fun _ p => p +:+ "!"%string) (fun _ c => Some (str_take (String.length c - 1) c)) in
  let parse := fun _ : string => Some (mkURL "https" "api.test" false EmptyString false EmptyString) in
  let kinds := [("openai"%string, fun _ : Endpoint => None : option GoError)] in
  let list_models := fun _ : Endpoint => Some (inl ["small"%string] : list string + GoError * bool) in
  let s0 := mkKeys (mkCDB ∅ ∅ ∅ ∅ (mkDB ∅ ∅)) [] [] [] in
  let url := "https://api.test/v1"%string in
  exists (s : KeyState) (e : Endpoint), rtc (key_step box parse kinds (fun _ => false) list_models) s0 s /\ e ∈ k_used s /\
    APIKey e = "sk-test-0123456789"%string /\ (url, "sk-test-0123456789"%string) ∈ k_entered s.
Proof.
  intros box parse kinds lm s0 url. set (key := "sk-test-0123456789"%string).
  assert (Hbox : box_ok box).
  { constructor; intros n p; unfold box; cbn; rewrite ?str_length_app; cbn; [|lia].
    replace (String.length p + 1 - 1)%nat with (String.length p) by lia. by rewrite str_take_app. }
  set (e := mkEndpoint url key).
  evar (s2 : KeyState). assert (Hsteps : rtc (key_step box parse kinds (fun _ => false) lm) s0 s2).
  { eapply rtc_l; [exact (key_create box parse kinds (fun _ => false) lm s0 "p1" "N" 1 (mkCreateProvider "p" EmptyString url key) eq_refl)|].
    eapply rtc_l; [|apply rtc_refl].
    eapply (key_probe box parse kinds (fun _ => false) lm _ (mkProbe "p1" EmptyString None None) _ e). vm_compute. reflexivity. }
  assert (He : e ∈ [e]) by (apply elem_of_cons; by left).
  exists s2, e. split; [exact Hsteps|]. split; [exact He|]. split; [reflexivity|].
  exact (key_reaches_its_endpoint_only box parse kinds (fun _ => false) lm s0 _ e Hbox eq_refl eq_refl eq_refl Hsteps He ltac:(discriminate)).
Defined.
