(* ===== verification/Sandbox.v ===== *)
(** What a workspace's container may consume, reach and expose
    (internal/server sandbox.go, and the documents of internal/store
    workspaces.go): how a sandbox from a request is checked, stored and applied,
    and what the egress proxy asks of it. *)
From Stdlib Require Import Floats.SpecFloat.
From S2P Require Import Prelude GoStr Float64 Failure Addr Net Entries Tables Config Configuration Api.
From stdpp Require Import options.
Open Scope Z_scope.

(* @src internal/server/sandbox.go 18-37 minCPUs *)
Definition minCPUs : float64 := f64_lit 1 2.
Definition minMemoryMB : Z := 64.
Definition minPIDs : Z := 32.
Definition maxPIDs : Z := 4194304.
Definition maxPorts : Z := 20.
Definition maxPortLabel : Z := 40.
Definition defaultPIDs : Z := 4096.
(* @src internal/server/sandbox.go 323-324 daemonPort *)
Definition daemonPort : Z := 7000.

(** ** Rows and bodies *)

(* @src internal/store/workspaces.go 67-72 WorkspacePort *)
Record WorkspacePort := mkPort { wp_Port : Z; wp_Label : string }.
(* @src internal/store/workspaces.go 49-65 WorkspaceSandbox *)
Record WorkspaceSandbox := mkSandbox {
  sx_CPUs : float64; sx_MemoryMB : Z; sx_PIDs : Z; sx_Egress : string; sx_Allow : list string; sx_Ports : list WorkspacePort;
}.
Definition zeroSandbox : WorkspaceSandbox := mkSandbox f64_zero 0 0 EmptyString [] [].

Definition omit_zero (n : Z) : option Z := if n =? 0 then None else Some n.
Definition omit_empty (s : string) : option string := if String.eqb s EmptyString then None else Some s.
Definition port_doc (p : WorkspacePort) : json :=
  JObject (("port", JInt (wp_Port p)) :: opt_doc "label" JString (omit_empty (wp_Label p))).

(** [json.Marshal]; a number of cores that is no number has no encoding, and
    is refused before. *)
Definition sandbox_doc (s : WorkspaceSandbox) : json :=
  JObject (opt_doc "cpus" JFloat (if f64_is_zero (sx_CPUs s) then None else Some (sx_CPUs s)) ++
    opt_doc "memory_mb" JInt (omit_zero (sx_MemoryMB s)) ++
    opt_doc "pids" JInt (omit_zero (sx_PIDs s)) ++
    opt_doc "egress" JString (omit_empty (sx_Egress s)) ++
    opt_doc "allow" (fun l => JArray (map JString l)) (match sx_Allow s with [] => None | l => Some l end) ++
    opt_doc "ports" (fun l => JArray (map port_doc l)) (match sx_Ports s with [] => None | l => Some l end)).

Definition dec_port (j : json) : option WorkspacePort :=
  match j with
  | JNull => Some (mkPort 0 EmptyString)
  | JObject l =>
      p ← field dec_int "port" l;
      n ← field dec_string "label" l;
      Some (mkPort (default 0 p) (default EmptyString n))
  | _ => None
  end.
Definition dec_list {T} (dec : json -> option T) (j : json) : option (list T) :=
  match j with JArray l => mapM dec l | _ => None end.

(** [json.Unmarshal] of the column. *)
(* @src internal/store/workspaces.go 235-237 scanWorkspace (its sandbox) *)
Definition read_sandbox (j : json) : option WorkspaceSandbox :=
  match j with
  | JNull => Some zeroSandbox
  | JObject l =>
      c ← field dec_float "cpus" l;
      m ← field dec_int "memory_mb" l;
      p ← field dec_int "pids" l;
      e ← field dec_string "egress" l;
      a ← field dec_strings "allow" l;
      ps ← field (dec_list dec_port) "ports" l;
      Some (mkSandbox (default f64_zero c) (default 0 m) (default 0 p) (default EmptyString e) (default [] a) (default [] ps))
  | _ => None
  end.

(* @src internal/server/sandbox.go 48-56 limitsBody *)
Record limitsBody := mkLimits { lb_CPUs : float64; lb_MemoryMB : Z; lb_PIDs : Z }.
(* @src internal/server/sandbox.go 58-66 egressBody *)
Record egressBody := mkEgress { eb_Mode : string; eb_Allow : list string }.
(* @src internal/server/sandbox.go 68-73 portBody *)
Record portBody := mkPortBody { po_Port : Z; po_Label : string }.
(* @src internal/server/sandbox.go 39-46 sandboxBody *)
Record sandboxBody := mkSandboxBody { xb_Limits : limitsBody; xb_Egress : egressBody; xb_Ports : list portBody }.
(* @src internal/server/sandbox.go 101-106 sandboxDefaults *)
Record sandboxDefaults := mkDefaults { df_Limits : limitsBody; df_Egress : egressBody }.

(** What a container is created and confined with. *)
(* @src internal/workspace/workspace.go 51-62 Confinement *)
Record Confinement := mkConfinement { cf_CPUs : float64; cf_MemoryBytes : Z; cf_PIDs : Z; cf_Proxied : bool }.

(* @src internal/server/sandbox.go 434-441 egressMode *)
Definition egressMode (sb : WorkspaceSandbox) : Mode := if String.eqb (sx_Egress sb) EmptyString then ModeOpen else sx_Egress sb.

(* @src internal/server/sandbox.go 422-432 confinement *)
Definition confinement (sb : WorkspaceSandbox) : Confinement :=
  mkConfinement (sx_CPUs sb) (wrap64 (Z.shiftl (sx_MemoryMB sb) 20)) (sx_PIDs sb) (Restricted (egressMode sb)).

(* @src internal/server/sandbox.go 443-456 fromBody *)
Definition fromBody (b : sandboxBody) : WorkspaceSandbox :=
  mkSandbox (lb_CPUs (xb_Limits b)) (lb_MemoryMB (xb_Limits b)) (lb_PIDs (xb_Limits b)) (eb_Mode (xb_Egress b)) (eb_Allow (xb_Egress b))
    (map (fun p => mkPort (po_Port p) (po_Label p)) (xb_Ports b)).

(* @src internal/server/sandbox.go 458-472 asSandbox *)
Definition asSandbox (sb : WorkspaceSandbox) : sandboxBody :=
  mkSandboxBody (mkLimits (sx_CPUs sb) (sx_MemoryMB sb) (sx_PIDs sb)) (mkEgress (egressMode sb) (sx_Allow sb))
    (map (fun p => mkPortBody (wp_Port p) (wp_Label p)) (sx_Ports sb)).

(* @src internal/server/sandbox.go 474-477 sandboxPort *)
Definition sandboxPort (sb : WorkspaceSandbox) (port : Z) : bool := existsb (fun p => wp_Port p =? port) (sx_Ports sb).

(* @src internal/server/sandbox.go 399-407 childSandbox *)
Definition childSandbox (parent : WorkspaceSandbox) : WorkspaceSandbox :=
  mkSandbox (sx_CPUs parent) (sx_MemoryMB parent) (sx_PIDs parent) (sx_Egress parent) (sx_Allow parent) [].

(* @src internal/server/sandbox.go 389-397 builtinSandboxDefaults *)
Definition builtinSandboxDefaults : sandboxDefaults :=
  mkDefaults (mkLimits f64_zero 0 defaultPIDs) (mkEgress ModeOpen DefaultAllowlist).

Definition ErrNoEgressControl : GoError :=
  ErrSentinel "restricting a sandbox's network needs the internal sandbox network, which this harness is not configured with".

Section sandbox.
(** [unicode.ToLower] outside ASCII, what the Docker host can give (its cores
    and its memory) when it can be asked, and whether it can restrict a
    sandbox's network. *)
Context (lower_rune : Z -> Z) (capacity : option (Z * Z)) (egress_control : bool).

(** ** Checks *)

Definition nan (f : float64) : bool := match f with S754_nan => true | _ => false end.

(* @src internal/server/sandbox.go 326-344 Server.checkLimits *)
Definition checkLimits (l : limitsBody) : option failure :=
  let '(cpus, memory) := default (2 ^ 31 - 1, 2 ^ 63 - 1) capacity in
  if negb (f64_is_zero (lb_CPUs l)) &&
     (nan (lb_CPUs l) || f64_ltb (lb_CPUs l) minCPUs || f64_ltb (f64_of_Z cpus) (lb_CPUs l))
  then Some (invalidf ("cpus must be 0 for no limit, or from 0.01 to the host's " +:+ itoa cpus +:+ " cores"))
  else if negb (lb_MemoryMB l =? 0) && ((lb_MemoryMB l <? minMemoryMB) || (Z.shiftr memory 20 <? lb_MemoryMB l))
  then Some (invalidf ("memory_mb must be 0 for no limit, or from " +:+ itoa minMemoryMB +:+ " to the host's " +:+
                       itoa (Z.shiftr memory 20) +:+ " MiB"))
  else if negb (lb_PIDs l =? 0) && ((lb_PIDs l <? minPIDs) || (maxPIDs <? lb_PIDs l))
  then Some (invalidf ("pids must be 0 for no limit, or from " +:+ itoa minPIDs +:+ " to " +:+ itoa maxPIDs))
  else None.

(** What [ValidPattern] says of a pattern it refuses. *)
Definition bad_shape (label : string) : bool :=
  match bytes_of label with
  | [] => true
  | b :: _ as l => (63 <? str_len label) || (b =? 45) || (List.last l 0 =? 45)
  end.
Definition pattern_error (p : string) : string :=
  let entry := "allowlist entry " +:+ go_quote p in
  if String.eqb p EmptyString || (maxPatternLength <? str_len p)
  then entry +:+ " must be a host name of 1 to " +:+ itoa maxPatternLength +:+ " characters"
  else match List.find (fun l => negb (valid_label l)) (split (trim_prefix p star_dot) dot) with
  | Some l => if bad_shape l then entry +:+ " is not a host name such as github.com or *.github.com"
              else entry +:+ " is not a lowercase host name such as github.com or *.github.com"
  | None => EmptyString
  end.

Fixpoint check_patterns (allow : list string) (ps : list string) : list string + failure :=
  match ps with
  | [] => inl allow
  | p :: ps' =>
      let p := to_lower lower_rune (trim_space p) in
      if ValidPattern p then check_patterns (if bool_decide (p ∈ allow) then allow else allow ++ [p]) ps'
      else inr (invalidf (pattern_error p))
  end.

(* @src internal/server/sandbox.go 346-367 checkEgress *)
Definition checkEgress (e : egressBody) : list string + failure :=
  match ParseMode (eb_Mode e) with
  | inr err => inr (invalidf (error_text err))
  | inl _ =>
      if MaxPatterns <? Z.of_nat (length (eb_Allow e))
      then inr (invalidf ("an allowlist holds at most " +:+ itoa MaxPatterns +:+ " hosts"))
      else check_patterns [] (eb_Allow e)
  end.

(** The ports with their labels trimmed; the label is measured before. *)
Fixpoint check_ports (seen : list Z) (ps : list portBody) : list portBody + failure :=
  match ps with
  | [] => inl []
  | p :: ps' =>
      let n := po_Port p in
      if (n <? 1) || (65535 <? n) then inr (invalidf ("port " +:+ itoa n +:+ " is not a port from 1 to 65535"))
      else if n =? daemonPort then inr (invalidf ("port " +:+ itoa n +:+ " is the sandbox daemon's own"))
      else if bool_decide (n ∈ seen) then inr (invalidf ("port " +:+ itoa n +:+ " is listed twice"))
      else if maxPortLabel <? str_len (po_Label p)
      then inr (invalidf ("the label of port " +:+ itoa n +:+ " is longer than " +:+ itoa maxPortLabel +:+ " characters"))
      else match check_ports (n :: seen) ps' with
           | inl ps' => inl (mkPortBody n (trim_space (po_Label p)) :: ps')
           | inr e => inr e
           end
  end.

(* @src internal/server/sandbox.go 288-321 Server.checkSandbox *)
Definition checkSandbox (b : sandboxBody) : WorkspaceSandbox + failure :=
  match checkLimits (xb_Limits b) with
  | Some e => inr e
  | None =>
      match checkEgress (xb_Egress b) with
      | inr e => inr e
      | inl allow =>
          if negb (String.eqb (eb_Mode (xb_Egress b)) ModeOpen) && negb egress_control then inr (Plain ErrNoEgressControl)
          else if maxPorts <? Z.of_nat (length (xb_Ports b))
          then inr (invalidf ("a workspace forwards at most " +:+ itoa maxPorts +:+ " ports"))
          else match check_ports [] (xb_Ports b) with
               | inr e => inr e
               | inl ports => inl (fromBody (mkSandboxBody (xb_Limits b) (mkEgress (eb_Mode (xb_Egress b)) allow) ports))
               end
      end
  end.

(** ** Defaults *)

Definition settingSandboxLimits : string := "sandbox_limits".
Definition settingSandboxEgress : string := "sandbox_egress".

Definition dec_limits (j : json) : option limitsBody :=
  match j with
  | JObject l =>
      c ← field dec_float "cpus" l; m ← field dec_int "memory_mb" l; p ← field dec_int "pids" l;
      Some (mkLimits (default f64_zero c) (default 0 m) (default 0 p))
  | _ => None
  end.
Definition dec_egress (j : json) : option egressBody :=
  match j with
  | JObject l =>
      m ← field dec_string "mode" l; a ← field dec_strings "allow" l;
      Some (mkEgress (default EmptyString m) (default [] a))
  | _ => None
  end.

(* @src internal/server/sandbox.go 369-387 Server.sandboxDefaults *)
Definition sandboxDefaultsOf (t : CDB) : sandboxDefaults :=
  let limits := default (df_Limits builtinSandboxDefaults) (readSetting dec_limits settingSandboxLimits t) in
  let e := match readSetting dec_egress settingSandboxEgress t with
    | Some e => match ParseMode (eb_Mode e) with inl _ => e | inr _ => df_Egress builtinSandboxDefaults end
    | None => df_Egress builtinSandboxDefaults
    end in
  mkDefaults limits e.

(* @src internal/server/sandbox.go 272-286 Server.newSandbox *)
Definition newSandbox (req : option sandboxBody) (t : CDB) : WorkspaceSandbox + failure :=
  match req with
  | Some b => checkSandbox b
  | None =>
      let d := sandboxDefaultsOf t in
      let sandbox := fromBody (mkSandboxBody (df_Limits d) (df_Egress d) []) in
      if Restricted (egressMode sandbox) && negb egress_control then inr (Plain ErrNoEgressControl) else inl sandbox
  end.

(** ** Rows *)

(** A workspace as it is read, with its sandbox decoded. *)
Definition sandbox_of_row (w : WorkspaceRow) : WorkspaceSandbox + failure :=
  match read_sandbox (ws_Sandbox w) with
  | Some sb => inl sb
  | None => inr (Plain (ErrText ("decode sandbox of workspace " +:+ ws_ID w)))
  end.

(* @src internal/server/sandbox.go 409-420 Server.sandboxOf *)
Definition sandboxOf (w : WorkspaceRow) (t : Tables) : WorkspaceSandbox + failure :=
  if String.eqb (ws_WorktreeOf w) EmptyString then sandbox_of_row w else
  match getWorkspace (ws_WorktreeOf w) t with
  | inl holder => sandbox_of_row holder
  | inr e => inr (Plain e)
  end.

(** [state] is what the Docker host says of the container, and [confine] what
    applying a confinement to it comes to. *)
Context (state : string -> string + GoError) (confine : string -> Confinement -> option GoError).

(* @src internal/server/sandbox.go 108-153 Server.handleSetWorkspaceSandbox *)
Definition handleSetWorkspaceSandbox (id : string) (req : sandboxBody) (t : Tables) : answer WorkspaceRow * Tables :=
  match getWorkspace id t with
  | inr e => (inr (Plain e), t)
  | inl ws =>
      if negb (String.eqb (ws_WorktreeOf ws) EmptyString)
      then (inr (conflictf ("workspace " +:+ ws_ID ws +:+ " is a worktree in workspace " +:+ ws_WorktreeOf ws +:+
                            ", whose sandbox it shares: change that one")), t)
      else match checkSandbox req with
      | inr e => (inr e, t)
      | inl sandbox =>
          match state (ws_ID ws) with
          | inr e => (inr (Plain e), t)
          | inl st =>
              if negb (String.eqb st "running") && negb (String.eqb st "stopped")
              then (inr (conflictf ("workspace " +:+ ws_ID ws +:+ " is " +:+ st)), t)
              else match SetWorkspaceSandbox (ws_ID ws) (sandbox_doc sandbox) t with
              | (inr e, t') => (inr (Plain e), t')
              | (inl ws', t') =>
                  match confine (ws_ID ws) (confinement sandbox) with
                  | Some e => (inr (Plain e), t')
                  | None => (inl (200, ws'), t')
                  end
              end
          end
      end
  end.

(** ** The egress proxy's question *)

(** The container's hub token, [inr true] when the host knows no such
    workspace. *)
Context (hub_token : string -> string + bool).

(* @src internal/server/sandbox.go 235-259 Server.proxyToken *)
Definition proxyToken (id : string) (tokens : gmap string string) : (string + bool) * gmap string string :=
  match tokens !! id with
  | Some token => (inl token, tokens)
  | None => match hub_token id with inl token => (inl token, <[id := token]> tokens) | inr unknown => (inr unknown, tokens) end
  end.

(* @src internal/server/sandbox.go 209-226 Server.EgressPolicy *)
Definition EgressPolicy (id : string) (t : Tables) (tokens : gmap string string) : (Policy + bool) * gmap string string :=
  match getWorkspace id t with
  | inr e => (inr (is_sentinel "not found" e), tokens)
  | inl ws =>
      match sandbox_of_row ws with
      | inr _ => (inr false, tokens)
      | inl sb =>
          match proxyToken id tokens with
          | (inr unknown, tokens') => (inr unknown, tokens')
          | (inl token, tokens') => (inl (mkPolicy token (egressMode sb) (sx_Allow sb)), tokens')
          end
      end
  end.

(* @src internal/server/sandbox.go 261-270 Server.forgetEgress *)
Definition forgetEgress (id : string) (tokens : gmap string string) (blocked : gmap string (list Blocked))
    : gmap string string * gmap string (list Blocked) := (delete id tokens, Forget id blocked).
End sandbox.
