(* ===== verification/ConfigurationClaims.v ===== *)
(** The laws of layers, and the claim about configuration: each value of a run is the one of the
    first layer that sets it, and names that layer. *)
From stdpp Require Import sorting.
From S2P Require Import Prelude GoStr Float64 Provider Sampling Failure Context Entries Tables Config.
From S2P Require Import Configuration.
From stdpp Require Import options.
Open Scope Z_scope.

(** ** Documents *)

Lemma doc_get_app k l1 l2 :
  doc_get k (l1 ++ l2) = match doc_get k l1 with Some j => Some j | None => doc_get k l2 end.
Proof. induction l1 as [|[k' j] l1 IH]; [done|]. cbn. by destruct (String.eqb k k'). Qed.

Lemma doc_get_opt {T} k k' (f : T -> json) o : doc_get k (opt_doc k' f o) = if String.eqb k k' then f <$> o else None.
Proof. destruct o; cbn; by destruct (String.eqb k k'). Qed.

Lemma doc_get_elem k l : is_Some (doc_get k l) <-> k ∈ map fst l.
Proof.
  induction l as [|[k' j] l IH]; cbn; [split; [by intros []|by intros ?%elem_of_nil]|].
  rewrite elem_of_cons. destruct (String.eqb_spec k k') as [->|]; [split; eauto|]. rewrite IH. split; [by right|by intros [|]].
Qed.

(** A parameter by its key, as its encoding has it. *)
Definition param (k : string) (s : Sampling) : option json := doc_get k (sampling_members s).

Lemma param_eq k s :
  param k s =
  if String.eqb k "temperature" then JFloat <$> Temperature s else
  if String.eqb k "top_p" then JFloat <$> TopP s else
  if String.eqb k "top_k" then JInt <$> TopK s else
  if String.eqb k "min_p" then JFloat <$> MinP s else
  if String.eqb k "frequency_penalty" then JFloat <$> FrequencyPenalty s else
  if String.eqb k "presence_penalty" then JFloat <$> PresencePenalty s else
  if String.eqb k "seed" then JInt <$> Seed s else
  if String.eqb k "stop" then (fun l => JArray (map JString l)) <$> Stop s else
  if String.eqb k "max_output" then JInt <$> MaxOutput s else
  if String.eqb k "reasoning_effort" then JString <$> ReasoningEffort s else None.
Proof.
  unfold param, sampling_members. rewrite !doc_get_app, !doc_get_opt.
  repeat (case_match; simplify_eq; try done); bool_lia;
    repeat match goal with H : String.eqb _ _ = true |- _ => apply String.eqb_eq in H end; simplify_eq; try done.
  all: by destruct s as [? ? ? ? ? ? ? [] ? ?].
Qed.

Lemma param_effort s : param "reasoning_effort" s = JString <$> ReasoningEffort s.
Proof. by rewrite param_eq. Qed.

Lemma layer_fmap {T} (f : T -> json) a b :
  f <$> layer a b = match f <$> a with Some j => Some j | None => f <$> b end.
Proof. by destruct a, b. Qed.

(** Layering, parameter by parameter. *)
Lemma param_Over k s lower : param k (Over s lower) = match param k s with Some j => Some j | None => param k lower end.
Proof.
  rewrite !param_eq. cbn [Over Temperature TopP TopK MinP FrequencyPenalty PresencePenalty Seed Stop MaxOutput ReasoningEffort].
  repeat (destruct (String.eqb k _); [first [by rewrite layer_fmap | by destruct (Stop s)]|]). done.
Qed.

Definition finite_sampling (s : Sampling) : Prop := is_Some (marshal_sampling s).

Lemma marshal_finite s : finite_sampling s -> marshal_sampling s = Some (JObject (sampling_members s)).
Proof. intros [j Hj]. unfold marshal_sampling in *. by destruct (_ && _). Qed.

Lemma finite_fields s :
  finite_sampling s <->
  finite_or_nil (Temperature s) = true /\ finite_or_nil (TopP s) = true /\ finite_or_nil (MinP s) = true /\
  finite_or_nil (FrequencyPenalty s) = true /\ finite_or_nil (PresencePenalty s) = true.
Proof.
  unfold finite_sampling, marshal_sampling. rewrite <- !andb_true_iff.
  destruct (finite_or_nil (Temperature s)), (finite_or_nil (TopP s)), (finite_or_nil (MinP s)),
    (finite_or_nil (FrequencyPenalty s)), (finite_or_nil (PresencePenalty s)); cbn; split; try done; try by intros []; eauto.
Qed.

Lemma samplingKeys_spec k s : finite_sampling s -> k ∈ samplingKeys s <-> is_Some (param k s).
Proof.
  intros H. unfold samplingKeys. rewrite (marshal_finite s H), merge_sort_Permutation. symmetry. apply doc_get_elem.
Qed.

Lemma finite_layer a b : finite_or_nil a = true -> finite_or_nil b = true -> finite_or_nil (layer a b) = true.
Proof. by destruct a, b. Qed.

Lemma finite_Over s lower : finite_sampling s -> finite_sampling lower -> finite_sampling (Over s lower).
Proof. rewrite !finite_fields. intros (? & ? & ? & ? & ?) (? & ? & ? & ? & ?). cbn. eauto 10 using finite_layer. Qed.

Lemma finite_foldr row ss : finite_sampling row -> Forall finite_sampling ss -> finite_sampling (foldr Over row ss).
Proof. intros Hr. induction 1; [done|]. by apply finite_Over. Qed.

Lemma finite_modelSampling m : finite_sampling (modelSampling m).
Proof. by apply finite_fields. Qed.

Lemma field_float k l o : field dec_float k l = Some o -> finite_or_nil o = true.
Proof.
  unfold field. intros H. repeat (case_match; simplify_eq/=; try done).
  all: match goal with H : dec_float _ = Some _ |- _ => unfold dec_float in H end; repeat (case_match; simplify_eq/=; try done).
Qed.

Lemma unmarshal_finite j s : unmarshal_sampling j = Some s -> finite_sampling s.
Proof.
  intros H. apply finite_fields. unfold unmarshal_sampling in H. destruct j; try done; [by injection H as <-|].
  repeat match goal with H : (?m ≫= _) = Some _ |- _ => destruct m eqn:?; cbn in H; [|done] end.
  injection H as <-. cbn. eauto 10 using field_float.
Qed.

(** The parameters whose integers are machine integers, as decoded ones are. *)
Definition typed_sampling (s : Sampling) : bool :=
  match TopK s with Some k => int64 k | None => true end && match Seed s with Some k => int64 k | None => true end &&
  match MaxOutput s with Some k => int64 k | None => true end.

Lemma field_dec {T} (dec : json -> option T) (f : T -> json) k l o :
  doc_get k l = f <$> o -> (forall v, o = Some v -> dec (f v) = Some v /\ f v <> JNull) -> field dec k l = Some o.
Proof.
  intros H Hv. unfold field. rewrite H. destruct o as [v|]; [|done]. destruct (Hv v eq_refl) as [Hd Hn]. cbn.
  rewrite Hd. by destruct (f v).
Qed.

Lemma dec_strings_map l : dec_strings (JArray (map JString l)) = Some l.
Proof. cbn. induction l as [|x l IH]; [done|]. cbn. by rewrite IH. Qed.

(** What is stored decodes to what was set. *)
Lemma unmarshal_members s :
  finite_sampling s -> typed_sampling s = true -> unmarshal_sampling (JObject (sampling_members s)) = Some s.
Proof.
  intros Hf Ht. apply finite_fields in Hf as (? & ? & ? & ? & ?). unfold typed_sampling in Ht.
  apply andb_true_iff in Ht as [[? ?]%andb_true_iff ?].
  assert (Hg : forall k, doc_get k (sampling_members s) = param k s) by done.
  unfold unmarshal_sampling.
  rewrite (field_dec dec_float JFloat "temperature" _ (Temperature s)),
    (field_dec dec_float JFloat "top_p" _ (TopP s)), (field_dec dec_int JInt "top_k" _ (TopK s)),
    (field_dec dec_float JFloat "min_p" _ (MinP s)), (field_dec dec_float JFloat "frequency_penalty" _ (FrequencyPenalty s)),
    (field_dec dec_float JFloat "presence_penalty" _ (PresencePenalty s)), (field_dec dec_int JInt "seed" _ (Seed s)),
    (field_dec dec_strings (fun l => JArray (map JString l)) "stop" _ (Stop s)),
    (field_dec dec_int JInt "max_output" _ (MaxOutput s)),
    (field_dec dec_string JString "reasoning_effort" _ (ReasoningEffort s)); cbn; [by destruct s|..].
  all: try (rewrite Hg, param_eq; reflexivity).
  all: intros v Hv; try (rewrite Hv in *); cbn in *.
  all: split; [|done]; try (by match goal with H : _ = true |- _ => rewrite H end); try apply dec_strings_map; done.
Qed.

(** ** The first layer that sets a value *)

Fixpoint first_set {T} (get : configLayer -> option T) (layers : list configLayer) : option (T * string) :=
  match layers with
  | [] => None
  | l :: below => match get l with Some v => Some (v, cl_name l) | None => first_set get below end
  end.

(** A value and where it came from, or what it is when no layer sets it. *)
Definition or_below {T} (o : option (T * string)) (d : T) (src : option string) : T * option string :=
  match o with Some (v, n) => (v, Some n) | None => (d, src) end.
Definition value_of {T} (get : configLayer -> option T) (layers : list configLayer) (d : T) : T * option string :=
  or_below (first_set get layers) d (Some layerDefault).

Definition chooses (b : configBase) (l : configLayer) : option ModelRow :=
  if String.eqb (ps_ModelID (cl_settings l)) EmptyString then None else model b (ps_ModelID (cl_settings l)).

Lemma lookup_set_opt {T} (o : option T) k n (m : gmap string string) k' :
  match o with Some _ => set_source k n m | None => m end !! k' =
  if String.eqb k k' then match o with Some _ => Some n | None => m !! k' end else m !! k'.
Proof.
  unfold set_source. destruct (String.eqb_spec k k') as [<-|Hne]; destruct o; try done; [apply lookup_insert_eq|].
  by rewrite lookup_insert_ne.
Qed.

(** A field of the configuration that a layer sets, with its source. *)
Definition layered {T} (b : configBase) (val : runConfig -> option bool -> T) (get : configLayer -> option T) (key : string)
    : Prop :=
  forall l c p c' p', read_layer b l c p = (c', p') ->
  (val c' p', rc_sources c' !! key) =
  match get l with Some v => (v, Some (cl_name l)) | None => (val c p, rc_sources c !! key) end.

Lemma read_layers_field {T} b (val : runConfig -> option bool -> T) get key layers c r :
  layered b val get key -> read_layers b layers c = inl r ->
  (val (rd_config r) (rd_preserve r), rc_sources (rd_config r) !! key) =
  or_below (first_set get layers) (val c None) (rc_sources c !! key).
Proof.
  intros Hl. revert r. induction layers as [|l layers IH]; intros r H; cbn [read_layers] in H; [by injection H as <-|].
  destruct (read_layers b layers c) as [r0|e]; [|done]. specialize (IH r0 eq_refl).
  destruct (read_layer b l _ _) as [c' p'] eqn:E. destruct (layer_sampling l); [|done].
  injection H as <-. cbn [rd_config rd_preserve first_set]. rewrite (Hl _ _ _ _ _ E). by destruct (get l).
Qed.

Lemma read_layers_samplings b layers c r :
  read_layers b layers c = inl r -> Forall2 (fun l s => layer_sampling l = Some s) layers (rd_samplings r).
Proof.
  revert r. induction layers as [|l layers IH]; intros r H; cbn [read_layers] in H; [injection H as <-; constructor|].
  destruct (read_layers b layers c) as [r0|e]; [|done]. destruct (read_layer b l _ _). destruct (layer_sampling l) eqn:E; [|done].
  injection H as <-. constructor; [done|by apply IH].
Qed.

(** Reading succeeds when every layer's parameters decode. *)
Lemma read_layers_ok b layers c :
  Forall (fun l => is_Some (layer_sampling l)) layers -> exists r, read_layers b layers c = inl r.
Proof.
  induction 1 as [|l layers [s Hs] _ [r IH]]; cbn; [eauto|]. rewrite IH. destruct (read_layer b l (rd_config r) (rd_preserve r)). rewrite Hs. eauto.
Qed.

Ltac layered_tac :=
  intros l c p c' p' E; unfold read_layer in E; injection E as <- <-;
  cbn [rc_model rc_modelOK rc_sources rc_workspacePrompt rc_chatPrompt rc_instructions rc_contextFiles rc_tools rc_profile
    rc_profileSource rc_preserveThinking];
  rewrite ?lookup_set_opt; cbn [String.eqb Ascii.eqb Bool.eqb].

Section fields.
Context (b : configBase).

Lemma layered_model : layered b (fun c _ => rc_model c) (chooses b) "model".
Proof. layered_tac. unfold chooses. by repeat case_match. Qed.
Lemma layered_modelOK : layered b (fun c _ => rc_modelOK c) (fun l => (fun _ => true) <$> chooses b l) "model".
Proof. layered_tac. unfold chooses. destruct (String.eqb _ _); [done|]. by destruct (model _ _). Qed.
Lemma layered_workspacePrompt :
  layered b (fun c _ => rc_workspacePrompt c) (fun l => Some <$> ps_WorkspacePrompt (cl_settings l)) "workspace_prompt".
Proof. layered_tac. by destruct (ps_WorkspacePrompt _). Qed.
Lemma layered_chatPrompt :
  layered b (fun c _ => rc_chatPrompt c) (fun l => Some <$> ps_ChatPrompt (cl_settings l)) "chat_prompt".
Proof. layered_tac. by destruct (ps_ChatPrompt _). Qed.
Lemma layered_instructions :
  layered b (fun c _ => rc_instructions c) (fun l => ps_Instructions (cl_settings l)) "instructions".
Proof. layered_tac. by destruct (ps_Instructions _). Qed.
Lemma layered_contextFiles :
  layered b (fun c _ => rc_contextFiles c) (fun l => ps_ContextFiles (cl_settings l)) "context_files".
Proof. layered_tac. by destruct (ps_ContextFiles _). Qed.
Lemma layered_preserve :
  layered b (fun _ p => p) (fun l => Some <$> ps_PreserveThinking (cl_settings l)) "preserve_thinking".
Proof. layered_tac. by destruct (ps_PreserveThinking _). Qed.
Lemma layered_tools : layered b (fun c _ => rc_tools c) (fun l => Some <$> cl_tools l) "tools".
Proof. layered_tac. by destruct (cl_tools _). Qed.
Lemma layered_profile : layered b (fun c _ => (rc_profile c, rc_profileSource c)) (fun _ => None) sourceProfile.
Proof. by layered_tac. Qed.
Lemma layered_sampling k : layered b (fun c _ => rc_preserveThinking c) (fun _ => None) (samplingSource +:+ k).
Proof. by layered_tac. Qed.
End fields.

(** ** The sampling parameters *)

(** What a layer sets of a parameter. *)
Definition layer_param (k : string) (l : configLayer) : option json := layer_sampling l ≫= param k.
Definition layer_effort (l : configLayer) : option string := layer_sampling l ≫= ReasoningEffort.

Abbreviation samples := (Forall2 (fun l s => layer_sampling l = Some s)).

Lemma layer_sampling_finite l s : layer_sampling l = Some s -> finite_sampling s.
Proof.
  unfold layer_sampling. destruct (ps_Sampling _); [apply unmarshal_finite|]. intros [= <-]. by apply finite_fields.
Qed.

Lemma read_finite layers ss  :
  samples layers ss -> Forall finite_sampling ss.
Proof. induction 1; constructor; eauto using layer_sampling_finite. Qed.

Lemma param_foldr layers ss k row :
  samples layers ss ->
  param k (foldr Over row ss) = match first_set (layer_param k) layers with Some (j, _) => Some j | None => param k row end.
Proof.
  induction 1 as [|l s ls ss' Hl _ IH]; [done|]. cbn [foldr first_set]. rewrite param_Over, IH.
  unfold layer_param at 2. rewrite Hl. cbn. by destruct (param k s).
Qed.

Lemma effort_foldr layers ss row :
  samples layers ss ->
  ReasoningEffort (foldr Over row ss) =
  match first_set layer_effort layers with Some (e, _) => Some e | None => ReasoningEffort row end.
Proof.
  induction 1 as [|l s ls ss' Hl _ IH]; [done|]. cbn [foldr first_set Over ReasoningEffort]. rewrite IH.
  unfold layer_effort at 2. rewrite Hl. cbn. destruct (ReasoningEffort s); [done|]. by rewrite layer_None_l.
Qed.

Lemma key_source_first layers ss k :
  samples layers ss ->
  key_source layers ss k = match first_set (layer_param k) layers with Some (_, n) => n | None => layerModel end.
Proof.
  unfold key_source. induction 1 as [|l s ls ss' Hl _ IH]; [done|]. cbn [combine List.find first_set snd].
  unfold layer_param at 1. rewrite Hl. cbn [mbind option_bind].
  pose proof (samplingKeys_spec k s (layer_sampling_finite l s Hl)) as Hk.
  destruct (param k s) as [j|].
  - by rewrite bool_decide_true by (apply Hk; eauto).
  - rewrite bool_decide_false by (rewrite Hk; by intros []). exact IH.
Qed.

Lemma first_effort_source layers ss  :
  samples layers ss ->
  snd <$> first_set (layer_param "reasoning_effort") layers = snd <$> first_set layer_effort layers.
Proof.
  induction 1 as [|l s ls ss' Hl _ IH]; [done|]. cbn [first_set]. unfold layer_param at 1, layer_effort at 1. rewrite Hl.
  cbn [mbind option_bind]. rewrite param_effort. by destruct (ReasoningEffort s).
Qed.

Lemma fold_sources (ks : string -> string) keys (m : gmap string string) k :
  foldl (fun m key => set_source (samplingSource +:+ key) (ks key) m) m keys !! (samplingSource +:+ k) =
  if bool_decide (k ∈ keys) then Some (ks k) else m !! (samplingSource +:+ k).
Proof.
  revert m. induction keys as [|key keys IH]; intros m; cbn [foldl]; [by rewrite bool_decide_false by apply not_elem_of_nil|].
  rewrite IH. destruct (decide (k ∈ keys)) as [Hk|Hk].
  - rewrite !bool_decide_true by (try apply elem_of_cons; auto). done.
  - rewrite (bool_decide_false (k ∈ keys)) by done. unfold set_source. destruct (decide (key = k)) as [->|Hne].
    + rewrite lookup_insert_eq, bool_decide_true by (apply elem_of_cons; auto). done.
    + rewrite lookup_insert_ne by (intros E; apply Hne; by apply (inj (String.append samplingSource)) in E).
      by rewrite bool_decide_false by (rewrite elem_of_cons; intros [|]; congruence).
Qed.

Lemma fold_sources_other (ks : string -> string) keys (m : gmap string string) x :
  (forall k, samplingSource +:+ k <> x) ->
  foldl (fun m key => set_source (samplingSource +:+ key) (ks key) m) m keys !! x = m !! x.
Proof.
  intros Hx. revert m. induction keys as [|key keys IH]; intros m; cbn [foldl]; [done|]. rewrite IH. unfold set_source.
  by rewrite lookup_insert_ne.
Qed.

(** Whether the model takes a reasoning effort, which a deployment without
    models never says. *)
Definition offered (c : runConfig) (e : string) : bool :=
  String.eqb e EmptyString || negb (rc_modelOK c) || bool_decide (e ∈ m_ReasoningEfforts (rc_model c)).

(** A configuration as its layers determine it. *)
Record resolution (b : configBase) (layers : list configLayer) (c : runConfig) : Prop := {
  res_model : (rc_model c, rc_sources c !! "model") = value_of (chooses b) layers (b_defaultModel b);
  res_workspace_prompt : (rc_workspacePrompt c, rc_sources c !! "workspace_prompt") =
    value_of (fun l => Some <$> ps_WorkspacePrompt (cl_settings l)) layers None;
  res_chat_prompt : (rc_chatPrompt c, rc_sources c !! "chat_prompt") =
    value_of (fun l => Some <$> ps_ChatPrompt (cl_settings l)) layers None;
  res_instructions : (rc_instructions c, rc_sources c !! "instructions") =
    value_of (fun l => ps_Instructions (cl_settings l)) layers EmptyString;
  res_context_files : (rc_contextFiles c, rc_sources c !! "context_files") =
    value_of (fun l => ps_ContextFiles (cl_settings l)) layers true;
  res_tools : (rc_tools c, rc_sources c !! "tools") = value_of (fun l => Some <$> cl_tools l) layers None;
  res_preserve : (rc_preserveThinking c, rc_sources c !! "preserve_thinking") =
    or_below (first_set (fun l => ps_PreserveThinking (cl_settings l)) layers)
      (rc_modelOK c && m_PreserveThinking (rc_model c)) (Some (if rc_modelOK c then layerModel else layerDefault));
  res_sampling : forall k, k <> "reasoning_effort" ->
    (param k (rc_sampling c), rc_sources c !! (samplingSource +:+ k)) =
    match first_set (layer_param k) layers with
    | Some (j, n) => (Some j, Some n)
    | None => (param k (modelSampling (rc_model c)), (fun _ => layerModel) <$> param k (modelSampling (rc_model c)))
    end;
  res_effort :
    let row := ReasoningEffort (modelSampling (rc_model c)) in
    (ReasoningEffort (rc_sampling c), rc_sources c !! effortKey, rc_droppedEffort c) =
    match first_set layer_effort layers with
    | Some (e, n) =>
        if offered c e then (Some e, Some n, EmptyString) else (row, (fun _ => layerModel) <$> row, e)
    | None => (row, (fun _ => layerModel) <$> row, EmptyString)
    end;
}.

Lemma pair_fst_snd {A B} (x : A) (y : B) p : (x, y) = p -> x = p.1 /\ y = p.2.
Proof. by intros <-. Qed.

Lemma first_set_Some {T} (get : configLayer -> option T) layers :
  first_set (fun l => Some <$> get l) layers = (fun p => (Some p.1, p.2)) <$> first_set get layers.
Proof. induction layers as [|l layers IH]; [done|]. cbn. destruct (get l); [done|exact IH]. Qed.

Lemma first_set_name {T} (get : configLayer -> option T) layers v n :
  Forall (fun l => cl_name l <> layerModel) layers -> first_set get layers = Some (v, n) -> n <> layerModel.
Proof.
  induction 1 as [|l ls Hl _ IH]; cbn; [done|]. destruct (get l); [by intros [= _ <-]|exact IH].
Qed.

Section resolve.
Context (b : configBase) (profile : ProfileRow) (source : string) (layers : list configLayer) (r : reading).
Context (Hr : read_layers b layers (start b profile source) = inl r).
#[local] Set Default Proof Using "Type".

(** The sources before the sampling parameters have theirs. *)
Definition plain_sources : gmap string string :=
  match rd_preserve r with
  | Some _ => rc_sources (rd_config r)
  | None => set_source "preserve_thinking" (if rc_modelOK (rd_config r) then layerModel else layerDefault)
              (rc_sources (rd_config r))
  end.

Definition row_sampling : Sampling := modelSampling (rc_model (rd_config r)).
Definition full_sampling : Sampling := foldr Over row_sampling (rd_samplings r).
Definition full_sources : gmap string string :=
  foldl (fun m key => set_source (samplingSource +:+ key) (key_source layers (rd_samplings r) key) m) plain_sources
    (samplingKeys full_sampling).

(** Whether the effort of the layers is left out. *)
Definition drops (e : string) : bool :=
  negb (String.eqb e EmptyString) && negb (bool_decide (full_sources !! effortKey = Some layerModel)) &&
  rc_modelOK (rd_config r) && negb (bool_decide (e ∈ m_ReasoningEfforts (rc_model (rd_config r)))).

Lemma sampled_eq :
  sampled layers r =
  let c := rd_config r in
  let dropped := match ReasoningEffort full_sampling with Some e => drops e | None => false end in
  mkRunConfig (rc_profile c) (rc_profileSource c) (rc_model c) (rc_modelOK c) (rc_workspacePrompt c) (rc_chatPrompt c)
    (rc_instructions c) (rc_contextFiles c)
    (match rd_preserve r with
     | Some p => p
     | None => if rc_modelOK c then m_PreserveThinking (rc_model c) else rc_preserveThinking c
     end) (rc_tools c)
    (if dropped then with_effort (ReasoningEffort row_sampling) full_sampling else full_sampling)
    (if dropped then default EmptyString (ReasoningEffort full_sampling) else EmptyString)
    (if dropped
     then match ReasoningEffort row_sampling with
          | Some _ => set_source effortKey layerModel (delete effortKey full_sources)
          | None => delete effortKey full_sources
          end
     else full_sources).
Proof.
  unfold sampled, drops, full_sources, plain_sources, full_sampling, row_sampling.
  destruct (rd_preserve r); [|destruct (rc_modelOK (rd_config r))]; cbv zeta;
    destruct (ReasoningEffort (foldr Over _ _)); try done; match goal with |- context [if ?c then with_effort _ _ else _] => by destruct c end.
Qed.

Lemma full_sources_other x : (forall k, samplingSource +:+ k <> x) -> full_sources !! x = plain_sources !! x.
Proof. apply fold_sources_other. Qed.

Lemma sampled_source x :
  (forall k, samplingSource +:+ k <> x) -> rc_sources (sampled layers r) !! x = plain_sources !! x.
Proof.
  intros Hx. rewrite sampled_eq. cbn [rc_sources]. rewrite <- full_sources_other by done.
  pose proof (Hx "reasoning_effort") as Hne. change (samplingSource +:+ "reasoning_effort") with effortKey in Hne.
  unfold set_source. destruct (ReasoningEffort full_sampling) as [e|]; [|done]. destruct (drops e); [|done].
  destruct (ReasoningEffort row_sampling); rewrite ?lookup_insert_ne, lookup_delete_ne by done; done.
Qed.

(** What a field says of the layers survives the rest. *)
Lemma plain_source_ne x : "preserve_thinking" <> x -> plain_sources !! x = rc_sources (rd_config r) !! x.
Proof. intros Hx. unfold plain_sources, set_source. destruct (rd_preserve r); [done|]. by rewrite lookup_insert_ne. Qed.

Lemma sampled_field {T} (val : runConfig -> option bool -> T) get key (d : T) s0 :
  layered b val get key -> (forall k, samplingSource +:+ k <> key) -> "preserve_thinking" <> key ->
  val (sampled layers r) (rd_preserve r) = val (rd_config r) (rd_preserve r) ->
  val (start b profile source) None = d -> rc_sources (start b profile source) !! key = s0 ->
  (val (sampled layers r) (rd_preserve r), rc_sources (sampled layers r) !! key) = or_below (first_set get layers) d s0.
Proof using Hr.
  intros Hl Hk Hp Hv Hd Hs. rewrite sampled_source, plain_source_ne, Hv by done.
  rewrite (read_layers_field b val get key layers _ r Hl Hr). by rewrite Hd, Hs.
Qed.

Lemma plain_sampling k : plain_sources !! (samplingSource +:+ k) = None.
Proof using Hr.
  rewrite plain_source_ne by done.
  pose proof (read_layers_field b _ _ _ layers _ r (layered_sampling b k) Hr) as H. apply pair_fst_snd in H as [_ H].
  rewrite H. clear. assert (Hn : first_set (fun _ => @None bool) layers = None) by (by induction layers). by rewrite Hn.
Qed.

Lemma full_finite : finite_sampling full_sampling.
Proof using Hr.
  apply finite_foldr; [apply finite_modelSampling|]. eapply read_finite, read_layers_samplings, Hr.
Qed.

(** A parameter as the layers and the row below them give it. *)
Lemma full_param k :
  (param k full_sampling, full_sources !! (samplingSource +:+ k)) =
  match first_set (layer_param k) layers with
  | Some (j, n) => (Some j, Some n)
  | None => (param k row_sampling, (fun _ => layerModel) <$> param k row_sampling)
  end.
Proof using Hr.
  pose proof (read_layers_samplings _ _ _ _ Hr) as Hs. unfold full_sources at 1. rewrite fold_sources, plain_sampling.
  rewrite (key_source_first _ _ k Hs). pose proof (samplingKeys_spec k full_sampling full_finite) as Hk.
  assert (Hp := param_foldr _ _ k row_sampling Hs). change (foldr _ _ _) with full_sampling in Hp.
  destruct (first_set (layer_param k) layers) as [[j n]|].
  - rewrite Hp in Hk |- *. by rewrite bool_decide_true by (apply Hk; eauto).
  - rewrite Hp in Hk |- *. destruct (param k row_sampling) as [j|]; cbn.
    + by rewrite bool_decide_true by (apply Hk; eauto).
    + by rewrite bool_decide_false by (rewrite Hk; by intros []).
Qed.
End resolve.

Lemma resolve_reads b profile source layers c :
  resolve b profile source layers = inl c ->
  exists r, read_layers b layers (start b profile source) = inl r /\ c = sampled layers r.
Proof. unfold resolve. destruct (read_layers _ _ _) as [r|]; [|done]. intros [= <-]. eauto. Qed.

Lemma sampled_effort b profile source layers r :
  read_layers b layers (start b profile source) = inl r -> Forall (fun l => cl_name l <> layerModel) layers ->
  let c := sampled layers r in
  let row := ReasoningEffort (modelSampling (rc_model c)) in
  (ReasoningEffort (rc_sampling c), rc_sources c !! effortKey, rc_droppedEffort c) =
  match first_set layer_effort layers with
  | Some (e, n) => if offered c e then (Some e, Some n, EmptyString) else (row, (fun _ => layerModel) <$> row, e)
  | None => (row, (fun _ => layerModel) <$> row, EmptyString)
  end.
Proof.
  intros Hr Hn. cbv zeta.
  pose proof (full_param b profile source layers r Hr "reasoning_effort") as Hp. apply pair_fst_snd in Hp as [_ Hsrc].
  pose proof (read_layers_samplings _ _ _ _ Hr) as Hs.
  pose proof (effort_foldr _ _ (row_sampling r) Hs) as He. change (foldr _ _ _) with (full_sampling r) in He.
  pose proof (first_effort_source _ _ Hs) as Hsame. rewrite param_effort in Hsrc.
  change (samplingSource +:+ "reasoning_effort") with effortKey in Hsrc.
  rewrite sampled_eq. cbn [rc_sampling rc_sources rc_model rc_droppedEffort rc_modelOK]. unfold offered.
  cbn [rc_sampling rc_sources rc_model rc_droppedEffort rc_modelOK]. fold (row_sampling r). rewrite He.
  destruct (first_set layer_effort layers) as [[e n]|] eqn:Ef.
  - pose proof (first_set_name _ _ _ _ Hn Ef) as Hname.
    destruct (first_set (layer_param "reasoning_effort") layers) as [[j n']|]; [|done]. cbn in Hsame. injection Hsame as ->.
    cbn in Hsrc. unfold drops. rewrite Hsrc. rewrite (bool_decide_false (Some n = Some layerModel)) by congruence. cbn [negb].
    destruct (String.eqb e EmptyString), (rc_modelOK (rd_config r)),
      (bool_decide (e ∈ m_ReasoningEfforts (rc_model (rd_config r)))); cbn; rewrite ?He, ?Hsrc; try done.
    unfold set_source. destruct (String.eqb (m_ReasoningEffort (rc_model (rd_config r))) EmptyString); cbn;
      by rewrite ?lookup_insert_eq, ?lookup_delete_eq.
  - destruct (first_set (layer_param "reasoning_effort") layers) as [[j n']|]; [done|].
    destruct (ReasoningEffort (row_sampling r)) as [e|]; cbn in Hsrc.
    + unfold drops. rewrite Hsrc. rewrite bool_decide_true by done. cbn [negb]. rewrite andb_false_r. cbn. by rewrite He, Hsrc.
    + cbn. by rewrite He, Hsrc.
Qed.

(** the loop over the layers from the bottom up, and the one over the
    sampling parameters, give each value of a run's configuration the value of
    the first layer from the top that sets it, and record that layer's name as
    its source: the model, both base prompts, the instructions, the context
    files, the tools, the replaying of reasoning, and every sampling
    parameter. What no layer sets comes from the model row, or is the default.
    A reasoning effort of a layer is sent only when it is empty or the model
    offers it; otherwise it is reported as dropped and the row's own is
    sent. *)
Theorem resolve_takes_first_layer b profile source layers c :
  Forall (fun l => cl_name l <> layerModel) layers ->
  resolve b profile source layers = inl c -> resolution b layers c.
Proof.
  intros Hn (r & Hr & ->)%resolve_reads.
  assert (Hne : forall x, has_prefix x samplingSource = false -> forall k, samplingSource +:+ k <> x).
  { intros x Hx k <-. unfold has_prefix in Hx. by rewrite prefix_app in Hx. }
  assert (Hpre : forall {T} (get : configLayer -> option T) d s, or_below (first_set (fun l => Some <$> get l) layers) d s =
    match first_set get layers with Some (v, n) => (Some v, Some n) | None => (d, s) end).
  { intros T get d s. rewrite first_set_Some. by destruct (first_set get layers) as [[]|]. }
  constructor.
  - apply (sampled_field b profile source layers r Hr _ _ _ _ _ (layered_model b)); [by apply Hne|done|by rewrite sampled_eq|done|reflexivity].
  - apply (sampled_field b profile source layers r Hr _ _ _ _ _ (layered_workspacePrompt b)); [by apply Hne|done|by rewrite sampled_eq|done|reflexivity].
  - apply (sampled_field b profile source layers r Hr _ _ _ _ _ (layered_chatPrompt b)); [by apply Hne|done|by rewrite sampled_eq|done|reflexivity].
  - apply (sampled_field b profile source layers r Hr _ _ _ _ _ (layered_instructions b)); [by apply Hne|done|by rewrite sampled_eq|done|reflexivity].
  - apply (sampled_field b profile source layers r Hr _ _ _ _ _ (layered_contextFiles b)); [by apply Hne|done|by rewrite sampled_eq|done|reflexivity].
  - apply (sampled_field b profile source layers r Hr _ _ _ _ _ (layered_tools b)); [by apply Hne|done|by rewrite sampled_eq|done|reflexivity].
  - rewrite sampled_source by (by apply Hne). rewrite sampled_eq. cbn [rc_preserveThinking rc_modelOK rc_model].
    pose proof (read_layers_field b _ _ _ layers _ r (layered_preserve b) Hr) as H. rewrite Hpre in H.
    pose proof (read_layers_field b _ _ _ layers _ r (layered_sampling b EmptyString) Hr) as H'.
    apply pair_fst_snd in H' as [H' _]. assert (Hnone : first_set (fun _ => @None bool) layers = None) by (clear; by induction layers).
    rewrite Hnone in H'. cbn in H'. unfold plain_sources.
    destruct (first_set _ layers) as [[v n]|]; cbn [or_below] in *; injection H as Hp Hsrc; rewrite Hp; [by rewrite Hsrc|].
    unfold set_source. rewrite lookup_insert_eq. destruct (rc_modelOK (rd_config r)); [done|]. by rewrite H'.
  - intros k Hk. rewrite sampled_eq. cbn [rc_sampling rc_sources rc_model].
    etrans; [|exact (full_param b profile source layers r Hr k)].
    assert (Hkey : samplingSource +:+ k <> effortKey) by (intros E; apply Hk; by apply (inj (String.append samplingSource)) in E).
    destruct (ReasoningEffort (full_sampling r)) as [e|]; [|done]. destruct (drops layers r e); [|done].
    f_equal; [rewrite !param_eq; cbn [with_effort Temperature TopP TopK MinP FrequencyPenalty PresencePenalty Seed Stop MaxOutput ReasoningEffort];
      by rewrite (proj2 (String.eqb_neq k "reasoning_effort") Hk)|].
    unfold set_source. destruct (ReasoningEffort (row_sampling r)); by rewrite ?lookup_insert_ne, lookup_delete_ne by done.
  - by eapply sampled_effort.
Qed.

Lemma resolve_takes_first_layer_witness :
  let m := mkModel "m1" "p1" "small" "small-1" 8000 1000 "low" ["low"; "high"]%string "reasoning_effort" true false 1 in
  let b := mkBase [m] m [] zeroProfile in
  let session := mkLayer layerSession
    (mkSettings EmptyString None None (Some "Be brief."%string) None None
       (Some (JObject [("top_k", JInt 20); ("reasoning_effort", JString "max")]))) None in
  let profile := mkLayer layerProfile
    (mkSettings "m1" None None (Some "Be long."%string) None None (Some (JObject [("top_k", JInt 40)]))) (Some ["read"%string]) in
  exists c, resolve b zeroProfile layerDefault [session; profile] = inl c /\ resolution b [session; profile] c /\
    rc_instructions c = "Be brief."%string /\ rc_sources c !! (samplingSource +:+ "top_k") = Some layerSession /\
    rc_droppedEffort c = "max"%string.
Proof.
  cbv zeta. eexists. split; [vm_compute; reflexivity|]. split; [|by vm_compute].
  eapply resolve_takes_first_layer; [|vm_compute; reflexivity]. repeat constructor; discriminate.
Defined.
