(* ===== verification/SandboxClaims.v ===== *)
(** The claims about sandboxes: what is checked is what is stored, applied and
    asked for, and the default allowlist that is not put in the form a host is
    compared with. *)
From Stdlib Require Import Floats.SpecFloat.
From S2P Require Import Prelude GoStr Float64 Failure Addr Net Entries Tables Config Configuration.
From S2P Require Import ConfigurationClaims Api Sandbox.
From stdpp Require Import options.
Open Scope Z_scope.

Section claims.
Context (lower_rune : Z -> Z) (capacity : option (Z * Z)) (egress_control : bool).
#[local] Set Default Proof Using "Type".

(** A sandbox a container can be given: what the checks let through. *)
Record sound (sb : WorkspaceSandbox) : Prop := {
  sound_limits : checkLimits capacity (mkLimits (sx_CPUs sb) (sx_MemoryMB sb) (sx_PIDs sb)) = None;
  sound_mode : sx_Egress sb ∈ Modes;
  sound_control : sx_Egress sb = ModeOpen \/ egress_control = true;
  sound_allow : Forall (fun p => ValidPattern p = true) (sx_Allow sb);
  sound_allow_once : NoDup (sx_Allow sb);
  sound_ports : Forall (fun p => 1 <= wp_Port p <= 65535 /\ wp_Port p <> daemonPort) (sx_Ports sb);
  sound_ports_once : NoDup (map wp_Port (sx_Ports sb));
  sound_ports_few : Z.of_nat (length (sx_Ports sb)) <= maxPorts;
}.

Lemma check_patterns_ok allow ps out :
  Forall (fun p => ValidPattern p = true) allow -> NoDup allow -> check_patterns lower_rune allow ps = inl out ->
  Forall (fun p => ValidPattern p = true) out /\ NoDup out.
Proof.
  revert allow. induction ps as [|p ps IH]; intros allow Ha Hn H; cbn in H; [by injection H as <-|].
  destruct (ValidPattern _) eqn:E; [|done]. eapply IH; [..|exact H]; case_bool_decide as Hin; try done.
  - apply Forall_app. split; [done|]. by constructor.
  - apply NoDup_app. split; [done|]. split; [|apply NoDup_singleton]. intros x Hx Hx'. apply list_elem_of_singleton in Hx'. congruence.
Qed.

Lemma check_ports_ok seen ps out :
  check_ports seen ps = inl out ->
  length out = length ps /\ Forall (fun p => 1 <= po_Port p <= 65535 /\ po_Port p <> daemonPort /\ po_Port p ∉ seen) out /\
  NoDup (map po_Port out).
Proof.
  revert seen out. induction ps as [|p ps IH]; intros seen out H; cbn in H; [injection H as <-; by repeat constructor|].
  destruct ((po_Port p <? 1) || (65535 <? po_Port p)) eqn:E1; [done|]. destruct (po_Port p =? daemonPort) eqn:E2; [done|].
  case_bool_decide as Hs; [done|]. destruct (maxPortLabel <? _); [done|].
  destruct (check_ports (po_Port p :: seen) ps) as [out'|] eqn:E; [|done]. injection H as <-.
  destruct (IH _ _ E) as (Hl & Hf & Hd). bool_lia. split; [cbn; lia|]. split.
  - constructor; [cbn; split; [lia|done]|]. eapply Forall_impl; [exact Hf|]. cbn. intros q (? & ? & Hq).
    rewrite not_elem_of_cons in Hq. tauto.
  - cbn. constructor; [|done]. rewrite list_elem_of_fmap. intros (q & Hq & Hin). rewrite Forall_forall in Hf.
    destruct (Hf q Hin) as (_ & _ & Hn). apply Hn, elem_of_cons. left. done.
Qed.

Lemma ParseMode_in s m : ParseMode s = inl m -> s ∈ Modes.
Proof.
  unfold ParseMode. destruct (List.find (fun m => String.eqb m s) Modes) as [m'|] eqn:E; [|done]. intros _.
  apply List.find_some in E as [Hin Heq]. apply String.eqb_eq in Heq as <-. by apply list_elem_of_In.
Qed.

Lemma checkSandbox_sound b sb : checkSandbox lower_rune capacity egress_control b = inl sb -> sound sb.
Proof.
  intros H. unfold checkSandbox in H. destruct (checkLimits _ _) eqn:Hl; [done|].
  destruct (checkEgress lower_rune _) as [allow|] eqn:He; [|done].
  destruct (negb _ && _) eqn:Hc; [done|]. destruct (maxPorts <? _) eqn:Hm; [done|].
  destruct (check_ports [] _) as [ports|] eqn:Hp; [|done]. injection H as <-.
  destruct (check_ports_ok _ _ _ Hp) as (Hlen & Hf & Hd). bool_lia.
  unfold checkEgress in He. destruct (ParseMode _) as [m|] eqn:Hmode; [|done]. destruct (MaxPatterns <? _); [done|].
  destruct (check_patterns_ok _ _ _ ltac:(constructor) ltac:(constructor) He) as [Hv Hn].
  constructor; cbn; try done.
  - by eapply ParseMode_in.
  - apply andb_false_iff in Hc as [Hc|Hc]; apply negb_false_iff in Hc; [left; by apply String.eqb_eq|by right].
  - apply Forall_map. eapply Forall_impl; [exact Hf|]. cbn. tauto.
  - by rewrite map_map.
  - rewrite length_map. lia.
Qed.

(** ** Documents *)

(** What the host reports is what a machine holds. *)
Definition capacity_ok : Prop :=
  match capacity with Some (c, m) => finite (f64_of_Z c) = true /\ 0 <= m < 2 ^ 63 | None => True end.

Lemma ltb_above_finite a b : finite b = true -> f64_ltb b a = false -> nan a = false -> f64_ltb a minCPUs = false -> finite a = true.
Proof.
  unfold f64_ltb, SFltb, minCPUs. destruct a as [s|[|]| |s m e]; cbn [nan finite]; try done.
  destruct b as [s'|s'| |s' m' e']; cbn [finite SFcompare]; try done; by destruct s'.
Qed.

Lemma sound_finite sb : capacity_ok -> sound sb -> f64_is_zero (sx_CPUs sb) = false -> finite (sx_CPUs sb) = true.
Proof.
  intros Hc [Hl _ _ _ _ _ _ _] Hz. unfold checkLimits in Hl. cbn [lb_CPUs] in Hl. rewrite Hz in Hl. cbn [negb andb] in Hl.
  destruct (default _ capacity) as [cpus memory] eqn:Ed.
  destruct (_ || _ || f64_ltb (f64_of_Z cpus) (sx_CPUs sb)) eqn:E; [done|].
  apply orb_false_iff in E as [[E1 E2]%orb_false_iff E3]. eapply ltb_above_finite; [|exact E3|done|done].
  unfold capacity_ok in Hc. destruct capacity as [[c m]|]; cbn in Ed; injection Ed as <- <-; [by destruct Hc|reflexivity].
Qed.

Lemma sound_ranges sb :
  capacity_ok -> sound sb -> 0 <= sx_MemoryMB sb < 2 ^ 43 /\ 0 <= sx_PIDs sb <= maxPIDs.
Proof.
  intros Hc [Hl _ _ _ _ _ _ _]. unfold checkLimits in Hl. cbn [lb_CPUs lb_MemoryMB lb_PIDs] in Hl.
  destruct (default _ capacity) as [cpus memory] eqn:Ed.
  assert (Hm : Z.shiftr memory 20 < 2 ^ 43).
  { rewrite Z.shiftr_div_pow2 by lia. apply Z.div_lt_upper_bound; [lia|].
    unfold capacity_ok in Hc. destruct capacity as [[c m]|]; cbn in Ed; injection Ed as <- <-; [destruct Hc|]; lia. }
  destruct (negb (f64_is_zero _) && _); [done|].
  destruct (negb (sx_MemoryMB sb =? 0) && _) eqn:E1; [done|]. destruct (negb (sx_PIDs sb =? 0) && _) eqn:E2; [done|].
  unfold minMemoryMB, minPIDs, maxPIDs in *. lia.
Qed.

Lemma dec_ports_map ps :
  Forall (fun p => int64 (wp_Port p) = true) ps -> dec_list dec_port (JArray (map port_doc ps)) = Some ps.
Proof.
  intros H. cbn. induction H as [|[n l] ps Hp _ IH]; [done|]. cbn [map].
  assert (E : dec_port (port_doc (mkPort n l)) = Some (mkPort n l)).
  { unfold dec_port, port_doc, field. cbn. cbn in Hp. rewrite Hp. unfold omit_empty.
    by destruct (String.eqb_spec l EmptyString) as [->|]; cbn. }
  cbn. cbn in E. rewrite E. cbn. cbn in IH. by rewrite IH.
Qed.

(** What a sandbox reads back as: no limit on the cores is stored as absent. *)
Definition stored (sb : WorkspaceSandbox) : WorkspaceSandbox :=
  mkSandbox (if f64_is_zero (sx_CPUs sb) then f64_zero else sx_CPUs sb) (sx_MemoryMB sb) (sx_PIDs sb) (sx_Egress sb)
    (sx_Allow sb) (sx_Ports sb).

Lemma sandbox_doc_get k sb :
  match sandbox_doc sb with JObject l => doc_get k l | _ => None end =
  if String.eqb k "cpus" then JFloat <$> (if f64_is_zero (sx_CPUs sb) then None else Some (sx_CPUs sb)) else
  if String.eqb k "memory_mb" then JInt <$> omit_zero (sx_MemoryMB sb) else
  if String.eqb k "pids" then JInt <$> omit_zero (sx_PIDs sb) else
  if String.eqb k "egress" then JString <$> omit_empty (sx_Egress sb) else
  if String.eqb k "allow" then (fun l => JArray (map JString l)) <$> (match sx_Allow sb with [] => None | l => Some l end) else
  if String.eqb k "ports" then (fun l => JArray (map port_doc l)) <$> (match sx_Ports sb with [] => None | l => Some l end) else None.
Proof.
  unfold sandbox_doc. rewrite !doc_get_app, !doc_get_opt.
  repeat match goal with |- context [String.eqb k ?s] =>
    destruct (String.eqb_spec k s) as [->|]; [cbn [String.eqb Ascii.eqb Bool.eqb]; by repeat case_match|] end.
  done.
Qed.

Lemma default_omit n : default 0 (omit_zero n) = n.
Proof. unfold omit_zero. destruct (Z.eqb_spec n 0); by subst. Qed.
Lemma default_omit_empty s : default EmptyString (omit_empty s) = s.
Proof. unfold omit_empty. by destruct (String.eqb_spec s EmptyString) as [->|]. Qed.

Lemma read_sandbox_doc sb : capacity_ok -> sound sb -> read_sandbox (sandbox_doc sb) = Some (stored sb).
Proof.
  intros Hc Hs. pose proof (sound_finite sb Hc Hs) as Hf. destruct (sound_ranges sb Hc Hs) as [Hm Hp].
  pose proof (fun k => sandbox_doc_get k sb) as Hg. destruct (sandbox_doc sb) as [| | | | | | |l] eqn:Ed; try discriminate Ed.
  unfold read_sandbox. rewrite
    (field_dec dec_float JFloat "cpus" l (if f64_is_zero (sx_CPUs sb) then None else Some (sx_CPUs sb))),
    (field_dec dec_int JInt "memory_mb" l (omit_zero (sx_MemoryMB sb))),
    (field_dec dec_int JInt "pids" l (omit_zero (sx_PIDs sb))),
    (field_dec dec_string JString "egress" l (omit_empty (sx_Egress sb))),
    (field_dec dec_strings (fun l => JArray (map JString l)) "allow" l (match sx_Allow sb with [] => None | l => Some l end)),
    (field_dec (dec_list dec_port) (fun l => JArray (map port_doc l)) "ports" l (match sx_Ports sb with [] => None | l => Some l end));
    try exact (Hg _).
  - cbn. rewrite !default_omit, default_omit_empty. unfold stored. f_equal.
    by destruct (f64_is_zero (sx_CPUs sb)), (sx_Allow sb), (sx_Ports sb).
  - intros v Hv. split; [|done]. apply dec_ports_map. destruct (sx_Ports sb) as [|p ps] eqn:E; [done|]. injection Hv as <-.
    rewrite <- E. eapply Forall_impl; [apply (sound_ports _ Hs)|]. cbn. unfold int64. intros x Hx. lia.
  - intros v _. split; [|done]. apply dec_strings_map.
  - intros v _. by split.
  - intros v Hv. split; [|done]. unfold omit_zero in Hv. destruct (Z.eqb_spec (sx_PIDs sb) 0); [done|]. injection Hv as <-.
    unfold dec_int, int64, maxPIDs in *. by rewrite (proj2 (Z.leb_le _ _)), (proj2 (Z.ltb_lt _ _)) by lia.
  - intros v Hv. split; [|done]. unfold omit_zero in Hv. destruct (Z.eqb_spec (sx_MemoryMB sb) 0); [done|]. injection Hv as <-.
    unfold dec_int, int64 in *. by rewrite (proj2 (Z.leb_le _ _)), (proj2 (Z.ltb_lt _ _)) by lia.
  - intros v Hv. split; [|done]. destruct (f64_is_zero (sx_CPUs sb)); [done|]. injection Hv as <-. cbn. by rewrite Hf.
Qed.
End claims.

Section applied.
Context (lower_rune : Z -> Z) (capacity : option (Z * Z)) (egress_control : bool).
Context (state : string -> string + GoError) (confine : string -> Confinement -> option GoError) (hub_token : string -> string + bool).

Lemma mode_restricted m : m ∈ Modes -> Restricted m = true <-> m <> ModeOpen.
Proof using. unfold Modes. rewrite !elem_of_cons, elem_of_nil. intros [->|[->|[->|[]]]]; done. Qed.

Lemma egressMode_sound sb : sound capacity egress_control sb -> egressMode sb = sx_Egress sb.
Proof using.
  intros Hs. unfold egressMode. destruct (String.eqb_spec (sx_Egress sb) EmptyString) as [E|]; [|done].
  pose proof (sound_mode _ _ _ Hs) as Hm. rewrite E in Hm. unfold Modes in Hm.
  rewrite !elem_of_cons, elem_of_nil in Hm. destruct Hm as [Hm|[Hm|[Hm|[]]]]; done.
Qed.

(** C28: when a request changes a workspace's sandbox, the container is
    confined with what the checks let through and the row keeps the same: the
    limits are within the host's, the memory in bytes does not overflow, the
    ports are distinct, valid and not the daemon's, the container is put behind
    the proxy exactly when the mode restricts it, which needs a harness that
    can, and the proxy is then told the mode and the patterns that were
    checked. *)
Theorem sandbox_applied_as_checked id req t status ws t' :
  capacity_ok capacity -> (forall k w, t_workspaces t !! k = Some w -> ws_ID w = k) ->
  handleSetWorkspaceSandbox lower_rune capacity egress_control state confine id req t = (inl (status, ws), t') ->
  exists sb, checkSandbox lower_rune capacity egress_control req = inl sb /\ sound capacity egress_control sb /\
    t_workspaces t' !! id = Some ws /\ read_sandbox (ws_Sandbox ws) = Some (stored sb) /\
    confine id (confinement sb) = None /\ cf_MemoryBytes (confinement sb) = sx_MemoryMB sb * 2 ^ 20 /\
    (cf_Proxied (confinement sb) = true <-> sx_Egress sb <> ModeOpen) /\
    (cf_Proxied (confinement sb) = true -> egress_control = true) /\
    forall tokens policy tokens', EgressPolicy hub_token id t' tokens = (inl policy, tokens') ->
      PMode policy = sx_Egress sb /\ PAllow policy = sx_Allow sb.
Proof using.
  intros Hcap Hkey H. unfold handleSetWorkspaceSandbox, getWorkspace in H.
  destruct (t_workspaces t !! id) as [w|] eqn:Ew; [|done]. pose proof (Hkey _ _ Ew) as Hid.
  destruct (negb _); [done|]. destruct (checkSandbox _ _ _ req) as [sb|] eqn:Hc; [|done].
  destruct (state (ws_ID w)) as [st|]; [|done]. destruct (negb _ && _); [done|].
  unfold SetWorkspaceSandbox, change_workspace in H. rewrite Hid, Ew in H.
  destruct (confine id _) eqn:Hconf; [done|]. injection H as <- <- <-.
  pose proof (checkSandbox_sound _ _ _ _ _ Hc) as Hs. pose proof (egressMode_sound sb Hs) as Hmode.
  assert (Hr : cf_Proxied (confinement sb) = true <-> sx_Egress sb <> ModeOpen).
  { unfold confinement. cbn. rewrite Hmode. apply mode_restricted. apply (sound_mode _ _ _ Hs). }
  pose proof (read_sandbox_doc capacity egress_control sb Hcap Hs) as Hread.
  assert (Hrow : t_workspaces (sets_workspace (mkWorkspaceRow (ws_ID w) (ws_ProjectID w) (ws_Name w) (ws_Branch w) (ws_BaseCommit w)
      (ws_Image w) (ws_State w) (ws_ContainerID w) (ws_ParentWorkspaceID w) (ws_WorktreeOf w) (sandbox_doc sb) (ws_Pinned w)
      (ws_Archived w) (ws_CreatedAt w)) t) !! id = Some (mkWorkspaceRow (ws_ID w) (ws_ProjectID w) (ws_Name w) (ws_Branch w)
      (ws_BaseCommit w) (ws_Image w) (ws_State w) (ws_ContainerID w) (ws_ParentWorkspaceID w) (ws_WorktreeOf w) (sandbox_doc sb)
      (ws_Pinned w) (ws_Archived w) (ws_CreatedAt w))).
  { cbn. rewrite Hid. apply lookup_insert_eq. }
  exists sb. split; [done|]. split; [done|]. split; [exact Hrow|]. split; [exact Hread|]. split; [done|].
  destruct (sound_ranges _ _ sb Hcap Hs) as [Hm _]. split; [|split; [exact Hr|split]].
  - unfold confinement. cbn [cf_MemoryBytes]. rewrite Z.shiftl_mul_pow2 by lia. apply wrap64_small. lia.
  - intros Hp%Hr. destruct (sound_control _ _ _ Hs) as [Hopen|]; [|done]. by rewrite Hopen in Hp.
  - intros tokens policy tokens' Hpol. unfold EgressPolicy, getWorkspace in Hpol. rewrite Hrow in Hpol.
    unfold sandbox_of_row in Hpol. cbn [ws_Sandbox] in Hpol. rewrite Hread in Hpol.
    destruct (proxyToken hub_token id tokens) as [[token|] tk]; [|done]. injection Hpol as <- _. cbn.
    split; [|done]. exact Hmode.
Qed.
End applied.

(** the setting that gives a new workspace its egress is checked with its
    patterns trimmed and in lower case, and is then stored and used as it was
    written: a default allowlist with a capital letter is accepted, and the
    workspace made from it reaches nothing the pattern names, where the same
    list in the request that makes the workspace would. *)
Theorem default_allowlist_not_normalised lower_rune capacity :
  let allow := ["GitHub.com"]%string in
  let t := mkCDB ∅ ∅ ∅ {["sandbox_egress" := JObject [("mode", JString "allowlist"); ("allow", JArray (map JString allow))]]}
             (mkDB ∅ ∅) in
  checkEgress lower_rune (mkEgress ModeAllowlist allow) = inl ["github.com"]%string /\
  sx_Allow <$> (match newSandbox lower_rune capacity true None t with inl sb => Some sb | inr _ => None end) = Some allow /\
  Allowed lower_rune allow "github.com" = false /\ Allowed lower_rune allow "GitHub.com" = false /\
  Allowed lower_rune ["github.com"]%string "github.com" = true.
Proof. cbv zeta. repeat split; vm_compute; reflexivity. Qed.

Lemma sandbox_applied_as_checked_witness :
  let ws := mkWorkspaceRow "w1" "p1" "one" "main" EmptyString "img" "running" "c1" EmptyString EmptyString JNull false false 1 in
  let t := mkTables (mkDB ∅ ∅) {["w1"%string := ws]} ∅ in
  let req := mkSandboxBody (mkLimits f64_zero 512 100) (mkEgress ModeAllowlist [" GitHub.com"%string]) [mkPortBody 8080 "web"] in
  exists ws' t' sb, handleSetWorkspaceSandbox (fun r => r) None true (fun _ => inl "running"%string) (fun _ _ => None) "w1" req t =
    (inl (200, ws'), t') /\ read_sandbox (ws_Sandbox ws') = Some (stored sb) /\ cf_MemoryBytes (confinement sb) = 536870912.
Proof.
  cbv zeta. set (ws := mkWorkspaceRow _ _ _ _ _ _ _ _ _ _ _ _ _ _). set (t := mkTables _ _ _). set (req := mkSandboxBody _ _ _).
  eassert (H : handleSetWorkspaceSandbox (fun r => r) None true (fun _ => inl "running"%string) (fun _ _ => None) "w1" req t =
    (inl (200, _), _)) by (vm_compute; reflexivity).
  assert (Hkey : forall k w, t_workspaces t !! k = Some w -> ws_ID w = k).
  { intros k w Hk. cbn in Hk. by apply lookup_singleton_Some in Hk as [<- <-]. }
  destruct (sandbox_applied_as_checked (fun r => r) None true (fun _ => inl "running"%string) (fun _ _ => None)
    (fun _ => inr true) "w1" req t 200 _ _ I Hkey H) as (sb & Hc & _ & _ & Hr & _ & Hm & _).
  eexists _, _, sb. split; [exact H|]. split; [exact Hr|]. rewrite Hm. vm_compute in Hc. by injection Hc as <-.
Defined.
