(* ===== verification/ModelsApi.v ===== *)
(** The models of the HTTP API (internal/server models.go, models_wire.go),
    and what the settings that name a model do when it is renamed
    (settings.go). *)
From stdpp Require Import sorting.
From S2P Require Import Prelude GoStr Json Provider Sampling OpenAI Failure Entries Tables Config.
From S2P Require Import Configuration Api Providers.
From stdpp Require Import options.
Open Scope Z_scope.

(** ** On the wire *)

(* @src internal/server/models_wire.go 9-24 modelBody *)
Record modelBody := mkModelBody {
  mb_ID : string; mb_ProviderID : string; mb_Name : string; mb_Model : string; mb_ContextWindow : Z; mb_MaxOutput : Z;
  mb_ReasoningEffort : string; mb_ReasoningEfforts : list string; mb_ThinkingSwitch : string; mb_PreserveThinking : bool;
  mb_ImageInput : bool; mb_CreatedAt : Z;
}.

(* @src internal/server/models_wire.go 35-48 createModelRequest *)
Record createModelRequest := mkCreateModel {
  cm_ProviderID : string; cm_Name : string; cm_Model : string; cm_ContextWindow : Z; cm_MaxOutput : Z;
  cm_ReasoningEffort : string; cm_ReasoningEfforts : list string; cm_ThinkingSwitch : string; cm_PreserveThinking : bool;
  cm_ImageInput : bool;
}.

(* @src internal/server/models_wire.go 50-62 updateModelRequest *)
Record updateModelRequest := mkUpdateModel {
  um_Name : option string; um_Model : option string; um_ContextWindow : option Z; um_MaxOutput : option Z;
  um_ReasoningEffort : option string; um_ReasoningEfforts : option (list string); um_ThinkingSwitch : option string;
  um_PreserveThinking : option bool; um_ImageInput : option bool;
}.

(* @src internal/server/models_wire.go 64-75 testModelRequest *)
Record testModelRequest := mkTestModel {
  tm_ProviderID : string; tm_Model : string; tm_ReasoningEffort : string; tm_ThinkingSwitch : string;
  tm_PreserveThinking : bool; tm_ImageInput : bool;
}.

(** The time the answer took aside. *)
(* @src internal/server/models_wire.go 77-85 testModelResponse *)
Record testModelResponse := mkTestReply { tr_Reply : string; tr_StopReason : string }.

(* @src internal/server/models_wire.go 96-113 asModel *)
Definition asModel (m : ModelRow) : modelBody :=
  mkModelBody (m_ID m) (m_ProviderID m) (m_Name m) (m_Model m) (m_ContextWindow m) (m_MaxOutput m) (m_ReasoningEffort m)
    (m_ReasoningEfforts m) (m_ThinkingSwitch m) (m_PreserveThinking m) (m_ImageInput m) (m_CreatedAt m).

(** ** Checks *)

(* @src internal/server/models.go 284-289 invalidEffort *)
Definition invalidEffort (effort : string) : failure :=
  invalidf ("reasoning_effort " +:+ go_quote effort +:+ " must be at most " +:+ itoa MaxReasoningEffortLen +:+
            " letters, digits, hyphens, or underscores").

(* @src internal/server/models.go 291-295 invalidSwitch *)
Definition invalidSwitch (s : string) : failure :=
  invalidf ("thinking_switch " +:+ go_quote s +:+ " must be " +:+ SwitchReasoningEffort +:+ ", " +:+ SwitchTemplate +:+
            ", or " +:+ SwitchThinking).

Fixpoint check_efforts (seen efforts : list string) : option failure :=
  match efforts with
  | [] => None
  | e :: efforts' =>
      if String.eqb e EmptyString
      then Some (invalidf "reasoning_efforts holds no empty value; the endpoint default is not one of the choices")
      else if negb (ValidReasoningEffort e) then Some (invalidEffort e)
      else if bool_decide (e ∈ seen) then Some (invalidf ("reasoning_efforts contains duplicate value " +:+ go_quote e))
      else check_efforts (e :: seen) efforts'
  end.

(* @src internal/server/models.go 250-282 validateModel *)
Definition validateModel (m : ModelRow) : option failure :=
  if String.eqb (m_Model m) EmptyString || (maxModelID <? str_len (m_Model m))
  then Some (invalidf ("model must be the endpoint's identifier for it, 1 to " +:+ itoa maxModelID +:+ " characters"))
  else if (maxModelName <? str_len (m_Name m)) || has_control (m_Name m)
  then Some (invalidf ("name must be at most " +:+ itoa maxModelName +:+ " characters"))
  else if (m_ContextWindow m <? 1) || (maxContextWindow <? m_ContextWindow m)
  then Some (invalidf "context_window must be a positive number of tokens")
  else if (m_MaxOutput m <? 1) || (m_ContextWindow m <? m_MaxOutput m)
  then Some (invalidf "max_output must be a positive number of tokens no larger than context_window")
  else if negb (ValidReasoningEffort (m_ReasoningEffort m)) then Some (invalidEffort (m_ReasoningEffort m))
  else if negb (ValidThinkingSwitch (m_ThinkingSwitch m)) then Some (invalidSwitch (m_ThinkingSwitch m))
  else if maxReasoningEfforts <? Z.of_nat (length (m_ReasoningEfforts m))
  then Some (invalidf ("reasoning_efforts holds at most " +:+ itoa maxReasoningEfforts +:+ " values"))
  else check_efforts [] (m_ReasoningEfforts m).

(** ** The settings that name a model *)

Definition settingUtilityModels : string := "utility_models".
Definition TaskSessionTitle : string := "session_title".

(* @src internal/utility/utility.go 19-22 Known *)
Definition Known (t : string) : bool := String.eqb t TaskSessionTitle.

(** [json.Unmarshal] into a map of strings: what fits is taken even when
    something else does not, and null is the empty string. *)
Fixpoint fill_strings (l : list (string * json)) (m : gmap string string) : gmap string string * bool :=
  match l with
  | [] => (m, true)
  | (k, j) :: l' =>
      match j with
      | JString s => fill_strings l' (<[k := s]> m)
      | JNull => fill_strings l' (<[k := EmptyString]> m)
      | _ => let '(m', _) := fill_strings l' m in (m', false)
      end
  end.
Definition fill_assigned (j : json) : gmap string string * bool :=
  match j with JObject l => fill_strings l ∅ | _ => (∅, false) end.

(** [readSetting] into such a map: what it holds afterwards, and whether the
    value was usable. *)
(* @src internal/server/settings.go 289-308 readSetting (into a map) *)
Definition readAssigned (t : CDB) : gmap string string * bool :=
  match Setting settingUtilityModels t with
  | inr _ => (∅, false)
  | inl JNull => (∅, false)
  | inl v => fill_assigned v
  end.

(* @src internal/server/settings.go 318-336 Server.utilityModel *)
Definition utilityModel (task : string) (t : CDB) : option ModelRow :=
  let name := default EmptyString ((readAssigned t).1 !! task) in
  if String.eqb name EmptyString then None else
  match ModelByName name t with
  | inl m => Some m
  | inr _ => None
  end.

(** [json.Marshal] of a map, its keys in order. *)
Definition marshal_strings (m : gmap string string) : json :=
  JObject (map (fun p => (p.1, JString p.2)) (merge_sort (fun x y => String.le x.1 y.1) (map_to_list m))).

Section quoting.
(** Which characters outside ASCII package strconv takes to be printable. *)
Context (is_print : Z -> bool).

Definition hex_digits (n : nat) (r : Z) : list Z :=
  map (fun i => hex_lower ((r / 16 ^ Z.of_nat i) mod 16)) (rev (seq 0 n)).

(** The [%q] verb with what is not printable spelled as an escape. *)
Definition quote_rune (s : seg) : list Z :=
  let r := seg_rune s in
  if negb (seg_ok s) || (r <? 128) || is_print r then go_quote_seg s
  else if r <? 65536 then [92; 117] ++ hex_digits 4 r
  else [92; 85] ++ hex_digits 8 r.

Definition quoted (s : string) : string := of_bytes (34 :: concat (map quote_rune (segs (bytes_of s))) ++ [34]).

(** The document the database makes of the bytes, when they are one. *)
(* @src internal/server/settings.go 405-408 jsonString *)
Definition jsonString (v : string) : option json := JString <$> unquote (quoted v).

(* @src internal/server/settings.go 338-366 Server.renameModelSettings *)
Definition renameModelSettings (oldName newName : string) (t : CDB) : option GoError * CDB :=
  let default_write :=
    if String.eqb (defaultModelSetting t) oldName then [(settingDefaultModel, jsonString newName)] else [] in
  let '(assigned, ok) := readAssigned t in
  let renamed := ok && existsb (fun p => String.eqb p.2 oldName) (map_to_list assigned) in
  let utility_write :=
    if renamed
    then [(settingUtilityModels,
           Some (marshal_strings ((fun name => if String.eqb name oldName then newName else name) <$> assigned)))]
    else [] in
  match default_write ++ utility_write with
  | [] => (None, t)
  | writes => SetSettings writes t
  end.
End quoting.

(** ** Handlers *)

(* @src internal/server/models.go 36-49 Server.handleListModels *)
Definition handleListModels (t : CDB) : answer (list modelBody * string) :=
  let models := Models t in
  inl (200, (map asModel models, m_Name (fst (defaultModel models t)))).

(* @src internal/server/models.go 51-90 Server.handleCreateModel *)
Definition handleCreateModel (id : string) (now : Z) (req : createModelRequest) (t : CDB) : answer modelBody * CDB :=
  let model := trim_space (cm_Model req) in
  let m := mkModel EmptyString (cm_ProviderID req) (or_string (trim_space (cm_Name req)) model) model (cm_ContextWindow req)
    (cm_MaxOutput req) (cm_ReasoningEffort req) (cm_ReasoningEfforts req) (cm_ThinkingSwitch req) (cm_PreserveThinking req)
    (cm_ImageInput req) 0 in
  match validateModel m with
  | Some e => (inr e, t)
  | None =>
      match CreateModel id now m t with
      | (inl created, t') => (inl (201, asModel created), t')
      | (inr e, t') =>
          (inr (if is_sentinel "conflict" e
                then conflictf ("a model named " +:+ go_quote (m_Name m) +:+ " already exists; give this one another name")
                else if is_sentinel "not found" e then invalidf ("provider " +:+ m_ProviderID m +:+ " does not exist")
                else Plain e), t')
      end
  end.

(** What an update makes of the row it read. *)
(* @src internal/server/models.go 105-136 Server.handleUpdateModel (what it changes) *)
Definition planModel (req : updateModelRequest) (m : ModelRow) : ModelRow + failure :=
  let m := mkModel (m_ID m) (m_ProviderID m)
    (match um_Name req with Some n => trim_space n | None => m_Name m end)
    (match um_Model req with Some n => trim_space n | None => m_Model m end)
    (default (m_ContextWindow m) (um_ContextWindow req)) (default (m_MaxOutput m) (um_MaxOutput req))
    (default (m_ReasoningEffort m) (um_ReasoningEffort req)) (default (m_ReasoningEfforts m) (um_ReasoningEfforts req))
    (default (m_ThinkingSwitch m) (um_ThinkingSwitch req)) (default (m_PreserveThinking m) (um_PreserveThinking req))
    (default (m_ImageInput m) (um_ImageInput req)) (m_CreatedAt m) in
  match validateModel m with
  | Some e => inr e
  | None => inl m
  end.

(* @src internal/server/models.go 92-153 Server.handleUpdateModel *)
Definition handleUpdateModel (is_print : Z -> bool) (id : string) (req : updateModelRequest) (t : CDB) : answer modelBody * CDB :=
  match getModel id t with
  | inr e => (inr (Plain e), t)
  | inl old =>
      match planModel req old with
      | inr e => (inr e, t)
      | inl m =>
          match UpdateModel m t with
          | (inr e, t') =>
              (inr (if is_sentinel "conflict" e then conflictf ("a model named " +:+ go_quote (m_Name m) +:+ " already exists")
                    else Plain e), t')
          | (inl updated, t') =>
              if String.eqb (m_Name updated) (m_Name old) then (inl (200, asModel updated), t') else
              match renameModelSettings is_print (m_Name old) (m_Name updated) t' with
              | (Some e, t'') => (inr (Plain e), t'')
              | (None, t'') => (inl (200, asModel updated), t'')
              end
          end
      end
  end.

(* @src internal/server/models.go 155-165 Server.handleDeleteModel *)
Definition handleDeleteModel (id : string) (t : CDB) : answer unit * CDB :=
  match DeleteModel id t with
  | (Some e, t') => (inr (Plain e), t')
  | (None, t') => (inl (204, tt), t')
  end.

Definition testPrompt : string := "Reply with the single word: ready".

Section test.
Context (box : Box) (kinds : list (string * (Endpoint -> option GoError))) (loopback : string -> bool).
(** The picture of the test, and what an endpoint answers a request with: a
    failure says whether it came before an HTTP status. *)
Context (testImage : Image) (complete : Endpoint -> Request -> (string * string) + GoError * bool).

Definition test_sampling (req : testModelRequest) : Sampling :=
  mkSampling None None None None None None None None (Some testMaxTokens)
    (if String.eqb (tm_ReasoningEffort req) EmptyString then None else Some (tm_ReasoningEffort req)).

Definition test_question (req : testModelRequest) : Message :=
  mkMessage RoleUser testPrompt (if tm_ImageInput req then [testImage] else []) EmptyString [] EmptyString false None false.

(** With the endpoint that was asked and the request it was sent. *)
(* @src internal/server/models.go 167-231 Server.handleTestModel *)
Definition handleTestModel (req : testModelRequest) (t : CDB) : answer testModelResponse * option (Endpoint * Request) :=
  let model := trim_space (tm_Model req) in
  if String.eqb model EmptyString then (inr (invalidf "model is required"), None)
  else if negb (ValidReasoningEffort (tm_ReasoningEffort req)) then (inr (invalidEffort (tm_ReasoningEffort req)), None)
  else if negb (ValidThinkingSwitch (tm_ThinkingSwitch req)) then (inr (invalidSwitch (tm_ThinkingSwitch req)), None)
  else match getProvider (tm_ProviderID req) t with
  | inr e => (inr (Plain e), None)
  | inl p =>
      match openKey box p with
      | inr e => (inr e, None)
      | inl key =>
          match Build kinds (pr_Kind p) (mkEndpoint (pr_BaseURL p) key) with
          | inr err => (inr (invalidf (scrub (error_text err) key)), None)
          | inl client =>
              let r := mkRequest model EmptyString [test_question req] [] (test_sampling req) (tm_ThinkingSwitch req)
                (tm_PreserveThinking req) in
              (match complete client r with
               | inr (err, transport) => inr (endpointFailure loopback (pr_BaseURL p) err transport key)
               | inl (reply, stop) => inl (200, mkTestReply (trim_space reply) stop)
               end, Some (client, r))
          end
      end
  end.
End test.
