(* ===== verification/Settings.v ===== *)
(** The settings of the HTTP API (internal/server settings.go, compaction.go,
    search.go): what each of the harness's own keys accepts, and what the
    harness reads back from them. A member of a document is taken by its exact
    name. *)
From stdpp Require Import sorting.
From S2P Require Import Prelude GoStr Float64 Provider Sampling Failure Tool Compaction Context Entries Net.
From S2P Require Import Search Tables Subagent Api ToolChoice Config Configuration Providers Sandbox.
From S2P Require Import ModelsApi.
From stdpp Require Import options.
Open Scope Z_scope.

Definition settingSandboxImage : string := "sandbox_image".
Definition settingSubagentDepth : string := "subagent_max_depth".
Definition settingSubagentChildren : string := "subagent_max_children".
Definition settingSetupComplete : string := "setup_complete".
Definition settingIdleMinutes : string := "workspace_idle_minutes".
Definition settingSearchOrder : string := "search_order".
Definition settingSearchLimits : string := "search_limits".
Definition settingCompaction : string := "compaction".

(* @src internal/server/settings.go 56-61 defaultIdleMinutes *)
Definition defaultIdleMinutes : Z := 15.
Definition maxIdleMinutes : Z := 7 * 24 * 60.
(* @src internal/server/settings.go 63-70 defaultSubagentDepth *)
Definition defaultSubagentDepth : Z := 2.
Definition defaultSubagentChildren : Z := 4.
Definition maxSubagentDepth : Z := 8.
Definition maxSubagentChildren : Z := 16.
(* @src internal/server/settings.go 72-73 maxSettingKey *)
Definition maxSettingKey : Z := 64.
(* @src internal/server/search.go 26-27 maxSearchLimit *)
Definition maxSearchLimit : Z := 10000000.
(* @src internal/server/profiles.go 18-25 maxPromptBytes *)
Definition maxPromptBytes : Z := Z.shiftl 64 10.
Definition maxProfileName : Z := 64.
Definition maxProfileDescription : Z := 500.
(* @src internal/server/compaction.go 18-23 minCompactionTokens *)
Definition minCompactionTokens : Z := 1024.
Definition maxCompactionTokens : Z := Z.shiftl 1 20.

(** ** Compaction *)

(* @src internal/server/compaction.go 40-49 compactionPromptsBody *)
Record compactionPromptsBody := mkPromptsBody { cpb_Summary : string; cpb_Update : string; cpb_TurnPrefix : string }.
(* @src internal/server/compaction.go 25-38 compactionBody *)
Record compactionBody := mkCompactionBody {
  cob_Auto : bool; cob_ReserveTokens : Z; cob_KeepRecentTokens : Z; cob_Prompts : compactionPromptsBody;
}.

(* @src internal/server/compaction.go 60-68 defaultCompaction *)
Definition defaultCompaction : compactionBody :=
  mkCompactionBody true DefaultReserveTokens DefaultKeepRecentTokens (mkPromptsBody EmptyString EmptyString EmptyString).

(* @src internal/server/compaction.go 70-81 compactionDefaults *)
Definition compactionDefaults : compactionBody :=
  mkCompactionBody (cob_Auto defaultCompaction) (cob_ReserveTokens defaultCompaction) (cob_KeepRecentTokens defaultCompaction)
    (mkPromptsBody SummaryPrompt UpdatePrompt TurnPrefixPrompt).

(** [json.Unmarshal] into a struct that has values already: a member that is
    absent, null or of another type leaves its field, and the flag says
    whether every member fitted. *)
Definition fill {T} (dec : json -> option T) (k : string) (l : list (string * json)) (old : T) : T * bool :=
  match field dec k l with
  | Some (Some v) => (v, true)
  | Some None => (old, true)
  | None => (old, false)
  end.

Definition fill_prompts (l : list (string * json)) (p : compactionPromptsBody) : compactionPromptsBody * bool :=
  let '(s, ok1) := fill dec_string "summary" l (cpb_Summary p) in
  let '(u, ok2) := fill dec_string "update" l (cpb_Update p) in
  let '(x, ok3) := fill dec_string "turn_prefix" l (cpb_TurnPrefix p) in
  (mkPromptsBody s u x, ok1 && ok2 && ok3).

Definition fill_compaction (j : json) (c : compactionBody) : compactionBody * bool :=
  match j with
  | JNull => (c, true)
  | JObject l =>
      let '(a, ok1) := fill dec_bool "auto" l (cob_Auto c) in
      let '(r, ok2) := fill dec_int "reserve_tokens" l (cob_ReserveTokens c) in
      let '(k, ok3) := fill dec_int "keep_recent_tokens" l (cob_KeepRecentTokens c) in
      let '(p, ok4) := match doc_get "prompts" l with
        | None | Some JNull => (cob_Prompts c, true)
        | Some (JObject l') => fill_prompts l' (cob_Prompts c)
        | Some _ => (cob_Prompts c, false)
        end in
      (mkCompactionBody a r k p, ok1 && ok2 && ok3 && ok4)
  | _ => (c, false)
  end.

(** [strictJSON]: a member the struct does not have is refused. *)
Definition known (keys : list string) (j : json) : bool :=
  match j with JObject l => forallb (fun p => existsb (String.eqb p.1) keys) l | _ => true end.
Definition strict {T} (keys : list string) (dec : json -> option T) (j : json) : option T :=
  if known keys j then dec j else None.

Definition known_compaction (j : json) : bool :=
  known ["auto"; "reserve_tokens"; "keep_recent_tokens"; "prompts"] j &&
  match j with
  | JObject l => match doc_get "prompts" l with Some p => known ["summary"; "update"; "turn_prefix"] p | None => true end
  | _ => true
  end.

(** The fields are ranged over as maps, in an order of [budgets] and
    [prompts]' choice. *)
Definition budgets (c : compactionBody) : list (string * Z) :=
  [("reserve_tokens", cob_ReserveTokens c); ("keep_recent_tokens", cob_KeepRecentTokens c)].
Definition prompts (c : compactionBody) : list (string * string) :=
  [("summary", cpb_Summary (cob_Prompts c)); ("update", cpb_Update (cob_Prompts c)); ("turn_prefix", cpb_TurnPrefix (cob_Prompts c))].
Definition bad_budget (n : Z) : bool := (n <? minCompactionTokens) || (maxCompactionTokens <? n).
Definition too_long (text : string) : bool := maxPromptBytes <? str_len text.

(* @src internal/server/compaction.go 83-100 validateCompaction *)
Definition validateCompaction (value : json) : option failure :=
  let '(c, ok) := fill_compaction value defaultCompaction in
  if negb (known_compaction value && ok)
  then Some (invalidf (settingCompaction +:+ " must be an object of auto, reserve_tokens, keep_recent_tokens, and prompts"))
  else match List.find (fun p => bad_budget p.2) (budgets c) with
  | Some (f, _) => Some (invalidf (settingCompaction +:+ "." +:+ f +:+ " must be from " +:+ itoa minCompactionTokens +:+ " to " +:+
                                   itoa maxCompactionTokens))
  | None =>
      match List.find (fun p => too_long p.2) (prompts c) with
      | Some (f, _) => Some (invalidf (settingCompaction +:+ ".prompts." +:+ f +:+ " must be at most " +:+ itoa maxPromptBytes +:+
                                       " bytes"))
      | None => None
      end
  end.

(* @src internal/server/compaction.go 119-122 effortsLowestFirst *)
Definition effortsLowestFirst : list string := [EffortNone; "minimal"; "low"; "medium"; "high"; "xhigh"; "max"].

(* @src internal/server/compaction.go 124-135 fallbackEffort *)
Definition fallbackEffort (m : ModelRow) : string :=
  default EmptyString (List.find (fun e => bool_decide (e ∈ m_ReasoningEfforts m)) effortsLowestFirst).

(** What a value of another shape filled in stays, though it is reported. *)
(* @src internal/server/compaction.go 102-117 Server.compaction *)
Definition compaction (m : ModelRow) (t : CDB) : CompactionSettings :=
  let c := match Setting settingCompaction t with
    | inr _ | inl JNull => defaultCompaction
    | inl v => (fill_compaction v defaultCompaction).1
    end in
  Compaction.mkSettings (cob_Auto c) (cob_ReserveTokens c) (cob_KeepRecentTokens c)
    (Compaction.mkPrompts (cpb_Summary (cob_Prompts c)) (cpb_Update (cob_Prompts c)) (cpb_TurnPrefix (cob_Prompts c)))
    (fallbackEffort m).

(** ** What the harness reads *)

(* @src internal/server/settings.go 368-376 Server.sandboxImage *)
Definition sandboxImage (deployment : string) (t : CDB) : string :=
  match readSetting dec_string settingSandboxImage t with
  | Some image => if String.eqb image EmptyString then deployment else image
  | None => deployment
  end.

(** In nanoseconds. *)
(* @src internal/server/settings.go 378-387 Server.idleTimeout *)
Definition idleTimeout (t : CDB) : Z :=
  match readSetting dec_int settingIdleMinutes t with
  | Some n => if 0 <=? n then Z.min n maxIdleMinutes else defaultIdleMinutes
  | None => defaultIdleMinutes
  end * minute.

(* @src internal/server/settings.go 389-403 subagentLimits *)
Definition subagentLimits (t : CDB) : Limits :=
  let count key def most := match readSetting dec_int key t with
    | Some n => if 1 <=? n then Z.min n most else def
    | None => def
    end in
  Subagent.mkLimits (count settingSubagentDepth defaultSubagentDepth maxSubagentDepth)
    (count settingSubagentChildren defaultSubagentChildren maxSubagentChildren).

(** ** What is accepted *)

Definition json_is_null (j : json) : bool := match j with JNull => true | _ => false end.

(* @src internal/server/settings.go 280-287 validateCount *)
Definition validateCount (key : string) (value : json) (limit : Z) : option failure :=
  let bad := Some (invalidf (key +:+ " must be a whole number from 1 to " +:+ itoa limit)) in
  match dec_int value with
  | Some n => if (n <? 1) || (limit <? n) then bad else None
  | None => bad
  end.

(* @src internal/server/settings.go 258-271 Server.checkModelName *)
Definition checkModelName (key name : string) (t : CDB) : option failure :=
  if String.eqb name EmptyString then None else
  match ModelByName name t with
  | inl _ => None
  | inr e =>
      if is_sentinel "not found" e
      then Some (invalidf (key +:+ " names " +:+ go_quote name +:+ ", which is not a configured model"))
      else Some (Plain e)
  end.

Definition first_failure {A} (check : A -> option failure) (l : list A) : option failure :=
  foldr (fun x rest => match check x with Some e => Some e | None => rest end) None l.

(** The members that are no text decode to nothing. *)
Definition dec_assigned (j : json) : option (list (string * string)) :=
  match j with
  | JObject l => let '(m, ok) := fill_assigned j in if ok then Some (map_to_list m) else None
  | _ => None
  end.

(* @src internal/server/search.go 220-236 Server.validateSearchOrder *)
Definition validateSearchOrder (web : list string) (value : json) : option failure :=
  match dec_strings value with
  | None => Some (invalidf (settingSearchOrder +:+ " must be a list of provider names"))
  | Some order =>
      (fix go (before order : list string) : option failure :=
         match order with
         | [] => None
         | name :: order' =>
             if negb (existsb (String.eqb name) web)
             then Some (invalidf (settingSearchOrder +:+ " names " +:+ go_quote name +:+ ", which is not one of " +:+ join web ", "))
             else if existsb (String.eqb name) before
             then Some (invalidf (settingSearchOrder +:+ " names " +:+ go_quote name +:+ " twice"))
             else go (before ++ [name]) order'
         end) [] order
  end.

Definition dq : string := of_bytes [34].
Definition dec_limit (j : json) : option Limit :=
  match j with
  | JNull => Some (mkLimit 0 0)
  | JObject l => d ← field dec_int "day" l; m ← field dec_int "month" l; Some (mkLimit (default 0 d) (default 0 m))
  | _ => None
  end.
Definition dec_search_limits (j : json) : option (list (string * Limit)) :=
  match j with
  | JObject l =>
      kvs ← mapM (fun p => v ← dec_limit p.2; Some (p.1, v)) l;
      Some (map_to_list (foldl (fun m p => <[p.1 := p.2]> m) (∅ : gmap string Limit) kvs))
  | _ => None
  end.

(* @src internal/server/search.go 238-254 Server.validateSearchLimits *)
Definition validateSearchLimits (buckets : list (string * Limit)) (value : json) : option failure :=
  match dec_search_limits value with
  | None => Some (invalidf (settingSearchLimits +:+
      " must map bucket names to {" +:+ dq +:+ "day" +:+ dq +:+ ": n, " +:+ dq +:+ "month" +:+ dq +:+ ": n}, where n is a whole number"))
  | Some limits =>
      first_failure (fun p =>
        let '(name, l) := p in
        if negb (existsb (fun b => String.eqb b.1 name) buckets)
        then Some (invalidf (settingSearchLimits +:+ " names " +:+ go_quote name +:+ ", which is not a search quota bucket"))
        else if (l_Day l <? 0) || (l_Month l <? 0) || (maxSearchLimit <? l_Day l) || (maxSearchLimit <? l_Month l)
        then Some (invalidf ("the " +:+ name +:+ " quota must be a whole number from 1 to " +:+ itoa maxSearchLimit +:+
                             ", or 0 or left out for unlimited"))
        else None) limits
  end.

Section settings.
(** As in [Sandbox]; and the search engine's web providers and default
    limits, when it has one. *)
Context (lower_rune : Z -> Z) (capacity : option (Z * Z)) (egress_control : bool).
Context (engine : option (list string * list (string * Limit))).

(* @src internal/server/settings.go 162-256 Server.validateSetting *)
Definition validateSetting (key : string) (value : json) (t : CDB) : option failure :=
  let is_key k := String.eqb key k in
  if String.eqb key EmptyString || (maxSettingKey <? str_len key)
  then Some (invalidf ("a setting key must be 1 to " +:+ itoa maxSettingKey +:+ " characters"))
  else if json_is_null value then None
  else if is_key settingDefaultModel then
    match dec_string value with
    | None => Some (invalidf (key +:+ " must be a model name"))
    | Some name => checkModelName key name t
    end
  else if is_key settingUtilityModels then
    match dec_assigned value with
    | None => Some (invalidf (key +:+ " must be an object of task names to model names"))
    | Some assigned =>
        first_failure (fun p =>
          if negb (Known p.1) then Some (invalidf (key +:+ " names " +:+ go_quote p.1 +:+ ", which is not a task"))
          else checkModelName key p.2 t) assigned
    end
  else if is_key settingDefaultProfile then
    match dec_string value with
    | None => Some (invalidf (key +:+ " must be a profile id"))
    | Some id =>
        if String.eqb id EmptyString then None else
        match getProfile id t with
        | inl _ => None
        | inr e =>
            if is_sentinel "not found" e
            then Some (invalidf (key +:+ " names " +:+ go_quote id +:+ ", which is not a profile")) else Some (Plain e)
        end
    end
  else if is_key settingSandboxImage then
    match dec_string value with
    | None => Some (invalidf (key +:+ " must be an image reference"))
    | Some image =>
        if String.eqb image EmptyString || (255 <? str_len image) || existsb is_space (runes image)
        then Some (invalidf (key +:+ " must be an image reference such as eika-sandbox:latest")) else None
    end
  else if is_key settingSandboxLimits then
    match strict ["cpus"; "memory_mb"; "pids"] dec_limits value with
    | None => Some (invalidf (key +:+ " must be an object of cpus, memory_mb, and pids"))
    | Some limits => checkLimits capacity limits
    end
  else if is_key settingSandboxEgress then
    match strict ["mode"; "allow"] dec_egress value with
    | None => Some (invalidf (key +:+ " must be an object of mode and allow"))
    | Some e =>
        match checkEgress lower_rune e with
        | inr err => Some err
        | inl _ =>
            if negb (String.eqb (eb_Mode e) ModeOpen) && negb egress_control then Some (Plain ErrNoEgressControl) else None
        end
    end
  else if is_key settingSubagentDepth then validateCount key value maxSubagentDepth
  else if is_key settingSubagentChildren then validateCount key value maxSubagentChildren
  else if is_key settingIdleMinutes then
    let bad := Some (invalidf (key +:+ " must be a whole number of minutes from 0 to " +:+ itoa maxIdleMinutes)) in
    match dec_int value with
    | Some n => if (n <? 0) || (maxIdleMinutes <? n) then bad else None
    | None => bad
    end
  else if is_key settingSearchOrder || is_key settingSearchLimits then
    match engine with
    | None => None
    | Some (web, buckets) =>
        if is_key settingSearchOrder then validateSearchOrder web value else validateSearchLimits buckets value
    end
  else if is_key settingCompaction then validateCompaction value
  else if is_key settingSetupComplete then
    match dec_bool value with
    | None => Some (invalidf (key +:+ " must be true or false"))
    | Some _ => None
    end
  else None.

(** What the harness uses for its own keys while the table does not name
    them. *)
(* @src internal/server/settings.go 83-101 settingsDefaults *)
Record settingsDefaults := mkSettingsDefaults {
  sd_SandboxImage : string; sd_SubagentMaxDepth : Z; sd_SubagentMaxChildren : Z; sd_SandboxLimits : limitsBody;
  sd_SandboxEgress : egressBody; sd_SearchOrder : list string; sd_SearchLimits : list (string * Limit);
  sd_Compaction : compactionBody; sd_WorkspaceIdleMinutes : Z;
}.

Context (deployment_image : string).

(* @src internal/server/settings.go 132-160 Server.writeSettings *)
Definition writeSettings (t : CDB) : answer (list (string * json) * settingsDefaults) :=
  inl (200, (Settings t,
    mkSettingsDefaults deployment_image defaultSubagentDepth defaultSubagentChildren (df_Limits builtinSandboxDefaults)
      (df_Egress builtinSandboxDefaults) (match engine with Some (web, _) => web | None => [] end)
      (match engine with Some (_, buckets) => buckets | None => [] end) compactionDefaults defaultIdleMinutes)).

(* @src internal/server/settings.go 103-106 Server.handleSettings *)
Definition handleSettings (t : CDB) : answer (list (string * json) * settingsDefaults) := writeSettings t.

(** [req] is listed in the order it is ranged over. *)
(* @src internal/server/settings.go 108-130 Server.handlePutSettings *)
Definition handlePutSettings (req : list (string * json)) (t : CDB) : answer (list (string * json) * settingsDefaults) * CDB :=
  match first_failure (fun p => validateSetting p.1 p.2 t) req with
  | Some e => (inr e, t)
  | None =>
      match SetSettings (map (fun p => (p.1, Some p.2)) req) t with
      | (Some e, t') => (inr (Plain e), t')
      | (None, t') => (writeSettings t', t')
      end
  end.
End settings.

(** ** On the wire *)

(* @src internal/server/profiles.go 27-44 profileSettingsBody *)
Record profileSettingsBody := mkSettingsBody {
  psb_ModelID : string; psb_WorkspacePrompt : option string; psb_ChatPrompt : option string; psb_Instructions : option string;
  psb_ContextFiles : option bool; psb_PreserveThinking : option bool; psb_Sampling : Sampling;
}.

(* @src internal/server/profiles.go 46-60 profileBody *)
Record profileBody := mkProfileBody {
  pfb_ID : string; pfb_Name : string; pfb_Description : string; pfb_Settings : profileSettingsBody;
  pfb_Tools : option (list string); pfb_Inherited : configurationBody; pfb_CreatedAt : Z;
}.

(** [pq_Tools] is [None] for null. *)
(* @src internal/server/profiles.go 77-85 profileRequest *)
Record profileRequest := mkProfileRequest {
  pq_Name : string; pq_Description : string; pq_Settings : profileSettingsBody; pq_Tools : option (list string);
}.

(* @src internal/server/profiles.go 94-112 sessionConfigurationResponse *)
Record sessionConfigurationResponse := mkSessionConfiguration {
  sr_SessionID : string; sr_ProfileID : string; sr_Overrides : profileSettingsBody; sr_Tools : option (list string);
  sr_Resolved : configurationBody; sr_Inherited : configurationBody;
}.

(** What [asSettings] and the configuration return of an error they make. *)
Definition plain {A} (r : A + GoError) : A + failure := match r with inl x => inl x | inr e => inr (Plain e) end.

(* @src internal/server/profiles.go 490-506 asSettings *)
Definition asSettings (p : ProfileSettings) : profileSettingsBody + GoError :=
  let body sampling := mkSettingsBody (ps_ModelID p) (ps_WorkspacePrompt p) (ps_ChatPrompt p) (ps_Instructions p)
    (ps_ContextFiles p) (ps_PreserveThinking p) sampling in
  match ps_Sampling p with
  | None => inl (body zeroSampling)
  | Some raw =>
      match unmarshal_sampling raw with
      | Some s => inl (body s)
      | None => inr (ErrText "decode the sampling parameters")
      end
  end.

(* @src internal/server/profiles.go 466-488 asProfile *)
Definition asProfile (p : ProfileRow) (b : configBase) : profileBody + GoError :=
  match asSettings (pf_Settings p) with
  | inr e => inr e
  | inl settings =>
      match inherited b p layerDefault (mkLayer layerProfile (pf_Settings p) (pf_Tools p)) [] with
      | inr e => inr e
      | inl c => inl (mkProfileBody (pf_ID p) (pf_Name p) (pf_Description p) settings (pf_Tools p) (asConfiguration c) (pf_CreatedAt p))
      end
  end.

(* @src internal/server/profiles.go 455-464 profileFailure *)
Definition profileFailure (p : ProfileRow) (e : GoError) : failure :=
  if is_sentinel "conflict" e then conflictf ("a profile named " +:+ go_quote (pf_Name p) +:+ " already exists")
  else if is_sentinel "not found" e && String.eqb (pf_ID p) EmptyString
  then invalidf ("model " +:+ ps_ModelID (pf_Settings p) +:+ " does not exist")
  else Plain e.

(** ** Checks *)

(** The texts that are bounded, as the map they are ranged over lists them. *)
Definition texts (b : profileSettingsBody) : list (string * option string) :=
  [("workspace_prompt", psb_WorkspacePrompt b); ("chat_prompt", psb_ChatPrompt b); ("instructions", psb_Instructions b)].

(** [order] is the permutation of the texts the map is ranged over in. *)
(* @src internal/server/profiles.go 417-453 Server.checkSettings *)
Definition checkSettings (order : list (string * option string) -> list (string * option string)) (b : profileSettingsBody)
    (t : CDB) : ProfileSettings + failure :=
  match List.find (fun p => match p.2 with Some text => too_long text | None => false end) (order (texts b)) with
  | Some (f, _) => inr (invalidf (f +:+ " must be at most " +:+ itoa maxPromptBytes +:+ " bytes"))
  | None =>
      match Validate (psb_Sampling b) with
      | Some message => inr (invalidf message)
      | None =>
          match
            (if String.eqb (psb_ModelID b) EmptyString then None else
             match getModel (psb_ModelID b) t with
             | inl _ => None
             | inr e => Some (if is_sentinel "not found" e then invalidf ("model " +:+ psb_ModelID b +:+ " does not exist") else Plain e)
             end)
          with
          | Some e => inr e
          | None =>
              match marshal_sampling (psb_Sampling b) with
              | None => inr (Plain (ErrText "encode the sampling parameters"))
              | Some raw =>
                  inl (mkSettings (psb_ModelID b) (psb_WorkspacePrompt b) (psb_ChatPrompt b) (psb_Instructions b)
                         (psb_ContextFiles b) (psb_PreserveThinking b) (Some raw))
              end
          end
      end
  end.

Section profiles.
Context (order : list (string * option string) -> list (string * option string)).
(** The tools every run shares, those the MCP servers offer now, and the
    servers there are. *)
Context (shared : option Registry) (offered : list OfferedTool) (servers : list (string * string)).

(* @src internal/server/profiles.go 391-415 Server.checkProfile *)
Definition checkProfile (req : profileRequest) (t : CDB) : ProfileRow + failure :=
  let name := trim_space (pq_Name req) in
  let description := trim_space (pq_Description req) in
  if String.eqb name EmptyString || (maxProfileName <? str_len name) || has_control name
  then inr (invalidf ("name must be 1 to " +:+ itoa maxProfileName +:+ " characters"))
  else if maxProfileDescription <? str_len description
  then inr (invalidf ("description must be at most " +:+ itoa maxProfileDescription +:+ " characters"))
  else match checkSettings order (pq_Settings req) t with
  | inr e => inr e
  | inl settings =>
      match pq_Tools req with
      | None => inl (mkProfile EmptyString name description settings None 0)
      | Some names =>
          match checkToolChoice shared offered servers false names with
          | inr e => inr e
          | inl names => inl (mkProfile EmptyString name description settings (Some names) 0)
          end
      end
  end.

(** ** Handlers *)

(* @src internal/server/profiles.go 376-389 Server.writeProfile *)
Definition writeProfile (status : Z) (p : ProfileRow) (t : CDB) : answer profileBody :=
  match asProfile p (loadConfigBase t) with
  | inr e => inr (Plain e)
  | inl body => inl (status, body)
  end.

Fixpoint profile_bodies (b : configBase) (ps : list ProfileRow) : list profileBody + GoError :=
  match ps with
  | [] => inl []
  | p :: ps' =>
      match asProfile p b with
      | inr e => inr e
      | inl body => match profile_bodies b ps' with inr e => inr e | inl l => inl (body :: l) end
      end
  end.

(** With the id of the default profile and the built-in prompts. *)
(* @src internal/server/profiles.go 114-136 Server.handleListProfiles *)
Definition handleListProfiles (t : CDB) : answer (list profileBody * string * (string * string)) :=
  let b := loadConfigBase t in
  match profile_bodies b (b_profiles b) with
  | inr e => inr (Plain e)
  | inl l => inl (200, (l, pf_ID (b_defaultProfile b), (WorkspacePrompt, ChatPrompt)))
  end.

(* @src internal/server/profiles.go 138-157 Server.handleCreateProfile *)
Definition handleCreateProfile (id : string) (now : Z) (req : profileRequest) (t : CDB) : answer profileBody * CDB :=
  match checkProfile req t with
  | inr e => (inr e, t)
  | inl p =>
      match CreateProfile id now p t with
      | (inr e, t') => (inr (profileFailure p e), t')
      | (inl created, t') => (writeProfile 201 created t', t')
      end
  end.

(* @src internal/server/profiles.go 159-180 Server.handleUpdateProfile *)
Definition handleUpdateProfile (id : string) (req : profileRequest) (t : CDB) : answer profileBody * CDB :=
  match checkProfile req t with
  | inr e => (inr e, t)
  | inl p =>
      let p := mkProfile id (pf_Name p) (pf_Description p) (pf_Settings p) (pf_Tools p) (pf_CreatedAt p) in
      match UpdateProfile p t with
      | (inr e, t') => (inr (profileFailure p e), t')
      | (inl updated, t') => (writeProfile 200 updated t', t')
      end
  end.

(* @src internal/server/profiles.go 182-196 Server.handleDeleteProfile *)
Definition handleDeleteProfile (id : string) (t : CDB) : answer unit * CDB :=
  match DeleteProfile id t with
  | (Some e, t') =>
      (inr (if is_sentinel "conflict" e then conflictf ("profile " +:+ id +:+ " is the last one, and a run always needs a profile")
            else Plain e), t')
  | (None, t') => (inl (204, tt), t')
  end.

(** A draft's profile and model, [None] when the editor keeps the saved one. *)
(* @src internal/server/profiles.go 221-226 editorDraft *)
Record editorDraft := mkDraft { dr_profileID : option string; dr_modelID : option string }.
Definition noDraft : editorDraft := mkDraft None None.

(* @src internal/server/profiles.go 228-244 editorDraft.apply *)
Definition draft_apply (d : editorDraft) (b : configBase) (sess : sessionConf) : sessionConf + failure :=
  match
    match dr_profileID d with
    | None => inl sess
    | Some id =>
        if negb (String.eqb id EmptyString) && negb (existsb (fun p => String.eqb (pf_ID p) id) (b_profiles b))
        then inr (invalidf ("profile " +:+ id +:+ " does not exist"))
        else inl (mkConf id (sc_Overrides sess) (sc_Tools sess))
    end
  with
  | inr e => inr e
  | inl sess =>
      match dr_modelID d with
      | None => inl sess
      | Some id =>
          if negb (String.eqb id EmptyString) && is_unset (model b id)
          then inr (invalidf ("model " +:+ id +:+ " does not exist"))
          else
            let o := sc_Overrides sess in
            inl (mkConf (sc_ProfileID sess)
                   (mkSettings id (ps_WorkspacePrompt o) (ps_ChatPrompt o) (ps_Instructions o) (ps_ContextFiles o)
                      (ps_PreserveThinking o) (ps_Sampling o)) (sc_Tools sess))
      end
  end.

(** What falls through to the top layer of [layers]. *)
Definition inherited_of (b : configBase) (r : list configLayer * ProfileRow * string) : runConfig + GoError :=
  let '(layers, profile, source) := r in
  match layers with
  | top :: below => inherited b profile source top below
  | [] => inr (ErrText "no layers")
  end.

(* @src internal/server/profiles.go 326-374 Server.writeSessionConfiguration *)
Definition writeSessionConfiguration (sid : string) (sess : sessionConf) (draft : editorDraft) (t : CDB)
    : answer sessionConfigurationResponse :=
  let b := loadConfigBase t in
  match sessionLayers b sess EmptyString with
  | inr e => inr (Plain e)
  | inl (layers, profile, source) =>
      match resolve b profile source layers with
      | inr e => inr (Plain e)
      | inl resolved =>
          match draft_apply draft b sess with
          | inr e => inr e
          | inl drafted =>
              match sessionLayers b drafted EmptyString with
              | inr e => inr (Plain e)
              | inl r =>
                  match inherited_of b r with
                  | inr e => inr (Plain e)
                  | inl below =>
                      match asSettings (sc_Overrides sess) with
                      | inr e => inr (Plain e)
                      | inl overrides =>
                          inl (200, mkSessionConfiguration sid (sc_ProfileID sess) overrides (sc_Tools sess)
                                 (asConfiguration resolved) (asConfiguration below))
                      end
                  end
              end
          end
      end
  end.

(** A session's row, with its overrides decoded. *)
Definition session_conf (sid : string) (t : CDB) : sessionConf + GoError :=
  match getSession sid (c_db t) with
  | inr e => inr e
  | inl s => scan_conf s
  end.

(* @src internal/server/profiles.go 198-219 Server.handleSessionConfiguration *)
Definition handleSessionConfiguration (sid : string) (draft : editorDraft) (t : CDB) : answer sessionConfigurationResponse :=
  match session_conf sid t with
  | inr e => inr (Plain e)
  | inl sess => writeSessionConfiguration sid sess draft t
  end.

(* @src internal/server/profiles.go 315-324 Server.writeSessionConfigurationOf *)
Definition writeSessionConfigurationOf (sid : string) (t : CDB) : answer sessionConfigurationResponse :=
  handleSessionConfiguration sid noDraft t.

(* @src internal/server/profiles.go 246-269 Server.handleInheritedProfile *)
Definition handleInheritedProfile (modelID : string) (t : CDB) : answer configurationBody :=
  let b := loadConfigBase t in
  if negb (String.eqb modelID EmptyString) && is_unset (model b modelID)
  then inr (invalidf ("model " +:+ modelID +:+ " does not exist"))
  else match inherited b (b_defaultProfile b) layerDefault (mkLayer layerProfile (only_model modelID) None) [] with
  | inr e => inr (Plain e)
  | inl c => inl (200, asConfiguration c)
  end.

(* @src internal/server/profiles.go 271-291 Server.handleSetSessionProfile *)
Definition handleSetSessionProfile (sid profileID : string) (t : CDB) : answer sessionConfigurationResponse * CDB :=
  match SetSessionProfile sid profileID t with
  | (Some e, t') =>
      (inr (if is_sentinel "not found" e && negb (String.eqb profileID EmptyString)
            then match session_conf sid t' with
                 | inl _ => invalidf ("profile " +:+ profileID +:+ " does not exist")
                 | inr _ => Plain e
                 end
            else Plain e), t')
  | (None, t') => (writeSessionConfigurationOf sid t', t')
  end.

(* @src internal/server/profiles.go 293-313 Server.handleSetSessionOverrides *)
Definition handleSetSessionOverrides (sid : string) (req : profileSettingsBody) (t : CDB)
    : answer sessionConfigurationResponse * CDB :=
  match checkSettings order req t with
  | inr e => (inr e, t)
  | inl overrides =>
      match SetSessionOverrides sid overrides t with
      | (Some e, t') => (inr (Plain e), t')
      | (None, t') => (writeSessionConfigurationOf sid t', t')
      end
  end.
End profiles.
