(* ===== verification/ConfigInvariant.v ===== *)
(** The claim that a session can always be configured: whatever requests
    changed providers, models, profiles, settings and sessions, each session's
    configuration resolves to parameters an endpoint may be sent. *)
From Stdlib Require Import Floats.SpecFloat.
From stdpp Require Import sorting.
From S2P Require Import Prelude GoStr Float64 Provider Sampling Failure Tool Entries EntriesClaims Tables.
From S2P Require Import Config Configuration ConfigurationClaims ToolChoice Api Providers Sandbox ModelsApi.
From S2P Require Import Settings.
From stdpp Require Import options.
Open Scope Z_scope.

(** ** Parameters *)

Lemma within_layer a b lo hi : within a lo hi = true -> within b lo hi = true -> within (layer a b) lo hi = true.
Proof. by destruct a, b. Qed.

Lemma layer_forall {T} (P : T -> Prop) a b :
  (forall x, a = Some x -> P x) -> (forall x, b = Some x -> P x) -> forall x, layer a b = Some x -> P x.
Proof. destruct a, b; naive_solver. Qed.

Lemma acceptable_Over s lower : acceptable s -> acceptable lower -> acceptable (Over s lower).
Proof.
  intros [] []. constructor; cbn [Over Temperature TopP TopK MinP FrequencyPenalty PresencePenalty Stop MaxOutput ReasoningEffort];
    try (by apply within_layer); try (by apply layer_forall).
  intros l Hl. destruct (Stop s) eqn:E; [injection Hl as <-|]; eauto.
Qed.

Lemma acceptable_zero : acceptable zeroSampling.
Proof. by constructor. Qed.

Lemma acceptable_foldr row ss : acceptable row -> Forall acceptable ss -> acceptable (foldr Over row ss).
Proof. intros Hr. induction 1; [done|]. by apply acceptable_Over. Qed.

Lemma acceptable_effort e s : acceptable s -> (forall x, e = Some x -> ValidReasoningEffort x = true) -> acceptable (with_effort e s).
Proof. intros [] He. by constructor. Qed.

(** What the checks let through of a float has an encoding. *)
Lemma between_finite a b x : finite a = true -> finite b = true -> f64_leb a x && f64_leb x b = true -> finite x = true.
Proof. intros Ha Hb [H1 H2]%andb_true_iff. unfold f64_leb, SFleb in *. by destruct x as [|[|]| |], a as [|[|]| |], b as [|[|]| |]. Qed.

Lemma within_finite o lo hi :
  finite (f64_of_Z lo) = true -> finite (f64_of_Z hi) = true -> within o lo hi = true -> finite_or_nil o = true.
Proof. intros Hl Hh. destruct o as [x|]; [|done]. cbn. by apply between_finite. Qed.

Lemma acceptable_finite s : acceptable s -> finite_sampling s.
Proof.
  intros []. apply finite_fields. repeat split; (eapply within_finite; [| |eassumption]; reflexivity).
Qed.

(** ** Checked settings *)

(** Sampling parameters as a row holds them. *)
Definition good_raw (o : option json) : Prop :=
  match o with None => True | Some raw => exists s, unmarshal_sampling raw = Some s /\ acceptable s end.

(** What [checkSettings] let through, at whatever time, of a request whose
    numbers are integers of the machine. *)
Definition checked (o : ProfileSettings) : Prop :=
  exists order b t0, typed_sampling (psb_Sampling b) = true /\ checkSettings order b t0 = inl o.

Lemma checked_raw o : checked o -> exists s, ps_Sampling o = Some (JObject (sampling_members s)) /\ acceptable s /\ typed_sampling s = true.
Proof.
  intros (order & b & t0 & Ht & H). unfold checkSettings in H. destruct (List.find _ _) as [[]|]; [done|].
  destruct (Validate (psb_Sampling b)) eqn:Hv; [done|]. apply Validate_None in Hv. destruct (if String.eqb _ _ then _ else _); [done|].
  rewrite marshal_finite in H by by apply acceptable_finite. injection H as <-. eauto.
Qed.

Lemma checked_good o : checked o -> good_raw (ps_Sampling o).
Proof.
  intros (s & -> & Ha & Ht)%checked_raw. exists s. split; [|done]. apply unmarshal_members; [by apply acceptable_finite|done].
Qed.

Lemma good_scan raw : good_raw (Some raw) -> good_raw (scan_sampling raw).
Proof. by destruct raw as [| | | | | | |[|]]. Qed.

(** ** Overrides as they are stored *)

Definition good_overrides (j : json) : Prop := exists o, readOverrides j = inl o /\ good_raw (ps_Sampling o).

Lemma settings_members_get k o :
  doc_get k (settings_members o) =
  if String.eqb k "model_id" then JString <$> omit_empty (ps_ModelID o) else
  if String.eqb k "workspace_prompt" then JString <$> ps_WorkspacePrompt o else
  if String.eqb k "chat_prompt" then JString <$> ps_ChatPrompt o else
  if String.eqb k "instructions" then JString <$> ps_Instructions o else
  if String.eqb k "context_files" then JBool <$> ps_ContextFiles o else
  if String.eqb k "preserve_thinking" then JBool <$> ps_PreserveThinking o else
  if String.eqb k "sampling" then ps_Sampling o else None.
Proof.
  unfold settings_members, omit_empty. rewrite !doc_get_app, !doc_get_opt, (option_fmap_id (ps_Sampling o)).
  repeat match goal with |- context [String.eqb k ?s] =>
    destruct (String.eqb_spec k s) as [->|]; [cbn [String.eqb Ascii.eqb Bool.eqb]; by repeat (case_match; simplify_eq/=)|] end.
  done.
Qed.

Lemma field_same {T} (dec : json -> option T) k l l' : doc_get k l = doc_get k l' -> field dec k l = field dec k l'.
Proof. intros H. unfold field. by rewrite H. Qed.

Lemma readOverrides_members l o :
  doc_get "sampling" l = ps_Sampling o ->
  (forall k, k <> "model_id"%string -> doc_get k l = doc_get k (settings_members o)) ->
  is_Some (field dec_string "model_id" l) ->
  exists o', readOverrides (JObject l) = inl o' /\ ps_Sampling o' = ps_Sampling o.
Proof.
  intros Hs Hk [m Hm]. unfold readOverrides. rewrite Hm. cbn [mbind option_bind].
  rewrite (field_dec dec_string JString "workspace_prompt" l (ps_WorkspacePrompt o)),
    (field_dec dec_string JString "chat_prompt" l (ps_ChatPrompt o)),
    (field_dec dec_string JString "instructions" l (ps_Instructions o)),
    (field_dec dec_bool JBool "context_files" l (ps_ContextFiles o)),
    (field_dec dec_bool JBool "preserve_thinking" l (ps_PreserveThinking o));
    try (rewrite Hk by done; by rewrite settings_members_get); try (by intros v _).
  cbn. eexists. split; [done|]. exact Hs.
Qed.

Lemma overridesJSON_good o : checked o -> good_overrides (overridesJSON o).
Proof.
  intros Hc. pose proof (checked_good o Hc) as Hg. unfold overridesJSON. destruct (Empty o); [by exists noSettings|].
  destruct (readOverrides_members (settings_members o) o) as (o' & Hr & Hs); [by rewrite settings_members_get|done| |].
  - eexists. apply (field_dec dec_string JString). { by rewrite settings_members_get. } by intros v _.
  - exists o'. by rewrite Hs.
Qed.

Lemma doc_get_filter k x (l : list (string * json)) :
  k <> x -> doc_get k (base.filter (fun p => p.1 <> x) l) = doc_get k l.
Proof.
  intros Hk. induction l as [|[k' j] l IH]; [done|]. rewrite filter_cons. cbn [fst].
  destruct (decide (k' <> x)) as [Hx|Hx]; cbn [doc_get]; [by rewrite IH|].
  destruct (String.eqb_spec k k') as [->|]; [|done]. by destruct (decide (k' = x)).
Qed.

Lemma doc_get_filter_out x (l : list (string * json)) : doc_get x (base.filter (fun p => p.1 <> x) l) = None.
Proof.
  induction l as [|[k' j] l IH]; [done|]. rewrite filter_cons. cbn [fst].
  destruct (decide (k' <> x)) as [Hx|Hx]; [|done]. cbn [doc_get]. by destruct (String.eqb_spec x k') as [<-|].
Qed.

(** A model that goes leaves overrides that still read. *)
Lemma unset_override_good id s : good_overrides (Overrides s) -> good_overrides (Overrides (unset_override id s)).
Proof.
  intros Hg. unfold unset_override. destruct (Overrides s) as [| | | | | | |l] eqn:E; try by rewrite E.
  destruct (match doc_get _ l with Some _ => _ | None => _ end); [|by rewrite E].
  cbn [Overrides]. set (rest := base.filter _ l). assert (Hrest : good_overrides (JObject rest)).
  { destruct Hg as (o & Hr & Hg). unfold good_overrides, readOverrides in *.
    destruct (field dec_string "model_id" l) as [m|] eqn:Em; cbn [mbind option_bind] in Hr; [|done].
    rewrite (field_same dec_string "workspace_prompt" rest l), (field_same dec_string "chat_prompt" rest l),
      (field_same dec_string "instructions" rest l), (field_same dec_bool "context_files" rest l),
      (field_same dec_bool "preserve_thinking" rest l); try by apply doc_get_filter.
    assert (Hm : field dec_string "model_id" rest = Some None) by (unfold field, rest; by rewrite doc_get_filter_out).
    rewrite Hm. cbn [mbind option_bind].
    repeat match goal with H : context [match (?m ≫= _) with Some _ => _ | None => _ end] |- _ =>
      destruct m eqn:?; cbn [mbind option_bind] in H |- *; [|done] end.
    injection Hr as <-. eexists. split; [done|]. cbn [ps_Sampling] in *. unfold rest. by rewrite doc_get_filter. }
  by destruct rest; [exists noSettings|].
Qed.

(** ** The invariant *)

Record config_ok (t : CDB) : Prop := {
  ok_models : forall id m, c_models t !! id = Some m ->
    m_ID m = id /\ validateModel m = None /\ is_Some (c_providers t !! m_ProviderID m);
  ok_profiles : forall id p, c_profiles t !! id = Some p -> pf_ID p = id /\ good_raw (ps_Sampling (pf_Settings p));
  ok_some_profile : c_profiles t <> ∅;
  ok_sessions : forall id s, sessions (c_db t) !! id = Some s ->
    good_overrides (Overrides s) /\ key_ok (ProfileID s) (c_profiles t) = true;
}.

(** The tables, and the overrides that were read of sessions, which are given
    to a child session later. *)
Record CState := mkCState { cs_db : CDB; cs_read : list json }.

(** What another request, or a run, does to the sessions: a session keeps what
    it sets, or is a new one that sets nothing or what was read of another,
    with a profile there is. *)
Definition sessions_follow (past : list json) (t : CDB) (db : DB) : Prop :=
  forall id s, sessions db !! id = Some s ->
    (exists s0, sessions (c_db t) !! id = Some s0 /\ Overrides s = Overrides s0 /\ ProfileID s = ProfileID s0) \/
    ((Overrides s = JNull \/ Overrides s ∈ past) /\ key_ok (ProfileID s) (c_profiles t) = true).

(** Each transaction of a request; what a request checked before it wrote, it
    may have checked against other tables. *)
Inductive config_step (s : CState) : CState -> Prop :=
| create_provider id now p : config_step s (mkCState (CreateProvider id now p (cs_db s)).2 (cs_read s))
| update_provider p : config_step s (mkCState (UpdateProvider p (cs_db s)).2 (cs_read s))
| delete_provider id : config_step s (mkCState (DeleteProvider id (cs_db s)).2 (cs_read s))
| create_model id now m : validateModel m = None -> config_step s (mkCState (CreateModel id now m (cs_db s)).2 (cs_read s))
| update_model m : validateModel m = None -> config_step s (mkCState (UpdateModel m (cs_db s)).2 (cs_read s))
| delete_model id : config_step s (mkCState (DeleteModel id (cs_db s)).2 (cs_read s))
| create_profile id now p : checked (pf_Settings p) -> config_step s (mkCState (CreateProfile id now p (cs_db s)).2 (cs_read s))
| update_profile p : checked (pf_Settings p) -> config_step s (mkCState (UpdateProfile p (cs_db s)).2 (cs_read s))
| delete_profile id : config_step s (mkCState (DeleteProfile id (cs_db s)).2 (cs_read s))
| choose_profile sid id : config_step s (mkCState (SetSessionProfile sid id (cs_db s)).2 (cs_read s))
| set_overrides sid o : checked o -> config_step s (mkCState (SetSessionOverrides sid o (cs_db s)).2 (cs_read s))
| put_settings vs : config_step s (mkCState (SetSettings vs (cs_db s)).2 (cs_read s))
| read_session sid r : sessions (c_db (cs_db s)) !! sid = Some r -> config_step s (mkCState (cs_db s) (Overrides r :: cs_read s))
| change_sessions db : sessions_follow (cs_read s) (cs_db s) db -> config_step s (mkCState (with_db db (cs_db s)) (cs_read s)).

Definition cstate_ok (s : CState) : Prop := config_ok (cs_db s) /\ Forall good_overrides (cs_read s).

Lemma validate_switch m :
  validateModel m = None ->
  forall id created provider, validateModel (mkModel id provider (m_Name m) (m_Model m) (m_ContextWindow m) (m_MaxOutput m)
    (m_ReasoningEffort m) (m_ReasoningEfforts m) (thinkingSwitch (m_ThinkingSwitch m)) (m_PreserveThinking m) (m_ImageInput m)
    created) = None.
Proof.
  intros H id created provider. unfold validateModel in *. cbn [m_ID m_ProviderID m_Name m_Model m_ContextWindow m_MaxOutput
    m_ReasoningEffort m_ReasoningEfforts m_ThinkingSwitch m_PreserveThinking m_ImageInput].
  assert (Hs : ValidThinkingSwitch (thinkingSwitch (m_ThinkingSwitch m)) = ValidThinkingSwitch (m_ThinkingSwitch m)).
  { unfold thinkingSwitch. by destruct (String.eqb_spec (m_ThinkingSwitch m) EmptyString) as [->|]. }
  rewrite Hs. by destruct (ValidThinkingSwitch (m_ThinkingSwitch m)); [|repeat case_match].
Qed.

Lemma key_ok_insert {A} id k v (m : gmap string A) : key_ok id m = true -> key_ok id (<[k := v]> m) = true.
Proof.
  unfold key_ok. rewrite !orb_true_iff. intros [H|H]; [by left|right]. apply bool_decide_eq_true_1 in H.
  apply bool_decide_eq_true_2. destruct (decide (k = id)) as [->|]; [rewrite lookup_insert_eq|rewrite lookup_insert_ne by done]; eauto.
Qed.

Lemma insert_ne_empty {A} k (v : A) (m : gmap string A) : <[k := v]> m <> ∅.
Proof. intros H. apply (f_equal (lookup k)) in H. by rewrite lookup_insert_eq, lookup_empty in H. Qed.

(** Steps that touch one table. *)
Lemma providers_ok t x : config_ok t -> (forall k, is_Some (c_providers t !! k) -> is_Some (x !! k)) -> config_ok (with_providers x t).
Proof. intros [] H. constructor; cbn; [|done..]. intros id m Hm. destruct (ok_models0 id m Hm) as (? & ? & ?). auto. Qed.

Lemma models_ok t id m :
  config_ok t -> m_ID m = id -> validateModel m = None -> is_Some (c_providers t !! m_ProviderID m) ->
  config_ok (with_models (<[id := m]> (c_models t)) t).
Proof.
  intros [] ? ? ?. constructor; cbn; [|done..]. intros id' m'. rewrite lookup_insert_Some. intros [[<- <-]|[_ Hm]]; [done|auto].
Qed.

Lemma profiles_ok t id p :
  config_ok t -> pf_ID p = id -> good_raw (ps_Sampling (pf_Settings p)) -> config_ok (with_profiles (<[id := p]> (c_profiles t)) t).
Proof.
  intros [] ? ?. constructor; cbn; [done| |apply insert_ne_empty|].
  - intros id' p'. rewrite lookup_insert_Some. intros [[<- <-]|[_ Hp]]; [done|auto].
  - intros sid s Hs. destruct (ok_sessions0 sid s Hs). split; [done|]. by apply key_ok_insert.
Qed.

Lemma session_ok t sid f t' :
  config_ok t -> change_session f sid t = Some t' ->
  (forall s, sessions (c_db t) !! sid = Some s -> good_overrides (Overrides (f s)) /\ key_ok (ProfileID (f s)) (c_profiles t) = true) ->
  config_ok t'.
Proof.
  intros [] H Hf. unfold change_session in H. destruct (sessions (c_db t) !! sid) as [s|] eqn:Es; [|done]. injection H as <-.
  constructor; cbn; [done..|]. intros id' s'. rewrite lookup_insert_Some. intros [[<- <-]|[_ Hs]]; eauto.
Qed.

Lemma drop_models_ok t models :
  config_ok t -> models ⊆ c_models t -> config_ok (drop_models models t).
Proof.
  intros [] Hsub. constructor; cbn.
  - intros id m Hm. apply ok_models0. by eapply lookup_weaken.
  - intros id p. rewrite lookup_fmap_Some. intros (p0 & <- & Hp). destruct (ok_profiles0 id p0 Hp) as [? ?].
    unfold unset_gone. by destruct (key_ok _ _).
  - intros H. by apply fmap_empty_iff in H.
  - intros id s Hs. destruct (ok_sessions0 id s Hs) as [? Hk]. split; [done|]. unfold key_ok in *.
    rewrite lookup_fmap. destruct (c_profiles t !! ProfileID s); [|done]. cbn. by rewrite orb_comm.
Qed.

Lemma delete_profile_ok t id :
  config_ok t -> (exists id', id' <> id /\ is_Some (c_profiles t !! id')) ->
  config_ok (with_db (set_sessions (unset_profile id) (c_db t)) (with_profiles (delete id (c_profiles t)) t)).
Proof.
  intros [] (id' & Hne & p' & Hp'). constructor; cbn; [done| | |].
  - intros k p [_ Hp]%lookup_delete_Some. eauto.
  - intros H. apply (f_equal (lookup id')) in H. by rewrite lookup_delete_ne, Hp', lookup_empty in H.
  - intros k s. rewrite lookup_fmap_Some. intros (s0 & <- & Hs). destruct (ok_sessions0 k s0 Hs) as [Ho Hk].
    unfold unset_profile. destruct (String.eqb_spec (ProfileID s0) id) as [|Hn]; cbn; [done|]. split; [done|].
    unfold key_ok in *. by rewrite lookup_delete_ne.
Qed.

Lemma other_key {A} (m : gmap string A) id :
  id ∈ map fst (map_to_list m) -> length (map fst (map_to_list m)) <> 1%nat -> exists id', id' <> id /\ is_Some (m !! id').
Proof.
  intros Hin Hlen. pose proof (NoDup_fst_map_to_list m) as Hnd. change (map_to_list m).*1 with (map fst (map_to_list m)) in Hnd.
  assert (Hall : forall k, k ∈ map fst (map_to_list m) -> is_Some (m !! k)).
  { intros k (x & -> & Hx)%list_elem_of_fmap. apply elem_of_map_to_list' in Hx. eauto. }
  destruct (map fst (map_to_list m)) as [|a [|b l]]; [by apply elem_of_nil in Hin|done|].
  apply NoDup_cons in Hnd as [Hab _]. destruct (decide (a = id)) as [->|Hne].
  - exists b. split; [|apply Hall; apply elem_of_cons; right; apply elem_of_cons; by left].
    intros ->. apply Hab, elem_of_cons. by left.
  - exists a. split; [done|apply Hall, elem_of_cons; by left].
Qed.

Lemma stored_good o : checked o -> good_raw (ps_Sampling (stored_settings o)).
Proof.
  intros Hc. pose proof (checked_good o Hc) as Hg. cbn. apply good_scan. destruct (ps_Sampling o); [exact Hg|].
  exists zeroSampling. split; [done|apply acceptable_zero].
Qed.

Lemma delete_provider_ok t id : config_ok t -> config_ok (DeleteProvider id t).2.
Proof.
  intros Ht. unfold DeleteProvider. destruct (c_providers t !! id) as [old|] eqn:Eid; [|done]. cbn.
  assert (Hd : config_ok (drop_models (base.filter (fun p => m_ProviderID p.2 <> id) (c_models t)) t)).
  { apply drop_models_ok; [done|apply map_filter_subseteq]. }
  destruct Hd. constructor; cbn; [|done..]. intros k m Hk. destruct (ok_models0 k m Hk) as (? & ? & Hprov). split; [done|]. split; [done|].
  apply map_lookup_filter_Some in Hk as [_ Hne]. cbn in Hne. by rewrite lookup_delete_ne.
Qed.

Lemma delete_model_ok t id : config_ok t -> config_ok (DeleteModel id t).2.
Proof.
  intros Ht. unfold DeleteModel. destruct (c_models t !! id) as [old|]; [|done]. cbn.
  assert (Hd : config_ok (drop_models (delete id (c_models t)) t)) by (apply drop_models_ok; [done|apply delete_subseteq]).
  destruct Hd. constructor; cbn; [done..|]. intros k s. rewrite lookup_fmap_Some. intros (s0 & <- & Hs).
  destruct (ok_sessions0 k s0 Hs) as [Ho Hk]. split; [by apply unset_override_good|]. unfold unset_override. by repeat case_match.
Qed.

Lemma config_step_ok s s' : cstate_ok s -> config_step s s' -> cstate_ok s'.
Proof.
  intros [Ht Hp] Hstep. destruct s as [t past]. cbn [cs_db cs_read] in *.
  destruct Hstep as [id now p|p|id|id now m Hm|m Hm|id|id now p Hc|p Hc|id|sid id|sid o Hc|vs|sid r Hr|db Hdb]; cbn [cs_db cs_read] in *;
    try (split; [cbn|exact Hp]).
  - unfold CreateProvider. destruct (_ || _); [done|]. apply providers_ok; [done|]. cbn. intros k [x Hk]. destruct (decide (k = if String.eqb (pr_ID p) EmptyString then id else pr_ID p)) as [->|];
      [rewrite lookup_insert_eq|rewrite lookup_insert_ne by done]; eauto.
  - unfold UpdateProvider. destruct (c_providers t !! pr_ID p) as [old|]; [|done]. destruct (taken _ _ _ _); [done|].
    apply providers_ok; [done|]. cbn. intros k [x Hk]. destruct (decide (k = pr_ID p)) as [->|];
      [rewrite lookup_insert_eq|rewrite lookup_insert_ne by done]; eauto.
  - by apply delete_provider_ok.
  - unfold CreateModel. cbn [m_ProviderID]. destruct (c_providers t !! m_ProviderID m) as [pr|] eqn:Ep; [|done].
    destruct (negb _); [done|]. destruct (_ || _); [done|]. apply models_ok; [done|done| |cbn; by rewrite Ep]. by apply validate_switch.
  - unfold UpdateModel. destruct (c_models t !! m_ID m) as [old|] eqn:Eo; [|done]. destruct (negb _); [done|].
    destruct (taken _ _ _ _); [done|]. apply models_ok; [done|done|by apply validate_switch|]. cbn. by eapply ok_models.
  - by apply delete_model_ok.
  - unfold CreateProfile. destruct (_ || _); [done|]. destruct (negb _); [done|]. apply profiles_ok; [done|done|by apply stored_good].
  - unfold UpdateProfile. destruct (c_profiles t !! pf_ID p); [|done]. destruct (taken _ _ _ _); [done|]. destruct (negb _); [done|].
    apply profiles_ok; [done|done|by apply stored_good].
  - unfold DeleteProfile. destruct (negb _) eqn:En; [done|]. destruct (Nat.eqb_spec (length (map fst (map_to_list (c_profiles t)))) 1) as [|Hl]; [done|].
    apply delete_profile_ok; [done|]. apply other_key; [|done]. apply negb_false_iff in En. by apply bool_decide_eq_true_1 in En.
  - unfold SetSessionProfile. destruct (change_session _ sid t) eqn:E; [|done]. destruct (key_ok id (c_profiles t)) eqn:Ek; [|done].
    eapply session_ok; [exact Ht|exact E|]. intros s Hs. cbn. split; [by eapply ok_sessions|done].
  - unfold SetSessionOverrides. destruct (change_session _ sid t) eqn:E; [|done]. eapply session_ok; [exact Ht|exact E|].
    intros s Hs. cbn. split; [by apply overridesJSON_good|by eapply ok_sessions].
  - unfold SetSettings. destruct (foldl _ _ _); [|done]. destruct Ht. by constructor.
  - split; [done|]. constructor; [by eapply ok_sessions|done].
  - destruct Ht. constructor; cbn; [done..|]. intros k s Hk. destruct (Hdb k s Hk) as [(s0 & H0 & -> & ->)|[[->|Hin] Hkey]].
    + by eapply ok_sessions0.
    + split; [by exists noSettings|done].
    + split; [|done]. rewrite Forall_forall in Hp. by apply Hp.
Qed.

(** ** Resolving *)

Lemma base_models t m : m ∈ b_models (loadConfigBase t) <-> exists id, c_models t !! id = Some m.
Proof.
  cbn. unfold Models. rewrite merge_sort_Permutation, list_elem_of_fmap. split.
  - intros ([id m'] & -> & Hm%elem_of_map_to_list). eauto.
  - intros [id Hm]. exists (id, m). split; [done|]. by apply elem_of_map_to_list.
Qed.

Lemma base_profiles t p : p ∈ b_profiles (loadConfigBase t) <-> exists id, c_profiles t !! id = Some p.
Proof.
  cbn. unfold Profiles. rewrite merge_sort_Permutation, list_elem_of_fmap. split.
  - intros ([id p'] & -> & Hp%elem_of_map_to_list). eauto.
  - intros [id Hp]. exists (id, p). split; [done|]. by apply elem_of_map_to_list.
Qed.

Lemma find_elem {A} (f : A -> bool) l x : List.find f l = Some x -> x ∈ l /\ f x = true.
Proof. intros [H1 H2]%List.find_some. split; [by apply list_elem_of_In|done]. Qed.

Lemma default_find {A} (f : A -> bool) l d : d ∈ l -> default d (List.find f l) ∈ l.
Proof. intros Hd. destruct (List.find f l) eqn:E; [by apply find_elem in E as [? _]|done]. Qed.

Lemma defaultModel_elem l t : l <> [] -> (defaultModel l t).1 ∈ l.
Proof.
  intros Hl. unfold defaultModel. destruct l as [|m l]; [done|]. assert (Hm : m ∈ m :: l) by set_solver.
  destruct (String.eqb _ _); [done|]. destruct (List.find _ _) eqn:E; [|done]. by apply find_elem in E as [? _].
Qed.

Lemma defaultProfile_elem l t : l <> [] -> defaultProfile l t ∈ l.
Proof.
  intros Hl. unfold defaultProfile. destruct l as [|p l]; [done|]. assert (Hp : p ∈ p :: l) by set_solver.
  destruct (readSetting _ _ _); [|done]. destruct (String.eqb _ _); [done|]. by apply default_find.
Qed.

(** The profile a session runs with is the one it chose, or the default. *)
Lemma profileOf_spec t id :
  config_ok t -> key_ok id (c_profiles t) = true ->
  let r := profileOf (loadConfigBase t) id in
  c_profiles t !! pf_ID r.1 = Some r.1 /\ (id <> EmptyString -> pf_ID r.1 = id).
Proof.
  intros Ht Hk r. assert (Hne : b_profiles (loadConfigBase t) <> []).
  { intros He. destruct (map_choose (c_profiles t) (ok_some_profile t Ht)) as (k & p & Hp).
    assert (Hin : p ∈ b_profiles (loadConfigBase t)) by (apply base_profiles; eauto). rewrite He in Hin. by apply elem_of_nil in Hin. }
  assert (Hrow : forall p, p ∈ b_profiles (loadConfigBase t) -> c_profiles t !! pf_ID p = Some p).
  { intros p [k Hp]%base_profiles. by destruct (ok_profiles t Ht k p Hp) as [-> _]. }
  assert (Hdef : b_defaultProfile (loadConfigBase t) ∈ b_profiles (loadConfigBase t)) by by apply defaultProfile_elem.
  unfold r, profileOf. destruct (String.eqb_spec id EmptyString) as [->|Hid]; cbn [fst]; [split; [by apply Hrow|done]|].
  destruct (List.find _ _) as [p|] eqn:E; cbn [fst].
  - apply find_elem in E as [Hp Heq]. apply String.eqb_eq in Heq. split; [by apply Hrow|done].
  - exfalso. unfold key_ok in Hk. apply orb_true_iff in Hk as [Hk|Hk]; [by apply String.eqb_eq in Hk|].
    apply bool_decide_eq_true_1 in Hk as [p Hp]. assert (Hin : p ∈ b_profiles (loadConfigBase t)) by (apply base_profiles; eauto).
    apply list_elem_of_In in Hin. apply (List.find_none _ _ E) in Hin. destruct (ok_profiles t Ht id p Hp) as [Heq _].
    by rewrite Heq, String.eqb_refl in Hin.
Qed.

(** A layer whose parameters decode to acceptable ones. *)
Definition good_layer (l : configLayer) : Prop := good_raw (ps_Sampling (cl_settings l)).

Lemma good_layer_sampling l : good_layer l -> exists s, layer_sampling l = Some s /\ acceptable s.
Proof.
  unfold good_layer, layer_sampling. destruct (ps_Sampling (cl_settings l)); [done|]. intros _. exists zeroSampling.
  split; [done|apply acceptable_zero].
Qed.

Lemma modelSampling_acceptable m : m = zeroModel \/ validateModel m = None -> acceptable (modelSampling m).
Proof.
  intros Hm. assert (He : ValidReasoningEffort (m_ReasoningEffort m) = true).
  { destruct Hm as [->|Hm]; [done|]. unfold validateModel in Hm. destruct (ValidReasoningEffort _); [done|]. by repeat case_match. }
  constructor; cbn; try done.
  - intros k. destruct (Z.ltb_spec 0 (m_MaxOutput m)); [|done]. intros [= <-]. lia.
  - intros e. destruct (String.eqb _ _); [done|]. by intros [= <-].
Qed.

Lemma sampled_acceptable b profile source layers r :
  read_layers b layers (start b profile source) = inl r -> Forall good_layer layers ->
  rc_model (rd_config r) = zeroModel \/ validateModel (rc_model (rd_config r)) = None ->
  acceptable (rc_sampling (sampled layers r)).
Proof.
  intros Hr Hl Hm. pose proof (modelSampling_acceptable _ Hm) as Hrow. pose proof (read_layers_samplings _ _ _ _ Hr) as Hs.
  assert (Ha : Forall acceptable (rd_samplings r)).
  { clear -Hl Hs. induction Hs as [|l s ls ss Hls _ IH]; [constructor|]. apply Forall_cons in Hl as [Hl1 Hl2].
    constructor; [|by apply IH]. destruct (good_layer_sampling l Hl1) as (s' & Hs' & Hacc). congruence. }
  rewrite sampled_eq. cbn [rc_sampling]. assert (Hfull : acceptable (full_sampling r)) by by apply acceptable_foldr.
  destruct (match ReasoningEffort (full_sampling r) with Some _ => _ | None => _ end); [|done].
  apply acceptable_effort; [done|]. apply Hrow.
Qed.

Lemma session_layers_good t conf requested :
  config_ok t -> good_raw (ps_Sampling (sc_Overrides conf)) -> key_ok (sc_ProfileID conf) (c_profiles t) = true ->
  requested = EmptyString \/ (exists id m, c_models t !! id = Some m /\ m_Name m = requested) ->
  exists layers source, let profile := (profileOf (loadConfigBase t) (sc_ProfileID conf)).1 in
    sessionLayers (loadConfigBase t) conf requested = inl (layers, profile, source) /\ Forall good_layer layers.
Proof.
  intros Ht Hconf Hkey Hreq. destruct (profileOf_spec t _ Ht Hkey) as [Hp _]. unfold sessionLayers.
  destruct (profileOf (loadConfigBase t) (sc_ProfileID conf)) as [profile source]. cbn [fst] in *.
  destruct (ok_profiles t Ht _ _ Hp) as [_ Hgood].
  assert (Hown : Forall good_layer [mkLayer layerSession (sc_Overrides conf) (sc_Tools conf);
      mkLayer layerProfile (pf_Settings profile) (pf_Tools profile)]) by by repeat constructor.
  destruct (String.eqb_spec requested EmptyString); [by eexists _, _|].
  destruct Hreq as [|(id & m & Hm & Hname)]; [done|].
  destruct (List.find (fun m => String.eqb (m_Name m) requested) (b_models (loadConfigBase t))) as [m'|] eqn:E.
  - eexists _, _. split; [done|]. by constructor.
  - exfalso. assert (Hin : m ∈ b_models (loadConfigBase t)) by (apply base_models; eauto).
    apply list_elem_of_In in Hin. apply (List.find_none _ _ E) in Hin. by rewrite Hname, String.eqb_refl in Hin.
Qed.

(** The model of a configuration is a row of the table, when there is one. *)
Lemma resolved_model t profile source layers r :
  config_ok t -> read_layers (loadConfigBase t) layers (start (loadConfigBase t) profile source) = inl r ->
  (rc_modelOK (rd_config r) = true <-> c_models t <> ∅) /\
  (rc_modelOK (rd_config r) = true -> exists id, c_models t !! id = Some (rc_model (rd_config r))) /\
  (rc_modelOK (rd_config r) = false -> rc_model (rd_config r) = zeroModel).
Proof.
  intros Ht Hr. set (b := loadConfigBase t) in *.
  assert (Hempty : b_models b = [] <-> c_models t = ∅).
  { split; intros H.
    - apply map_empty. intros k. destruct (c_models t !! k) as [m|] eqn:E; [|done].
      assert (Hin : m ∈ b_models b) by (apply base_models; eauto). rewrite H in Hin. by apply elem_of_nil in Hin.
    - destruct (b_models b) as [|m l] eqn:E; [done|]. assert (Hin : m ∈ b_models b) by (rewrite E; set_solver).
      apply base_models in Hin as [k Hk]. by rewrite H, lookup_empty in Hk. }
  assert (Hch : forall l m, chooses b l = Some m -> exists id, c_models t !! id = Some m).
  { intros l m. unfold chooses, model. destruct (String.eqb _ _); [done|]. intros [Hin _]%find_elem. by apply base_models. }
  pose proof (f_equal fst (read_layers_field _ _ _ _ _ _ _ (layered_model b) Hr)) as Hmodel.
  pose proof (f_equal fst (read_layers_field _ _ _ _ _ _ _ (layered_modelOK b) Hr)) as Hok.
  assert (Hfirst : first_set (fun l => (fun _ => true) <$> chooses b l) layers = (fun p => (true, p.2)) <$> first_set (chooses b) layers).
  { clear. induction layers as [|l ls IH]; [done|]. cbn. by destruct (chooses b l). }
  rewrite Hfirst in Hok. destruct (first_set (chooses b) layers) as [[m n]|] eqn:E; cbn in Hmodel, Hok.
  - assert (Hm : exists id, c_models t !! id = Some m).
    { clear -Hch E. revert E. induction layers as [|l ls IH]; cbn; [done|]. destruct (chooses b l) eqn:El; [|done].
      intros [= -> _]. by eapply Hch. }
    rewrite Hok, Hmodel. split; [|done]. split; [|done]. intros _ H. destruct Hm as [id Hm]. by rewrite H, lookup_empty in Hm.
  - change (rc_modelOK (rd_config r) = match b_models b with [] => false | _ => true end) in Hok.
    change (rc_model (rd_config r) = b_defaultModel b) in Hmodel. rewrite Hok, Hmodel. destruct (b_models b) as [|m l] eqn:Em.
    + split; [split; [done|intros H; destruct H; by apply Hempty]|]. split; [done|]. intros _. unfold b in *. cbn in *. by rewrite Em.
    + split; [split; [intros _ H; by apply Hempty in H|done]|]. split; [intros _|done]. apply base_models. unfold b in *. cbn in *.
      apply defaultModel_elem. by rewrite Em.
Qed.

(** C26: from a deployment with a profile and nothing else, whatever requests
    create, change and delete providers, models, profiles and settings, choose
    profiles and overrides for sessions, and whatever runs and other requests
    do to the sessions, a check and the write it allowed being apart: each
    session's configuration resolves, with the request naming no model or one
    there is. It is of the profile the session chose, the parameters it sends
    are ones [Validate] accepts, and it has a model exactly when there are
    any, which is then a valid row of the table whose provider exists. *)
Theorem configuration_always_resolves s0 s :
  (exists id p, c_profiles (cs_db s0) = {[id := p]} /\ pf_ID p = id /\ pf_Settings p = noSettings) ->
  c_models (cs_db s0) = ∅ -> sessions (c_db (cs_db s0)) = ∅ -> cs_read s0 = [] -> rtc config_step s0 s ->
  let t := cs_db s in
  forall sid row requested, sessions (c_db t) !! sid = Some row ->
  requested = EmptyString \/ (exists id m, c_models t !! id = Some m /\ m_Name m = requested) ->
  exists conf c, scan_conf row = inl conf /\ configure conf requested t = inl c /\ Validate (rc_sampling c) = None /\
    c_profiles t !! pf_ID (rc_profile c) = Some (rc_profile c) /\
    (ProfileID row <> EmptyString -> pf_ID (rc_profile c) = ProfileID row) /\
    (rc_modelOK c = true <-> c_models t <> ∅) /\
    (rc_modelOK c = true -> c_models t !! m_ID (rc_model c) = Some (rc_model c) /\ validateModel (rc_model c) = None /\
       is_Some (c_providers t !! m_ProviderID (rc_model c))).
Proof.
  intros (id0 & p0 & Hp0 & Hid0 & Hset) Hm0 Hs0 Hr0 Hsteps t sid row requested Hrow Hreq.
  assert (Hok : cstate_ok s).
  { assert (Hstart : cstate_ok s0).
    { split; [|by rewrite Hr0]. constructor; rewrite ?Hp0, ?Hm0, ?Hs0; [by intros id m []%lookup_empty_Some| | |by intros id x []%lookup_empty_Some].
      - intros id p. rewrite lookup_singleton_Some. intros [<- <-]. by rewrite Hset.
      - apply insert_ne_empty. }
    clear -Hsteps Hstart. induction Hsteps; eauto using config_step_ok. }
  destruct Hok as [Ht _]. fold t in Ht. destruct (ok_sessions t Ht sid row Hrow) as [(o & Ho & Hgood) Hkey].
  set (conf := mkConf (ProfileID row) o (STools row)).
  assert (Hconf : scan_conf row = inl conf) by (unfold scan_conf; by rewrite Ho).
  destruct (session_layers_good t conf requested Ht Hgood Hkey Hreq) as (layers & source & Hlayers & Hall).
  destruct (read_layers_ok (loadConfigBase t) layers (start (loadConfigBase t) (profileOf (loadConfigBase t) (ProfileID row)).1 source))
    as [r Hr]. { eapply Forall_impl; [exact Hall|]. intros l (x & Hx & _)%good_layer_sampling. eauto. }
  destruct (resolved_model t _ _ _ _ Ht Hr) as (Hiff & Htrue & Hfalse).
  assert (Hvalid : rc_modelOK (rd_config r) = true -> c_models t !! m_ID (rc_model (rd_config r)) = Some (rc_model (rd_config r)) /\
      validateModel (rc_model (rd_config r)) = None /\ is_Some (c_providers t !! m_ProviderID (rc_model (rd_config r)))).
  { intros [id Hid]%Htrue. destruct (ok_models t Ht id _ Hid) as (-> & ? & ?). done. }
  destruct (profileOf_spec t (ProfileID row) Ht Hkey) as [Hprof Hchosen].
  pose proof (f_equal fst (read_layers_field _ _ _ _ _ _ _ (layered_profile _) Hr)) as Hpf. cbn [fst] in Hpf.
  assert (Hpf' : rc_profile (rd_config r) = (profileOf (loadConfigBase t) (ProfileID row)).1).
  { clear -Hpf. induction layers as [|l ls IH]; cbn in Hpf; [congruence|]. by apply IH. }
  exists conf, (sampled layers r). split; [done|]. split.
  { unfold configure, resolveSession. cbn [sc_ProfileID conf] in Hlayers. rewrite Hlayers. unfold resolve. by rewrite Hr. }
  split; [apply Validate_None; eapply sampled_acceptable; [exact Hr|exact Hall|]|].
  { destruct (rc_modelOK (rd_config r)); [right; by apply Hvalid|left; by apply Hfalse]. }
  rewrite sampled_eq. cbn [rc_profile rc_modelOK rc_model]. rewrite Hpf'. done.
Qed.

Lemma configuration_always_resolves_witness :
  let p := mkProfile "f1" "Default" EmptyString noSettings None 1 in
  let s0 := mkCState (mkCDB ∅ ∅ {["f1"%string := p]} ∅ (mkDB ∅ ∅)) [] in
  exists s row conf c, rtc config_step s0 s /\ sessions (c_db (cs_db s)) !! "s1"%string = Some row /\
    scan_conf row = inl conf /\ configure conf "small" (cs_db s) = inl c /\ Validate (rc_sampling c) = None /\
    TopK (rc_sampling c) = Some 20.
Proof.
  intros p s0. set (pr := mkProvider "p1" "local" "openai" "http://h" EmptyString 0).
  set (m := mkModel "m1" "p1" "small" "small-1" 8000 1000 EmptyString [] EmptyString false false 0).
  set (body := mkSettingsBody "m1" None None None None None (mkSampling None None (Some 20) None None None None None None None)).
  set (row := mkDSession "s1" EmptyString EmptyString true SessionUser EmptyString EmptyString None EmptyString JNull false false).
  set (s1 := mkCState (CreateProvider "p1" 1 pr (cs_db s0)).2 []).
  set (s2 := mkCState (CreateModel "m1" 1 m (cs_db s1)).2 []).
  set (s3 := mkCState (with_db (mkDB {["s1"%string := row]} ∅) (cs_db s2)) []).
  evar (o : ProfileSettings). set (s4 := mkCState (SetSessionOverrides "s1" o (cs_db s3)).2 []).
  assert (Ho : checked o) by (exists (fun l => l), body, (cs_db s2); split; [reflexivity|vm_compute; reflexivity]).
  assert (Hsteps : rtc config_step s0 s4).
  { apply (rtc_l _ _ s1); [exact (create_provider s0 "p1" 1 pr)|]. apply (rtc_l _ _ s2); [exact (create_model s1 "m1" 1 m eq_refl)|].
    apply (rtc_l _ _ s3); [|apply rtc_once; exact (set_overrides s3 "s1" o Ho)].
    apply (change_sessions s2). intros id s. cbn. rewrite lookup_singleton_Some. intros [<- <-]. right. split; [by left|reflexivity]. }
  eassert (Hrow : sessions (c_db (cs_db s4)) !! "s1"%string = Some _) by (vm_compute; reflexivity).
  destruct (configuration_always_resolves s0 s4 ltac:(exists "f1"%string, p; done) eq_refl eq_refl eq_refl Hsteps "s1" _ "small" Hrow
    ltac:(right; exists "m1"%string; eexists; split; vm_compute; reflexivity)) as (conf & c & Hc & Hr & Hv & _).
  exists s4. eexists _, conf, c. split; [exact Hsteps|]. split; [exact Hrow|]. split; [exact Hc|]. split; [exact Hr|]. split; [exact Hv|].
  vm_compute in Hc. injection Hc as <-. vm_compute in Hr. by injection Hr as <-.
Defined.
