(* ===== verification/Hub.v ===== *)
(** The hub of bare repositories (internal/workspace/hub): the projects it
    holds, who may reach which of them, and what its HTTP handler serves. *)
From S2P Require Import Prelude GoStr Failure GoPath ToolChoice.
From stdpp Require Import options.
Open Scope Z_scope.

(** Whose context a call is made with: that of a request, which ends when the
    client goes away, or one [teardown] detached from it. *)
Inductive Ctx : Set := Request | Detached.
#[export] Instance Ctx_eq_dec : EqDecision Ctx.
Proof. solve_decision. Defined.

(* @src internal/workspace/hub/hub.go 30-33 projectName *)
Definition projectName (name : string) : bool :=
  match bytes_of name with
  | [] => false
  | b :: l => is_alnum b && forallb function_rune l && (Z.of_nat (length l) <=? 63)
  end.

(* @src internal/workspace/hub/hub.go 35-36 ErrBadProject *)
Definition ErrBadProject : GoError := ErrSentinel "invalid project name".
(* @src internal/workspace/hub/hub.go 38-39 ErrNoProject *)
Definition ErrNoProject : GoError := ErrSentinel "project not found".

Definition bad_project (name : string) : GoError := ErrSuffix ErrBadProject (go_quote name).

(* @src internal/workspace/hub/hub.go 41-51 Credentials *)
Record Credentials := mkCredentials { Username : string; Password : string }.

(* @src internal/workspace/hub/hub.go 63-68 grant *)
Record grant := mkGrant { gr_project : string; gr_token : string }.

(* @src internal/workspace/hub/hub.go 166-177 Hub.Grant *)
Definition Grant (workspaceID project token : string) (g : gmap string grant) : option GoError * gmap string grant :=
  if projectName project then (None, <[workspaceID := mkGrant project token]> g) else (Some (bad_project project), g).

(* @src internal/workspace/hub/hub.go 179-184 Hub.Revoke *)
Definition Revoke (workspaceID : string) (g : gmap string grant) : gmap string grant := delete workspaceID g.

(* @src internal/workspace/hub/handler.go 13-15 Prefix *)
Definition Prefix : string := chr 47 +:+ "git".

(** [strings.Cut] at a slash: what is before it. *)
Definition cut_slash (s : string) : string := List.hd EmptyString (split s slash).

(* @src internal/workspace/hub/handler.go 81-94 projectOf *)
Definition projectOf (path : string) : option string :=
  let pre := Prefix +:+ slash_s in
  if has_prefix path pre then
    let first := cut_slash (trim_prefix path pre) in
    if has_suffix first ".git" then
      let name := trim_suffix first ".git" in
      if projectName name then Some name else None
    else None
  else None.

(** The comparison takes the same time whatever differs, which does not show
    here. *)
(* @src internal/workspace/hub/handler.go 65-71 Hub.authenticated *)
Definition authenticated (workspaceID token : string) (g : gmap string grant) : bool :=
  match g !! workspaceID with Some gr => String.eqb (gr_token gr) token | None => false end.

(* @src internal/workspace/hub/handler.go 73-79 Hub.permitted *)
Definition permitted (workspaceID project : string) (g : gmap string grant) : bool :=
  match g !! workspaceID with Some gr => String.eqb (gr_project gr) project | None => false end.

(** What the hub finds on disk: which repositories there are, and what git
    answers. [git] may change them. *)
Class Repositories (W : Type) := {
  hub_exists : string -> W -> bool;
  hub_git : Ctx -> string -> list (string * string) -> list string -> W -> (string + GoError) * W;
}.

Section hub.
Context {W : Type} `{Repositories W} (root : string).

(* @src internal/workspace/hub/hub.go 89-96 Hub.Path *)
Definition Path (project : string) : string + GoError :=
  if projectName project then inl (Join [root; project +:+ ".git"]) else inr (bad_project project).

(* @src internal/workspace/hub/hub.go 17-28 credUserEnv *)
Definition credUserEnv : string := "EIKA_GIT_USER".
Definition credPasswordEnv : string := "EIKA_GIT_PASSWORD".
Definition echo_credentials (user password : string) : string :=
  "!f() { echo " +:+ dq +:+ "username=${" +:+ user +:+ "}" +:+ dq +:+ "; echo " +:+ dq +:+ "password=${" +:+ password +:+ "}" +:+ dq +:+ "; }; f".
Definition credentialHelper : string := echo_credentials credUserEnv credPasswordEnv.

(** The environment of the command is the harness's own with these in front
    of nothing else. *)
(* @src internal/workspace/hub/hub.go 186-216 Hub.git *)
Definition git_in (ctx : Ctx) (dir : string) (creds : option Credentials) (args : list string) (w : W) : (string + GoError) * W :=
  match creds with
  | None => hub_git ctx dir [("GIT_TERMINAL_PROMPT", "0")%string] args w
  | Some c =>
      if negb (Bool.eqb (String.eqb (Username c) EmptyString) (String.eqb (Password c) EmptyString))
      then (inr (ErrText "authenticate to remote: username and password must both be set"), w)
      else hub_git ctx dir [("GIT_TERMINAL_PROMPT", "0")%string; (credUserEnv, Username c); (credPasswordEnv, Password c)]
             (["-c"; "credential.helper="; "-c"; "credential.helper=" +:+ credentialHelper]%string ++ args) w
  end.

(* @src internal/workspace/hub/hub.go 98-117 Hub.Init *)
Definition Init (ctx : Ctx) (project : string) (w : W) : (string + GoError) * W :=
  match Path project with
  | inr e => (inr e, w)
  | inl path =>
      if hub_exists (Join [path; "HEAD"%string]) w then (inl path, w) else
      match git_in ctx EmptyString None ["init"; "--bare"; "--initial-branch=main"; path]%string w with
      | (inr e, w) => (inr e, w)
      | (inl _, w) =>
          match git_in ctx path None ["config"; "http.receivepack"; "true"]%string w with
          | (inr e, w) => (inr e, w)
          | (inl _, w) => (inl path, w)
          end
      end
  end.

(** A name of the hub's directory, with whether it is a directory. *)
(* @src internal/workspace/hub/hub.go 119-132 Hub.List *)
Definition list_projects (names : list (string * bool)) : list string :=
  omap (fun p => if has_suffix p.1 ".git" && p.2 then Some (trim_suffix p.1 ".git") else None) names.

(* @src internal/workspace/hub/hub.go 134-147 Hub.Mirror *)
Definition Mirror (ctx : Ctx) (project remoteURL : string) (creds : Credentials) (w : W) : option GoError * W :=
  match Init ctx project w with
  | (inr e, w) => (Some e, w)
  | (inl path, w) =>
      match git_in ctx path (Some creds)
        ["fetch"; "--prune"; "--tags"; remoteURL; "+refs/heads/*:refs/heads/*"]%string w with
      | (inr e, w) => (Some e, w)
      | (inl _, w) => (None, w)
      end
  end.

(* @src internal/workspace/hub/hub.go 149-164 Hub.Push *)
Definition PushUpstream (ctx : Ctx) (project remoteURL refspec : string) (creds : Credentials) (w : W) : option GoError * W :=
  match Path project with
  | inr e => (Some e, w)
  | inl path =>
      if negb (hub_exists path w) then (Some (ErrSuffix ErrNoProject project), w) else
      match git_in ctx path (Some creds) ["push"; remoteURL; refspec]%string w with
      | (inr e, w) => (Some e, w)
      | (inl _, w) => (None, w)
      end
  end.

(** What the handler answers: a status of its own, or the repository the git
    backend is started on, for that user. *)
Inductive Served : Type := Refused (status : Z) | Backend (path user : string).

(** [backend] is whether git-http-backend is installed, [auth] what
    [BasicAuth] reads. *)
(* @src internal/workspace/hub/handler.go 17-63 Hub.Handler *)
Definition Handler (backend : bool) (auth : option (string * string)) (urlPath : string) (g : gmap string grant) (w : W) : Served :=
  if negb backend then Refused 503 else
  match auth with
  | None => Refused 401
  | Some (user, token) =>
      if negb (authenticated user token g) then Refused 401 else
      match projectOf urlPath with
      | None => Refused 404
      | Some project =>
          if negb (permitted user project g) then Refused 403 else
          match Path project with
          | inr _ => Refused 404
          | inl path => if hub_exists path w then Backend path user else Refused 404
          end
      end
  end.

(** ** Access over time *)

(** What the harness does to the grants, as it happens. *)
Inductive GrantOp : Type := Granted (workspaceID project token : string) | Revoked (workspaceID : string).
Definition grant_op (g : gmap string grant) (op : GrantOp) : gmap string grant :=
  match op with Granted id p t => (Grant id p t g).2 | Revoked id => Revoke id g end.
Definition grants_after (ops : list GrantOp) : gmap string grant := foldl grant_op ∅ ops.

(** The last word on a workspace: the grant it was given last, if nothing
    revoked it since. *)
Fixpoint last_word (id : string) (ops : list GrantOp) : option grant :=
  match ops with
  | [] => None
  | op :: ops' =>
      match op with
      | Granted i p t => if String.eqb i id && projectName p then Some (mkGrant p t) else last_word id ops'
      | Revoked i => if String.eqb i id then None else last_word id ops'
      end
  end.
End hub.

Lemma grants_after_snoc ops op : grants_after (ops ++ [op]) = grant_op (grants_after ops) op.
Proof. unfold grants_after. by rewrite foldl_app. Qed.

Lemma grants_after_last ops id : grants_after ops !! id = last_word id (rev ops).
Proof.
  induction ops as [|op ops IH] using rev_ind; [done|].
  rewrite grants_after_snoc, rev_app_distr. cbn [rev app last_word]. destruct op as [i p t|i]; cbn [grant_op].
  - unfold Grant. destruct (projectName p) eqn:Hp; [|by rewrite andb_false_r].
    rewrite andb_true_r. cbn [snd]. destruct (String.eqb_spec i id) as [->|Hne]; [by rewrite lookup_insert_eq|].
    by rewrite lookup_insert_ne.
  - unfold Revoke. destruct (String.eqb_spec i id) as [->|Hne]; [by rewrite lookup_delete_eq|]. by rewrite lookup_delete_ne.
Qed.
