(* ===== verification/Host.v ===== *)
(** Workspaces on a Docker daemon (internal/workspace): their containers,
    volumes and images, the networks they are on, and git inside them. The
    daemon, the program in each container, and git are parameters; the host's
    operations are programs over them, the hub's grants and the warnings
    logged. *)
From Stdlib Require Import Floats.SpecFloat.
From S2P Require Import Prelude GoStr Float64 Failure GoPath Files ToolChoice Config Sandbox Hub.
From stdpp Require Import options.
Open Scope Z_scope.

(** ** Data *)

(* @src internal/workspace/workspace.go 10-12 Label *)
Definition Label : string := "eika.workspace".
Definition ProjectLabel : string := "eika.project".
Definition DefaultUser : string := "1000:1000".
Definition DaemonPort : string := "7000".
(* @src internal/workspace/workspace.go 25-26 Root *)
Definition Root : string := chr 47 +:+ "workspace".

(* @src internal/workspace/workspace.go 28-29 State *)
Definition StateCreating : string := "creating".
Definition StateRunning : string := "running".
Definition StateStopped : string := "stopped".
Definition StateGone : string := "gone".

(* @src internal/workspace/host.go 37-54 readyTimeout *)
Definition readyTimeout : Z := 60000.
Definition readyInterval : Z := 200.
Definition stopTimeout : Z := 5.
Definition hubUserEnv : string := "EIKA_HUB_USER".
Definition hubTokenEnv : string := "EIKA_HUB_TOKEN".
(* @src internal/eikad/exec.go 18-21 TokenEnv *)
Definition TokenEnv : string := "EIKAD_TOKEN".
(* @src internal/eikad/api.go 5-7 BinaryPath *)
Definition BinaryPath : string := chr 47 +:+ "usr" +:+ chr 47 +:+ "local" +:+ chr 47 +:+ "bin" +:+ chr 47 +:+ "eikad".

(* @src internal/workspace/image.go 22-24 daemonDir *)
Definition daemonDir : string := chr 47 +:+ "usr" +:+ chr 47 +:+ "local" +:+ chr 47 +:+ "bin".

(* @src internal/workspace/host.go 55-56 ErrNoWorkspace *)
Definition ErrNoWorkspace : GoError := ErrSentinel "workspace not found".
(* @src internal/workspace/clone.go 32-33 ErrBadBranch *)
Definition ErrBadBranch : GoError := ErrSentinel "invalid branch name".
Definition ErrNoRepository : GoError := ErrSentinel "workspace holds no git repository".

(* @src internal/workspace/host.go 58-86 Options *)
Record Options := mkOptions {
  op_HubURL : string; op_Image : string; op_Network : string; op_InternalNetwork : string; op_EgressProxyURL : string;
}.

(* @src internal/workspace/workspace.go 64-95 Spec *)
Record Spec := mkSpec {
  sp_ID : string; sp_Image : string; sp_BuildContext : string; sp_Dockerfile : string; sp_Env : list string; sp_Project : string;
  sp_User : string; sp_HostPath : string; sp_Confinement : Confinement; sp_Labels : gmap string string;
}.

(* @src internal/workspace/workspace.go 97-133 Workspace *)
Record Workspace := mkWorkspace {
  wk_ID : string; wk_ContainerID : string; wk_Image : string; wk_State : string; wk_Token : string; wk_HubToken : string;
  wk_Project : string; wk_Volume : string; wk_HostPath : string; wk_Address : string; wk_Dir : string; wk_Proxied : bool;
  wk_CreatedAt : option Z;
}.

Definition with_state (state : string) (w : Workspace) : Workspace :=
  mkWorkspace (wk_ID w) (wk_ContainerID w) (wk_Image w) state (wk_Token w) (wk_HubToken w) (wk_Project w) (wk_Volume w)
    (wk_HostPath w) (wk_Address w) (wk_Dir w) (wk_Proxied w) (wk_CreatedAt w).
Definition with_address (addr : string) (w : Workspace) : Workspace :=
  mkWorkspace (wk_ID w) (wk_ContainerID w) (wk_Image w) (wk_State w) (wk_Token w) (wk_HubToken w) (wk_Project w) (wk_Volume w)
    (wk_HostPath w) addr (wk_Dir w) (wk_Proxied w) (wk_CreatedAt w).
Definition with_dir (dir : string) (w : Workspace) : Workspace :=
  mkWorkspace (wk_ID w) (wk_ContainerID w) (wk_Image w) (wk_State w) (wk_Token w) (wk_HubToken w) (wk_Project w) (wk_Volume w)
    (wk_HostPath w) (wk_Address w) dir (wk_Proxied w) (wk_CreatedAt w).
Definition with_proxied (b : bool) (w : Workspace) : Workspace :=
  mkWorkspace (wk_ID w) (wk_ContainerID w) (wk_Image w) (wk_State w) (wk_Token w) (wk_HubToken w) (wk_Project w) (wk_Volume w)
    (wk_HostPath w) (wk_Address w) (wk_Dir w) b (wk_CreatedAt w).

(* @src internal/workspace/workspace.go 135-137 ContainerName *)
Definition ContainerName (id : string) : string := "eika-ws-" +:+ id.
(* @src internal/workspace/workspace.go 139-140 VolumeName *)
Definition VolumeName (id : string) : string := "eika-ws-" +:+ id.
(* @src internal/workspace/workspace.go 142-144 builtImageRef *)
Definition builtImageRef (id : string) : string := ContainerName id +:+ ":latest".

(* @src internal/workspace/host.go 495-503 envValue *)
Fixpoint envValue (env : list string) (name : string) : string :=
  match env with
  | [] => EmptyString
  | kv :: env' => if has_prefix kv (name +:+ "=") then trim_prefix kv (name +:+ "=") else envValue env' name
  end.

(* @src internal/workspace/host.go 505-511 orDefault *)
Definition orDefault (value fallback : string) : string := if String.eqb value EmptyString then fallback else value.

(** ** The Docker daemon *)

Inductive MountType : Set := Bind | VolumeMount.
(** Where a mount comes from: a host path, or the name of a volume. *)
Record Mount := mkMount { mo_Type : MountType; mo_Source : string; mo_Target : string }.

Record Resources := mkResources { rs_NanoCPUs : Z; rs_Memory : Z; rs_MemorySwap : Z; rs_PidsLimit : option Z }.

(** What a container is created from. *)
Record ContainerConfig := mkContainerConfig {
  cc_Image : string; cc_Entrypoint : list string; cc_Env : list string; cc_User : string; cc_WorkingDir : string;
  cc_Labels : gmap string string; cc_Mounts : list Mount; cc_Init : bool; cc_CapDrop : list string; cc_SecurityOpt : list string;
  cc_Resources : Resources; cc_Networks : gmap string (list string); cc_PublishDaemon : bool;
}.

(** What is read of an inspected container; a network maps to the id of the
    network the container remembers under that name. *)
Record ContainerInfo := mkContainerInfo {
  ci_ID : string; ci_Image : string; ci_Env : list string; ci_Labels : gmap string string; ci_Created : string;
  ci_Running : option bool; ci_Mounts : list Mount; ci_Networks : option (gmap string (option (string * string)));
  ci_DaemonPorts : list string;
}.

(** One message of a progress stream, or what reading it fails with. *)
Inductive Progress : Type := Message (error : string) | Unreadable (e : GoError).

(** The daemon, what runs in the containers, the harness's own files and its
    clock, in milliseconds. *)
Class Engine (W : Type) := {
  IsNotFound : GoError -> bool;
  EngineInfo : Ctx -> W -> ((Z * Z) + GoError) * W;
  VolumeCreate : Ctx -> string -> gmap string string -> W -> (unit + GoError) * W;
  VolumeRemove : Ctx -> string -> W -> (unit + GoError) * W;
  ContainerCreate : Ctx -> ContainerConfig -> string -> W -> (string + GoError) * W;
  ContainerRemove : Ctx -> string -> W -> (unit + GoError) * W;
  ContainerStart : Ctx -> string -> W -> (unit + GoError) * W;
  ContainerStop : Ctx -> string -> Z -> W -> (unit + GoError) * W;
  ContainerUpdate : Ctx -> string -> Resources -> W -> (unit + GoError) * W;
  ContainerInspect : Ctx -> string -> W -> (ContainerInfo + GoError) * W;
  ContainerList : Ctx -> W -> (list (string * string) + GoError) * W;
  CopyToContainer : Ctx -> string -> string -> string -> W -> (unit + GoError) * W;
  NetworkInspect : Ctx -> string -> W -> (string + GoError) * W;
  NetworkConnect : Ctx -> string -> string -> list string -> W -> (unit + GoError) * W;
  NetworkDisconnect : Ctx -> string -> string -> W -> (unit + GoError) * W;
  ImageInspect : Ctx -> string -> W -> (unit + GoError) * W;
  ImagePull : Ctx -> string -> W -> (list Progress + GoError) * W;
  ImageBuild : Ctx -> string -> string -> string -> W -> (list Progress + GoError) * W;
  ImageRemove : Ctx -> string -> W -> (unit + GoError) * W;
  eikad_health : Ctx -> string -> W -> (Z + GoError) * W;
  eikad_environment : Ctx -> string -> string -> list string -> W -> (unit + GoError) * W;
  eikad_git : Ctx -> string -> string -> string -> list string -> W -> ((Z * string * string) + GoError) * W;
  eikad_write : Ctx -> string -> string -> string -> string -> W -> (unit + GoError) * W;
  eikad_stat : Ctx -> string -> string -> string -> W -> (unit + GoError) * W;
  eikad_binary : W -> string + GoError;
  tarDir : string -> W -> string + GoError;
  now : W -> Z;
  pause : Ctx -> W -> (unit + GoError) * W;
}.

(** Of the standard library: whether a string parses as a URL, its host name,
    the URL with a user put in it, the time of an RFC 3339 stamp, and a tar
    archive of one file with its mode. *)
Class Library := {
  url_parses : string -> bool;
  url_hostname : string -> option string;
  url_with_user : string -> string -> string -> option string;
  parse_time : string -> option Z;
  tarFile : string -> string -> Z -> string;
}.

(** ** Programs of the host *)

Definition opt_error {S} (r : option GoError * S) : (unit + GoError) * S :=
  match r with (Some e, s) => (inr e, s) | (None, s) => (inl tt, s) end.

Section host.
Context {W : Type} `{Engine W} `{Repositories W} `{Library} (opts : Options) (hub_root : string).

#[local] Set Default Proof Using "Type".

Record St := mkSt { st_world : W; st_grants : gmap string grant; st_warned : list string }.

Definition M : Type -> Type := EM St GoError.
#[export] Instance M_bind : MBind M := EM_bind.
(** A failure with what was being done in front of it. *)
Definition doing {A} (what : string) (m : M A) : M A := fun s =>
  match m s with (inr e, s') => (inr (ErrWrap what e), s') | r => r end.
Definition call {A} (f : W -> (A + GoError) * W) : M A := fun s =>
  let '(r, w) := f (st_world s) in (r, mkSt w (st_grants s) (st_warned s)).
Definition at_world {A} (f : W -> A) : M A := look (fun s => f (st_world s)).
Definition granting (f : gmap string grant -> option GoError * gmap string grant) : M unit := fun s =>
  let '(r, g) := f (st_grants s) in (match r with Some e => inr e | None => inl tt end, mkSt (st_world s) g (st_warned s)).
Definition revoke (id : string) : M unit := granting (fun g => (None, Revoke id g)).
Definition grants (id project token : string) : M unit := granting (Grant id project token).
Definition warns (what : string) : M unit := fun s => (inl tt, mkSt (st_world s) (st_grants s) (st_warned s ++ [what])).

(** *** Confinement *)

(* @src internal/workspace/confine.go 53-57 Host.EgressControl *)
Definition EgressControl : bool := negb (String.eqb (op_Network opts) EmptyString) && negb (String.eqb (op_InternalNetwork opts) EmptyString).

(* @src internal/workspace/confine.go 59-67 Host.Capacity *)
Definition Capacity (ctx : Ctx) : M (Z * Z) := doing "read docker host capacity" (call (EngineInfo ctx)).

(* @src internal/workspace/confine.go 137-143 Host.networkFor *)
Definition networkFor (proxied : bool) : string := if proxied then op_InternalNetwork opts else op_Network opts.

(** A number of cores in billionths; the limit of a float that is no int64 is
    never asked for, [checkLimits] bounds it by the host's cores. *)
(* @src internal/workspace/confine.go 231-242 createResources *)
Definition createResources (l : Confinement) : Resources :=
  mkResources (f64_to_int (f64_mul (cf_CPUs l) (f64_of_Z 1000000000)))
    (if 0 <? cf_MemoryBytes l then cf_MemoryBytes l else 0) (if 0 <? cf_MemoryBytes l then cf_MemoryBytes l else 0)
    (if 0 <? cf_PIDs l then Some (cf_PIDs l) else None).

(* @src internal/workspace/confine.go 244-268 Host.updateResources *)
Definition updateResources (ctx : Ctx) (l : Confinement) : M Resources :=
  let r := createResources l in
  let pids := if cf_PIDs l <=? 0 then Some (-1) else rs_PidsLimit r in
  if f64_pos (cf_CPUs l) && (0 <? cf_MemoryBytes l)
  then ret (mkResources (rs_NanoCPUs r) (rs_Memory r) (rs_MemorySwap r) pids)
  else
    '(cores, memory) ← Capacity ctx;
    ret (mkResources (if f64_leb (cf_CPUs l) f64_zero then wrap64 (cores * 1000000000) else rs_NanoCPUs r)
           (if cf_MemoryBytes l <=? 0 then memory else rs_Memory r) (if cf_MemoryBytes l <=? 0 then memory else rs_MemorySwap r) pids).

(** The networks an inspected container is on, with the network ids it
    remembers. *)
Definition attached_of (i : ContainerInfo) : gmap string (option (string * string)) := default ∅ (ci_Networks i).

(* @src internal/workspace/confine.go 145-185 Host.moveTo *)
Definition moveTo (ctx : Ctx) (ws : Workspace) (target : string) : M unit :=
  info ← doing ("inspect workspace " +:+ wk_ID ws) (call (ContainerInspect ctx (wk_ContainerID ws)));
  let attached := attached_of info in
  current ← doing ("inspect network " +:+ target) (call (NetworkInspect ctx target));
  (if match attached !! target with Some (Some (id, _)) => String.eqb id current | _ => false end then ret tt
   else doing ("connect workspace " +:+ wk_ID ws +:+ " to " +:+ target)
          (call (NetworkConnect ctx target (wk_ContainerID ws) [ContainerName (wk_ID ws)]))) ;;
  (fix each (others : list string) : M unit :=
     match others with
     | [] => ret tt
     | other :: others' =>
         (if String.eqb other EmptyString || String.eqb other target then ret tt
          else if bool_decide (is_Some (attached !! other))
          then doing ("disconnect workspace " +:+ wk_ID ws +:+ " from " +:+ other)
                 (call (NetworkDisconnect ctx other (wk_ContainerID ws)))
          else ret tt) ;;
         each others'
     end) [op_Network opts; op_InternalNetwork opts].

(** *** The daemon in a container *)

(** A client of the daemon in a container, narrowed to a directory below
    [Root]. *)
(* @src internal/executor/sandbox/sandbox.go 52-59 Client *)
Record Client := mkClient { el_base : string; el_token : string; el_dir : string }.

(* @src internal/executor/sandbox/sandbox.go 61-97 New *)
Definition NewClient (base token dir : string) : Client + GoError :=
  if String.eqb base EmptyString then inr (ErrText "build sandbox client: base url is empty")
  else if String.eqb token EmptyString then inr (ErrText "build sandbox client: token is empty")
  else if negb (url_parses base) then inr (ErrWrap ("parse base url " +:+ base) (ErrText "parse"))
  else
    let base := trim_suffix base slash_s in
    if String.eqb dir EmptyString then inl (mkClient base token EmptyString) else
    match Resolve Root dir with
    | inr e => inr (ErrWrap ("narrow sandbox client to " +:+ dir) e)
    | inl abs =>
        match ExecutorRel Root abs with
        | inr e => inr e
        | inl rel => inl (mkClient base token (if String.eqb rel dot_s then EmptyString else rel))
        end
    end.

(* @src internal/workspace/confine.go 201-229 Host.environment *)
Definition environment (ws : Workspace) : list string :=
  if negb (wk_Proxied ws) || String.eqb (op_EgressProxyURL opts) EmptyString then [] else
  match url_with_user (op_EgressProxyURL opts) (wk_ID ws) (wk_HubToken ws) with
  | None => []
  | Some proxy =>
      let direct := ["localhost"; "127.0.0.1"; "::1"]%string ++
        match url_hostname (op_HubURL opts) with
        | Some host => if String.eqb host EmptyString then [] else [host]
        | None => []
        end in
      let noProxy := join direct "," in
      ["HTTP_PROXY=" +:+ proxy; "HTTPS_PROXY=" +:+ proxy; "http_proxy=" +:+ proxy; "https_proxy=" +:+ proxy;
       "NO_PROXY=" +:+ noProxy; "no_proxy=" +:+ noProxy; "NODE_USE_ENV_PROXY=1"]
  end.

(* @src internal/workspace/confine.go 187-199 Host.setEnvironment *)
Definition setEnvironment (ctx : Ctx) (ws : Workspace) : M unit :=
  c ← lift (NewClient (wk_Address ws) (wk_Token ws) EmptyString);
  doing ("set the environment of workspace " +:+ wk_ID ws) (call (eikad_environment ctx (el_base c) (el_token c) (environment ws))).

(* @src internal/workspace/confine.go 69-99 Host.Confine *)
Definition Confine (ctx : Ctx) (ws : Workspace) (c : Confinement) : M Workspace :=
  if cf_Proxied c && negb EgressControl then fails ErrNoEgressControl else
  resources ← updateResources ctx c;
  doing ("update limits of workspace " +:+ wk_ID ws) (call (ContainerUpdate ctx (wk_ContainerID ws) resources)) ;;
  (if String.eqb (op_Network opts) EmptyString then ret tt else moveTo ctx ws (networkFor (cf_Proxied c))) ;;
  let ws := with_proxied (cf_Proxied c) ws in
  (if String.eqb (wk_State ws) StateRunning then setEnvironment ctx ws else ret tt) ;;
  ret ws.

(* @src internal/workspace/host.go 442-449 Host.client *)
Definition client (ws : Workspace) : Client + GoError :=
  if String.eqb (wk_Address ws) EmptyString then inr (ErrText ("workspace " +:+ wk_ID ws +:+ " has no address: it is not running"))
  else NewClient (wk_Address ws) (wk_Token ws) (wk_Dir ws).

(* @src internal/workspace/host.go 413-417 Host.Executor *)
Definition Executor (ws : Workspace) : M Client := lift (client ws).

(* @src internal/workspace/host.go 451-467 Host.address *)
Definition address (ctx : Ctx) (ws : Workspace) : M string :=
  if negb (String.eqb (op_Network opts) EmptyString)
  then ret ("http://" +:+ ContainerName (wk_ID ws) +:+ ":" +:+ DaemonPort)
  else
    info ← doing ("inspect workspace " +:+ wk_ID ws) (call (ContainerInspect ctx (wk_ContainerID ws)));
    match ci_DaemonPorts info with
    | [] => fails (ErrText ("workspace " +:+ wk_ID ws +:+ " publishes no daemon port"))
    | port :: _ => ret ("http://127.0.0.1:" +:+ port)
    end.

(** The address of some network of the container that has one; Go visits a
    map in no order, here it is the map's own. *)
(* @src internal/workspace/confine.go 116-135 Host.PortURL *)
Definition PortURL (ctx : Ctx) (ws : Workspace) (port : Z) : M string :=
  if negb (String.eqb (op_Network opts) EmptyString)
  then ret ("http://" +:+ ContainerName (wk_ID ws) +:+ ":" +:+ itoa port)
  else
    info ← doing ("inspect workspace " +:+ wk_ID ws) (call (ContainerInspect ctx (wk_ContainerID ws)));
    match List.find (fun p => match p.2 with Some (_, ip) => negb (String.eqb ip EmptyString) | None => false end)
            (map_to_list (attached_of info)) with
    | Some (_, Some (_, ip)) => ret ("http://" +:+ ip +:+ ":" +:+ itoa port)
    | _ => fails (ErrText ("workspace " +:+ wk_ID ws +:+ " has no address on any network"))
    end.

Definition clock : M Z := at_world now.

(** One poll after another; [fuel] bounds them. *)
Fixpoint polls (fuel : nat) (ctx : Ctx) (addr : string) (deadline : Z) : M (option unit) :=
  match fuel with
  | O => ret None
  | S fuel' =>
      status ← attempt (call (eikad_health ctx addr));
      if match status with inl code => code =? 200 | inr _ => false end then ret (Some tt) else
      at_ ← clock;
      if deadline <? at_ then fails (ErrText "timed out waiting for the sandbox daemon") else
      call (pause ctx) ;;
      polls fuel' ctx addr deadline
  end.
Definition enough_polls : nat := 302.

(* @src internal/workspace/host.go 469-493 Host.waitReady *)
Definition waitReady (ctx : Ctx) (addr : string) : M unit :=
  start ← clock;
  if negb (url_parses (addr +:+ chr 47 +:+ "healthz")) then fails (ErrText "parse") else
  done ← polls enough_polls ctx addr (start + readyTimeout);
  match done with Some _ => ret tt | None => fails (ErrText "the loop goes on") end.

(** *** Images *)

(* @src internal/workspace/image.go 184-203 drainDockerStream *)
Fixpoint drainDockerStream (l : list Progress) : option GoError :=
  match l with
  | [] => None
  | Unreadable e :: _ => Some (ErrWrap "read docker stream" e)
  | Message e :: l' => if String.eqb e EmptyString then drainDockerStream l' else Some (ErrText e)
  end.

(* @src internal/workspace/image.go 53-65 Host.pullImage *)
Definition pullImage (ctx : Ctx) (ref : string) : M unit :=
  body ← doing ("pull image " +:+ ref) (call (ImagePull ctx ref));
  match drainDockerStream body with Some e => fails (ErrWrap ("pull image " +:+ ref) e) | None => ret tt end.

(* @src internal/workspace/image.go 26-37 Host.createContainer *)
Definition createContainer (ctx : Ctx) (cfg : ContainerConfig) (name : string) : M string :=
  created ← attempt (call (ContainerCreate ctx cfg name));
  match created with
  | inl id => ret id
  | inr err =>
      if negb (IsNotFound err) then fails err else
      pullImage ctx (cc_Image cfg) ;;
      call (ContainerCreate ctx cfg name)
  end.

(* @src internal/workspace/image.go 39-51 Host.HasImage *)
Definition HasImage (ctx : Ctx) (ref : string) : M bool :=
  r ← attempt (call (ImageInspect ctx ref));
  match r with
  | inl _ => ret true
  | inr err => if IsNotFound err then ret false else fails (ErrWrap ("inspect image " +:+ ref) err)
  end.

(* @src internal/workspace/image.go 67-92 Host.buildImage *)
Definition buildImage (ctx : Ctx) (spec : Spec) (ref : string) : M unit :=
  packed ← at_world (tarDir (sp_BuildContext spec));
  buildContext ← lift packed;
  body ← doing ("build image " +:+ ref) (call (ImageBuild ctx buildContext (orDefault (sp_Dockerfile spec) "Dockerfile") ref));
  match drainDockerStream body with Some e => fails (ErrWrap ("build image " +:+ ref) e) | None => ret tt end.

(* @src internal/workspace/image.go 94-113 Host.injectDaemon *)
Definition injectDaemon (ctx : Ctx) (containerID : string) : M unit :=
  binary ← at_world eikad_binary;
  data ← doing "read eikad binary" (lift binary);
  doing "copy eikad into container"
    (call (CopyToContainer ctx containerID daemonDir (tarFile "eikad" data 493))).

(** *** Lifecycle *)

(** What [rand.Read] fills a buffer with. *)
Definition random : Type := list Z + GoError.
Definition hex_of (what : string) (r : random) : string + GoError :=
  match r with inl b => inl (hex_string b) | inr e => inr (ErrWrap what e) end.
(* @src internal/workspace/workspace.go 146-153 newID *)
Definition newID (r : random) : string + GoError := hex_of "generate workspace id" r.
(* @src internal/workspace/workspace.go 155-162 newToken *)
Definition newToken (r : random) : string + GoError := hex_of "generate token" r.

(** A removal whose failure is only a warning; what is not there is none. *)
Definition removing (what : string) (m : M unit) : M unit :=
  r ← attempt m;
  match r with
  | inr err => if IsNotFound err then ret tt else warns what
  | inl _ => ret tt
  end.

(* @src internal/workspace/host.go 240-265 Host.discard *)
Definition discard (ctx : Ctx) (ws : Workspace) (builtImage : bool) : M unit :=
  (if String.eqb (wk_ContainerID ws) EmptyString then ret tt
   else removing "remove container" (call (ContainerRemove ctx (wk_ContainerID ws)))) ;;
  (if String.eqb (wk_Volume ws) EmptyString then ret tt
   else removing "remove volume" (call (VolumeRemove ctx (wk_Volume ws)))) ;;
  (if builtImage then removing "remove image" (call (ImageRemove ctx (builtImageRef (wk_ID ws)))) else ret tt) ;;
  revoke (wk_ID ws).

(** A step of a creation: when it fails, what exists already is discarded. *)
Definition or_discard {A} (ctx : Ctx) (ws : Workspace) (built : bool) (m : M A) : M A :=
  r ← attempt m;
  match r with
  | inl a => ret a
  | inr e => discard ctx ws built ;; fails e
  end.

Definition container_labels (spec : Spec) (ws : Workspace) : gmap string string :=
  sp_Labels spec ∪ ((if String.eqb (wk_Project ws) EmptyString then ∅ else {[ProjectLabel := wk_Project ws]}) ∪ {[Label := wk_ID ws]}).

Definition container_config (spec : Spec) (ws : Workspace) (mounts : list Mount) : ContainerConfig :=
  mkContainerConfig (wk_Image ws) [BinaryPath; "-listen"; ":" +:+ DaemonPort; "-root"; Root]%string
    ([TokenEnv +:+ "=" +:+ wk_Token ws; hubUserEnv +:+ "=" +:+ wk_ID ws; hubTokenEnv +:+ "=" +:+ wk_HubToken ws] ++ sp_Env spec)
    (orDefault (sp_User spec) DefaultUser) Root (container_labels spec ws) mounts true ["ALL"%string] ["no-new-privileges"%string]
    (createResources (sp_Confinement spec))
    (if String.eqb (op_Network opts) EmptyString then ∅ else {[networkFor (wk_Proxied ws) := [ContainerName (wk_ID ws)]]})
    (String.eqb (op_Network opts) EmptyString).

(** The workspace a spec asks for, before anything of it exists: its id, its
    tokens, and its image. *)
Definition planned (spec : Spec) (id token hubToken : string) (at_ : Z) : Workspace :=
  let id := orDefault (sp_ID spec) id in
  mkWorkspace id EmptyString
    (if String.eqb (sp_BuildContext spec) EmptyString then orDefault (sp_Image spec) (op_Image opts) else builtImageRef id)
    StateCreating token hubToken (sp_Project spec) (if String.eqb (sp_HostPath spec) EmptyString then VolumeName id else EmptyString)
    (sp_HostPath spec) EmptyString EmptyString (cf_Proxied (sp_Confinement spec)) (Some at_).
Definition with_container (id : string) (w : Workspace) : Workspace :=
  mkWorkspace (wk_ID w) id (wk_Image w) (wk_State w) (wk_Token w) (wk_HubToken w) (wk_Project w) (wk_Volume w)
    (wk_HostPath w) (wk_Address w) (wk_Dir w) (wk_Proxied w) (wk_CreatedAt w).
Definition mounts_of (ws : Workspace) : list Mount :=
  if String.eqb (wk_HostPath ws) EmptyString then [mkMount VolumeMount (wk_Volume ws) Root] else [mkMount Bind (wk_HostPath ws) Root].

(* @src internal/workspace/host.go 129-238 Host.Create *)
Definition Create (ctx : Ctx) (rid rtoken rhub : random) (spec : Spec) : M Workspace :=
  if cf_Proxied (sp_Confinement spec) && negb EgressControl then fails ErrNoEgressControl else
  at_ ← clock;
  id ← (if String.eqb (sp_ID spec) EmptyString then lift (newID rid) else ret EmptyString);
  token ← lift (newToken rtoken);
  hubToken ← lift (newToken rhub);
  let ws := planned spec id token hubToken at_ in
  let built := negb (String.eqb (sp_BuildContext spec) EmptyString) in
  (if built then buildImage ctx spec (wk_Image ws) else ret tt) ;;
  (if String.eqb (sp_HostPath spec) EmptyString
   then or_discard ctx ws built
          (doing ("create volume " +:+ wk_Volume ws) (call (VolumeCreate ctx (wk_Volume ws) {[Label := wk_ID ws]})))
   else ret tt) ;;
  created ← or_discard ctx ws built
    (doing ("create container for workspace " +:+ wk_ID ws)
       (createContainer ctx (container_config spec ws (mounts_of ws)) (ContainerName (wk_ID ws))));
  let ws := with_container created ws in
  or_discard ctx ws built (injectDaemon ctx created) ;;
  (if String.eqb (wk_Project ws) EmptyString then ret tt
   else or_discard ctx ws built (grants (wk_ID ws) (wk_Project ws) (wk_HubToken ws))) ;;
  ret ws.

(** The address stays with the caller when the daemon never answers. *)
(* @src internal/workspace/host.go 267-296 Host.Start *)
Definition Start (ctx : Ctx) (ws : Workspace) : M Workspace :=
  (if String.eqb (op_Network opts) EmptyString then ret tt else moveTo ctx ws (networkFor (wk_Proxied ws))) ;;
  doing ("start workspace " +:+ wk_ID ws) (call (ContainerStart ctx (wk_ContainerID ws))) ;;
  addr ← address ctx ws;
  let ws := with_address addr ws in
  doing ("workspace " +:+ wk_ID ws +:+ " did not become ready") (waitReady ctx addr) ;;
  setEnvironment ctx ws ;;
  ret (with_state StateRunning ws).

(* @src internal/workspace/host.go 298-307 Host.Stop *)
Definition Stop (ctx : Ctx) (ws : Workspace) : M Workspace :=
  doing ("stop workspace " +:+ wk_ID ws) (call (ContainerStop ctx (wk_ContainerID ws) stopTimeout)) ;;
  ret (with_state StateStopped ws).

(** A removal that has to succeed, unless there is nothing to remove. *)
Definition removed (what : string) (m : M unit) : M unit :=
  r ← attempt m;
  match r with
  | inr err => if IsNotFound err then ret tt else fails (ErrWrap what err)
  | inl _ => ret tt
  end.

(* @src internal/workspace/host.go 309-337 Host.Destroy *)
Definition Destroy (ctx : Ctx) (ws : Workspace) : M Workspace :=
  removed ("remove container for workspace " +:+ wk_ID ws) (call (ContainerRemove ctx (wk_ContainerID ws))) ;;
  (if String.eqb (wk_Volume ws) EmptyString then ret tt
   else removed ("remove volume " +:+ wk_Volume ws) (call (VolumeRemove ctx (wk_Volume ws)))) ;;
  (if String.eqb (wk_Image ws) (builtImageRef (wk_ID ws))
   then removed ("remove image " +:+ wk_Image ws) (call (ImageRemove ctx (wk_Image ws))) else ret tt) ;;
  revoke (wk_ID ws) ;;
  ret (with_state StateGone (with_address EmptyString ws)).

(** The last mount at the workspace's root says where its files are. *)
Definition mounted (ms : list Mount) : string * string :=
  foldl (fun '(host, vol) m =>
    if String.eqb (mo_Target m) Root
    then match mo_Type m with Bind => (mo_Source m, vol) | VolumeMount => (host, mo_Source m) end
    else (host, vol)) (EmptyString, EmptyString) ms.

(* @src internal/workspace/host.go 360-411 Host.Inspect *)
Definition Inspect (ctx : Ctx) (id : string) : M Workspace :=
  r ← attempt (call (ContainerInspect ctx (ContainerName id)));
  match r with
  | inr err =>
      if IsNotFound err then fails (ErrSuffix ErrNoWorkspace id) else fails (ErrWrap ("inspect workspace " +:+ id) err)
  | inl info =>
      let '(host, vol) := mounted (ci_Mounts info) in
      let ws := mkWorkspace id (ci_ID info) (ci_Image info) StateStopped (envValue (ci_Env info) TokenEnv)
        (envValue (ci_Env info) hubTokenEnv) (default EmptyString (ci_Labels info !! ProjectLabel)) vol host EmptyString EmptyString
        (EgressControl && match ci_Networks info with
           | Some l => bool_decide (is_Some (l !! op_InternalNetwork opts)) | None => false end)
        (parse_time (ci_Created info)) in
      let running := match ci_Running info with Some b => b | None => false end in
      addr ← (if running then attempt (address ctx ws) else ret (inr (ErrText EmptyString)));
      let ws := if running then with_state StateRunning (match addr with inl a => with_address a ws | inr _ => ws end) else ws in
      (if String.eqb (wk_State ws) StateRunning && negb (String.eqb (wk_Project ws) EmptyString) &&
          negb (String.eqb (wk_HubToken ws) EmptyString)
       then grants (wk_ID ws) (wk_Project ws) (wk_HubToken ws)
       else revoke (wk_ID ws)) ;;
      ret ws
  end.

(** Each container is listed with its id and the workspace its label names. *)
(* @src internal/workspace/host.go 339-358 Host.List *)
Definition List_ (ctx : Ctx) : M (list Workspace) :=
  summaries ← doing "list workspace containers" (call (ContainerList ctx));
  (fix each (l : list (string * string)) : M (list Workspace) :=
     match l with
     | [] => ret []
     | (cid, id) :: l' =>
         ws ← doing ("inspect listed workspace container " +:+ cid) (Inspect ctx id);
         rest ← each l';
         ret (ws :: rest)
     end) summaries.

(** *** Git in a workspace *)

(* @src internal/workspace/clone.go 14-30 GitUserName *)
Definition GitUserName : string := "Eika Agent".
Definition GitUserEmail : string := "agent@eika.local".
Definition workspaceCredentialHelper : string := echo_credentials hubUserEnv hubTokenEnv.
Definition hubRemote : string := "eika-hub".

(* @src internal/workspace/clone.go 236-253 git *)
Definition git (ctx : Ctx) (ex : Client) (args : list string) : M string :=
  let name := List.hd EmptyString args in
  '(code, stdout, stderr) ← doing ("run git " +:+ name) (call (eikad_git ctx (el_base ex) (el_token ex) (el_dir ex) args));
  if code =? 0 then ret (trim_space stdout)
  else fails (ErrText ("run git " +:+ name +:+ ": exit " +:+ itoa code +:+ ": " +:+ trim_space stderr)).

(* @src internal/workspace/clone.go 221-234 CheckBranch *)
Definition CheckBranch (ctx : Ctx) (ex : Client) (branch : string) : M unit :=
  if String.eqb branch EmptyString then ret tt else
  let bad := ErrSuffix ErrBadBranch (go_quote branch) in
  if has_prefix branch "-" then fails bad else
  r ← attempt (git ctx ex ["check-ref-format"; "refs/heads/" +:+ branch]%string);
  match r with inl _ => ret tt | inr _ => fails bad end.

(** Commands one after the other, up to the first that fails. *)
Fixpoint all_git (ctx : Ctx) (ex : Client) (commands : list (list string)) : M unit :=
  match commands with
  | [] => ret tt
  | args :: l => git ctx ex args ;; all_git ctx ex l
  end.

(* @src internal/workspace/clone.go 205-219 configureGit *)
Definition configureGit (ctx : Ctx) (ex : Client) : M unit :=
  all_git ctx ex [["config"; "--global"; "credential.helper"; workspaceCredentialHelper];
                  ["config"; "--global"; "user.name"; GitUserName]; ["config"; "--global"; "user.email"; GitUserEmail]]%string.

Definition hub_url (project : string) : string :=
  trim_suffix (op_HubURL opts) slash_s +:+ Prefix +:+ slash_s +:+ project +:+ ".git".

(* @src internal/workspace/clone.go 39-89 Host.Clone *)
Definition Clone (ctx : Ctx) (ws : Workspace) (project branch : string) : M string :=
  call (Init hub_root ctx project) ;;
  ex ← Executor ws;
  CheckBranch ctx ex branch ;;
  grants (wk_ID ws) project (wk_HubToken ws) ;;
  configureGit ctx ex ;;
  all_git ctx ex [["clone"; hub_url project; "."]; ["remote"; "add"; hubRemote; hub_url project]]%string ;;
  (if String.eqb branch EmptyString then ret tt else
     r ← attempt (git ctx ex ["checkout"; "-B"; branch]%string);
     match r with
     | inl _ => ret tt
     | inr _ => git ctx ex ["symbolic-ref"; "HEAD"; "refs/heads/" +:+ branch]%string ;; ret tt
     end) ;;
  head ← attempt (git ctx ex ["rev-parse"; "HEAD"]%string);
  ret (match head with inl h => h | inr _ => EmptyString end).

(* @src internal/workspace/clone.go 91-132 Host.CloneAt *)
Definition CloneAt (ctx : Ctx) (ws : Workspace) (project branch commit : string) : M string :=
  Clone ctx ws project EmptyString ;;
  ex ← Executor ws;
  CheckBranch ctx ex branch ;;
  r ← attempt (git ctx ex (["checkout"; "-B"; branch]%string ++ if String.eqb commit EmptyString then [] else [commit]));
  match r with
  | inl _ => git ctx ex ["rev-parse"; "HEAD"]%string
  | inr err =>
      empty ← attempt (git ctx ex ["rev-parse"; "--verify"; "HEAD"]%string);
      if match empty with inl _ => true | inr _ => false end || negb (String.eqb commit EmptyString)
      then fails (ErrWrap ("check out " +:+ branch +:+ " in workspace " +:+ wk_ID ws) err)
      else git ctx ex ["symbolic-ref"; "HEAD"; "refs/heads/" +:+ branch]%string ;; ret EmptyString
  end.

(* @src internal/workspace/clone.go 174-203 Host.connectHub *)
Definition connectHub (ctx : Ctx) (ws : Workspace) (project : string) : M Client :=
  call (Init hub_root ctx project) ;;
  ex ← Executor ws;
  r ← attempt (git ctx ex ["rev-parse"; "--git-dir"]%string);
  match r with
  | inr _ => fails (ErrSuffix ErrNoRepository (wk_ID ws))
  | inl _ =>
      grants (wk_ID ws) project (wk_HubToken ws) ;;
      configureGit ctx ex ;;
      r ← attempt (git ctx ex ["remote"; "set-url"; hubRemote; hub_url project]%string);
      match r with
      | inl _ => ret ex
      | inr _ => git ctx ex ["remote"; "add"; hubRemote; hub_url project]%string ;; ret ex
      end
  end.

(* @src internal/workspace/clone.go 134-155 Host.Push *)
Definition Push (ctx : Ctx) (ws : Workspace) (project branch : string) : M unit :=
  ex ← connectHub ctx ws project;
  CheckBranch ctx ex branch ;;
  git ctx ex ["push"; hubRemote; "HEAD:refs/heads/" +:+ branch]%string ;;
  ret tt.

(* @src internal/workspace/clone.go 157-172 Host.Fetch *)
Definition Fetch (ctx : Ctx) (ws : Workspace) (project branch : string) : M unit :=
  ex ← connectHub ctx ws project;
  CheckBranch ctx ex branch ;;
  git ctx ex ["fetch"; hubRemote; branch]%string ;;
  ret tt.

(** *** Worktrees *)

(* @src internal/workspace/worktree.go 12-16 worktreesDir *)
Definition worktreesDir : string := ".eika" +:+ slash_s +:+ "worktrees".
(* @src internal/workspace/worktree.go 18-20 WorktreeDir *)
Definition WorktreeDir (id : string) : string := Join [worktreesDir; id].

(* @src internal/workspace/worktree.go 22-38 Locate *)
Definition Locate (ctx : Ctx) (id worktreeOf : string) : M Workspace :=
  if String.eqb worktreeOf EmptyString then Inspect ctx id else
  holder ← Inspect ctx worktreeOf;
  ret (with_dir (WorktreeDir id) holder).

(* @src internal/workspace/worktree.go 40-67 AddWorktree *)
Definition AddWorktree (ctx : Ctx) (ex : Client) (id branch commit : string) : M unit :=
  let adding := "add worktree for workspace " +:+ id in
  if String.eqb commit EmptyString then fails (ErrText (adding +:+ ": no commit to start from"))
  else if String.eqb branch EmptyString then fails (ErrSuffix ErrBadBranch "a worktree needs a branch of its own")
  else
    CheckBranch ctx ex branch ;;
    doing adding (call (eikad_write ctx (el_base ex) (el_token ex) (Join [worktreesDir; ".gitignore"%string]) ("*" +:+ nl))) ;;
    doing adding (git ctx ex ["-c"; "worktree.useRelativePaths=true"; "worktree"; "add"; "-b"; branch; WorktreeDir id; commit]%string) ;;
    ret tt.

(* @src internal/workspace/worktree.go 69-86 RemoveWorktree *)
Definition RemoveWorktree (ctx : Ctx) (ex : Client) (id : string) : M unit :=
  let removing_ := "remove worktree of workspace " +:+ id in
  r ← attempt (git ctx ex ["worktree"; "remove"; "--force"; WorktreeDir id]%string);
  match r with
  | inl _ => ret tt
  | inr err =>
      found ← attempt (call (eikad_stat ctx (el_base ex) (el_token ex) (WorktreeDir id)));
      if match found with inr e => is_sentinel "file does not exist" e | inl _ => false end
      then doing removing_ (git ctx ex ["worktree"; "prune"]%string) ;; ret tt
      else fails (ErrWrap removing_ err)
  end.
End host.
