(* ===== verification/HostClaims.v ===== *)
(** What workspaces on a Docker daemon promise: whom the hub serves, that a
    failed creation leaves nothing behind, that a proxied container has no way
    out of its own, and what a restarted harness finds again. *)
From Stdlib Require Import Floats.SpecFloat.
From S2P Require Import Prelude GoStr Float64 Failure GoPath Files FilesClaims NetClaims ToolChoice Config.
From S2P Require Import Sandbox Hub Host.
From stdpp Require Import options.
Open Scope Z_scope.

#[local] Set Default Proof Using "Type".

(** ** What Docker promises

    What there is on a daemon: containers by their id, volumes and images by
    their name; and which networks a container is on. *)
Inductive Object : Type := Container (id : string) | Volume (name : string) | Image (ref : string).

(** A call adds only what [adds] allows of its answer. *)
Definition adds {W A} (has : W -> Object -> Prop) (f : W -> (A + GoError) * W) (allowed : A + GoError -> Object -> Prop) : Prop :=
  forall w r w', f w = (r, w') -> forall o, has w' o -> has w o \/ allowed r o.
Definition nothing {A} (_ : A + GoError) (_ : Object) : Prop := False.

(** The client stopped waiting: its context ended. *)
Fixpoint is_context (e : GoError) : bool :=
  match e with
  | ErrContext _ => true
  | ErrWrap _ e' | ErrSuffix e' _ => is_context e'
  | _ => false
  end.

(** The answer of a removal after which the object is not there. *)
Definition is_gone {W} `{Engine W} {A} (r : A + GoError) : bool := match r with inl _ => true | inr e => IsNotFound e end.

(** A failure that is the daemon's own answer creates nothing; one for which
    the client did not wait may have. *)
Class EngineLaws (W : Type) `{Engine W} := {
  has : W -> Object -> Prop;
  NotFound_answer e : IsNotFound e = true -> is_context e = false;
  VolumeCreate_adds c n l : adds has (VolumeCreate c n l) (fun _ o => o = Volume n);
  VolumeRemove_adds c n : adds has (VolumeRemove c n) nothing;
  VolumeRemove_gone c n w r w' : VolumeRemove c n w = (r, w') -> is_gone r = true -> ~ has w' (Volume n);
  ContainerCreate_adds c cfg n : adds has (ContainerCreate c cfg n)
    (fun r o => match r with inl id => id <> EmptyString /\ o = Container id | inr e => is_context e = true end);
  ContainerRemove_adds c id : adds has (ContainerRemove c id) nothing;
  ContainerRemove_gone c id w r w' : ContainerRemove c id w = (r, w') -> is_gone r = true -> ~ has w' (Container id);
  CopyToContainer_adds c id p a : adds has (CopyToContainer c id p a) nothing;
  ImagePull_adds c ref : adds has (ImagePull c ref) (fun _ o => o = Image ref);
  ImageBuild_adds c a d ref : adds has (ImageBuild c a d ref)
    (fun r o => o = Image ref /\ match r with
       | inl l => forall e, drainDockerStream l = Some e -> exists e', e = ErrWrap "read docker stream" e'
       | inr e => is_context e = true end);
  ImageRemove_adds c ref : adds has (ImageRemove c ref) nothing;
  ImageRemove_gone c ref w r w' : ImageRemove c ref w = (r, w') -> is_gone r = true -> ~ has w' (Image ref);
}.

(** Everything else adds nothing. *)
Class QuietLaws (W : Type) `{EngineLaws W, Repositories W} := {
  Start_adds c id : adds has (ContainerStart c id) nothing;
  Inspect_adds c id : adds has (ContainerInspect c id) nothing;
  NetworkInspect_adds c n : adds has (NetworkInspect c n) nothing;
  Connect_adds c n id al : adds has (NetworkConnect c n id al) nothing;
  Disconnect_adds c n id : adds has (NetworkDisconnect c n id) nothing;
  health_adds c a : adds has (eikad_health c a) nothing;
  pause_adds c : adds has (pause c) nothing;
  environment_adds c b t e : adds has (eikad_environment c b t e) nothing;
  git_adds c b t d a : adds has (eikad_git c b t d a) nothing;
  hub_git_adds c d e a : adds has (hub_git c d e a) nothing;
}.

(** Which networks a container is on. *)
Class NetworkLaws (W : Type) `{Engine W} := {
  on : W -> string -> string -> Prop;
  Inspect_on c id w i w' : ContainerInspect c id w = (inl i, w') -> forall n, on w' id n <-> is_Some (attached_of i !! n);
  NetworkInspect_on c n w r w' : NetworkInspect c n w = (r, w') -> forall id m, on w' id m <-> on w id m;
  Connect_on c n id al w u w' : NetworkConnect c n id al w = (inl u, w') -> forall m, on w' id m <-> m = n \/ on w id m;
  Disconnect_on c n id w u w' : NetworkDisconnect c n id w = (inl u, w') -> forall m, on w' id m <-> m <> n /\ on w id m;
  Start_on c id w r w' : ContainerStart c id w = (r, w') -> forall i m, on w' i m <-> on w i m;
  ContainerInspect_on c id w r w' : ContainerInspect c id w = (r, w') -> forall i m, on w' i m <-> on w i m;
  health_on c a w r w' : eikad_health c a w = (r, w') -> forall i m, on w' i m <-> on w i m;
  pause_on c w r w' : pause c w = (r, w') -> forall i m, on w' i m <-> on w i m;
  environment_on c b t e w r w' : eikad_environment c b t e w = (r, w') -> forall i m, on w' i m <-> on w i m;
}.

Definition at_root (ms : list Mount) : list Mount := base.filter (fun m => mo_Target m = Root) ms.
(** What inspecting a container shows of what it was created from: variables
    and labels of the image come after its own. *)
Record shows (i : ContainerInfo) (id : string) (cfg : ContainerConfig) : Prop := {
  sh_ID : ci_ID i = id;
  sh_Image : ci_Image i = cc_Image cfg;
  sh_Env : cc_Env cfg `prefix_of` ci_Env i;
  sh_Labels : cc_Labels cfg ⊆ ci_Labels i;
  sh_Mounts : at_root (ci_Mounts i) = at_root (cc_Mounts cfg);
  sh_Networks : exists l, ci_Networks i = Some l /\ (cc_Networks cfg <> ∅ -> dom l = dom (cc_Networks cfg));
}.

(** A name stands for a container with that id, created from [cfg]. *)
Class ConfigLaws (W : Type) `{Engine W} := {
  made : W -> string -> string -> ContainerConfig -> Prop;
  Create_made c cfg n w id w' : ContainerCreate c cfg n w = (inl id, w') -> made w' n id cfg;
  Copy_made c i p a w r w' n id cfg : CopyToContainer c i p a w = (r, w') -> made w n id cfg -> made w' n id cfg;
  Inspect_made c n w i w' id cfg : made w n id cfg -> ContainerInspect c n w = (inl i, w') -> shows i id cfg;
}.

(** ** Programs *)

Section host.
Context {W : Type} `{Engine W} `{Repositories W} `{Library} (opts : Options) (hub_root : string).
Notation state := (@St W).

Lemma triple_call {A} (f : W -> (A + GoError) * W) (P : state -> Prop) Q :
  (forall s r w', P s -> f (st_world s) = (r, w') -> Q r (mkSt w' (st_grants s) (st_warned s))) -> triple P (call f) Q.
Proof. intros HQ s r s' E HP. unfold call in E. destruct (f (st_world s)) as [r' w'] eqn:Ef. injection E as <- <-. by eapply HQ. Qed.

Lemma triple_doing {A} what P (m : M A) (Q : A + GoError -> state -> Prop) :
  triple P m (fun r s => Q (match r with inl a => inl a | inr e => inr (ErrWrap what e) end) s) -> triple P (doing what m) Q.
Proof.
  intros Hm s r s' E HP. unfold doing in E. destruct (m s) as [[a|e] s1] eqn:Em; injection E as <- <-; exact (Hm _ _ _ Em HP).
Qed.

Lemma triple_world {A} (f : W -> A) (P : state -> Prop) Q : (forall s, P s -> Q (inl (f (st_world s))) s) -> triple P (at_world f : M A) Q.
Proof. apply triple_look. Qed.

Lemma keeps_doing {A} (R : relation state) what (m : M A) : keeps R m -> keeps R (doing what m).
Proof. intros Hm s r s' E. unfold doing in E. destruct (m s) as [[a|e] s1] eqn:Em; injection E as <- <-; by eapply Hm. Qed.

Lemma keeps_call {A} (R : relation state) (f : W -> (A + GoError) * W) :
  (forall s r w', f (st_world s) = (r, w') -> R s (mkSt w' (st_grants s) (st_warned s))) -> keeps R (call f).
Proof. intros Hf s r s' E. unfold call in E. destruct (f (st_world s)) as [r' w'] eqn:Ef. injection E as <- <-. by eapply Hf. Qed.

(** What talking to a container's daemon leaves related, so does waiting for
    it. *)
Class Harmless (R : relation state) : Prop := {
  harmless_health c a : keeps R (call (eikad_health c a));
  harmless_pause c : keeps R (call (pause c));
  harmless_environment c b t e : keeps R (call (eikad_environment c b t e));
  harmless_inspect c id : keeps R (call (ContainerInspect c id));
}.

Section harmless.
Context (R : relation state) `{HR : !Reflexive R, HT : !Transitive R, HH : !Harmless R}.

Lemma keeps_polls fuel ctx addr deadline : keeps R (polls fuel ctx addr deadline).
Proof using HR HT HH.
  induction fuel as [|fuel IH]; [by apply keeps_ret|]. cbn [polls].
  apply keeps_bind; [done|apply keeps_attempt, harmless_health|]. intros st.
  apply keeps_if; [by apply keeps_ret|]. apply keeps_bind; [done|by apply keeps_look|]. intros at_.
  apply keeps_if; [by apply keeps_fails|]. apply keeps_bind; [done|apply harmless_pause|done].
Qed.

Lemma keeps_waitReady ctx addr : keeps R (waitReady ctx addr).
Proof using HR HT HH.
  apply keeps_bind; [done|by apply keeps_look|]. intros st. apply keeps_if; [by apply keeps_fails|].
  apply keeps_bind; [done|apply keeps_polls|]. intros [u|]; [by apply keeps_ret|by apply keeps_fails].
Qed.

Lemma keeps_setEnvironment ctx ws : keeps R (setEnvironment opts ctx ws).
Proof using HR HT HH. apply keeps_bind; [done|by apply keeps_lift|]. intros c. apply keeps_doing, harmless_environment. Qed.

Lemma keeps_address ctx ws : keeps R (address opts ctx ws).
Proof using HR HT HH.
  unfold address. apply keeps_if; [by apply keeps_ret|]. apply keeps_bind; [done|apply keeps_doing, harmless_inspect|].
  intros i. destruct (ci_DaemonPorts i); [by apply keeps_fails|by apply keeps_ret].
Qed.
End harmless.

Section creation.
(** ** A failed creation *)

Context `{!EngineLaws W}.

Definition only (X : Object -> Prop) (s0 s : state) : Prop := forall o, has (st_world s) o -> has (st_world s0) o \/ X o.
Definition stage (s0 : state) (X : Object -> Prop) (s : state) : Prop :=
  only X s0 s /\ st_warned s = st_warned s0 /\ st_grants s = st_grants s0.

(** What a workspace holds, as far as it is recorded. *)
Definition owned (ws : Workspace) (built : bool) (o : Object) : Prop :=
  (wk_ContainerID ws <> EmptyString /\ o = Container (wk_ContainerID ws)) \/
  (wk_Volume ws <> EmptyString /\ o = Volume (wk_Volume ws)) \/
  (built = true /\ o = Image (builtImageRef (wk_ID ws))).

(** What came after [s0] while removals go on: without a warning, only [Y]. *)
Definition leaving (s0 : state) (Y : Object -> Prop) (s : state) : Prop :=
  (exists l, st_warned s = st_warned s0 ++ l) /\ (st_warned s = st_warned s0 -> only Y s0 s) /\ st_grants s = st_grants s0.

Lemma stage_leaving s0 X s : stage s0 X s -> leaving s0 X s.
Proof. intros (Ho & Hw & Hg). split; [exists []; by rewrite app_nil_r|done]. Qed.

Lemma removing_leaves s0 Y what obj (f : W -> (unit + GoError) * W) :
  adds has f nothing -> (forall w r w', f w = (r, w') -> is_gone r = true -> ~ has w' obj) ->
  triple (leaving s0 Y) (removing what (call f)) (fun r s => r = inl tt /\ leaving s0 (fun o => Y o /\ o <> obj) s).
Proof.
  intros Hadds Hgone. unfold removing.
  assert (Hstep : forall s r w', leaving s0 Y s -> f (st_world s) = (r, w') -> is_gone r = true ->
    leaving s0 (fun o => Y o /\ o <> obj) (mkSt w' (st_grants s) (st_warned s))).
  { intros s r w' (Hl & Ho & Hg) E Hr. split; [exact Hl|]. split; [|exact Hg]. intros Hw o Hhas. cbn in *.
    destruct (Hadds _ _ _ E _ Hhas) as [Hhas'|[]]. destruct (Ho Hw _ Hhas') as [|HY]; [by left|]. right. split; [done|].
    intros ->. by apply (Hgone _ _ _ E Hr). }
  apply triple_bind with (R := fun r s => match r with
    | inl (inl _) => leaving s0 (fun o => Y o /\ o <> obj) s
    | inl (inr e) => if IsNotFound e then leaving s0 (fun o => Y o /\ o <> obj) s
                     else (exists l, st_warned s = st_warned s0 ++ l) /\ st_grants s = st_grants s0
    | inr _ => False end).
  - apply triple_attempt, triple_call. intros s [u|e] w' Hs E; [by eapply Hstep|].
    destruct (IsNotFound e) eqn:He; [by eapply Hstep|]. destruct Hs as (Hl & _ & Hg). by split.
  - intros [u|e]; [by apply triple_ret|]. apply triple_if; intros He; [apply triple_ret; intros s; by rewrite He|].
    intros s r s' [= <- <-] Hs. rewrite He in Hs. destruct Hs as ((l & Hl) & Hg). split; [done|]. split.
    + exists (l ++ [what]). cbn. by rewrite Hl, app_assoc.
    + split; [|done]. cbn. rewrite Hl, <- app_assoc. intros E. exfalso.
      apply (f_equal length) in E. rewrite !length_app in E. cbn in E. lia.
  - done.
Qed.

Lemma unless {A} (b : bool) (m n : A) : (if b then n else m) = (if negb b then m else n).
Proof. by destruct b. Qed.

Lemma removing_if s0 Y (b : bool) (m : M unit) obj :
  triple (leaving s0 Y) m (fun r s => r = inl tt /\ leaving s0 (fun o => Y o /\ o <> obj) s) ->
  triple (leaving s0 Y) (if b then m else ret tt) (fun r s => r = inl tt /\ leaving s0 (fun o => Y o /\ (b = true -> o <> obj)) s).
Proof.
  intros Hm. destruct b.
  - eapply triple_conseq; [exact Hm|done|]. intros r s (Hr & Hl & Ho & Hg). split; [done|]. split; [done|]. split; [|done].
    intros Hw o Hhas. destruct (Ho Hw o Hhas) as [|[]]; [by left|by right].
  - apply triple_ret. intros s (Hl & Ho & Hg). split; [done|]. split; [done|]. split; [|done].
    intros Hw o Hhas. destruct (Ho Hw o Hhas) as [|]; [by left|by right].
Qed.

(** What is left after a discard that warned of nothing. *)
Definition discarded (s0 : state) (X : Object -> Prop) (ws : Workspace) (built : bool) (s : state) : Prop :=
  st_warned s = st_warned s0 -> only (fun o => X o /\ ~ owned ws built o) s0 s /\ st_grants s = delete (wk_ID ws) (st_grants s0).

Lemma discard_removes s0 X ctx ws built :
  triple (stage s0 X) (discard ctx ws built) (fun r s => r = inl tt /\ discarded s0 X ws built s).
Proof.
  apply triple_conseq with (P' := leaving s0 X) (Q' := fun r s => r = inl tt /\ discarded s0 X ws built s); [|apply stage_leaving|done].
  unfold discard. rewrite !(unless (String.eqb _ _)).
  eapply triple_bind; [apply removing_if, (removing_leaves s0 X _ (Container (wk_ContainerID ws)));
    [apply ContainerRemove_adds|apply ContainerRemove_gone]| |by intros e s (? & _)].
  intros u. eapply triple_bind; [eapply triple_conseq; [apply removing_if, (removing_leaves s0 _ _ (Volume (wk_Volume ws)));
    [apply VolumeRemove_adds|apply VolumeRemove_gone]|by intros s (_ & Hs)|done]| |by intros e s (? & _)].
  intros u'. eapply triple_bind; [eapply triple_conseq; [apply removing_if, (removing_leaves s0 _ _ (Image (builtImageRef (wk_ID ws))));
    [apply ImageRemove_adds|apply ImageRemove_gone]|by intros s (_ & Hs)|done]| |by intros e s (? & _)].
  intros u'' s r s' [= <- <-] (_ & (_ & Ho & Hg)). split; [done|]. intros Hw. cbn in *. split; [|by rewrite Hg].
  intros o Hhas. destruct (Ho Hw o Hhas) as [|(((HX & Hc) & Hv) & Hi)]; [by left|]. right. split; [done|].
  intros [[Hn ->]|[[Hn ->]|[Hn ->]]]; [apply Hc|apply Hv|apply Hi]; try done; by apply negb_true_iff, String.eqb_neq.
Qed.

(** The client did not wait for the answer, or could not read all of it. *)
Definition cut_off (e : GoError) : Prop :=
  is_context e = true \/ exists what e', e = ErrWrap what (ErrWrap "read docker stream" e').

Definition clean (s0 : state) (base : Object -> Prop) (id : string) (e : GoError) (s : state) : Prop :=
  cut_off e \/ (st_warned s = st_warned s0 -> only base s0 s /\ (st_grants s = st_grants s0 \/ st_grants s = delete id (st_grants s0))).

(** What a step of a creation comes to: on to the next stage, or a failure
    from a stage [Z]. *)
Definition steps {A} (s0 : state) (Y : A -> Object -> Prop) (Z : Object -> Prop) (r : A + GoError) (s : state) : Prop :=
  match r with inl a => stage s0 (Y a) s | inr e => is_context e = true \/ stage s0 Z s end.

Lemma or_discard_clean {A} s0 X (Y : A -> Object -> Prop) Z base ctx ws built (m : M A) :
  triple (stage s0 X) m (steps s0 Y Z) -> (forall o, Z o -> base o \/ owned ws built o) ->
  triple (stage s0 X) (or_discard ctx ws built m)
    (fun r s => match r with inl a => stage s0 (Y a) s | inr e => clean s0 base (wk_ID ws) e s end).
Proof.
  intros Hm HZ. unfold or_discard. eapply triple_bind with (R := fun r s => match r with inl r => steps s0 Y Z r s | inr _ => False end);
    [by apply triple_attempt| |done].
  intros [a|e]; [by apply triple_ret|]. intros s r s' E Hs. unfold mbind, M_bind, EM_bind in E.
  destruct (discard ctx ws built s) as [u s1] eqn:Ed.
  assert (Hany : stage s (fun _ => True) s) by (split; [by right|done]).
  destruct (discard_removes s _ ctx ws built s u s1 Ed Hany) as [-> _]. injection E as <- <-.
  destruct Hs as [Hcut|Hs]; [by left; left|]. right. intros Hw.
  destruct (discard_removes s0 Z ctx ws built s _ s1 Ed Hs) as [_ Hd]. destruct (Hd Hw) as [Ho Hg]. split; [|by right].
  intros o Hhas. destruct (Ho o Hhas) as [|[HZo Hown]]; [by left|]. right. by destruct (HZ o HZo).
Qed.

Lemma call_adds {A} s0 X (f : W -> (A + GoError) * W) (allowed : A + GoError -> Object -> Prop) :
  adds has f allowed ->
  triple (stage s0 X) (call f) (fun r s => stage s0 (fun o => X o \/ allowed r o) s).
Proof.
  intros Ha. apply triple_call. intros s r w' (Ho & Hw & Hg) E. split; [|done]. intros o Hhas. cbn in Hhas.
  destruct (Ha _ _ _ E o Hhas) as [Hold|]; [|by right; right]. destruct (Ho o Hold); [by left|by right; left].
Qed.

Lemma stage_mono s0 (X Y : Object -> Prop) s : stage s0 X s -> (forall o, X o -> Y o) -> stage s0 Y s.
Proof. intros (Ho & Hr) HXY. split; [|done]. intros o Hhas. destruct (Ho o Hhas); [by left|right; auto]. Qed.

Lemma create_steps s0 X ctx cfg name :
  triple (stage s0 X) (createContainer ctx cfg name)
    (steps s0 (fun id o => X o \/ o = Image (cc_Image cfg) \/ (id <> EmptyString /\ o = Container id)) (fun o => X o \/ o = Image (cc_Image cfg))).
Proof.
  unfold createContainer. set (X' := fun o => X o \/ o = Image (cc_Image cfg)).
  assert (Hcreate : forall Y : Object -> Prop, (forall o, Y o -> X' o) -> triple (stage s0 Y) (call (ContainerCreate ctx cfg name))
    (steps s0 (fun id o => X o \/ o = Image (cc_Image cfg) \/ (id <> EmptyString /\ o = Container id)) X')).
  { intros Y HY. eapply triple_conseq; [apply call_adds, ContainerCreate_adds|done|]. intros [id|e] s Hs.
    - eapply stage_mono; [exact Hs|]. cbn. intros o [Ho|Ho]; [destruct (HY o Ho); auto|auto].
    - destruct (is_context e) eqn:He; [by left|]. right. eapply stage_mono; [exact Hs|]. cbn. intros o [Ho|]; [auto|congruence]. }
  eapply triple_bind with (R := fun r s => match r with
    | inl (inl id) => stage s0 (fun o => X o \/ o = Image (cc_Image cfg) \/ (id <> EmptyString /\ o = Container id)) s
    | inl (inr e) => is_context e = true \/ stage s0 X s | inr _ => False end); [|intros [id|e]|done].
  - apply triple_attempt. eapply triple_conseq; [apply call_adds, ContainerCreate_adds|done|]. intros [id|e] s Hs.
    + eapply stage_mono; [exact Hs|]. cbn. tauto.
    + cbn. destruct (is_context e) eqn:He; [by left|]. right. eapply stage_mono; [exact Hs|]. cbn. intros o [|]; [done|congruence].
  - by apply triple_ret.
  - apply triple_if; intros Hn.
    { apply triple_fails. intros s [He|Hs]; [by left|]. right. eapply stage_mono; [exact Hs|]. unfold X'. auto. }
    apply negb_false_iff in Hn. apply triple_conseq with (P' := stage s0 X) (Q' := steps s0 (fun id o => X o \/ o = Image (cc_Image cfg) \/ (id <> EmptyString /\ o = Container id)) X');
      [|intros s [He|]; [pose proof (NotFound_answer e Hn); congruence|done]|done].
    unfold pullImage. eapply triple_bind with (R := fun r s => stage s0 X' s); [|intros u; by apply Hcreate|by right].
    eapply triple_bind with (R := fun r s => stage s0 X' s); [apply triple_doing| |done].
    + eapply triple_conseq; [apply call_adds, ImagePull_adds|done|]. by intros [a|e'] s Hs.
    + intros body. destruct (drainDockerStream body); [by apply triple_fails|by apply triple_ret].
Qed.

Definition no_object (o : Object) : Prop := False.
Definition spec_built (spec : Spec) : bool := negb (String.eqb (sp_BuildContext spec) EmptyString).
Definition spec_base (spec : Spec) (o : Object) : Prop := o = Image (orDefault (sp_Image spec) (op_Image opts)).

Lemma clean_cut s0 base id e s : cut_off e -> clean s0 base id e s. Proof. by left. Qed.
Lemma clean_stage s0 (base X : Object -> Prop) id e s : stage s0 X s -> (forall o, X o -> base o) -> clean s0 base id e s.
Proof. intros Hs HX. right. intros _. destruct (stage_mono _ _ base _ Hs HX) as (Ho & _ & Hg). split; [done|by left]. Qed.

Lemma build_clean s0 base id ctx spec ref :
  triple (stage s0 no_object) (buildImage ctx spec ref)
    (fun r s => match r with inl _ => stage s0 (fun o => o = Image ref) s | inr e => clean s0 base id e s end).
Proof.
  unfold buildImage. eapply triple_bind with (R := fun r s => stage s0 no_object s); [by apply triple_world| |].
  2: { intros e s Hs. by eapply clean_stage. }
  intros packed. eapply triple_bind with (R := fun r s => stage s0 no_object s); [by apply triple_lift| |].
  2: { intros e s Hs. by eapply clean_stage. }
  intros a. eapply triple_bind with (R := fun r s => match r with
    | inl l => stage s0 (fun o => o = Image ref /\ forall e, drainDockerStream l = Some e -> exists e', e = ErrWrap "read docker stream" e') s
    | inr e => clean s0 base id e s end); [apply triple_doing| |done].
  - eapply triple_conseq; [apply call_adds, ImageBuild_adds|done|]. intros [l|e] s Hs; cbn.
    + eapply stage_mono; [exact Hs|]. intros o [[]|Ho]. exact Ho.
    + destruct (is_context e) eqn:He; [by left; left|]. eapply clean_stage; [exact Hs|]. intros o [[]|[_ Hf]]. congruence.
  - intros l. destruct (drainDockerStream l) as [e|] eqn:Hd.
    + apply triple_fails. intros s Hs. destruct (match e with ErrWrap p _ => String.eqb p "read docker stream" | _ => false end) eqn:Hc.
      * destruct e as [|p e| | | | |]; try done. apply String.eqb_eq in Hc as ->. left. right. by eexists _, _.
      * eapply clean_stage; [exact Hs|]. intros o [_ Hf]. destruct (Hf e eq_refl) as [e' ->]. by rewrite String.eqb_refl in Hc.
    + apply triple_ret. intros s Hs. eapply stage_mono; [exact Hs|]. by intros o [-> _].
Qed.

(** What exists when the container does. *)
Definition holds (spec : Spec) (ws : Workspace) (o : Object) : Prop := spec_base spec o \/ owned ws (spec_built spec) o.

Lemma image_owned spec id token hub at_ (o : Object) : o = Image (wk_Image (planned opts spec id token hub at_)) -> holds spec (planned opts spec id token hub at_) o.
Proof.
  intros ->. unfold holds, spec_base, owned, spec_built, planned. cbn. destruct (String.eqb (sp_BuildContext spec) EmptyString); [by left|].
  right. right. right. by split.
Qed.

(** After a creation, only what the workspace holds is new. *)
Definition grown (spec : Spec) (s0 : state) (ws : Workspace) (s : state) : Prop :=
  only (holds spec ws) s0 s /\ st_warned s = st_warned s0.

Lemma grant_clean s0 ctx spec ws project token :
  triple (stage s0 (holds spec ws)) (or_discard ctx ws (spec_built spec) (grants (wk_ID ws) project token))
    (fun r s => match r with inl _ => grown spec s0 ws s | inr e => clean s0 (spec_base spec) (wk_ID ws) e s end).
Proof.
  destruct (projectName project) eqn:Hp.
  - intros s r s' E Hs. unfold or_discard, mbind, M_bind, attempt, grants, granting, Grant in E. rewrite Hp in E.
    injection E as <- <-. destruct Hs as (Ho & Hw & _). by split.
  - eapply triple_conseq; [apply or_discard_clean with (Y := fun _ => holds spec ws) (Z := holds spec ws); [|done]|done|].
    2: { intros [u|e] s Hs; [|done]. destruct Hs as (Ho & Hw & _). by split. }
    intros s r s' E Hs. unfold grants, granting, Grant in E. rewrite Hp in E. injection E as <- <-. right. by destruct s.
Qed.

Lemma Create_clean s0 ctx rid rtoken rhub spec :
  triple (fun s => s = s0) (Create opts ctx rid rtoken rhub spec)
    (fun r s => match r with
       | inl ws => grown spec s0 ws s /\ (exists id token hub at_ cid, ws = with_container cid (planned opts spec id token hub at_))
       | inr e => exists id, clean s0 (spec_base spec) id e s end).
Proof.
  unfold Create. apply triple_conseq with (P' := stage s0 no_object) (Q' := fun r s => match r with
    | inl ws => grown spec s0 ws s /\ (exists id token hub at_ cid, ws = with_container cid (planned opts spec id token hub at_))
    | inr e => exists id, clean s0 (spec_base spec) id e s end);
    [|intros s ->; split; [by left|done]|done].
  assert (Hearly : forall e s, stage s0 no_object s -> exists id, clean s0 (spec_base spec) id e s).
  { intros e s Hs. exists EmptyString. by eapply clean_stage. }
  apply triple_if; intros _; [apply triple_fails; auto|].
  eapply triple_bind with (R := fun r s => stage s0 no_object s); [by apply triple_world| |auto]. intros at_.
  eapply triple_bind with (R := fun r s => stage s0 no_object s);
    [apply triple_if; intros _; [by apply triple_lift|by apply triple_ret]| |auto]. intros id.
  eapply triple_bind with (R := fun r s => stage s0 no_object s); [by apply triple_lift| |auto]. intros token.
  eapply triple_bind with (R := fun r s => stage s0 no_object s); [by apply triple_lift| |auto]. intros hubToken.
  cbv zeta. change (negb (String.eqb (sp_BuildContext spec) EmptyString)) with (spec_built spec). set (ws := planned opts spec id token hubToken at_).
  set (X0 := fun o => spec_built spec = true /\ o = Image (wk_Image ws)).
  eapply triple_bind with (R := fun r s => match r with inl _ => stage s0 X0 s | inr e => clean s0 (spec_base spec) (wk_ID ws) e s end);
    [|intros u|by eauto].
  { apply triple_if; intros Hb; [eapply triple_conseq; [apply build_clean|done|]|apply triple_ret].
    - intros [v|e] s Hs; [|exact Hs]. eapply stage_mono; [exact Hs|]. by split.
    - intros s Hs. eapply stage_mono; [exact Hs|]. by intros o []. }
  set (X1 := fun o => X0 o \/ (wk_Volume ws <> EmptyString /\ o = Volume (wk_Volume ws))).
  assert (H01 : forall o, X1 o -> holds spec ws o).
  { intros o [[Hb ->]|Hv]; [|by right; right; left]. by apply image_owned. }
  eapply triple_bind with (R := fun r s => match r with inl _ => stage s0 X1 s | inr e => clean s0 (spec_base spec) (wk_ID ws) e s end);
    [|intros u'|by eauto].
  { apply triple_if; intros Hp.
    - eapply triple_conseq; [apply or_discard_clean with (Y := fun _ => X1) (Z := X1); [|exact H01]|done|done].
      apply triple_doing. eapply triple_conseq; [apply call_adds, VolumeCreate_adds|done|]. intros r s Hs.
      assert (Hs1 : stage s0 X1 s).
      { eapply stage_mono; [exact Hs|]. intros o [|Hv]; [by left|]. right. split; [|done]. subst ws. unfold planned. cbn. by rewrite Hp. }
      destruct r; [exact Hs1|by right].
    - apply triple_ret. intros s Hs. eapply stage_mono; [exact Hs|]. by left. }
  eapply triple_bind with (R := fun r s => match r with
    | inl cid => stage s0 (holds spec (with_container cid ws)) s | inr e => clean s0 (spec_base spec) (wk_ID ws) e s end); [|intros created|by eauto].
  { eapply triple_conseq; [apply or_discard_clean with (Z := fun o => X1 o \/ o = Image (wk_Image ws));
      [apply triple_doing; eapply triple_conseq; [apply create_steps|done|]|]|done|].
    - by intros [cid|e] s Hs.
    - intros o [Ho|Ho]; [by apply H01|by apply image_owned].
    - intros [cid|e] s Hs; [|exact Hs]. eapply stage_mono; [exact Hs|]. intros o [Ho|[Ho|[Hn ->]]].
      + destruct (H01 o Ho) as [Hb|[[Hn _]|Ho']]; [by left|done|]. right. by right.
      + destruct (image_owned spec id token hubToken at_ o Ho) as [Hb|[[Hn _]|Ho']]; [by left|done|]. right. by right.
      + right. by left. }
  set (ws' := with_container created ws).
  assert (Hkeep : forall A (m : M A), triple (stage s0 (holds spec ws')) m (fun _ => stage s0 (holds spec ws')) ->
    triple (stage s0 (holds spec ws')) (or_discard ctx ws' (spec_built spec) m)
      (fun r s => match r with inl _ => stage s0 (holds spec ws') s | inr e => clean s0 (spec_base spec) (wk_ID ws') e s end)).
  { intros A m Hm. apply or_discard_clean with (Y := fun _ => holds spec ws') (Z := holds spec ws'); [|done].
    eapply triple_conseq; [exact Hm|done|]. intros [a|e] s Hs; [exact Hs|by right]. }
  eapply triple_bind with (R := fun r s => match r with inl _ => stage s0 (holds spec ws') s | inr e => clean s0 (spec_base spec) (wk_ID ws') e s end);
    [apply Hkeep|intros v|by eauto].
  { unfold injectDaemon. eapply triple_bind with (R := fun _ => stage s0 (holds spec ws')); [by apply triple_world| |done].
    intros b. eapply triple_bind with (R := fun _ => stage s0 (holds spec ws')); [by apply triple_doing, triple_lift| |done].
    intros d. apply triple_doing. eapply triple_conseq; [apply call_adds, CopyToContainer_adds|done|]. intros r s Hs.
    eapply stage_mono; [exact Hs|]. by intros o [|[]]. }
  eapply triple_bind with (R := fun r s => match r with inl _ => grown spec s0 ws' s | inr e => clean s0 (spec_base spec) (wk_ID ws') e s end);
    [|intros v'; apply triple_ret; intros s Hs; split; [exact Hs|by exists id, token, hubToken, at_, created]|by eauto].
  apply triple_if; intros _; [|apply grant_clean]. apply triple_ret. intros s (Ho & Hw & _). by split.
Qed.

(** A creation that fails, and was neither cut off nor warned of a
    removal that failed, leaves no container, no volume and no image that was
    not there before, except the image it may have pulled, and no access to
    the hub. *)
Theorem create_leaves_nothing ctx rid rtoken rhub spec s e s' :
  Create opts ctx rid rtoken rhub spec s = (inr e, s') -> ~ cut_off e -> st_warned s' = st_warned s ->
  (forall o, has (st_world s') o -> has (st_world s) o \/ o = Image (orDefault (sp_Image spec) (op_Image opts))) /\
  (forall id g, st_grants s' !! id = Some g -> st_grants s !! id = Some g).
Proof.
  intros E Hcut Hw. destruct (Create_clean s ctx rid rtoken rhub spec s _ _ E eq_refl) as [id [|Hc]]; [done|].
  destruct (Hc Hw) as [Ho Hg]. split; [exact Ho|]. intros i g Hi. destruct Hg as [Hg|Hg]; rewrite Hg in Hi; [done|].
  by apply lookup_delete_Some in Hi as [_ Hi].
Qed.

(** ** Destroying *)

(** Nothing is new since [s0], and what [D] names is gone. *)
Definition kept (s0 : state) (D : Object -> Prop) (s : state) : Prop := forall o, has (st_world s) o -> has (st_world s0) o /\ ~ D o.

Lemma removed_gone s0 D what obj (f : W -> (unit + GoError) * W) :
  adds has f nothing -> (forall w r w', f w = (r, w') -> is_gone r = true -> ~ has w' obj) ->
  triple (kept s0 D) (removed what (call f)) (fun r s => match r with inl _ => kept s0 (fun o => D o \/ o = obj) s | inr _ => True end).
Proof.
  intros Hadds Hgone. unfold removed.
  assert (Hstep : forall s r w', kept s0 D s -> f (st_world s) = (r, w') -> is_gone r = true ->
    kept s0 (fun o => D o \/ o = obj) (mkSt w' (st_grants s) (st_warned s))).
  { intros s r w' Hk E Hr o Hhas. cbn in *. destruct (Hadds _ _ _ E _ Hhas) as [Hold|[]]. destruct (Hk o Hold) as [H0' HD]. split; [done|].
    intros [| ->]; [done|]. by apply (Hgone _ _ _ E Hr). }
  eapply triple_bind with (R := fun r s => match r with
    | inl r' => is_gone r' = true -> kept s0 (fun o => D o \/ o = obj) s | inr _ => True end); [| |done].
  - apply triple_attempt, triple_call. intros s r w' Hs E Hr. by eapply Hstep.
  - intros [u|e]; [apply triple_ret; intros s Hs; by apply Hs|]. apply triple_if; intros He; [apply triple_ret|by apply triple_fails].
    intros s Hs. by apply Hs.
Qed.

Lemma removed_if s0 D (b : bool) (m : M unit) obj :
  triple (kept s0 D) m (fun r s => match r with inl _ => kept s0 (fun o => D o \/ o = obj) s | inr _ => True end) ->
  triple (kept s0 D) (if b then m else ret tt) (fun r s => match r with inl _ => kept s0 (fun o => D o \/ (b = true /\ o = obj)) s | inr _ => True end).
Proof.
  intros Hm. destruct b.
  - eapply triple_conseq; [exact Hm|done|]. intros [u|e] s Hs; [|done]. intros o Hhas. destruct (Hs o Hhas) as [H0' HD]. split; [done|]. tauto.
  - apply triple_ret. intros s Hs o Hhas. destruct (Hs o Hhas) as [H0' HD]. split; [done|]. intros [|[]]; done.
Qed.

(** A workspace that was destroyed has no container, no volume, and no
    image built for it any more; nothing else came to be, and its access to the
    hub is gone. *)
Theorem destroy_removes_all ctx ws s ws' s' :
  Destroy ctx ws s = (inl ws', s') ->
  (forall o, has (st_world s') o -> has (st_world s) o /\
    o <> Container (wk_ContainerID ws) /\ ~ owned ws (String.eqb (wk_Image ws) (builtImageRef (wk_ID ws))) o) /\
  st_grants s' !! wk_ID ws = None /\ ws' = with_state StateGone (with_address EmptyString ws).
Proof.
  intros E.
  assert (Hd : triple (kept s no_object) (Destroy ctx ws) (fun r s' => match r with inl ws' =>
      kept s (fun o => ((no_object o \/ o = Container (wk_ContainerID ws)) \/ (negb (String.eqb (wk_Volume ws) EmptyString) = true /\ o = Volume (wk_Volume ws))) \/
                       (String.eqb (wk_Image ws) (builtImageRef (wk_ID ws)) = true /\ o = Image (wk_Image ws))) s' /\
      st_grants s' !! wk_ID ws = None /\ ws' = with_state StateGone (with_address EmptyString ws) | inr _ => True end)).
  { unfold Destroy. rewrite (unless (String.eqb (wk_Volume ws) _)).
    eapply triple_bind; [apply removed_gone with (obj := Container (wk_ContainerID ws)); [apply ContainerRemove_adds|apply ContainerRemove_gone]| |done].
    intros u. eapply triple_bind; [apply removed_if, removed_gone with (obj := Volume (wk_Volume ws)); [apply VolumeRemove_adds|apply VolumeRemove_gone]| |done].
    intros u'. eapply triple_bind; [apply removed_if, removed_gone with (obj := Image (wk_Image ws)); [apply ImageRemove_adds|apply ImageRemove_gone]| |done].
    intros u'' s1 r s2 [= <- <-] Hk. split; [exact Hk|]. split; [apply lookup_delete_eq|done]. }
  destruct (Hd s _ s' E) as (Hk & Hg & Hws); [intros o Ho; split; [done|by intros []]|]. split; [|by split].
  intros o Hhas. destruct (Hk o Hhas) as [Hold Hnot]. split; [done|]. split; [by intros ->; apply Hnot; left; left; right|].
  intros [[_ ->]|[[Hn ->]|[Hb ->]]]; apply Hnot.
  - left. left. by right.
  - left. right. split; [|done]. by apply negb_true_iff, String.eqb_neq.
  - right. split; [done|]. by apply String.eqb_eq in Hb as ->.
Qed.

(** ** Programs that add nothing *)

Context `{!QuietLaws W}.

(** Nothing new on the daemon, and no warning. *)
Definition quieter (s s' : state) : Prop := (forall o, has (st_world s') o -> has (st_world s) o) /\ st_warned s' = st_warned s.
#[export] Instance quieter_refl : Reflexive quieter. Proof. by split. Qed.
#[export] Instance quieter_trans : Transitive quieter.
Proof. intros s1 s2 s3 [Ha Ha'] [Hb Hb']. split; [auto|by rewrite Hb']. Qed.
Abbreviation quiet := (keeps quieter).

Lemma quiet_call {A} (f : W -> (A + GoError) * W) : adds has f nothing -> quiet (call f).
Proof. intros Hf. apply keeps_call. intros s r w' E. split; [|done]. intros o Ho. by destruct (Hf _ _ _ E o Ho). Qed.

#[export] Instance quiet_harmless : Harmless quieter.
Proof using QuietLaws0. split; intros; apply quiet_call; [apply health_adds|apply pause_adds|apply environment_adds|apply Inspect_adds]. Qed.

Lemma quiet_moveTo ctx ws target : quiet (moveTo opts ctx ws target).
Proof using QuietLaws0.
  unfold moveTo. apply keeps_bind; [apply _|apply keeps_doing, quiet_call, Inspect_adds|]. intros i.
  apply keeps_bind; [apply _|apply keeps_doing, quiet_call, NetworkInspect_adds|]. intros c.
  apply keeps_bind; [apply _|apply keeps_if; [apply keeps_ret, _|apply keeps_doing, quiet_call, Connect_adds]|]. intros u.
  assert (Hstep : forall n, quiet (if String.eqb n EmptyString || String.eqb n target then ret tt
      else if bool_decide (is_Some (attached_of i !! n))
      then doing ("disconnect workspace " +:+ wk_ID ws +:+ " from " +:+ n) (call (NetworkDisconnect ctx n (wk_ContainerID ws)))
      else ret tt)).
  { intros n. apply keeps_if; [apply keeps_ret, _|]. apply keeps_if; [apply keeps_doing, quiet_call, Disconnect_adds|apply keeps_ret, _]. }
  apply keeps_bind; [apply _|apply Hstep|]. intros u1. apply keeps_bind; [apply _|apply Hstep|]. intros u2. apply keeps_ret, _.
Qed.

Lemma quiet_Start ctx ws : quiet (Start opts ctx ws).
Proof using QuietLaws0.
  apply keeps_bind; [apply _|apply keeps_if; [apply keeps_ret, _|apply quiet_moveTo]|]. intros u.
  apply keeps_bind; [apply _|apply keeps_doing, quiet_call, Start_adds|]. intros u1.
  apply keeps_bind; [apply _|apply (keeps_address quieter)|]. intros addr.
  apply keeps_bind; [apply _|apply keeps_doing, (keeps_waitReady quieter)|]. intros u2.
  apply keeps_bind; [apply _|apply (keeps_setEnvironment quieter)|]. intros u3. apply keeps_ret, _.
Qed.

Lemma quiet_git_command ctx ex args : quiet (git ctx ex args).
Proof using QuietLaws0.
  apply keeps_bind; [apply _|apply keeps_doing, quiet_call, git_adds|]. intros [[code out] err].
  apply keeps_if; [apply keeps_ret, _|apply keeps_fails, _].
Qed.

Lemma quiet_all_git ctx ex l : quiet (all_git ctx ex l).
Proof using QuietLaws0. induction l as [|a l IH]; [apply keeps_ret, _|]. apply keeps_bind; [apply _|apply quiet_git_command|done]. Qed.

Lemma quiet_CheckBranch ctx ex b : quiet (CheckBranch ctx ex b).
Proof using QuietLaws0.
  apply keeps_if; [apply keeps_ret, _|]. apply keeps_if; [apply keeps_fails, _|].
  apply keeps_bind; [apply _|apply keeps_attempt, quiet_git_command|]. intros [v|e]; [apply keeps_ret, _|apply keeps_fails, _].
Qed.

Lemma quiet_grants id p t : quiet (grants id p t).
Proof. intros s r s' E. unfold grants, granting in E. destruct (Grant _ _ _ _) as [[e|] g]; injection E as <- <-; by split. Qed.

Lemma Init_adds ctx project : adds has (Init hub_root ctx project) nothing.
Proof using QuietLaws0.
  intros w r w' E o Ho. unfold Init in E. destruct (Path hub_root project) as [path|e]; [|injection E as <- <-; by left].
  destruct (hub_exists _ w); [injection E as <- <-; by left|]. unfold git_in in E.
  destruct (hub_git ctx EmptyString _ _ w) as [r1 w1] eqn:E1.
  assert (H1' : forall o, has w1 o -> has w o) by (intros o1 Ho1; by destruct (hub_git_adds _ _ _ _ _ _ _ E1 o1 Ho1)).
  destruct r1 as [v|e]; [|injection E as <- <-; left; auto].
  destruct (hub_git ctx path _ _ w1) as [r2 w2] eqn:E2.
  assert (H2' : forall o, has w2 o -> has w1 o) by (intros o1 Ho1; by destruct (hub_git_adds _ _ _ _ _ _ _ E2 o1 Ho1)).
  left. apply H1', H2'. by destruct r2; injection E as <- <-.
Qed.

Lemma quiet_Clone ctx ws project branch : quiet (Clone opts hub_root ctx ws project branch).
Proof using QuietLaws0.
  apply keeps_bind; [apply _|apply quiet_call, Init_adds|]. intros u.
  apply keeps_bind; [apply _|apply keeps_lift, _|]. intros ex.
  apply keeps_bind; [apply _|apply quiet_CheckBranch|]. intros u1.
  apply keeps_bind; [apply _|apply quiet_grants|]. intros u2.
  apply keeps_bind; [apply _|apply quiet_all_git|]. intros u3.
  apply keeps_bind; [apply _|apply quiet_all_git|]. intros u4.
  apply keeps_bind; [apply _|apply keeps_if; [apply keeps_ret, _|]|].
  { apply keeps_bind; [apply _|apply keeps_attempt, quiet_git_command|]. intros [v|e]; [apply keeps_ret, _|].
    apply keeps_bind; [apply _|apply quiet_git_command|]. intros v. apply keeps_ret, _. }
  intros u5. apply keeps_bind; [apply _|apply keeps_attempt, quiet_git_command|]. intros h. apply keeps_ret, _.
Qed.
End creation.

(** ** Networks *)

Section networks.
Context `{!NetworkLaws W}.

(** A container is on one of the host's networks and on no other of them. *)
Definition on_only (w : W) (id target : string) : Prop :=
  on w id target /\ forall n, n ∈ [op_Network opts; op_InternalNetwork opts] -> n <> EmptyString -> n <> target -> ~ on w id n.

(** States in which every container is on the same networks. *)
Definition same_on (s s' : state) : Prop := forall i n, on (st_world s') i n <-> on (st_world s) i n.
#[local] Instance same_on_refl : Reflexive same_on. Proof. by intros s i n. Qed.
#[local] Instance same_on_trans : Transitive same_on. Proof. intros s1 s2 s3 Ha Hb i n. by rewrite (Hb i n), (Ha i n). Qed.
Abbreviation stays := (keeps same_on).

Lemma stays_call {A} (f : W -> (A + GoError) * W) :
  (forall w r w', f w = (r, w') -> forall i n, on w' i n <-> on w i n) -> stays (call f).
Proof. intros Hf. apply keeps_call. intros s r w' E. exact (Hf _ _ _ E). Qed.

#[local] Instance stays_harmless : Harmless same_on.
Proof.
  split; intros; apply stays_call; [apply health_on|apply pause_on|apply environment_on|apply ContainerInspect_on].
Qed.

(** While other networks are left: on the target, otherwise at most on what
    the container was on, and on none of those already left. *)
Definition moving (target id : string) (attached : gmap string (option (string * string))) (left_ : list string) (s : state) : Prop :=
  on (st_world s) id target /\ (forall m, on (st_world s) id m -> m = target \/ is_Some (attached !! m)) /\
  forall m, m ∈ left_ -> m <> EmptyString -> m <> target -> ~ on (st_world s) id m.

Lemma leaves_network ctx ws target attached left_ other :
  triple (moving target (wk_ContainerID ws) attached left_)
    (if String.eqb other EmptyString || String.eqb other target then ret tt
     else if bool_decide (is_Some (attached !! other))
     then doing ("disconnect workspace " +:+ wk_ID ws +:+ " from " +:+ other) (call (NetworkDisconnect ctx other (wk_ContainerID ws)))
     else ret tt)
    (fun r s => match r with inl _ => moving target (wk_ContainerID ws) attached (other :: left_) s | inr _ => True end).
Proof.
  apply triple_if; intros Ho.
  { apply triple_ret. intros s (H1' & H2 & H3). split; [done|]. split; [done|]. intros m Hm Hne Ht. apply elem_of_cons in Hm as [->|Hm]; [|by apply H3].
    exfalso. apply orb_true_iff in Ho as [Ho|Ho]; by apply String.eqb_eq in Ho. }
  apply orb_false_iff in Ho as [_ Ht]. apply String.eqb_neq in Ht. apply triple_if; intros Ha.
  - apply triple_doing, triple_call. intros s [u|e] w' (H1' & H2 & H3) E; [|done]. pose proof (Disconnect_on _ _ _ _ _ _ E) as Hd.
    split; [|split]; cbn.
    + apply Hd. auto.
    + intros m Hm. apply Hd in Hm as [_ Hm]. by apply H2.
    + intros m Hm Hne Hmt Hon. apply Hd in Hon as [Hmo Hon]. apply elem_of_cons in Hm as [->|Hm]; [done|]. by eapply H3.
  - apply bool_decide_eq_false in Ha. apply triple_ret. intros s (H1' & H2 & H3). split; [done|]. split; [done|].
    intros m Hm Hne Hmt Hon. apply elem_of_cons in Hm as [->|Hm]; [by destruct (H2 _ Hon)|by eapply H3].
Qed.

Lemma moveTo_only ctx ws target :
  triple (fun _ => True) (moveTo opts ctx ws target)
    (fun r s => match r with inl _ => on_only (st_world s) (wk_ContainerID ws) target | inr _ => True end).
Proof.
  unfold moveTo. set (id := wk_ContainerID ws).
  eapply triple_bind with (R := fun r s => match r with
    | inl i => forall n, on (st_world s) id n <-> is_Some (attached_of i !! n) | inr _ => True end); [| |done].
  { apply triple_doing, triple_call. intros s [i|e] w' _ E; [|done]. cbn. by eapply Inspect_on. }
  intros i. eapply triple_bind with (R := fun _ s => forall n, on (st_world s) id n <-> is_Some (attached_of i !! n)); [| |done].
  { apply triple_doing, triple_call. intros s [c|e] w' Hs E n; cbn; rewrite (NetworkInspect_on _ _ _ _ _ E); apply Hs. }
  intros current. eapply triple_bind with (R := fun r s => match r with inl _ => moving target id (attached_of i) [] s | inr _ => True end); [| |done].
  { apply triple_if; intros Hc.
    - apply triple_ret. intros s Hs. split; [|split; [|by intros m Hm%not_elem_of_nil]].
      + apply Hs. destruct (attached_of i !! target); [done|discriminate].
      + intros m Hm. right. by apply Hs.
    - apply triple_doing, triple_call. intros s [u|e] w' Hs E; [|done]. pose proof (Connect_on _ _ _ _ _ _ _ E) as Hd.
      split; [|split; [|by intros m Hm%not_elem_of_nil]]; cbn.
      + apply Hd. by left.
      + intros m Hm. apply Hd in Hm as [->|Hm]; [by left|]. right. by apply Hs. }
  intros u. cbn beta iota. eapply triple_bind; [apply leaves_network| |done]. intros u1.
  eapply triple_bind; [apply leaves_network| |done]. intros u2. apply triple_ret. intros s (Hon & _ & Hleft). split; [done|].
  intros n Hn. apply Hleft. set_solver.
Qed.

Lemma on_only_stays {A} (m : M A) id target s r s' : stays m -> m s = (r, s') -> on_only (st_world s) id target -> on_only (st_world s') id target.
Proof. intros Hm E [H1' H2]. split; [by apply (Hm _ _ _ E)|]. intros n Hn Hne Hnt Hon. apply (Hm _ _ _ E) in Hon. by eapply H2. Qed.

(** The operations that put a container where its confinement wants it. *)
Inductive confining (ctx : Ctx) (ws : Workspace) : bool -> M Workspace -> Prop :=
| by_start : confining ctx ws (wk_Proxied ws) (Start opts ctx ws)
| by_confine c : confining ctx ws (cf_Proxied c) (Confine opts ctx ws c).

Definition moved (id : string) (proxied : bool) (s : state) : Prop := on_only (st_world s) id (networkFor opts proxied).

Lemma stays_moved {A} id proxied (m : M A) : stays m -> triple (moved id proxied) m (fun _ => moved id proxied).
Proof. intros Hm s r s' E Hs. by eapply on_only_stays. Qed.

Lemma Start_moved ctx ws :
  op_Network opts <> EmptyString ->
  triple (fun _ => True) (Start opts ctx ws)
    (fun r s => match r with inl ws' => wk_Proxied ws' = wk_Proxied ws /\ moved (wk_ContainerID ws) (wk_Proxied ws) s | inr _ => True end).
Proof.
  intros Hnet. unfold Start. set (here := moved (wk_ContainerID ws) (wk_Proxied ws)).
  rewrite (proj2 (String.eqb_neq _ _) Hnet).
  eapply triple_bind; [apply moveTo_only| |done]. intros u.
  eapply triple_bind with (R := fun _ => here); [apply stays_moved, keeps_doing, stays_call, Start_on| |done]. intros u1.
  eapply triple_bind with (R := fun _ => here); [apply stays_moved, (keeps_address same_on)| |done]. intros addr. cbv zeta.
  eapply triple_bind with (R := fun _ => here); [apply stays_moved, keeps_doing, (keeps_waitReady same_on)| |done]. intros u2.
  eapply triple_bind with (R := fun _ => here); [apply stays_moved, (keeps_setEnvironment same_on)| |done]. intros u3.
  apply triple_ret. by intros s Hs.
Qed.

Lemma Confine_moved ctx ws c :
  op_Network opts <> EmptyString ->
  triple (fun _ => True) (Confine opts ctx ws c)
    (fun r s => match r with inl ws' => wk_Proxied ws' = cf_Proxied c /\ moved (wk_ContainerID ws) (cf_Proxied c) s | inr _ => True end).
Proof.
  intros Hnet. unfold Confine. set (here := moved (wk_ContainerID ws) (cf_Proxied c)). apply triple_if; intros _; [by apply triple_fails|].
  rewrite (proj2 (String.eqb_neq _ _) Hnet).
  eapply triple_bind with (R := fun _ _ => True); [apply triple_any| |done]. intros r.
  eapply triple_bind with (R := fun _ _ => True); [apply triple_any| |done]. intros u.
  eapply triple_bind; [apply moveTo_only| |done]. intros u1. cbv zeta.
  eapply triple_bind with (R := fun _ => here); [apply triple_if; intros _; [apply stays_moved, (keeps_setEnvironment same_on)|by apply triple_ret]| |done].
  intros u2. apply triple_ret. by intros s Hs.
Qed.

End networks.

(** ** Finding a workspace again *)

Section recovery.
Context `{!ConfigLaws W}.

(** A workspace without what changes while it exists. *)
Definition static (w : Workspace) : Workspace :=
  mkWorkspace (wk_ID w) (wk_ContainerID w) (wk_Image w) EmptyString (wk_Token w) (wk_HubToken w) (wk_Project w) (wk_Volume w)
    (wk_HostPath w) EmptyString (wk_Dir w) (wk_Proxied w) None.

Definition config_of (spec : Spec) (ws : Workspace) : ContainerConfig := container_config opts spec ws (mounts_of ws).
Definition created_as (spec : Spec) (ws : Workspace) (s : state) : Prop :=
  made (st_world s) (ContainerName (wk_ID ws)) (wk_ContainerID ws) (config_of spec ws).

Lemma created_by ctx cfg name :
  triple (fun _ => True) (createContainer ctx cfg name) (fun r s => match r with inl id => made (st_world s) name id cfg | inr _ => True end).
Proof.
  assert (Hc : triple (fun _ => True) (call (ContainerCreate ctx cfg name))
    (fun r s => match r with inl id => made (st_world s) name id cfg | inr _ => True end)).
  { apply triple_call. intros s [id|e] w' _ E; [|done]. by eapply Create_made. }
  unfold createContainer. eapply triple_bind with (R := fun r s => match r with
    | inl (inl id) => made (st_world s) name id cfg | _ => True end); [by apply triple_attempt| |done].
  intros [id|e]; [by apply triple_ret|]. apply triple_if; intros _; [by apply triple_fails|].
  eapply triple_bind with (R := fun _ _ => True); [apply triple_any| |done]. intros u.
  eapply triple_conseq; [exact Hc|done|done].
Qed.

Lemma or_discard_ok {A} ctx ws built (m : M A) P (Q : A -> state -> Prop) :
  triple P m (fun r s => match r with inl a => Q a s | inr _ => True end) ->
  triple P (or_discard ctx ws built m) (fun r s => match r with inl a => Q a s | inr _ => True end).
Proof.
  intros Hm. unfold or_discard. eapply triple_bind with (R := fun r s => match r with inl (inl a) => Q a s | _ => True end);
    [apply triple_attempt|intros [a|e]; [by apply triple_ret|]|done].
  - eapply triple_conseq; [exact Hm|done|]. by intros [a|e] s.
  - eapply triple_bind with (R := fun _ _ => True); [apply triple_any| |done]. intros u. by apply triple_fails.
Qed.

Lemma Create_as ctx rid rtoken rhub spec :
  triple (fun _ => True) (Create opts ctx rid rtoken rhub spec)
    (fun r s => match r with inl ws => created_as spec ws s /\ (cf_Proxied (sp_Confinement spec) = true -> EgressControl opts = true) /\
       exists id token hub at_ cid, ws = with_container cid (planned opts spec id token hub at_) | inr _ => True end).
Proof.
  unfold Create. set (Done := fun r s => match r with inl ws => _ | inr _ => True end).
  apply triple_if; intros Hp; [by apply triple_fails|].
  assert (Hproxied : cf_Proxied (sp_Confinement spec) = true -> EgressControl opts = true).
  { intros Hx. rewrite Hx in Hp. by apply negb_false_iff in Hp. }
  eapply triple_bind with (R := fun _ _ => True); [apply triple_any| |done]. intros at_.
  eapply triple_bind with (R := fun _ _ => True); [apply triple_any| |done]. intros id.
  eapply triple_bind with (R := fun _ _ => True); [apply triple_any| |done]. intros token.
  eapply triple_bind with (R := fun _ _ => True); [apply triple_any| |done]. intros hub. cbv zeta.
  set (ws := planned opts spec id token hub at_).
  eapply triple_bind with (R := fun _ _ => True); [apply triple_any| |done]. intros u.
  eapply triple_bind with (R := fun _ _ => True); [apply triple_any| |done]. intros u1.
  eapply triple_bind with (R := fun r s => match r with
    | inl cid => made (st_world s) (ContainerName (wk_ID ws)) cid (config_of spec ws) | inr _ => True end); [| |done].
  { apply or_discard_ok, triple_doing. eapply triple_conseq; [apply created_by|done|]. by intros [cid|e] s. }
  intros cid. set (ws' := with_container cid ws).
  eapply triple_bind with (R := fun r s => match r with inl _ => created_as spec ws' s | inr _ => True end); [| |done].
  { apply or_discard_ok. unfold injectDaemon.
    eapply triple_bind with (R := fun _ s => created_as spec ws' s); [by apply triple_world| |done]. intros b.
    eapply triple_bind with (R := fun _ s => created_as spec ws' s); [by apply triple_doing, triple_lift| |done]. intros d.
    apply triple_doing, triple_call. intros s [v|e] w' Hs E; [|done]. by eapply Copy_made. }
  intros v. eapply triple_bind with (R := fun r s => match r with inl _ => created_as spec ws' s | inr _ => True end); [| |done].
  { apply triple_if; intros _; [by apply triple_ret|]. apply or_discard_ok. intros s r s' E Hs. unfold grants, granting in E.
    destruct (Grant _ _ _ (st_grants s)) as [[e|] g]; by injection E as <- <-. }
  intros v'. apply triple_ret. intros s Hs. split; [exact Hs|]. split; [done|]. by exists id, token, hub, at_, cid.
Qed.

Definition inspected (id : string) (i : ContainerInfo) : Workspace :=
  mkWorkspace id (ci_ID i) (ci_Image i) EmptyString (envValue (ci_Env i) TokenEnv) (envValue (ci_Env i) hubTokenEnv)
    (default EmptyString (ci_Labels i !! ProjectLabel)) (snd (mounted (ci_Mounts i))) (fst (mounted (ci_Mounts i))) EmptyString EmptyString
    (EgressControl opts && match ci_Networks i with Some l => bool_decide (is_Some (l !! op_InternalNetwork opts)) | None => false end) None.

Lemma Inspect_shows ctx id cid cfg :
  triple (fun s => made (st_world s) (ContainerName id) cid cfg) (Inspect opts ctx id)
    (fun r _ => match r with inl ws => exists i, shows i cid cfg /\ static ws = inspected id i | inr _ => True end).
Proof.
  unfold Inspect. eapply triple_bind with (R := fun r _ => match r with inl (inl i) => shows i cid cfg | _ => True end); [| |done].
  { apply triple_attempt, triple_call. intros s [i|e] w' Hs E; [|done]. by eapply Inspect_made. }
  intros [i|e]; [|apply triple_if; intros _; by apply triple_fails].
  destruct (mounted (ci_Mounts i)) as [host vol] eqn:Em. cbv zeta.
  eapply triple_bind with (R := fun r _ => shows i cid cfg); [by intros s r s' _ Hs| |done]. intros addr.
  eapply triple_bind with (R := fun r _ => shows i cid cfg); [by intros s r s' _ Hs| |done]. intros u.
  apply triple_ret. intros s Hs. exists i. split; [done|]. unfold inspected. rewrite Em.
  destruct (match ci_Running i with Some b => b | None => false end); [|done]. by destruct addr.
Qed.

Lemma mounted_at_root ms : mounted ms = mounted (at_root ms).
Proof.
  unfold mounted, at_root. generalize (EmptyString, EmptyString). induction ms as [|m ms IH]; intros acc; [done|].
  rewrite filter_cons. cbn [foldl]. destruct acc as [host vol]. destruct (decide (mo_Target m = Root)) as [Hm|Hm].
  - cbn [foldl]. apply IH.
  - rewrite (proj2 (String.eqb_neq _ _) Hm). apply IH.
Qed.

Lemma mounted_mounts_of ws : wk_HostPath ws = EmptyString \/ wk_Volume ws = EmptyString ->
  mounted (mounts_of ws) = (wk_HostPath ws, wk_Volume ws).
Proof.
  intros Hw. unfold mounts_of. destruct (String.eqb_spec (wk_HostPath ws) EmptyString) as [E|E]; [by rewrite E|].
  destruct Hw as [|Hw]; [done|by rewrite Hw].
Qed.

Lemma envValue_here name v l : envValue ((name +:+ "=" +:+ v) :: l) name = v.
Proof. rewrite str_app_assoc. unfold envValue, has_prefix. rewrite prefix_app. apply trim_prefix_app. Qed.

Lemma shown_tokens spec ws i :
  cc_Env (config_of spec ws) `prefix_of` ci_Env i -> envValue (ci_Env i) TokenEnv = wk_Token ws /\ envValue (ci_Env i) hubTokenEnv = wk_HubToken ws.
Proof.
  intros [extra ->]. unfold config_of, container_config. cbn [cc_Env app]. split; [apply envValue_here|].
  cbn [envValue]. apply envValue_here.
Qed.

Lemma shown_label spec ws i :
  cc_Labels (config_of spec ws) ⊆ ci_Labels i -> sp_Labels spec !! ProjectLabel = None -> wk_Project ws <> EmptyString ->
  ci_Labels i !! ProjectLabel = Some (wk_Project ws).
Proof.
  intros Hl Hs Hp. apply (lookup_weaken (cc_Labels (config_of spec ws))); [|done]. unfold config_of, container_config, container_labels. cbn [cc_Labels].
  rewrite (proj2 (String.eqb_neq _ _) Hp). rewrite lookup_union_r by done. apply lookup_union_Some_l, lookup_singleton_eq.
Qed.

Lemma shown_proxied spec ws i id :
  shows i id (config_of spec ws) -> op_Network opts <> op_InternalNetwork opts -> (wk_Proxied ws = true -> EgressControl opts = true) ->
  EgressControl opts && match ci_Networks i with Some l => bool_decide (is_Some (l !! op_InternalNetwork opts)) | None => false end = wk_Proxied ws.
Proof.
  intros [_ _ _ _ _ (l & -> & Hl)] Hne Hc. destruct (EgressControl opts) eqn:He; [|destruct (wk_Proxied ws); [by discriminate Hc|done]].
  cbn [andb]. unfold EgressControl in He. apply andb_true_iff in He as [Hn%negb_true_iff _].
  unfold config_of, container_config in Hl. cbn [cc_Networks] in Hl. rewrite Hn in Hl.
  specialize (Hl ltac:(apply map_non_empty_singleton)). rewrite dom_singleton_L in Hl.
  assert (Hin : is_Some (l !! op_InternalNetwork opts) <-> op_InternalNetwork opts = networkFor opts (wk_Proxied ws)).
  { rewrite <- elem_of_dom, Hl. apply elem_of_singleton. }
  destruct (wk_Proxied ws); [by apply bool_decide_eq_true, Hin|]. apply bool_decide_eq_false. intros Hs%Hin. by symmetry in Hs.
Qed.

(** A harness that restarts finds each workspace it created for a project
    as it was: from the container alone come back its tokens, its project, its
    image, where its files are, and whether it is proxied. *)
Theorem Inspect_recovers ctx rid rtoken rhub spec s ws s1 ctx' s' ws' s2 :
  op_Network opts <> op_InternalNetwork opts -> sp_Project spec <> EmptyString -> sp_Labels spec !! ProjectLabel = None ->
  Create opts ctx rid rtoken rhub spec s = (inl ws, s1) ->
  (forall n id cfg, made (st_world s1) n id cfg -> made (st_world s') n id cfg) ->
  Inspect opts ctx' (wk_ID ws) s' = (inl ws', s2) ->
  static ws' = static ws.
Proof.
  intros Hne Hproj Hlab E Hkeep E'.
  destruct (Create_as _ _ _ _ _ _ _ _ E I) as (Hmade & Hprox & id & token & hub & at_ & cid & Hws).
  destruct (Inspect_shows ctx' (wk_ID ws) _ _ _ _ _ E' (Hkeep _ _ _ Hmade)) as (i & Hi & ->).
  assert (Hp : wk_Project ws = sp_Project spec /\ wk_Proxied ws = cf_Proxied (sp_Confinement spec) /\ wk_Dir ws = EmptyString /\
    (wk_HostPath ws = EmptyString \/ wk_Volume ws = EmptyString)).
  { rewrite Hws. split; [done|]. split; [done|]. split; [done|]. cbn. destruct (String.eqb_spec (sp_HostPath spec) EmptyString); auto. }
  destruct Hp as (Hpr & Hpx & Hdir & Hfiles). unfold inspected, static. f_equal.
  - apply Hi.
  - apply Hi.
  - by apply (shown_tokens spec ws), Hi.
  - by apply (shown_tokens spec ws), Hi.
  - rewrite (shown_label spec ws i); [done|apply Hi|done|by rewrite Hpr].
  - rewrite mounted_at_root, (sh_Mounts _ _ _ Hi), <- mounted_at_root. unfold config_of. cbn [cc_Mounts container_config]. by rewrite mounted_mounts_of.
  - rewrite mounted_at_root, (sh_Mounts _ _ _ Hi), <- mounted_at_root. unfold config_of. cbn [cc_Mounts container_config]. by rewrite mounted_mounts_of.
  - by rewrite Hdir.
  - eapply shown_proxied; [exact Hi|done|]. by rewrite Hpx.
Qed.
End recovery.

(** ** Waiting *)

(** Pausing takes the interval. *)
Class ClockLaws : Prop := {
  health_time c a w r w' : eikad_health c a w = (r, w') -> now w <= now w';
  pause_time c w u w' : pause c w = (inl u, w') -> now w + readyInterval <= now w';
}.

Lemma polls_end `{!ClockLaws} fuel ctx addr deadline s r s' :
  deadline < now (st_world s) + readyInterval * (Z.of_nat fuel - 1) -> (0 < fuel)%nat ->
  polls fuel ctx addr deadline s = (r, s') -> r <> inl None.
Proof.
  revert s. induction fuel as [|fuel IH]; intros s Hd Hf E; [lia|]. cbn [polls] in E. unfold mbind, M_bind, EM_bind, attempt, call at 1 in E.
  destruct (eikad_health ctx addr (st_world s)) as [st w1] eqn:Eh. pose proof (health_time _ _ _ _ _ Eh) as H1'. cbn [fst snd] in E.
  destruct (match st with inl code => code =? 200 | inr _ => false end); [by injection E as <- <-|].
  unfold clock, at_world, look in E. cbn [st_world] in E. destruct (deadline <? now w1) eqn:Hlate; [by injection E as <- <-|].
  unfold call in E. cbn [st_world] in E. destruct (pause ctx w1) as [[u|e] w2] eqn:Ep; [|by injection E as <- <-].
  pose proof (pause_time _ _ _ _ Ep) as H2'. apply Z.ltb_ge in Hlate. destruct fuel as [|fuel]; [unfold readyInterval in *; cbn in Hd; lia|].
  eapply IH; [|lia|exact E]. cbn [st_world]. unfold readyInterval in *. lia.
Qed.

(** Waiting for a sandbox's daemon ends: the polls allowed for are enough
    for the whole timeout, whatever the daemon answers and whenever. *)
Theorem waitReady_ends `{!ClockLaws} ctx addr s r s' :
  polls enough_polls ctx addr (now (st_world s) + readyTimeout) s = (r, s') -> r <> inl None.
Proof. apply polls_end; [|unfold enough_polls; lia]. unfold enough_polls, readyTimeout, readyInterval. lia. Qed.
End host.

(** ** The hub *)

Lemma no_slash_git name : projectName name = true -> no_slash (name +:+ ".git") /\ normal (name +:+ ".git").
Proof.
  intros Hn. assert (Hs : no_slash (name +:+ ".git")).
  { unfold no_slash. rewrite bytes_of_app. apply Forall_app. split; [|repeat constructor; done].
    unfold projectName in Hn. destruct (bytes_of name) as [|b l]; [done|]. rewrite !andb_true_iff in Hn. destruct Hn as [[Hb Hl] _].
    constructor; [intros ->; done|]. apply Forall_forall. intros x Hx. rewrite forallb_forall in Hl. apply list_elem_of_In, Hl in Hx. by intros ->. }
  split; [done|]. destruct name as [|c name]; [done|]. split; [split; [done|split; [|done]]|].
  - by destruct name.
  - unfold dotdot. destruct name as [|c' [|? ?]]; done.
Qed.

(** What follows a project's name in a request: nothing, or a path below. *)
Definition below (rest : string) : Prop := rest = EmptyString \/ exists r, rest = slash_s +:+ r.

Lemma cut_slash_below e rest : no_slash e -> below rest -> cut_slash (e +:+ rest) = e.
Proof.
  intros He [->|[r ->]]; unfold cut_slash; [by rewrite str_app_empty_r, split_elem|]. by rewrite split_slash_app, split_elem.
Qed.

Lemma cut_slash_rest x : exists rest, x = cut_slash x +:+ rest /\ below rest.
Proof.
  pose proof (join_split slash x) as Hj. pose proof (split_ne slash x) as Hne. unfold cut_slash.
  destruct (split x slash) as [|h [|h' t]]; [done| |]; cbn [List.hd].
  - exists EmptyString. rewrite str_app_empty_r. split; [by rewrite <- Hj|by left].
  - rewrite join_cons in Hj by done. eexists. split; [by rewrite <- Hj|]. right. by eexists.
Qed.

Lemma projectOf_iff path project :
  projectOf path = Some project <->
  projectName project = true /\ exists rest, path = (Prefix +:+ slash_s) +:+ (project +:+ ".git") +:+ rest /\ below rest.
Proof.
  unfold projectOf. split.
  - destruct (has_prefix path (Prefix +:+ slash_s)) eqn:Hp; [|done]. apply has_prefix_iff in Hp as [x ->]. rewrite trim_prefix_app.
    destruct (has_suffix (cut_slash x) ".git") eqn:Hs; [|done]. apply has_suffix_iff in Hs as [n Hn]. rewrite Hn, trim_suffix_app.
    destruct (projectName n) eqn:Hpn; [|done]. intros [= <-]. split; [done|].
    destruct (cut_slash_rest x) as (rest & Hx & Hb). exists rest. split; [|done]. by rewrite <- Hn, <- Hx.
  - intros (Hn & rest & -> & Hb). unfold has_prefix. rewrite prefix_app, trim_prefix_app.
    rewrite cut_slash_below by (try done; by apply no_slash_git). by rewrite has_suffix_app, trim_suffix_app, Hn.
Qed.

(** C34: The hub starts git for a request exactly when the last thing the
    harness said of the request's workspace was a grant, the request has that
    grant's token and asks for that grant's project, and the project has a
    repository; git is then started on that repository, a directory of the
    hub's own. *)
Theorem hub_serves_granted_only {W} `{Repositories W} d ops backend auth path w repo user :
  Forall normal d ->
  (Handler (show d) backend auth path (grants_after ops) w = Backend repo user <->
   backend = true /\ exists token project rest,
     auth = Some (user, token) /\ last_word user (rev ops) = Some (mkGrant project token) /\
     path = (Prefix +:+ slash_s) +:+ (project +:+ ".git") +:+ rest /\ below rest /\
     projectName project = true /\ repo = show (d ++ [project +:+ ".git"]) /\ hub_exists repo w = true).
Proof.
  intros Hd. unfold Handler, authenticated, permitted.
  assert (Hpath : forall p, projectName p = true -> Path (show d) p = inl (show (d ++ [p +:+ ".git"]))).
  { intros p Hp. unfold Path. rewrite Hp. f_equal. apply (Join_show d [p +:+ ".git"]); [done|].
    repeat constructor; by apply no_slash_git. }
  split.
  - destruct backend; [|done]. cbn [negb]. destruct auth as [[u token]|]; [|done]. rewrite grants_after_last.
    destruct (last_word u (rev ops)) as [[p t]|] eqn:Hg; [|done]. cbn [gr_token gr_project]. destruct (String.eqb_spec t token) as [->|]; [|done].
    cbn [negb]. destruct (projectOf path) as [p'|] eqn:Hpo; [|done]. destruct (String.eqb_spec p p') as [->|]; [|done]. cbn [negb].
    apply projectOf_iff in Hpo as (Hn & rest & -> & Hb). rewrite (Hpath _ Hn). destruct (hub_exists _ w) eqn:Hx; [|done].
    intros [= <- <-]. split; [done|]. by exists token, p', rest.
  - intros (-> & token & project & rest & -> & Hg & -> & Hb & Hn & -> & Hx). cbn [negb]. rewrite grants_after_last, Hg. cbn [gr_token gr_project].
    rewrite String.eqb_refl. cbn [negb]. rewrite (proj2 (projectOf_iff _ project)) by eauto. rewrite String.eqb_refl. cbn [negb].
    by rewrite (Hpath _ Hn), Hx.
Qed.
