(* ===== verification/HostSim.v ===== *)
(** A Docker daemon in memory, on which the laws of [HostClaims] hold and its
    theorems are tried; a request's context ends after some number of calls. *)
From Stdlib Require Import Floats.SpecFloat.
From S2P Require Import Prelude GoStr Float64 Failure GoPath Files FilesClaims ToolChoice Config Sandbox Hub Host HostClaims.
From stdpp Require Import options.
Open Scope Z_scope.

(** A container; it is known by its name. *)
Record SimC := mkSimC { sn_cfg : ContainerConfig; sn_running : bool; sn_nets : gset string }.
Record Sim := mkSim {
  sm_containers : gmap string SimC; sm_volumes : gset string; sm_images : gset string; sm_clock : Z;
  sm_left : nat; (** calls left before the request's context ends *)
  sm_full : bool; (** whether nothing can be copied into a container *)
}.

Definition sim_not_found : GoError := ErrSentinel "No such object".
Definition sim_ended : GoError := ErrContext "context canceled".

Definition set_containers cs w := mkSim cs (sm_volumes w) (sm_images w) (sm_clock w) (sm_left w) (sm_full w).
Definition set_volumes vs w := mkSim (sm_containers w) vs (sm_images w) (sm_clock w) (sm_left w) (sm_full w).
Definition set_images is_ w := mkSim (sm_containers w) (sm_volumes w) is_ (sm_clock w) (sm_left w) (sm_full w).
Definition set_clock t w := mkSim (sm_containers w) (sm_volumes w) (sm_images w) t (sm_left w) (sm_full w).
Definition set_left n w := mkSim (sm_containers w) (sm_volumes w) (sm_images w) (sm_clock w) n (sm_full w).

Definition guarded {A} (c : Ctx) (f : Sim -> (A + GoError) * Sim) (w : Sim) : (A + GoError) * Sim :=
  match c, sm_left w with
  | Request, O => (inr sim_ended, w)
  | Request, S n => f (set_left n w)
  | Detached, _ => f w
  end.

Definition alter_container (id : string) (f : SimC -> SimC) (w : Sim) : (unit + GoError) * Sim :=
  match sm_containers w !! id with
  | Some c => (inl tt, set_containers (<[id := f c]> (sm_containers w)) w)
  | None => (inr sim_not_found, w)
  end.

Definition info_of (id : string) (c : SimC) : ContainerInfo :=
  mkContainerInfo id (cc_Image (sn_cfg c)) (cc_Env (sn_cfg c) ++ ["PATH=/bin"]%string) (cc_Labels (sn_cfg c)) "2026-01-01T00:00:00Z"
    (Some (sn_running c)) (cc_Mounts (sn_cfg c)) (Some (gset_to_gmap (Some ("current"%string, EmptyString)) (sn_nets c))) ["32768"%string].

Definition nets_of (cfg : ContainerConfig) : gset string :=
  if decide (cc_Networks cfg = ∅) then {["bridge"%string]} else dom (cc_Networks cfg).

#[export] Instance Sim_engine : Engine Sim := {
  IsNotFound e := match e with ErrSentinel s => String.eqb s "No such object" | _ => false end;
  EngineInfo c := guarded c (fun w => (inl (8, 2 ^ 34), w));
  VolumeCreate c n _ := guarded c (fun w => (inl tt, set_volumes ({[n]} ∪ sm_volumes w) w));
  VolumeRemove c n := guarded c (fun w =>
    if decide (n ∈ sm_volumes w) then (inl tt, set_volumes (sm_volumes w ∖ {[n]}) w) else (inr sim_not_found, w));
  ContainerCreate c cfg n := guarded c (fun w =>
    if decide (cc_Image cfg ∉ sm_images w) then (inr sim_not_found, w)
    else if String.eqb n EmptyString then (inr (ErrText "no name"), w)
    else match sm_containers w !! n with
    | Some _ => (inr (ErrText "name taken"), w)
    | None => (inl n, set_containers (<[n := mkSimC cfg false (nets_of cfg)]> (sm_containers w)) w)
    end);
  ContainerRemove c id := guarded c (fun w =>
    match sm_containers w !! id with
    | Some _ => (inl tt, set_containers (delete id (sm_containers w)) w)
    | None => (inr sim_not_found, w)
    end);
  ContainerStart c id := guarded c (alter_container id (fun c => mkSimC (sn_cfg c) true (sn_nets c)));
  ContainerStop c id _ := guarded c (alter_container id (fun c => mkSimC (sn_cfg c) false (sn_nets c)));
  ContainerUpdate c id _ := guarded c (alter_container id (fun c => c));
  ContainerInspect c id := guarded c (fun w =>
    match sm_containers w !! id with Some c => (inl (info_of id c), w) | None => (inr sim_not_found, w) end);
  ContainerList c := guarded c (fun w => (inl (map (fun p => (p.1, default EmptyString (cc_Labels (sn_cfg p.2) !! Label))) (map_to_list (sm_containers w))), w));
  CopyToContainer c id _ _ := guarded c (fun w => if sm_full w then (inr (ErrText "no space left"), w) else (inl tt, w));
  NetworkInspect c _ := guarded c (fun w => (inl "current"%string, w));
  NetworkConnect c n id _ := guarded c (alter_container id (fun c => mkSimC (sn_cfg c) (sn_running c) ({[n]} ∪ sn_nets c)));
  NetworkDisconnect c n id := guarded c (alter_container id (fun c => mkSimC (sn_cfg c) (sn_running c) (sn_nets c ∖ {[n]})));
  ImageInspect c ref := guarded c (fun w => if decide (ref ∈ sm_images w) then (inl tt, w) else (inr sim_not_found, w));
  ImagePull c ref := guarded c (fun w => (inl [Message EmptyString], set_images ({[ref]} ∪ sm_images w) w));
  ImageBuild c _ _ ref := guarded c (fun w => (inl [Message EmptyString], set_images ({[ref]} ∪ sm_images w) w));
  ImageRemove c ref := guarded c (fun w =>
    if decide (ref ∈ sm_images w) then (inl tt, set_images (sm_images w ∖ {[ref]}) w) else (inr sim_not_found, w));
  eikad_health c _ := guarded c (fun w => (inl 200, w));
  eikad_environment c _ _ _ := guarded c (fun w => (inl tt, w));
  eikad_git c _ _ _ _ := guarded c (fun w => (inl (0, "abc", EmptyString)%string, w));
  eikad_write c _ _ _ _ := guarded c (fun w => (inl tt, w));
  eikad_stat c _ _ _ := guarded c (fun w => (inl tt, w));
  eikad_binary _ := inl "binary"%string;
  tarDir _ _ := inl "archive"%string;
  now := sm_clock;
  pause c := guarded c (fun w => (inl tt, set_clock (sm_clock w + readyInterval) w));
}.

#[export] Instance Sim_repositories : Repositories Sim := {
  hub_exists _ _ := true;
  hub_git c _ _ _ := guarded c (fun w => (inl EmptyString, w));
}.

#[export] Instance Sim_library : Library := {
  url_parses _ := true;
  url_hostname _ := Some "eika"%string;
  url_with_user u id token := Some ("http://" +:+ id +:+ ":" +:+ token +:+ "@" +:+ trim_prefix u "http://");
  parse_time _ := Some 0;
  tarFile n d _ := n +:+ d;
}.

(** ** The laws *)

Definition sim_has (w : Sim) (o : Object) : Prop :=
  match o with
  | Container id => is_Some (sm_containers w !! id)
  | Volume n => n ∈ sm_volumes w
  | Image r => r ∈ sm_images w
  end.

(** A guarded call: cut off, with nothing done, or done in the same world. *)
Lemma guarded_inv {A} c (f : Sim -> (A + GoError) * Sim) w r w' :
  guarded c f w = (r, w') -> (r = inr sim_ended /\ w' = w) \/ exists n, f (set_left n w) = (r, w').
Proof.
  unfold guarded. destruct c; [destruct (sm_left w) as [|n]|].
  - intros [= <- <-]. by left.
  - intros E. right. by exists n.
  - intros E. right. exists (sm_left w). by destruct w.
Qed.

Tactic Notation "sim_call" ident(E) := apply guarded_inv in E as [[-> ->]|[? E]]; [|cbn in E].
Tactic Notation "sim_done" ident(E) := apply guarded_inv in E as [[? _]|[? E]]; [|cbn in E].

Lemma alter_has id f w r w' o : alter_container id f w = (r, w') -> sim_has w' o <-> sim_has w o.
Proof.
  unfold alter_container. destruct (sm_containers w !! id) as [c|] eqn:Hc; intros [= <- <-]; [|done].
  destruct o as [i| |]; cbn; [|done|done]. destruct (decide (id = i)) as [->|Hne]; [|by rewrite lookup_insert_ne].
  rewrite lookup_insert_eq, Hc. by split.
Qed.

#[export] Instance Sim_laws : EngineLaws Sim.
Proof.
  apply (Build_EngineLaws Sim _ sim_has).
  - intros [| | | | | |s]; try done.
  - intros c n l w r w' E o Ho. cbn in E. sim_call E; [by left|]. simplify_eq. destruct o; cbn in *; [by left| |by left]. set_solver.
  - intros c n w r w' E o Ho. cbn in E. sim_call E; [by left|]. left. case_decide; simplify_eq; destruct o; cbn in *; set_solver.
  - intros c n w r w' E Hr. cbn in E. sim_call E; [done|]. case_decide; simplify_eq; cbn; set_solver.
  - intros c cfg n w r w' E o Ho. cbn in E. sim_call E; [by left|]. case_decide; simplify_eq; [by left|].
    destruct (String.eqb_spec n EmptyString); simplify_eq; [by left|].
    destruct (sm_containers w !! n) eqn:Hn; simplify_eq; [by left|]. destruct o as [i| |]; cbn in *; [|by left|by left].
    destruct (decide (n = i)) as [->|Hne]; [by right|]. rewrite lookup_insert_ne in Ho by done. by left.
  - intros c id w r w' E o Ho. cbn in E. sim_call E; [by left|]. left.
    destruct (sm_containers w !! id) eqn:Hn; simplify_eq; [|done]. destruct o as [i| |]; cbn in *; [|done|done].
    destruct (decide (id = i)) as [->|Hne]; [rewrite lookup_delete_eq in Ho; by destruct Ho|by rewrite lookup_delete_ne in Ho].
  - intros c id w r w' E Hr. cbn in E. sim_call E; [done|]. destruct (sm_containers w !! id) eqn:Hn; simplify_eq; cbn.
    + rewrite lookup_delete_eq. by intros [].
    + rewrite Hn. by intros [].
  - intros c id p a w r w' E o Ho. cbn in E. sim_call E; [by left|]. left. destruct (sm_full w); by simplify_eq.
  - intros c ref w r w' E o Ho. cbn in E. sim_call E; [by left|]. simplify_eq. destruct o; cbn in *; [by left|by left|]. set_solver.
  - intros c a d ref w r w' E o Ho. cbn in E. sim_call E; [by left|]. simplify_eq. destruct o; cbn in *; [by left|by left|].
    apply elem_of_union in Ho as [->%elem_of_singleton|Ho]; [|by left]. right. split; [done|]. by intros e.
  - intros c ref w r w' E o Ho. cbn in E. sim_call E; [by left|]. left. case_decide; simplify_eq; destruct o; cbn in *; set_solver.
  - intros c ref w r w' E Hr. cbn in E. sim_call E; [done|]. case_decide; simplify_eq; cbn; set_solver.
Defined.

Lemma guarded_adds {A} c (f : Sim -> (A + GoError) * Sim) :
  (forall w r w' o, f w = (r, w') -> sim_has w' o -> sim_has w o) -> adds sim_has (guarded c f) nothing.
Proof.
  intros Hf w r w' E o Ho. left. apply guarded_inv in E as [[_ ->]|[n E]]; [done|]. by apply (Hf _ _ _ o E) in Ho; destruct o.
Qed.

#[export] Instance Sim_quiet : QuietLaws Sim.
Proof.
  apply (Build_QuietLaws Sim _ _ _); intros; apply guarded_adds; intros w r w' o E Ho; cbn in E;
    first [apply (alter_has _ _ _ _ _ o) in E; by apply E | by simplify_eq | by destruct (sm_containers w !! id); simplify_eq | by destruct o; simplify_eq].
Defined.

Definition sim_on (w : Sim) (id n : string) : Prop := exists c, sm_containers w !! id = Some c /\ n ∈ sn_nets c.

Lemma alter_on id f w r w' i n :
  (forall c, sn_nets (f c) = sn_nets c) -> alter_container id f w = (r, w') -> sim_on w' i n <-> sim_on w i n.
Proof.
  intros Hf. unfold alter_container, sim_on. destruct (sm_containers w !! id) as [c|] eqn:Hc; intros [= <- <-]; [|done]. cbn.
  destruct (decide (id = i)) as [->|Hne]; [|by rewrite lookup_insert_ne]. rewrite lookup_insert_eq, Hc. split; intros (c' & [= <-] & Hn).
  - exists c. by rewrite <- Hf.
  - exists (f c). by rewrite Hf.
Qed.

Lemma attached_sim c id n : is_Some (attached_of (info_of id c) !! n) <-> n ∈ sn_nets c.
Proof.
  unfold attached_of, info_of. cbn. by rewrite <- elem_of_dom, dom_gset_to_gmap.
Qed.

Definition sim_made (w : Sim) (n id : string) (cfg : ContainerConfig) : Prop :=
  id = n /\ exists c, sm_containers w !! n = Some c /\ sn_cfg c = cfg /\ sn_nets c = nets_of cfg.

#[export] Instance Sim_networks : NetworkLaws Sim.
Proof.
  apply (Build_NetworkLaws Sim _ sim_on).
  - intros c id w i w' E n. cbn in E. sim_done E; [done|]. destruct (sm_containers w !! id) as [k|] eqn:Hk; simplify_eq. rewrite attached_sim.
    unfold sim_on. cbn. rewrite Hk. split; [by intros (k' & [= <-] & Hn)|]. intros Hn. by exists k.
  - intros c n w r w' E id m. cbn in E. sim_call E; [done|]. by simplify_eq.
  - intros c n id al w u w' E m. cbn in E. sim_done E; [done|]. unfold alter_container in E. cbn in E.
    destruct (sm_containers w !! id) as [k|] eqn:Hk; simplify_eq. unfold sim_on. cbn. rewrite lookup_insert_eq, Hk.
    split; [intros (k' & [= <-] & Hn); cbn in Hn; apply elem_of_union in Hn as [->%elem_of_singleton|Hn]; [by left|right; by exists k]|].
    intros [->|(k' & [= <-] & Hn)]; eexists; (split; [done|]); cbn; set_solver.
  - intros c n id w u w' E m. cbn in E. sim_done E; [done|]. unfold alter_container in E. cbn in E.
    destruct (sm_containers w !! id) as [k|] eqn:Hk; simplify_eq. unfold sim_on. cbn. rewrite lookup_insert_eq, Hk.
    split; [intros (k' & [= <-] & Hn); cbn in Hn; split; [set_solver|exists k; set_solver]|].
    intros [Hne (k' & [= <-] & Hn)]. eexists. split; [done|]. cbn. set_solver.
  - intros c id w r w' E i m. cbn in E. sim_call E; [done|]. apply (alter_on _ _ _ _ _ i m) in E; [|done]. by rewrite E.
  - intros c id w r w' E i m. cbn in E. sim_call E; [done|]. by destruct (sm_containers w !! id); simplify_eq.
  - intros c a w r w' E i m. cbn in E. sim_call E; [done|]. by simplify_eq.
  - intros c w r w' E i m. cbn in E. sim_call E; [done|]. by simplify_eq.
  - intros c b t e w r w' E i m. cbn in E. sim_call E; [done|]. by simplify_eq.
Defined.

#[export] Instance Sim_configs : ConfigLaws Sim.
Proof.
  apply (Build_ConfigLaws Sim _ sim_made).
  - intros c cfg n w id w' E. cbn in E. sim_done E; [done|]. case_decide; simplify_eq. destruct (String.eqb_spec n EmptyString); simplify_eq.
    destruct (sm_containers w !! n) eqn:Hn; simplify_eq. split; [done|]. eexists. cbn. by rewrite lookup_insert_eq.
  - intros c i p a w r w' n id cfg E Hm. cbn in E. sim_call E; [done|]. by destruct (sm_full w); simplify_eq.
  - intros c n w i w' id cfg (-> & k & Hk & <- & Hn) E. cbn in E. sim_done E; [done|]. cbn in E. rewrite Hk in E. simplify_eq.
    split; cbn; try done; [by eexists|]. eexists. split; [done|]. intros Hne. apply set_eq. intros m. rewrite elem_of_dom.
    pose proof (attached_sim k n m) as Ha. cbn in Ha. rewrite Ha, Hn. unfold nets_of. by rewrite decide_False.
Defined.

#[export] Instance Sim_clock : ClockLaws (W := Sim).
Proof.
  split.
  - intros c a w r w' E. cbn in E. sim_call E; simplify_eq; cbn; lia.
  - intros c w u w' E. cbn in E. sim_done E; simplify_eq; cbn; lia.
Defined.

(** ** The theorems, tried *)

Definition ex_options : Options := mkOptions "http://eika:8080" "sandbox" "eika" "eika-internal" "http://eika:3128".
Definition ex_limits (proxied : bool) : Confinement := mkConfinement (f64_of_Z 2) 1073741824 512 proxied.
Definition ex_spec : Spec := mkSpec "w1" EmptyString EmptyString EmptyString [] "demo" EmptyString EmptyString (ex_limits true) ∅.
Definition ex_sim (left_ : nat) (full : bool) : Sim := mkSim ∅ ∅ {["sandbox"%string]} 0 left_ full.
Definition ex_state (left_ : nat) (full : bool) : St := mkSt (ex_sim left_ full) ∅ [].
Definition ex_create (left_ : nat) (full : bool) : (Workspace + GoError) * St :=
  Create ex_options Request (inl [1; 2]) (inl [3; 4]) (inl [5; 6]) ex_spec (ex_state left_ full).
Definition ex_workspace : Workspace :=
  mkWorkspace "w1" "eika-ws-w1" "sandbox" StateCreating "0304" "0506" "demo" "eika-ws-w1" EmptyString EmptyString EmptyString true (Some 0).

Lemma ex_created : fst (ex_create 100 false) = inl ex_workspace.
Proof. vm_compute. reflexivity. Qed.

Lemma create_leaves_nothing_witness :
  (forall o, has (st_world (snd (ex_create 100 true))) o -> has (st_world (ex_state 100 true)) o \/ o = Image "sandbox") /\
  (forall id g, st_grants (snd (ex_create 100 true)) !! id = Some g -> st_grants (ex_state 100 true) !! id = Some g).
Proof.
  pose (e := ErrWrap "copy eikad into container" (ErrText "no space left")).
  apply (create_leaves_nothing ex_options Request (inl [1; 2]) (inl [3; 4]) (inl [5; 6]) ex_spec (ex_state 100 true) e (snd (ex_create 100 true))).
  - vm_compute. reflexivity.
  - intros [Hc|(what & e' & He)]; discriminate.
  - vm_compute. reflexivity.
Defined.

(** When the request that creates a workspace ends between the creation of
    the volume and that of the container, the volume stays, though a failed
    creation says it leaves nothing behind: what is removed is removed with the
    request's own context. *)
Theorem cancelled_creation_leaks :
  exists left_ e s', ex_create left_ false = (inr e, s') /\ has (st_world s') (Volume "eika-ws-w1") /\
    ~ has (st_world (ex_state left_ false)) (Volume "eika-ws-w1") /\ st_warned s' = ["remove volume"%string].
Proof.
  exists 1%nat. eexists _, _. split; [vm_compute; reflexivity|]. split; [|split; [|reflexivity]]; cbn; set_solver.
Qed.

Lemma destroy_removes_all_witness :
  exists ws' s', Destroy Detached ex_workspace (snd (ex_create 100 false)) = (inl ws', s') /\
    has (st_world (snd (ex_create 100 false))) (Container "eika-ws-w1") /\ ~ has (st_world s') (Container "eika-ws-w1") /\
    st_grants s' !! "w1"%string = None.
Proof.
  eexists _, _. match goal with |- ?E /\ _ => assert (HE : E) by (vm_compute; reflexivity) end. split; [exact HE|].
  destruct (destroy_removes_all Detached ex_workspace _ _ _ HE) as (Ho & Hg & _). split; [vm_compute; eauto|]. split; [|exact Hg].
  intros Hh. destruct (Ho _ Hh) as (_ & Hne & _). by apply Hne.
Defined.


Lemma Inspect_recovers_witness :
  exists ws' s2, Inspect ex_options Detached "w1" (snd (ex_create 100 false)) = (inl ws', s2) /\ static ws' = static ex_workspace.
Proof.
  eexists _, _. match goal with |- ?E /\ _ => assert (HE : E) by (vm_compute; reflexivity) end. split; [exact HE|].
  eapply (Inspect_recovers ex_options Request (inl [1; 2]) (inl [3; 4]) (inl [5; 6]) ex_spec (ex_state 100 false) ex_workspace (snd (ex_create 100 false))
    Detached (snd (ex_create 100 false)) _ _ ltac:(discriminate) ltac:(discriminate) ltac:(reflexivity)); [vm_compute; reflexivity|exact (fun _ _ _ H => H)|exact HE].
Defined.

Lemma waitReady_ends_witness :
  exists r s', polls enough_polls Request "http://eika-ws-w1:7000" (0 + readyTimeout) (ex_state 3 false) = (r, s') /\ r <> inl None.
Proof.
  eexists _, _. match goal with |- ?E /\ _ => assert (HE : E) by (vm_compute; reflexivity) end. split; [exact HE|].
  exact (waitReady_ends Request "http://eika-ws-w1:7000" (ex_state 3 false) _ _ HE).
Defined.

Lemma hub_serves_granted_only_witness :
  Handler (show ["srv"; "hub"]%string) true (Some ("w1", "0506")%string) (Prefix +:+ slash_s +:+ "demo.git" +:+ slash_s +:+ "info")
    (grants_after [Granted "w1" "demo" "0506"]) (ex_sim 0 false) = Backend (show ["srv"; "hub"; "demo.git"]%string) "w1".
Proof.
  apply (hub_serves_granted_only ["srv"; "hub"]%string [Granted "w1" "demo" "0506"]); [repeat constructor; done|].
  split; [done|]. exists "0506"%string, "demo"%string, (slash_s +:+ "info"). split; [done|]. split; [done|]. split; [done|].
  split; [by right; eexists|]. split; [done|]. by split.
Defined.
