(* ===== verification/Lifecycle.v ===== *)
(** The workspaces of the server (internal/server workspaces.go, idle.go):
    what creating, starting, stopping, and destroying one does to its
    container, its rows, and the runs in it, and which are stopped because
    nobody used them. The rows and the Docker host change one after the other;
    requests that interleave are not modelled here. *)
From Stdlib Require Import Floats.SpecFloat.
From S2P Require Import Prelude GoStr Float64 Failure GoPath Entries Tables Files Config Configuration Api.
From S2P Require Import Providers Sandbox Settings Hub Host.
From stdpp Require Import options.
Open Scope Z_scope.

(** ** Projects' rows *)

(* @src internal/store/projects.go 10-20 ProjectKind *)
Definition ProjectRemote : string := "remote".
Definition ProjectLocal : string := "local".

(* @src internal/store/projects.go 22-41 Project *)
Record ProjectRow := mkProject {
  pj_ID : string; pj_Name : string; pj_Kind : string; pj_RemoteURL : string; pj_RemoteUsername : string; pj_RemotePassword : string;
  pj_HostPath : string; pj_DefaultBranch : string; pj_CreatedAt : Z;
}.

(** ** The server's state *)

Section lifecycle.
Context {W : Type} `{Engine W} `{Repositories W} `{Library} (opts : Options) (hub_root : string).
(** The settings, [unicode.ToLower] outside ASCII, what the host can give, the
    deployment's image, and which sessions' runs end within the time a
    teardown waits for them. *)
Context (settings : CDB) (lower_rune : Z -> Z) (capacity : option (Z * Z)) (deployment : string) (ends : string -> bool).

(** [ls_runs] is the workspace each session has a run going in, [ls_used] is
    [idleWorkspaces.lastUsed], [ls_mcp] the workspaces whose stdio servers were
    ended, [ls_events] the states that were reported, [ls_logged] the failures
    that were only logged. *)
(* @src internal/server/idle.go 16-30 idleWorkspaces *)
Record LS := mkLS {
  ls_host : @St W; ls_tables : Tables; ls_projects : gmap string ProjectRow; ls_runs : gmap string string;
  ls_used : gmap string Z; ls_tokens : gmap string string; ls_blocked : gmap string (list Net.Blocked);
  ls_mcp : list string; ls_events : list (string * string * string); ls_logged : list string;
}.
Definition with_host x s := mkLS x (ls_tables s) (ls_projects s) (ls_runs s) (ls_used s) (ls_tokens s) (ls_blocked s) (ls_mcp s) (ls_events s) (ls_logged s).
Definition with_tables x s := mkLS (ls_host s) x (ls_projects s) (ls_runs s) (ls_used s) (ls_tokens s) (ls_blocked s) (ls_mcp s) (ls_events s) (ls_logged s).
Definition with_projects x s := mkLS (ls_host s) (ls_tables s) x (ls_runs s) (ls_used s) (ls_tokens s) (ls_blocked s) (ls_mcp s) (ls_events s) (ls_logged s).
Definition with_runs x s := mkLS (ls_host s) (ls_tables s) (ls_projects s) x (ls_used s) (ls_tokens s) (ls_blocked s) (ls_mcp s) (ls_events s) (ls_logged s).
Definition with_used x s := mkLS (ls_host s) (ls_tables s) (ls_projects s) (ls_runs s) x (ls_tokens s) (ls_blocked s) (ls_mcp s) (ls_events s) (ls_logged s).
Definition with_egress x y s := mkLS (ls_host s) (ls_tables s) (ls_projects s) (ls_runs s) (ls_used s) x y (ls_mcp s) (ls_events s) (ls_logged s).
Definition with_mcp x s := mkLS (ls_host s) (ls_tables s) (ls_projects s) (ls_runs s) (ls_used s) (ls_tokens s) (ls_blocked s) x (ls_events s) (ls_logged s).
Definition with_events x s := mkLS (ls_host s) (ls_tables s) (ls_projects s) (ls_runs s) (ls_used s) (ls_tokens s) (ls_blocked s) (ls_mcp s) x (ls_logged s).
Definition with_logged x s := mkLS (ls_host s) (ls_tables s) (ls_projects s) (ls_runs s) (ls_used s) (ls_tokens s) (ls_blocked s) (ls_mcp s) (ls_events s) x.

Definition L : Type -> Type := EM LS failure.
#[export] Instance L_bind : MBind L := EM_bind.

(** A call of the Docker host, and a statement on the tables. *)
Definition hosting {A} (m : @M W A) : L A := fun s =>
  let '(r, h) := m (ls_host s) in (match r with inl a => inl a | inr e => inr (Plain e) end, with_host h s).
Definition reading {A} (f : Tables -> A + GoError) : L A := fun s =>
  (match f (ls_tables s) with inl a => inl a | inr e => inr (Plain e) end, s).
Definition sql {A} (f : Tables -> (A + GoError) * Tables) : L A := fun s =>
  let '(r, t) := f (ls_tables s) in (match r with inl a => inl a | inr e => inr (Plain e) end, with_tables t s).
Definition peek {A} (f : LS -> A) : L A := look f.
Definition logs (what : string) : L unit := update (fun s => with_logged (ls_logged s ++ [what]) s).
Definition clock_ms : L Z := peek (fun s => now (st_world (ls_host s))).

(* @src internal/server/server.go 307-320 Server.workspaceState *)
Definition workspaceState (id project state : string) : L unit :=
  update (fun s => with_events (ls_events s ++ [(id, project, state)]) s).

(* @src internal/store/projects.go 67-75 Store.Project *)
Definition getProject (id : string) : L ProjectRow := fun s =>
  (match ls_projects s !! id with Some p => inl p | None => inr (Plain (wrap ("read project " +:+ id) NoRows)) end, s).

(** The row of a workspace refers to its project as well. *)
Definition insertWorkspace (w : WorkspaceRow) : L WorkspaceRow := fun s =>
  match ls_projects s !! ws_ProjectID w with
  | None => (inr (Plain (wrap ("create workspace " +:+ ws_ID w) ForeignKeyViolation)), s)
  | Some _ => sql (CreateWorkspace EmptyString (now (st_world (ls_host s))) w) s
  end.

(* @src internal/server/sessions.go 82-83 maxName *)
Definition maxName : Z := 200.
(* @src internal/server/sessions.go 85-96 checkName *)
Definition checkName (field value : string) : string + failure :=
  let value := trim_space value in
  if String.eqb value EmptyString then inr (invalidf (field +:+ " must not be empty"))
  else if maxName <? Z.of_nat (length (runes value)) then inr (invalidf (field +:+ " is longer than " +:+ itoa maxName +:+ " characters"))
  else inl value.

(** ** Git for the API *)

(* @src internal/server/workspaces.go 733-752 gitOutput *)
Definition gitOutput (ctx : Ctx) (ex : Client) (args : list string) : L string :=
  '(code, stdout, stderr) ← hosting (call (eikad_git ctx (el_base ex) (el_token ex) (el_dir ex) args));
  if code =? 0 then ret stdout
  else fails (invalidf ("git " +:+ List.hd EmptyString args +:+ ": exit " +:+ itoa code +:+ ": " +:+ trim_space stderr)).

(* @src internal/server/workspaces.go 719-731 Server.head *)
Definition head (ctx : Ctx) (host : Workspace) : L string :=
  ex ← attempt (hosting (Executor host));
  match ex with
  | inr _ => ret EmptyString
  | inl ex =>
      out ← attempt (gitOutput ctx ex ["rev-parse"; "HEAD"]%string);
      ret (match out with inl o => trim_space o | inr _ => EmptyString end)
  end.

(** ** Creating *)

(** The work a teardown does keeps no bound here: its own of two minutes is
    part of how [ends] is chosen. *)
(* @src internal/server/workspaces.go 684-694 Server.discard *)
Definition discardHost (host : Workspace) : L unit :=
  r ← attempt (hosting (Destroy Detached host));
  match r with inl _ => ret tt | inr _ => logs "discard half-created workspace" end.

(* @src internal/server/workspaces.go 696-711 Server.discardRecorded *)
Definition discardRecorded (id : string) : L unit :=
  host ← attempt (hosting (Inspect opts Detached id));
  (match host with
   | inl host =>
       r ← attempt (hosting (Destroy Detached host));
       match r with inl _ => ret tt | inr _ => logs "discard half-created workspace" end
   | inr _ => ret tt
   end) ;;
  r ← attempt (sql (fun t => let '(e, t') := DeleteWorkspace id t in (match e with Some e => inr e | None => inl tt end, t')));
  match r with inl _ => ret tt | inr _ => logs "remove half-created workspace row" end.

(** A step after the container was started: when it fails, the container is
    discarded. *)
Definition or_destroy {A} (host : Workspace) (m : L A) : L A :=
  r ← attempt m;
  match r with inl a => ret a | inr e => discardHost host ;; fails e end.

(* @src internal/server/workspaces.go 52-66 createWorkspaceRequest *)
Record createWorkspaceRequest := mkCreateWorkspace {
  cw_ProjectID : string; cw_Name : string; cw_Branch : string; cw_Image : string; cw_BuildContext : string; cw_Dockerfile : string;
  cw_ParentWorkspaceID : string; cw_Sandbox : option sandboxBody;
}.

(** A workspace's row as it is first written. *)
Definition new_row (id project name branch base image state containerID parent : string) (sandbox : WorkspaceSandbox) : WorkspaceRow :=
  mkWorkspaceRow id project name branch base image state containerID parent EmptyString (sandbox_doc sandbox) false false 0.

(** [newid] is the id [NewID] gives, [t1] and [t2] what the tokens are made
    of. *)
(* @src internal/server/workspaces.go 151-228 Server.createWorkspace *)
Definition createWorkspace (ctx : Ctx) (newid : string) (t1 t2 : random) (req : createWorkspaceRequest) : L WorkspaceRow :=
  name ← lift (checkName "name" (cw_Name req));
  project ← getProject (cw_ProjectID req);
  let branch := trim_space (cw_Branch req) in
  let branch := if String.eqb branch EmptyString then pj_DefaultBranch project else branch in
  (if String.eqb (cw_ParentWorkspaceID req) EmptyString then ret tt
   else reading (getWorkspace (cw_ParentWorkspaceID req)) ;; ret tt) ;;
  sandbox ← lift (newSandbox lower_rune capacity (EgressControl opts) (cw_Sandbox req) settings);
  let image := trim_space (cw_Image req) in
  let image := if String.eqb image EmptyString && String.eqb (cw_BuildContext req) EmptyString then sandboxImage deployment settings else image in
  host ← hosting (Create opts ctx (inl []) t1 t2
    (mkSpec newid image (cw_BuildContext req) (cw_Dockerfile req) [] (pj_Name project) EmptyString (pj_HostPath project) (confinement sandbox) ∅));
  started ← or_destroy host (hosting (Start opts ctx host));
  base ← (if String.eqb (pj_Kind project) ProjectLocal then head ctx started
          else or_destroy started (hosting (Clone opts hub_root ctx started (pj_Name project) branch)));
  or_destroy started (insertWorkspace
    (new_row (wk_ID started) (pj_ID project) name branch base (wk_Image started) (wk_State started) (wk_ContainerID started)
       (cw_ParentWorkspaceID req) sandbox)).

(* @src internal/server/workspaces.go 133-149 Server.handleCreateWorkspace *)
Definition handleCreateWorkspace (ctx : Ctx) (newid : string) (t1 t2 : random) (req : createWorkspaceRequest) : L (Z * WorkspaceRow) :=
  ws ← createWorkspace ctx newid t1 t2 req;
  workspaceState (ws_ID ws) (ws_ProjectID ws) (ws_State ws) ;;
  ret (201, ws).

(* @src internal/server/workspaces.go 118-131 Server.handleListWorkspaces *)
Definition handleListWorkspaces (project : string) : L (Z * list WorkspaceRow) :=
  ws ← peek (fun s => Workspaces project (ls_tables s)); ret (200, ws).

(* @src internal/server/workspaces.go 230-238 Server.handleWorkspace *)
Definition handleWorkspace (id : string) : L (Z * WorkspaceRow) := ws ← reading (getWorkspace id); ret (200, ws).

(* @src internal/server/workspaces.go 68-74 updateWorkspaceRequest *)
Record updateWorkspaceRequest := mkUpdateWorkspace { uw_Name : option string; uw_Pinned : option bool; uw_Archived : option bool }.

(* @src internal/server/workspaces.go 240-266 Server.handleUpdateWorkspace *)
Definition handleUpdateWorkspace (id : string) (req : updateWorkspaceRequest) : L (Z * WorkspaceRow) :=
  name ← match uw_Name req with
    | None => ret None
    | Some n => name ← lift (checkName "name" n); ret (Some name)
    end;
  ws ← sql (UpdateWorkspace id (mkWorkspaceChanges name (uw_Pinned req) (uw_Archived req)));
  workspaceState (ws_ID ws) (ws_ProjectID ws) (ws_State ws) ;;
  ret (200, ws).

(** ** In use *)

(** The zero time is before every other. *)
(* @src internal/server/idle.go 37-48 idleWorkspaces.used *)
Definition used (workspaceID : string) (at_ : Z) (u : gmap string Z) : gmap string Z :=
  if String.eqb workspaceID EmptyString then u else
  match u !! workspaceID with
  | Some t => if t <? at_ then <[workspaceID := at_]> u else u
  | None => <[workspaceID := at_]> u
  end.

Definition uses (workspaceID : string) (at_ : Z) : L unit := update (fun s => with_used (used workspaceID at_ (ls_used s)) s).

(** A run that ends was a use of its workspace. *)
(* @src internal/server/run_manager.go 459-470 runs.stop *)
Definition stop (sid : string) : L unit := fun s =>
  match ls_runs s !! sid with
  | Some wid =>
      if ends sid then uses wid (now (st_world (ls_host s))) (with_runs (delete sid (ls_runs s)) s) else (inl tt, s)
  | None => (inl tt, s)
  end.

Fixpoint each {A} (f : A -> L unit) (l : list A) : L unit :=
  match l with [] => ret tt | x :: l' => f x ;; each f l' end.

(* @src internal/server/run_manager.go 472-484 runs.stopSessionsOf *)
Definition stopSessionsOf (workspaceID : string) : L unit :=
  all ← peek (fun s => map fst (map_to_list (sessions (t_db (ls_tables s)))));
  each (fun sid : string =>
    mine ← peek (fun s => match sessions (t_db (ls_tables s)) !! sid with
      | Some d => String.eqb workspaceID EmptyString || String.eqb (SWorkspaceID d) workspaceID | None => false end);
    if (mine : bool) then stop sid else ret tt) all.

(* @src internal/server/workspaces.go 341-357 Server.worktreesOf *)
Definition worktreesOf (holder : WorkspaceRow) (t : Tables) : list WorkspaceRow :=
  if negb (String.eqb (ws_WorktreeOf holder) EmptyString) then [] else
  base.filter (fun w => ws_WorktreeOf w = ws_ID holder) (Workspaces (ws_ProjectID holder) t).

(** [StopWorkspace] of the pool is called when there is one. *)
(* @src internal/server/workspaces.go 456-474 Server.stopRunsIn *)
Definition stopRunsIn (ws : WorkspaceRow) : L unit :=
  worktrees ← peek (fun s => worktreesOf ws (ls_tables s));
  each (fun held : WorkspaceRow => stopSessionsOf (ws_ID held) ;; update (fun s => with_mcp (ls_mcp s ++ [ws_ID held]) s)) (worktrees ++ [ws]).

(** ** Starting and stopping *)

(* @src internal/server/workspaces.go 359-363 Server.locate *)
Definition locate (ctx : Ctx) (ws : WorkspaceRow) : L Workspace := hosting (Locate opts ctx (ws_ID ws) (ws_WorktreeOf ws)).

(* @src internal/server/workspaces.go 365-373 notRunning *)
Definition notRunning (ws : WorkspaceRow) (state : string) : failure :=
  if negb (String.eqb (ws_WorktreeOf ws) EmptyString)
  then conflictf ("workspace " +:+ ws_ID ws +:+ " is " +:+ state +:+ ", not running: start workspace " +:+ ws_WorktreeOf ws +:+ ", which holds it")
  else conflictf ("workspace " +:+ ws_ID ws +:+ " is " +:+ state +:+ ", not running").

(* @src internal/server/workspaces.go 316-339 Server.changeState *)
Definition changeState (ctx : Ctx) (ws : WorkspaceRow) (op : WorkspaceRow -> Workspace -> L Workspace) : L WorkspaceRow :=
  host ← hosting (Inspect opts ctx (ws_ID ws));
  host ← op ws host;
  worktrees ← peek (fun s => worktreesOf ws (ls_tables s));
  each (fun held : WorkspaceRow =>
    sql (SetWorkspaceState (ws_ID held) (wk_State host) (wk_ContainerID host)) ;;
    workspaceState (ws_ID held) (ws_ProjectID held) (wk_State host)) (ws :: worktrees) ;;
  ret (mkWorkspaceRow (ws_ID ws) (ws_ProjectID ws) (ws_Name ws) (ws_Branch ws) (ws_BaseCommit ws) (ws_Image ws) (wk_State host)
         (ws_ContainerID ws) (ws_ParentWorkspaceID ws) (ws_WorktreeOf ws) (ws_Sandbox ws) (ws_Pinned ws) (ws_Archived ws) (ws_CreatedAt ws)).

(* @src internal/server/workspaces.go 291-295 Server.stopWorkspace *)
Definition stopWorkspace (ctx : Ctx) (ws : WorkspaceRow) (host : Workspace) : L Workspace :=
  stopRunsIn ws ;; hosting (Stop ctx host).

(** A row's sandbox is decoded when the row is read. *)
(* @src internal/server/workspaces.go 268-284 Server.handleStartWorkspace *)
Definition startWorkspace (ctx : Ctx) (ws : WorkspaceRow) (host : Workspace) : L Workspace :=
  sandbox ← lift (sandbox_of_row ws);
  host ← hosting (Confine opts ctx host (confinement sandbox));
  host ← hosting (Start opts ctx host);
  at_ ← clock_ms;
  uses (ws_ID ws) at_ ;;
  ret host.

(* @src internal/server/workspaces.go 297-314 Server.transition *)
Definition transition (ctx : Ctx) (id : string) (op : WorkspaceRow -> Workspace -> L Workspace) : L (Z * WorkspaceRow) :=
  ws ← reading (getWorkspace id);
  if negb (String.eqb (ws_WorktreeOf ws) EmptyString)
  then fails (conflictf ("workspace " +:+ ws_ID ws +:+ " is a worktree in workspace " +:+ ws_WorktreeOf ws +:+ ": start or stop that one"))
  else ws ← changeState ctx ws op; ret (200, ws).

Definition handleStartWorkspace (ctx : Ctx) (id : string) : L (Z * WorkspaceRow) := transition ctx id (startWorkspace ctx).
(* @src internal/server/workspaces.go 286-289 Server.handleStopWorkspace *)
Definition handleStopWorkspace (ctx : Ctx) (id : string) : L (Z * WorkspaceRow) := transition ctx id (stopWorkspace ctx).

(** ** Idle workspaces *)

(* @src internal/server/idle.go 12-14 idleSweepInterval *)
Definition idleSweepInterval : Z := 60000.

Definition holder_of (w : WorkspaceRow) : string := if String.eqb (ws_WorktreeOf w) EmptyString then ws_ID w else ws_WorktreeOf w.

(** The last use of each holder, its own or of a worktree it holds. *)
Definition last_uses (u : gmap string Z) (all : list WorkspaceRow) : gmap string Z :=
  foldl (fun last w => match u !! ws_ID w with
    | Some t => match last !! holder_of w with
        | Some t' => if t' <? t then <[holder_of w := t]> last else last
        | None => <[holder_of w := t]> last
        end
    | None => last
    end) ∅ all.

(* @src internal/server/idle.go 95-131 idleWorkspaces.idle *)
Definition idle (all : list WorkspaceRow) (now_ timeout : Z) (u : gmap string Z) : list WorkspaceRow * gmap string Z :=
  let last := last_uses u all in
  foldl (fun '(out, u) w =>
    if negb (String.eqb (ws_State w) StateRunning) then (out, delete (ws_ID w) u)
    else if negb (String.eqb (ws_WorktreeOf w) EmptyString) then (out, u)
    else match last !! ws_ID w with
    | None => (out, <[ws_ID w := now_]> u)
    | Some t => if timeout <=? now_ - t then (out ++ [w], u) else (out, u)
    end) ([], u) all.

(** The workspaces a run is going in. *)
Definition in_use (s : LS) (id : string) : bool :=
  negb (String.eqb id EmptyString) && existsb (fun p => String.eqb p.2 id) (map_to_list (ls_runs s)).

(* @src internal/server/idle.go 133-143 idleWorkspaces.inUse *)
Definition inUse (holder : WorkspaceRow) (all : list WorkspaceRow) (s : LS) : bool :=
  existsb (fun w => in_use s (ws_ID w) && (String.eqb (ws_ID w) (ws_ID holder) || String.eqb (ws_WorktreeOf w) (ws_ID holder))) all.

(* @src internal/server/idle.go 64-93 idleWorkspaces.sweep *)
Definition sweep (ctx : Ctx) (now_ : Z) : L unit :=
  let timeout := idleTimeout settings / 1000000 in
  if timeout =? 0 then ret tt else
  all ← peek (fun s => Workspaces EmptyString (ls_tables s));
  update (fun s => with_used (foldr (fun p u => used p.2 now_ u) (ls_used s) (map_to_list (ls_runs s))) s) ;;
  candidates ← peek (fun s => (idle all now_ timeout (ls_used s)).1);
  update (fun s => with_used (idle all now_ timeout (ls_used s)).2 s) ;;
  each (fun ws : WorkspaceRow =>
    busy ← peek (inUse ws all);
    if (busy : bool) then ret tt else
    r ← attempt (changeState ctx ws (stopWorkspace ctx));
    match r with inl _ => ret tt | inr _ => logs "stop idle workspace" end) candidates.

(** ** Destroying *)

Definition delete_row (id : string) : L unit :=
  sql (fun t => let '(e, t') := DeleteWorkspace id t in (match e with Some e => inr e | None => inl tt end, t')).

Definition no_workspace (f : failure) : bool := match f with Plain e => is_sentinel "workspace not found" e | Api _ _ _ => false end.

(* @src internal/server/workspaces.go 425-454 Server.destroyWorktree *)
Definition destroyWorktree (ctx : Ctx) (ws : WorkspaceRow) : L unit :=
  host ← attempt (locate ctx ws);
  (match host with
   | inr e => if no_workspace e then ret tt else fails e
   | inl host =>
       if negb (String.eqb (wk_State host) StateRunning) then fails (notRunning ws (wk_State host)) else
       stopRunsIn ws ;;
       ex ← hosting (Executor (with_dir EmptyString host));
       hosting (RemoveWorktree ctx ex (ws_ID ws))
   end) ;;
  delete_row (ws_ID ws) ;;
  workspaceState (ws_ID ws) (ws_ProjectID ws) StateGone.

(* @src internal/server/workspaces.go 391-423 Server.destroyWorkspace *)
Definition destroyWorkspace (ctx : Ctx) (ws : WorkspaceRow) : L unit :=
  if negb (String.eqb (ws_WorktreeOf ws) EmptyString) then destroyWorktree ctx ws else
  worktrees ← peek (fun s => worktreesOf ws (ls_tables s));
  stopRunsIn ws ;;
  host ← attempt (hosting (Inspect opts ctx (ws_ID ws)));
  (match host with
   | inl host => hosting (Destroy ctx host) ;; ret tt
   | inr e => if no_workspace e then ret tt else fails e
   end) ;;
  delete_row (ws_ID ws) ;;
  update (fun s => let '(x, y) := forgetEgress (ws_ID ws) (ls_tokens s) (ls_blocked s) in with_egress x y s) ;;
  each (fun held => workspaceState (ws_ID held) (ws_ProjectID held) StateGone) (worktrees ++ [ws]).

(* @src internal/server/workspaces.go 375-389 Server.handleDeleteWorkspace *)
Definition handleDeleteWorkspace (ctx : Ctx) (id : string) : L (Z * unit) :=
  ws ← reading (getWorkspace id);
  destroyWorkspace ctx ws ;;
  ret (204, tt).

(** The workspaces of the project that are left, with all that is theirs. *)
(* @src internal/store/projects.go 122-132 Store.DeleteProject *)
Definition DeleteProject (id : string) : L unit := fun s =>
  match ls_projects s !! id with
  | None => (inr (Plain (wrap ("delete project " +:+ id) NoRows)), s)
  | Some _ =>
      let gone t w := if String.eqb (ws_ProjectID w) id then (DeleteWorkspace (ws_ID w) t).2 else t in
      (inl tt, with_projects (delete id (ls_projects s)) (with_tables (foldl gone (ls_tables s) (Workspaces id (ls_tables s))) s))
  end.

(* @src internal/server/projects.go 279-305 Server.handleDeleteProject *)
Definition handleDeleteProject (ctx : Ctx) (id : string) : L (Z * unit) :=
  getProject id ;;
  workspaces ← peek (fun s => Workspaces id (ls_tables s));
  each (destroyWorkspace ctx) workspaces ;;
  DeleteProject id ;;
  ret (204, tt).
End lifecycle.
