(* ===== verification/Projects.v ===== *)
(** Projects (internal/server projects.go, internal/store projects.go), and
    what the API does with git in their workspaces (internal/server
    workspaces.go and subagents.go): diffs, commits, pushes, merges, and the
    workspace of a fork. *)
From stdpp Require Import sorting.
From S2P Require Import Prelude GoStr Failure GoPath Entries Tables Files Config Configuration Api Providers Sandbox.
From S2P Require Import Hub Host Lifecycle.
From stdpp Require Import options.
Open Scope Z_scope.

(** [strings.Fields]. *)
Fixpoint fields_go (acc : list Z) (l : list seg) : list string :=
  match l with
  | [] => match acc with [] => [] | _ => [of_bytes acc] end
  | s :: l' =>
      if is_space (seg_rune s) then match acc with [] => fields_go [] l' | _ => of_bytes acc :: fields_go [] l' end
      else fields_go (acc ++ seg_bytes s) l'
  end.
Definition Fields (s : string) : list string := fields_go [] (segs (bytes_of s)).

(** What the harness reads of a remote's URL: the parts of its user, the
    decoded values of its query, and how it prints without any of those. *)
Record RemoteURL := mkRemoteURL {
  ru_URL : URL; ru_UserString : string; ru_Username : string; ru_Password : option string; ru_Values : list string;
  ru_RawFragment : string; ru_Plain : string;
}.

(* @src internal/server/projects.go 15-16 defaultBranch *)
Definition defaultBranch : string := "main".
Definition maxCredential : Z := 4096.

(* @src internal/server/projects.go 36-45 createProjectRequest *)
Record createProjectRequest := mkCreateProject {
  cj_Name : string; cj_Kind : string; cj_RemoteURL : string; cj_RemoteUsername : string; cj_RemotePassword : string;
  cj_HostPath : string; cj_DefaultBranch : string;
}.
(* @src internal/server/projects.go 47-55 updateProjectRequest *)
Record updateProjectRequest := mkUpdateProject { uj_Username : option string; uj_Password : option string; uj_DefaultBranch : option string }.
(* @src internal/server/projects.go 21-34 projectBody *)
Record projectBody := mkProjectBody {
  jb_ID : string; jb_Name : string; jb_Kind : string; jb_RemoteURL : string; jb_RemoteUsername : string; jb_PasswordSet : bool;
  jb_HostPath : string; jb_DefaultBranch : string;
}.

Section projects.
Context {W : Type} `{Engine W} `{Repositories W} `{Library} (opts : Options) (hub_root : string).
(** The box of the harness, [url.Parse], and the escapes of package url. *)
Context (box : Box) (parse_remote : string -> option RemoteURL) (path_escape query_escape : string -> string).

Definition hub_call (f : W -> option GoError * W) : @L W unit := hosting (call (fun w => opt_error (f w))).

(** ** The table *)

(* @src internal/store/projects.go 48-65 Store.CreateProject *)
Definition CreateProject (id : string) (p : ProjectRow) : @L W ProjectRow := fun s =>
  let p := mkProject (if String.eqb (pj_ID p) EmptyString then id else pj_ID p) (pj_Name p) (pj_Kind p) (pj_RemoteURL p)
    (pj_RemoteUsername p) (pj_RemotePassword p) (pj_HostPath p) (pj_DefaultBranch p) (now (st_world (ls_host s))) in
  let failed e := (inr (Plain (wrap ("create project " +:+ pj_Name p) e)), s) in
  if negb (String.eqb (pj_Kind p) ProjectRemote) && negb (String.eqb (pj_Kind p) ProjectLocal) then failed CheckViolation
  else if existsb (fun q => String.eqb (pj_ID q.2) (pj_ID p) || String.eqb (pj_Name q.2) (pj_Name p)) (map_to_list (ls_projects s))
  then failed UniqueViolation
  else (inl p, with_projects (<[pj_ID p := p]> (ls_projects s)) s).

(** Names are unique, so there is at most one. *)
(* @src internal/store/projects.go 77-85 Store.ProjectByName *)
Definition ProjectByName (name : string) : @L W ProjectRow := fun s =>
  match List.find (fun p => String.eqb (pj_Name p) name) (map snd (map_to_list (ls_projects s))) with
  | Some p => (inl p, s)
  | None => (inr (Plain (wrap ("read project " +:+ name) NoRows)), s)
  end.

(* @src internal/store/projects.go 87-106 Store.Projects *)
Definition Projects (s : @LS W) : list ProjectRow :=
  merge_sort (oldest_first pj_CreatedAt pj_ID) (map snd (map_to_list (ls_projects s))).

(* @src internal/store/projects.go 108-120 Store.UpdateProject *)
Definition UpdateProject (p : ProjectRow) : @L W ProjectRow := fun s =>
  match ls_projects s !! pj_ID p with
  | Some q =>
      let q := mkProject (pj_ID q) (pj_Name q) (pj_Kind q) (pj_RemoteURL q) (pj_RemoteUsername p) (pj_RemotePassword p)
        (pj_HostPath q) (pj_DefaultBranch p) (pj_CreatedAt q) in
      (inl q, with_projects (<[pj_ID p := q]> (ls_projects s)) s)
  | None => (inr (Plain (wrap ("update project " +:+ pj_ID p) NoRows)), s)
  end.

(** ** Remotes *)

Definition redact (message secret : string) : string := scrub message secret.

(** The password's escaped form stands beside it, and each value's beside the
    value. *)
(* @src internal/server/projects.go 307-352 withoutCredentials *)
Definition withoutCredentials (raw : string) (err : option GoError) : string * string :=
  let reason := match err with Some e => error_text e | None => EmptyString end in
  match parse_remote raw with
  | None => ("[UNPARSEABLE]", "the remote url could not be parsed")%string
  | Some r =>
      let u := ru_URL r in
      let user := if u_User u then [ru_UserString r; ru_Username r] ++
          match ru_Password r with Some p => [p; path_escape p] | None => [] end else [] in
      let query := if negb (String.eqb (u_RawQuery u) EmptyString) || u_ForceQuery u
        then u_RawQuery u :: concat (map (fun v => [v; query_escape v]) (ru_Values r)) else [] in
      let fragment := if negb (String.eqb (u_Fragment u) EmptyString) || negb (String.eqb (ru_RawFragment r) EmptyString) ||
          existsb (Z.eqb 35) (bytes_of raw)
        then [u_Fragment u; ru_RawFragment r; path_escape (u_Fragment u)] else [] in
      let reason := if String.eqb raw EmptyString then reason else replace_all (S (String.length reason)) reason raw (ru_Plain r) in
      (ru_Plain r, foldl redact reason (user ++ query ++ fragment))
  end.

(* @src internal/server/projects.go 354-368 asProject *)
Definition asProject (p : ProjectRow) : projectBody :=
  mkProjectBody (pj_ID p) (pj_Name p) (pj_Kind p) (withoutCredentials (pj_RemoteURL p) None).1 (pj_RemoteUsername p)
    (negb (String.eqb (pj_RemotePassword p) EmptyString)) (pj_HostPath p) (pj_DefaultBranch p).

(* @src internal/server/projects.go 242-256 validateRemoteURL *)
Definition validateRemoteURL (raw : string) : option failure :=
  match parse_remote raw with
  | None => Some (invalidf "remote_url could not be parsed")
  | Some r =>
      let u := ru_URL r in
      if u_User u then Some (invalidf "remote_url must not contain credentials; use remote_username and remote_password")
      else if negb (String.eqb (u_RawQuery u) EmptyString) || u_ForceQuery u || negb (String.eqb (u_Fragment u) EmptyString) ||
              existsb (Z.eqb 35) (bytes_of raw)
      then Some (invalidf "remote_url must not contain a query string or fragment")
      else None
  end.

(* @src internal/server/projects.go 258-267 validateCredentials *)
Definition validateCredentials (c : Credentials) : option failure :=
  if negb (Bool.eqb (String.eqb (Username c) EmptyString) (String.eqb (Password c) EmptyString))
  then Some (invalidf "remote_username and remote_password must both be set, or neither")
  else if (maxCredential <? str_len (Username c)) || (maxCredential <? str_len (Password c))
  then Some (invalidf ("remote credentials must be at most " +:+ itoa maxCredential +:+ " bytes each"))
  else None.
Definition checks (r : option failure) : @L W unit := match r with Some e => fails e | None => ret tt end.

(* @src internal/server/projects.go 220-230 Server.mirror *)
Definition mirror (ctx : Ctx) (p : ProjectRow) (creds : Credentials) : @L W unit :=
  r ← attempt (hub_call (Mirror hub_root ctx (pj_Name p) (pj_RemoteURL p) creds));
  match r with
  | inl _ => ret tt
  | inr err =>
      let '(remote, reason) := withoutCredentials (pj_RemoteURL p) (Some (ErrText (failure_text err))) in
      fails (invalidf ("mirror " +:+ remote +:+ ": " +:+ scrub reason (Password creds)))
  end.

(* @src internal/server/projects.go 232-240 Server.projectCredentials *)
Definition projectCredentials (p : ProjectRow) : Credentials + failure :=
  match Open box (pj_RemotePassword p) with
  | inl password => inl (mkCredentials (pj_RemoteUsername p) password)
  | inr _ => inr (conflictf ("the remote password of project " +:+ pj_Name p +:+
                  " cannot be read; enter it again in the project's settings"))
  end.

(** ** Handlers *)

Definition no_credentials : Credentials := mkCredentials EmptyString EmptyString.
Definition has_credentials (c : Credentials) : bool := negb (String.eqb (Username c) EmptyString && String.eqb (Password c) EmptyString).

(** [nonce] is the one the password is sealed with. *)
(* @src internal/server/projects.go 94-152 Server.createProject *)
Definition createProject (ctx : Ctx) (newid nonce : string) (req : createProjectRequest) : @L W ProjectRow :=
  let branch := trim_space (cj_DefaultBranch req) in
  let p := mkProject EmptyString (trim_space (cj_Name req)) (cj_Kind req) (trim_space (cj_RemoteURL req)) EmptyString EmptyString
    (trim_space (cj_HostPath req)) (if String.eqb branch EmptyString then defaultBranch else branch) 0 in
  let creds := mkCredentials (trim_space (cj_RemoteUsername req)) (trim_space (cj_RemotePassword req)) in
  (if String.eqb (pj_Kind p) ProjectRemote then
     if String.eqb (pj_RemoteURL p) EmptyString then fails (invalidf "remote_url is required for a remote project") else
     checks (validateRemoteURL (pj_RemoteURL p)) ;; checks (validateCredentials creds)
   else if String.eqb (pj_Kind p) ProjectLocal then
     if has_credentials creds then fails (invalidf "remote credentials are only valid for a remote project")
     else if String.eqb (pj_HostPath p) EmptyString then fails (invalidf "host_path is required for a local project")
     else if negb (is_abs (pj_HostPath p)) then fails (invalidf ("host_path " +:+ pj_HostPath p +:+ " is not absolute"))
     else ret tt
   else fails (invalidf ("kind must be " +:+ go_quote ProjectRemote +:+ " or " +:+ go_quote ProjectLocal))) ;;
  hosting (call (Init hub_root ctx (pj_Name p))) ;;
  (if String.eqb (pj_Kind p) ProjectRemote then mirror ctx p creds else ret tt) ;;
  CreateProject newid (mkProject EmptyString (pj_Name p) (pj_Kind p) (pj_RemoteURL p) (Username creds)
    (Seal box nonce (Password creds)) (pj_HostPath p) (pj_DefaultBranch p) 0).

(* @src internal/server/projects.go 76-92 Server.handleCreateProject *)
Definition handleCreateProject (ctx : Ctx) (newid nonce : string) (req : createProjectRequest) : @L W (Z * projectBody) :=
  p ← createProject ctx newid nonce req; ret (201, asProject p).

(* @src internal/server/projects.go 62-74 Server.handleListProjects *)
Definition handleListProjects : @L W (Z * list projectBody) := ps ← peek Projects; ret (200, map asProject ps).

(* @src internal/server/projects.go 269-277 Server.handleProject *)
Definition handleProject (id : string) : @L W (Z * projectBody) := p ← getProject id; ret (200, asProject p).

Definition set_credentials (username password branch : string) (p : ProjectRow) : ProjectRow :=
  mkProject (pj_ID p) (pj_Name p) (pj_Kind p) (pj_RemoteURL p) username password (pj_HostPath p) branch (pj_CreatedAt p).

(** The credentials an update leaves: the stored ones are opened only when
    the request has no new password. *)
Definition updated_credentials (p : ProjectRow) (req : updateProjectRequest) : Credentials + failure :=
  match (match uj_Password req with None => projectCredentials p | Some _ => inl (mkCredentials (pj_RemoteUsername p) EmptyString) end) with
  | inr e => inr e
  | inl c =>
      let user := match uj_Username req with Some u => trim_space u | None => Username c end in
      match uj_Password req with
      | None => inl (mkCredentials user (Password c))
      | Some raw => let pw := trim_space raw in inl (mkCredentials (if String.eqb pw EmptyString then EmptyString else user) pw)
      end
  end.

(* @src internal/server/projects.go 154-218 Server.handleUpdateProject *)
Definition handleUpdateProject (ctx : Ctx) (id nonce : string) (req : updateProjectRequest) : @L W (Z * projectBody) :=
  p ← getProject id;
  branch ← match uj_DefaultBranch req with
    | None => ret (pj_DefaultBranch p)
    | Some b => let b := trim_space b in
        if String.eqb b EmptyString then fails (invalidf "default_branch must not be empty") else ret b
    end;
  let p := set_credentials (pj_RemoteUsername p) (pj_RemotePassword p) branch p in
  p ← match uj_Username req, uj_Password req with
    | None, None => ret p
    | _, _ =>
        if negb (String.eqb (pj_Kind p) ProjectRemote) then fails (invalidf "remote credentials are only valid for a remote project") else
        creds ← lift (updated_credentials p req);
        checks (validateCredentials creds) ;;
        mirror ctx p creds ;;
        ret (set_credentials (Username creds) (Seal box nonce (Password creds)) branch p)
    end;
  updated ← UpdateProject p;
  ret (200, asProject updated).

(** ** Git in a project's workspaces *)

(* @src internal/server/workspaces.go 667-682 Server.executorFor *)
Definition executorFor (ctx : Ctx) (id : string) : @L W Client :=
  ws ← reading (getWorkspace id);
  host ← locate opts ctx ws;
  if negb (String.eqb (wk_State host) StateRunning) then fails (notRunning ws (wk_State host)) else hosting (Executor host).

(** [Client.Root]. *)
Definition client_root (ex : Client) : string := Join [Root; el_dir ex].

(* @src internal/server/files.go 184-196 fileError *)
Definition fileError (err : GoError) (path : string) : failure :=
  if is_sentinel "path is outside the workspace root" err || is_sentinel "permission denied" err
  then forbiddenf (path +:+ " is outside the workspace or not accessible")
  else if is_sentinel "file does not exist" err then notFoundf (path +:+ " not found")
  else Plain err.

(** A path the API passes to git, checked against the root. *)
Definition inside (ex : Client) (p : string) : @L W unit :=
  match Resolve (client_root ex) p with inl _ => ret tt | inr e => fails (fileError e p) end.

(** The diff against the base commit, and the status. *)
(* @src internal/server/workspaces.go 476-518 Server.handleWorkspaceDiff *)
Definition handleWorkspaceDiff (ctx : Ctx) (id path : string) : @L W (Z * (string * string * string * string)) :=
  ws ← reading (getWorkspace id);
  ex ← executorFor ctx (ws_ID ws);
  let path := trim_space path in
  scope ← (if String.eqb path EmptyString then ret [] else inside ex path ;; ret ["--"%string; path]);
  diff ← gitOutput ctx ex (("diff"%string :: (if String.eqb (ws_BaseCommit ws) EmptyString then [] else [ws_BaseCommit ws])) ++ scope);
  status ← gitOutput ctx ex (["status"; "--porcelain"]%string ++ scope);
  ret (200, (ws_ID ws, ws_BaseCommit ws, diff, status)).

(* @src internal/server/workspaces.go 553-593 commitChanges *)
Definition commitChanges (ctx : Ctx) (ex : Client) (message : string) (paths : list string) : @L W string :=
  each (fun p : string =>
    if String.eqb (trim_space p) EmptyString then fails (invalidf "paths must not contain an empty path") else inside ex p) paths ;;
  let scope := "--"%string :: paths in
  gitOutput ctx ex (["add"; "-A"]%string ++ scope) ;;
  staged ← gitOutput ctx ex (["diff"; "--cached"; "--name-only"]%string ++ scope);
  if String.eqb (trim_space staged) EmptyString then fails (conflictf "nothing to commit") else
  identity ← attempt (gitOutput ctx ex ["config"; "user.email"]%string);
  let args := match identity with
    | inl _ => ["commit"; "-m"; message]%string
    | inr _ => ["-c"; "user.name=" +:+ GitUserName; "-c"; "user.email=" +:+ GitUserEmail; "commit"; "-m"; message]%string
    end in
  gitOutput ctx ex (args ++ match paths with [] => [] | _ => scope end) ;;
  head ← gitOutput ctx ex ["rev-parse"; "HEAD"]%string;
  ret (trim_space head).

(* @src internal/server/workspaces.go 520-551 Server.handleCommitWorkspace *)
Definition handleCommitWorkspace (ctx : Ctx) (id message : string) (paths : list string) : @L W (Z * string) :=
  let message := trim_space message in
  if String.eqb message EmptyString then fails (invalidf "message is required") else
  ws ← reading (getWorkspace id);
  ex ← executorFor ctx (ws_ID ws);
  commit ← commitChanges ctx ex message paths;
  workspaceState (ws_ID ws) (ws_ProjectID ws) (ws_State ws) ;;
  ret (200, commit).

(* @src internal/server/workspaces.go 647-665 Server.pushUpstream *)
Definition pushUpstream (ctx : Ctx) (p : ProjectRow) (branch : string) : @L W unit :=
  creds ← (if String.eqb (pj_RemotePassword p) EmptyString then ret no_credentials else lift (projectCredentials p));
  let ref := "refs/heads/" +:+ branch in
  r ← attempt (hub_call (PushUpstream hub_root ctx (pj_Name p) (pj_RemoteURL p) (ref +:+ ":" +:+ ref) creds));
  match r with
  | inl _ => ret tt
  | inr err =>
      let '(remote, reason) := withoutCredentials (pj_RemoteURL p) (Some (ErrText (failure_text err))) in
      fails (invalidf ("push " +:+ branch +:+ " to " +:+ remote +:+ ": " +:+ scrub reason (Password creds)))
  end.

Definition is_bad_branch (f : failure) : bool := match f with Plain e => is_sentinel "invalid branch name" e | Api _ _ _ => false end.

(** The branch, the commit, and whether the remote has it too. *)
(* @src internal/server/workspaces.go 595-645 Server.handlePushWorkspace *)
Definition handlePushWorkspace (ctx : Ctx) (id : string) (upstream : bool) : @L W (Z * (string * string * bool)) :=
  ws ← reading (getWorkspace id);
  project ← getProject (ws_ProjectID ws);
  if upstream && String.eqb (pj_RemoteURL project) EmptyString
  then fails (invalidf ("project " +:+ pj_Name project +:+ " has no remote to push to")) else
  host ← locate opts ctx ws;
  if negb (String.eqb (wk_State host) StateRunning) then fails (notRunning ws (wk_State host)) else
  r ← attempt (hosting (Push opts hub_root ctx host (pj_Name project) (ws_Branch ws)));
  match r with
  | inr err =>
      if is_bad_branch err then fails err
      else fails (invalidf ("push " +:+ ws_Branch ws +:+ " to the hub: " +:+ failure_text err))
  | inl _ =>
      commit ← head ctx host;
      (if upstream then pushUpstream ctx project (ws_Branch ws) else ret tt) ;;
      workspaceState (ws_ID ws) (ws_ProjectID ws) (ws_State ws) ;;
      ret (200, (ws_Branch ws, commit, upstream))
  end.

(* @src internal/server/subagents.go 80-84 strategyMerge *)
Definition strategyMerge : string := "merge".
Definition strategyRebase : string := "rebase".

(* @src internal/server/subagents.go 51-61 mergeRequest *)
Record mergeRequest := mkMerge { mg_Source : string; mg_Branch : string; mg_Strategy : string }.
(* @src internal/server/subagents.go 63-78 mergeResponse *)
Record mergeResponse := mkMergeResponse {
  mr_WorkspaceID : string; mr_Branch : string; mr_Strategy : string; mr_Merged : bool; mr_Commit : string;
  mr_Conflicts : list string; mr_Message : string;
}.

(* @src internal/server/subagents.go 274-310 Server.sourceBranch *)
Definition sourceBranch (ctx : Ctx) (target : WorkspaceRow) (project : ProjectRow) (req : mergeRequest) : @L W string :=
  let branch := trim_space (mg_Branch req) in
  if String.eqb (mg_Source req) EmptyString then
    if String.eqb branch EmptyString then fails (invalidf "source_workspace_id or branch is required") else ret branch
  else
    source ← reading (getWorkspace (mg_Source req));
    if negb (String.eqb (ws_ProjectID source) (ws_ProjectID target))
    then fails (invalidf ("workspace " +:+ ws_ID source +:+ " belongs to another project"))
    else if String.eqb (ws_ID source) (ws_ID target)
    then fails (invalidf ("workspace " +:+ ws_ID source +:+ " cannot merge itself"))
    else
      let branch := if String.eqb branch EmptyString then ws_Branch source else branch in
      host ← attempt (locate opts ctx source);
      match host with
      | inr _ => ret branch
      | inl host =>
          if negb (String.eqb (wk_State host) StateRunning) then ret branch else
          r ← attempt (hosting (Push opts hub_root ctx host (pj_Name project) (ws_Branch source)));
          match r with
          | inr err => fails (invalidf ("push " +:+ ws_Branch source +:+ " from workspace " +:+ ws_ID source +:+ ": " +:+ failure_text err))
          | inl _ => ret branch
          end
      end.

(* @src internal/server/subagents.go 193-272 Server.handleMergeWorkspace *)
Definition handleMergeWorkspace (ctx : Ctx) (id : string) (req : mergeRequest) : @L W (Z * mergeResponse) :=
  let strategy := trim_space (mg_Strategy req) in
  let strategy := if String.eqb strategy EmptyString then strategyMerge else strategy in
  if negb (String.eqb strategy strategyMerge) && negb (String.eqb strategy strategyRebase)
  then fails (invalidf ("strategy must be " +:+ go_quote strategyMerge +:+ " or " +:+ go_quote strategyRebase)) else
  target ← reading (getWorkspace id);
  project ← getProject (ws_ProjectID target);
  branch ← sourceBranch ctx target project req;
  host ← locate opts ctx target;
  if negb (String.eqb (wk_State host) StateRunning) then fails (notRunning target (wk_State host)) else
  fetched ← attempt (hosting (Fetch opts hub_root ctx host (pj_Name project) branch));
  match fetched with
  | inr err => fails (invalidf ("fetch " +:+ branch +:+ " from the hub: " +:+ failure_text err))
  | inl _ =>
      ex ← hosting (Executor host);
      out ← attempt (gitOutput ctx ex ([strategy; "FETCH_HEAD"%string] ++
        if String.eqb strategy strategyMerge then ["-m"%string; "merge " +:+ branch] else []));
      match out with
      | inr err =>
          conflicts ← attempt (gitOutput ctx ex ["diff"; "--name-only"; "--diff-filter=U"]%string);
          ret (200, mkMergeResponse (ws_ID target) branch strategy false EmptyString
                 (match conflicts with inl c => Fields c | inr _ => [] end) (failure_text err))
      | inl out =>
          commit ← head ctx host;
          ret (200, mkMergeResponse (ws_ID target) branch strategy true commit [] (trim_space out))
      end
  end.

(** [newid] is what [NewID] gives, which is longer than eight bytes; [t1] and
    [t2] are what the tokens are made of. *)
(* @src internal/server/subagents.go 312-394 Server.forkWorkspace *)
Definition forkWorkspace (ctx : Ctx) (newid : string) (t1 t2 : random) (sess : DSession) (entryID : string) : @L W WorkspaceRow :=
  entry ← reading (fun t => match getEntry entryID (t_db t) with
    | inl e => inl e | inr err => inr (wrap ("read entry " +:+ entryID) err) end);
  if negb (String.eqb (ESession entry) (SID sess))
  then fails (notFoundf ("read entry " +:+ entryID +:+ " of session " +:+ SID sess +:+ ": not found"))
  else if String.eqb (Commit entry) EmptyString
  then fails (invalidf ("entry " +:+ entryID +:+ " recorded no commit, so there is nothing to clone")) else
  source ← reading (getWorkspace (SWorkspaceID sess));
  project ← getProject (ws_ProjectID source);
  sourceHost ← locate opts ctx source;
  if negb (String.eqb (wk_State sourceHost) StateRunning) then fails (notRunning source (wk_State sourceHost)) else
  hosting (Push opts hub_root ctx sourceHost (pj_Name project) (ws_Branch source)) ;;
  let branch := ws_Branch source +:+ "-fork-" +:+ str_take 8 newid in
  sourceSandbox ← (fun s => (sandboxOf source (ls_tables s), s));
  let sandbox := childSandbox sourceSandbox in
  host ← hosting (Create opts ctx (inl []) t1 t2
    (mkSpec newid (ws_Image source) EmptyString EmptyString [] (pj_Name project) EmptyString EmptyString (confinement sandbox) ∅));
  started ← or_destroy host (hosting (Start opts ctx host));
  base ← or_destroy started (hosting (CloneAt opts hub_root ctx started (pj_Name project) branch (Commit entry)));
  or_destroy started (insertWorkspace
    (new_row (wk_ID started) (pj_ID project) (ws_Name source +:+ " fork") branch base (wk_Image started) (wk_State started)
       (wk_ContainerID started) (ws_ID source) sandbox)).
End projects.
