(* ===== verification/LifecycleClaims.v ===== *)
(** What the server's handling of workspaces and projects promises: that a
    failed request leaves no workspace, whom the idle sweep stops, that
    worktrees follow their holder, and where deleting and creating projects
    goes wrong. *)
From Stdlib Require Import Floats.SpecFloat.
From stdpp Require Import sorting.
From S2P Require Import Prelude GoStr Float64 Failure GoPath Entries Tables Files Config Configuration Api.
From S2P Require Import Providers Sandbox Settings Hub Host HostClaims HostSim Lifecycle Projects.
From stdpp Require Import options.
Open Scope Z_scope.

#[local] Set Default Proof Using "All".

(** ** A failed request *)

Section creating.
Context {W : Type} `{HE : Engine W} `{HR : Repositories W} `{HL : !EngineLaws W} `{HQ : !QuietLaws W} `{HB : Library} (opts : Options) (hub_root : string).
Context (settings : CDB) (lower_rune : Z -> Z) (capacity : option (Z * Z)) (deployment : string).
Notation state := (@LS W).

(** The workspace is there, with what it holds and no more, and nothing else
    changed since [s0]. *)
Definition standing (s0 : state) (spec : Spec) (host : Workspace) (s : state) : Prop :=
  grown opts spec (ls_host s0) host (ls_host s) /\ ls_tables s = ls_tables s0 /\ ls_logged s = ls_logged s0.

Definition as_planned (spec : Spec) (host : Workspace) : Prop :=
  (spec_built spec = true -> wk_Image host = builtImageRef (wk_ID host)).

(** No row and nothing on the daemon, unless a failure was logged. *)
Definition no_trace (s0 : state) (spec : Spec) (s : state) : Prop :=
  ls_logged s = ls_logged s0 ->
  ls_tables s = ls_tables s0 /\ forall o, has (st_world (ls_host s)) o -> has (st_world (ls_host s0)) o \/ spec_base opts spec o.

Lemma discard_no_trace s0 spec host :
  as_planned spec host -> triple (standing s0 spec host) (discardHost host) (fun r s => match r with inl _ => no_trace s0 spec s | inr _ => False end).
Proof.
  intros Hplan s r s' E (Hg & Ht & Hl). unfold discardHost, mbind, L_bind, EM_bind, attempt, hosting in E.
  destruct (Destroy Detached host (ls_host s)) as [[ws|e] h] eqn:Ed; injection E as <- <-.
  - intros _. split; [exact Ht|]. intros o Ho. destruct (destroy_removes_all _ _ _ _ _ Ed) as (Hgone & _ & _).
    destruct (Hgone o Ho) as (Hold & Hc & Hown). destruct Hg as [Hg _]. destruct (Hg o Hold) as [|[Hb|Hb]]; [by left|by right|].
    exfalso. apply Hown. destruct Hb as [Hb|[Hb|[Hb ->]]]; [by left|by right; left|]. right. right. split; [|done].
    apply String.eqb_eq. by apply Hplan.
  - intros Hsame. exfalso. unfold logs, update in Hsame. cbn in Hsame. rewrite Hl in Hsame.
    apply (f_equal length) in Hsame. rewrite length_app in Hsame. cbn in Hsame. lia.
Qed.

Lemma or_destroy_no_trace {A} s0 spec host (m : @L W A) (Q : A -> state -> Prop) :
  as_planned spec host ->
  triple (standing s0 spec host) m (fun r s => match r with inl a => Q a s | inr _ => standing s0 spec host s end) ->
  triple (standing s0 spec host) (or_destroy host m) (fun r s => match r with inl a => Q a s | inr _ => no_trace s0 spec s end).
Proof.
  intros Hplan Hm. unfold or_destroy. eapply triple_bind with (R := fun r s => match r with
    | inl (inl a) => Q a s | inl (inr _) => standing s0 spec host s | inr _ => False end); [| |done].
  - apply triple_attempt. eapply triple_conseq; [exact Hm|done|]. by intros [a|e] s Hs.
  - intros [a|e]; [by apply triple_ret|]. eapply triple_bind; [by apply discard_no_trace| |done]. intros u. by apply triple_fails.
Qed.

Lemma hosting_standing {A} s0 spec host (m : @Host.M W A) :
  keeps quieter m -> triple (standing s0 spec host) (hosting m) (fun _ => standing s0 spec host).
Proof.
  intros Hq s r s' E ((Ho & Hw) & Ht & Hl). unfold hosting in E. destruct (m (ls_host s)) as [r' h] eqn:Em. injection E as <- <-.
  destruct (Hq _ _ _ Em) as [Hn Hw']. split; [|by split]. split; [|by rewrite <- Hw]. intros o Hh. apply Ho, Hn, Hh.
Qed.

Lemma head_standing s0 spec host ctx h :
  triple (standing s0 spec host) (head ctx h) (fun r s => match r with inl _ => standing s0 spec host s | inr _ => False end).
Proof.
  unfold head. set (Ok := fun {A} (r : A + failure) s => match r with inl _ => standing s0 spec host s | inr _ => False end).
  assert (Hat : forall A (m : @L W A), triple (standing s0 spec host) m (fun _ => standing s0 spec host) ->
    triple (standing s0 spec host) (attempt m) (Ok _)).
  { intros A m Hm. apply triple_attempt. exact Hm. }
  eapply triple_bind with (R := Ok _); [apply Hat, hosting_standing, keeps_lift, _| |done].
  intros [ex|e]; [|by apply triple_ret].
  eapply triple_bind with (R := Ok _); [apply Hat|intros out; by apply triple_ret|done].
  eapply triple_bind with (R := fun _ => standing s0 spec host); [apply hosting_standing, quiet_call, git_adds| |done].
  intros [[code out] err]. apply triple_if; intros _; [by apply triple_ret|by apply triple_fails].
Qed.

Lemma standing_like s0 spec a b s :
  wk_ID a = wk_ID b -> wk_ContainerID a = wk_ContainerID b -> wk_Volume a = wk_Volume b -> standing s0 spec a s -> standing s0 spec b s.
Proof.
  intros Hi Hc Hv ((Ho & Hw) & Hr). split; [|exact Hr]. split; [|exact Hw]. intros o Hh. destruct (Ho o Hh) as [|[|Hown]]; [by left|by right; left|].
  right. right. unfold owned in *. by rewrite <- Hi, <- Hc, <- Hv.
Qed.

(** A program that changes nothing, whatever it answers. *)
Definition inert {A} (m : @L W A) : Prop := forall s, exists r, m s = (r, s).

Lemma inert_bind {A B} (m : @L W A) (k : A -> @L W B) s0 Q :
  inert m -> (forall a, triple (fun s => s = s0) (k a) Q) -> (forall e, Q (inr e) s0) -> triple (fun s => s = s0) (m ≫= k) Q.
Proof.
  intros Hm Hk He s r s' E ->. destruct (Hm s0) as [[a|e] Hr]; unfold mbind, L_bind, EM_bind in E; rewrite Hr in E.
  - exact (Hk a _ _ _ E eq_refl).
  - injection E as <- <-. apply He.
Qed.

Lemma inert_lift {A} (x : A + failure) : inert (lift x). Proof. intros s. destruct x; by eexists. Qed.
Lemma inert_getProject id : inert (getProject id). Proof. intros s. by eexists. Qed.
Lemma inert_reading {A} (f : Tables -> A + GoError) : inert (reading f). Proof. intros s. by eexists. Qed.

Lemma insert_standing s0 spec host w : triple (standing s0 spec host) (insertWorkspace w)
  (fun r s => match r with inl _ => True | inr _ => standing s0 spec host s end).
Proof.
  intros s r s' E Hs. unfold insertWorkspace in E. destruct (ls_projects s !! ws_ProjectID w); [|by injection E as <- <-].
  unfold sql in E. destruct (CreateWorkspace EmptyString _ w (ls_tables s)) as [[w'|e] t] eqn:Ec; injection E as <- <-; [done|].
  assert (Ht : t = ls_tables s).
  { unfold CreateWorkspace in Ec. cbv zeta in Ec. destruct (t_workspaces (ls_tables s) !! _); [by simplify_eq|].
    destruct (refers _ _ && refers _ _); by simplify_eq. }
  rewrite Ht. destruct Hs as (Hg & Htab & Hl). by split.
Qed.

Lemma Start_same ctx ws :
  triple (fun _ => True) (Start opts ctx ws) (fun r _ => match r with inl ws' => exists addr, ws' = with_state StateRunning (with_address addr ws) | inr _ => True end).
Proof.
  unfold Start. eapply triple_bind with (R := fun _ _ => True); [apply triple_any| |done]. intros u.
  eapply triple_bind with (R := fun _ _ => True); [apply triple_any| |done]. intros u1.
  eapply triple_bind with (R := fun _ _ => True); [apply triple_any| |done]. intros addr. cbv zeta.
  eapply triple_bind with (R := fun _ _ => True); [apply triple_any| |done]. intros u2.
  eapply triple_bind with (R := fun _ _ => True); [apply triple_any| |done]. intros u3. apply triple_ret. intros s _. by exists addr.
Qed.

Lemma start_standing ctx s0 spec host :
  triple (standing s0 spec host) (hosting (Start opts ctx host)) (fun r s => match r with
    | inl started => standing s0 spec started s /\ wk_Image started = wk_Image host /\ wk_ID started = wk_ID host
    | inr _ => standing s0 spec host s end).
Proof.
  intros s r s' E Hs. pose proof (hosting_standing s0 spec host _ (quiet_Start opts ctx host) s r s' E Hs) as Hs'.
  destruct r as [started|e]; [|exact Hs']. unfold hosting in E. destruct (Start opts ctx host (ls_host s)) as [[ws'|e] h] eqn:Em; simplify_eq.
  destruct (Start_same ctx host _ _ _ Em I) as [addr ->]. by repeat split; try apply Hs'.
Qed.

(** When it was the creation of the container that failed, the daemon answered
    so, and what had to be removed then was. *)
Definition answered (ctx : Ctx) (t1 t2 : random) (s0 : state) (e : failure) (s' : state) : Prop :=
  forall spec err h, Create opts ctx (inl []) t1 t2 spec (ls_host s0) = (inr err, h) -> e = Plain err -> s' = with_host h s0 ->
  ~ cut_off err /\ st_warned h = st_warned (ls_host s0).

Lemma create_standing ctx t1 t2 spec s0 :
  triple (fun s => s = s0) (hosting (Create opts ctx (inl []) t1 t2 spec)) (fun r s => match r with
    | inl host => standing s0 spec host s /\ as_planned spec host | inr e => answered ctx t1 t2 s0 e s -> no_trace s0 spec s end).
Proof.
  intros s r s' E ->. unfold hosting in E. destruct (Create opts ctx (inl []) t1 t2 spec (ls_host s0)) as [[host|err] h] eqn:Ec; injection E as <- <-.
  - destruct (Create_clean opts (ls_host s0) ctx (inl []) t1 t2 spec _ _ _ Ec eq_refl) as (Hg & id & token & hub & at_ & cid & ->).
    split; [by split|]. unfold as_planned, planned, spec_built. cbn. by destruct (String.eqb (sp_BuildContext spec) EmptyString).
  - intros Ha. destruct (Ha _ _ _ Ec eq_refl eq_refl) as [Hcut Hw].
    destruct (create_leaves_nothing _ _ _ _ _ _ _ _ _ Ec Hcut Hw) as [Ho _]. intros _. by split.
Qed.

End creating.

(** ** Idle workspaces *)

(** The rows a holder answers for: its own, and those of the worktrees it
    holds. *)
Definition answers_for (h : string) (w : WorkspaceRow) : Prop := holder_of w = h.

(** A use of the holder is recorded, and every one recorded is at least the
    timeout ago. *)
Definition unused (u : gmap string Z) (all : list WorkspaceRow) (now_ timeout : Z) (h : string) : Prop :=
  (exists w t, w ∈ all /\ answers_for h w /\ u !! ws_ID w = Some t) /\
  forall w t, w ∈ all -> answers_for h w -> u !! ws_ID w = Some t -> timeout <= now_ - t.

(** The recorded uses a holder answers for, and the latest of some times. *)
Definition uses_of (u : gmap string Z) (h : string) (all : list WorkspaceRow) : list Z :=
  omap (fun w => if decide (holder_of w = h) then u !! ws_ID w else None) all.
Definition later (m : option Z) (t : Z) : option Z := match m with Some t' => if t' <? t then Some t else m | None => Some t end.
Definition latest (l : list Z) : option Z := foldl later None l.

Lemma latest_some l m : is_Some (foldl later (Some m) l).
Proof. revert m. induction l as [|x l IH]; intros m; [by eexists|]. cbn. destruct (m <? x); apply IH. Qed.

Lemma latest_spec l t : latest l = Some t <-> t ∈ l /\ forall t', t' ∈ l -> t' <= t.
Proof.
  revert t. induction l as [|x l IH] using rev_ind; intros t; [split; [by intros|intros [Hx _]; by apply not_elem_of_nil in Hx]|].
  unfold latest in *. rewrite foldl_app. cbn [foldl].
  assert (Hin : forall y, y ∈ l ++ [x] <-> y ∈ l \/ y = x) by (intros y; by rewrite elem_of_app, list_elem_of_singleton).
  destruct (foldl later None l) as [m|] eqn:Hm; cbn beta iota delta [later].
  - destruct (proj1 (IH m) eq_refl) as [Hml Hmax]. destruct (m <? x) eqn:Hc; bool_lia; split.
    + intros [= <-]. split; [apply Hin; auto|]. intros t' [Ht| ->]%Hin; [specialize (Hmax _ Ht)|]; lia.
    + intros [Ht Hle]. apply Hin in Ht as [Ht|Ht]; [specialize (Hmax _ Ht); specialize (Hle x (proj2 (Hin x) (or_intror eq_refl))); lia|by subst].
    + intros [= <-]. split; [apply Hin; auto|]. intros t' [Ht| ->]%Hin; [by apply Hmax|lia].
    + intros [Ht Hle]. apply Hin in Ht as [Ht|Ht]; f_equal.
      * specialize (Hmax _ Ht). specialize (Hle m (proj2 (Hin m) (or_introl Hml))). lia.
      * specialize (Hle m (proj2 (Hin m) (or_introl Hml))). lia.
  - destruct l as [|y l].
    + cbn. split; [intros [= <-]; split; [by left|intros t' Ht%list_elem_of_singleton; lia]|]. by intros [Ht%list_elem_of_singleton _]; subst.
    + exfalso. cbn [foldl later] in Hm. destruct (latest_some l y) as [z Hz]. congruence.
Qed.

Lemma last_uses_latest u all h : last_uses u all !! h = latest (uses_of u h all).
Proof.
  induction all as [|w all IH] using rev_ind; [done|]. unfold last_uses, uses_of, latest in *. rewrite foldl_app, omap_app, foldl_app. cbn [foldl omap list_omap].
  case_decide as Hw.
  - subst h. destruct (u !! ws_ID w) as [t|]; [|done]. cbn [foldl]. rewrite <- IH.
    destruct (foldl _ ∅ all !! holder_of w) as [t'|] eqn:Hl; cbn [later]; [destruct (t' <? t); [|done]|]; apply lookup_insert_eq.
  - rewrite <- IH. destruct (u !! ws_ID w) as [t|]; [|done].
    destruct (foldl _ ∅ all !! holder_of w) as [t'|]; [destruct (t' <? t); [|done]|]; by apply lookup_insert_ne.
Qed.

Lemma unused_spec u all now_ timeout h : unused u all now_ timeout h <-> exists t, last_uses u all !! h = Some t /\ timeout <= now_ - t.
Proof.
  assert (Hin : forall t, t ∈ uses_of u h all <-> exists w, w ∈ all /\ answers_for h w /\ u !! ws_ID w = Some t).
  { intros t. unfold uses_of. rewrite list_elem_of_omap. split; intros (w & Hw & Ht); exists w; (split; [done|]).
    - by case_decide.
    - destruct Ht as [Hh Ht]. by rewrite decide_True. }
  setoid_rewrite last_uses_latest. setoid_rewrite latest_spec. split.
  - intros [(w & t & Hw & Hh & Ht) Hall]. destruct (latest (uses_of u h all)) as [m|] eqn:Hm.
    + pose proof (proj1 (latest_spec _ _) Hm) as [Hml Hmax]. exists m. split; [done|]. apply Hin in Hml as (v & Hv & Hvh & Hvt). by eapply Hall.
    + exfalso. assert (Ht' : t ∈ uses_of u h all) by (apply Hin; eauto). destruct (uses_of u h all) as [|x l]; [by apply not_elem_of_nil in Ht'|].
      destruct (latest_some l x) as [z Hz]. unfold latest in Hm. cbn [foldl later] in Hm. congruence.
  - intros (t & (Hml & Hmax) & Hle). apply Hin in Hml as (w & Hw & Hh & Ht). split; [by exists w, t|].
    intros v t' Hv Hvh Hvt. specialize (Hmax t' (proj2 (Hin t') (ex_intro _ v (conj Hv (conj Hvh Hvt))))). lia.
Qed.

Definition is_idle (u : gmap string Z) (all : list WorkspaceRow) (now_ timeout : Z) (w : WorkspaceRow) : Prop :=
  ws_State w = StateRunning /\ ws_WorktreeOf w = EmptyString /\ unused u all now_ timeout (ws_ID w).

Lemma idle_iff all now_ timeout u w : w ∈ (idle all now_ timeout u).1 <-> w ∈ all /\ is_idle u all now_ timeout w.
Proof.
  unfold is_idle. rewrite unused_spec. unfold idle. generalize (last_uses u all) as last.
  assert (H : forall (last : gmap string Z) l (out : list WorkspaceRow) (v : gmap string Z), w ∈ (foldl (fun '(out, u) (w : WorkspaceRow) =>
      if negb (String.eqb (ws_State w) StateRunning) then (out, delete (ws_ID w) u)
      else if negb (String.eqb (ws_WorktreeOf w) EmptyString) then (out, u)
      else match last !! ws_ID w with
      | None => (out, <[ws_ID w := now_]> u)
      | Some t => if timeout <=? now_ - t then (out ++ [w], u) else (out, u)
      end) (out, v) l).1 <-> w ∈ out \/ w ∈ l /\ ws_State w = StateRunning /\ ws_WorktreeOf w = EmptyString /\
        exists t, (last : gmap string Z) !! ws_ID w = Some t /\ timeout <= now_ - t).
  { intros last l. induction l as [|x l IH]; intros out v; cbn [foldl].
    { split; [by left|]. intros [|[Hx _]]; [done|by apply not_elem_of_nil in Hx]. }
    rewrite elem_of_cons. destruct (String.eqb_spec (ws_State x) StateRunning) as [Hr|Hr]; cbn [negb].
    2: { rewrite IH. split; [naive_solver|]. intros [|([->|Hw] & Hs & Hx)]; [by left|done|right; auto]. }
    destruct (String.eqb_spec (ws_WorktreeOf x) EmptyString) as [Ho|Ho]; cbn [negb].
    2: { rewrite IH. split; [naive_solver|]. intros [|([->|Hw] & Hs & Hx & Ht)]; [by left|done|right; auto]. }
    destruct (last !! ws_ID x) as [t|] eqn:Hl.
    2: { rewrite IH. split; [naive_solver|]. intros [|([->|Hw] & Hs & Hx & (t & Ht & Hle))]; [by left|congruence|right; eauto 10]. }
    destruct (timeout <=? now_ - t) eqn:Hc; bool_lia; rewrite IH.
    - rewrite elem_of_app, list_elem_of_singleton. split; [|naive_solver].
      intros [[|Heq]|(Hw & Hrest)]; [by left| |right; auto]. subst w. right. split; [by left|]. eauto.
    - split; [naive_solver|]. intros [|([->|Hw] & Hs & Hx & (t' & Ht & Hle))]; [by left| |right; eauto 10].
      exfalso. rewrite Hl in Ht. injection Ht as <-. lia. }
  intros last. rewrite H. split; [|by right]. intros [Hx|]; [by apply not_elem_of_nil in Hx|done].
Qed.

(** ** Deleting a project *)

(** Which rows there are, and whose worktrees they are. *)
Definition holders (t : Tables) : gmap string string := ws_WorktreeOf <$> t_workspaces t.

Section deleting.
Context {W : Type} `{HE : Engine W} `{HB : Library} (opts : Options) (ends : string -> bool).
Notation state := (@LS W).

(** Rows of workspaces only go, and stay whose they were; projects stay. *)
Definition shrinks : relation state := fun s s' => holders (ls_tables s') ⊆ holders (ls_tables s) /\ ls_projects s' = ls_projects s.
#[local] Instance shrinks_refl : Reflexive shrinks. Proof. intros s. by split. Qed.
#[local] Instance shrinks_trans : Transitive shrinks. Proof. intros s s1 s2 [H1 P1] [H2 P2]. split; by etrans. Qed.

Lemma DeleteWorkspace_holders id t :
  holders (DeleteWorkspace id t).2 ⊆ holders t /\
  ((DeleteWorkspace id t).1 = None -> forall w, holders t !! w = Some id -> id <> EmptyString -> holders (DeleteWorkspace id t).2 !! w = None).
Proof.
  unfold DeleteWorkspace, holders. destruct (t_workspaces t !! id) as [h|] eqn:Hh; cbn [fst snd t_workspaces]; [|split; [reflexivity|discriminate]].
  set (ws := t_workspaces t) in *. split.
  - apply map_subseteq_spec. intros w o Ho. apply lookup_fmap_Some in Ho as (w1 & <- & Hw1). apply lookup_fmap_Some in Hw1 as (w2 & <- & Hw2).
    apply map_lookup_filter_Some in Hw2 as [Hw2 _]. rewrite lookup_fmap, Hw2. cbn. by case_match.
  - intros _ w Hw Hne. apply lookup_fmap_Some in Hw as (r & Hr & Hw). rewrite !lookup_fmap.
    rewrite (proj2 (map_lookup_filter_None _ _ _)); [done|]. right. intros r' Hr'. cbn. rewrite Hr' in Hw. injection Hw as ->.
    assert (Hs : size ws <> 0%nat) by (by intros Hz%map_size_empty_iff; rewrite Hz in Hh).
    destruct (size ws) as [|n]; [done|]. cbn. rewrite Hr', Hr. destruct (String.eqb_spec id EmptyString); [done|]. cbn.
    destruct n; cbn; rewrite String.eqb_refl; cbn; by rewrite orb_true_r.
Qed.

(** Neither table changes. *)
Definition still : relation state := fun s s' => ls_tables s' = ls_tables s /\ ls_projects s' = ls_projects s.
#[local] Instance still_refl : Reflexive still. Proof. intros s. by split. Qed.
#[local] Instance still_trans : Transitive still. Proof. intros s s1 s2 [H1 P1] [H2 P2]. split; by etrans. Qed.

Lemma still_hosting {A} (m : @Host.M W A) : keeps still (hosting m).
Proof. intros s r s' E'. unfold hosting in E'. destruct (m _). by injection E' as <- <-. Qed.
Lemma still_stop sid : keeps still (stop ends sid : @L W unit).
Proof. intros s r s' E'. unfold stop in E'. destruct (ls_runs s !! sid); [destruct (ends sid)|]; by injection E' as <- <-. Qed.
Lemma keeps_each {A} (R : relation state) `{!Reflexive R, !Transitive R} (f : A -> @L W unit) l : (forall a, keeps R (f a)) -> keeps R (each f l).
Proof. intros Hf. induction l as [|a l IH]; [by apply keeps_ret|]. apply keeps_bind; [done|apply Hf|intros u; apply IH]. Qed.

(** Programs keep a relation when their parts do. *)
Ltac keeping tac :=
  repeat first [progress intros | tac | apply keeps_each; [apply _|apply _|] | apply keeps_ret, _ | apply keeps_fails, _
    | apply keeps_look, _ | apply keeps_lift, _ | apply keeps_attempt | apply keeps_bind; [apply _| |] | apply keeps_if | case_match].

Lemma still_stopRunsIn ws : keeps still (stopRunsIn ends ws : @L W unit).
Proof. unfold stopRunsIn, stopSessionsOf, peek. keeping ltac:(first [apply still_stop|apply keeps_update; done]). Qed.

Lemma shrinks_still {A} (m : @L W A) : keeps still m -> keeps shrinks m.
Proof. intros Hm s r s' E'. destruct (Hm _ _ _ E') as [Ht Hp]. split; [by rewrite Ht|done]. Qed.
Lemma shrinks_hosting {A} (m : @Host.M W A) : keeps shrinks (hosting m). Proof. apply shrinks_still, still_hosting. Qed.
Lemma shrinks_stopRunsIn ws : keeps shrinks (stopRunsIn ends ws : @L W unit). Proof. apply shrinks_still, still_stopRunsIn. Qed.
Lemma shrinks_locate ctx ws : keeps shrinks (locate opts ctx ws : @L W Workspace). Proof. apply shrinks_hosting. Qed.
Lemma shrinks_update f : (forall s, still s (f s)) -> keeps shrinks (update f : @L W unit).
Proof. intros Hf. by apply shrinks_still, keeps_update. Qed.
Lemma shrinks_delete_row id : keeps shrinks (delete_row id : @L W unit).
Proof.
  intros s r s' E'. unfold delete_row, sql in E'. destruct (DeleteWorkspace_holders id (ls_tables s)) as [Hh _].
  destruct (DeleteWorkspace id (ls_tables s)) as [[e|] t]; by injection E' as <- <-.
Qed.

Ltac shrinking := keeping ltac:(first [apply shrinks_stopRunsIn | apply shrinks_locate | apply shrinks_hosting | apply shrinks_delete_row
  | apply shrinks_update; done]).

Lemma shrinks_destroyWorkspace ctx ws : keeps shrinks (destroyWorkspace opts ends ctx ws).
Proof. unfold destroyWorkspace, destroyWorktree, workspaceState, peek. shrinking. Qed.

(** ** What is gone stays gone *)

Definition gone (w : string) (s : state) : Prop := holders (ls_tables s) !! w = None.
Definition within_rows (h : gmap string string) (s : state) : Prop := holders (ls_tables s) ⊆ h.

Lemma kept_gone {A} (m : @L W A) w : keeps shrinks m -> triple (gone w) m (fun _ => gone w).
Proof. intros Hm s r s' E' Hw. eapply lookup_weaken_None; [exact Hw|]. by destruct (Hm _ _ _ E'). Qed.
Lemma kept_rows {A} (m : @L W A) h : keeps shrinks m -> triple (within_rows h) m (fun _ => within_rows h).
Proof. intros Hm s r s' E' Hw. unfold within_rows. etrans; [|exact Hw]. by destruct (Hm _ _ _ E'). Qed.

Lemma delete_row_takes h id w : h !! w = Some id -> id <> EmptyString ->
  triple (within_rows h) (delete_row id) (fun r s => match r with inl _ => gone w s | inr _ => True end).
Proof.
  intros Hw Hid s r s' E' Hs. unfold delete_row, sql in E'. destruct (DeleteWorkspace_holders id (ls_tables s)) as [Hsub Htake].
  destruct (DeleteWorkspace id (ls_tables s)) as [[e|] t]; injection E' as <- <-; [done|]. unfold gone.
  destruct (holders (ls_tables s) !! w) as [o|] eqn:Ho; [|by eapply lookup_weaken_None].
  apply Htake; [done| |done]. rewrite Ho. eapply lookup_weaken in Ho; [|exact Hs]. congruence.
Qed.

Lemma delete_row_fails w : triple (gone w) (delete_row w) (fun r _ => exists e, r = inr e).
Proof.
  intros s r s' E' Hs. unfold delete_row, sql, DeleteWorkspace in E'. unfold gone, holders in Hs. rewrite lookup_fmap in Hs. apply fmap_None in Hs. rewrite Hs in E'.
  injection E' as <- <-. by eexists.
Qed.

(** A step that only shrinks the rows, before the others. *)
Tactic Notation "kept_step" constr(P) tactic3(tac) := eapply triple_bind with (R := fun _ => P); [tac|intros ?|done].

(** Destroying a workspace only shrinks the rows until it removes its row. *)
Lemma destroyWorkspace_ends ctx ws (P : state -> Prop) (Q : unit + failure -> state -> Prop) :
  (forall A (m : @L W A), keeps shrinks m -> triple P m (fun _ => P)) -> (forall e s, Q (inr e) s) ->
  (forall m : @L W unit, keeps shrinks m -> triple P (delete_row (ws_ID ws) ;; m) Q) ->
  triple P (destroyWorkspace opts ends ctx ws) Q.
Proof.
  intros HP HQ Hend. unfold destroyWorkspace, destroyWorktree, peek. apply triple_if; intros _.
  - kept_step P (apply HP; shrinking).
    kept_step P (apply HP; shrinking).
    apply Hend. unfold workspaceState. shrinking.
  - kept_step P (apply HP; shrinking). kept_step P (apply HP, shrinks_stopRunsIn).
    kept_step P (apply HP; shrinking). kept_step P (apply HP; shrinking).
    apply Hend. unfold workspaceState. shrinking.
Qed.

Lemma destroyWorkspace_takes ctx ws h w : h !! w = Some (ws_ID ws) -> ws_ID ws <> EmptyString ->
  triple (within_rows h) (destroyWorkspace opts ends ctx ws) (fun r s => match r with inl _ => gone w s | inr _ => True end).
Proof.
  intros Hw Hid. apply destroyWorkspace_ends; [intros A m; apply kept_rows|done|]. intros m Hm.
  eapply triple_bind; [by apply delete_row_takes| |done]. intros u. eapply triple_conseq; [by apply kept_gone|done|]. by intros [v|e] s Hs.
Qed.

Lemma destroyWorkspace_fails ctx ws : triple (gone (ws_ID ws)) (destroyWorkspace opts ends ctx ws) (fun r _ => exists e, r = inr e).
Proof.
  apply destroyWorkspace_ends; [intros A m; apply kept_gone|by eexists|]. intros m _.
  eapply triple_bind; [apply delete_row_fails| |by eexists]. intros u s r s' _ [e He]. discriminate.
Qed.

Lemma each_app {A} (f : A -> @L W unit) l1 l2 s : each f (l1 ++ l2) s = (each f l1 ;; each f l2) s.
Proof.
  revert s. induction l1 as [|a l1 IH]; intros s; [done|]. cbn [app each]. unfold mbind, L_bind, EM_bind in *.
  destruct (f a s) as [[u|e] s1]; [apply IH|done].
Qed.

Lemma triple_ext {A} (m n : @L W A) P Q : (forall s, m s = n s) -> triple P n Q -> triple P m Q.
Proof. intros Heq Hn s r s' E'. rewrite Heq in E'. by apply Hn. Qed.

Lemma each_stops ctx h w l1 l2 l3 rows : rows !! ws_ID w = Some (ws_ID h) -> ws_ID h <> EmptyString ->
  triple (within_rows rows) (each (destroyWorkspace opts ends ctx) (l1 ++ h :: l2 ++ w :: l3)) (fun r _ => exists e, r = inr e).
Proof.
  intros Hw Hne. assert (Hkept : forall l, keeps shrinks (each (destroyWorkspace opts ends ctx) l)).
  { intros l. apply keeps_each; [apply _|apply _|]. intros v. apply shrinks_destroyWorkspace. }
  eapply triple_ext; [apply each_app|]. eapply triple_bind; [apply kept_rows, Hkept| |by eexists]. intros u. cbn [each].
  eapply triple_bind; [by eapply destroyWorkspace_takes| |by eexists]. intros u1.
  eapply triple_ext; [apply each_app|]. eapply triple_bind; [apply kept_gone, Hkept| |by eexists]. intros u2. cbn [each].
  eapply triple_bind; [apply destroyWorkspace_fails| |by eexists]. intros u3 s r s' _ [e He]. discriminate.
Qed.

(** Deleting a project that has a worktree fails, and the project stays:
    its workspaces are destroyed oldest first, the row of the worktree goes with
    that of its holder, and the worktree is then not found. *)
Theorem project_deletion_stops ctx id s r s' h w l1 l2 l3 :
  Workspaces id (ls_tables s) = l1 ++ h :: l2 ++ w :: l3 ->
  t_workspaces (ls_tables s) !! ws_ID w = Some w -> ws_WorktreeOf w = ws_ID h -> ws_ID h <> EmptyString ->
  handleDeleteProject opts ends ctx id s = (r, s') ->
  (exists e, r = inr e) /\ ls_projects s' = ls_projects s.
Proof.
  intros Hl Hw Hh Hne E'. unfold handleDeleteProject, getProject, peek, look, mbind, L_bind, EM_bind in E'.
  destruct (ls_projects s !! id); [|injection E' as <- <-; split; [by eexists|done]]. rewrite Hl in E'.
  destruct (each _ _ s) as [r1 s1] eqn:E1.
  destruct (each_stops ctx h w l1 l2 l3 (holders (ls_tables s))) with (2 := Hne) (3 := E1) as [e ->].
  - unfold holders. by rewrite lookup_fmap, Hw, <- Hh.
  - unfold within_rows. reflexivity.
  - injection E' as <- <-. split; [by eexists|].
    destruct (keeps_each shrinks (destroyWorkspace opts ends ctx) (l1 ++ h :: l2 ++ w :: l3) (shrinks_destroyWorkspace ctx) _ _ _ E1) as [_ Hp].
    exact Hp.
Qed.

(** ** Whom the idle sweep leaves alone *)

(** Rows are kept under their ids, none of them empty. *)
Definition keyed (t : Tables) : Prop := map_Forall (fun id w => ws_ID w = id /\ id <> EmptyString) (t_workspaces t).
Definition spared (w : WorkspaceRow) (s : state) : Prop := keyed (ls_tables s) /\ t_workspaces (ls_tables s) !! ws_ID w = Some w.

Lemma kept_spared {A} (m : @L W A) w : keeps still m -> triple (spared w) m (fun _ => spared w).
Proof. intros Hm s r s' E' [Hk Hw]. destruct (Hm _ _ _ E') as [Ht _]. unfold spared. by rewrite Ht. Qed.

Lemma Workspaces_rows project t w : keyed t -> w ∈ Workspaces project t -> t_workspaces t !! ws_ID w = Some w.
Proof.
  intros Hk Hw. unfold Workspaces in Hw. rewrite merge_sort_Permutation in Hw. apply list_elem_of_filter in Hw as [_ Hw].
  apply list_elem_of_fmap in Hw as ([id w1] & -> & Hw). apply elem_of_map_to_list in Hw. cbn. by destruct (Hk _ _ Hw) as [-> _].
Qed.

Lemma SetWorkspaceState_spares w id state_ container :
  id <> ws_ID w -> triple (spared w) (sql (SetWorkspaceState id state_ container)) (fun _ => spared w).
Proof.
  intros Hne s r s' E' [Hk Hw]. unfold sql, SetWorkspaceState, change_workspace in E'.
  destruct (t_workspaces (ls_tables s) !! id) as [v|] eqn:Hv; injection E' as <- <-; [|by split].
  destruct (Hk _ _ Hv) as [Hid Hid']. unfold spared, keyed, sets_workspace. cbn. rewrite Hid. split.
  - by apply map_Forall_insert_2.
  - by rewrite lookup_insert_ne.
Qed.

Lemma triple_each {A} (P : state -> Prop) (f : A -> @L W unit) l :
  (forall a, a ∈ l -> triple P (f a) (fun _ => P)) -> triple P (each f l) (fun _ => P).
Proof.
  induction l as [|a l IH]; intros Hf; [by apply triple_ret|]. cbn [each].
  eapply triple_bind with (R := fun _ => P); [apply Hf; by left| |done]. intros u. apply IH. intros b Hb. apply Hf. by right.
Qed.

Lemma changeState_spares ctx w c : ws_ID c <> ws_ID w -> ws_ID c <> ws_WorktreeOf w ->
  triple (spared w) (changeState opts ctx c (stopWorkspace ends ctx)) (fun _ => spared w).
Proof.
  intros Hc Hh. unfold changeState, stopWorkspace, peek.
  eapply triple_bind with (R := fun _ => spared w); [apply kept_spared, still_hosting|intros host|done].
  eapply triple_bind with (R := fun _ => spared w); [apply kept_spared; keeping ltac:(first [apply still_stopRunsIn|apply still_hosting])|intros host'|done].
  eapply triple_bind with (R := fun r s => spared w s /\ match r with inl l => forall held, held ∈ l -> ws_ID held <> ws_ID w | inr _ => True end);
    [|intros l|by intros e s [Hs _]].
  { apply triple_look. intros s [Hk Hw]. split; [by split|]. intros held Hheld Heq. unfold worktreesOf in Hheld. case_match; [by apply not_elem_of_nil in Hheld|].
    apply list_elem_of_filter in Hheld as [Ho Hheld]. apply Workspaces_rows in Hheld; [|done]. rewrite Heq, Hw in Hheld. injection Hheld as ->. by apply Hh. }
  apply triple_and. intros Hl. eapply triple_bind with (R := fun _ => spared w); [|by intros u; apply triple_ret|done].
  apply triple_each. intros held Hheld. eapply triple_bind with (R := fun _ => spared w); [|intros row; by apply kept_spared, keeps_update|done].
  apply SetWorkspaceState_spares. apply elem_of_cons in Hheld as [->|Hheld]; [done|by apply Hl].
Qed.

Lemma used_grows id at_ u x t : u !! x = Some t -> exists t', used id at_ u !! x = Some t' /\ t <= t'.
Proof.
  intros Hx. unfold used. case_match; [by exists t|]. destruct (decide (id = x)) as [->|Hne].
  - rewrite Hx. destruct (t <? at_) eqn:Ht; bool_lia; [exists at_; by rewrite lookup_insert_eq; split; [|lia]|by exists t].
  - exists t. split; [|done]. destruct (u !! id); [case_match; [|done]|]; by rewrite lookup_insert_ne.
Qed.

Lemma used_uses id at_ u : id <> EmptyString -> exists t', used id at_ u !! id = Some t' /\ at_ <= t'.
Proof.
  intros Hid. unfold used. destruct (String.eqb_spec id EmptyString); [done|].
  destruct (u !! id) as [t|] eqn:Hx; [destruct (t <? at_) eqn:Ht; bool_lia|]; [exists at_| |exists at_]; try (by rewrite lookup_insert_eq).
  by exists t.
Qed.

Definition all_used (runs : list (string * string)) (now_ : Z) (u : gmap string Z) : gmap string Z := foldr (fun p u => used p.2 now_ u) u runs.
Lemma all_used_grows runs now_ u x t : u !! x = Some t -> exists t', all_used runs now_ u !! x = Some t' /\ t <= t'.
Proof.
  intros Hx. induction runs as [|p runs (t1 & Ht1 & Hle)]; [by exists t|]. cbn [all_used foldr].
  destruct (used_grows p.2 now_ _ _ _ Ht1) as (t2 & Ht2 & Hle2). exists t2. split; [exact Ht2|lia].
Qed.
Lemma all_used_runs runs now_ u sid x : (sid, x) ∈ runs -> x <> EmptyString -> exists t', all_used runs now_ u !! x = Some t' /\ now_ <= t'.
Proof.
  intros Hin Hx. induction runs as [|p runs IH]; [by apply not_elem_of_nil in Hin|]. cbn [all_used foldr].
  apply elem_of_cons in Hin as [<-|Hin]; [by apply used_uses|]. destruct (IH Hin) as (t1 & Ht1 & Hle).
  destruct (used_grows p.2 now_ _ _ _ Ht1) as (t2 & Ht2 & Hle2). exists t2. split; [exact Ht2|lia].
Qed.

(** A run is going in the workspace, or it was used within the timeout. *)
Definition active (s : state) (now_ timeout : Z) (v : WorkspaceRow) : Prop :=
  (exists sid, ls_runs s !! sid = Some (ws_ID v)) \/ exists t, ls_used s !! ws_ID v = Some t /\ now_ - t < timeout.

End deleting.

(** ** Creating a project whose name is taken *)

Section duplicate.
Context {W : Type} `{HE : Engine W} `{HR : Repositories W} (hub_root : string).
Context (box : Box) (parse_remote : string -> option RemoteURL) (path_escape query_escape : string -> string).

Definition sent_credentials (req : createProjectRequest) : Credentials :=
  mkCredentials (trim_space (cj_RemoteUsername req)) (trim_space (cj_RemotePassword req)).

(** A well-formed request for a project that mirrors a remote. *)
Record remote_request (req : createProjectRequest) : Prop := {
  rr_kind : cj_Kind req = ProjectRemote;
  rr_url : trim_space (cj_RemoteURL req) <> EmptyString;
  rr_valid : validateRemoteURL parse_remote (trim_space (cj_RemoteURL req)) = None;
  rr_credentials : validateCredentials (sent_credentials req) = None;
}.

Definition in_world (w : W) (s : @LS W) : @LS W := with_host (mkSt w (st_grants (ls_host s)) (st_warned (ls_host s))) s.

Lemma mirror_done ctx p creds w2 (s : @LS W) :
  Mirror hub_root ctx (pj_Name p) (pj_RemoteURL p) creds (st_world (ls_host s)) = (None, w2) ->
  mirror hub_root parse_remote path_escape query_escape ctx p creds s = (inl tt, in_world w2 s).
Proof.
  intros Hm. unfold mirror, mbind, L_bind, EM_bind, attempt, hub_call, hosting, call. by rewrite Hm.
Qed.

Lemma CreateProject_taken newid p q (s : @LS W) :
  pj_Kind p = ProjectRemote -> q ∈ map snd (map_to_list (ls_projects s)) -> pj_Name q = pj_Name p ->
  CreateProject newid p s = (inr (Plain (wrap ("create project " +:+ pj_Name p) UniqueViolation)), s).
Proof.
  intros Hk Hq Hname. unfold CreateProject. cbn [pj_Kind pj_Name pj_ID]. rewrite Hk, String.eqb_refl. cbn [negb andb].
  rewrite (proj2 (existsb_exists _ _)); [done|]. apply list_elem_of_fmap in Hq as (kq & -> & Hkq). exists kq.
  split; [by apply list_elem_of_In|]. by rewrite Hname, String.eqb_refl, orb_true_r.
Qed.

(** Creating a remote project under a name that is taken fails, and by then
    the repository of the project that has the name was made a mirror of the new
    remote: [fetch --prune] ran there, and what it left is what stays. *)
Theorem taken_name_is_mirrored ctx newid nonce req s path w1 w2 q :
  remote_request req ->
  q ∈ map snd (map_to_list (ls_projects s)) -> pj_Name q = trim_space (cj_Name req) ->
  Init hub_root ctx (pj_Name q) (st_world (ls_host s)) = (inl path, w1) ->
  Mirror hub_root ctx (pj_Name q) (trim_space (cj_RemoteURL req)) (sent_credentials req) w1 = (None, w2) ->
  createProject hub_root box parse_remote path_escape query_escape ctx newid nonce req s =
    (inr (Plain (wrap ("create project " +:+ pj_Name q) UniqueViolation)), in_world w2 s).
Proof.
  intros [Hkind Hurl Hvalid Hcreds] Hq Hname Hinit Hmirror.
  unfold createProject. cbv zeta. cbn [pj_Kind pj_RemoteURL pj_Name pj_HostPath pj_DefaultBranch Username Password].
  fold (sent_credentials req). rewrite Hkind, String.eqb_refl. destruct (String.eqb_spec (trim_space (cj_RemoteURL req)) EmptyString); [done|].
  rewrite Hvalid, Hcreds. unfold mbind, L_bind, EM_bind, checks, ret.
  unfold hosting, call. cbn [pj_Name pj_RemoteURL]. rewrite <- Hname, Hinit. rewrite (mirror_done _ _ _ w2) by exact Hmirror.
  by rewrite (CreateProject_taken _ _ q).
Qed.
End duplicate.

(** ** The theorems, tried *)

Definition ex_row (id holder : string) (created : Z) : WorkspaceRow :=
  mkWorkspaceRow id "p1" id "main" EmptyString "sandbox" StateRunning "c1" EmptyString holder (sandbox_doc zeroSandbox) false false created.
Definition ex_project : ProjectRow := mkProject "p1" "demo" ProjectRemote "https://x/y" EmptyString EmptyString EmptyString "main" 0.
(** A holder and a worktree in it, with a run going in the worktree. *)
Definition ex_tables : Tables := mkTables (mkDB ∅ ∅) {["h"%string := ex_row "h" EmptyString 1; "t"%string := ex_row "t" "h" 2]} ∅.
Definition ex_server (full : bool) : @LS Sim :=
  mkLS (ex_state 100 full) ex_tables {["p1"%string := ex_project]} {["s1"%string := "t"%string]} {["h"%string := 0]} ∅ ∅ [] [] [].
Definition ex_settings : CDB := mkCDB ∅ ∅ ∅ ∅ (mkDB ∅ ∅).
Definition ex_request : createWorkspaceRequest := mkCreateWorkspace "p1" "try" EmptyString EmptyString EmptyString EmptyString EmptyString None.



Lemma project_deletion_stops_witness :
  exists r s', handleDeleteProject ex_options (fun _ => true) Detached "p1" (ex_server false) = (r, s') /\
    (exists e, r = inr e) /\ ls_projects s' = ls_projects (ex_server false).
Proof.
  eexists _, _. match goal with |- ?E /\ _ => assert (HE : E) by (vm_compute; reflexivity) end. split; [exact HE|].
  refine (project_deletion_stops ex_options (fun _ => true) Detached "p1" (ex_server false) _ _ (ex_row "h" EmptyString 1) (ex_row "t" "h" 2) [] [] [] _ _ _ _ HE).
  - vm_compute. reflexivity.
  - vm_compute. reflexivity.
  - reflexivity.
  - discriminate.
Defined.

Definition ex_box : Box := mkBox 0 0 (fun _ s => s) (fun _ s => Some s).
Definition ex_parse (raw : string) : option RemoteURL :=
  Some (mkRemoteURL (mkURL "https" "x" false EmptyString false EmptyString) EmptyString EmptyString None [] EmptyString raw).
Definition ex_again : createProjectRequest := mkCreateProject "demo" ProjectRemote "https://x/other" EmptyString EmptyString EmptyString EmptyString.

Lemma taken_name_is_mirrored_witness :
  createProject "/hub" ex_box ex_parse id id Detached "p2" "n" ex_again (ex_server false) =
    (inr (Plain (wrap "create project demo" UniqueViolation)), in_world (ex_sim 100 false) (ex_server false)).
Proof.
  apply (taken_name_is_mirrored "/hub" ex_box ex_parse id id Detached "p2" "n" ex_again (ex_server false)
    (show ["hub"; "demo.git"]%string) (ex_sim 100 false) (ex_sim 100 false) ex_project).
  - split; [reflexivity|discriminate|vm_compute; reflexivity|vm_compute; reflexivity].
  - vm_compute. left.
  - vm_compute. reflexivity.
  - vm_compute. reflexivity.
  - vm_compute. reflexivity.
Defined.
