(* ===== verification/SettingsClaims.v ===== *)
(** The claims about models and settings. Renaming a model: the settings that
    name it follow when its new name has a spelling both [%q] and JSON know,
    and not otherwise. Writing settings: whatever was written, each of the harness's own
    keys holds a value of its type and within its bounds, and what is read of
    it is that value. *)
From stdpp Require Import sorting.
From Stdlib Require Import Floats.SpecFloat.
From S2P Require Import Prelude GoStr Json Provider Sampling Failure Compaction Context Entries Net Search.
From S2P Require Import Tables Subagent Api Config Configuration Providers Sandbox ModelsApi Settings.
From stdpp Require Import options.
Open Scope Z_scope.

(** ** Characters *)

(** A character that decodes, with what follows it: it is one byte of ASCII or
    more bytes that are not, and it decodes the same before anything else. *)
Lemma decode_rune_ok b l :
  seg_ok (decode_rune b l) = true ->
  exists tl rest, seg_bytes (decode_rune b l) = b :: tl /\ l = tl ++ rest /\
    (forall l', decode_rune b (tl ++ l') = decode_rune b l) /\
    ((b < 128 /\ tl = [] /\ seg_rune (decode_rune b l) = b) \/ Forall (fun x => 128 <= x) (b :: tl)).
Proof.
  unfold decode_rune. intros H. destruct (b <? 128) eqn:E1.
  { exists [], l. bool_lia. split; [done|]. split; [done|]. split; [done|]. by left. }
  apply Z.ltb_ge in E1. assert (Hc : forall x, cont x = true -> 128 <= x) by (unfold cont; intros; lia).
  assert (Hlo : forall (c : bool) x y z, ((if c then x else 128) <=? y) && z = true -> 128 <= x -> 128 <= y).
  { intros c x y z Hx Hxx. apply andb_true_iff in Hx as [Hx _]. destruct c; lia. }
  destruct ((194 <=? b) && (b <=? 223)) eqn:E2; [|destruct ((224 <=? b) && (b <=? 239)) eqn:E3; [|destruct ((240 <=? b) && (b <=? 244)) eqn:E4; [|done]]].
  - destruct l as [|b1 l]; [done|]. destruct (cont b1) eqn:C1; [|done]. exists [b1], l. split; [done|]. split; [done|]. split; [|right; eauto].
    intros l'. cbn [app]. by rewrite C1.
  - destruct l as [|b1 [|b2 l]]; [done..|]. destruct (_ && cont b2) eqn:C; [|done]. exists [b1; b2], l. split; [done|]. split; [done|].
    split; [intros l'; cbn [app]; by rewrite C|]. right. apply andb_true_iff in C as [C1 C2]. repeat constructor; eauto;
      by eapply Hlo; [exact C1|lia].
  - destruct l as [|b1 [|b2 [|b3 l]]]; [done..|]. destruct (_ && cont b3) eqn:C; [|done]. exists [b1; b2; b3], l. split; [done|]. split; [done|].
    split; [intros l'; cbn [app]; by rewrite C|]. right. apply andb_true_iff in C as [[C1 C2]%andb_true_iff C3]. repeat constructor; eauto;
      by eapply Hlo; [exact C1|lia].
Qed.

Lemma segs_go_fuel n m l : (length l <= n)%nat -> (length l <= m)%nat -> segs_go n l = segs_go m l.
Proof.
  revert m l. induction n as [|n IH]; intros [|m] [|b l] Hn Hm; cbn in Hn, Hm; try done; try lia.
  cbn [segs_go]. f_equal. apply IH; rewrite length_drop; cbn [length];
    (assert (Hpos : (1 <= length (seg_bytes (decode_rune b l)))%nat) by (unfold decode_rune, bad_seg; repeat case_match; cbn; lia)); lia.
Qed.

(** A string cut into characters again after its first. *)
Lemma segs_app b tl rest :
  (forall l', decode_rune b (tl ++ l') = decode_rune b (tl ++ rest)) -> seg_bytes (decode_rune b (tl ++ rest)) = b :: tl ->
  segs ((b :: tl) ++ rest) = decode_rune b (tl ++ rest) :: segs rest.
Proof.
  intros _ Hb. unfold segs. cbn [app length segs_go]. rewrite Hb. f_equal. cbn [length drop]. rewrite drop_app_length.
  apply segs_go_fuel; [rewrite length_app; lia|lia].
Qed.

(** ** Spellings *)

Section spelling.
Context (is_print : Z -> bool).

(** What [%q] writes as it is, but for a quote and a backslash. *)
Definition plain_seg (g : seg) : Prop :=
  seg_ok g = true /\ 32 <= seg_rune g /\ seg_rune g <> 127 /\ (seg_rune g < 128 \/ is_print (seg_rune g) = true).
Definition printable (s : string) : Prop := Forall plain_seg (segs (bytes_of s)).

Definition escaped (g : seg) : bool := (seg_rune g =? 34) || (seg_rune g =? 92).

Lemma quote_plain g : plain_seg g -> quote_rune is_print g = if escaped g then [92; seg_rune g] else seg_bytes g.
Proof.
  intros (Hok & H32 & H127 & Hp). unfold quote_rune, escaped, go_quote_seg. rewrite Hok. cbn [negb orb].
  assert (Hif : (seg_rune g <? 128) || is_print (seg_rune g) = true) by (destruct Hp as [| ->]; [lia|by rewrite orb_true_r]).
  rewrite Hif. cbv iota. destruct ((seg_rune g =? 34) || (seg_rune g =? 92)); [done|].
  rewrite !(proj2 (Z.eqb_neq _ _)), (proj2 (Z.ltb_ge _ _)) by lia. done.
Qed.

Definition plain_byte (b : Z) : Prop := 32 <= b /\ b <> 34 /\ b <> 92.

Lemma scan_plain bs f rest :
  Forall plain_byte bs ->
  scan_string false (length bs + f) (bs ++ rest) = '(o, r) ← scan_string false f rest; Some (bs ++ o, r).
Proof.
  induction 1 as [|b bs (H1 & H2 & H3) _ IH]; [cbn; by destruct (scan_string false f rest) as [[]|]|].
  cbn [length app Nat.add scan_string]. rewrite (proj2 (Z.eqb_neq _ _) H2), (proj2 (Z.ltb_ge _ _) H1), (proj2 (Z.eqb_neq _ _) H3).
  cbn [andb]. assert (Hgoal : ('(o, r) ← scan_string false (length bs + f) (bs ++ rest); Some (b :: o, r)) =
    '(o, r) ← scan_string false f rest; Some (b :: bs ++ o, r)) by (rewrite IH; by destruct (scan_string false f rest) as [[]|]).
  by repeat case_match.
Qed.

Lemma plain_bytes b l : plain_seg (decode_rune b l) -> escaped (decode_rune b l) = false -> Forall plain_byte (seg_bytes (decode_rune b l)).
Proof.
  intros (Hok & H32 & _ & _) He. destruct (decode_rune_ok b l Hok) as (tl & rest & -> & _ & _ & [(Hb & -> & Hr)|Hall]).
  - unfold escaped in He. rewrite Hr in He, H32. apply orb_false_iff in He as [H1 H2]. repeat constructor; lia.
  - eapply Forall_impl; [exact Hall|]. unfold plain_byte. cbv beta. intros x Hx. lia.
Qed.

(** The content of a spelling, scanned and decoded. *)
Definition spelled (l : list Z) : list Z := concat (map (quote_rune is_print) (segs l)).

Lemma spelled_ind (P : list Z -> Prop) :
  P [] ->
  (forall b tl rest, Forall plain_seg (segs ((b :: tl) ++ rest)) -> plain_seg (decode_rune b (tl ++ rest)) ->
     seg_bytes (decode_rune b (tl ++ rest)) = b :: tl -> (forall l', decode_rune b (tl ++ l') = decode_rune b (tl ++ rest)) ->
     Forall plain_seg (segs rest) ->
     spelled ((b :: tl) ++ rest) = quote_rune is_print (decode_rune b (tl ++ rest)) ++ spelled rest -> P rest -> P ((b :: tl) ++ rest)) ->
  forall l, Forall plain_seg (segs l) -> P l.
Proof.
  intros H0 Hs l. remember (length l) as n eqn:Hn. revert l Hn. induction n as [n IH] using (well_founded_ind Nat.lt_wf_0). intros l -> Hl.
  destruct l as [|b l]; [done|]. assert (Hg : plain_seg (decode_rune b l)).
  { unfold segs in Hl. cbn [length segs_go] in Hl. by apply Forall_cons in Hl as [Hl _]. }
  destruct (decode_rune_ok b l) as (tl & rest & Hb & -> & Hloc & _); [apply Hg|].
  pose proof (segs_app b tl rest Hloc Hb) as Hsegs. change (b :: tl ++ rest) with ((b :: tl) ++ rest) in *.
  assert (Hrest : Forall plain_seg (segs rest)) by (rewrite Hsegs in Hl; by apply Forall_cons in Hl as [_ Hl]).
  apply Hs; try done; [by unfold spelled; rewrite Hsegs|]. eapply IH; [|reflexivity|done]. cbn. rewrite length_app. lia.
Qed.

Lemma escaped_ascii b l : plain_seg (decode_rune b l) -> escaped (decode_rune b l) = true -> seg_bytes (decode_rune b l) = [seg_rune (decode_rune b l)].
Proof.
  intros (Hok & _ & _ & _) He. destruct (decode_rune_ok b l Hok) as (tl & rest & Hb & Hl & _ & [(_ & -> & ->)|Hall]); [done|].
  exfalso. assert (Hlow : seg_rune (decode_rune b l) < 128) by (unfold escaped in He; lia).
  clear He Hl Hb. apply Forall_cons in Hall as [Hb Hall]. revert Hok Hlow. unfold decode_rune, bad_seg, rune_error, cont.
  rewrite (proj2 (Z.ltb_ge _ _) Hb). repeat case_match; cbn; try done; intros _; bool_lia; lia.
Qed.

Lemma scan_spelled l : Forall plain_seg (segs l) ->
  forall f rest, (length (spelled l) < f)%nat -> scan_string false f (spelled l ++ 34 :: rest) = Some (spelled l ++ [34], rest).
Proof.
  revert l. apply (spelled_ind (fun l => forall f rest, (length (spelled l) < f)%nat ->
    scan_string false f (spelled l ++ 34 :: rest) = Some (spelled l ++ [34], rest))).
  { intros [|f] rest Hf; [cbn in Hf; lia|done]. }
  intros b tl rest0 _ Hg Hb _ _ Heq IH f rest Hf. rewrite Heq in *. rewrite (quote_plain _ Hg) in *.
  destruct (escaped (decode_rune b (tl ++ rest0))) eqn:He.
  - destruct f as [|f]; [lia|]. cbn [app length] in *. set (r := seg_rune _) in *.
    assert (Hr : r = 34 \/ r = 92) by (unfold escaped in He; fold r in He; lia).
    cbn [scan_string]. change (92 =? 34) with false. change (92 <? 32) with false. change (92 =? 92) with true. cbv iota.
    destruct Hr as [-> | ->]; cbn [Z.eqb Pos.eqb orb]; rewrite IH by lia; done.
  - pose proof (plain_bytes _ _ Hg He) as Hp. rewrite <- app_assoc.
    replace f with (length (seg_bytes (decode_rune b (tl ++ rest0))) + (f - length (seg_bytes (decode_rune b (tl ++ rest0)))))%nat
      by (rewrite length_app in Hf; lia).
    rewrite scan_plain by done. rewrite length_app in Hf. rewrite IH by lia. cbn. by rewrite app_assoc.
Qed.

Lemma unquote_spelled l : Forall plain_seg (segs l) ->
  forall f, (length (spelled l) <= f)%nat -> unquote_go f (spelled l) = l.
Proof.
  revert l. apply (spelled_ind (fun l => forall f, (length (spelled l) <= f)%nat -> unquote_go f (spelled l) = l)).
  { by intros [|f] _. }
  intros b tl rest _ Hg Hb Hloc _ Heq IH f Hf. rewrite Heq in *. rewrite (quote_plain _ Hg) in *.
  destruct (escaped (decode_rune b (tl ++ rest))) eqn:He.
  - rewrite <- Hb, (escaped_ascii _ _ Hg He). destruct f as [|f]; [cbn in Hf; lia|]. cbn [app length] in *. set (r := seg_rune _) in *.
    assert (Hr : r = 34 \/ r = 92) by (unfold escaped in He; fold r in He; lia).
    cbn [unquote_go]. change (92 =? 92) with true. cbv iota. destruct Hr as [-> | ->]; cbn [Z.eqb Pos.eqb]; rewrite IH by lia; done.
  - pose proof (plain_bytes _ _ Hg He) as Hp. rewrite Hb in *. apply Forall_cons in Hp as [(_ & _ & H92) _].
    destruct f as [|f]; [cbn in Hf; lia|]. cbn [app unquote_go]. rewrite (proj2 (Z.eqb_neq _ _) H92), Hloc, Hb.
    destruct Hg as (-> & _). cbn [length drop app] in *. rewrite drop_app_length. f_equal. f_equal. apply IH. rewrite length_app in Hf. lia.
Qed.

(** The document of a name that is printable is the name. *)
Lemma jsonString_printable s : printable s -> jsonString is_print s = Some (JString s).
Proof.
  intros Hs. unfold jsonString, unquote, quoted. fold (spelled (bytes_of s)).
  assert (Hrange : Forall (fun z => 0 <= z < 256) (34 :: spelled (bytes_of s) ++ [34])).
  { constructor; [lia|]. apply Forall_app_2; [|repeat constructor; lia]. revert Hs. unfold printable.
    assert (Hb : Forall (fun z => 0 <= z < 256) (bytes_of s)) by apply bytes_of_range. generalize dependent (bytes_of s).
    intros l Hl Hp. revert l Hp Hl. apply (spelled_ind (fun l => Forall _ l -> Forall _ (spelled l))); [by constructor|].
    intros b tl rest _ Hg Hb _ _ Heq IH [Hbt Hrest]%Forall_app. rewrite Heq, (quote_plain _ Hg). apply Forall_app_2; [|by apply IH].
    destruct (escaped _) eqn:He; [|by rewrite Hb]. unfold escaped in He. repeat constructor; lia. }
  rewrite bytes_of_bytes by done. cbn [skip_ws is_ws]. change (is_ws 34) with false. cbv iota.
  rewrite (scan_spelled (bytes_of s) Hs _ []) by (rewrite length_app; cbn; lia). cbn [mbind option_bind skip_ws].
  rewrite removelast_last. unfold unquote_bytes. rewrite unquote_spelled by done. cbn. by rewrite of_bytes_of.
Qed.
End spelling.

(** ** Names *)

(** Rows are found by their ids and no two have one name, as the table's keys
    have it. *)
Record names_ok (t : CDB) : Prop := {
  by_id : forall k m, c_models t !! k = Some m -> m_ID m = k;
  one_name : forall k m k' m', c_models t !! k = Some m -> c_models t !! k' = Some m' -> m_Name m = m_Name m' -> k = k';
}.

Lemma find_named l name m : m ∈ l -> m_Name m = name -> (forall m', m' ∈ l -> m_Name m' = name -> m' = m) ->
  List.find (fun m => String.eqb (m_Name m) name) l = Some m.
Proof.
  intros Hin Hname Hone. destruct (List.find _ l) as [m'|] eqn:E.
  - apply List.find_some in E as [H1 H2]. apply list_elem_of_In in H1. apply String.eqb_eq in H2. by rewrite (Hone m').
  - apply list_elem_of_In in Hin. apply (List.find_none _ _ E) in Hin. by rewrite Hname, String.eqb_refl in Hin.
Qed.

Lemma rows_elem {A} (m : gmap string A) x : x ∈ map snd (map_to_list m) <-> exists k, m !! k = Some x.
Proof.
  rewrite list_elem_of_fmap. split.
  - intros ([k y] & -> & H%elem_of_map_to_list). eauto.
  - intros [k H]. exists (k, x). split; [done|]. by apply elem_of_map_to_list.
Qed.

Lemma row_named t k m : names_ok t -> c_models t !! k = Some m -> forall m', m' ∈ map snd (map_to_list (c_models t)) -> m_Name m' = m_Name m -> m' = m.
Proof. intros [_ H] Hm m' [k' Hk']%rows_elem Hn. pose proof (H _ _ _ _ Hk' Hm Hn). congruence. Qed.

Lemma ModelByName_row t k m : names_ok t -> c_models t !! k = Some m -> ModelByName (m_Name m) t = inl m.
Proof. intros Ht Hm. unfold ModelByName. erewrite find_named; [done|apply rows_elem; eauto|done|by eapply row_named]. Qed.

Lemma ModelByName_inl t name m : ModelByName name t = inl m -> m_Name m = name /\ exists k, c_models t !! k = Some m.
Proof.
  unfold ModelByName. destruct (List.find _ _) as [m'|] eqn:E; [|done]. intros [= ->]. apply List.find_some in E as [H1 H2].
  split; [by apply String.eqb_eq|]. apply rows_elem. by apply list_elem_of_In.
Qed.

Lemma default_named t k m :
  names_ok t -> c_models t !! k = Some m -> m_Name m <> EmptyString -> defaultModelSetting t = m_Name m ->
  defaultModel (Models t) t = (m, true).
Proof.
  intros Ht Hm Hne Hdef. unfold defaultModel.
  assert (Hin : m ∈ Models t) by (unfold Models; rewrite merge_sort_Permutation; apply rows_elem; eauto).
  assert (Hf : List.find (fun m' => String.eqb (m_Name m') (m_Name m)) (Models t) = Some m).
  { apply find_named; [done|done|]. intros m' Hm'. eapply row_named; [done..|]. unfold Models in Hm'. by rewrite merge_sort_Permutation in Hm'. }
  destruct (Models t) as [|first l]; [by apply elem_of_nil in Hin|]. rewrite Hdef. destruct (String.eqb_spec (m_Name m) EmptyString); [done|].
  by rewrite Hf.
Qed.

Lemma update_names t m m' t' : names_ok t -> UpdateModel m t = (inl m', t') -> names_ok t'.
Proof.
  intros [Hid Hone] H. unfold UpdateModel in H. destruct (c_models t !! m_ID m) as [old|]; [|done]. destruct (negb _); [done|].
  destruct (taken _ _ _ _) eqn:Et; [done|]. injection H as <- <-.
  assert (Hfree : forall k x, c_models t !! k = Some x -> k <> m_ID m -> m_Name x <> m_Name m).
  { intros k x Hx Hk Hn. unfold taken in Et. assert (Hin : In (k, x) (map_to_list (c_models t))) by (apply list_elem_of_In; by apply elem_of_map_to_list).
    assert (He : existsb (fun p => negb (String.eqb p.1 (m_ID m)) && String.eqb (m_Name p.2) (m_Name m)) (map_to_list (c_models t)) = true).
    { apply List.existsb_exists. exists (k, x). split; [done|]. cbn. rewrite Hn, String.eqb_refl. destruct (String.eqb_spec k (m_ID m)); done. }
    congruence. }
  constructor; cbn.
  - intros k x. rewrite lookup_insert_Some. intros [[<- <-]|[_ Hx]]; [done|by apply Hid].
  - intros k x k' x'. rewrite !lookup_insert_Some. intros [[<- <-]|[Hk Hx]] [[<- <-]|[Hk' Hx']]; cbn; [done| | |by eapply Hone].
    + intros Hn. by destruct (Hfree k' x' Hx' (not_eq_sym Hk')).
    + intros Hn. by destruct (Hfree k x Hx (not_eq_sym Hk)).
Qed.

(** ** The settings *)

Lemma fill_texts l m : fill_strings (map (fun p => (p.1, JString p.2)) l) m = (foldl (fun m p => <[p.1 := p.2]> m) m l, true).
Proof. revert m. induction l as [|[k v] l IH]; intros m; [done|]. cbn. apply IH. Qed.

Lemma foldl_insert (l : list (string * string)) (m : gmap string string) :
  NoDup (map fst l) -> foldl (fun m p => <[p.1 := p.2]> m) m l = list_to_map l ∪ m.
Proof.
  revert m. induction l as [|[k v] l IH]; intros m Hd; cbn; [by rewrite (left_id_L ∅ (∪))|]. cbn in Hd. apply NoDup_cons in Hd as [Hk Hd].
  rewrite IH by done. rewrite <- insert_union_l, insert_union_r; [done|]. by apply not_elem_of_list_to_map_1.
Qed.

Lemma fill_marshal m : fill_assigned (marshal_strings m) = (m, true).
Proof.
  unfold fill_assigned, marshal_strings. rewrite fill_texts. set (l := merge_sort _ _).
  assert (Hp : l ≡ₚ map_to_list m) by apply merge_sort_Permutation.
  assert (Hd : NoDup (map fst l)).
  { change (map fst l) with (l.*1). rewrite Hp. apply NoDup_fst_map_to_list. }
  rewrite foldl_insert by done. rewrite (right_id_L ∅ (∪)). f_equal. rewrite (list_to_map_proper l (map_to_list m)); [|done|done].
  apply list_to_map_to_list.
Qed.

Section rename.
Context (is_print : Z -> bool) (oldName newName : string) (t t' : CDB).
Context (Hprint : printable is_print newName) (Hren : renameModelSettings is_print oldName newName t = (None, t')).
#[local] Set Default Proof Using "Type".

Lemma rename_models : c_models t' = c_models t.
Proof using Hren.
  unfold renameModelSettings in Hren. destruct (readAssigned t) as [assigned ok]. destruct (_ ++ _) as [|w ws]; [by injection Hren as <-|].
  unfold SetSettings in Hren. destruct (foldl _ _ _); [|done]. by injection Hren as <-.
Qed.

(** What each of the two settings holds afterwards. *)
Lemma rename_settings :
  c_settings t' =
  (if (readAssigned t).2 && existsb (fun p => String.eqb p.2 oldName) (map_to_list (readAssigned t).1)
   then <[settingUtilityModels := marshal_strings ((fun name => if String.eqb name oldName then newName else name) <$> (readAssigned t).1)]>
   else id)
    ((if String.eqb (defaultModelSetting t) oldName then <[settingDefaultModel := JString newName]> else id) (c_settings t)).
Proof using Hprint Hren.
  unfold renameModelSettings in Hren. destruct (readAssigned t) as [assigned ok]. cbn [fst snd]. rewrite jsonString_printable in Hren by done.
  destruct (String.eqb (defaultModelSetting t) oldName), (ok && _); cbn in Hren; by injection Hren as <-.
Qed.

Lemma rename_default : defaultModelSetting t' = if String.eqb (defaultModelSetting t) oldName then newName else defaultModelSetting t.
Proof using Hprint Hren.
  unfold defaultModelSetting at 1, readSetting, Setting. rewrite rename_settings.
  assert (Hu : forall m v, (if (readAssigned t).2 && existsb (fun p => String.eqb p.2 oldName) (map_to_list (readAssigned t).1)
    then <[settingUtilityModels := v]> else id) m !! settingDefaultModel = (m : gmap string json) !! settingDefaultModel).
  { intros m v. destruct (_ && _); [|done]. by rewrite lookup_insert_ne. }
  rewrite Hu. destruct (String.eqb (defaultModelSetting t) oldName); [by rewrite lookup_insert_eq|done].
Qed.

Lemma rename_assigned :
  (readAssigned t).2 = true ->
  (readAssigned t').1 = (fun name => if String.eqb name oldName then newName else name) <$> (readAssigned t).1.
Proof using Hprint Hren.
  intros Hok. unfold readAssigned at 1, Setting. rewrite rename_settings, Hok. cbn [andb].
  destruct (existsb _ _) eqn:E.
  - rewrite lookup_insert_eq. change (marshal_strings ?m) with (JObject (match marshal_strings m with JObject l => l | _ => [] end)) at 1.
    cbn [marshal_strings]. fold (marshal_strings ((fun name => if String.eqb name oldName then newName else name) <$> (readAssigned t).1)).
    by rewrite fill_marshal.
  - assert (Hd : forall m : gmap string json, id ((if String.eqb (defaultModelSetting t) oldName then <[settingDefaultModel := JString newName]> else id) m)
      !! settingUtilityModels = m !! settingUtilityModels).
    { intros m. destruct (String.eqb _ _); [|done]. unfold id. by rewrite lookup_insert_ne. }
    rewrite Hd. change (match _ with inl _ => _ | inr _ => _ end) with (readAssigned t). apply map_eq. intros k. rewrite lookup_fmap.
    destruct ((readAssigned t).1 !! k) as [name|] eqn:Ek; [|done]. cbn. destruct (String.eqb_spec name oldName) as [->|]; [|done].
    exfalso. assert (Hin : In (k, oldName) (map_to_list (readAssigned t).1)) by (apply list_elem_of_In; by apply elem_of_map_to_list).
    assert (He : existsb (fun p => String.eqb p.2 oldName) (map_to_list (readAssigned t).1) = true).
    { apply List.existsb_exists. exists (k, oldName). split; [done|]. apply String.eqb_refl. }
    congruence.
Qed.
End rename.

Lemma rename_never_fails is_print oldName newName t :
  printable is_print newName -> (renameModelSettings is_print oldName newName t).1 = None.
Proof.
  intros Hp. unfold renameModelSettings. rewrite jsonString_printable by done. destruct (readAssigned t) as [assigned ok].
  by destruct (String.eqb (defaultModelSetting t) oldName), (ok && _).
Qed.

(** What a setting that names a model of the table names afterwards. *)
Section follows.
Context (is_print : Z -> bool) (id : string) (req : updateModelRequest) (t : CDB).
Context (Ht : names_ok t).
Context (Hreq : forall n, um_Name req = Some n -> trim_space n <> EmptyString /\ printable is_print (trim_space n)).
Context (Hshape : forall v, c_settings t !! settingUtilityModels = Some v -> v = JNull \/ (fill_assigned v).2 = true).
#[local] Set Default Proof Using "Type".

Definition follows (t' : CDB) : Prop :=
  names_ok t' /\
  (forall k m, c_models t !! k = Some m -> exists m', c_models t' !! k = Some m' /\
     (defaultModelSetting t = m_Name m -> m_Name m <> EmptyString -> defaultModelSetting t' = m_Name m' /\ m_Name m' <> EmptyString) /\
     forall task, (readAssigned t).1 !! task = Some (m_Name m) -> m_Name m <> EmptyString ->
       (readAssigned t').1 !! task = Some (m_Name m') /\ m_Name m' <> EmptyString).

Lemma follows_refl : follows t.
Proof using Ht. split; [done|]. intros k m Hm. exists m. auto. Qed.

Lemma shape_ok task name : (readAssigned t).1 !! task = Some name -> (readAssigned t).2 = true.
Proof using Hshape.
  unfold readAssigned, Setting. destruct (c_settings t !! settingUtilityModels) as [v|] eqn:E; [|done]. destruct (Hshape v eq_refl) as [->|H]; [done|].
  by destruct v.
Qed.

Lemma handleUpdateModel_follows : follows (handleUpdateModel is_print id req t).2.
Proof using Ht Hreq Hshape.
  unfold handleUpdateModel, getModel. destruct (c_models t !! id) as [old|] eqn:Eo; [|apply follows_refl].
  destruct (planModel req old) as [m|] eqn:Ep; [|apply follows_refl]. destruct (UpdateModel m t) as [[updated|e] t1] eqn:Eu.
  2: { unfold UpdateModel in Eu. destruct (c_models t !! m_ID m); [|injection Eu as _ <-; apply follows_refl].
       destruct (negb _); [injection Eu as _ <-; apply follows_refl|]. destruct (taken _ _ _ _); [injection Eu as _ <-; apply follows_refl|done]. }
  pose proof (update_names _ _ _ _ Ht Eu) as Ht1. pose proof (by_id t Ht _ _ Eo) as Hid.
  assert (Hm : m_ID m = id /\ m_Name m = match um_Name req with Some n => trim_space n | None => m_Name old end).
  { unfold planModel in Ep. destruct (validateModel _); [done|]. injection Ep as <-. by cbn. }
  destruct Hm as [Hmid Hmname].
  assert (Ht1eq : c_models t1 = <[id := updated]> (c_models t) /\ c_settings t1 = c_settings t /\ m_Name updated = m_Name m).
  { unfold UpdateModel in Eu. rewrite Hmid, Eo in Eu. destruct (negb _); [done|]. destruct (taken _ _ _ _); [done|]. by injection Eu as <- <-. }
  destruct Ht1eq as (Hmodels & Hsettings & Hname).
  assert (Hread : readAssigned t1 = readAssigned t) by (unfold readAssigned, Setting; by rewrite Hsettings).
  assert (Hdef : defaultModelSetting t1 = defaultModelSetting t) by (unfold defaultModelSetting, readSetting, Setting; by rewrite Hsettings).
  assert (Hother : forall k m', c_models t !! k = Some m' -> k <> id -> m_Name m' <> m_Name old).
  { intros k m' Hk Hne Hn. apply Hne. by apply (one_name t Ht k m' id old). }
  destruct (String.eqb_spec (m_Name updated) (m_Name old)) as [Heq|Hne]; cbn [snd].
  - split; [done|]. rewrite Hread, Hdef, Hmodels. intros k m' Hk. destruct (decide (k = id)) as [->|Hki].
    + exists updated. rewrite lookup_insert_eq. split; [done|]. replace m' with old in * by congruence. rewrite Heq. auto.
    + exists m'. rewrite lookup_insert_ne by done. auto.
  - assert (Hn : exists n, um_Name req = Some n /\ m_Name updated = trim_space n).
    { rewrite Hname, Hmname in *. destruct (um_Name req) as [n|]; [eauto|done]. }
    destruct Hn as (n & Hn & Htrim). destruct (Hreq n Hn) as [Hempty Hprint]. rewrite <- Htrim in Hempty, Hprint.
    destruct (renameModelSettings is_print (m_Name old) (m_Name updated) t1) as [[e|] t2] eqn:Er; cbn [snd].
    { pose proof (rename_never_fails is_print (m_Name old) _ t1 Hprint) as Hf. by rewrite Er in Hf. }
    pose proof (rename_models _ _ _ _ _ Er) as Hm2. pose proof (rename_default _ _ _ _ _ Hprint Er) as Hd2. rewrite Hdef in Hd2.
    pose proof (rename_assigned _ _ _ _ _ Hprint Er) as Ha2. rewrite Hread in Ha2.
    split; [destruct Ht1; constructor; by rewrite Hm2|]. rewrite Hm2, Hmodels. intros k m' Hk. destruct (decide (k = id)) as [->|Hki].
    + exists updated. rewrite lookup_insert_eq. split; [done|]. replace m' with old in * by congruence. split.
      * intros Hdm _. by rewrite Hd2, Hdm, String.eqb_refl.
      * intros task Htask _. rewrite Ha2 by by eapply shape_ok. rewrite lookup_fmap, Htask. cbn. by rewrite String.eqb_refl.
    + exists m'. rewrite lookup_insert_ne by done. split; [done|]. pose proof (proj2 (String.eqb_neq _ _) (Hother k m' Hk Hki)) as Hno. split.
      * intros Hdm Hm'. by rewrite Hd2, Hdm, Hno.
      * intros task Htask Hm'. rewrite Ha2 by by eapply shape_ok. rewrite lookup_fmap, Htask. cbn. by rewrite Hno.
Qed.
End follows.

(** whatever an update changes of a model, and whether it succeeds, the
    settings go on naming the models they named, provided the new name, when
    there is one, is neither empty nor has characters Go takes to be
    unprintable: the default model is the same row, and so is the model each
    utility task is sent to, under their new names. *)
Theorem renaming_keeps_assignments is_print id req t :
  names_ok t ->
  (forall n, um_Name req = Some n -> trim_space n <> EmptyString /\ printable is_print (trim_space n)) ->
  (forall v, c_settings t !! settingUtilityModels = Some v -> v = JNull \/ (fill_assigned v).2 = true) ->
  let t' := (handleUpdateModel is_print id req t).2 in
  (forall k m, c_models t !! k = Some m -> m_Name m <> EmptyString -> defaultModelSetting t = m_Name m ->
     exists m', c_models t' !! k = Some m' /\ defaultModel (Models t) t = (m, true) /\ defaultModel (Models t') t' = (m', true)) /\
  (forall task m, utilityModel task t = Some m -> exists m', utilityModel task t' = Some m' /\ m_ID m' = m_ID m).
Proof.
  intros Ht Hreq Hshape t'. destruct (handleUpdateModel_follows is_print id req t Ht Hreq Hshape) as [Ht' Hall]. fold t' in Ht', Hall. split.
  - intros k m Hm Hne Hdef. destruct (Hall k m Hm) as (m' & Hm' & Hd & _). destruct (Hd Hdef Hne) as [Hd' Hne'].
    exists m'. split; [done|]. split; by eapply default_named.
  - intros task m Hu. unfold utilityModel in Hu. destruct ((readAssigned t).1 !! task) as [name|] eqn:Ea; cbn in Hu; [|done].
    destruct (String.eqb_spec name EmptyString) as [|Hne]; [done|]. destruct (ModelByName name t) as [m0|] eqn:Eb; [|done]. injection Hu as ->.
    apply ModelByName_inl in Eb as [<- [k Hk]]. destruct (Hall k m Hk) as (m' & Hm' & _ & Hu). destruct (Hu task Ea Hne) as [Ha Hne'].
    exists m'. unfold utilityModel. rewrite Ha. cbn. rewrite (proj2 (String.eqb_neq _ _) Hne'), (ModelByName_row t' k m') by done.
    split; [done|]. by rewrite (by_id t Ht k m Hk), (by_id t' Ht' k m' Hm').
Qed.

Definition example_model (id name : string) (now : Z) : ModelRow :=
  mkModel id "p1" name "endpoint-name" 8000 1000 EmptyString [] "reasoning_effort" false false now.
Definition example_tables : CDB :=
  mkCDB {["p1"%string := mkProvider "p1" "local" "openai" "http://h" EmptyString 0]}
    {["m1"%string := example_model "m1" "first" 1; "m2"%string := example_model "m2" "second" 2]} ∅
    {[settingDefaultModel := JString "second"; settingUtilityModels := JObject [(TaskSessionTitle, JString "second")]]} (mkDB ∅ ∅).
Definition rename_to (name : string) : updateModelRequest := mkUpdateModel (Some name) None None None None None None None None.
(** The tag characters of Unicode, which are not printable. *)
Definition not_tag (r : Z) : bool := negb ((917504 <=? r) && (r <=? 917631)).

Lemma renaming_keeps_assignments_witness :
  let t' := (handleUpdateModel not_tag "m2" (rename_to "third") example_tables).2 in
  (exists m', c_models t' !! "m2"%string = Some m' /\ m_Name m' = "third"%string /\ defaultModel (Models t') t' = (m', true)) /\
  exists m', utilityModel TaskSessionTitle t' = Some m' /\ m_ID m' = "m2"%string.
Proof.
  intros t'. assert (Hn : names_ok example_tables).
  { assert (Hm : forall k m, c_models example_tables !! k = Some m -> (k, m) ∈ [("m1"%string, example_model "m1" "first" 1); ("m2"%string, example_model "m2" "second" 2)]).
    { intros k m Hk%elem_of_map_to_list. by vm_compute in Hk. }
    constructor.
    - intros k m Hk%Hm. rewrite !elem_of_cons, elem_of_nil in Hk. by destruct Hk as [[= -> ->]|[[= -> ->]|[]]].
    - intros k m k' m' Hk%Hm Hk'%Hm. rewrite !elem_of_cons, elem_of_nil in Hk, Hk'.
      by destruct Hk as [[= -> ->]|[[= -> ->]|[]]], Hk' as [[= -> ->]|[[= -> ->]|[]]]. }
  destruct (renaming_keeps_assignments not_tag "m2" (rename_to "third") example_tables Hn) as [H1 H2].
  - intros n [= <-]. split; [done|]. unfold printable, plain_seg. vm_compute (segs _). repeat constructor; cbn; lia.
  - intros v Hv. right. vm_compute in Hv. by injection Hv as <-.
  - fold t' in H1, H2. split.
    + destruct (H1 "m2"%string (example_model "m2" "second" 2)) as (m' & Hm & _ & Hd); [reflexivity|done|reflexivity|].
      exists m'. split; [exact Hm|]. split; [|exact Hd]. vm_compute in Hm. by injection Hm as <-.
    + destruct (H2 TaskSessionTitle (example_model "m2" "second" 2)) as (m' & Hm & Hid); [reflexivity|]. exists m'. split; [exact Hm|exact Hid].
Defined.

(** renaming can lose the default model and the task's, which the handler
    says it keeps. A name of spaces is accepted and stored as the empty name,
    which the settings then hold, and which names nothing: the answer is 200,
    another model is the default, and no model makes titles. A name with a
    character Go takes to be unprintable outside the basic plane is stored
    with the row and then refused as a setting, being no JSON: the answer is a
    failure, and the settings name no model any more. *)
Theorem renaming_loses_default :
  let before := example_tables in
  let emptied := handleUpdateModel not_tag "m2" (rename_to " ") before in
  let tagged := handleUpdateModel not_tag "m2" (rename_to (string_of_runes [97; 917505])) before in
  m_ID (defaultModel (Models before) before).1 = "m2"%string /\ m_ID <$> utilityModel TaskSessionTitle before = Some "m2"%string /\
  (exists body, emptied.1 = inl (200, body) /\ mb_Name body = EmptyString) /\
  m_ID (defaultModel (Models emptied.2) emptied.2).1 = "m1"%string /\ utilityModel TaskSessionTitle emptied.2 = None /\
  (exists e, tagged.1 = inr (Plain e)) /\ m_Name <$> c_models tagged.2 !! "m2"%string = Some (string_of_runes [97; 917505]) /\
  m_ID (defaultModel (Models tagged.2) tagged.2).1 = "m1"%string /\ utilityModel TaskSessionTitle tagged.2 = None.
Proof. cbv zeta. repeat split; try (vm_compute; reflexivity); eexists; try split; vm_compute; reflexivity. Qed.

(** A value of a key, when it is not null. *)
Record shaped (key : string) (v : json) : Prop := {
  sh_default_model : key = settingDefaultModel -> exists s, v = JString s;
  sh_utility_models : key = settingUtilityModels -> exists m, fill_assigned v = (m, true) /\
    forall task name, m !! task = Some name -> Known task = true;
  sh_default_profile : key = settingDefaultProfile -> exists s, v = JString s;
  sh_sandbox_image : key = settingSandboxImage -> exists s, v = JString s /\ s <> EmptyString /\ str_len s <= 255;
  sh_sandbox_limits : key = settingSandboxLimits -> is_Some (dec_limits v);
  sh_sandbox_egress : key = settingSandboxEgress -> exists e m, dec_egress v = Some e /\ ParseMode (eb_Mode e) = inl m;
  sh_depth : key = settingSubagentDepth -> exists n, v = JInt n /\ 1 <= n <= maxSubagentDepth;
  sh_children : key = settingSubagentChildren -> exists n, v = JInt n /\ 1 <= n <= maxSubagentChildren;
  sh_idle : key = settingIdleMinutes -> exists n, v = JInt n /\ 0 <= n <= maxIdleMinutes;
  sh_compaction : key = settingCompaction -> exists c, fill_compaction v defaultCompaction = (c, true) /\
    minCompactionTokens <= cob_ReserveTokens c <= maxCompactionTokens /\
    minCompactionTokens <= cob_KeepRecentTokens c <= maxCompactionTokens;
}.

Definition settings_typed (t : CDB) : Prop := forall key v, c_settings t !! key = Some v -> v = JNull \/ shaped key v.

Lemma first_failure_None {A} (check : A -> option failure) l : first_failure check l = None <-> Forall (fun x => check x = None) l.
Proof.
  induction l as [|x l IH]; cbn; [by split; [constructor|]|]. rewrite Forall_cons, <- IH. destruct (check x); [split; [done|by intros []]|]. tauto.
Qed.

Lemma dec_string_inl v s : dec_string v = Some s -> v = JString s.
Proof. destruct v; try done. by intros [= ->]. Qed.
Lemma dec_int_inl v n : dec_int v = Some n -> v = JInt n.
Proof. destruct v; try done. cbn. destruct (int64 _); [by intros [= ->]|done]. Qed.

Lemma dec_int_small n : 0 <= n < 2 ^ 62 -> dec_int (JInt n) = Some n.
Proof. intros H. cbn. unfold int64. by rewrite (proj2 (Z.leb_le _ _)), (proj2 (Z.ltb_lt _ _)) by lia. Qed.

Lemma validateCount_None key v most : validateCount key v most = None -> exists n, v = JInt n /\ 1 <= n <= most.
Proof.
  unfold validateCount. destruct (dec_int v) as [n|] eqn:E; [|done]. apply dec_int_inl in E as ->. destruct (_ || _) eqn:Eb; [done|].
  intros _. exists n. split; [done|lia].
Qed.

Lemma validateCompaction_None v : validateCompaction v = None ->
  exists c, fill_compaction v defaultCompaction = (c, true) /\ minCompactionTokens <= cob_ReserveTokens c <= maxCompactionTokens /\
    minCompactionTokens <= cob_KeepRecentTokens c <= maxCompactionTokens.
Proof.
  unfold validateCompaction. destruct (fill_compaction v defaultCompaction) as [c ok]. destruct (known_compaction v), ok; cbn [negb andb]; try done.
  destruct (List.find _ (budgets c)) as [[]|] eqn:E; [done|]. intros _. exists c. split; [done|].
  assert (Hb : Forall (fun p => bad_budget p.2 = false) (budgets c)).
  { apply Forall_forall. intros p Hp%list_elem_of_In. by apply (List.find_none _ _ E). }
  unfold budgets, bad_budget in Hb. apply Forall_cons in Hb as [H1 Hb]. apply Forall_cons in Hb as [H2 _]. cbn in H1, H2. lia.
Qed.

(** The value of one key: every other key's condition is void. *)
Ltac other_keys := let E := fresh in intros E; vm_compute in E; discriminate E.

Section typed.
Context (lower_rune : Z -> Z) (capacity : option (Z * Z)) (egress_control : bool).
Context (engine : option (list string * list (string * Limit))).
Abbreviation validate := (validateSetting lower_rune capacity egress_control engine).

Lemma dec_assigned_map v l : dec_assigned v = Some l -> exists m, fill_assigned v = (m, true) /\ l = map_to_list m.
Proof using. destruct v; try done. cbn. destruct (fill_strings _ ∅) as [m [|]] eqn:E; [|done]. intros [= <-]. by exists m. Qed.

Lemma validate_shaped key v t : validate key v t = None -> v = JNull \/ shaped key v.
Proof using.
  intros H. unfold validateSetting in H. destruct (_ || _); [done|]. destruct (json_is_null v) eqn:En; [left; by destruct v|]. right.
  repeat match type of H with (if String.eqb key ?k then _ else _) = None =>
    destruct (String.eqb_spec key k) as [->|];
      [|let H' := fresh in match goal with n : key <> k |- _ => rename n into H' end] end.
  - constructor; try other_keys. intros _. destruct (dec_string v) eqn:E; [|done]. apply dec_string_inl in E. eauto.
  - constructor; try other_keys. intros _. destruct (dec_assigned v) as [l|] eqn:E; [|done]. apply dec_assigned_map in E as (m & Hm & ->).
    exists m. split; [done|]. intros task name Ht. apply first_failure_None in H. rewrite Forall_forall in H.
    specialize (H (task, name) (proj2 (elem_of_map_to_list _ _ _) Ht)). cbn [fst snd] in H. by destruct (Known task).
  - constructor; try other_keys. intros _. destruct (dec_string v) eqn:E; [|done]. apply dec_string_inl in E. eauto.
  - constructor; try other_keys. intros _. destruct (dec_string v) as [s|] eqn:E; [|done]. apply dec_string_inl in E as ->.
    exists s. split; [done|]. destruct (String.eqb_spec s EmptyString); [done|]. cbn in H. destruct (255 <? str_len s) eqn:El; [done|]. split; [done|lia].
  - constructor; try other_keys. intros _. unfold strict in H. destruct (known _ v); [|done]. destruct (dec_limits v); [eauto|done].
  - constructor; try other_keys. intros _. unfold strict in H. destruct (known _ v); [|done]. destruct (dec_egress v) as [e|]; [|done].
    unfold checkEgress in H. destruct (ParseMode (eb_Mode e)) as [m|] eqn:Em; [|done]. by exists e, m.
  - constructor; try other_keys. intros _. by apply validateCount_None in H.
  - constructor; try other_keys. intros _. by apply validateCount_None in H.
  - constructor; try other_keys. intros _. destruct (dec_int v) as [n|] eqn:E; [|done]. apply dec_int_inl in E as ->.
    exists n. split; [done|]. destruct (_ || _) eqn:Eb; [done|]. lia.
  - destruct (String.eqb key settingSearchOrder || String.eqb key settingSearchLimits) eqn:Es.
    { apply orb_true_iff in Es as [->%String.eqb_eq | ->%String.eqb_eq]; constructor; other_keys. }
    destruct (String.eqb_spec key settingCompaction) as [->|].
    + constructor; try other_keys. intros _. by apply validateCompaction_None.
    + by constructor.
Qed.

(** A change of the settings: a request writes what it checked, whenever it
    checked it, or a model that was renamed. Other requests leave them. *)
Inductive settings_step (t : CDB) : CDB -> Prop :=
| put_checked req t0 : first_failure (fun p => validate p.1 p.2 t0) req = None ->
    settings_step t (SetSettings (map (fun p => (p.1, Some p.2)) req) t).2
| rename_checked is_print oldName newName : settings_step t (renameModelSettings is_print oldName newName t).2
| settings_kept t' : c_settings t' = c_settings t -> settings_step t t'.

Lemma SetSettings_typed vs t :
  settings_typed t -> Forall (fun p => forall v, p.2 = Some v -> v = JNull \/ shaped p.1 v) vs -> settings_typed (SetSettings vs t).2.
Proof using.
  intros Ht Hvs. unfold SetSettings. set (f := fun (acc : gmap string json + GoError) (kv : string * option json) => _).
  assert (Hf : forall acc m, (forall m0, acc = inl m0 -> forall key v, m0 !! key = Some v -> v = JNull \/ shaped key v) ->
    foldl f acc vs = inl m -> forall key v, m !! key = Some v -> v = JNull \/ shaped key v).
  { clear Ht t. induction Hvs as [|[k o] vs Hk _ IH]; intros acc m Hacc Hm; cbn in Hm; [by apply Hacc|].
    apply (IH (f acc (k, o)) m); [|exact Hm]. intros m0 Hm0 key v Hv. destruct acc as [m1|]; [|done]. cbn in Hm0. destruct o as [v1|]; [|done].
    injection Hm0 as <-. apply lookup_insert_Some in Hv as [[<- <-]|[_ Hv]]; [by apply (Hk v1)|by apply (Hacc m1)]. }
  destruct (foldl f (inl (c_settings t)) vs) as [m|] eqn:E; [|exact Ht]. intros key v. cbn. eapply Hf; [|exact E]. by intros m0 [= <-].
Qed.

Lemma settings_step_typed t t' : settings_typed t -> settings_step t t' -> settings_typed t'.
Proof using.
  intros Ht [req t0 Hreq|is_print oldName newName|t1 Heq].
  - apply SetSettings_typed; [done|]. apply first_failure_None in Hreq. apply Forall_map. eapply Forall_impl; [exact Hreq|].
    cbv beta. intros [k v] Hv v' [= <-]. by eapply validate_shaped.
  - unfold renameModelSettings. destruct (readAssigned t) as [assigned ok] eqn:Ea.
    set (ws := _ ++ _). assert (Hws : Forall (fun p => forall v, p.2 = Some v -> v = JNull \/ shaped p.1 v) ws).
    { unfold ws. apply Forall_app_2.
      - destruct (String.eqb _ _); [|by constructor]. constructor; [|by constructor]. cbn. unfold jsonString. intros v Hv.
        destruct (unquote _) as [s|]; [|done]. injection Hv as <-. right. constructor; try other_keys. eauto.
      - destruct ok; [|by constructor]. destruct (true && _); [|by constructor]. constructor; [|by constructor]. cbn. intros v [= <-].
        right. constructor; try other_keys. intros _. rewrite fill_marshal. eexists. split; [done|]. intros task name.
        rewrite lookup_fmap_Some. intros (name0 & _ & Hn). unfold readAssigned, Setting in Ea.
        destruct (c_settings t !! settingUtilityModels) as [v|] eqn:Ev; [|by injection Ea as <-].
        destruct (Ht _ _ Ev) as [->|Hs]; [by injection Ea as <-|]. destruct (sh_utility_models _ _ Hs eq_refl) as (m & Hm & Hknown).
        assert (Heq : fill_assigned v = (assigned, true)) by (by destruct v). rewrite Hm in Heq. injection Heq as <-. by eapply Hknown. }
    destruct ws as [|w ws']; [done|]. by apply SetSettings_typed.
  - intros key v. rewrite Heq. apply Ht.
Qed.

End typed.

