(* ===== verification/McpMessage.v ===== *)
(** What passes between the harness and an MCP server (internal/mcp
    jsonrpc.go, protocol.go, sse.go, headers.go, transport.go): the messages and
    how they are read from bytes, the events of a stream, what is put into a
    header, and the failures of a connection. *)
From S2P Require Import Prelude GoStr Json Failure Net Session.
From stdpp Require Import options.
Open Scope Z_scope.

(** ** Messages *)

(* @src internal/mcp/jsonrpc.go 12-22 codeMethodNotFound *)
Definition codeMethodNotFound : Z := -32601.
Definition codeInvalidParams : Z := -32602.
Definition codeInternal : Z := -32603.
Definition codeHeaderMismatch : Z := -32020.
Definition codeMissingCapability : Z := -32021.
Definition codeUnsupportedVersion : Z := -32022.

(* @src internal/mcp/jsonrpc.go 51-56 RPCError *)
Record RPCError := mkRPC { rpc_Code : Z; rpc_Message : string; rpc_Data : string }.

(** An id, params, or a result that is absent is [None]; [json.RawMessage]
    keeps the spelling, here without the blanks in it. *)
(* @src internal/mcp/jsonrpc.go 24-33 message *)
Record message := mkMessage {
  m_ID : option string; m_Method : string; m_Params : option string; m_Result : option string; m_Error : option RPCError;
}.

(* @src internal/mcp/jsonrpc.go 35-38 message.hasID *)
Definition hasID (m : message) : bool := match m_ID m with Some id => negb (String.eqb id EmptyString) && not_null id | None => false end.
(* @src internal/mcp/jsonrpc.go 40-41 message.isRequest *)
Definition isRequest (m : message) : bool := negb (String.eqb (m_Method m) EmptyString) && hasID m.
(* @src internal/mcp/jsonrpc.go 43-44 message.isNotification *)
Definition isNotification (m : message) : bool := negb (String.eqb (m_Method m) EmptyString) && negb (hasID m).
(* @src internal/mcp/jsonrpc.go 46-49 message.isResponse *)
Definition isResponse (m : message) : bool :=
  String.eqb (m_Method m) EmptyString && (bool_decide (is_Some (m_Result m)) || bool_decide (is_Some (m_Error m))).

(* @src internal/mcp/jsonrpc.go 58-61 RPCError.Error *)
Definition rpc_text (e : RPCError) : string := trim_space (rpc_Message e) +:+ " (code " +:+ itoa (rpc_Code e) +:+ ")".
(* @src internal/mcp/jsonrpc.go 63-70 RPCError.modern *)
Definition modern (e : RPCError) : bool :=
  (rpc_Code e =? codeHeaderMismatch) || (rpc_Code e =? codeMissingCapability) || (rpc_Code e =? codeUnsupportedVersion).

(* @src internal/mcp/jsonrpc.go 72-82 RPCError.supportedVersions *)
Definition supportedVersions (e : RPCError) : list string :=
  if rpc_Code e =? codeUnsupportedVersion then
    default [] (l ← members_of (rpc_Data e); field_of dec_string_list [] "supported" l)
  else [].

(** null decodes into a string and leaves it empty. *)
(* @src internal/mcp/jsonrpc.go 84-92 idKey *)
Definition idKey (raw : string) : string :=
  if String.eqb (default raw (compact raw)) null then EmptyString else
  match unquote raw with Some s => s | None => trim_space raw end.
(* @src internal/mcp/jsonrpc.go 94-97 requestID *)
Definition requestID (n : Z) : string := itoa n.

Definition dec_rpc (s : string) : option RPCError :=
  l ← members_of s;
  code ← field_of dec_integer 0 "code" l;
  text ← field_of unquote EmptyString "message" l;
  Some (mkRPC code text (default EmptyString (raw_of "data" l))).

(** One message; [None] is a document that does not decode. *)
Definition dec_message (s : string) : option message :=
  l ← members_of s;
  if negb (all_decode unquote "jsonrpc" l) then None else
  method ← field_of unquote EmptyString "method" l;
  if negb (all_decode dec_rpc "error" l) then None else
  Some (mkMessage (raw_of "id" l) method (raw_of "params" l) (raw_of "result" l)
          (match pointer_of "error" l with Some e => dec_rpc e | None => None end)).

(** The elements of a batch are pointers: null is nil. *)
Definition dec_element_message (s : string) : option (option message) :=
  if not_null s then m ← dec_message s; Some (Some m) else Some None.

(* @src internal/mcp/jsonrpc.go 99-118 decodeMessages *)
Definition decodeMessages (data : string) : list (option message) + GoError :=
  let data := trim_space data in
  match bytes_of data with
  | [] => inr (ErrText "decode message: empty")
  | 91 :: _ =>
      match (c ← compact data; l ← array_items c; mapM dec_element_message l) with
      | Some batch => inl batch
      | None => inr (ErrText "decode message batch")
      end
  | _ => match dec_message data with Some m => inl [Some m] | None => inr (ErrText "decode message") end
  end.

(** ** Failures *)

Record Challenge := mkChallenge { ch_Error : string; ch_Scope : string; ch_Metadata : string }.

(** A failure of a connection, for [errors.As] and [errors.Is]. *)
(* @src internal/mcp/transport.go 80-86 AuthError *)
Inductive McpError : Type :=
| Rpc (e : RPCError)
| Http (status : Z) (rpc : option RPCError) (body : string)
| Unauthorized (status : Z) (challenge : Challenge)
| SessionExpired
| OnlyLegacy (why : string)
| Plainly (e : GoError)
| Because (what : string) (e : McpError)
| Beside (e e' : McpError).

Fixpoint as_rpc (e : McpError) : option RPCError :=
  match e with
  | Rpc r => Some r
  | Because _ e' => as_rpc e'
  | Beside e1 e2 => match as_rpc e1 with Some r => Some r | None => as_rpc e2 end
  | _ => None
  end.
Fixpoint as_http (e : McpError) : option (Z * option RPCError) :=
  match e with
  | Http s r _ => Some (s, r)
  | Because _ e' => as_http e'
  | Beside e1 e2 => match as_http e1 with Some r => Some r | None => as_http e2 end
  | _ => None
  end.
Fixpoint as_auth (e : McpError) : option (Z * Challenge) :=
  match e with
  | Unauthorized s c => Some (s, c)
  | Because _ e' => as_auth e'
  | Beside e1 e2 => match as_auth e1 with Some r => Some r | None => as_auth e2 end
  | _ => None
  end.
Fixpoint only_legacy (e : McpError) : bool :=
  match e with
  | OnlyLegacy _ => true
  | Because _ e' => only_legacy e'
  | Beside e1 e2 => only_legacy e1 || only_legacy e2
  | _ => false
  end.
Fixpoint deadline (e : McpError) : bool :=
  match e with
  | Plainly (ErrContext s) => String.eqb s "context deadline exceeded"
  | Because _ e' => deadline e'
  | Beside e1 e2 => deadline e1 || deadline e2
  | _ => false
  end.

(* @src internal/mcp/limits.go 9-15 maxMessageBytes *)
Definition maxMessageBytes : Z := 2 ^ 24.
Definition maxErrorBody : Z := 2 ^ 16.
Definition maxErrorQuoted : Z := 300.

(* @src internal/mcp/transport.go 135-135 isRuneStart *)
Definition isRuneStart (b : Z) : bool := negb ((128 <=? b) && (b <? 192)).

(** The longest part of at most [n] bytes that ends where a rune does. *)
Fixpoint cut_at (n : nat) (l : list Z) : nat :=
  match n with
  | O => O
  | S n' => match l !! n with Some b => if isRuneStart b then n else cut_at n' l | None => n end
  end.

(** Runs of white space are one space. *)
Fixpoint words_go (acc : list Z) (l : list seg) : list string :=
  match l with
  | [] => match acc with [] => [] | _ => [of_bytes acc] end
  | s :: l' =>
      if is_space (seg_rune s) then match acc with [] => words_go [] l' | _ => of_bytes acc :: words_go [] l' end
      else words_go (acc ++ seg_bytes s) l'
  end.

(* @src internal/mcp/transport.go 121-133 quote *)
Definition quote_text (s : string) : string :=
  let s := trim_space (of_bytes (concat (map (fun g => if seg_ok g then seg_bytes g else []) (segs (bytes_of s))))) in
  let s := join (words_go [] (segs (bytes_of s))) " " in
  if maxErrorQuoted <? str_len s
  then str_take (cut_at 300 (bytes_of s)) s +:+ of_bytes [226; 128; 166]
  else s.

(** ** Streams of events *)

(** The lines of a stream: each without its end, and how much of it the
    scanner has to hold to find that end. A carriage return may be the first
    half of one. *)
(* @src internal/mcp/sse.go 87-109 scanSSELines *)
Fixpoint sse_lines (acc : list Z) (l : list Z) : list (list Z * Z) :=
  let held n := Z.of_nat (length acc) + n in
  match l with
  | [] => match acc with [] => [] | _ => [(acc, held 1)] end
  | 10 :: l' => (acc, held 1) :: sse_lines [] l'
  | 13 :: 10 :: l' => (acc, held 2) :: sse_lines [] l'
  | 13 :: l' => (acc, held 2) :: sse_lines [] l'
  | b :: l' => sse_lines (acc ++ [b]) l'
  end.

(* @src internal/mcp/sse.go 12-17 sseEvent *)
Record sseEvent := mkEvent { sse_name : string; sse_data : string }.

Inductive sse_end : Type := Ended | TooLarge | Broken.

(** A field of a line: its name, and its value without one blank in front. *)
Fixpoint cut_colon (line : string) : string * string :=
  match line with
  | EmptyString => (EmptyString, EmptyString)
  | String a l' => if byte_of a =? 58 then (EmptyString, l') else let '(k, v) := cut_colon l' in (String a k, v)
  end.
Definition sse_field (line : string) : string * string := let '(k, v) := cut_colon line in (k, trim_prefix v " ").

(** The events of a stream whose body ends, or breaks off, after these
    lines. *)
(* @src internal/mcp/sse.go 39-85 sseReader.next *)
Fixpoint sse_events (broken : bool) (name data : string) (has : bool) (l : list (list Z * Z)) : list sseEvent * sse_end :=
  match l with
  | [] => ([], if broken then Broken else Ended)
  | (line, held) :: l' =>
      if maxMessageBytes <? held then ([], TooLarge) else
      let line := of_bytes line in
      if String.eqb line EmptyString then
        if has then
          let '(evs, e) := sse_events broken EmptyString EmptyString false l' in
          (mkEvent (if String.eqb name EmptyString then "message" else name) (trim_suffix data nl) :: evs, e)
        else sse_events broken EmptyString data false l'
      else if has_prefix line ":" then sse_events broken name data has l'
      else
        let '(field, value) := sse_field line in
        if String.eqb field "event" then sse_events broken value data has l'
        else if String.eqb field "data" then
          if maxMessageBytes <? str_len data + str_len value then ([], TooLarge)
          else sse_events broken name (data +:+ value +:+ nl) true l'
        else sse_events broken name data has l'
  end.
(** What is read of a whole body. *)
Definition sse_read (broken : bool) (body : string) : list sseEvent * sse_end :=
  sse_events broken EmptyString EmptyString false (sse_lines [] (bytes_of body)).

(** ** Headers *)

(* @src internal/mcp/headers.go 22-25 sentinelForm *)
Definition sentinelForm (v : string) : bool := has_prefix v "=?base64?" && has_suffix v "?=".
(* @src internal/mcp/headers.go 27-40 plainHeaderValue *)
Definition plainHeaderValue (v : string) : bool :=
  if String.eqb v EmptyString || negb (String.eqb v (trim_space v)) then String.eqb v EmptyString
  else forallb (fun c => ((32 <=? c) && (c <=? 126)) || (c =? 9)) (bytes_of v).
(* @src internal/mcp/headers.go 12-20 headerValue *)
Definition headerValue (v : string) : string :=
  if plainHeaderValue v && negb (sentinelForm v) then v else "=?base64?" +:+ b64_encode false true v +:+ "?=".

(** The punctuation of a token. *)
Definition token_marks : list Z := [33; 35; 36; 37; 38; 39; 42; 43; 45; 46; 94; 95; 96; 124; 126].
(* @src internal/mcp/headers.go 163-178 headerToken *)
Definition headerToken (name : string) : bool :=
  match bytes_of name with
  | [] => false
  | l => forallb (fun c => ((97 <=? c) && (c <=? 122)) || ((65 <=? c) && (c <=? 90)) || ((48 <=? c) && (c <=? 57)) ||
                           existsb (Z.eqb c) token_marks) l
  end.
