(* ===== verification/McpClient.v ===== *)
(** The MCP client (internal/mcp client.go, ops.go, and the stdio transport):
    requests that wait for their responses, what the server sends unasked,
    which protocol a server speaks, and how a connection ends. Requests, the
    goroutines of transports, and those that answer the server are threads of
    [Threads]; what a transport makes of a message, contexts, and the user are
    functions of a step counter. *)
From stdpp Require Import sorting.
From S2P Require Import Prelude GoStr Json Failure Threads McpMessage.
From stdpp Require Import options.
Open Scope Z_scope.

(** ** Data *)

(* @src internal/mcp/protocol.go 10-12 Version *)
Definition Version : string := "2026-07-28".
(* @src internal/mcp/protocol.go 14-16 legacyVersions *)
Definition legacyVersions : list string := ["2025-11-25"; "2025-06-18"; "2025-03-26"; "2024-11-05"]%string.
(* @src internal/mcp/protocol.go 18-19 Era *)
Inductive Era : Set := EraModern | EraLegacy.
Definition is_modern (e : Era) : bool := match e with EraModern => true | EraLegacy => false end.

(* @src internal/mcp/protocol.go 28-36 metaProtocolVersion *)
Definition metaProtocolVersion : string := "io.modelcontextprotocol/protocolVersion".
Definition metaClientInfo : string := "io.modelcontextprotocol/clientInfo".
Definition metaClientCapabilities : string := "io.modelcontextprotocol/clientCapabilities".
Definition metaServerInfo : string := "io.modelcontextprotocol/serverInfo".
Definition metaProgressToken : string := "progressToken".

(* @src internal/mcp/protocol.go 38-43 resultComplete *)
Definition resultComplete : string := "complete".
Definition resultInputRequired : string := "input_required".

(* @src internal/mcp/protocol.go 301-311 notifyToolsChanged *)
Definition notifyProgress : string := "notifications/progress".
Definition notifyCancelled : string := "notifications/cancelled".
Definition notifyInitialized : string := "notifications/initialized".
Definition notifyAcknowledged : string := "notifications/subscriptions/acknowledged".

(* @src internal/mcp/limits.go 24-28 maxPages *)
Definition maxPages : nat := 50.
Definition maxInputRounds : nat := 8.

(** Whether a server reports changes of its lists. *)
(* @src internal/mcp/protocol.go 63-72 ServerCapabilities *)
Record ServerCapabilities := mkCapabilities { cap_Tools : bool; cap_Prompts : bool; cap_Resources : bool }.
Definition no_capabilities : ServerCapabilities := mkCapabilities false false false.

(* @src internal/mcp/protocol.go 96-97 eikaCapabilities *)
Definition eikaCapabilities : string := obj [member "elicitation" (obj [member "form" (obj []); member "url" (obj [])])].

(** [pc_resp] and [pc_lost] are channels that hold one. Who is told of
    progress, and who asks the user, are known by number. *)
(* @src internal/mcp/client.go 64-73 pendingCall *)
Record pendingCall := mkCall {
  pc_id : Z; pc_resp : option message; pc_lost : option McpError; pc_progress : option nat; pc_elicit : option nat;
}.

(** Calls are shared objects, known by their addresses. Beside the client's
    own fields: [cs_stopped] is whether its context ended, [cs_answering] what
    its wait group counts, [cs_closing] and [cs_reading] whether the
    transport's streams were closed and are still being read. What follows is
    only written: the messages that were handed to the transport and that came
    from it, notifications, progress, calls of the Closed handler, how
    requests ended, and whether the process crashed. *)
(* @src internal/mcp/client.go 36-62 Client *)
Record ClientState := mkClientState {
  cs_tick : nat; cs_era : Era; cs_version : string; cs_server : option string; cs_capabilities : ServerCapabilities;
  cs_instructions : string; cs_supported : list string; cs_nextID : Z; cs_calls : gmap nat pendingCall; cs_pending : gmap string nat;
  cs_closed : option McpError; cs_stopped : bool; cs_answering : nat; cs_closing : bool; cs_reading : bool;
  cs_sent : list message; cs_received : list message; cs_notified : list (string * option string); cs_progress : list (nat * string);
  cs_reports : list McpError; cs_ended : list (nat * (string + McpError)); cs_crashed : bool;
}.

(* @src internal/mcp/client.go 87-90 newClient *)
Definition newClient : ClientState :=
  mkClientState 0 EraModern EmptyString None no_capabilities EmptyString [] 0 ∅ ∅ None false 0 false true [] [] [] [] [] [] false.

(** A new client, at a later step. *)
Definition restart (t : nat) : ClientState :=
  mkClientState t EraModern EmptyString None no_capabilities EmptyString [] 0 ∅ ∅ None false 0 false true [] [] [] [] [] [] false.
Definition tick s := mkClientState (S (cs_tick s)) (cs_era s) (cs_version s) (cs_server s) (cs_capabilities s) (cs_instructions s) (cs_supported s) (cs_nextID s) (cs_calls s) (cs_pending s) (cs_closed s) (cs_stopped s) (cs_answering s) (cs_closing s) (cs_reading s) (cs_sent s) (cs_received s) (cs_notified s) (cs_progress s) (cs_reports s) (cs_ended s) (cs_crashed s).
Definition set_era x s := mkClientState (cs_tick s) x (cs_version s) (cs_server s) (cs_capabilities s) (cs_instructions s) (cs_supported s) (cs_nextID s) (cs_calls s) (cs_pending s) (cs_closed s) (cs_stopped s) (cs_answering s) (cs_closing s) (cs_reading s) (cs_sent s) (cs_received s) (cs_notified s) (cs_progress s) (cs_reports s) (cs_ended s) (cs_crashed s).
Definition set_version x s := mkClientState (cs_tick s) (cs_era s) x (cs_server s) (cs_capabilities s) (cs_instructions s) (cs_supported s) (cs_nextID s) (cs_calls s) (cs_pending s) (cs_closed s) (cs_stopped s) (cs_answering s) (cs_closing s) (cs_reading s) (cs_sent s) (cs_received s) (cs_notified s) (cs_progress s) (cs_reports s) (cs_ended s) (cs_crashed s).
Definition set_server x s := mkClientState (cs_tick s) (cs_era s) (cs_version s) x (cs_capabilities s) (cs_instructions s) (cs_supported s) (cs_nextID s) (cs_calls s) (cs_pending s) (cs_closed s) (cs_stopped s) (cs_answering s) (cs_closing s) (cs_reading s) (cs_sent s) (cs_received s) (cs_notified s) (cs_progress s) (cs_reports s) (cs_ended s) (cs_crashed s).
Definition set_capabilities x s := mkClientState (cs_tick s) (cs_era s) (cs_version s) (cs_server s) x (cs_instructions s) (cs_supported s) (cs_nextID s) (cs_calls s) (cs_pending s) (cs_closed s) (cs_stopped s) (cs_answering s) (cs_closing s) (cs_reading s) (cs_sent s) (cs_received s) (cs_notified s) (cs_progress s) (cs_reports s) (cs_ended s) (cs_crashed s).
Definition set_instructions x s := mkClientState (cs_tick s) (cs_era s) (cs_version s) (cs_server s) (cs_capabilities s) x (cs_supported s) (cs_nextID s) (cs_calls s) (cs_pending s) (cs_closed s) (cs_stopped s) (cs_answering s) (cs_closing s) (cs_reading s) (cs_sent s) (cs_received s) (cs_notified s) (cs_progress s) (cs_reports s) (cs_ended s) (cs_crashed s).
Definition set_supported x s := mkClientState (cs_tick s) (cs_era s) (cs_version s) (cs_server s) (cs_capabilities s) (cs_instructions s) x (cs_nextID s) (cs_calls s) (cs_pending s) (cs_closed s) (cs_stopped s) (cs_answering s) (cs_closing s) (cs_reading s) (cs_sent s) (cs_received s) (cs_notified s) (cs_progress s) (cs_reports s) (cs_ended s) (cs_crashed s).
Definition set_nextID x s := mkClientState (cs_tick s) (cs_era s) (cs_version s) (cs_server s) (cs_capabilities s) (cs_instructions s) (cs_supported s) x (cs_calls s) (cs_pending s) (cs_closed s) (cs_stopped s) (cs_answering s) (cs_closing s) (cs_reading s) (cs_sent s) (cs_received s) (cs_notified s) (cs_progress s) (cs_reports s) (cs_ended s) (cs_crashed s).
Definition set_calls x s := mkClientState (cs_tick s) (cs_era s) (cs_version s) (cs_server s) (cs_capabilities s) (cs_instructions s) (cs_supported s) (cs_nextID s) x (cs_pending s) (cs_closed s) (cs_stopped s) (cs_answering s) (cs_closing s) (cs_reading s) (cs_sent s) (cs_received s) (cs_notified s) (cs_progress s) (cs_reports s) (cs_ended s) (cs_crashed s).
Definition set_pending x s := mkClientState (cs_tick s) (cs_era s) (cs_version s) (cs_server s) (cs_capabilities s) (cs_instructions s) (cs_supported s) (cs_nextID s) (cs_calls s) x (cs_closed s) (cs_stopped s) (cs_answering s) (cs_closing s) (cs_reading s) (cs_sent s) (cs_received s) (cs_notified s) (cs_progress s) (cs_reports s) (cs_ended s) (cs_crashed s).
Definition set_closed x s := mkClientState (cs_tick s) (cs_era s) (cs_version s) (cs_server s) (cs_capabilities s) (cs_instructions s) (cs_supported s) (cs_nextID s) (cs_calls s) (cs_pending s) x (cs_stopped s) (cs_answering s) (cs_closing s) (cs_reading s) (cs_sent s) (cs_received s) (cs_notified s) (cs_progress s) (cs_reports s) (cs_ended s) (cs_crashed s).
Definition set_stopped x s := mkClientState (cs_tick s) (cs_era s) (cs_version s) (cs_server s) (cs_capabilities s) (cs_instructions s) (cs_supported s) (cs_nextID s) (cs_calls s) (cs_pending s) (cs_closed s) x (cs_answering s) (cs_closing s) (cs_reading s) (cs_sent s) (cs_received s) (cs_notified s) (cs_progress s) (cs_reports s) (cs_ended s) (cs_crashed s).
Definition set_answering x s := mkClientState (cs_tick s) (cs_era s) (cs_version s) (cs_server s) (cs_capabilities s) (cs_instructions s) (cs_supported s) (cs_nextID s) (cs_calls s) (cs_pending s) (cs_closed s) (cs_stopped s) x (cs_closing s) (cs_reading s) (cs_sent s) (cs_received s) (cs_notified s) (cs_progress s) (cs_reports s) (cs_ended s) (cs_crashed s).
Definition set_closing x s := mkClientState (cs_tick s) (cs_era s) (cs_version s) (cs_server s) (cs_capabilities s) (cs_instructions s) (cs_supported s) (cs_nextID s) (cs_calls s) (cs_pending s) (cs_closed s) (cs_stopped s) (cs_answering s) x (cs_reading s) (cs_sent s) (cs_received s) (cs_notified s) (cs_progress s) (cs_reports s) (cs_ended s) (cs_crashed s).
Definition set_reading x s := mkClientState (cs_tick s) (cs_era s) (cs_version s) (cs_server s) (cs_capabilities s) (cs_instructions s) (cs_supported s) (cs_nextID s) (cs_calls s) (cs_pending s) (cs_closed s) (cs_stopped s) (cs_answering s) (cs_closing s) x (cs_sent s) (cs_received s) (cs_notified s) (cs_progress s) (cs_reports s) (cs_ended s) (cs_crashed s).
Definition set_sent x s := mkClientState (cs_tick s) (cs_era s) (cs_version s) (cs_server s) (cs_capabilities s) (cs_instructions s) (cs_supported s) (cs_nextID s) (cs_calls s) (cs_pending s) (cs_closed s) (cs_stopped s) (cs_answering s) (cs_closing s) (cs_reading s) x (cs_received s) (cs_notified s) (cs_progress s) (cs_reports s) (cs_ended s) (cs_crashed s).
Definition set_received x s := mkClientState (cs_tick s) (cs_era s) (cs_version s) (cs_server s) (cs_capabilities s) (cs_instructions s) (cs_supported s) (cs_nextID s) (cs_calls s) (cs_pending s) (cs_closed s) (cs_stopped s) (cs_answering s) (cs_closing s) (cs_reading s) (cs_sent s) x (cs_notified s) (cs_progress s) (cs_reports s) (cs_ended s) (cs_crashed s).
Definition set_notified x s := mkClientState (cs_tick s) (cs_era s) (cs_version s) (cs_server s) (cs_capabilities s) (cs_instructions s) (cs_supported s) (cs_nextID s) (cs_calls s) (cs_pending s) (cs_closed s) (cs_stopped s) (cs_answering s) (cs_closing s) (cs_reading s) (cs_sent s) (cs_received s) x (cs_progress s) (cs_reports s) (cs_ended s) (cs_crashed s).
Definition set_progress x s := mkClientState (cs_tick s) (cs_era s) (cs_version s) (cs_server s) (cs_capabilities s) (cs_instructions s) (cs_supported s) (cs_nextID s) (cs_calls s) (cs_pending s) (cs_closed s) (cs_stopped s) (cs_answering s) (cs_closing s) (cs_reading s) (cs_sent s) (cs_received s) (cs_notified s) x (cs_reports s) (cs_ended s) (cs_crashed s).
Definition set_reports x s := mkClientState (cs_tick s) (cs_era s) (cs_version s) (cs_server s) (cs_capabilities s) (cs_instructions s) (cs_supported s) (cs_nextID s) (cs_calls s) (cs_pending s) (cs_closed s) (cs_stopped s) (cs_answering s) (cs_closing s) (cs_reading s) (cs_sent s) (cs_received s) (cs_notified s) (cs_progress s) x (cs_ended s) (cs_crashed s).
Definition set_ended x s := mkClientState (cs_tick s) (cs_era s) (cs_version s) (cs_server s) (cs_capabilities s) (cs_instructions s) (cs_supported s) (cs_nextID s) (cs_calls s) (cs_pending s) (cs_closed s) (cs_stopped s) (cs_answering s) (cs_closing s) (cs_reading s) (cs_sent s) (cs_received s) (cs_notified s) (cs_progress s) (cs_reports s) x (cs_crashed s).
Definition set_crashed x s := mkClientState (cs_tick s) (cs_era s) (cs_version s) (cs_server s) (cs_capabilities s) (cs_instructions s) (cs_supported s) (cs_nextID s) (cs_calls s) (cs_pending s) (cs_closed s) (cs_stopped s) (cs_answering s) (cs_closing s) (cs_reading s) (cs_sent s) (cs_received s) (cs_notified s) (cs_progress s) (cs_reports s) (cs_ended s) x.

Definition at_call (n : nat) (f : pendingCall -> pendingCall) (s : ClientState) : ClientState := set_calls (alter f n (cs_calls s)) s.
(** A channel that holds one takes what it is sent when it is empty. *)
Definition offer_resp (m : message) (c : pendingCall) : pendingCall :=
  match pc_resp c with None => mkCall (pc_id c) (Some m) (pc_lost c) (pc_progress c) (pc_elicit c) | Some _ => c end.
Definition offer_lost (e : McpError) (c : pendingCall) : pendingCall :=
  match pc_lost c with None => mkCall (pc_id c) (pc_resp c) (Some e) (pc_progress c) (pc_elicit c) | Some _ => c end.

(** ** Documents *)

(** A map is encoded in the order of its keys. *)
Definition key_le (p q : string * string) : Prop := String.le p.1 q.1.
#[export] Instance key_le_dec p q : Decision (key_le p q).
Proof. unfold key_le. apply _. Defined.
Definition marshal_map (m : gmap string string) : string := obj (map (fun p => member p.1 p.2) (merge_sort key_le (map_to_list m))).
(** [json.Unmarshal] into a map: the last of two members of one name stays. *)
Definition unmarshal_map (s : string) : option (gmap string string) := l ← members_of s; Some (list_to_map (rev l)).

Definition dec_object (s : string) : option unit := _ ← object_pairs s; Some tt.
Definition dec_bool_text (s : string) : option bool :=
  if String.eqb s "true" then Some true else if String.eqb s "false" then Some false else None.
(** A list of the capabilities: whether it says it changes. *)
Definition dec_listed (s : string) : option bool := l ← members_of s; field_of dec_bool_text false "listChanged" l.
Definition dec_resources (s : string) : option bool :=
  l ← members_of s; if all_decode dec_bool_text "subscribe" l then field_of dec_bool_text false "listChanged" l else None.
Definition dec_capabilities (s : string) : option ServerCapabilities :=
  l ← members_of s;
  if negb (all_decode dec_object "experimental" l && all_decode dec_object "extensions" l) then None else
  if negb (all_decode dec_listed "prompts" l && all_decode dec_resources "resources" l && all_decode dec_listed "tools" l) then None else
  let flag dec k := match pointer_of k l with Some v => default false (dec v) | None => false end in
  Some (mkCapabilities (flag dec_listed "tools") (flag dec_listed "prompts") (flag dec_resources "resources")).

(** What a result may carry beside its own. *)
(* @src internal/mcp/protocol.go 237-245 resultEnvelope *)
Record resultEnvelope := mkEnvelope {
  en_ResultType : string; en_Meta : gmap string string; en_InputRequests : list (string * (string * option string)); en_RequestState : option string;
}.
(* @src internal/mcp/protocol.go 247-252 inputRequest *)
Definition dec_input (s : string) : option (string * option string) :=
  l ← members_of s; method ← field_of unquote EmptyString "method" l; Some (method, raw_of "params" l).
Definition dec_inputs (s : string) : option (gmap string (string * option string)) :=
  m ← unmarshal_map s; l ← mapM (fun p => d ← dec_input p.2; Some (p.1, d)) (map_to_list m); Some (list_to_map l).
Definition dec_envelope (s : string) : option resultEnvelope :=
  l ← members_of s;
  kind ← field_of unquote EmptyString "resultType" l;
  meta ← field_of unmarshal_map ∅ "_meta" l;
  _ ← field_of unquote EmptyString "nextCursor" l;
  _ ← field_of dec_integer 0 "ttlMs" l;
  inputs ← field_of dec_inputs ∅ "inputRequests" l;
  if negb (all_decode unquote "requestState" l) then None else
  Some (mkEnvelope kind meta (map_to_list inputs) (match pointer_of "requestState" l with Some v => unquote v | None => None end)).

(* @src internal/mcp/protocol.go 254-262 ElicitRequest *)
Record ElicitRequest := mkElicitRequest { er_Mode : string; er_Message : string; er_Schema : option string; er_URL : string }.
(* @src internal/mcp/protocol.go 264-269 ElicitResult *)
Record ElicitResult := mkElicitResult { el_Action : string; el_Content : option string }.
(* @src internal/mcp/protocol.go 271-276 ElicitAccept *)
Definition ElicitAccept : string := "accept".
Definition ElicitDecline : string := "decline".
Definition ElicitCancel : string := "cancel".
Definition dec_elicit (s : string) : option ElicitRequest :=
  l ← members_of s;
  mode ← field_of unquote EmptyString "mode" l;
  text ← field_of unquote EmptyString "message" l;
  url ← field_of unquote EmptyString "url" l;
  Some (mkElicitRequest mode text (raw_of "requestedSchema" l) url).
Definition elicit_json (r : ElicitResult) : string :=
  obj (member "action" (quote (el_Action r)) :: match el_Content r with Some c => [member "content" c] | None => [] end).

(** What was sent to a request of the server, and what a request adds to the
    plain exchange. *)
(* @src internal/mcp/client.go 338-347 callOpts *)
Record callOpts := mkOpts { co_progress : option nat; co_elicit : option nat; co_probe : bool }.
Definition plain : callOpts := mkOpts None None false.

(* @src internal/mcp/client.go 468-497 Client.withMeta *)
Definition withMeta (self data : string) (era : Era) (version id : string) (progress : bool) : option string :=
  let meta := (if progress then <[metaProgressToken := id]> else fun m => m)
    (if is_modern era then {[metaProtocolVersion := quote version; metaClientInfo := self; metaClientCapabilities := eikaCapabilities]} else ∅) in
  if decide (meta = ∅) then Some data else
  m ← unmarshal_map data;
  Some (marshal_map (<["_meta"%string := marshal_map meta]> m)).

(** ** Outside *)

(** What a transport answers a message with (a response comes from another
    thread), whether it tells the server that the client gave up on a request,
    which of several ready channels a select takes, what the user answers whom,
    and whether the client has a handler of notifications. *)
Record ClientEnv := mkClientEnv {
  ce_send : nat -> message -> option McpError;
  ce_tells : nat -> bool;
  ce_pick : nat -> nat;
  ce_ask : nat -> nat -> ElicitRequest -> ElicitResult + McpError;
  ce_notify : bool;
}.

Section client.
(** [self] names the client, as JSON. *)
Context (E : ClientEnv) (self : string).
Abbreviation P := (prog ClientState).

Definition step {A} (f : ClientState -> A * ClientState) : P A := act (fun s => f (tick s)).
Definition look {A} (f : ClientState -> A) : P A := step (fun s => (f s, s)).
Definition change (f : ClientState -> ClientState) : P unit := step (fun s => (tt, f s)).
Definition try {A B} (m : P (A + McpError)) (f : A -> P (B + McpError)) : P (B + McpError) :=
  r ← m; match r with inl a => f a | inr e => mret (inr e) end.
Notation "x '<-?' m ; k" := (try m (fun x => k)) (at level 20, m at level 100, k at level 200, only parsing).

(** A context: when it has ended, and with what. *)
Abbreviation context := (nat -> option GoError).
Definition text_error (s : string) : McpError := Plainly (ErrText s).

(** ** A request and its response *)

Definition send (m : message) : P (unit + McpError) :=
  step (fun s => (match ce_send E (cs_tick s) m with Some e => inr e | None => inl tt end, set_sent (cs_sent s ++ [m]) s)).

(* @src internal/mcp/client.go 664-671 notification *)
Definition notification (method params : string) : message := mkMessage None method (Some params) None None.
(* @src internal/mcp/stdio.go 83-89 stdioTransport.cancelled *)
Definition cancelled (key : string) : P unit :=
  tells ← look (fun s => ce_tells E (cs_tick s));
  if (tells : bool)
  then _ ← send (notification notifyCancelled (marshal_map {["requestId"%string := key; "reason"%string := quote "the caller gave up"]})); mret tt
  else mret tt.

(** The channels of the select that are ready, and the one it takes. *)
Definition ready (ctx : context) (n : nat) (s : ClientState) : list (message + (McpError + GoError)) :=
  match cs_calls s !! n with
  | Some c => match pc_resp c with Some m => [inl m] | None => [] end ++
              match pc_lost c with Some e => [inr (inl e)] | None => [] end
  | None => []
  end ++ match ctx (cs_tick s) with Some e => [inr (inr e)] | None => [] end.
(* @src internal/mcp/client.go 449-462 Client.roundTrip *)
Definition select (ctx : context) (n : nat) : P (message + (McpError + GoError)) :=
  await (fun s => let s := tick s in let l := ready ctx n s in
    match l !! (ce_pick E (cs_tick s) mod length l)%nat with Some r => Some (r, s) | None => None end).

(* @src internal/mcp/client.go 449-465 Client.roundTrip *)
Definition response (ctx : context) (method : string) (o : callOpts) (n : nat) (key : string) : P (string + McpError) :=
  r ← select ctx n;
  match r with
  | inl m =>
      mret (match m_Error m, m_Result m with
            | Some e, _ => inr (Rpc e)
            | None, None => inr (text_error (method +:+ ": the response has no result"))
            | None, Some raw => inl raw
            end)
  | inr (inl e) => mret (inr (Because method e))
  | inr (inr e) => _ ← (if co_probe o then mret tt else cancelled key); mret (inr (Plainly e))
  end.

(** The section in which a call is numbered and registered. *)
(* @src internal/mcp/client.go 420-433 Client.roundTrip *)
Definition register (o : callOpts) (s : ClientState) : ((nat * Era * string) + McpError) * ClientState :=
  match cs_closed s with
  | Some e => (inr e, s)
  | None =>
      let id := cs_nextID s + 1 in
      let n := fresh (dom (cs_calls s)) in
      (inl (n, cs_era s, cs_version s),
       set_nextID id (set_calls (<[n := mkCall id None None (co_progress o) (co_elicit o)]> (cs_calls s))
         (set_pending (<[idKey (requestID id) := n]> (cs_pending s)) s)))
  end.
Definition call_id (n : nat) (s : ClientState) : Z := match cs_calls s !! n with Some c => pc_id c | None => 0 end.

(** The call is forgotten, and how it ended noted. *)
(* @src internal/mcp/client.go 434-438 Client.roundTrip *)
Definition forget (n : nat) (r : string + McpError) (s : ClientState) : ClientState :=
  set_ended (cs_ended s ++ [(n, r)]) (set_pending (base.delete (idKey (requestID (call_id n s))) (cs_pending s)) s).

(* @src internal/mcp/client.go 419-466 Client.roundTrip *)
Definition roundTrip (ctx : context) (method params : string) (o : callOpts) : P (string + McpError) :=
  c <-? step (register o);
  let '(n, era, version) := c in
  id ← look (call_id n);
  r ← match withMeta self params era version (requestID id) (bool_decide (is_Some (co_progress o))) with
      | None => mret (inr (text_error ("encode " +:+ method)))
      | Some body =>
          _ <-? send (mkMessage (Some (requestID id)) method (Some body) None None);
          response ctx method o n (idKey (requestID id))
      end;
  _ ← change (forget n r);
  mret r.

(** ** Input a server asks for *)

(** Of a Go map in any order, here in that of [map_to_list]. *)
(* @src internal/mcp/client.go 393-417 Client.answerInputs *)
Fixpoint answerInputs (requests : list (string * (string * option string))) (elicit : option nat) (out : gmap string string) : P (gmap string string + McpError) :=
  match requests with
  | [] => mret (inl out)
  | (key, (method, params)) :: requests' =>
      if negb (String.eqb method "elicitation/create")
      then mret (inr (text_error ("the server asked for " +:+ method +:+ ", which Eika does not offer")))
      else match dec_elicit (default EmptyString params) with
      | None => mret (inr (text_error "decode elicitation request"))
      | Some req =>
          match elicit with
          | None => answerInputs requests' elicit (<[key := elicit_json (mkElicitResult ElicitCancel None)]> out)
          | Some who =>
              res <-? look (fun s => ce_ask E (cs_tick s) who req);
              answerInputs requests' elicit (<[key := elicit_json res]> out)
          end
      end
  end.

(** The parameters of the next round. *)
Definition next_params (params responses : gmap string string) (state : option string) : gmap string string :=
  let m := base.delete "requestState"%string (base.delete "inputResponses"%string params) in
  let m := if decide (responses = ∅) then m else <["inputResponses"%string := marshal_map responses]> m in
  match state with Some x => <["requestState"%string := quote x]> m | None => m end.

(** [rounds] is how many rounds may still follow this one. *)
(* @src internal/mcp/client.go 349-391 Client.request *)
Fixpoint request_rounds (rounds : nat) (ctx : context) (method : string) (params : gmap string string) (o : callOpts) : P (string + McpError) :=
  raw <-? roundTrip ctx method (marshal_map params) o;
  match dec_envelope raw with
  | None => mret (inr (text_error ("decode " +:+ method +:+ " result")))
  | Some env =>
      if String.eqb (en_ResultType env) EmptyString || String.eqb (en_ResultType env) resultComplete then mret (inl raw)
      else if negb (String.eqb (en_ResultType env) resultInputRequired)
      then mret (inr (text_error ("the server answered " +:+ method +:+ " with result type " +:+ go_quote (en_ResultType env) +:+
             ", which this client does not know")))
      else match rounds with
      | O => mret (inr (text_error ("the server asked for input " +:+ itoa (Z.of_nat maxInputRounds) +:+ " times without finishing " +:+ method)))
      | S rounds' =>
          responses <-? answerInputs (en_InputRequests env) (co_elicit o) ∅;
          request_rounds rounds' ctx method (next_params params responses (en_RequestState env)) o
      end
  end.
Definition request : context -> string -> gmap string string -> callOpts -> P (string + McpError) := request_rounds (maxInputRounds - 1).

(** ** What the server sends *)

(** The one call in flight that can ask the user, when there is one only. *)
(* @src internal/mcp/client.go 603-625 Client.elicitorFor *)
Definition elicitorFor (via : string) (s : ClientState) : option nat :=
  let shared :=
    match omap (fun kn => c ← cs_calls s !! kn.2; pc_elicit c) (map_to_list (cs_pending s)) with
    | [who] => Some who
    | _ => None
    end in
  if String.eqb via EmptyString then shared else
  match cs_pending s !! via with Some n => c ← cs_calls s !! n; pc_elicit c | None => shared end.

(** The texts of failures to decode and to ask are left out. *)
(* @src internal/mcp/client.go 553-601 Client.answer *)
Definition answer (m : message) (via : string) : P unit :=
  r ← (if String.eqb (m_Method m) "ping" then mret (inl "{}"%string)
       else if String.eqb (m_Method m) "elicitation/create" then
         match dec_elicit (default EmptyString (m_Params m)) with
         | None => mret (inr (mkRPC codeInvalidParams EmptyString EmptyString))
         | Some req =>
             who ← look (elicitorFor via);
             match who with
             | None => mret (inl (elicit_json (mkElicitResult ElicitCancel None)))
             | Some w =>
                 res ← look (fun s => ce_ask E (cs_tick s) w req);
                 mret (match res with inl x => inl (elicit_json x) | inr _ => inr (mkRPC codeInternal EmptyString EmptyString) end)
             end
         end
       else mret (inr (mkRPC codeMethodNotFound ("Eika does not offer " +:+ m_Method m) EmptyString)));
  _ ← send (match r with inl x => mkMessage (m_ID m) EmptyString None (Some x) None | inr e => mkMessage (m_ID m) EmptyString None None (Some e) end);
  change (fun s => set_answering (pred (cs_answering s)) s).

(** A number, of whatever size. *)
Definition dec_number (v : string) : option unit :=
  match scan_number (bytes_of v) with Some (_, []) => Some tt | _ => None end.
(* @src internal/mcp/protocol.go 278-284 progressParams *)
Definition dec_progress (params : string) : option string :=
  l ← members_of params;
  if all_decode dec_number "progress" l && all_decode dec_number "total" l && all_decode unquote "message" l
  then Some (default EmptyString (raw_of "progressToken" l)) else None.

(* @src internal/mcp/client.go 528-551 Client.notified *)
Definition notified (m : message) : P unit :=
  if String.eqb (m_Method m) notifyProgress then
    match dec_progress (default EmptyString (m_Params m)) with
    | None => mret tt
    | Some token =>
        call ← look (fun s => (n ← cs_pending s !! idKey token; c ← cs_calls s !! n; pc_progress c) : option nat);
        match call with
        | Some who => change (fun s => set_progress (cs_progress s ++ [(who, default EmptyString (m_Params m))]) s)
        | None => mret tt
        end
    end
  else if String.eqb (m_Method m) notifyCancelled || String.eqb (m_Method m) notifyAcknowledged then mret tt
  else if ce_notify E then change (fun s => set_notified (cs_notified s ++ [(m_Method m, m_Params m)]) s)
  else mret tt.

(** A nil message is looked into, and the process dies. *)
(* @src internal/mcp/client.go 504-526 Client.receive *)
Definition receive (m : option message) (via : string) : P unit :=
  match m with
  | None => change (set_crashed true)
  | Some m =>
      if isResponse m then
        p ← step (fun s => (cs_pending s !! idKey (default EmptyString (m_ID m)), set_received (cs_received s ++ [m]) s));
        match p with Some n => change (at_call n (offer_resp m)) | None => mret tt end
      else if isNotification m then notified m
      else if isRequest m then
        _ ← change (fun s => set_answering (S (cs_answering s)) s);
        go (answer m via)
      else mret tt
  end.

(* @src internal/mcp/client.go 627-638 Client.lost *)
Definition lost (key : string) (err : McpError) : P unit :=
  p ← look (fun s => cs_pending s !! key);
  match p with Some n => change (at_call n (offer_lost err)) | None => mret tt end.

Fixpoint lose_all (ns : list nat) (err : McpError) : P unit :=
  match ns with [] => mret tt | n :: ns' => _ ← change (at_call n (offer_lost err)); lose_all ns' err end.

(* @src internal/mcp/client.go 640-662 Client.closedBy *)
Definition closedBy (err : McpError) : P unit :=
  calls ← step (fun s => match cs_closed s with
    | Some _ => (None, s)
    | None => (Some (map snd (map_to_list (cs_pending s))), set_closed (Some err) s)
    end);
  match calls with
  | None => mret tt
  | Some ns => _ ← lose_all ns err; change (fun s => set_reports (cs_reports s ++ [err]) s)
  end.

(** ** The end of a connection *)

Definition connection_closed : McpError := text_error "the connection is closed".

(** [tclose] is how the transport closes. *)
(* @src internal/mcp/client.go 314-329 Client.Close *)
Definition Close (tclose : P unit) : P unit :=
  first ← step (fun s => match cs_closed s with Some _ => (false, s) | None => (true, set_closed (Some connection_closed) s) end);
  if (first : bool) then
    _ ← change (set_stopped true);
    _ ← tclose;
    await (fun s => if Nat.eqb (cs_answering s) O then Some (tt, tick s) else None)
  else mret tt.

(* @src internal/mcp/client.go 331-336 Client.Done *)
Definition Done : P (option McpError) := look cs_closed.

(** The stdio transport's goroutine reads lines until the process closes its
    output, or the streams are closed: then [recv.closed] is called. Each line
    is what [decodeMessages] makes of it. *)
Fixpoint receive_all (ms : list (option message)) (via : string) : P unit :=
  match ms with [] => mret tt | m :: ms' => _ ← receive m via; receive_all ms' via end.

Definition no_more (err : McpError) : P unit := _ ← closedBy err; change (set_reading false).
Definition closed_output : McpError := text_error "the server process closed its output".

(** [ends] is why the output ends after these lines, if it does by itself. *)
(* @src internal/mcp/stdio.go 37-65 stdioTransport.read *)
Fixpoint stdio_read (lines : list string) (ends : option McpError) : P unit :=
  match lines with
  | [] =>
      match ends with
      | Some err => no_more err
      | None => _ ← await (fun s => if cs_closing s then Some (tt, tick s) else None); no_more closed_output
      end
  | line :: lines' =>
      _ ← match decodeMessages line with inl ms => receive_all ms EmptyString | inr _ => mret tt end;
      stdio_read lines' ends
  end.

(* @src internal/mcp/stdio.go 91-97 stdioTransport.close *)
Definition stdio_close : P unit :=
  _ ← change (set_closing true);
  await (fun s => if cs_reading s then None else Some (tt, tick s)).

(** ** Which protocol a server speaks *)

(* @src internal/mcp/client.go 237-246 hasLegacy *)
Definition hasLegacy (versions : list string) : bool := existsb (fun v => bool_decide (v ∈ legacyVersions)) versions.

(* @src internal/mcp/client.go 165-185 legacyAnswer *)
Definition legacyAnswer (err : McpError) : bool :=
  match as_auth err with
  | Some _ => false
  | None =>
      match as_http err with
      | Some (_, rpc) => match rpc with Some r => negb (modern r) | None => true end
      | None => match as_rpc err with Some r => negb (modern r) | None => only_legacy err end
      end
  end.

(** What a failed probe says of the server. *)
Definition probe_failure (err : McpError) : McpError :=
  let err := match as_http err with Some (_, Some rpc) => Rpc rpc | _ => err end in
  match as_rpc err with
  | Some rpc =>
      if rpc_Code rpc =? codeUnsupportedVersion then
        (if hasLegacy (supportedVersions rpc) then OnlyLegacy "it lists"
         else Because "the server speaks none of the protocol versions this client does" (Rpc rpc))
      else err
  | None => err
  end.

(* @src internal/mcp/protocol.go 215-220 discoverResult *)
Definition dec_discover (raw : string) : option (list string * ServerCapabilities * string) :=
  l ← members_of raw;
  versions ← field_of dec_string_list [] "supportedVersions" l;
  caps ← field_of dec_capabilities no_capabilities "capabilities" l;
  instructions ← field_of unquote EmptyString "instructions" l;
  Some (versions, caps, instructions).

(** The section in which the answer to server/discover is taken in. *)
Definition take_discover (versions : list string) (caps : ServerCapabilities) (instructions : string) (server : option string)
    (s : ClientState) : option McpError * ClientState :=
  let s := set_supported versions s in
  match versions with
  | [] => (Some (OnlyLegacy "its answer to server/discover lists no versions"), s)
  | _ =>
      if negb (bool_decide (Version ∈ versions)) then
        (Some (if hasLegacy versions then OnlyLegacy "it lists" else text_error "the server speaks none of the versions this client does"), s)
      else (None, set_instructions instructions (set_capabilities caps (match server with Some i => set_server (Some i) s | None => s end)))
  end.

Definition server_info (raw : string) : option string :=
  l ← members_of raw; meta ← raw_of "_meta" l; m ← unmarshal_map meta; m !! metaServerInfo.

(* @src internal/mcp/client.go 191-235 Client.discover *)
Definition discover (ctx : context) : P (option McpError) :=
  _ ← change (fun s => set_version Version (set_era EraModern s));
  r ← roundTrip ctx "server/discover" "{}" (mkOpts None None true);
  match r with
  | inr err => mret (Some (probe_failure err))
  | inl raw =>
      match dec_discover raw with
      | None => mret (Some (text_error "decode server/discover result"))
      | Some (versions, caps, instructions) => step (take_discover versions caps instructions (server_info raw))
      end
  end.

(* @src internal/mcp/protocol.go 55-61 Icon *)
Definition dec_icon (s : string) : option unit :=
  l ← members_of s;
  if all_decode unquote "src" l && all_decode unquote "mimeType" l && all_decode dec_string_list "sizes" l && all_decode unquote "theme" l
  then Some tt else None.
Definition dec_icons (s : string) : option unit :=
  l ← array_items s; if forallb (fun i => negb (not_null i) || bool_decide (is_Some (dec_icon i))) l then Some tt else None.
(* @src internal/mcp/protocol.go 45-53 Implementation *)
Definition dec_implementation (s : string) : option unit :=
  l ← members_of s;
  if forallb (fun k => all_decode unquote k l) ["name"; "title"; "version"; "description"; "websiteUrl"]%string && all_decode dec_icons "icons" l
  then Some tt else None.

(* @src internal/mcp/protocol.go 229-235 initializeResult *)
Definition dec_initialize (raw : string) : option (string * ServerCapabilities * option string * string) :=
  l ← members_of raw;
  version ← field_of unquote EmptyString "protocolVersion" l;
  caps ← field_of dec_capabilities no_capabilities "capabilities" l;
  instructions ← field_of unquote EmptyString "instructions" l;
  if negb (all_decode dec_implementation "serverInfo" l) then None else Some (version, caps, value_of "serverInfo" l, instructions).

(* @src internal/mcp/protocol.go 222-227 initializeParams *)
Definition initializeParams : string :=
  obj [member "protocolVersion" (quote (List.hd EmptyString legacyVersions)); member "capabilities" eikaCapabilities; member "clientInfo" self].

(* @src internal/mcp/client.go 248-276 Client.initialize *)
Definition initialize (ctx : context) : P (option McpError) :=
  _ ← change (fun s => set_version EmptyString (set_era EraLegacy s));
  r ← roundTrip ctx "initialize" initializeParams plain;
  match r with
  | inr err => mret (Some err)
  | inl raw =>
      match dec_initialize raw with
      | None => mret (Some (text_error "decode initialize result"))
      | Some (version, caps, server, instructions) =>
          if negb (bool_decide (version ∈ legacyVersions))
          then mret (Some (text_error ("the server speaks protocol version " +:+ go_quote version +:+ ", which this client does not")))
          else
            _ ← change (fun s => set_version version (set_server server (set_capabilities caps (set_instructions instructions s))));
            sent ← send (notification notifyInitialized "{}");
            mret (match sent with inl _ => None | inr e => Some e end)
      end
  end.

(** ** Connecting *)

(** Of the failures of an initialize request, those after which the endpoint
    may be one that takes no POST. *)
Definition takes_no_post (err : McpError) : bool :=
  match as_http err with
  | Some (status, None) => (status =? 400) || (status =? 404) || (status =? 405)
  | _ => false
  end.

(** The two transports close as [http_close] and [sse_close] do; [dial] is
    what opening the event stream gives. The first client is no more used when
    the second is made. *)
(* @src internal/mcp/client.go 92-137 ConnectHTTP *)
Definition ConnectHTTP (ctx : context) (http_close sse_close : P unit) (dial : nat -> option McpError) : P (string + McpError) :=
  probe ← discover ctx;
  match probe with
  | None => mret (inl "streamable_http"%string)
  | Some probe =>
      if negb (legacyAnswer probe) then _ ← Close http_close; mret (inr probe) else
      legacy ← initialize ctx;
      match legacy with
      | None => mret (inl "streamable_http"%string)
      | Some legacy =>
          _ ← Close http_close;
          if negb (takes_no_post legacy) then mret (inr legacy) else
          _ ← change (fun s => restart (cs_tick s));
          dialled ← look (fun s => dial (cs_tick s));
          match dialled with
          | Some err => mret (inr (match as_auth err with Some _ => err | None => Because "as an HTTP+SSE server" (Beside legacy err) end))
          | None =>
              r ← initialize ctx;
              match r with
              | None => mret (inl "sse"%string)
              | Some err => _ ← Close sse_close; mret (inr err)
              end
          end
      end
  end.

(** [probe] is the context with the timeout of the probe. *)
(* @src internal/mcp/client.go 139-163 ConnectStdio *)
Definition ConnectStdio (ctx probe : context) : P (string + McpError) :=
  found ← discover probe;
  match found with
  | None => mret (inl "stdio"%string)
  | Some err =>
      live ← look (fun s => negb (bool_decide (is_Some (ctx (cs_tick s)))));
      if negb (deadline err && (live : bool)) && negb (legacyAnswer err) then _ ← Close stdio_close; mret (inr err) else
      r ← initialize ctx;
      match r with
      | None => mret (inl "stdio"%string)
      | Some err => _ ← Close stdio_close; mret (inr err)
      end
  end.

(** ** Operations *)

Section lists.
(** An item, as the type that is listed decodes it. *)
Context {T : Type} (dec_item : string -> option T).

(** [pages] is how many may still be asked for. *)
(* @src internal/mcp/ops.go 47-81 listAll *)
Fixpoint listAll (pages : nat) (ctx : context) (method field cursor : string) (out : list T) : P (list T + McpError) :=
  match pages with
  | O => mret (inr (text_error (method +:+ ": the server kept paging past " +:+ itoa (Z.of_nat maxPages) +:+ " pages")))
  | S pages' =>
      raw <-? request ctx method (if String.eqb cursor EmptyString then ∅ else {["cursor"%string := quote cursor]}) plain;
      match unmarshal_map raw with
      | None => mret (inr (text_error ("decode " +:+ method +:+ " result")))
      | Some body =>
          match match body !! field with
                | Some items => if not_null items then l ← array_items items; mapM dec_item l else Some []
                | None => Some []
                end with
          | None => mret (inr (text_error ("decode " +:+ method +:+ " result")))
          | Some page =>
              let next := default EmptyString (v ← body !! "nextCursor"%string; unquote v) in
              if String.eqb next EmptyString || String.eqb next cursor then mret (inl (out ++ page))
              else listAll pages' ctx method field next (out ++ page)
          end
      end
  end.
End lists.

(** The answer is decoded by [dec]. *)
Definition operation {T} (dec : string -> option T) (ctx : context) (method : string) (params : gmap string string) (o : callOpts) : P (T + McpError) :=
  raw <-? request ctx method params o;
  mret (match dec raw with Some r => inl r | None => inr (text_error ("decode " +:+ method +:+ " result")) end).

(** Arguments that are missing or null are an empty object. *)
(* @src internal/mcp/ops.go 83-104 Client.CallTool *)
Definition CallTool {T} (dec : string -> option T) (ctx : context) (name args : string) (progress elicit : option nat) : P (T + McpError) :=
  let args := trim_space args in
  operation dec ctx "tools/call"
    {["name"%string := quote name; "arguments"%string := if String.eqb args EmptyString || negb (not_null args) then "{}"%string else args]}
    (mkOpts progress elicit false).
(* @src internal/mcp/ops.go 106-117 Client.ReadResource *)
Definition ReadResource {T} (dec : string -> option T) (ctx : context) (uri : string) (elicit : option nat) : P (T + McpError) :=
  operation dec ctx "resources/read" {["uri"%string := quote uri]} (mkOpts None elicit false).
(* @src internal/mcp/ops.go 119-134 Client.GetPrompt *)
Definition GetPrompt {T} (dec : string -> option T) (ctx : context) (name : string) (args : gmap string string) (elicit : option nat) : P (T + McpError) :=
  operation dec ctx "prompts/get"
    (let m := {["name"%string := quote name]} in if decide (args = ∅) then m else <["arguments"%string := marshal_map (quote <$> args)]> m)
    (mkOpts None elicit false).

(* @src internal/mcp/ops.go 143-151 subscriptionFor *)
Definition subscriptionFor (c : ServerCapabilities) : list string :=
  (if cap_Tools c then ["toolsListChanged"%string] else []) ++ (if cap_Prompts c then ["promptsListChanged"%string] else []) ++
  (if cap_Resources c then ["resourcesListChanged"%string] else []).
(* @src internal/mcp/ops.go 136-141 Client.listens *)
Definition listens (s : ClientState) : bool := is_modern (cs_era s) && negb (bool_decide (subscriptionFor (cs_capabilities s) = [])).
(* @src internal/mcp/ops.go 153-160 Client.Listen *)
Definition Listen (ctx : context) : P (option McpError) :=
  filter ← look (fun s => subscriptionFor (cs_capabilities s));
  r ← roundTrip ctx "subscriptions/listen" (marshal_map {["notifications"%string := obj (map (fun k => member k "true") filter)]}) plain;
  mret (match r with inl _ => None | inr e => Some e end).
End client.
