(* ===== verification/McpClaims.v ===== *)
(** What the MCP client promises, however requests, the goroutines of
    transports, and the closing of the connection interleave, and where it does
    not keep its word. *)
From S2P Require Import Prelude GoStr Json Failure Threads McpMessage McpClient.
From stdpp Require Import options.
Open Scope Z_scope.

#[local] Set Default Proof Using "Type*".

(** ** Keys *)

Definition key_of (id : Z) : string := idKey (requestID id).

Lemma compact_not_null s : Forall (fun b => 48 <= b <= 57) (bytes_of s) -> compact s <> Some null.
Proof.
  intros Hs Hc. unfold compact in Hc. destruct (scan_value _ _ _ _) as [[o r]|] eqn:Ev; [|done]. cbn in Hc.
  destruct (skip_ws r); [|done]. injection Hc as Ho. destruct Hs as [|b l Hb _]; [done|].
  cbn -[Nat.mul scan_number max_nesting] in Ev. replace (is_ws b) with false in Ev by (unfold is_ws; lia).
  rewrite !(proj2 (Z.eqb_neq b _)) in Ev by lia. unfold scan_number in Ev. rewrite (proj2 (Z.eqb_neq b 45)) in Ev by lia.
  unfold scan_int in Ev. destruct (b =? 48) eqn:E0; [|replace (is_digit b) with true in Ev by (unfold is_digit; lia)]; cbn -[scan_frac scan_exp take_digits] in Ev.
  - destruct (scan_frac l) as [[f l3]|]; [|done]. cbn -[scan_exp] in Ev. destruct (scan_exp l3) as [[e l4]|]; [|done]. cbn in Ev. by injection Ev as <- _.
  - cbn [take_digits] in Ev. replace (is_digit b) with true in Ev by (unfold is_digit; lia). destruct (take_digits l) as [d l2].
    cbn -[scan_exp scan_frac] in Ev. destruct (scan_frac l2) as [[f l3]|]; [|done]. cbn -[scan_exp] in Ev.
    destruct (scan_exp l3) as [[e l4]|]; [|done]. cbn in Ev. injection Ev as <- _.
    apply (f_equal bytes_of) in Ho. cbn in Ho. injection Ho as Hb' _. rewrite byte_of_of_byte in Hb' by lia.
    vm_compute in Hb'. lia.
Qed.

Lemma key_of_itoa id : 0 <= id -> key_of id = itoa id.
Proof.
  intros Hid. pose proof (itoa_digits id Hid) as Hd. unfold key_of, requestID, idKey.
  destruct (String.eqb_spec (default (itoa id) (compact (itoa id))) null) as [He|_].
  - exfalso. destruct (compact (itoa id)) as [c|] eqn:Ec; cbn in He; [subst c; by apply compact_not_null in Hd|].
    rewrite He in Hd. apply Forall_cons in Hd as [[_ Hd] _]. by apply Hd.
  - replace (unquote (itoa id)) with (@None string).
    + apply trim_space_plain. eapply Forall_impl; [exact Hd|]. cbn. intros b Hb. split; [lia|]. unfold is_space. lia.
    + unfold unquote. destruct (bytes_of (itoa id)) as [|b l]; [done|]. apply Forall_cons in Hd as [Hb _]. cbn [skip_ws].
      replace (is_ws b) with false by (unfold is_ws; lia). destruct b as [|p|p]; [lia| |lia]. do 6 (destruct p as [p|p|]; try done; try lia).
Qed.
Lemma key_of_inj id id' : 0 <= id -> 0 <= id' -> key_of id = key_of id' -> id = id'.
Proof. intros H H' He. rewrite !key_of_itoa in He by done. by apply (inj (pretty (A := Z))). Qed.

(** ** What holds between any two actions *)

(** The message answers the request of that number. *)
Definition answers (m : message) (id : Z) : Prop := isResponse m = true /\ idKey (default EmptyString (m_ID m)) = key_of id.

(** What a request ended with is what its response says. *)
Definition says (c : pendingCall) (r : string + McpError) : Prop :=
  forall raw, r = inl raw -> exists m, pc_resp c = Some m /\ m_Error m = None /\ m_Result m = Some raw.

Definition served (c : pendingCall) : Prop := is_Some (pc_resp c) \/ is_Some (pc_lost c).

(** What the threads of a client know of its state. *)
Record Core := mkCore {
  k_nextID : Z; k_calls : gmap nat pendingCall; k_pending : gmap string nat; k_closed : option McpError;
  k_received : list message; k_ended : list (nat * (string + McpError)); k_reports : list McpError;
}.
Definition core (s : ClientState) : Core :=
  mkCore (cs_nextID s) (cs_calls s) (cs_pending s) (cs_closed s) (cs_received s) (cs_ended s) (cs_reports s).

Definition is_over (n : nat) (k : Core) : Prop := n ∈ (k_ended k).*1.
Definition live (n : nat) (k : Core) : Prop := is_Some (k_calls k !! n) /\ ~ is_over n k.
#[local] Instance live_dec n k : Decision (live n k).
Proof using Type. unfold live, is_over. apply _. Defined.

(** Every request that goes on is served, but those of the list. *)
Definition covered (ns : list nat) (k : Core) : Prop :=
  is_Some (k_closed k) /\ forall n c, k_calls k !! n = Some c -> live n k -> served c \/ n ∈ ns.

Record Inv (k : Core) : Prop := {
  i_pending : forall key n, k_pending k !! key = Some n -> exists c, k_calls k !! n = Some c /\ key = key_of (pc_id c);
  i_waiting : forall n c, k_calls k !! n = Some c -> live n k -> k_pending k !! key_of (pc_id c) = Some n;
  i_next : 0 <= k_nextID k;
  i_ids : forall n c, k_calls k !! n = Some c -> 0 < pc_id c <= k_nextID k;
  i_once : forall n n' c c', k_calls k !! n = Some c -> k_calls k !! n' = Some c' -> pc_id c = pc_id c' -> n = n';
  i_resp : forall n c m, k_calls k !! n = Some c -> pc_resp c = Some m -> m ∈ k_received k /\ answers m (pc_id c);
  i_ended : forall n r, (n, r) ∈ k_ended k -> exists c, k_calls k !! n = Some c /\ says c r;
  i_ends : NoDup (k_ended k).*1;
  i_reports : k_reports k <> [] -> covered [] k;
}.

(** A call keeps its number and what was sent to it. *)
Definition keeps_call (c c' : pendingCall) : Prop :=
  pc_id c' = pc_id c /\ (forall m, pc_resp c = Some m -> pc_resp c' = Some m) /\ (forall e, pc_lost c = Some e -> pc_lost c' = Some e).

Record Guard (k k' : Core) : Prop := {
  g_calls : forall n c, k_calls k !! n = Some c -> exists c', k_calls k' !! n = Some c' /\ keeps_call c c';
  g_received : k_received k ⊆ k_received k';
  g_over : forall n, is_over n k -> is_over n k';
  g_closed : is_Some (k_closed k) -> is_Some (k_closed k') /\ forall n, is_Some (k_calls k' !! n) -> is_Some (k_calls k !! n);
  g_reports : k_reports k <> [] -> k_reports k' <> [];
}.

(** Who closes the client owns number 0, and a request its call. *)
Definition view (p : nat) (k : Core) : option (list McpError) :=
  match p with
  | O => if k_closed k then Some (k_reports k) else None
  | S n => if decide (live n k) then Some [] else None
  end.

Record moved (o : option nat) (k k' : Core) : Prop := {
  mv_inv : Inv k'; mv_guard : Guard k k'; mv_view : forall p, o <> Some p -> view p k' = view p k \/ view p k = None;
}.

Lemma keeps_refl c : keeps_call c c. Proof. by repeat split. Qed.
Lemma keeps_trans c c' c'' : keeps_call c c' -> keeps_call c' c'' -> keeps_call c c''.
Proof. intros (H1 & H2 & H3) (H4 & H5 & H6). split; [congruence|]. split; eauto. Qed.
Lemma served_keeps c c' : keeps_call c c' -> served c -> served c'.
Proof. intros (_ & H1 & H2) [[m Hm]|[e He]]; [left; rewrite (H1 m Hm)|right; rewrite (H2 e He)]; eauto. Qed.
Lemma says_keeps c c' r : keeps_call c c' -> says c r -> says c' r.
Proof. intros (_ & H1 & _) Hs raw Hr. destruct (Hs raw Hr) as (m & Hm & H). exists m. eauto. Qed.

Lemma Guard_refl k : Guard k k.
Proof. split; [|done|done|done|done]. intros n c Hc. exists c. split; [done|apply keeps_refl]. Qed.
Lemma mcp_moved_refl o k : Inv k -> moved o k k.
Proof. intros Hi. split; [done|apply Guard_refl|by left]. Qed.

(** ** What lasts *)

Definition lasting (X : Core -> Prop) : Prop := forall k k', Inv k -> Inv k' -> Guard k k' -> X k -> X k'.

Lemma lasting_and (X Y : Core -> Prop) : lasting X -> lasting Y -> lasting (fun k => X k /\ Y k).
Proof. intros HX HY k k' H1 H2 H3 [Hx Hy]. split; [by apply (HX k)|by apply (HY k)]. Qed.
Definition anything (_ : Core) : Prop := True.
Lemma mcp_lasting_anything : lasting anything. Proof. done. Qed.

(** There is a call of that number, which has been sent that. *)
Definition call_of (n : nat) (Q : pendingCall -> Prop) (k : Core) : Prop := exists c, k_calls k !! n = Some c /\ Q c.
Lemma lasting_call n Q : (forall c c', keeps_call c c' -> Q c -> Q c') -> lasting (call_of n Q).
Proof. intros HQ k k' _ _ Hg (c & Hc & H). destruct (g_calls _ _ Hg n c Hc) as (c' & Hc' & Hk). exists c'. split; [done|by apply (HQ c)]. Qed.
Lemma lasting_covered ns : lasting (covered ns).
Proof.
  intros k k' _ _ Hg [Hcl Hc]. destruct (g_closed _ _ Hg Hcl) as [Hcl' Hdom]. split; [done|]. intros n c' Hc' [_ Hover].
  destruct (Hdom n) as [c Hn]; [by eexists|]. destruct (g_calls _ _ Hg n c Hn) as (c'' & Hc'' & Hk). simplify_eq.
  destruct (Hc n c Hn) as [Hs|Hin]; [split; [by eexists|]|left; by apply (served_keeps c)|by right].
  intros Ho. by apply Hover, (g_over _ _ Hg).
Qed.

(** ** Steps *)

Lemma keeps_alter f n k k' :
  k_calls k' = alter f n (k_calls k) -> (forall c, k_calls k !! n = Some c -> keeps_call c (f c)) ->
  (forall j c, k_calls k !! j = Some c -> exists c', k_calls k' !! j = Some c' /\ keeps_call c c') /\
  (forall j c', k_calls k' !! j = Some c' -> exists c, k_calls k !! j = Some c /\ keeps_call c c' /\ (c' = c \/ j = n /\ c' = f c)).
Proof.
  intros -> Hf. split; intros j c Hj; destruct (decide (j = n)) as [->|Hne].
  - exists (f c). rewrite lookup_alter_eq, Hj. auto.
  - exists c. rewrite lookup_alter_ne by done. split; [done|apply keeps_refl].
  - rewrite lookup_alter_eq in Hj. destruct (k_calls k !! n) as [c0|] eqn:E; [|done]. injection Hj as <-. exists c0. auto 6.
  - rewrite lookup_alter_ne in Hj by done. exists c. split; [done|]. split; [apply keeps_refl|by left].
Qed.

Lemma view_same k k' p :
  (forall n, is_Some (k_calls k' !! n) <-> is_Some (k_calls k !! n)) -> k_closed k' = k_closed k -> k_ended k' = k_ended k ->
  k_reports k' = k_reports k -> view p k' = view p k.
Proof.
  intros Hd Hc He Hr. destruct p as [|n]; cbn; [by rewrite Hc, Hr|].
  assert (Hl : live n k' <-> live n k) by (unfold live, is_over; by rewrite He, Hd). by rewrite (decide_ext _ _ _ _ Hl).
Qed.

(** Something is sent to a call. *)
Lemma at_moved o n f s :
  Inv (core s) -> (forall c, cs_calls s !! n = Some c -> keeps_call c (f c) /\
    forall m, pc_resp (f c) = Some m -> pc_resp c = Some m \/ m ∈ cs_received s /\ answers m (pc_id c)) ->
  moved o (core s) (core (at_call n f s)).
Proof.
  intros Hi Hf. destruct (keeps_alter f n (core s) (core (at_call n f s)) eq_refl) as [Hto Hfrom]; [intros c Hc; by apply Hf|].
  assert (Hd : forall j, is_Some (k_calls (core (at_call n f s)) !! j) <-> is_Some (k_calls (core s) !! j)).
  { intros j. split; intros [c Hc]; [destruct (Hfrom j c Hc) as (c' & Hc' & _)|destruct (Hto j c Hc) as (c' & Hc' & _)]; by exists c'. }
  assert (Hl : forall j, live j (core (at_call n f s)) <-> live j (core s)) by (intros j; unfold live, is_over; by rewrite Hd).
  assert (Hg : Guard (core s) (core (at_call n f s))) by (split; [done|done|done|intros Hcl; split; [done|intros j; apply Hd]|done]).
  destruct Hi as [I1 I2 I3 I4 I5 I6 I7 I8 I9]. split; [split| |].
  - intros key j Hj. destruct (I1 key j Hj) as (c & Hc & ->). destruct (Hto j c Hc) as (c' & Hc' & Hk & _). exists c'. by rewrite Hk.
  - intros j c' Hc' Hlj. destruct (Hfrom j c' Hc') as (c & Hc & (Hk & _) & _). rewrite Hk. apply (I2 j c Hc). by apply Hl.
  - done.
  - intros j c' Hc'. destruct (Hfrom j c' Hc') as (c & Hc & (Hk & _) & _). rewrite Hk. by apply (I4 j).
  - intros j j' c c' Hc Hc' He. destruct (Hfrom j c Hc) as (d & Hd1 & (Hk & _) & _), (Hfrom j' c' Hc') as (d' & Hd1' & (Hk' & _) & _).
    apply (I5 j j' d d'); [done|done|congruence].
  - intros j c' m Hc' Hm. destruct (Hfrom j c' Hc') as (c & Hc & (Hk & _) & Hcase). rewrite Hk. destruct Hcase as [->|[-> ->]]; [by apply (I6 j)|].
    destruct (Hf c Hc) as [_ Hr]. destruct (Hr m Hm) as [H|H]; [by apply (I6 n)|done].
  - intros j r Hr. destruct (I7 j r Hr) as (c & Hc & Hs). destruct (Hto j c Hc) as (c' & Hc' & Hk). exists c'. split; [done|by apply (says_keeps c)].
  - done.
  - intros Hr. destruct (I9 Hr) as [Hcl Hc]. split; [done|]. intros j c' Hc' Hlj. destruct (Hfrom j c' Hc') as (c & Hcc & Hk & _).
    destruct (Hc j c Hcc) as [H|H]; [by apply Hl|left; by apply (served_keeps c)|by right].
  - exact Hg.
  - intros p _. left. by apply view_same.
Qed.

Lemma offer_lost_moved o n e s : Inv (core s) -> moved o (core s) (core (at_call n (offer_lost e) s)).
Proof.
  intros Hi. apply at_moved; [done|]. intros c Hc. unfold offer_lost. destruct (pc_lost c) eqn:E; [split; [apply keeps_refl|by left]|].
  split; [|by left]. split; [done|]. split; [done|]. intros e'. by rewrite E.
Qed.
Lemma offer_resp_moved o n m s :
  Inv (core s) -> m ∈ cs_received s -> call_of n (fun c => answers m (pc_id c)) (core s) -> moved o (core s) (core (at_call n (offer_resp m) s)).
Proof.
  intros Hi Hm (c0 & Hc0 & Ha). apply at_moved; [done|]. intros c Hc. change (cs_calls s) with (k_calls (core s)) in Hc.
  assert (c = c0) as -> by congruence. clear Hc.
  unfold offer_resp. destruct (pc_resp c0) eqn:E; [split; [apply keeps_refl|]; intros m'; rewrite E; by left|].
  split; [split; [done|]; split; [intros m'; by rewrite E|done]|]. intros m' [= <-]. by right.
Qed.

(** A call is registered. *)
Lemma register_moved opts s n e v s' :
  Inv (core s) -> register opts s = (inl (n, e, v), s') ->
  moved (Some (S n)) (core s) (core s') /\ view (S n) (core s') = Some [] /\ view (S n) (core s) = None.
Proof.
  intros Hi Hr. unfold register in Hr. destruct (cs_closed s) eqn:Ec; [done|]. cbv zeta in Hr. injection Hr as Hn _ _ Hs.
  assert (Hfresh : cs_calls s !! n = None) by (apply not_elem_of_dom; rewrite <- Hn; apply is_fresh).
  set (c := mkCall (cs_nextID s + 1) None None (co_progress opts) (co_elicit opts)).
  rewrite Hn in Hs. set (k := core s) in *. assert (Hk : core s' = mkCore (k_nextID k + 1) (<[n := c]> (k_calls k))
    (<[key_of (k_nextID k + 1) := n]> (k_pending k)) (k_closed k) (k_received k) (k_ended k) (k_reports k)) by (by subst s').
  rewrite Hk. clear Hk Hs s' Hn. destruct Hi as [I1 I2 I3 I4 I5 I6 I7 I8 I9]. change (k_calls k !! n = None) in Hfresh. change (k_closed k = None) in Ec.
  assert (Hnot : ~ is_over n k).
  { intros Ho. unfold is_over in Ho. apply list_elem_of_fmap in Ho as ([n' r] & -> & Hin). destruct (I7 _ _ Hin) as (c' & Hc' & _).
    change (k_calls k !! n' = None) in Hfresh. congruence. }
  assert (Hlive : live n (mkCore (k_nextID k + 1) (<[n := c]> (k_calls k)) (<[key_of (k_nextID k + 1) := n]> (k_pending k)) (k_closed k) (k_received k) (k_ended k) (k_reports k))).
  { split; [cbn; by rewrite lookup_insert_eq|exact Hnot]. }
  split; [split; [split| |]|split].
  all: cbn [k_nextID k_calls k_pending k_closed k_received k_ended k_reports].
  - intros key j Hj. destruct (decide (key = key_of (k_nextID k + 1))) as [->|Hne].
    + rewrite lookup_insert_eq in Hj. injection Hj as <-. exists c. by rewrite lookup_insert_eq.
    + rewrite lookup_insert_ne in Hj by done. destruct (I1 key j Hj) as (c' & Hc' & He). exists c'. split; [|done].
      rewrite lookup_insert_ne; [done|]. intros <-. congruence.
  - intros j c' Hj Hl. destruct (decide (j = n)) as [->|Hne].
    + rewrite lookup_insert_eq in Hj. injection Hj as <-. by rewrite lookup_insert_eq.
    + rewrite lookup_insert_ne in Hj by done. rewrite lookup_insert_ne.
      * apply (I2 j c' Hj). split; [by eexists|apply Hl].
      * intros He. apply key_of_inj in He; [|lia|pose proof (I4 j c' Hj); lia]. pose proof (I4 j c' Hj). lia.
  - lia.
  - intros j c' Hj. destruct (decide (j = n)) as [->|Hne]; [rewrite lookup_insert_eq in Hj; injection Hj as <-; cbn; subst k; cbn in *; lia|].
    rewrite lookup_insert_ne in Hj by done. pose proof (I4 j c' Hj). lia.
  - assert (Hnew : forall j d, k_calls k !! j = Some d -> pc_id d <> pc_id c) by (intros j d Hd; pose proof (I4 j d Hd); subst k c; cbn in *; lia).
    intros j j' d d' Hd Hd' He. destruct (decide (j = n)) as [->|H1], (decide (j' = n)) as [->|H2]; [done| | |].
    + rewrite lookup_insert_eq in Hd. injection Hd as <-. rewrite lookup_insert_ne in Hd' by done. by destruct (Hnew j' d').
    + rewrite lookup_insert_eq in Hd'. injection Hd' as <-. rewrite lookup_insert_ne in Hd by done. by destruct (Hnew j d).
    + rewrite lookup_insert_ne in Hd, Hd' by done. by apply (I5 j j' d d').
  - intros j c' m Hj Hm. destruct (decide (j = n)) as [->|Hne]; [rewrite lookup_insert_eq in Hj; by injection Hj as <-|].
    rewrite lookup_insert_ne in Hj by done. by apply (I6 j).
  - intros j r Hr. destruct (I7 j r Hr) as (c' & Hc' & Hs). exists c'. split; [|done]. rewrite lookup_insert_ne; [done|]. intros <-. congruence.
  - done.
  - intros Hr. destruct (I9 Hr) as [[x Hx] _]. congruence.
  - split; [| done | done | |done].
    + intros j c' Hj. exists c'. split; [|apply keeps_refl]. cbn. rewrite lookup_insert_ne; [done|]. intros <-. congruence.
    + rewrite Ec. by intros [? ?].
  - intros [|j] Hp; [by left|]. left. cbn. assert (Hl : live j (mkCore (k_nextID k + 1) (<[n := c]> (k_calls k))
      (<[key_of (k_nextID k + 1) := n]> (k_pending k)) (k_closed k) (k_received k) (k_ended k) (k_reports k)) <-> live j k).
    { unfold live, is_over. cbn. rewrite lookup_insert_ne; [done|]. congruence. }
    by rewrite (decide_ext _ _ _ _ Hl).
  - cbn. by rewrite decide_True.
  - cbn. rewrite decide_False; [done|]. intros [[d Hd] _]. congruence.
Qed.

(** A call is forgotten by who registered it. *)
Lemma forget_moved n r s :
  Inv (core s) -> view (S n) (core s) = Some [] -> call_of n (fun c => says c r) (core s) -> moved (Some (S n)) (core s) (core (forget n r s)).
Proof.
  intros Hi Hv (c & Hc & Hs). set (k := core s) in *. cbn in Hv. case_decide as Hlive; [|done]. clear Hv.
  assert (Hk : core (forget n r s) = mkCore (k_nextID k) (k_calls k) (base.delete (key_of (pc_id c)) (k_pending k)) (k_closed k) (k_received k)
    (k_ended k ++ [(n, r)]) (k_reports k)).
  { unfold forget, call_id. change (cs_calls s) with (k_calls k). by rewrite Hc. }
  rewrite Hk. clear Hk. destruct Hi as [I1 I2 I3 I4 I5 I6 I7 I8 I9].
  assert (Hov : forall j, is_over j (mkCore (k_nextID k) (k_calls k) (base.delete (key_of (pc_id c)) (k_pending k)) (k_closed k) (k_received k)
    (k_ended k ++ [(n, r)]) (k_reports k)) <-> is_over j k \/ j = n).
  { intros j. unfold is_over. cbn. rewrite fmap_app, elem_of_app. cbn. by rewrite list_elem_of_singleton. }
  split; [split| |]; cbn [k_nextID k_calls k_pending k_closed k_received k_ended k_reports].
  - intros key j Hj. apply lookup_delete_Some in Hj as [_ Hj]. by apply I1.
  - intros j d Hd [Hj Ho]. rewrite Hov in Ho. rewrite lookup_delete_ne.
    + apply (I2 j d Hd). split; [done|tauto].
    + intros He. apply key_of_inj in He; [|pose proof (I4 n c Hc); lia|pose proof (I4 j d Hd); lia]. apply Ho. right. by apply (I5 j n d c).
  - done.
  - done.
  - done.
  - done.
  - intros j r' Hj. apply elem_of_app in Hj as [Hj|Hj%list_elem_of_singleton]; [by apply I7|]. injection Hj as -> ->. by exists c.
  - rewrite fmap_app. apply NoDup_app. split; [done|]. split; [|apply NoDup_singleton].
    intros j Hj Hj'. apply list_elem_of_singleton in Hj' as ->. by apply Hlive.
  - intros Hr. destruct (I9 Hr) as [Hcl Hcov]. split; [done|]. intros j d Hd [Hj Ho]. rewrite Hov in Ho. apply (Hcov j d Hd). split; [done|tauto].
  - split; [|done| |intros Hcl; by split|done].
    + intros j d Hd. exists d. split; [done|apply keeps_refl].
    + intros j Hj. apply Hov. by left.
  - intros [|j] Hp; [by left|]. left. cbn [view]. assert (Hl : live j (mkCore (k_nextID k) (k_calls k) (base.delete (key_of (pc_id c)) (k_pending k))
      (k_closed k) (k_received k) (k_ended k ++ [(n, r)]) (k_reports k)) <-> live j k).
    { unfold live. rewrite Hov. cbn. split; intros [H1 H2]; (split; [done|]); [tauto|]. intros [H|H]; [done|congruence]. }
    by rewrite (decide_ext _ _ _ _ Hl).
Qed.

(** A message has come. *)
Lemma received_moved o m s : Inv (core s) -> moved o (core s) (core (set_received (cs_received s ++ [m]) s)).
Proof.
  intros [I1 I2 I3 I4 I5 I6 I7 I8 I9]. split; [split; try done| |].
  - intros j c m' Hc Hm. destruct (I6 j c m' Hc Hm) as [H1 H2]. split; [|done]. cbn. apply elem_of_app. by left.
  - split; [|cbn; set_solver|done|intros Hcl; by split|done]. intros j c Hc. exists c. split; [done|apply keeps_refl].
  - intros p _. left. by apply view_same.
Qed.

(** The client is closed, by who owns that from then on. *)
Lemma closing_moved e s :
  Inv (core s) -> cs_closed s = None ->
  moved (Some O) (core s) (core (set_closed (Some e) s)) /\ view O (core (set_closed (Some e) s)) = Some [] /\ view O (core s) = None.
Proof.
  intros [I1 I2 I3 I4 I5 I6 I7 I8 I9] Hc.
  assert (Hr : cs_reports s = []).
  { destruct (cs_reports s) as [|x l] eqn:E; [done|]. destruct I9 as [[y Hy] _]; [cbn; congruence|]. cbn in Hy. congruence. }
  split; [split; [split; try done| |]|split; [cbn; by rewrite Hr|cbn; by rewrite Hc]].
  - split; [|done|done| |done].
    + intros j c Hj. exists c. split; [done|apply keeps_refl].
    + cbn. rewrite Hc. by intros [? ?].
  - intros [|j] Hp; [done|]. by left.
Qed.
Lemma closing_covers e s : Inv (core s) -> covered (map snd (map_to_list (cs_pending s))) (core (set_closed (Some e) s)).
Proof.
  intros [I1 I2 I3 I4 I5 I6 I7 I8 I9]. split; [by eexists|]. intros j c Hc Hl. right. apply list_elem_of_In, in_map_iff.
  exists (key_of (pc_id c), j). split; [done|]. apply list_elem_of_In, elem_of_map_to_list. by apply (I2 j c).
Qed.

(** One of those that are not told yet is told. *)
Lemma offer_lost_covers n ns e s : covered (n :: ns) (core s) -> covered ns (core (at_call n (offer_lost e) s)).
Proof.
  intros [Hcl Hc]. split; [done|]. intros j c' Hc' [Hj Ho]. change (alter (offer_lost e) n (cs_calls s) !! j = Some c') in Hc'.
  destruct (decide (j = n)) as [->|Hne].
  - left. rewrite lookup_alter_eq in Hc'. destruct (cs_calls s !! n) as [c|]; [|done]. injection Hc' as <-.
    unfold served, offer_lost. destruct (pc_lost c) eqn:E; cbn; [rewrite E|]; right; by eexists.
  - rewrite lookup_alter_ne in Hc' by done. destruct (Hc j c' Hc') as [H|H]; [split; [by eexists|exact Ho]|by left|].
    apply elem_of_cons in H as [H|H]; [done|by right].
Qed.

(** The end is reported by who closed the client, when everybody is told. *)
Lemma report_moved e s :
  Inv (core s) -> covered [] (core s) -> moved (Some O) (core s) (core (set_reports (cs_reports s ++ [e]) s)).
Proof.
  intros [I1 I2 I3 I4 I5 I6 I7 I8 I9] Hcov. split; [split; try done| |].
  - split; [|done|done|intros Hcl; by split|].
    + intros j c Hj. exists c. split; [done|apply keeps_refl].
    + cbn. intros _ H. by destruct (cs_reports s).
  - intros [|j] Hp; [done|]. by left.
Qed.

(** ** Rules *)

Section threads.
Context (E : ClientEnv) (self : string) (waits : bool).
Abbreviation P := (prog ClientState).

(** Where threads may have to wait: before the end is reported, or anywhere. *)
Definition waiting (s : ClientState) : Prop := waits = true \/ cs_reports s = [].

Abbreviation SInv := (fun s => Inv (core s)).
Abbreviation SGuard := (fun s s' => Guard (core s) (core s')).
Abbreviation sview := (fun p s => view p (core s)).
Abbreviation ok := (Threads.ok SInv SGuard sview waiting).

(** What a thread has: what it owns, of which it knows the view, and what it
    knows besides. *)
Definition has (o : option nat) (X : Core -> Prop) (k : Core) : Prop := (forall p, o = Some p -> view p k = Some []) /\ X k.
Definition holds (o : option nat) (X : Core -> Prop) (s : ClientState) : Prop := has o X (core s).

Lemma holds_stable o X : lasting X -> stable SInv SGuard sview o (holds o X).
Proof.
  intros HX s s' Hi (Hi' & Hg & Hv) [Ho Hx]. split; [|by apply (HX _ _ Hi Hi' Hg)]. intros p Hp. rewrite (Hv p Hp). by apply Ho.
Qed.

(** From what a thread has to what it has then, of the result. *)
Definition does {A} (m : P A) (o : option nat) (X : Core -> Prop) (own : A -> option nat) (R : A -> Core -> Prop) : Prop :=
  ok m o (holds o X) (fun a o' s => o' = own a /\ holds (own a) (R a) s).

Lemma does_bind {A B} (m : P A) (f : A -> P B) o X own R own' R' :
  does m o X own R -> (forall a, does (f a) (own a) (R a) own' R') -> does (m ≫= f) o X own' R'.
Proof. intros Hm Hf. eapply ok_bind; [exact Hm|]. intros a o'. apply ok_pure. intros ->. apply Hf. Qed.
Lemma does_ret {A} (a : A) o X own (R : A -> Core -> Prop) : own a = o -> (forall k, Inv k -> has o X k -> R a k) -> does (mret a) o X own R.
Proof. intros Ho HR. apply ok_ret. intros s Hi [Hp Hx]. rewrite Ho. split; [done|]. split; [done|]. apply HR; [done|by split]. Qed.
Lemma does_pre {A} (m : P A) o X X' own R : (forall k, Inv k -> X' k -> X k) -> does m o X own R -> does m o X' own R.
Proof. intros HX. apply ok_pre. intros s Hi [Ho Hx]. split; [done|by apply HX]. Qed.
Lemma does_post {A} (m : P A) o X own R R' : (forall a k, Inv k -> R a k -> R' a k) -> does m o X own R -> does m o X own R'.
Proof. intros HR. apply ok_post. intros a o' s Hi [-> [Ho Hr]]. split; [done|]. split; [done|by apply HR]. Qed.

Lemma does_await {A} (f : ClientState -> option (A * ClientState)) o X own R :
  (forall a, lasting (R a)) ->
  (forall s, Inv (core s) -> holds o X s -> f s = None -> waiting s) ->
  (forall s a s', Inv (core s) -> holds o X s -> f s = Some (a, s') ->
     exists o1, moved o1 (core s) (core s') /\ (o1 = o \/ o1 = own a) /\ holds (own a) (R a) s' /\
       (own a = o \/ own a = None \/ exists p, own a = Some p /\ view p (core s) = None)) ->
  does (await f) o X own R.
Proof.
  intros HR Hw Hf. apply ok_await; [exact Hw|]. intros s a s' Hi Hs Hfs. destruct (Hf s a s' Hi Hs Hfs) as (o1 & [H1 H2 H3] & Ho1 & Hh & Hown).
  exists (own a). split; [|split; [|done]].
  - split; [done|]. split; [done|]. split.
    + intros p Hp Hp'. apply H3. destruct Ho1 as [->| ->]; done.
    + destruct (own a) as [p|] eqn:Eo; [|done]. split; [destruct Hh as [Hh _]; rewrite (Hh p eq_refl); by eexists|].
      destruct Hown as [->|[?|(q & [= ->] & ?)]]; [by left|done|by right].
  - intros s1 s2 Hi1 Hr [_ Hh']. split; [done|]. by apply (holds_stable _ _ (HR a) s1).
Qed.

Lemma does_step {A} (f : ClientState -> A * ClientState) o X own R :
  (forall a, lasting (R a)) ->
  (forall s, Inv (core s) -> holds o X s -> exists o1, moved o1 (core s) (core (f s).2) /\ (o1 = o \/ o1 = own (f s).1) /\
     holds (own (f s).1) (R (f s).1) (f s).2 /\
     (own (f s).1 = o \/ own (f s).1 = None \/ exists p, own (f s).1 = Some p /\ view p (core s) = None)) ->
  does (step f) o X own R.
Proof.
  intros HR Hf. apply does_await; [done|by intros s _ _ [=]|]. intros s a s' Hi Hs [= Hfs]. specialize (Hf (tick s) Hi Hs).
  rewrite Hfs in Hf. exact Hf.
Qed.

(** A step of an owner, or of nobody, that keeps what it has. *)
Lemma does_change f o X X' :
  lasting X' -> (forall s, Inv (core s) -> holds o X s -> moved o (core s) (core (f s)) /\ holds o X' (f s)) ->
  does (change f) o X (fun _ => o) (fun _ => X').
Proof.
  intros HX Hf. apply does_step; [done|]. intros s Hi Hs. destruct (Hf s Hi Hs) as [H1 H2]. exists o. split; [done|]. split; [by left|].
  split; [done|by left].
Qed.
(** A step that leaves the core alone. *)
Lemma does_idle {A} (f : ClientState -> A * ClientState) o X :
  (forall s, core (f s).2 = core s) -> lasting X -> does (step f) o X (fun _ => o) (fun _ => X).
Proof.
  intros Hf HX. apply does_step; [done|]. intros s Hi Hs. exists o. split; [rewrite Hf; by apply mcp_moved_refl|]. split; [by left|].
  split; [|by left]. unfold holds. by rewrite Hf.
Qed.
Lemma does_go t o X : lasting X -> does t None anything (fun _ => None) (fun _ => anything) -> does (go t) o X (fun _ => o) (fun _ => X).
Proof.
  intros HX Ht (s & Hi & Hs). exists None, o, (holds None anything), (holds o X). split; [by left|].
  split; [by apply holds_stable|]. split; [by apply holds_stable|]. split; [intros s' _ Hs'; by split|].
  split; [|cbn; auto]. eapply safe_post; [|apply Ht; exists s; by split]. done.
Qed.

(** What keeps to itself, whatever it has. *)
Definition idle {A} (m : P A) : Prop := forall o X, lasting X -> does m o X (fun _ => o) (fun _ => X).
Lemma mcp_idle_bind {A B} (m : P A) (f : A -> P B) : idle m -> (forall a, idle (f a)) -> idle (m ≫= f).
Proof. intros Hm Hf o X HX. eapply does_bind; [by apply Hm|]. intros a. by apply Hf. Qed.
Lemma mcp_idle_ret {A} (a : A) : idle (mret a).
Proof. intros o X HX. apply does_ret; [done|]. by intros k _ []. Qed.
Lemma idle_step {A} (f : ClientState -> A * ClientState) : (forall s, core (f s).2 = core s) -> idle (step f).
Proof. intros Hf o X. by apply does_idle. Qed.
Lemma idle_try {A B} (m : P (A + McpError)) (f : A -> P (B + McpError)) : idle m -> (forall a, idle (f a)) -> idle (try m f).
Proof. intros Hm Hf. apply mcp_idle_bind; [done|]. intros [a|e]; [apply Hf|apply mcp_idle_ret]. Qed.
Lemma idle_look {A} (f : ClientState -> A) : idle (look f). Proof. by apply idle_step. Qed.
Lemma idle_send m : idle (send E m). Proof. by apply idle_step. Qed.
#[local] Hint Resolve mcp_idle_bind mcp_idle_ret idle_try idle_look idle_send mcp_lasting_anything : mcp.
Ltac idly := repeat first
  [ progress auto with mcp | progress intros | apply idle_step; intros; reflexivity
  | match goal with
    | |- idle (match ?x with _ => _ end) => destruct x
    | |- idle (if ?b then _ else _) => destruct b
    | |- idle (_ ≫= _) => apply mcp_idle_bind
    | |- idle (try _ _) => apply idle_try
    | |- idle (change _) => apply idle_step; intros; reflexivity
    end ].

(** And what begins and ends with nothing. *)
Definition fine {A} (m : P A) : Prop := does m None anything (fun _ => None) (fun _ => anything).
Lemma mcp_fine_bind {A B} (m : P A) (f : A -> P B) : fine m -> (forall a, fine (f a)) -> fine (m ≫= f).
Proof. intros Hm Hf. by eapply does_bind. Qed.
Lemma fine_idle {A} (m : P A) : idle m -> fine m.
Proof. intros Hm. by apply Hm. Qed.
Lemma mcp_fine_try {A B} (m : P (A + McpError)) (f : A -> P (B + McpError)) : fine m -> (forall a, fine (f a)) -> fine (try m f).
Proof. intros Hm Hf. apply mcp_fine_bind; [done|]. intros [a|e]; [apply Hf|apply fine_idle, mcp_idle_ret]. Qed.

(** ** A request *)

Definition told (n : nat) (r : string + McpError) : Core -> Prop :=
  match r with
  | inl raw => call_of n (fun c => exists m, pc_resp c = Some m /\ m_Error m = None /\ m_Result m = Some raw)
  | inr _ => anything
  end.
Lemma lasting_told n r : lasting (told n r).
Proof. destruct r; [|done]. apply lasting_call. intros c c' (_ & Hr & _) (m & Hm & H). exists m. auto. Qed.

(** Who waits for a response has it in the end, when the end is reported. *)
Lemma does_select ctx n :
  does (select E ctx n) (Some (S n)) anything (fun _ => Some (S n))
    (fun a => match a with inl m => call_of n (fun c => pc_resp c = Some m) | inr _ => anything end).
Proof.
  assert (Hready : forall s l, ready ctx n s = l -> forall m, inl m ∈ l -> call_of n (fun c => pc_resp c = Some m) (core s)).
  { intros s l <- m Hm. apply elem_of_app in Hm as [Hm|Hm];
      [|destruct (ctx (cs_tick s)); [apply list_elem_of_singleton in Hm; done|by apply elem_of_nil in Hm]].
    unfold call_of. change (k_calls (core s)) with (cs_calls s). destruct (cs_calls s !! n) as [c|]; [|by apply elem_of_nil in Hm].
    exists c. split; [done|]. apply elem_of_app in Hm as [Hm|Hm].
    - destruct (pc_resp c); [apply list_elem_of_singleton in Hm; congruence|by apply elem_of_nil in Hm].
    - destruct (pc_lost c); [apply list_elem_of_singleton in Hm; done|by apply elem_of_nil in Hm]. }
  apply does_await.
  - intros [m|r]; [|done]. apply lasting_call. intros c c' (_ & Hr & _). apply Hr.
  - intros s Hi [Ho _] Hf. unfold waiting. destruct (decide (cs_reports s = [])) as [|Hr]; [by right|exfalso].
    specialize (Ho (S n) eq_refl). cbn in Ho. case_decide as Hl; [|done]. destruct Hl as [[c Hc] Hov].
    destruct (i_reports _ Hi Hr) as [_ Hcov]. destruct (Hcov n c Hc) as [Hs|Hin]; [by split; [eexists|]| |by apply elem_of_nil in Hin].
    cbv zeta in Hf. change (k_calls (core s)) with (cs_calls s) in Hc.
    set (l := ready ctx n (tick s)) in Hf. assert (Hne : (0 < length l)%nat).
    { subst l. unfold ready. change (cs_calls (tick s)) with (cs_calls s). rewrite Hc. destruct Hs as [[m ->]|[e ->]]; rewrite !length_app; cbn; lia. }
    destruct (lookup_lt_is_Some_2 l (ce_pick E (cs_tick (tick s)) mod length l)%nat) as [r Hlr]; [apply Nat.mod_upper_bound; lia|].
    by rewrite Hlr in Hf.
  - intros s a s' Hi Hs Hf. cbv zeta in Hf. destruct (_ !! _) as [r|] eqn:El; [|done]. injection Hf as -> <-.
    exists (Some (S n)). split; [by apply mcp_moved_refl|]. split; [by left|]. split; [|by left]. split; [apply Hs|].
    destruct a as [m|r]; [|done]. change (core (tick s)) with (core s). eapply (Hready (tick s)); [reflexivity|]. by eapply list_elem_of_lookup_2.
Qed.

Lemma idle_cancelled key : idle (cancelled E key).
Proof. unfold cancelled. idly. Qed.
#[local] Hint Resolve idle_cancelled : mcp.

Lemma does_response ctx method o n key :
  does (response E ctx method o n key) (Some (S n)) anything (fun _ => Some (S n)) (told n).
Proof.
  unfold response. eapply does_bind; [apply does_select|]. intros [m|[e|e]].
  - apply does_ret; [done|]. intros k _ [_ Hm]. destruct (m_Error m) eqn:Ee; [done|]. destruct (m_Result m) as [raw|] eqn:Er; [|done].
    destruct Hm as (c & Hc & Hm). exists c. split; [done|]. by exists m.
  - by apply does_ret.
  - eapply does_bind; [destruct (co_probe o); [apply (mcp_idle_ret tt)|apply (idle_cancelled key)]; apply mcp_lasting_anything|]. intros []. by apply does_ret.
Qed.

Lemma fine_roundTrip ctx method params o : fine (roundTrip E self ctx method params o).
Proof.
  unfold roundTrip, try at 1. eapply (does_bind _ _ _ _ (fun x => match x with inl (n, _, _) => Some (S n) | inr _ => None end) (fun _ => anything)).
  - apply does_step; [done|]. intros s Hi _. destruct (register o s) as [[[[n e] v]|err] s'] eqn:Er; cbn [fst snd].
    + destruct (register_moved o s n e v s' Hi Er) as (Hm & Hv & Hv'). exists (Some (S n)). split; [done|]. split; [by right|].
      split; [split; [by intros p [= <-]|done]|]. right. right. by exists (S n).
    + unfold register in Er. destruct (cs_closed s); [|done]. injection Er as _ <-. exists None. split; [by apply mcp_moved_refl|]. split; [by left|].
      split; [by split|by left].
  - intros [[[n e] v]|err]; [|by apply does_ret]. eapply does_bind; [by apply idle_look|]. intros id.
    eapply (does_bind _ _ _ _ (fun _ => Some (S n)) (told n)).
    + destruct (withMeta _ _ _ _ _ _); [|by apply does_ret]. unfold try. eapply does_bind; [by apply idle_send|]. intros [[]|err]; [|by apply does_ret].
      apply does_response.
    + intros r. eapply (does_bind _ _ _ _ (fun _ => None) (fun _ => anything)); [|intros []; by apply does_ret].
      apply does_step; [done|]. intros s Hi [Ho Ht]. cbn [fst snd]. specialize (Ho (S n) eq_refl).
      assert (Hc : call_of n (fun c => says c r) (core s)).
      { destruct r as [raw|err]; [destruct Ht as (c & Hc & Hm); exists c; split; [done|]; by intros raw' [= <-]|].
        cbn in Ho. case_decide as Hl; [|done]. destruct Hl as [[c Hc] _]. exists c. split; [done|]. by intros raw [=]. }
      exists (Some (S n)). split; [by apply forget_moved|]. split; [by left|]. split; [by split|]. right. by left.
Qed.

Lemma idle_answerInputs requests elicit out : idle (answerInputs E requests elicit out).
Proof.
  revert out. induction requests as [|[key [method params]] requests IH]; intros out; cbn [answerInputs]; idly.
Qed.
Lemma fine_request_rounds rounds ctx method params o : fine (request_rounds E self rounds ctx method params o).
Proof.
  revert params. induction rounds as [|rounds IH]; intros params; cbn [request_rounds]; (apply mcp_fine_try; [apply fine_roundTrip|]); intros raw;
    (destruct (dec_envelope raw); [|apply fine_idle, mcp_idle_ret]); (destruct (_ || _); [apply fine_idle, mcp_idle_ret|]);
    (destruct (negb _); [apply fine_idle, mcp_idle_ret|]); [apply fine_idle, mcp_idle_ret|].
  apply mcp_fine_try; [apply fine_idle, idle_answerInputs|]. intros a. apply IH.
Qed.

Lemma fine_discover ctx : fine (discover E self ctx).
Proof.
  unfold discover. apply mcp_fine_bind; [by apply fine_idle, idle_step|]. intros _. apply mcp_fine_bind; [apply fine_roundTrip|].
  intros [raw|err]; [|apply fine_idle, mcp_idle_ret]. destruct (dec_discover raw) as [[[versions caps] instructions]|]; [|apply fine_idle, mcp_idle_ret].
  apply fine_idle, idle_step. intros s. unfold take_discover. destruct versions; [done|]. destruct (negb _); [done|]. by destruct (server_info raw).
Qed.
Lemma fine_initialize ctx : fine (initialize E self ctx).
Proof.
  unfold initialize. apply mcp_fine_bind; [by apply fine_idle, idle_step|]. intros _. apply mcp_fine_bind; [apply fine_roundTrip|].
  intros [raw|err]; apply fine_idle; idly.
Qed.

(** ** What comes from the server *)

Lemma idle_answer m via : idle (answer E m via).
Proof. unfold answer. apply mcp_idle_bind; [idly|]. intros r. apply mcp_idle_bind; idly. Qed.
Lemma idle_notified m : idle (notified E m).
Proof. unfold notified. idly. Qed.

Lemma fine_receive m via : fine (receive E m via).
Proof.
  destruct m as [m|]; cbn [receive]; [|by apply fine_idle, idle_step].
  destruct (isResponse m) eqn:Em; [|destruct (isNotification m); [apply fine_idle, idle_notified|destruct (isRequest m); [|apply fine_idle, mcp_idle_ret]]].
  - eapply (does_bind _ _ _ _ (fun _ => None)
      (fun p k => m ∈ k_received k /\ match p with Some n => call_of n (fun c => answers m (pc_id c)) k | None => True end)).
    + apply does_step.
      * intros [n|]; apply lasting_and; try done; [intros k k' _ _ Hg; apply (g_received _ _ Hg)| |intros k k' _ _ Hg; apply (g_received _ _ Hg)].
        apply lasting_call. intros c c' (Hk & _) Ha. by rewrite Hk.
      * intros s Hi _. cbn [fst snd]. exists None. split; [by apply received_moved|]. split; [by left|]. split; [|by left]. split; [done|].
        split; [apply elem_of_app; right; by left|]. destruct (cs_pending s !! _) as [n|] eqn:Ep; [|done].
        destruct (i_pending _ Hi _ _ Ep) as (c & Hc & Hk). by exists c.
    + intros [n|]; [|by apply does_ret]. apply does_change; [done|]. intros s Hi [_ [Hr Hc]]. split; [by apply offer_resp_moved|by split].
  - apply mcp_fine_bind; [by apply fine_idle, idle_step|]. intros _. apply does_go; [done|]. apply fine_idle, idle_answer.
Qed.
Lemma fine_receive_all ms via : fine (receive_all E ms via).
Proof. induction ms as [|m ms IH]; cbn [receive_all]; [apply fine_idle, mcp_idle_ret|]. apply mcp_fine_bind; [apply fine_receive|]. by intros _. Qed.

Lemma fine_lost key err : fine (lost key err).
Proof.
  unfold lost. apply mcp_fine_bind; [by apply fine_idle, idle_step|]. intros [n|]; [|apply fine_idle, mcp_idle_ret].
  apply does_change; [done|]. intros s Hi Hs. split; [by apply offer_lost_moved|done].
Qed.

(** ** The end *)

(** Who takes the closing of the client. *)
Lemma does_closing {A} (f : ClientState -> A) (none : A) e (R : A -> Core -> Prop) (own : A -> option nat) :
  own none = None -> (forall s, own (f s) = Some O) -> (forall a, lasting (R a)) -> (forall k, R none k) ->
  (forall s, Inv (core s) -> cs_closed s = None -> R (f s) (core (set_closed (Some e) s))) ->
  does (step (fun s => match cs_closed s with Some _ => (none, s) | None => (f s, set_closed (Some e) s) end)) None anything own R.
Proof.
  intros Hnone Hf HR Hn Hc. apply does_step; [done|]. intros s Hi _. destruct (cs_closed s) as [x|] eqn:Ec; cbn [fst snd].
  - exists None. split; [by apply mcp_moved_refl|]. split; [by left|]. split; [split; [rewrite Hnone; done|apply Hn]|]. by left.
  - destruct (closing_moved e s Hi Ec) as (Hm & Hv & Hv'). exists (Some O). rewrite Hf. split; [done|]. split; [by right|].
    split; [split; [by intros p [= <-]|by apply Hc]|]. right. right. by exists O.
Qed.

Lemma does_lose_all ns err : does (lose_all ns err) (Some O) (covered ns) (fun _ => Some O) (fun _ => covered []).
Proof.
  induction ns as [|n ns IH]; cbn [lose_all]; [by apply does_ret; [|intros k _ [_ H]]|].
  eapply (does_bind _ _ _ _ (fun _ => Some O) (fun _ => covered ns)); [|intros []; exact IH]. apply does_change; [apply lasting_covered|]. intros s Hi [Ho Hc].
  split; [by apply offer_lost_moved|]. split; [|by apply offer_lost_covers]. intros p [= <-]. by apply (Ho O).
Qed.
Lemma fine_closedBy err : fine (closedBy err).
Proof.
  unfold closedBy. eapply does_bind.
  - apply (does_closing (fun s => Some (map snd (map_to_list (cs_pending s)))) None err
      (fun a => match a with Some ns => covered ns | None => anything end) (fun a => match a with Some _ => Some O | None => None end)); try done.
    + intros [ns|]; [apply lasting_covered|done].
    + intros s Hi _. by apply closing_covers.
  - intros [ns|]; [|by apply does_ret]. eapply does_bind; [apply does_lose_all|]. intros []. apply does_step; [done|].
    intros s Hi [Ho Hc]. exists (Some O). split; [by apply report_moved|]. split; [by left|]. split; [by split|]. right. by left.
Qed.
Lemma fine_no_more err : fine (no_more err).
Proof. unfold no_more. apply mcp_fine_bind; [apply fine_closedBy|]. intros _. by apply fine_idle, idle_step. Qed.

Lemma fine_stdio_read lines ends : waits = true \/ is_Some ends -> fine (stdio_read E lines ends).
Proof.
  intros Hw. induction lines as [|line lines IH]; cbn [stdio_read].
  - destruct ends as [err|]; [apply fine_no_more|]. destruct Hw as [Hw|[? [=]]]. apply mcp_fine_bind; [|intros _; apply fine_no_more].
    apply does_await; [done|by left|]. intros s [] s' Hi Hs Hf. destruct (cs_closing s); [|done]. injection Hf as <-.
    exists None. split; [by apply mcp_moved_refl|]. split; [by left|]. split; [by split|by left].
  - apply mcp_fine_bind; [destruct (decodeMessages line); [apply fine_receive_all|apply fine_idle, mcp_idle_ret]|]. by intros _.
Qed.

(** Who closes the client may wait: nothing is reported then. *)
Definition closer {A} (m : P A) : Prop := does m (Some O) anything (fun _ => Some O) (fun _ => anything).
Lemma closer_bind {A B} (m : P A) (f : A -> P B) : closer m -> (forall a, closer (f a)) -> closer (m ≫= f).
Proof. intros Hm Hf. by eapply does_bind. Qed.
Lemma closer_awaits (f : ClientState -> option (unit * ClientState)) :
  (forall s a s', f s = Some (a, s') -> s' = tick s) -> closer (await f).
Proof.
  intros Hf. apply does_await; [done| |].
  - intros s Hi [Ho _] _. right. specialize (Ho O eq_refl). cbn in Ho. destruct (cs_closed s); [|done]. by injection Ho.
  - intros s a s' Hi Hs Hfs. apply Hf in Hfs as ->. exists (Some O). split; [by apply mcp_moved_refl|]. split; [by left|].
    split; [exact Hs|by left].
Qed.
Lemma closer_changes f : (forall s, core (f s) = core s) -> closer (change f).
Proof. intros Hf. by apply does_idle. Qed.
Lemma safe_Close : ok (Close stdio_close) None (holds None anything) (fun _ _ _ => True).
Proof.
  unfold Close. eapply ok_bind.
  - apply (does_closing (fun _ => true) false connection_closed (fun _ => anything) (fun a : bool => if a then Some O else None)); done.
  - intros [|] o'; apply ok_pure; intros ->; [|by apply ok_ret].
    eapply ok_post; [done|]. apply (closer_bind (change (set_stopped true))); [by apply closer_changes|]. intros [].
    apply closer_bind; [|intros []; apply closer_awaits; intros s a s'; by case_match; intros [=]].
    apply closer_bind; [by apply closer_changes|]. intros []. apply closer_awaits. intros s a s'. by case_match; intros [=].
Qed.
End threads.

(** ** Clients *)

(** What goes on around a client. A stdio server's output ends by itself after
    its lines, with why, or when the streams are closed. *)
Inductive activity : Type :=
| Requests (ctx : nat -> option GoError) (method : string) (params : gmap string string) (o : callOpts)
| Listens (ctx : nat -> option GoError)
| Probes (ctx : nat -> option GoError)
| Initializes (ctx : nat -> option GoError)
| Receives (m : option message) (via : string)
| Loses (key : string) (err : McpError)
| Ends (err : McpError)
| Reads (lines : list string) (ends : option McpError)
| Closes.
Definition patient (a : activity) : bool := match a with Reads _ None => true | _ => false end.

Section clients.
Context (E : ClientEnv) (self : string).

Definition activity_thread (a : activity) : prog ClientState unit :=
  match a with
  | Requests ctx method params o => _ ← request E self ctx method params o; mret tt
  | Listens ctx => _ ← Listen E self ctx; mret tt
  | Probes ctx => _ ← discover E self ctx; mret tt
  | Initializes ctx => _ ← initialize E self ctx; mret tt
  | Receives m via => receive E m via
  | Loses key err => lost key err
  | Ends err => closedBy err
  | Reads lines ends => stdio_read E lines ends
  | Closes => Close stdio_close
  end.
Abbreviation ok waits := (Threads.ok (fun s => Inv (core s)) (fun s s' => Guard (core s) (core s')) (fun p s => view p (core s)) (waiting waits)).
Definition client_start (acts : list activity) : config ClientState := mkConfig newClient (map activity_thread acts).

Lemma Inv_newClient : Inv (core newClient).
Proof using Type.
  split; cbn; try done; try (intros; by rewrite lookup_empty in * ).
  - intros n r Hn. by apply elem_of_nil in Hn.
  - constructor.
Qed.

Lemma safe_activity waits a : waits = true \/ patient a = false ->
  Threads.safe (fun s => Inv (core s)) (fun s s' => Guard (core s) (core s')) (fun p s => view p (core s)) (waiting waits)
    (activity_thread a) None (fun _ => True) (fun _ _ _ => True).
Proof.
  intros Hw. assert (Hok : ok waits (activity_thread a) None (holds None anything) (fun _ _ _ => True)).
  { assert (Hend : forall m : prog ClientState unit, fine waits m -> ok waits m None (holds None anything) (fun _ _ _ => True))
      by (intros m Hm; by eapply ok_post; [|exact Hm]).
    assert (Hthen : forall A (m : prog ClientState A), fine waits m -> fine waits (_ ← m; mret tt)).
    { intros A m Hm. apply mcp_fine_bind; [done|]. intros _. apply fine_idle, mcp_idle_ret. }
    destruct a; cbn [activity_thread]; [apply Hend, Hthen|apply Hend, Hthen|apply Hend, Hthen|apply Hend, Hthen|apply Hend|apply Hend|apply Hend|apply Hend|].
    - exact (fine_request_rounds E self waits (maxInputRounds - 1) ctx method params o).
    - unfold Listen. apply mcp_fine_bind; [apply fine_idle, idle_look|]. intros l. apply mcp_fine_bind; [apply fine_roundTrip|].
      intros r. apply fine_idle, mcp_idle_ret.
    - apply fine_discover.
    - apply fine_initialize.
    - apply fine_receive.
    - apply fine_lost.
    - apply fine_closedBy.
    - apply fine_stdio_read. destruct ends; [right; by eexists|by destruct Hw; [left|]].
    - exact (safe_Close waits). }
  eapply safe_pre; [|apply Hok; exists newClient; split; [apply Inv_newClient|by split]]. intros s _ _. by split.
Qed.

Lemma mcp_clients_sound waits acts turns : waits = true \/ Forall (fun a => patient a = false) acts ->
  sound (fun s => Inv (core s)) (fun s s' => Guard (core s) (core s')) (fun p s => view p (core s)) (waiting waits)
    (map (fun _ _ => True) acts) (schedule turns (client_start acts)).
Proof.
  intros Hw. apply schedule_sound, sound_start; [apply Inv_newClient|].
  apply Forall2_fmap_2, Forall_Forall2_diag. apply Forall_forall. intros a Ha. apply safe_activity.
  destruct Hw as [|Hw]; [by left|right]. rewrite Forall_forall in Hw. by apply Hw.
Qed.

(** C23: However requests, what comes from the server, lost streams, and the
    closing of the client interleave, no two requests have the same id, each
    ends once, and a request that ends with a result ends with that of a
    response that came and has the request's id. *)
Theorem responses_reach_requests acts turns :
  let s := c_state (schedule turns (client_start acts)) in
  NoDup (cs_ended s).*1 /\
  (forall n n' c c', cs_calls s !! n = Some c -> cs_calls s !! n' = Some c' -> pc_id c = pc_id c' -> n = n') /\
  forall n raw, (n, inl raw) ∈ cs_ended s -> exists c m,
    cs_calls s !! n = Some c /\ m ∈ cs_received s /\ isResponse m = true /\ m_Error m = None /\ m_Result m = Some raw /\
    idKey (default EmptyString (m_ID m)) = idKey (requestID (pc_id c)).
Proof.
  intros s. destruct (mcp_clients_sound true acts turns) as [Hi _]; [by left|]. fold s in Hi. split; [apply (i_ends _ Hi)|].
  split; [apply (i_once _ Hi)|]. intros n raw Hn. destruct (i_ended _ Hi _ _ Hn) as (c & Hc & Hs). destruct (Hs raw eq_refl) as (m & Hm & He & Hr).
  destruct (i_resp _ Hi n c m Hc Hm) as (H1 & H2 & H3). exists c, m. done.
Qed.

End clients.

(** ** Runs *)

(** A transport that takes every message, and a context that never ends. *)
Definition ex_env : ClientEnv := mkClientEnv (fun _ _ => None) (fun _ => true) (fun _ => O) (fun _ _ _ => inr (text_error "nobody")) false.
Definition ex_never (_ : nat) : option GoError := None.
Definition ex_list : activity := Requests ex_never "tools/list" ∅ plain.
Definition ex_died : activity := Reads [] (Some (text_error "it died")).

(** The request is sent, the process dies, and the end is reported. *)
Definition ex_reported : config ClientState := schedule [0; 0; 0; 0; 1; 1; 1; 1]%nat (client_start ex_env "{}" [ex_list; ex_died]).



(** A message that is null in a batch is taken for a message and looked
    into: what a server writes to its output ends the harness. *)
Theorem null_crashes :
  exists turns, cs_crashed (c_state (schedule turns (client_start ex_env "{}" [Reads ["[null]"%string] None]))) = true.
Proof. exists [0]%nat. by vm_compute. Qed.

(** ** Headers *)

Lemma sentinel_encoded v : sentinelForm ("=?base64?" +:+ b64_encode false true v +:+ "?=") = true.
Proof.
  unfold sentinelForm. apply andb_true_iff. split; [exact (prefix_app "=?base64?" _)|].
  rewrite str_app_assoc. apply has_suffix_app.
Qed.

(** Whatever the name or argument that is put into a header, what is put
    there are visible ASCII characters, spaces, and tabs, so it ends no line
    and starts no other header; and different values give different headers. *)
Theorem headerValue_faithful v :
  Forall (fun c => 32 <= c <= 126 \/ c = 9) (bytes_of (headerValue v)) /\ forall v', headerValue v = headerValue v' -> v = v'.
Proof.
  unfold headerValue. split.
  - destruct (plainHeaderValue v && negb (sentinelForm v)) eqn:Ep.
    + apply andb_true_iff in Ep as [Ep _]. unfold plainHeaderValue in Ep. destruct (_ || _); [apply String.eqb_eq in Ep as ->; constructor|].
      apply List.Forall_forall. intros c Hc. rewrite forallb_forall in Ep. specialize (Ep c Hc). lia.
    + rewrite !bytes_of_app. apply Forall_app. split; [|apply Forall_app; split].
      * apply List.Forall_forall. intros c Hc. vm_compute in Hc. lia.
      * unfold b64_encode. pose proof (b64_bytes_range false true _ (bytes_of_range v)) as Hr.
        rewrite bytes_of_bytes by (eapply Forall_impl; [exact Hr|]; cbn; lia). eapply Forall_impl; [exact Hr|]. cbn. lia.
      * apply List.Forall_forall. intros c Hc. vm_compute in Hc. lia.
  - intros v' He. destruct (plainHeaderValue v && negb (sentinelForm v)) eqn:Ep, (plainHeaderValue v' && negb (sentinelForm v')) eqn:Ep'; [done| | |].
    + apply andb_true_iff in Ep as [_ Ep]. rewrite He, sentinel_encoded in Ep. done.
    + apply andb_true_iff in Ep' as [_ Ep']. rewrite <- He, sentinel_encoded in Ep'. done.
    + apply (f_equal bytes_of) in He. rewrite !bytes_of_app in He. apply app_inv_head, app_inv_tail, bytes_of_inj in He.
      by apply (b64_encode_inj false).
Qed.

(** ** Streams of events *)

Definition one_line (s : string) : Prop := Forall (fun b => b <> 10 /\ b <> 13) (bytes_of s).

Lemma sse_lines_char acc b l : b <> 10 -> b <> 13 -> sse_lines acc (b :: l) = sse_lines (acc ++ [b]) l.
Proof. intros H1 H2. destruct b as [|p|p]; [done| |done]. do 4 (try destruct p as [p|p|]; try done). Qed.
Lemma sse_lines_line acc l rest : Forall (fun b => b <> 10 /\ b <> 13) l ->
  sse_lines acc (l ++ 10 :: rest) = (acc ++ l, Z.of_nat (length (acc ++ l)) + 1) :: sse_lines [] rest.
Proof.
  intros Hl. revert acc. induction Hl as [|b l [H1 H2] Hl IH]; intros acc; [by rewrite app_nil_r|].
  cbn [app]. rewrite sse_lines_char by done. rewrite IH. by rewrite <- app_assoc.
Qed.
Lemma sse_lines_string s rest : one_line s -> sse_lines [] (bytes_of (s +:+ nl +:+ rest)) = (bytes_of s, str_len s + 1) :: sse_lines [] (bytes_of rest).
Proof.
  intros Hs. rewrite bytes_of_app, bytes_of_app. change (bytes_of nl) with [10]. cbn [app]. rewrite sse_lines_line by exact Hs.
  cbn [app]. by rewrite length_bytes_of.
Qed.

Definition data_lines (lines : list string) : string := foldr (fun l s => ("data: " +:+ l) +:+ nl +:+ s) EmptyString lines.
Definition sse_block (e : string * list string) : string := ("event: " +:+ e.1) +:+ nl +:+ data_lines e.2 +:+ nl.
Definition data_size (lines : list string) : Z := foldr (fun l n => str_len l + 1 + n) 0 lines.
Definition data_text (data : string) (lines : list string) : string := foldl (fun d l => d +:+ l +:+ nl) data lines.
Record block_ok (e : string * list string) : Prop := {
  bo_name : e.1 <> EmptyString; bo_line : one_line e.1; bo_data : e.2 <> []; bo_lines : Forall one_line e.2;
  bo_fits : str_len e.1 + 8 <= maxMessageBytes; bo_size : data_size e.2 + 7 <= maxMessageBytes;
}.

Lemma data_size_nonneg lines : 0 <= data_size lines.
Proof. induction lines as [|l lines IH]; cbn [data_size foldr]; [done|]. unfold data_size in IH. pose proof (str_len_nonneg l). lia. Qed.
Lemma str_len_app s t : str_len (s +:+ t) = str_len s + str_len t.
Proof. unfold str_len. by rewrite str_length_app, Nat2Z.inj_add. Qed.

Lemma one_line_app s t : one_line s -> one_line t -> one_line (s +:+ t).
Proof. intros Hs Ht. unfold one_line. rewrite bytes_of_app. by apply Forall_app. Qed.
Lemma one_line_check s : forallb (fun b => negb (b =? 10) && negb (b =? 13)) (bytes_of s) = true -> one_line s.
Proof. intros H. apply List.Forall_forall. intros b Hb. rewrite forallb_forall in H. specialize (H b Hb). lia. Qed.

Lemma events_data name data has v rest :
  str_len v + 7 <= maxMessageBytes -> str_len data + str_len v <= maxMessageBytes ->
  sse_events false name data has ((bytes_of ("data: " +:+ v), str_len ("data: " +:+ v) + 1) :: rest) = sse_events false name (data +:+ v +:+ nl) true rest.
Proof.
  intros H1 H2. cbn [sse_events]. rewrite str_len_app. change (str_len "data: ") with 6. rewrite (proj2 (Z.ltb_ge _ _)) by lia.
  rewrite of_bytes_of. change (String.eqb ("data: " +:+ v) EmptyString) with false. change (has_prefix ("data: " +:+ v) ":") with false. cbv iota.
  replace (sse_field ("data: " +:+ v)) with ("data"%string, v) by (unfold sse_field; cbn -[trim_prefix]; symmetry; f_equal; exact (trim_prefix_app " " v)).
  change (String.eqb "data" "event") with false. change (String.eqb "data" "data") with true. cbv iota. by rewrite (proj2 (Z.ltb_ge _ _)) by lia.
Qed.
Lemma events_name old data has name rest :
  str_len name + 8 <= maxMessageBytes ->
  sse_events false old data has ((bytes_of ("event: " +:+ name), str_len ("event: " +:+ name) + 1) :: rest) = sse_events false name data has rest.
Proof.
  intros H1. cbn [sse_events]. rewrite str_len_app. change (str_len "event: ") with 7. rewrite (proj2 (Z.ltb_ge _ _)) by lia.
  rewrite of_bytes_of. change (String.eqb ("event: " +:+ name) EmptyString) with false. change (has_prefix ("event: " +:+ name) ":") with false. cbv iota.
  replace (sse_field ("event: " +:+ name)) with ("event"%string, name) by (unfold sse_field; cbn -[trim_prefix]; symmetry; f_equal; exact (trim_prefix_app " " name)).
  done.
Qed.

Lemma str_app_line a s rest : (a +:+ nl +:+ s) +:+ rest = a +:+ nl +:+ (s +:+ rest).
Proof. by rewrite !str_app_assoc. Qed.

Lemma events_lines name data has lines rest :
  lines <> [] \/ has = true -> Forall one_line lines -> str_len data + data_size lines + 7 <= maxMessageBytes ->
  sse_events false name data has (sse_lines [] (bytes_of (data_lines lines +:+ rest))) =
  sse_events false name (data_text data lines) true (sse_lines [] (bytes_of rest)).
Proof.
  intros Hne Hl. revert data has Hne. induction Hl as [|l lines Hl Hls IH]; intros data has Hne Hsz; cbn [data_lines foldr data_text foldl].
  - destruct Hne as [?| ->]; done.
  - change (foldr _ EmptyString lines) with (data_lines lines). rewrite str_app_line.
    rewrite sse_lines_string by (apply one_line_app; [by apply one_line_check|done]).
    cbn [data_size foldr] in Hsz. change (foldr _ 0 lines) with (data_size lines) in Hsz. pose proof (data_size_nonneg lines). pose proof (str_len_nonneg data).
    rewrite events_data by lia. rewrite IH; [done|by right|]. rewrite !str_len_app. change (str_len nl) with 1. lia.
Qed.

Lemma data_text_join lines data : lines <> [] -> data_text data lines = data +:+ join lines nl +:+ nl.
Proof.
  revert data. induction lines as [|l lines IH]; intros data Hne; [done|]. cbn [data_text foldl]. destruct lines as [|l' lines]; [done|].
  change (foldl _ _ (l' :: lines)) with (data_text (data +:+ l +:+ nl) (l' :: lines)). rewrite IH by done.
  change (join (l :: l' :: lines) nl) with (l +:+ nl +:+ join (l' :: lines) nl). by rewrite <- !str_app_assoc.
Qed.

