(* ===== verification/Auth.v ===== *)
(** Who may use the harness (internal/server auth.go, password.go, and
    internal/store/auth.go): the password, the sessions of signed-in browsers,
    and the tokens requests carry. Requests are programs of [Threads] over the
    two tables; the clock, the database's failures, and random bytes are
    functions of a step counter, and the hash functions are parameters. *)
From S2P Require Import Prelude GoStr Failure Entries Threads Api.
From stdpp Require Import options.
Open Scope Z_scope.

(** ** Passwords *)

(* @src internal/server/password.go 19-27 passwordScheme *)
Definition passwordScheme : string := "pbkdf2-sha256".
Definition passwordIterations : Z := 600000.
Definition passwordSaltBytes : nat := 16.
Definition passwordKeyBytes : Z := 32.
Definition minPasswordLength : Z := 8.
Definition maxPasswordLength : Z := 1024.
(* @src internal/server/password.go 29-30 sessionTokenBytes *)
Definition sessionTokenBytes : nat := 32.

Definition dollar : Ascii.ascii := of_byte 36.
(* @src internal/server/password.go 76-86 validatePassword *)
Definition validatePassword (password : string) : option failure :=
  if Z.of_nat (length (runes password)) <? minPasswordLength
  then Some (invalidf ("the password must be at least " +:+ itoa minPasswordLength +:+ " characters"))
  else if maxPasswordLength <? str_len password
  then Some (invalidf ("the password must be at most " +:+ itoa maxPasswordLength +:+ " bytes"))
  else None.

(** The hash functions: SHA-256, and PBKDF2 over it, of a password, a salt, a
    number of rounds, and a number of bytes. *)
Record Hashes := mkHashes {
  sha256 : string -> list Z;
  pbkdf2 : string -> list Z -> Z -> Z -> option (list Z);
}.

Section passwords.
Context (H : Hashes).

(** [salt] is what [rand.Read] filled. *)
(* @src internal/server/password.go 32-47 hashPassword *)
Definition hashPassword (salt : option (list Z)) (password : string) : string + GoError :=
  match salt with
  | None => inr (ErrWrap "hash password" (ErrText "random"))
  | Some salt =>
      match pbkdf2 H password salt passwordIterations passwordKeyBytes with
      | None => inr (ErrWrap "hash password" (ErrText "key"))
      | Some key =>
          inl (join [passwordScheme; itoa passwordIterations; b64_encode false false (of_bytes salt); b64_encode false false (of_bytes key)] "$")
      end
  end.

(* @src internal/server/password.go 49-74 checkPassword *)
Definition checkPassword (stored password : string) : bool :=
  match split stored dollar with
  | [scheme; rounds; salt; key] =>
      if negb (String.eqb scheme passwordScheme) then false else
      match Atoi rounds with
      | None => false
      | Some iterations =>
          if iterations <? 1 then false else
          match b64_decode false salt, b64_decode false key with
          | Some salt, Some want =>
              if String.eqb want EmptyString then false else
              match pbkdf2 H password (bytes_of salt) iterations (str_len want) with
              | Some got => bool_decide (got = bytes_of want)
              | None => false
              end
          | _, _ => false
          end
      end
  | _ => false
  end.

(* @src internal/server/password.go 100-104 tokenHash *)
Definition tokenHash (token : string) : string := hex_string (sha256 H token).
(* @src internal/server/password.go 88-98 newSessionToken *)
Definition newSessionToken (random : option (list Z)) : (string * string) + GoError :=
  match random with
  | None => inr (ErrWrap "create session token" (ErrText "random"))
  | Some raw => let token := b64_encode true false (of_bytes raw) in inl (token, tokenHash token)
  end.
End passwords.

(** ** The tables *)

(** A request, as far as this matters: its path, decoded and clean, its
    Authorization header, and the token of its query. *)
Record Request := mkRequest { rq_Method : string; rq_Path : string; rq_Authorization : string; rq_Token : string }.

#[export] Instance Request_eq_dec : EqDecision Request.
Proof. solve_decision. Defined.

(** A browser that was signed in: its token, until when, and the hash of the
    password that was chosen or given. *)
Record Issue := mkIssue { is_Token : string; is_Until : Z; is_Hash : string }.

(** The table of the password has one row; that of the sessions has, by the
    hash of its token, when each expires. [ac_login] is the mutex. What
    follows is only written: every hash that was the password's, how often
    setup succeeded, who was signed in, and the requests that were let in. *)
Record Access := mkAccess {
  ac_tick : nat; ac_password : option string; ac_sessions : gmap string Z; ac_login : bool;
  ac_hashes : list string; ac_setups : nat; ac_issued : list Issue; ac_admitted : list Request;
}.
Definition newAccess : Access := mkAccess O None ∅ false [] O [] [].
Definition tick (s : Access) : Access :=
  mkAccess (S (ac_tick s)) (ac_password s) (ac_sessions s) (ac_login s) (ac_hashes s) (ac_setups s) (ac_issued s) (ac_admitted s).
Definition with_sessions (x : gmap string Z) (s : Access) : Access :=
  mkAccess (ac_tick s) (ac_password s) x (ac_login s) (ac_hashes s) (ac_setups s) (ac_issued s) (ac_admitted s).
Definition with_login (x : bool) (s : Access) : Access :=
  mkAccess (ac_tick s) (ac_password s) (ac_sessions s) x (ac_hashes s) (ac_setups s) (ac_issued s) (ac_admitted s).

Definition admit_request (r : Request) (s : Access) : Access :=
  mkAccess (ac_tick s) (ac_password s) (ac_sessions s) (ac_login s) (ac_hashes s) (ac_setups s) (ac_issued s) (ac_admitted s ++ [r]).

(** The statements, each as a whole transaction; [now] is the database's. *)
(* @src internal/store/auth.go 10-18 Store.PasswordHash *)
Definition PasswordHash (s : Access) : (string + GoError) * Access :=
  (match ac_password s with Some h => inl h | None => inr (wrap "read password" NoRows) end, s).
(* @src internal/store/auth.go 20-28 Store.CreatePasswordHash *)
Definition CreatePasswordHash (hash : string) (s : Access) : (unit + GoError) * Access :=
  match ac_password s with
  | Some _ => (inr (wrap "create password" UniqueViolation), s)
  | None => (inl tt, mkAccess (ac_tick s) (Some hash) (ac_sessions s) (ac_login s) (ac_hashes s ++ [hash]) (S (ac_setups s)) (ac_issued s) (ac_admitted s))
  end.
(* @src internal/store/auth.go 30-47 Store.ReplacePasswordHash *)
Definition ReplacePasswordHash (hash : string) (s : Access) : (unit + GoError) * Access :=
  match ac_password s with
  | None => (inr (wrap "replace password" NoRows), s)
  | Some _ => (inl tt, mkAccess (ac_tick s) (Some hash) ∅ (ac_login s) (ac_hashes s ++ [hash]) (ac_setups s) (ac_issued s) (ac_admitted s))
  end.
(** The hash of a new token that is taken already is refused. *)
(* @src internal/store/auth.go 49-63 Store.CreateAuthSession *)
Definition CreateAuthSession (now : Z) (i : Issue) (tokenHash : string) (s : Access) : (unit + GoError) * Access :=
  let live := base.filter (fun p => now < p.2) (ac_sessions s) in
  match live !! tokenHash with
  | Some _ => (inr (wrap "create session" UniqueViolation), s)
  | None => (inl tt, mkAccess (ac_tick s) (ac_password s) (<[tokenHash := is_Until i]> live) (ac_login s) (ac_hashes s) (ac_setups s) (ac_issued s ++ [i]) (ac_admitted s))
  end.
(* @src internal/store/auth.go 65-75 Store.AuthSessionExpiry *)
Definition AuthSessionExpiry (tokenHash : string) (s : Access) : (Z + GoError) * Access :=
  (match ac_sessions s !! tokenHash with Some t => inl t | None => inr (wrap "read session" NoRows) end, s).
(* @src internal/store/auth.go 77-85 Store.DeleteAuthSession *)
Definition DeleteAuthSession (tokenHash : string) (s : Access) : (unit + GoError) * Access :=
  (inl tt, with_sessions (base.delete tokenHash (ac_sessions s)) s).

(** ** Outside *)

(** The clocks of the harness and of the database, whether a statement fails
    and with what, and random bytes. *)
Record AccessEnv := mkAccessEnv {
  ae_now : nat -> Z; ae_dbnow : nat -> Z; ae_db : nat -> option GoError; ae_random : nat -> nat -> option (list Z);
}.

(** What the server was configured with, and whether it has a database. *)
Record AccessConfig := mkAccessConfig { cf_AuthToken : string; cf_Store : bool }.

(* @src internal/server/auth.go 14-17 eventsPath *)
Definition eventsPath : string := "/api/events".
(** [^/api/workspaces/[^/]+/terminal$]. *)
(* @src internal/server/auth.go 19-21 terminalPattern *)
Definition terminalPattern (path : string) : bool :=
  match split path (of_byte 47) with
  | [""%string; "api"%string; "workspaces"%string; id; "terminal"%string] => negb (String.eqb id EmptyString)
  | _ => false
  end.
(* @src internal/server/auth.go 108-112 isSocketPath *)
Definition isSocketPath (path : string) : bool := String.eqb path eventsPath || terminalPattern path.
(* @src internal/server/auth.go 96-106 bearerToken *)
Definition bearerToken (r : Request) : string :=
  if has_prefix (rq_Authorization r) "Bearer " then trim_space (trim_prefix (rq_Authorization r) "Bearer ")
  else if isSocketPath (rq_Path r) then trim_space (rq_Token r)
  else EmptyString.

(* @src internal/server/auth.go 23-25 sessionLifetime *)
Definition sessionLifetime : Z := 30 * 24 * 3600 * 10 ^ 9.

Record signInResponse := mkSignIn { si_Token : string; si_ExpiresAt : Z }.

Definition unauthorized (message : string) : failure := Api 401 codeUnauthorized message.
Definition already_set_up : failure := conflictf "the harness is already set up; sign in instead".

Section access.
Context (E : AccessEnv) (H : Hashes) (cfg : AccessConfig).
Abbreviation P := (prog Access).

Definition step {A} (f : Access -> A * Access) : P A := act (fun s => f (tick s)).
Definition look {A} (f : Access -> A) : P A := step (fun s => (f s, s)).
Definition query {A} (f : Access -> (A + GoError) * Access) : P (A + GoError) :=
  step (fun s => match ae_db E (ac_tick s) with Some e => (inr e, s) | None => f s end).
Definition now : P Z := look (fun s => ae_now E (ac_tick s)).
Definition random (n : nat) : P (option (list Z)) := look (fun s => ae_random E (ac_tick s) n).
Definition lock : P unit := await (fun s => if ac_login s then None else Some (tt, with_login true (tick s))).
Definition unlock : P unit := step (fun s => (tt, with_login false s)).

(** Go on with what was answered, or fail. *)
Definition or_fail {A B} (m : P (A + GoError)) (f : A -> P (answer B)) : P (answer B) :=
  r ← m; match r with inl a => f a | inr e => mret (inr (Plain e)) end.
Notation "x '<-?' m ; k" := (or_fail m (fun x => k)) (at level 20, m at level 100, k at level 200, only parsing).

(** ** Requests *)

(* @src internal/server/auth.go 71-94 Server.authorized *)
Definition authorized (r : Request) : P bool :=
  let token := bearerToken r in
  if String.eqb token EmptyString then mret false
  else if negb (String.eqb (cf_AuthToken cfg) EmptyString) && String.eqb token (cf_AuthToken cfg) then mret true
  else if negb (cf_Store cfg) then mret false
  else
    e ← query (AuthSessionExpiry (tokenHash H token));
    match e with
    | inr _ => mret false
    | inl expires => t ← now; mret (t <? expires)
    end.

(* @src internal/server/auth.go 52-69 Server.authenticated *)
Definition authenticated {A} (r : Request) (h : P (answer A)) : P (answer A) :=
  ok ← authorized r;
  if (ok : bool) then _ ← step (fun s => (tt, admit_request r s)); h else mret (inr (unauthorized "a valid bearer token is required")).

(* @src internal/server/auth.go 262-273 Server.passwordSet *)
Definition passwordSet : P (bool + GoError) :=
  r ← query PasswordHash;
  mret (match r with
        | inl _ => inl true
        | inr e => if is_sentinel "not found" e then inl false else inr e
        end).

(* @src internal/server/auth.go 114-122 Server.handleAuthStatus *)
Definition handleAuthStatus : P (answer bool) := set <-? passwordSet; mret (inl (200, set)).

(** [hash] is the password's that was chosen or given. *)
(* @src internal/server/auth.go 247-260 Server.signIn *)
Definition signIn (hash : string) (status : Z) : P (answer signInResponse) :=
  raw ← random sessionTokenBytes;
  match newSessionToken H raw with
  | inr e => mret (inr (Plain e))
  | inl (token, key) =>
      t ← now;
      let expires := t + sessionLifetime in
      _ <-? query (fun s => CreateAuthSession (ae_dbnow E (ac_tick s)) (mkIssue token expires hash) key s);
      mret (inl (status, mkSignIn token expires))
  end.

(* @src internal/server/auth.go 124-165 Server.handleSetup *)
Definition handleSetup (password : string) : P (answer signInResponse) :=
  match validatePassword password with
  | Some f => mret (inr f)
  | None =>
      set <-? passwordSet;
      if (set : bool) then mret (inr already_set_up) else
      _ ← lock;
      salt ← random passwordSaltBytes;
      let hashed := hashPassword H salt password in
      _ ← unlock;
      hash <-? mret hashed;
      r ← query (CreatePasswordHash hash);
      match r with
      | inr e => mret (inr (if is_sentinel "conflict" e then already_set_up else Plain e))
      | inl _ => signIn hash 201
      end
  end.

(** A password that is too long matches nothing. *)
Definition check_bounded (stored password : string) : bool := (str_len password <=? maxPasswordLength) && checkPassword H stored password.

(* @src internal/server/auth.go 167-197 Server.handleLogin *)
Definition handleLogin (password : string) : P (answer signInResponse) :=
  r ← query PasswordHash;
  match r with
  | inr e => mret (inr (if is_sentinel "not found" e then conflictf "the harness is not set up yet" else Plain e))
  | inl stored =>
      _ ← lock;
      ok ← look (fun _ => check_bounded stored password);
      _ ← unlock;
      if (ok : bool) then signIn stored 200
      else mret (inr (unauthorized "that password is not the one this harness was set up with"))
  end.

(* @src internal/server/auth.go 199-207 Server.handleLogout *)
Definition handleLogout (r : Request) : P (answer unit) :=
  _ <-? query (DeleteAuthSession (tokenHash H (bearerToken r)));
  mret (inl (204, tt)).

(* @src internal/server/auth.go 209-245 Server.handleChangePassword *)
Definition handleChangePassword (current new : string) : P (answer signInResponse) :=
  stored <-? query PasswordHash;
  _ ← lock;
  ok ← look (fun _ => check_bounded stored current);
  _ ← unlock;
  if negb (ok : bool) then mret (inr (invalidf "the current password is wrong")) else
  match validatePassword new with
  | Some f => mret (inr f)
  | None =>
      salt ← random passwordSaltBytes;
      hash <-? mret (hashPassword H salt new);
      _ <-? query (ReplacePasswordHash hash);
      signIn hash 200
  end.
End access.

#[local] Set Default Proof Using "Type*".

(** ** What holds between any two actions *)

(** Requests of the API, and how a sign-in came about. *)
Inductive auth_request : Type :=
| RStatus
| RSetup (password : string)
| RLogin (password : string)
| RLogout (r : Request)
| RChange (r : Request) (current new : string)
| RUse (r : Request).

Section auth.
Context (E : AccessEnv) (H : Hashes) (cfg : AccessConfig).

Definition auth_thread (q : auth_request) : prog Access unit :=
  match q with
  | RStatus => _ ← handleAuthStatus E; mret tt
  | RSetup password => _ ← handleSetup E H password; mret tt
  | RLogin password => _ ← handleLogin E H password; mret tt
  | RLogout r => _ ← authenticated E H cfg r (handleLogout E H r); mret tt
  | RChange r current new => _ ← authenticated E H cfg r (handleChangePassword E H current new); mret tt
  | RUse r => _ ← authenticated E H cfg r (mret (inl (200, tt))); mret tt
  end.

Context (qs : list auth_request).

(** A request of these gave the password of that hash, or chose it. *)
Definition chose (h : string) : Prop :=
  exists password salt, validatePassword password = None /\ hashPassword H salt password = inl h /\
    (RSetup password ∈ qs \/ exists r current, RChange r current password ∈ qs).
Definition gave (h : string) : Prop := exists password, check_bounded H h password = true /\ RLogin password ∈ qs.

Definition legitimate (r : Request) (s : Access) : Prop :=
  bearerToken r <> EmptyString /\
  (bearerToken r = cf_AuthToken cfg \/
   exists i n, i ∈ ac_issued s /\ tokenHash H (is_Token i) = tokenHash H (bearerToken r) /\ (n <= ac_tick s)%nat /\ ae_now E n < is_Until i).

Record Inv (s : Access) : Prop := {
  a_sessions : forall key t, ac_sessions s !! key = Some t -> exists i, i ∈ ac_issued s /\ tokenHash H (is_Token i) = key /\ is_Until i = t;
  a_issued : forall i, i ∈ ac_issued s -> is_Hash i ∈ ac_hashes s /\ (chose (is_Hash i) \/ gave (is_Hash i));
  a_hashes : forall h, h ∈ ac_hashes s -> chose h;
  a_password : forall h, ac_password s = Some h -> h ∈ ac_hashes s;
  a_setups : ac_setups s = match ac_password s with Some _ => 1%nat | None => O end;
  a_admitted : forall r, r ∈ ac_admitted s -> legitimate r s;
}.

Record Guard (s s' : Access) : Prop := {
  b_tick : (ac_tick s <= ac_tick s')%nat;
  b_hashes : ac_hashes s ⊆ ac_hashes s';
  b_issued : ac_issued s ⊆ ac_issued s';
}.
Abbreviation goes := (Threads.goes Inv Guard).
Abbreviation lasts := (Threads.lasts Inv Guard).

Lemma legitimate_lasts r : lasts (legitimate r).
Proof.
  intros s s' _ _ [Ht _ Hi] [Hne [Hc|(i & n & H1 & H2 & H3 & H4)]]; split; [done|by left|done|]. right. exists i, n. split; [by apply Hi|].
  split; [done|]. split; [lia|done].
Qed.
Lemma hash_lasts h : lasts (fun s => h ∈ ac_hashes s).
Proof. intros s s' _ _ [_ Hh _]. apply Hh. Qed.

Lemma Inv_tick s : Inv s -> Inv (tick s) /\ Guard s (tick s).
Proof.
  intros [I1 I2 I3 I4 I5 I6]. split; [split; try done|split; cbn; [lia|done|done]].
  intros r Hr. destruct (I6 r Hr) as [Hne [Hc|(i & n & ? & ? & ? & ?)]]; (split; [done|]); [by left|right].
  exists i, n. split; [done|]. split; [done|]. split; [cbn; lia|done].
Qed.

(** A step, after its tick. *)
Lemma goes_step {A} (f : Access -> A * Access) (X : Access -> Prop) (R : A -> Access -> Prop) :
  lasts X -> (forall a, lasts (R a)) ->
  (forall s, Inv s -> X s -> Inv (f s).2 /\ Guard s (f s).2 /\ R (f s).1 (f s).2) -> goes (step f) X R.
Proof.
  intros HX HR Hf. apply goes_await; [done|]. intros s a s' Hi Hx [= Hs]. destruct (Inv_tick s Hi) as [Hi' Hg].
  specialize (Hf (tick s) Hi' (HX s _ Hi Hi' Hg Hx)). rewrite Hs in Hf. destruct Hf as (H1 & [G1 G2 G3] & H3). split; [done|].
  split; [|done]. split; cbn in *; [lia|done|done].
Qed.
Lemma Guard_same s s' : ac_tick s' = ac_tick s -> ac_hashes s' = ac_hashes s -> ac_issued s' = ac_issued s -> Guard s s'.
Proof. intros H1 H2 H3. split; rewrite ?H1, ?H2, ?H3; done. Qed.
Lemma goes_look {A} (f : Access -> A) (X : Access -> Prop) (R : A -> Access -> Prop) :
  lasts X -> (forall a, lasts (R a)) -> (forall s, Inv s -> X s -> R (f s) s) -> goes (look f) X R.
Proof. intros HX HR Hf. apply goes_step; [done|done|]. intros s Hi Hx. split; [done|]. split; [by apply Guard_same|by apply Hf]. Qed.
Lemma goes_query {A} (f : Access -> (A + GoError) * Access) (X : Access -> Prop) (R : A + GoError -> Access -> Prop) :
  lasts X -> (forall a, lasts (R a)) -> (forall e s, Inv s -> X s -> R (inr e) s) ->
  (forall s, Inv s -> X s -> Inv (f s).2 /\ Guard s (f s).2 /\ R (f s).1 (f s).2) -> goes (query E f) X R.
Proof.
  intros HX HR He Hf. apply goes_step; [done|done|]. intros s Hi Hx. destruct (ae_db E (ac_tick s)) as [e|]; [|by apply Hf].
  split; [done|]. split; [by apply Guard_same|by apply He].
Qed.
Lemma goes_or_fail {A B} (m : prog Access (A + GoError)) (f : A -> prog Access (answer B)) X R :
  goes m X R -> (forall a, goes (f a) (R (inl a)) (fun _ _ => True)) -> goes (or_fail m f) X (fun _ _ => True).
Proof. intros Hm Hf. eapply goes_bind; [exact Hm|]. intros [a|e]; [apply Hf|by apply goes_ret]. Qed.
Lemma Inv_login x s : Inv s -> Inv (with_login x s).
Proof. intros [I1 I2 I3 I4 I5 I6]. by split. Qed.
Lemma goes_lock X : lasts X -> goes lock X (fun _ => X).
Proof.
  intros HX. apply goes_await; [done|]. intros s [] s' Hi Hx Hs. destruct (ac_login s); [done|]. injection Hs as <-.
  destruct (Inv_tick s Hi) as [H1%(Inv_login true) [G1 G2 G3]]. assert (H2 : Guard s (with_login true (tick s))) by by split. split; [done|]. split; [done|]. by apply (HX s).
Qed.
Lemma goes_unlock X : lasts X -> goes unlock X (fun _ => X).
Proof.
  intros HX. apply goes_step; [done|done|]. intros s Hi Hx. cbn [fst snd].
  assert (H1 := Inv_login false s Hi). assert (H2 : Guard s (with_login false s)) by by apply Guard_same. split; [done|]. split; [done|]. by apply (HX s).
Qed.

(** ** Handlers *)

Definition anything (_ : Access) : Prop := True.
Lemma anything_lasts : lasts anything. Proof. done. Qed.
Lemma pure_lasts (phi : Prop) : lasts (fun _ => phi). Proof. by intros s s' _ _ _. Qed.
#[local] Hint Resolve anything_lasts pure_lasts hash_lasts legitimate_lasts : core.

Lemma reads_query {A} (f : Access -> (A + GoError) * Access) : (forall s, (f s).2 = s) -> goes (query E f) anything (fun _ => anything).
Proof. intros Hf. apply goes_query; [done|done|done|]. intros s Hi _. rewrite Hf. split; [done|]. split; [by apply Guard_same|done]. Qed.

Lemma goes_authorized r : goes (authorized E H cfg r) anything (fun ok s => if ok then legitimate r s else True).
Proof.
  unfold authorized. destruct (String.eqb_spec (bearerToken r) EmptyString) as [|Hne]; [by apply goes_ret|].
  destruct (_ && _) eqn:Ec.
  { apply goes_ret. intros s _ _. split; [done|]. left. apply andb_true_iff in Ec as [_ Ec]. by apply String.eqb_eq. }
  destruct (cf_Store cfg); cbn [negb]; [|by apply goes_ret].
  eapply (goes_bind _ _ _ _ _ (fun e s => match e with
    | inl t => exists i, i ∈ ac_issued s /\ tokenHash H (is_Token i) = tokenHash H (bearerToken r) /\ is_Until i = t
    | inr _ => True end)).
  - apply goes_query; [done| |done|].
    + intros [t|e]; [|done]. intros s s' _ _ [_ _ Hi] (i & H1 & H2). exists i. split; [by apply Hi|done].
    + intros s Hi _. split; [done|]. split; [by apply Guard_same|]. cbn [fst snd AuthSessionExpiry].
      destruct (ac_sessions s !! _) as [t|] eqn:Es; [|done]. by apply (a_sessions s Hi).
  - intros [t|e]; [|by apply goes_ret]. eapply (goes_bind _ _ _ _ _ (fun x s => x < t -> legitimate r s)).
    + apply goes_look.
      * intros s s' _ _ [_ _ Hi] (i & H1 & H2). exists i. split; [by apply Hi|done].
      * intros a s s' Hi Hi' Hg Hx Ht. by apply (legitimate_lasts r s), Hx.
      * intros s Hi (i & H1 & H2 & H3) Ht. split; [done|]. right. exists i, (ac_tick s). rewrite H3. done.
    + intros x. apply goes_ret. intros s _ Hx. destruct (Z.ltb_spec x t); [by apply Hx|done].
Qed.

Lemma goes_authenticated {A} r (h : prog Access (answer A)) : goes h anything (fun _ _ => True) -> goes (authenticated E H cfg r h) anything (fun _ _ => True).
Proof.
  intros Hh. unfold authenticated. eapply goes_bind; [apply goes_authorized|]. intros [|]; [|by apply goes_ret].
  eapply (goes_bind _ _ _ _ _ (fun _ => anything)); [|by intros []]. apply goes_step; [done|done|]. intros s Hi Hl.
  split; [|split; [by apply Guard_same|done]]. destruct Hi as [I1 I2 I3 I4 I5 I6]. split; try done.
  intros r' Hr. cbn in Hr. apply elem_of_app in Hr as [Hr|Hr%list_elem_of_singleton]; [by apply I6|by subst].
Qed.

Lemma goes_passwordSet : goes (passwordSet E) anything (fun _ => anything).
Proof. unfold passwordSet. eapply goes_bind; [by apply reads_query|]. intros x. by apply goes_ret. Qed.

(** Who is signed in gave or chose the password. *)
Lemma goes_signIn h status : chose h \/ gave h -> goes (signIn E H h status) (fun s => h ∈ ac_hashes s) (fun _ _ => True).
Proof.
  intros Hh. unfold signIn. eapply (goes_bind _ _ _ _ _ (fun _ s => h ∈ ac_hashes s)); [by apply goes_look|].
  intros raw. destruct (newSessionToken H raw) as [[token key]|e] eqn:Et; [|by apply goes_ret].
  assert (Hkey : key = tokenHash H token) by (destruct raw; [by injection Et as <- <-|done]).
  eapply (goes_bind _ _ _ _ _ (fun _ s => h ∈ ac_hashes s)); [by apply goes_look|]. intros t. cbv zeta.
  eapply goes_or_fail; [|intros []; by apply goes_ret].
  apply (goes_query _ _ (fun _ => anything)); [done|done|done|]. intros s Hi Hs. unfold CreateAuthSession. cbv zeta.
  destruct (base.filter _ _ !! key); cbn [fst snd]; [split; [done|]; split; [by apply Guard_same|done]|].
  destruct Hi as [I1 I2 I3 I4 I5 I6]. split; [|split; [split; cbn; [done|done|set_solver]|done]]. split; cbn; try done.
  - intros key' t' Hk. destruct (decide (key' = key)) as [->|Hne].
    + rewrite lookup_insert_eq in Hk. injection Hk as <-. eexists. split; [apply elem_of_app; right; by left|]. by rewrite Hkey.
    + rewrite lookup_insert_ne in Hk by done. apply map_lookup_filter_Some in Hk as [Hk _].
      destruct (I1 key' t' Hk) as (i & Hi & H1). exists i. split; [apply elem_of_app; by left|done].
  - intros i [Hi|Hi%list_elem_of_singleton]%elem_of_app; [by apply I2|]. subst i. by split.
  - intros r Hr. destruct (I6 r Hr) as [Hne [Hc|(i & n & ? & ?)]]; (split; [done|]); [by left|right]. exists i, n. split; [|done].
    apply elem_of_app. by left.
Qed.

Lemma goes_handleSetup password : RSetup password ∈ qs -> goes (handleSetup E H password) anything (fun _ _ => True).
Proof.
  intros Hq. unfold handleSetup. destruct (validatePassword password) eqn:Ev; [by apply goes_ret|].
  eapply goes_or_fail; [apply goes_passwordSet|]. intros [|]; [by apply goes_ret|].
  eapply goes_bind; [by apply goes_lock|]. intros []. eapply (goes_bind _ _ _ _ _ (fun _ => anything)); [by apply goes_look|]. intros salt.
  eapply goes_bind; [by apply goes_unlock|]. intros [].
  eapply (goes_or_fail _ _ _ (fun x _ => match x with inl h => chose h | inr _ => True end)).
  { apply goes_ret. intros s _ _. destruct (hashPassword H salt password) eqn:Eh; [|done]. exists password, salt. eauto. }
  intros h. eapply (goes_bind _ _ _ _ _ (fun x s => chose h /\ match x with inl _ => h ∈ ac_hashes s | inr _ => True end)).
  - apply goes_query; [done|intros [[]|e] s s' _ _ [_ Hh _] [Hc Hx]; split; try done; by apply Hh|done|].
    intros s Hi Hc. unfold CreatePasswordHash. destruct (ac_password s) as [h'|] eqn:Ep; cbn [fst snd].
    + split; [done|]. split; [by apply Guard_same|done].
    + split; [|split; [split; cbn; [done|set_solver|done]|split; [done|cbn; set_solver]]].
      destruct Hi as [I1 I2 I3 I4 I5 I6]. split; cbn; try done.
      * intros i Hi. destruct (I2 i Hi) as [H1 H2]. split; [apply elem_of_app; by left|done].
      * intros h' [Hh|Hh%list_elem_of_singleton]%elem_of_app; [by apply I3|by subst].
      * intros h' [= <-]. apply elem_of_app. right. by left.
      * by rewrite I5, Ep.
  - intros [[]|e]; [|by apply goes_ret]. apply goes_pure. intros Hc. apply goes_signIn. by left.
Qed.

Lemma goes_check h password : goes (look (fun _ => check_bounded H h password)) (fun s => h ∈ ac_hashes s)
  (fun ok s => (ok = check_bounded H h password) /\ h ∈ ac_hashes s).
Proof.
  apply goes_look; [done| |done]. intros ok s s' _ _ [_ Hh _] [H1 H2]. split; [done|by apply Hh].
Qed.
Lemma goes_PasswordHash : goes (query E PasswordHash) anything (fun x s => match x with inl h => h ∈ ac_hashes s | inr _ => True end).
Proof.
  apply goes_query; [done|intros [h|e]; done|done|]. intros s Hi _. unfold PasswordHash. cbn [fst snd].
  split; [done|]. split; [by apply Guard_same|]. destruct (ac_password s) as [h|] eqn:Ep; [|done]. by apply (a_password s Hi).
Qed.

Lemma goes_handleLogin password : RLogin password ∈ qs -> goes (handleLogin E H password) anything (fun _ _ => True).
Proof.
  intros Hq. unfold handleLogin. eapply goes_bind; [apply goes_PasswordHash|]. intros [stored|e]; [|by apply goes_ret].
  eapply goes_bind; [by apply goes_lock|]. intros []. eapply goes_bind; [apply goes_check|]. intros ok. apply goes_pure. intros ->.
  eapply goes_bind; [by apply goes_unlock|]. intros []. destruct (check_bounded H stored password) eqn:Ec; [|by apply goes_ret].
  apply goes_signIn. right. by exists password.
Qed.

Lemma goes_handleChangePassword r current new : RChange r current new ∈ qs -> goes (handleChangePassword E H current new) anything (fun _ _ => True).
Proof.
  intros Hq. unfold handleChangePassword. eapply goes_or_fail; [apply goes_PasswordHash|]. intros stored.
  eapply goes_bind; [by apply goes_lock|]. intros []. eapply goes_bind; [apply goes_check|]. intros ok. apply goes_pure. intros ->.
  eapply goes_bind; [by apply goes_unlock|]. intros []. destruct (negb _); [by apply goes_ret|].
  destruct (validatePassword new) eqn:Ev; [by apply goes_ret|].
  eapply (goes_bind _ _ _ _ _ (fun _ => anything)); [by apply goes_look|]. intros salt.
  eapply (goes_or_fail _ _ _ (fun x _ => match x with inl h => chose h | inr _ => True end)).
  { apply goes_ret. intros s _ _. destruct (hashPassword H salt new) eqn:Eh; [|done]. exists new, salt. eauto 7. }
  intros h. eapply (goes_or_fail _ _ _ (fun x s => chose h /\ match x with inl _ => h ∈ ac_hashes s | inr _ => True end)).
  - apply goes_query; [done|intros [[]|e] s s' _ _ [_ Hh _] [Hc Hx]; split; try done; by apply Hh|done|].
    intros s Hi Hc. unfold ReplacePasswordHash. destruct (ac_password s) as [h'|] eqn:Ep; cbn [fst snd].
    + split; [|split; [split; cbn; [done|set_solver|done]|split; [done|cbn; set_solver]]].
      destruct Hi as [I1 I2 I3 I4 I5 I6]. split; cbn; try done.
      * intros i Hi. destruct (I2 i Hi) as [H1 H2]. split; [apply elem_of_app; by left|done].
      * intros h'' [Hh|Hh%list_elem_of_singleton]%elem_of_app; [by apply I3|by subst].
      * intros h'' [= <-]. apply elem_of_app. right. by left.
      * by rewrite I5, Ep.
    + split; [done|]. split; [by apply Guard_same|done].
  - intros []. apply goes_pure. intros Hc. apply goes_signIn. by left.
Qed.

Lemma goes_handleLogout r : goes (handleLogout E H r) anything (fun _ _ => True).
Proof.
  unfold handleLogout. eapply (goes_or_fail _ _ _ (fun _ => anything)); [|intros []; by apply goes_ret].
  apply goes_query; [done|done|done|]. intros s Hi _. split; [|split; [by apply Guard_same|done]].
  destruct Hi as [I1 I2 I3 I4 I5 I6]. split; cbn; try done. intros key t Hk. apply lookup_delete_Some in Hk as [_ Hk]. by apply I1.
Qed.

Lemma goes_thread q : q ∈ qs -> goes (auth_thread q) (fun _ => True) (fun _ _ => True).
Proof.
  intros Hq. destruct q; cbn [auth_thread]; (eapply (goes_bind _ _ _ _ _ (fun _ _ => True)); [|intros x; by apply goes_ret]).
  - unfold handleAuthStatus. eapply goes_or_fail; [apply goes_passwordSet|]. intros x. by apply goes_ret.
  - by apply goes_handleSetup.
  - by apply goes_handleLogin.
  - apply goes_authenticated, goes_handleLogout.
  - apply goes_authenticated. by eapply goes_handleChangePassword.
  - apply goes_authenticated. by apply goes_ret.
Qed.

Definition after (turns : list nat) : Access := c_state (schedule turns (mkConfig newAccess (map auth_thread qs))).

Lemma Inv_after turns : Inv (after turns).
Proof.
  assert (Hs : sound Inv Guard unseen anywhere (map (fun _ _ => True) (map auth_thread qs)) (schedule turns (mkConfig newAccess (map auth_thread qs)))).
  { apply goes_sound.
    - split; cbn; try done; intros x Hx; by apply elem_of_nil in Hx.
    - apply Forall_fmap, Forall_forall. intros q Hq. by apply goes_thread. }
  by destruct Hs as [Hi _].
Qed.
End auth.

(** ** Who is let in *)


(** However requests race to set the harness up, one of them does at most,
    and the password is always one that a request chose, a setup or a change of
    somebody signed in, and that is neither too short nor too long. *)
Theorem setup_claimed_once E H cfg qs turns :
  let s := after E H cfg qs turns in
  (ac_setups s <= 1)%nat /\ (ac_setups s = O <-> ac_password s = None) /\ forall h, ac_password s = Some h -> chose H qs h.
Proof.
  intros s. pose proof (Inv_after E H cfg qs turns) as Hi. fold s in Hi. pose proof (a_setups _ _ _ _ _ Hi) as Hs. rewrite Hs.
  split; [destruct (ac_password s); lia|]. split; [by destruct (ac_password s)|].
  intros h Hh. by apply (a_hashes _ _ _ _ _ Hi), (a_password _ _ _ _ _ Hi).
Qed.

(** ** Passwords *)

(** A password checked against a stored one matches exactly when the key
    derived from it, under the stored salt, is the stored one: the spelling of
    the hash with its scheme, rounds, salt, and key reads back. *)
Theorem checkPassword_reads_back H salt password stored password' :
  Forall (fun b => 0 <= b < 256) salt ->
  (forall key, pbkdf2 H password salt passwordIterations passwordKeyBytes = Some key ->
     Z.of_nat (length key) = passwordKeyBytes /\ Forall (fun b => 0 <= b < 256) key) ->
  hashPassword H (Some salt) password = inl stored ->
  checkPassword H stored password' = true <->
  pbkdf2 H password' salt passwordIterations passwordKeyBytes = pbkdf2 H password salt passwordIterations passwordKeyBytes.
Proof.
  intros Hsalt Hkey Hs. unfold hashPassword in Hs. destruct (pbkdf2 H password _ _ _) as [key|] eqn:Ek; [|done].
  destruct (Hkey key eq_refl) as [Hlen Hrange]. apply (f_equal (fun r => match r with inl x => x | inr _ => EmptyString end)) in Hs. cbv beta iota in Hs.
  rewrite <- Hs. clear Hs.
  assert (H64 : forall l, Forall (fun b => 0 <= b < 256) l -> without dollar (b64_encode false false (of_bytes l))).
  { intros l Hl. unfold without, b64_encode. rewrite (bytes_of_bytes l Hl). pose proof (b64_bytes_range false false l Hl) as Hr.
    rewrite bytes_of_bytes by (eapply Forall_impl; [exact Hr|]; cbn; lia). assert (Hd : byte_of dollar = 36) by done.
    eapply Forall_impl; [exact Hr|]. cbv beta. intros b Hb. rewrite Hd. lia. }
  assert (Hd : forall s, forallb (fun b => negb (b =? byte_of dollar)) (bytes_of s) = true -> without dollar s).
  { intros s Hs. apply List.Forall_forall. intros b Hb. rewrite forallb_forall in Hs. specialize (Hs b Hb). lia. }
  assert (Hsp : forall l, l <> [] -> Forall (without dollar) l -> split (join l "$") dollar = l) by (intros l; apply (split_parts dollar)).
  unfold checkPassword. rewrite Hsp; [|done|constructor; [by apply Hd|constructor; [by apply Hd|repeat (constructor; [by apply H64|]); constructor]]].
  change (String.eqb passwordScheme passwordScheme) with true. change (Atoi (itoa passwordIterations)) with (Some passwordIterations).
  cbv beta iota zeta. cbn [negb]. change (passwordIterations <? 1) with false. rewrite !b64_decode_encode. cbv beta iota.
  assert (Hne : String.eqb (of_bytes key) EmptyString = false).
  { destruct key; [by cbn in Hlen|done]. }
  rewrite Hne, !bytes_of_bytes by done. unfold str_len. rewrite <- length_bytes_of, bytes_of_bytes, Hlen by done.
  destruct (pbkdf2 H password' salt _ _) as [got|]; [|split; [done|by intros [=]]]. rewrite bool_decide_eq_true. split; [by intros ->|by intros [=]].
Qed.

Lemma alone_step {A B} (f : Access -> A * Access) (k : A -> prog Access B) s : alone (step f ≫= k) s = alone (k (f (tick s)).1) (f (tick s)).2.
Proof. cbn. by destruct (f (tick s)). Qed.
(** Signed in alone: the session is added to those that have not expired. *)
Lemma alone_signIn E H h status s status' r s' :
  alone (signIn E H h status) s = Some (inl (status', r), s') ->
  status' = status /\ ac_password s' = ac_password s /\
  exists now, ac_sessions s' = <[tokenHash H (si_Token r) := si_ExpiresAt r]> (base.filter (fun p => now < p.2) (ac_sessions s)).
Proof.
  unfold signIn, random, now, look. rewrite alone_step. cbn [fst snd]. destruct (newSessionToken H _) as [[token key]|e] eqn:Et; [|by intros [=]].
  assert (Hkey : key = tokenHash H token) by (destruct (ae_random E _ _); [by injection Et as <- <-|done]).
  rewrite alone_step. cbn [fst snd]. unfold or_fail, query. cbv zeta. rewrite alone_step. destruct (ae_db E _) as [e|]; [by intros [=]|].
  unfold CreateAuthSession. cbv zeta. destruct (base.filter _ _ !! key); [by intros [=]|]. cbn. intros [= <- <- <-]. cbn. rewrite Hkey. by eauto.
Qed.

(** A change of the password that goes through undisturbed leaves one
    session, that of who changed it: everybody else is signed out. *)
Theorem change_signs_others_out E H current new s status r s' :
  alone (handleChangePassword E H current new) s = Some (inl (status, r), s') ->
  status = 200 /\ ac_sessions s' = {[tokenHash H (si_Token r) := si_ExpiresAt r]} /\
  (exists salt, exists h, hashPassword H salt new = inl h /\ ac_password s' = Some h) /\
  exists h, ac_password s = Some h /\ check_bounded H h current = true.
Proof.
  unfold handleChangePassword, or_fail, query. rewrite alone_step. destruct (ae_db E _) as [e|]; [by intros [=]|].
  unfold PasswordHash. change (ac_password (tick s)) with (ac_password s). destruct (ac_password s) as [h|] eqn:Ep; [|by intros [=]]. cbn [fst snd].
  rewrite alone_bind. unfold lock, await. cbn [alone]. destruct (ac_login _); [done|]. unfold look at 1. rewrite alone_step. cbn [fst snd].
  unfold unlock. rewrite alone_step. cbn [fst snd]. destruct (check_bounded H h current) eqn:Ec; cbn [negb]; [|by intros [=]].
  destruct (validatePassword new); [by intros [=]|]. unfold random, look. rewrite alone_step. cbn [fst snd].
  destruct (ae_random E _ _) as [salt|]; [|by intros [=]]. destruct (hashPassword H (Some salt) new) as [h'|e] eqn:Eh; [|by intros [=]].
  rewrite alone_bind. cbn [alone mret prog_ret]. rewrite alone_step. destruct (ae_db E _) as [e|]; [by intros [=]|].
  unfold ReplacePasswordHash. cbn [ac_password tick with_login]. rewrite Ep. cbn [fst snd]. intros Hs.
  apply alone_signIn in Hs as (-> & Hp & t & Hse). split; [done|]. split; [|split; [exists (Some salt), h'; by rewrite Hp|by exists h]].
  rewrite Hse. cbn. by rewrite map_filter_empty, insert_empty.
Qed.

(** ** Runs *)

(** Hash functions without collisions, and an environment that never fails. *)
Definition ex_hashes : Hashes := mkHashes bytes_of (fun password salt _ n => Some (take (Z.to_nat n) (bytes_of password ++ replicate (Z.to_nat n) 0))).
Definition ex_access : AccessEnv := mkAccessEnv Z.of_nat Z.of_nat (fun _ => None) (fun t n => Some (replicate n (Z.of_nat t mod 256))).
Definition ex_config : AccessConfig := mkAccessConfig "configured" true.
Definition ex_with (token : string) : Request := mkRequest "GET" "/api/projects" ("Bearer " +:+ token) EmptyString.
Definition ex_old : string := "correct horse".
Definition ex_new : string := "battery staple".

Lemma ex_no_collisions t t' : tokenHash ex_hashes t = tokenHash ex_hashes t' -> t = t'.
Proof. intros Ht. apply bytes_of_inj, hex_string_inj; [apply bytes_of_range|apply bytes_of_range|exact Ht]. Qed.

(** The token of who sets the harness up, at the tenth step or so. *)
Definition ex_token (t : nat) : string := b64_encode true false (of_bytes (replicate 32 (Z.of_nat t mod 256))).
Definition ex_use : list auth_request := [RSetup ex_old; RUse (ex_with (ex_token 6))].
Definition ex_turns : list nat := [0; 0; 0; 0; 0; 0; 0; 0; 0; 0; 1; 1; 1; 1]%nat.


Definition ex_salt : list Z := replicate 16 7.
Definition ex_hash (password : string) : string := match hashPassword ex_hashes (Some ex_salt) password with inl h => h | inr _ => EmptyString end.

Lemma checkPassword_reads_back_witness :
  checkPassword ex_hashes (ex_hash ex_old) ex_old = true <->
  pbkdf2 ex_hashes ex_old ex_salt passwordIterations passwordKeyBytes = pbkdf2 ex_hashes ex_old ex_salt passwordIterations passwordKeyBytes.
Proof.
  apply (checkPassword_reads_back ex_hashes ex_salt ex_old).
  - apply Forall_replicate. lia.
  - intros key [= <-]. split; [done|].
    change (Forall (fun b => 0 <= b < 256) (take 32 (bytes_of ex_old ++ replicate 32 0))). apply Forall_take, Forall_app. split; [apply bytes_of_range|apply Forall_replicate; lia].
  - by vm_compute.
Defined.

Definition ex_set : Access := mkAccess O (Some (ex_hash ex_old)) {["elsewhere"%string := 10 ^ 18]} false [ex_hash ex_old] 1 [] [].
Lemma change_signs_others_out_witness :
  exists status r s', alone (handleChangePassword ex_access ex_hashes ex_old ex_new) ex_set = Some (inl (status, r), s') /\
    ac_sessions s' = {[tokenHash ex_hashes (si_Token r) := si_ExpiresAt r]}.
Proof.
  destruct (alone (handleChangePassword ex_access ex_hashes ex_old ex_new) ex_set) as [[[[status r]|f] s']|] eqn:Ea.
  - exists status, r, s'. split; [done|]. by destruct (change_signs_others_out ex_access ex_hashes ex_old ex_new ex_set status r s' Ea) as (_ & H & _).
  - exfalso. apply (f_equal (fun x => match x with Some (inl _, _) => true | _ => false end)) in Ea. vm_compute in Ea. discriminate.
  - exfalso. apply (f_equal (fun x => match x with Some _ => true | _ => false end)) in Ea. vm_compute in Ea. discriminate.
Defined.

(** ReplacePasswordHash ends every session so that no browser signed in
    with the old password outlives a change. A login that checked the old
    password before the change, and makes its session after it, does: it is let
    in when the old password is no longer accepted. *)
Theorem login_outlives_change :
  let r := ex_with (ex_token 23) in
  let start := mkConfig newAccess (map (auth_thread ex_access ex_hashes ex_config)
    [RSetup ex_old; RLogin ex_old; RChange (ex_with "configured") ex_old ex_new; RUse r]) in
  exists turns turns', let c := schedule turns start in let c' := schedule turns' c in
    ended_threads c = [true; true; true; false] /\ r ∉ ac_admitted (c_state c) /\
    (exists h, ac_password (c_state c) = Some h /\ check_bounded ex_hashes h ex_old = false /\ check_bounded ex_hashes h ex_new = true) /\
    r ∈ ac_admitted (c_state c').
Proof.
  exists [0; 0; 0; 0; 0; 0; 0; 0; 0; 0; 1; 1; 1; 1; 2; 2; 2; 2; 2; 2; 2; 2; 2; 2; 1; 1; 1; 1]%nat, [3; 3; 3; 3]%nat. cbv zeta.
  split; [by vm_compute|]. split; [|split].
  - apply (bool_decide_unpack _). by vm_compute.
  - eexists. split; [vm_compute; reflexivity|]. split; by vm_compute.
  - apply list_elem_of_In. vm_compute. right. by left.
Qed.
