(* ===== verification/Preview.v ===== *)
(** The ports of a workspace that a browser may look at (internal/server
    previews.go), and which handler a request reaches (routes.go, and Handler
    of server.go). A preview is opened with a ticket, which is traded once for
    a session on the preview's own host; requests are programs of [Threads]
    over the two tables. *)
From Stdlib Require Import Floats.SpecFloat.
From S2P Require Import Prelude GoStr Failure Json Entries Tables Threads Net Api Host Config Sandbox.
From stdpp Require Import options.
Open Scope Z_scope.

(** ** Hosts *)

(* @src internal/server/previews.go 28-37 previewPath *)
Definition previewPath : string := "/__eika/preview".
Definition previewCookie : string := "eika_preview".
Definition ticketLifetime : Z := 2 * 60 * 10 ^ 9.
Definition previewLifetime : Z := 12 * 3600 * 10 ^ 9.

Definition dot_byte : Ascii.ascii := of_byte 46.
Definition hyphen : Ascii.ascii := of_byte 45.
Definition decimal (b : Z) : bool := (48 <=? b) && (b <=? 57).
Definition base32 (b : Z) : bool := ((97 <=? b) && (b <=? 122)) || ((50 <=? b) && (b <=? 55)).

(** [^([0-9]{1,5})-([a-z2-7]{20})$]. *)
(* @src internal/server/previews.go 39-41 previewHostPattern *)
Definition previewHostPattern (label : string) : option (string * string) :=
  match split label hyphen with
  | [port; id] =>
      if negb (String.eqb port EmptyString) && forallb decimal (bytes_of port) && (str_len port <=? 5) &&
         forallb base32 (bytes_of id) && (str_len id =? 20)
      then Some (port, id) else None
  | _ => None
  end.

Section previews.
Context (lower_rune : Z -> Z).

(* @src internal/server/previews.go 208-223 previewHost *)
Definition previewHost (host : string) : option (string * Z) :=
  match split (to_lower lower_rune host) dot_byte with
  | label :: _ :: _ =>
      '(p, id) ← previewHostPattern label;
      port ← Atoi p;
      if (port <? 1) || (65535 <? port) then None else Some (id, port)
  | _ => None
  end.

(** ** Tickets and sessions *)

(* @src internal/server/previews.go 59-65 previewGrant *)
Record previewGrant := mkGrant { pg_Workspace : string; pg_Port : Z; pg_Expires : Z }.

(** A request of a preview's host: its path, the ticket of its query, and its
    cookies in order. *)
Record PreviewRequest := mkPreviewRequest { pq_Path : string; pq_Ticket : string; pq_Cookies : list (string * string) }.

(** What is answered: a text, a session in a cookie with a redirection, or what
    the sandbox answers at an address. *)
Inductive served : Type :=
| Says (status : Z) (text : string)
| Starts (session : string)
| Forwards (id : string) (port : Z) (target : string) (cookies : list (string * string)).

(** What follows the tables is only written: the tickets that were handed out
    with what they open, which were traded for which sessions, and what was
    forwarded at which step. *)
(* @src internal/server/previews.go 50-57 previews *)
Record Previews := mkPreviews {
  pv_tick : nat; pv_tickets : gmap string previewGrant; pv_sessions : gmap string previewGrant;
  pv_opened : list (string * previewGrant); pv_redeemed : list (string * string); pv_forwarded : list (nat * served);
}.
Definition newPreviews : Previews := mkPreviews O ∅ ∅ [] [] [].
Definition tick (s : Previews) : Previews :=
  mkPreviews (S (pv_tick s)) (pv_tickets s) (pv_sessions s) (pv_opened s) (pv_redeemed s) (pv_forwarded s).

(** The clock, random bytes, the rows of workspaces, where a port of a
    container is reached, and which addresses [url.Parse] takes. *)
Record PreviewEnv := mkPreviewEnv {
  pe_now : nat -> Z; pe_random : nat -> list Z; pe_workspace : nat -> string -> WorkspaceRow + GoError;
  pe_port : nat -> string -> Z -> string + GoError; pe_parses : string -> bool;
}.
Context (E : PreviewEnv).
Abbreviation P := (prog Previews).

Definition step {A} (f : Previews -> A * Previews) : P A := act (fun s => f (tick s)).
Definition look {A} (f : Previews -> A) : P A := step (fun s => (f s, s)).

(** The grants of a table that have not expired. *)
Definition unexpired (now : Z) (m : gmap string previewGrant) : gmap string previewGrant := base.filter (fun p => ~ (pg_Expires p.2 < now)) m.
Definition secret_at (t : nat) : string := hex_string (pe_random E t).

(** A ticket is handed out, and a session made, each under a fresh secret. *)
(* @src internal/server/previews.go 225-244 previews.grant *)
Definition grant_ticket (g : previewGrant) : P string :=
  step (fun s => let secret := secret_at (pv_tick s) in
    (secret, mkPreviews (pv_tick s) (<[secret := g]> (unexpired (pe_now E (pv_tick s)) (pv_tickets s))) (pv_sessions s)
       (pv_opened s ++ [(secret, g)]) (pv_redeemed s) (pv_forwarded s))).
(* @src internal/server/previews.go 225-244 previews.grant *)
Definition grant_session (ticket : string) (g : previewGrant) : P string :=
  step (fun s => let secret := secret_at (pv_tick s) in
    (secret, mkPreviews (pv_tick s) (pv_tickets s) (<[secret := g]> (unexpired (pe_now E (pv_tick s)) (pv_sessions s)))
       (pv_opened s) (pv_redeemed s ++ [(ticket, secret)]) (pv_forwarded s))).

(** A ticket is taken away, a session stays. *)
(* @src internal/server/previews.go 246-259 previews.take *)
Definition take_ticket (secret : string) : P (option previewGrant) :=
  step (fun s => match pv_tickets s !! secret with
    | None => (None, s)
    | Some g => (if pe_now E (pv_tick s) <? pg_Expires g then Some g else None,
        mkPreviews (pv_tick s) (base.delete secret (pv_tickets s)) (pv_sessions s) (pv_opened s) (pv_redeemed s) (pv_forwarded s))
    end).
(* @src internal/server/previews.go 246-259 previews.take *)
Definition take_session (secret : string) : P (option previewGrant) :=
  look (fun s => match pv_sessions s !! secret with
    | None => None
    | Some g => if pe_now E (pv_tick s) <? pg_Expires g then Some g else None
    end).

(** A row with its sandbox, as it is read. *)
Definition workspace_at (t : nat) (id : string) : (WorkspaceRow * WorkspaceSandbox) + GoError :=
  match pe_workspace E t id with
  | inl w => match read_sandbox (ws_Sandbox w) with Some sb => inl (w, sb) | None => inr (ErrText "decode sandbox") end
  | inr e => inr e
  end.

(** ** Requests *)

(** [base] is the scheme and the host the preview's host is built on. *)
(* @src internal/server/previews.go 67-99 Server.handleOpenPreview *)
Definition handleOpenPreview (id port : string) (base : string * string) : P (answer string) :=
  match Atoi port with
  | None => mret (inr (invalidf ("port " +:+ go_quote port +:+ " is not a number")))
  | Some port =>
      r ← look (fun s => workspace_at (pv_tick s) id);
      match r with
      | inr e => mret (inr (Plain e))
      | inl (ws, sb) =>
          if negb (sandboxPort sb port)
          then mret (inr (notFoundf ("workspace " +:+ ws_ID ws +:+ " does not forward port " +:+ itoa port +:+ "; add it in the Sandbox panel")))
          else if negb (String.eqb (ws_State ws) StateRunning)
          then mret (inr (conflictf ("workspace " +:+ ws_ID ws +:+ " is " +:+ ws_State ws +:+ ", not running")))
          else
            now ← look (fun s => pe_now E (pv_tick s));
            ticket ← grant_ticket (mkGrant (ws_ID ws) port (now + ticketLifetime));
            mret (inl (200, fst base +:+ "://" +:+ itoa port +:+ "-" +:+ ws_ID ws +:+ "." +:+ snd base +:+ previewPath +:+ "?ticket=" +:+ ticket))
      end
  end.

(** The grant is for this port of this workspace. *)
Definition opens (id : string) (port : Z) (g : option previewGrant) : bool :=
  match g with Some g => String.eqb (pg_Workspace g) id && (pg_Port g =? port) | None => false end.
(* @src internal/server/previews.go 261-271 withoutPreviewCookie *)
Definition withoutPreviewCookie (cookies : list (string * string)) : list (string * string) :=
  List.filter (fun c => negb (String.eqb c.1 previewCookie)) cookies.
Definition cookie_of (r : PreviewRequest) : option string :=
  snd <$> head (List.filter (fun c => String.eqb c.1 previewCookie) (pq_Cookies r)).

(* @src internal/server/previews.go 101-178 Server.servePreview *)
Definition servePreview (r : PreviewRequest) (id : string) (port : Z) : P served :=
  if String.eqb (pq_Path r) previewPath then
    g ← take_ticket (pq_Ticket r);
    if negb (opens id port g)
    then mret (Says 403 "This preview link has expired or was used already. Open the preview again from the workspace's Sandbox panel in Eika.")
    else
      now ← look (fun s => pe_now E (pv_tick s));
      session ← grant_session (pq_Ticket r) (mkGrant id port (now + previewLifetime));
      mret (Starts session)
  else
    match cookie_of r with
    | None => mret (Says 401 "Open this preview from the workspace's Sandbox panel in Eika.")
    | Some c =>
        g ← take_session c;
        if negb (opens id port g)
        then mret (Says 401 "This preview's session has ended. Open it again from the workspace's Sandbox panel in Eika.")
        else
          w ← look (fun s => workspace_at (pv_tick s) id);
          match w with
          | inr _ => mret (Says 404 "The workspace is gone.")
          | inl (ws, sb) =>
              if negb (sandboxPort sb port) then mret (Says 403 ("The workspace no longer forwards port " +:+ itoa port +:+ "."))
              else if negb (String.eqb (ws_State ws) StateRunning)
              then mret (Says 503 ("The workspace is " +:+ ws_State ws +:+ ". Start it in Eika to see the preview."))
              else
                base ← look (fun s => pe_port E (pv_tick s) (ws_ContainerID ws) port);
                match base with
                | inr _ => mret (Says 502 "The harness could not find the workspace on its network.")
                | inl base =>
                    if negb (pe_parses E base) then mret (Says 502 "The harness could not find the workspace on its network.")
                    else
                      let out := Forwards id port base (withoutPreviewCookie (pq_Cookies r)) in
                      step (fun s => (out, mkPreviews (pv_tick s) (pv_tickets s) (pv_sessions s) (pv_opened s) (pv_redeemed s) (pv_forwarded s ++ [(pv_tick s, out)])))
                end
          end
    end.
End previews.

(** ** Routes *)

Definition slash : Ascii.ascii := of_byte 47.

(** What the server was built with. *)
Record Deps := mkDeps { d_Store : bool; d_Workspaces : bool; d_Search : bool; d_MCP : bool; d_Hub : bool; d_Web : bool }.

(** A method, a path, and the handler. *)
Definition route : Type := (string * string * string)%type.

(* @src internal/server/routes.go 53-150 Server.resourceRoutes *)
Definition resourceRoutes (d : Deps) : list route :=
  [("POST", "/api/auth/logout", "handleLogout");
   ("PUT", "/api/auth/password", "handleChangePassword");
   ("GET", "/api/projects", "handleListProjects");
   ("POST", "/api/projects", "handleCreateProject");
   ("GET", "/api/projects/{id}", "handleProject");
   ("PATCH", "/api/projects/{id}", "handleUpdateProject");
   ("DELETE", "/api/projects/{id}", "handleDeleteProject");
   ("GET", "/api/workspaces", "handleListWorkspaces");
   ("POST", "/api/workspaces", "handleCreateWorkspace");
   ("GET", "/api/workspaces/{id}", "handleWorkspace");
   ("PATCH", "/api/workspaces/{id}", "handleUpdateWorkspace");
   ("DELETE", "/api/workspaces/{id}", "handleDeleteWorkspace");
   ("POST", "/api/workspaces/{id}/start", "handleStartWorkspace");
   ("POST", "/api/workspaces/{id}/stop", "handleStopWorkspace");
   ("POST", "/api/workspaces/{id}/merge", "handleMergeWorkspace");
   ("GET", "/api/workspaces/{id}/diff", "handleWorkspaceDiff");
   ("POST", "/api/workspaces/{id}/commit", "handleCommitWorkspace");
   ("POST", "/api/workspaces/{id}/push", "handlePushWorkspace");
   ("GET", "/api/workspaces/{id}/files", "handleListFiles");
   ("GET", "/api/workspaces/{id}/file", "handleReadFile");
   ("PUT", "/api/workspaces/{id}/file", "handleWriteFile");
   ("PUT", "/api/workspaces/{id}/sandbox", "handleSetWorkspaceSandbox");
   ("GET", "/api/workspaces/{id}/usage", "handleWorkspaceUsage");
   ("POST", "/api/workspaces/{id}/ports/{port}/preview", "handleOpenPreview");
   ("GET", "/api/sessions", "handleListSessions");
   ("POST", "/api/sessions", "handleCreateSession");
   ("GET", "/api/sessions/{id}", "handleSession");
   ("PATCH", "/api/sessions/{id}", "handleUpdateSession");
   ("DELETE", "/api/sessions/{id}", "handleDeleteSession");
   ("GET", "/api/sessions/{id}/outline", "handleSessionOutline");
   ("GET", "/api/sessions/{id}/path", "handleSessionPath");
   ("POST", "/api/sessions/{id}/head", "handleSetSessionHead");
   ("POST", "/api/sessions/{id}/fork", "handleForkSession");
   ("PUT", "/api/sessions/{id}/tools", "handleSetSessionTools");
   ("GET", "/api/sessions/{id}/configuration", "handleSessionConfiguration");
   ("PUT", "/api/sessions/{id}/profile", "handleSetSessionProfile");
   ("PUT", "/api/sessions/{id}/overrides", "handleSetSessionOverrides");
   ("GET", "/api/sessions/{id}/context", "handleSessionContext");
   ("GET", "/api/sessions/{id}/requests", "handleSessionRequests");
   ("GET", "/api/sessions/{id}/requests/{request_id}", "handleSessionRequest");
   ("GET", "/api/sessions/{id}/agents", "handleSessionAgents");
   ("POST", "/api/subagents/{id}/abort", "handleAbortSubagent");
   ("POST", "/api/sessions/{id}/messages", "handlePostMessage");
   ("GET", "/api/sessions/{id}/run", "handleSessionRun");
   ("POST", "/api/sessions/{id}/compact", "handleCompact");
   ("POST", "/api/runs/{id}/abort", "handleAbortRun");
   ("POST", "/api/questions/{id}/answer", "handleAnswerQuestion");
   ("GET", "/api/tools", "handleListTools");
   ("GET", "/api/providers", "handleListProviders");
   ("POST", "/api/providers", "handleCreateProvider");
   ("POST", "/api/providers/probe", "handleProbeProvider");
   ("PATCH", "/api/providers/{id}", "handleUpdateProvider");
   ("DELETE", "/api/providers/{id}", "handleDeleteProvider");
   ("GET", "/api/models", "handleListModels");
   ("POST", "/api/models", "handleCreateModel");
   ("POST", "/api/models/test", "handleTestModel");
   ("PATCH", "/api/models/{id}", "handleUpdateModel");
   ("DELETE", "/api/models/{id}", "handleDeleteModel");
   ("GET", "/api/profiles", "handleListProfiles");
   ("GET", "/api/profiles/inherited", "handleInheritedProfile");
   ("POST", "/api/profiles", "handleCreateProfile");
   ("PUT", "/api/profiles/{id}", "handleUpdateProfile");
   ("DELETE", "/api/profiles/{id}", "handleDeleteProfile")]%string ++
  (if d_Search d then
  [("POST", "/api/search", "handleSearch");
   ("GET", "/api/search/status", "handleSearchStatus");
   ("PUT", "/api/search/keys/{name}", "handlePutSearchKey")]%string else []) ++
  (if d_MCP d then
  [("GET", "/api/mcp/servers", "handleListMCPServers");
   ("POST", "/api/mcp/servers", "handleCreateMCPServer");
   ("GET", "/api/mcp/servers/{id}", "handleMCPServer");
   ("PATCH", "/api/mcp/servers/{id}", "handleUpdateMCPServer");
   ("DELETE", "/api/mcp/servers/{id}", "handleDeleteMCPServer");
   ("POST", "/api/mcp/servers/{id}/connect", "handleConnectMCPServer");
   ("POST", "/api/mcp/servers/{id}/authorize", "handleAuthorizeMCPServer");
   ("DELETE", "/api/mcp/servers/{id}/authorization", "handleSignOutMCPServer");
   ("POST", "/api/mcp/servers/{id}/resources/read", "handleReadMCPResource");
   ("POST", "/api/mcp/servers/{id}/prompts/get", "handleGetMCPPrompt");
   ("POST", "/api/mcp/oauth/callback", "handleMCPCallback");
   ("POST", "/api/elicitations/{id}/answer", "handleAnswerElicitation")]%string else []) ++
  [("GET", "/api/settings", "handleSettings");
   ("PUT", "/api/settings", "handlePutSettings");
   ("GET", "/api/system", "handleSystem")]%string.

(* @src internal/server/routes.go 11-51 Server.routes *)
Definition api_routes (d : Deps) : list route :=
  ("GET", "/api/events", "handleEvents")%string ::
  (if d_Workspaces d then [("GET", "/api/workspaces/{id}/terminal", "handleTerminal")%string] else []) ++
  (if d_Store d then resourceRoutes d else []).
(** The routes beside those behind the token. *)
(* @src internal/server/routes.go 11-51 Server.routes *)
Definition public_routes (d : Deps) : list route :=
  [("GET", "/healthz", "handleHealth"); ("GET", "/api/healthz", "handleHealth")]%string ++
  (if d_Store d then
     [("GET", "/api/auth/status", "handleAuthStatus"); ("POST", "/api/auth/setup", "handleSetup"); ("POST", "/api/auth/login", "handleLogin")]%string
   else []) ++
  (if d_MCP d then [("GET", "/oauth/client-metadata.json", "handleClientMetadata")%string] else []).

(** [http.ServeMux]: a GET pattern is one of HEAD as well; a wildcard takes a
    segment that is not empty. *)
Definition takes_method (pattern method : string) : bool := String.eqb pattern method || (String.eqb pattern "GET" && String.eqb method "HEAD").
Definition wild (segment : string) : bool := has_prefix segment "{".
Fixpoint takes_path (pattern path : list string) : bool :=
  match pattern, path with
  | [], [] => true
  | p :: pattern', s :: path' => (if wild p then negb (String.eqb s EmptyString) else String.eqb p s) && takes_path pattern' path'
  | _, _ => false
  end.
Definition takes (r : route) (method : string) (path : list string) : bool :=
  takes_method r.1.1 method && takes_path (split r.1.2 slash) path.
Definition lookup_route (rs : list route) (method path : string) : option string :=
  snd <$> head (List.filter (fun r => takes r method (split path slash)) rs).

(** Where a request goes: to the preview of a port, to a handler that needs no
    token, to one that does (or to none, but with a token all the same), to the
    hub, to the frontend, to the same path with a slash, or nowhere. *)
Inductive destination : Type :=
| ToPreview (id : string) (port : Z)
| ToPublic (handler : string)
| ToProtected (handler : option string)
| ToHub
| ToWeb
| ToSlash
| Nowhere.

(** The main table: its routes are more specific than the trees under /api/,
    the hub, and the frontend. *)
(* @src internal/server/routes.go 11-51 Server.routes *)
Definition mux (d : Deps) (method path : string) : destination :=
  match lookup_route (public_routes d) method path with
  | Some h => ToPublic h
  | None =>
      if has_prefix path "/api/" then ToProtected (lookup_route (api_routes d) method path)
      else if String.eqb path "/api" then ToSlash
      else if d_Hub d && has_prefix path "/git/" then ToHub
      else if d_Hub d && String.eqb path "/git" then ToSlash
      else if d_Web d then ToWeb else Nowhere
  end.

(** Of a path that is clean, in its decoded segments; others are redirected to
    the clean one first. *)
(* @src internal/server/server.go 194-204 Server.Handler *)
Definition Handler (lower_rune : Z -> Z) (d : Deps) (host method path : string) : destination :=
  match previewHost lower_rune host with
  | Some (id, port) => if d_Store d && d_Workspaces d then ToPreview id port else mux d method path
  | None => mux d method path
  end.

(** ** What holds between any two actions *)

Section claims.
Context (E : PreviewEnv).
(** Random bytes do not come twice. *)
Context (Hrandom : forall n m, secret_at E n = secret_at E m -> n = m).
#[local] Set Default Proof Using "Type*".
Abbreviation P := (prog Previews).

Definition same_place (g g' : previewGrant) : Prop := pg_Workspace g = pg_Workspace g' /\ pg_Port g = pg_Port g'.
Definition opened_at (id : string) (port : Z) (s : Previews) : Prop :=
  exists ticket g, (ticket, g) ∈ pv_opened s /\ pg_Workspace g = id /\ pg_Port g = port.
(** The workspace was running and forwarded the port, at a step. *)
Definition reachable (id : string) (port : Z) (n : nat) : Prop :=
  exists m ws sb, (m <= n)%nat /\ workspace_at E m id = inl (ws, sb) /\ sandboxPort sb port = true /\ ws_State ws = StateRunning.

Record PvInv (s : Previews) : Prop := {
  q_tickets : forall t g, pv_tickets s !! t = Some g -> (t, g) ∈ pv_opened s /\ t ∉ (pv_redeemed s).*1;
  q_opened : forall t g, (t, g) ∈ pv_opened s -> exists n, (n <= pv_tick s)%nat /\ t = secret_at E n;
  q_redeemed : forall t k, (t, k) ∈ pv_redeemed s -> exists g, (t, g) ∈ pv_opened s;
  q_once : NoDup (pv_redeemed s).*1;
  q_sessions : forall k g, pv_sessions s !! k = Some g -> opened_at (pg_Workspace g) (pg_Port g) s;
  q_forwarded : forall n id port target cookies, (n, Forwards id port target cookies) ∈ pv_forwarded s ->
    opened_at id port s /\ reachable id port n /\ Forall (fun c => c.1 <> previewCookie) cookies;
}.
Record PvGuard (s s' : Previews) : Prop := {
  pvg_tick : (pv_tick s <= pv_tick s')%nat;
  pvg_opened : pv_opened s ⊆ pv_opened s';
}.
(** A ticket that was taken away, to be traded for a session, is owned by who
    took it. *)
Definition taken (n : nat) (s : Previews) : Prop :=
  secret_at E n ∈ (pv_opened s).*1 /\ pv_tickets s !! secret_at E n = None /\ secret_at E n ∉ (pv_redeemed s).*1.
#[local] Instance taken_dec n s : Decision (taken n s).
Proof using Type. unfold taken. apply _. Defined.
Definition pv_view (n : nat) (s : Previews) : option unit := if decide (taken n s) then Some tt else None.
Abbreviation ok := (Threads.ok PvInv PvGuard pv_view anywhere).
Abbreviation pstable := (stable PvInv PvGuard pv_view).
Abbreviation pguar := (guar PvInv PvGuard pv_view).

Lemma view_taken n s : is_Some (pv_view n s) <-> taken n s.
Proof.
  unfold pv_view. destruct (decide (taken n s)) as [Ht|Ht]; split; [done|by eexists|by intros [? [=]]|done].
Qed.
Lemma view_iff n s s' : (taken n s' <-> taken n s) -> pv_view n s' = pv_view n s.
Proof. intros H. unfold pv_view. by rewrite (decide_ext _ _ _ _ H). Qed.

Lemma opened_grows id port s s' : pv_opened s ⊆ pv_opened s' -> opened_at id port s -> opened_at id port s'.
Proof. intros H (t & g & Hin & Hg). exists t, g. split; [by apply H|done]. Qed.
Lemma PvInv_tick s : PvInv s -> PvInv (tick s).
Proof.
  intros [I1 I2 I3 I4 I5 I6]. split; try done. intros t g Hin. destruct (I2 t g Hin) as (n & Hn & Ht). exists n. split; [cbn; lia|done].
Qed.

(** What lasts whoever moves. *)
Definition pv_lasts (X : Previews -> Prop) : Prop := forall s s', PvGuard s s' -> X s -> X s'.
Lemma lasts_stable o X : pv_lasts X -> pstable o X.
Proof. intros HX s s' _ (_ & Hg & _). by apply HX. Qed.
Lemma lasts_opened id port : pv_lasts (opened_at id port).
Proof. intros s s' Hg. apply opened_grows, (pvg_opened _ _ Hg). Qed.
Lemma lasts_reachable id port : pv_lasts (fun s => reachable id port (pv_tick s)).
Proof. intros s s' [Ht _] (m & ws & sb & Hm & H). exists m, ws, sb. split; [lia|done]. Qed.
Lemma lasts_and X Y : pv_lasts X -> pv_lasts Y -> pv_lasts (fun s => X s /\ Y s).
Proof. intros HX HY s s' Hg [Hx Hy]. split; [by apply (HX s)|by apply (HY s)]. Qed.
Lemma lasts_true : pv_lasts (fun _ => True). Proof. done. Qed.

Definition pv_goes {A} (m : P A) (X : Previews -> Prop) (R : A -> Previews -> Prop) : Prop := ok m None X (fun a o s => o = None /\ R a s).

Lemma pv_bind {A B} (m : P A) (f : A -> P B) X R Q : pv_goes m X R -> (forall a, ok (f a) None (R a) Q) -> ok (m ≫= f) None X Q.
Proof. intros Hm Hf. eapply ok_bind; [exact Hm|]. intros a o. apply ok_pure. intros ->. apply Hf. Qed.
Lemma pv_ret {A} (a : A) (X : Previews -> Prop) : ok (mret a) None X (fun _ _ _ => True).
Proof. by apply ok_ret. Qed.

(** A step of one who owns nothing, after its tick. *)
Lemma pv_step {A} (f : Previews -> A * Previews) X R :
  pv_lasts X -> (forall a, pv_lasts (R a)) ->
  (forall s0, PvInv s0 -> let s := tick s0 in PvInv s -> X s ->
     PvInv (f s).2 /\ PvGuard s (f s).2 /\ (forall n, pv_view n (f s).2 = pv_view n s \/ pv_view n s = None) /\ R (f s).1 (f s).2) ->
  pv_goes (step f) X R.
Proof.
  intros HX HR Hf. apply ok_act. intros s a s' Hi Hx [= Hs].
  assert (Hg : PvGuard s (tick s)) by (split; [cbn; lia|done]).
  destruct (Hf s Hi (PvInv_tick s Hi) (HX _ _ Hg Hx)) as (H1 & [G1 G2] & H3 & H4). rewrite Hs in H1, G1, G2, H3, H4. cbn [fst snd] in *.
  exists None. split; [|split; [|done]].
  - split; [done|]. split; [split; cbn in *; [lia|done]|]. split; [|done]. intros p _ _. exact (H3 p).
  - intros t t' Ht (Ht' & Hg' & _) [_ Hr]. split; [done|]. by apply (HR a t).
Qed.
Lemma pv_look {A} (f : Previews -> A) X R :
  pv_lasts X -> (forall a, pv_lasts (R a)) -> (forall s, PvInv s -> X s -> R (f s) s) -> pv_goes (look f) X R.
Proof. intros HX HR Hf. apply pv_step; [done|done|]. intros s0 _ s Hi Hx. split; [done|]. split; [by split|]. split; [by left|by apply Hf]. Qed.

(** ** Steps *)

Lemma secret_fresh s : PvInv s -> secret_at E (pv_tick (tick s)) ∉ (pv_opened s).*1.
Proof.
  intros Hi Hin. apply list_elem_of_fmap in Hin as ([t g] & Ht & Hin). destruct (q_opened _ Hi t g Hin) as (n & Hn & Hs).
  cbn in Ht. rewrite <- Ht in Hs. apply Hrandom in Hs. cbn in Hs. lia.
Qed.
Lemma redeemed_opened s t : PvInv s -> t ∈ (pv_redeemed s).*1 -> t ∈ (pv_opened s).*1.
Proof.
  intros Hi Hin. apply list_elem_of_fmap in Hin as ([t' k] & -> & Hin). destruct (q_redeemed _ Hi _ _ Hin) as [g Hg].
  apply list_elem_of_fmap. by exists (t', g).
Qed.
Lemma unexpired_some now m t g : unexpired now m !! t = Some g -> m !! t = Some g.
Proof. intros H. by apply map_lookup_filter_Some in H as [H _]. Qed.
Lemma unexpired_none now m t : m !! t = None -> unexpired now m !! t = None.
Proof. intros H. apply map_lookup_filter_None. by left. Qed.

Lemma goes_grant_ticket g X : pv_lasts X -> pv_goes (grant_ticket E g) X (fun _ => X).
Proof.
  intros HX. apply pv_step; [done|done|]. intros s0 Hi0 s Hi Hx. pose proof (secret_fresh s0 Hi0) as Hfresh. change (pv_tick (tick s0)) with (pv_tick s) in Hfresh.
  change (pv_opened s0) with (pv_opened s) in Hfresh. cbn [fst snd]. set (k := secret_at E (pv_tick s)) in *.
  assert (Hred : k ∉ (pv_redeemed s).*1) by (intros H; by apply Hfresh, redeemed_opened).
  set (s' := mkPreviews _ _ _ _ _ _). assert (Hg : PvGuard s s') by (split; cbn; [done|set_solver]). pose proof Hi as [I1 I2 I3 I4 I5 I6].
  split; [split; cbn|split; [done|split]].
  - intros t g' Ht. destruct (decide (t = k)) as [->|Hne].
    + rewrite lookup_insert_eq in Ht. injection Ht as <-. split; [apply elem_of_app; right; by left|done].
    + rewrite lookup_insert_ne in Ht by done. apply unexpired_some in Ht. destruct (I1 t g' Ht) as [H1 H2]. split; [apply elem_of_app; by left|done].
  - intros t g' [Hin|Hin%list_elem_of_singleton]%elem_of_app; [by apply (I2 t g')|]. injection Hin as -> ->. by exists (pv_tick s).
  - intros t k' Hin. destruct (I3 t k' Hin) as [g' Hg']. exists g'. apply elem_of_app. by left.
  - done.
  - intros k' g' Hk. apply (lasts_opened _ _ s s' Hg). by eapply I5.
  - intros n id port target cookies Hn. destruct (I6 n id port target cookies Hn) as [H1 H2]. split; [|done]. by apply (lasts_opened _ _ s s' Hg).
  - intros n. destruct (decide (taken n s)) as [Hn|Hn]; [left|right; unfold pv_view; by rewrite decide_False].
    apply view_iff. split; [done|]. intros _. destruct Hn as (H1 & H2 & H3). split; [|split; [|done]].
    + cbn. rewrite fmap_app. apply elem_of_app. by left.
    + unfold s'. cbn [pv_tickets]. rewrite lookup_insert_ne; [by apply unexpired_none|]. intros He. apply Hfresh. by rewrite He.
  - apply (HX s); done.
Qed.

(** Whoever takes a ticket away owns it, whether it had expired or not. *)
Lemma ok_take_ticket secret :
  ok (take_ticket E secret) None (fun _ => True) (fun a o s =>
    match a with Some g => exists n, o = Some n /\ secret = secret_at E n /\ taken n s /\ (secret, g) ∈ pv_opened s | None => o = None end).
Proof.
  apply ok_act. intros s a s' Hi _ [= Hs]. cbv beta in Hs. assert (Hi' := PvInv_tick s Hi). destruct (pv_tickets s !! secret) as [g|] eqn:Et.
  - destruct (q_tickets _ Hi' secret g Et) as [Hop Hred]. destruct (q_opened _ Hi' secret g Hop) as (n & Hn & Hsec).
    injection Hs as Ha Hs. set (s1 := mkPreviews _ _ _ _ _ _) in Hs.
    assert (Hinv : PvInv s').
    { rewrite <- Hs. destruct Hi' as [I1 I2 I3 I4 I5 I6]. split; cbn; try done. intros t g' Ht. apply lookup_delete_Some in Ht as [_ Ht]. by apply I1. }
    assert (Htk : taken n s').
    { rewrite <- Hs. unfold taken. rewrite <- Hsec. split; [cbn; apply list_elem_of_fmap; by exists (secret, g)|]. split; [cbn; by rewrite lookup_delete_eq|done]. }
    assert (Hno : pv_view n s = None).
    { unfold pv_view. rewrite decide_False; [done|]. intros (_ & H & _). rewrite <- Hsec in H. congruence. }
    assert (Hview : forall p, Some n <> Some p -> pv_view p s' = pv_view p s \/ pv_view p s = None).
    { intros p Hp. left. rewrite <- Hs. apply view_iff. unfold taken. cbn. rewrite lookup_delete_ne; [done|]. rewrite Hsec. intros He. apply Hp. f_equal. by apply Hrandom. }
    assert (Hgd : PvGuard s s') by (rewrite <- Hs; split; cbn; [lia|done]).
    destruct (pe_now E _ <? pg_Expires g); rewrite <- Ha.
    + exists (Some n). split; [|split].
      * split; [done|]. split; [done|]. split; [intros p _; apply Hview|]. split; [by apply view_taken|by right].
      * intros t t' Ht (_ & Hg & Hv) (n' & [= <-] & H1 & H2 & H3). exists n. split; [done|]. split; [done|].
        split; [|by apply (pvg_opened _ _ Hg)]. apply view_taken. rewrite (Hv n eq_refl). by apply view_taken.
      * exists n. split; [done|]. split; [done|]. split; [done|]. rewrite <- Hs. exact Hop.
    + exists None. split; [|split; [done|done]]. split; [done|]. split; [done|]. split; [|done]. intros p _ _.
      destruct (decide (p = n)) as [->|Hne]; [by right|apply Hview; congruence].
  - injection Hs as <- <-. exists None. split; [|split; [done|done]]. split; [done|]. split; [split; [cbn; lia|done]|]. split; [|done].
    intros p _ _. by left.
Qed.

Lemma ok_grant_session n g id port :
  pg_Workspace g = id -> pg_Port g = port ->
  ok (grant_session E (secret_at E n) g) (Some n) (fun s => taken n s /\ opened_at id port s) (fun _ _ _ => True).
Proof.
  intros Hid Hport. apply ok_act. intros s a s' Hi [Ht Ho] [= Ha Hs]. exists None. assert (Hi' := PvInv_tick s Hi). destruct Ht as (H1 & H2 & H3).
  assert (Hg : PvGuard s s') by (rewrite <- Hs; split; cbn; [lia|done]).
  split; [|split; [done|done]]. split; [|split; [done|split; [|done]]].
  - rewrite <- Hs. destruct Hi' as [I1 I2 I3 I4 I5 I6]. split; cbn; try done.
    + intros t g' Hl. destruct (I1 t g' Hl) as [J1 J2]. split; [done|]. rewrite fmap_app. cbn. intros [Hin|Hin%list_elem_of_singleton]%elem_of_app; [done|].
      subst t. cbn in Hl. congruence.
    + intros t k [Hin|Hin%list_elem_of_singleton]%elem_of_app; [by apply (I3 t k)|]. injection Hin as -> _.
      apply list_elem_of_fmap in H1 as ([t' g'] & -> & Hin). by exists g'.
    + rewrite fmap_app. apply NoDup_app. split; [done|]. split; [|apply NoDup_singleton]. intros t Hin Hin'. cbn in Hin'.
      apply list_elem_of_singleton in Hin' as ->. done.
    + intros k g' Hk. destruct (decide (k = secret_at E (S (pv_tick s)))) as [->|Hne].
      * rewrite lookup_insert_eq in Hk. injection Hk as <-. by rewrite Hid, Hport.
      * rewrite lookup_insert_ne in Hk by done. apply unexpired_some in Hk. by apply (I5 k).
  - intros p Hp _. left. rewrite <- Hs. apply view_iff. unfold taken. cbn. rewrite fmap_app, not_elem_of_app. cbn. rewrite list_elem_of_singleton.
    split; [tauto|]. intros (J1 & J2 & J3). split; [done|]. split; [done|]. split; [done|]. intros He. apply Hrandom in He. congruence.
Qed.

(** ** Requests *)

Lemma preview_cookie_removed l : Forall (fun c => c.1 <> previewCookie) (withoutPreviewCookie l).
Proof using Type.
  apply List.Forall_forall. intros c Hc. apply filter_In in Hc as [_ Hc]. by apply negb_true_iff, String.eqb_neq in Hc.
Qed.

Lemma ok_handleOpenPreview id port base : ok (handleOpenPreview E id port base) None (fun _ => True) (fun _ _ _ => True).
Proof.
  unfold handleOpenPreview. destruct (Atoi port) as [n|]; [|by apply pv_ret].
  apply (pv_bind _ _ _ (fun _ _ => True)); [by apply pv_look|]. intros [[ws sb]|e]; [|by apply pv_ret].
  destruct (negb _); [by apply pv_ret|]. destruct (negb _); [by apply pv_ret|].
  apply (pv_bind _ _ _ (fun _ _ => True)); [by apply pv_look|]. intros t. apply (pv_bind _ _ _ (fun _ _ => True)); [by apply goes_grant_ticket|].
  intros ticket. by apply pv_ret.
Qed.

(** The row and its sandbox, as they were at a step. *)
Definition was (id : string) (w : (WorkspaceRow * WorkspaceSandbox) + GoError) (s : Previews) : Prop :=
  exists m, (m <= pv_tick s)%nat /\ workspace_at E m id = w.
Lemma was_lasts id w : pv_lasts (was id w).
Proof. intros s s' [Ht _] (m & Hm & H). exists m. split; [lia|done]. Qed.

Lemma ok_forward id port target cookies :
  ok (step (fun s => (Forwards id port target (withoutPreviewCookie cookies),
        mkPreviews (pv_tick s) (pv_tickets s) (pv_sessions s) (pv_opened s) (pv_redeemed s)
          (pv_forwarded s ++ [(pv_tick s, Forwards id port target (withoutPreviewCookie cookies))])))) None
    (fun s => opened_at id port s /\ reachable id port (pv_tick s)) (fun _ _ _ => True).
Proof.
  eapply ok_post; [|apply (pv_step _ _ (fun _ _ => True)); [apply lasts_and; [apply lasts_opened|apply lasts_reachable]|done|]]; [done|].
  intros s0 _ s Hi [Ho Hr]. cbn [fst snd]. split; [|split; [by split|split; [by left|done]]].
  destruct Hi as [I1 I2 I3 I4 I5 I6]. split; cbn; try done.
  intros n id' port' target' cookies' [Hn|Hn%list_elem_of_singleton]%elem_of_app; [by apply (I6 n id' port' target' cookies')|].
  injection Hn as -> -> -> -> ->. split; [done|]. split; [done|apply preview_cookie_removed].
Qed.

Lemma opens_some id port g : opens id port g = true -> exists g', g = Some g' /\ pg_Workspace g' = id /\ pg_Port g' = port.
Proof using Type.
  destruct g as [g|]; [|done]. cbn. intros [H1 H2]%andb_true_iff. apply String.eqb_eq in H1. exists g. split; [done|]. split; [done|lia].
Qed.

Lemma ok_servePreview r id port : ok (servePreview E r id port) None (fun _ => True) (fun _ _ _ => True).
Proof.
  unfold servePreview. destruct (String.eqb (pq_Path r) previewPath).
  - eapply ok_bind; [apply ok_take_ticket|]. intros g o. destruct (negb (opens id port g)) eqn:Eo; [by apply ok_ret|].
    apply negb_false_iff, opens_some in Eo as (g' & -> & Hid & Hport). intros (s1 & Hi1 & (n & -> & -> & Ht1 & Hop1)).
    set (X := fun s => taken n s /\ opened_at id port s).
    assert (Hown : forall s, X s -> is_Some (pv_view n s)) by (intros s [Hs _]; by apply view_taken).
    assert (Hst : pstable (Some n) X).
    { intros s s' _ (_ & Hg & Hv) [Hs Ho]. split; [|by apply (lasts_opened _ _ s)]. apply view_taken. rewrite (Hv n eq_refl). by apply view_taken. }
    eapply safe_pre; [|eapply (ok_bind _ _ _ _ _ _ _ X (fun _ o s => o = Some n /\ X s)); [| |exists s1; split; [exact Hi1|]]].
    + intros s _ (n' & [= <-] & _ & Hs & Hop). split; [done|]. by exists (secret_at E n), g'.
    + apply ok_act. intros s a s' Hi Hx [= Ha Hs]. exists (Some n). rewrite <- Hs. split; [|split].
      * split; [by apply PvInv_tick|]. split; [split; [cbn; lia|done]|]. split; [by left|]. split; [by apply Hown|by left].
      * intros t t' Hti Hr [_ Hxt]. split; [done|]. by apply (Hst t).
      * by split.
    + intros now o. apply ok_pure. intros ->. eapply ok_bind; [|intros k o'; by apply ok_ret]. by apply (ok_grant_session n _ id port).
    + split; [done|]. by exists (secret_at E n), g'.
  - destruct (cookie_of r) as [c|]; [|by apply pv_ret].
    apply (pv_bind _ _ _ (fun g s => forall g', g = Some g' -> opened_at (pg_Workspace g') (pg_Port g') s)).
    { apply pv_look; [done| |].
      - intros g s s' Hg H g' Hg'. by apply (lasts_opened _ _ s s' Hg), H.
      - intros s Hi _ g'. destruct (pv_sessions s !! c) as [g0|] eqn:Es; [|done]. destruct (_ <? _); [|done]. intros [= <-]. by apply (q_sessions _ Hi c). }
    intros g. destruct (negb (opens id port g)) eqn:Eo; [by apply pv_ret|]. apply negb_false_iff, opens_some in Eo as (g' & -> & Hid & Hport).
    apply (pv_bind _ _ _ (fun w s => opened_at id port s /\ was id w s)).
    { apply pv_look.
      - intros s s' Hg H g0 Hg0. by apply (lasts_opened _ _ s s' Hg), H.
      - intros w. apply lasts_and; [apply lasts_opened|apply was_lasts].
      - intros s Hi H. split; [rewrite <- Hid, <- Hport; by apply H|]. by exists (pv_tick s). }
    intros [[ws sb]|e]; [|by apply pv_ret]. destruct (sandboxPort sb port) eqn:Ep; cbn [negb]; [|by apply pv_ret].
    destruct (String.eqb_spec (ws_State ws) StateRunning) as [Hrun|]; cbn [negb]; [|by apply pv_ret].
    apply (pv_bind _ _ _ (fun _ s => opened_at id port s /\ was id (inl (ws, sb)) s)).
    { apply pv_look; [apply lasts_and; [apply lasts_opened|apply was_lasts]| |done]. intros _. apply lasts_and; [apply lasts_opened|apply was_lasts]. }
    intros [base|e]; [|by apply pv_ret]. destruct (negb _); [by apply pv_ret|].
    eapply ok_pre; [|apply ok_forward]. intros s _ [Ho (m & Hm & Hw)]. split; [done|]. by exists m, ws, sb.
Qed.
End claims.

(** ** In every interleaving *)

Inductive preview_request : Type :=
| POpen (id port : string) (base : string * string)
| PServe (r : PreviewRequest) (id : string) (port : Z).
Definition preview_thread (E : PreviewEnv) (q : preview_request) : prog Previews unit :=
  match q with
  | POpen id port base => _ ← handleOpenPreview E id port base; mret tt
  | PServe r id port => _ ← servePreview E r id port; mret tt
  end.
Definition previews_after (E : PreviewEnv) (qs : list preview_request) (turns : list nat) : Previews :=
  c_state (schedule turns (mkConfig newPreviews (map (preview_thread E) qs))).

(** C21: However requests interleave, a ticket starts one session at most, and
    what is forwarded to a port of a workspace is forwarded after somebody
    opened a preview of it, and after a moment at which the workspace was running
    and forwarded the port, without the preview's own
    cookie. Random bytes are taken not to come twice. *)
Theorem previews_forward_opened_ports E qs turns :
  (forall n m, secret_at E n = secret_at E m -> n = m) ->
  let s := previews_after E qs turns in
  NoDup (pv_redeemed s).*1 /\
  forall n id port target cookies, (n, Forwards id port target cookies) ∈ pv_forwarded s ->
    (exists ticket g, (ticket, g) ∈ pv_opened s /\ pg_Workspace g = id /\ pg_Port g = port) /\
    (exists m ws sb, (m <= n)%nat /\ workspace_at E m id = inl (ws, sb) /\ sandboxPort sb port = true /\ ws_State ws = StateRunning) /\
    Forall (fun c => c.1 <> previewCookie) cookies.
Proof.
  intros Hr s. assert (Hs : sound (PvInv E) PvGuard (pv_view E) anywhere (map (fun _ _ => True) qs) (schedule turns (mkConfig newPreviews (map (preview_thread E) qs)))).
  { assert (H0 : PvInv E newPreviews).
    { split; cbn; try done; try (intros; by rewrite lookup_empty in * ); try constructor;
        intros; match goal with H : _ ∈ [] |- _ => by apply elem_of_nil in H end. }
    apply schedule_sound, sound_start; [done|]. apply Forall2_fmap_2, Forall_Forall2_diag, Forall_true. intros q.
    assert (Hok : Threads.ok (PvInv E) PvGuard (pv_view E) anywhere (preview_thread E q) None (fun _ => True) (fun _ _ _ => True)).
    { destruct q; cbn [preview_thread]; (eapply ok_bind; [by (apply ok_handleOpenPreview || apply ok_servePreview)|intros a o; by apply ok_ret]). }
    apply Hok. by exists newPreviews. }
  destruct Hs as [Hi _]. fold (previews_after E qs turns) in Hi. fold s in Hi. split; [apply (q_once _ _ Hi)|].
  intros n id port target cookies Hn. exact (q_forwarded _ _ Hi n id port target cookies Hn).
Qed.

(** ** Addresses of previews *)

Fixpoint all_from (f : Z -> bool) (n : nat) (p : Z) : bool := match n with O => true | S n' => f p && all_from f n' (p + 1) end.
Lemma all_from_spec f n p q : all_from f n p = true -> p <= q < p + Z.of_nat n -> f q = true.
Proof.
  revert p. induction n as [|n IH]; intros p H Hq; [lia|]. cbn in H. apply andb_true_iff in H as [H1 H2].
  destruct (decide (q = p)) as [->|]; [done|]. apply (IH (p + 1)); [done|lia].
Qed.
Lemma port_reads_back port : 1 <= port <= 65535 -> Atoi (itoa port) = Some port /\ str_len (itoa port) <= 5.
Proof.
  intros Hp. assert (H : all_from (fun p => bool_decide (Atoi (itoa p) = Some p) && (str_len (itoa p) <=? 5)) (Z.to_nat 65535) 1 = true) by by vm_compute.
  apply (all_from_spec _ _ _ port) in H; [|lia]. apply andb_true_iff in H as [H1 H2]. apply bool_decide_eq_true in H1. split; [done|lia].
Qed.

Lemma lower_plain s : Forall (fun b => b < 65 \/ 90 < b) (bytes_of s) -> map lower_byte (bytes_of s) = bytes_of s.
Proof.
  induction 1 as [|b l Hb Hl IH]; [done|]. cbn. rewrite IH. f_equal. unfold lower_byte. destruct (_ && _) eqn:E; [lia|done].
Qed.
Lemma bytes_check (f : Z -> bool) s : forallb f (bytes_of s) = true -> Forall (fun b => f b = true) (bytes_of s).
Proof. intros H. apply List.Forall_forall. by apply forallb_forall. Qed.

(** The address that opens a preview names it: of a request to its host,
    whatever the harness's own host, the server reads the workspace and the port
    back. *)
Theorem previewHost_reads_back lower_rune port id host :
  1 <= port <= 65535 -> forallb base32 (bytes_of id) = true -> str_len id = 20 -> Forall (fun b => b < 128) (bytes_of host) ->
  previewHost lower_rune (itoa port +:+ "-" +:+ id +:+ "." +:+ host) = Some (id, port).
Proof.
  intros Hp Hid Hl Hh. destruct (port_reads_back port Hp) as [Hat Hlen]. pose proof (itoa_digits port ltac:(lia)) as Hd.
  pose proof (bytes_check _ _ Hid) as Hb. unfold base32 in Hb.
  assert (Hdot : byte_of dot_byte = 46) by done. assert (Hhy : byte_of hyphen = 45) by done.
  set (label := itoa port +:+ "-" +:+ id). assert (Hlabel : Forall (fun b => b < 128 /\ b <> 46 /\ (b < 65 \/ 90 < b)) (bytes_of label)).
  { unfold label. rewrite !bytes_of_app. change (bytes_of "-") with [45]. apply Forall_app. split; [|apply Forall_cons; split; [lia|]].
    - eapply Forall_impl; [exact Hd|]. cbn. lia.
    - eapply Forall_impl; [exact Hb|]. cbn. lia. }
  replace (itoa port +:+ "-" +:+ id +:+ "." +:+ host) with (label +:+ String dot_byte host) by (unfold label; by rewrite <- !str_app_assoc).
  unfold previewHost. replace (to_lower lower_rune (label +:+ String dot_byte host)) with (label +:+ String dot_byte (of_bytes (map lower_byte (bytes_of host)))).
  - rewrite split_app, split_one by (eapply Forall_impl; [exact Hlabel|]; cbv beta; intros b Hx; rewrite Hdot; lia). cbn [app].
    destruct (split (of_bytes _) dot_byte) as [|x l] eqn:Es; [by apply split_ne in Es|].
    assert (Hpat : previewHostPattern label = Some (itoa port, id)).
    { unfold previewHostPattern, label. change ("-" +:+ id) with (String hyphen id). rewrite split_app, !split_one; cbn [app].
      - rewrite Hid, Hl. replace (forallb decimal (bytes_of (itoa port))) with true.
        + replace (String.eqb (itoa port) EmptyString) with false; [cbn [negb andb]; by rewrite (proj2 (Z.leb_le _ _) Hlen)|].
          symmetry. apply String.eqb_neq. intros He. rewrite He in Hat. by vm_compute in Hat.
        + symmetry. apply forallb_forall. intros b Hin. rewrite List.Forall_forall in Hd. specialize (Hd b Hin). unfold decimal. lia.
      - eapply Forall_impl; [exact Hb|]. cbv beta. intros b Hx. rewrite Hhy. lia.
      - eapply Forall_impl; [exact Hd|]. cbv beta. intros b Hx. rewrite Hhy. lia. }
    rewrite Hpat. cbn. rewrite Hat. cbn. rewrite (proj2 (Z.ltb_ge _ _)) by lia. rewrite (proj2 (Z.ltb_ge _ _)) by lia. done.
  - unfold to_lower. rewrite (proj2 (forallb_forall _ _)).
    + apply bytes_of_inj. rewrite bytes_of_bytes.
      * rewrite bytes_of_app. change (String dot_byte ?h) with ("." +:+ h). rewrite !bytes_of_app, map_app, map_app. change (bytes_of ".") with [46].
        rewrite bytes_of_bytes.
        -- rewrite (lower_plain label); [done|]. eapply Forall_impl; [exact Hlabel|]. cbn. lia.
        -- apply Forall_fmap. eapply Forall_impl; [apply bytes_of_range|]. cbn. intros b Hr. unfold lower_byte. destruct (_ && _) eqn:E; lia.
      * apply Forall_fmap. eapply Forall_impl; [apply bytes_of_range|]. cbn. intros b Hr. unfold lower_byte. destruct (_ && _) eqn:E; lia.
    + rewrite bytes_of_app. intros b Hin. apply in_app_or in Hin as [Hin|[<-|Hin]].
      * rewrite List.Forall_forall in Hlabel. specialize (Hlabel b Hin). lia.
      * done.
      * rewrite List.Forall_forall in Hh. specialize (Hh b Hin). lia.
Qed.
Lemma previewHost_reads_back_witness :
  previewHost id (itoa 5173 +:+ "-" +:+ "abcdefghijklmnopqrst" +:+ "." +:+ "localhost:8080") = Some ("abcdefghijklmnopqrst"%string, 5173).
Proof.
  apply (previewHost_reads_back id 5173 "abcdefghijklmnopqrst" "localhost:8080"); [lia|by vm_compute|by vm_compute|].
  apply (Forall_impl (fun b => (b <? 128) = true)); [by apply bytes_check|intros b Hb; lia].
Defined.

Definition ex_row : WorkspaceRow := mkWorkspaceRow "ws" "" "" "" "" "" StateRunning "container" "" ""
  (JObject [("ports"%string, JArray [JObject [("port"%string, JInt 3000)]])]) false false 0.
Definition ex_previews : PreviewEnv := mkPreviewEnv Z.of_nat (fun t => bytes_of (itoa (Z.of_nat t))) (fun _ _ => inl ex_row)
  (fun _ _ _ => inl "http://10.0.0.2:3000"%string) (fun _ => true).
Definition ex_requests : list preview_request :=
  [POpen "ws" "3000" ("http"%string, "localhost"%string);
   PServe (mkPreviewRequest previewPath (secret_at ex_previews 3) []) "ws" 3000;
   PServe (mkPreviewRequest "/" EmptyString [(previewCookie, secret_at ex_previews 6); ("theme"%string, "dark"%string)]) "ws" 3000].

Lemma previews_forward_opened_ports_witness :
  let s := previews_after ex_previews ex_requests [0; 0; 0; 1; 1; 1; 2; 2; 2; 2]%nat in
  (exists n id port target cookies, (n, Forwards id port target cookies) ∈ pv_forwarded s) /\
  NoDup (pv_redeemed s).*1.
Proof.
  split.
  - exists 10%nat, "ws"%string, 3000, "http://10.0.0.2:3000"%string, [("theme"%string, "dark"%string)]. apply list_elem_of_In. vm_compute. by left.
  - apply (previews_forward_opened_ports ex_previews ex_requests [0; 0; 0; 1; 1; 1; 2; 2; 2; 2]%nat). intros n m He.
    apply hex_string_inj in He; [|apply bytes_of_range|apply bytes_of_range]. apply bytes_of_inj in He. apply (inj (pretty (A := Z))) in He. lia.
Defined.

(** ** Which requests need a token *)

(** Two routes that one request could take. *)
Fixpoint clash_path (p q : list string) : bool :=
  match p, q with
  | [], [] => true
  | a :: p', b :: q' => (wild a || wild b || String.eqb a b) && clash_path p' q'
  | _, _ => false
  end.
Definition clash_method (a b : string) : bool := takes_method a b || takes_method b a.
Definition clash (r r' : route) : bool := clash_method r.1.1 r'.1.1 && clash_path (split r.1.2 slash) (split r'.1.2 slash).
Fixpoint unambiguous (rs : list route) : bool :=
  match rs with [] => true | r :: rs' => forallb (fun r' => negb (clash r r')) rs' && unambiguous rs' end.

Lemma clash_takes r r' method path : takes r method path = true -> takes r' method path = true -> clash r r' = true.
Proof.
  unfold takes, clash. intros [H1 H2]%andb_true_iff [H3 H4]%andb_true_iff. apply andb_true_iff. split.
  - unfold clash_method, takes_method in *. destruct (String.eqb_spec r.1.1 method) as [->|], (String.eqb_spec r'.1.1 method) as [->|]; cbn [orb] in *.
    + by rewrite String.eqb_refl.
    + by rewrite H3, !orb_true_r.
    + by rewrite H1, !orb_true_r.
    + apply andb_true_iff in H1 as [H1 _]. apply andb_true_iff in H3 as [H3 _]. apply String.eqb_eq in H1, H3. rewrite H1, H3. done.
  - revert path H2 H4. generalize (split r'.1.2 slash). induction (split r.1.2 slash) as [|a p IH]; intros [|b q] [|s path] H2 H4; try done.
    cbn in *. apply andb_true_iff in H2 as [H2 H2'], H4 as [H4 H4']. apply andb_true_iff. split; [|by apply (IH q path)].
    destruct (wild a); [done|]. destruct (wild b); [done|]. cbn. apply String.eqb_eq in H2, H4. subst. apply String.eqb_refl.
Qed.
Lemma unambiguous_one rs method path : unambiguous rs = true -> (length (List.filter (fun r => takes r method path) rs) <= 1)%nat.
Proof.
  induction rs as [|r rs IH]; intros H; [cbn; lia|]. cbn in H. apply andb_true_iff in H as [H1 H2]. cbn. specialize (IH H2).
  destruct (takes r method path) eqn:Et; [|done]. cbn. assert (Hn : List.filter (fun r => takes r method path) rs = []); [|by rewrite Hn].
  destruct (List.filter _ rs) as [|r' l] eqn:Ef; [done|exfalso]. assert (Hin : In r' (List.filter (fun r => takes r method path) rs)) by (rewrite Ef; by left).
  apply filter_In in Hin as [Hin Ht]. rewrite forallb_forall in H1. specialize (H1 r' Hin). by rewrite (clash_takes _ _ _ _ Et Ht) in H1.
Qed.
Lemma literal_path p path : forallb (fun s => negb (wild s)) p = true -> takes_path p path = true -> p = path.
Proof.
  revert path. induction p as [|a p IH]; intros [|s path] Hw Ht; try done. cbn in Hw, Ht. apply andb_true_iff in Hw as [H1 H2], Ht as [H3 H4].
  destruct (wild a); [done|]. apply String.eqb_eq in H3 as ->. f_equal. by apply IH.
Qed.
Lemma public_path d method path h :
  lookup_route (public_routes d) method path = Some h -> exists m, (m, path, h) ∈ public_routes d.
Proof.
  unfold lookup_route. destruct (List.filter _ _) as [|r l] eqn:Ef; [done|]. intros [= <-].
  assert (Hin : In r (List.filter (fun r => takes r method (split path slash)) (public_routes d))) by (rewrite Ef; by left).
  apply filter_In in Hin as [Hin Ht]. apply andb_true_iff in Ht as [_ Ht]. apply literal_path in Ht.
  - destruct r as [[m p] h']. exists m. change (split p slash = split path slash) in Ht. change ((m, path, h') ∈ public_routes d).
    apply (f_equal (fun l => join l (String slash EmptyString))) in Ht. cbv beta in Ht. rewrite !join_split in Ht. rewrite <- Ht.
    by apply list_elem_of_In.
  - assert (Hall : forallb (fun r => forallb (fun s => negb (wild s)) (split r.1.2 slash)) (public_routes d) = true)
      by (destruct d as [[] [] [] [] [] []]; by vm_compute).
    rewrite forallb_forall in Hall. by apply Hall.
Qed.

(** What is served under /api/ to who presents no token. *)
Definition tokenless : list (string * string) :=
  [("/api/healthz", "handleHealth"); ("/api/auth/status", "handleAuthStatus"); ("/api/auth/setup", "handleSetup"); ("/api/auth/login", "handleLogin")]%string.

(** Of the requests under /api/, at most one route is meant, and all but
    the health check, the status of setup, setup, and sign-in are behind the
    check of the token, but for those to the host of a preview, which go to no
    route of the API. *)
Theorem api_needs_token lower_rune d host method path :
  has_prefix path "/api/" = true ->
  (length (List.filter (fun r => takes r method (split path slash)) (api_routes d)) <= 1)%nat /\
  match Handler lower_rune d host method path with
  | ToProtected h => h = lookup_route (api_routes d) method path
  | ToPublic h => (path, h) ∈ tokenless
  | ToPreview id port => previewHost lower_rune host = Some (id, port)
  | _ => False
  end.
Proof.
  intros Hp. split; [apply unambiguous_one; destruct d as [[] [] [] [] [] []]; by vm_compute|].
  assert (Hmux : match mux d method path with ToProtected h => h = lookup_route (api_routes d) method path | ToPublic h => (path, h) ∈ tokenless | _ => False end).
  { unfold mux. destruct (lookup_route (public_routes d) method path) as [h|] eqn:El; [|by rewrite Hp].
    apply public_path in El as [m Hin]. assert (Hall : forall r, In r (public_routes d) -> has_prefix r.1.2 "/api/" = true -> In (r.1.2, r.2) tokenless).
    { intros r Hr Hpre. destruct d as [[] ? ? [] ? ?]; cbn in Hr; repeat destruct Hr as [<-|Hr]; try done; cbn; tauto. }
    apply list_elem_of_In, (Hall (m, path, h)); [by apply list_elem_of_In|done]. }
  unfold Handler. destruct (previewHost lower_rune host) as [[id port]|]; [destruct (_ && _); [done|]|]; destruct (mux d method path); done.
Qed.
Lemma api_needs_token_witness :
  has_prefix "/api/projects" "/api/" = true /\
  match Handler id (mkDeps true true true true true true) "localhost" "GET" "/api/projects" with ToProtected h => h = Some "handleListProjects"%string | _ => False end.
Proof.
  split; [done|]. destruct (api_needs_token id (mkDeps true true true true true true) "localhost" "GET" "/api/projects" eq_refl) as [_ H].
  by vm_compute.
Defined.
