(* ===== verification/Builtin.v ===== *)
(** Commands (internal/tool/builtin args.go, limits.go, bash.go;
    internal/executor/sandbox Exec and readFrames; internal/eikad exec.go): how
    the bash tool runs a command in a sandbox, how the daemon streams what it
    writes, what of that the tool shows the model, and how long a command may
    take. *)
From S2P Require Import Prelude GoStr Json Provider Failure Tables Threads Search SearchEngine Subagent GoPath Files Tool.
From stdpp Require Import options.
Open Scope Z_scope.

(** ** Arguments *)

(** What the arguments of a call say of a field, and why they do not decode:
    the text is the decoder's. *)
(* @src internal/tool/builtin/args.go 9-21 decodeArgs *)
Definition decodeArgs {T} (json_error : string -> string) (zero : T) (dec : list (string * string) -> option T) (raw : string) : T + string :=
  let trimmed := trim_space raw in
  if String.eqb trimmed EmptyString || String.eqb trimmed null then inl zero
  else match members_of trimmed with
       | Some l => match dec l with Some v => inl v | None => inr ("decode arguments: " +:+ json_error trimmed) end
       | None => inr ("decode arguments: " +:+ json_error trimmed)
       end.

(* @src internal/tool/builtin/bash.go 17-21 bashArgs *)
Record bashArgs := mkBashArgs { ba_Command : string; ba_Timeout : Z }.
Definition dec_bashArgs (l : list (string * string)) : option bashArgs :=
  command ← field_of unquote EmptyString "command" l;
  timeout ← field_of dec_integer 0 "timeout" l;
  Some (mkBashArgs command timeout).

(** ** What a command writes *)

(* @src internal/tool/builtin/limits.go 11-24 maxOutputBytes *)
Definition maxOutputBytes : Z := 32 * 1024.
Definition outputHeadBytes : Z := 20 * 1024.
Definition outputTailBytes : Z := maxOutputBytes - outputHeadBytes.
Definition second : Z := 10 ^ 9.
Definition defaultBashTimeout : Z := 120 * second.
Definition maxBashTimeout : Z := 600 * second.

Definition len (l : list Z) : Z := Z.of_nat (length l).
Definition cut (n : Z) (l : list Z) : list Z := take (Z.to_nat n) l.
Definition skip (n : Z) (l : list Z) : list Z := drop (Z.to_nat n) l.

(** The chunks are what the stream callback was called with. *)
(* @src internal/tool/builtin/limits.go 26-38 output *)
Record output := mkOutput {
  o_head : list Z; o_tail : list Z; o_total : Z; o_streamed : Z; o_chunks : list (list Z);
}.
Definition newOutput : output := mkOutput [] [] 0 0 [].

Definition continues : list Z := bytes_of (nl +:+ "... output continues; the rest arrives with the result." +:+ nl).

(* @src internal/tool/builtin/limits.go 59-76 output.forward *)
Definition forward (p : list Z) (o : output) : output :=
  if maxOutputBytes <? o_streamed o then o else
  let room := maxOutputBytes - o_streamed o in
  if len p <=? room then mkOutput (o_head o) (o_tail o) (o_total o) (o_streamed o + len p) (o_chunks o ++ [p])
  else mkOutput (o_head o) (o_tail o) (o_total o) (maxOutputBytes + 1)
         (o_chunks o ++ (if 0 <? room then [cut room p] else []) ++ [continues]).

(* @src internal/tool/builtin/limits.go 40-57 output.Write *)
Definition Write (p : list Z) (o : output) : output :=
  let o := mkOutput (o_head o) (o_tail o) (o_total o + len p) (o_streamed o) (o_chunks o) in
  let o := forward p o in
  let room := outputHeadBytes - len (o_head o) in
  let '(head, p) := if 0 <? room then (o_head o ++ cut (Z.min room (len p)) p, skip (Z.min room (len p)) p) else (o_head o, p) in
  let tail :=
    if 0 <? len p then
      let t := o_tail o ++ p in
      if outputTailBytes <? len t then skip (len t - outputTailBytes) t else t
    else o_tail o in
  mkOutput head tail (o_total o) (o_streamed o) (o_chunks o).

Definition dropped_note (dropped first last : Z) : string :=
  nl2 +:+ "... [" +:+ itoa dropped +:+ " bytes truncated, showing the first " +:+ itoa first +:+ " and the last " +:+ itoa last +:+ "] ..." +:+ nl2.

(* @src internal/tool/builtin/limits.go 78-90 output.String *)
Definition output_String (o : output) : string :=
  let dropped := o_total o - len (o_head o) - len (o_tail o) in
  if (len (o_tail o) =? 0) || (dropped <=? 0) then of_bytes (o_head o ++ o_tail o)
  else of_bytes (o_head o) +:+ dropped_note dropped (len (o_head o)) (len (o_tail o)) +:+ of_bytes (o_tail o).

(** ** Running a command *)

(** The two streams of a command. *)
Inductive Fd : Type := Stdout | Stderr.
#[export] Instance Fd_eq_dec : EqDecision Fd.
Proof. solve_decision. Defined.
Definition fd_name (fd : Fd) : string := match fd with Stdout => "stdout" | Stderr => "stderr" end.

(* @src internal/executor/executor.go 32-44 ExecSpec *)
Record ExecSpec := mkExecSpec {
  es_Command : string; es_Args : list string; es_Shell : bool; es_Dir : string; es_Env : list string;
  es_Timeout : Z; es_Stdin : option string;
}.
(* @src internal/executor/executor.go 46-51 ExecResult *)
Record ExecResult := mkExecResult { er_ExitCode : Z; er_TimedOut : bool }.
(** What an executor writes to the two writers of a spec, in order, and how
    the command ended. *)
Definition Executor : Type := ExecSpec -> list (Fd * list Z) * (ExecResult + GoError).

(** [time.Duration.String]: less than a second has a unit of its own. *)
Fixpoint frac_digits (prec : nat) (v : Z) (some : bool) : list Z * Z * bool :=
  match prec with
  | O => ([], v, some)
  | S prec' =>
      let some' := some || negb (v mod 10 =? 0) in
      let '(l, v', s) := frac_digits prec' (v / 10) some' in
      ((if some' then l ++ [48 + v mod 10] else l), v', s)
  end.
Definition frac_text (prec : nat) (v : Z) : string * Z :=
  let '(l, v', some) := frac_digits prec v false in
  ((if some : bool then chr 46 +:+ of_bytes l else EmptyString), v').
Definition duration_text (d : Z) : string :=
  let u := Z.abs d in
  let sign := if d <? 0 then "-" else EmptyString in
  let scaled prec (unit : string) := let '(f, v) := frac_text prec u in itoa v +:+ f +:+ unit in
  sign +:+
  (if u =? 0 then "0s"
   else if u <? 10 ^ 3 then scaled O "ns"
   else if u <? 10 ^ 6 then scaled 3%nat (of_bytes [194; 181; 115])
   else if u <? 10 ^ 9 then scaled 6%nat "ms"
   else
     let '(f, v) := frac_text 9 u in
     let secs := itoa (v mod 60) +:+ f +:+ "s" in
     let mins := v / 60 in
     if mins =? 0 then secs
     else if mins / 60 =? 0 then itoa (mins mod 60) +:+ "m" +:+ secs
     else itoa (mins / 60) +:+ "h" +:+ itoa (mins mod 60) +:+ "m" +:+ secs).

(** The duration is a machine word, and so is the product. *)
Definition bash_timeout (timeout : Z) : Z :=
  if 0 <? timeout then Z.min (wrap64 (timeout * second)) maxBashTimeout else defaultBashTimeout.

Definition bash_spec (args : bashArgs) : ExecSpec :=
  mkExecSpec (ba_Command args) [] true EmptyString [] (bash_timeout (ba_Timeout args)) None.

(** What the tool says of a command that ran. *)
Definition bash_shows (timeout : Z) (shown : string) (res : ExecResult) : Result :=
  let ending :=
    if er_TimedOut res then nl2 +:+ "command timed out after " +:+ duration_text timeout +:+ " and was killed"
    else if negb (er_ExitCode res =? 0) then nl2 +:+ "exit code " +:+ itoa (er_ExitCode res)
    else EmptyString in
  let details := obj [member "exit_code" (itoa (er_ExitCode res)); member "timed_out" (json_bool (er_TimedOut res))] in
  let content := trim_space (shown +:+ ending) in
  mkResult (if nonempty content then content else "(no output)") (er_TimedOut res || negb (er_ExitCode res =? 0)) details.

Definition capture (ws : list (Fd * list Z)) : output := foldl (fun o w => Write w.2 o) newOutput ws.

(** The result, and the chunks streamed while the command ran. Both writers
    are the same one. *)
(* @src internal/tool/builtin/bash.go 53-99 bashTool.Call *)
Definition bash_Call (json_error : string -> string) (exec : Executor) (raw : string) : Result * list (list Z) :=
  match decodeArgs json_error (mkBashArgs EmptyString 0) dec_bashArgs raw with
  | inr e => (Errorf e, [])
  | inl args =>
      if String.eqb (trim_space (ba_Command args)) EmptyString then (Errorf "bash: command is required", []) else
      let '(writes, r) := exec (bash_spec args) in
      let out := capture writes in
      (match r with
       | inr e => Errorf ("bash: " +:+ error_text e)
       | inl res => bash_shows (bash_timeout (ba_Timeout args)) (output_String out) res
       end, o_chunks out)
  end.

(** ** In a sandbox *)

(* @src internal/eikad/api.go 9-29 ExecRequest *)
Record ExecRequest := mkExecRequest {
  xr_Command : string; xr_Args : list string; xr_Shell : bool; xr_Dir : string; xr_Env : list string;
  xr_TimeoutMS : Z; xr_Stdin : string;
}.
(* @src internal/eikad/api.go 31-48 ExecFrame *)
Record ExecFrame := mkExecFrame {
  fr_Stream : string; fr_Data : list Z; fr_ExitCode : option Z; fr_TimedOut : bool; fr_Truncated : bool; fr_Error : string;
}.
Definition error_frame (e : string) : ExecFrame := mkExecFrame EmptyString [] None false false e.
Definition output_frame (fd : Fd) (data : list Z) : ExecFrame := mkExecFrame (fd_name fd) data None false false EmptyString.

(* @src internal/eikad/exec.go 23-31 maxExecOutput *)
Definition maxExecOutput : Z := 2 ^ 23.

(** The encoder fails for ever once it failed; [fs_tries] counts what it was
    given. *)
(* @src internal/eikad/exec.go 111-120 frameStream *)
Record frameStream := mkFrameStream {
  fs_written : Z; fs_cut : bool; fs_sent : list ExecFrame; fs_broken : bool; fs_tries : nat;
}.
Definition newFrameStream : frameStream := mkFrameStream 0 false [] false O.

(** What [cmd.Wait] returns. *)
Inductive wait_end : Type := WaitOk | WaitExit (code : Z) | WaitOther (e : string).

(** A process: whether it starts, the pieces it writes to each stream, how it
    ends, and whether its deadline or the client's request ended first. *)
Record Process := mkProcess {
  pr_start : option string; pr_writes : Fd -> list (list Z); pr_end : wait_end; pr_expired : bool; pr_gone : bool;
}.

(** The two goroutines that copy what the process writes: what each has left,
    and the frame it was about to send. *)
Record Copying := mkCopying { cp_frames : frameStream; cp_left : Fd -> list (list Z); cp_flight : Fd -> option ExecFrame }.

Definition set_fd {T} (fd : Fd) (v : T) (f : Fd -> T) : Fd -> T := fun x => if decide (x = fd) then v else f x.

(** What the daemon is asked over HTTP and answers. *)
Inductive answer : Type :=
| Refused (status : Z) (e : string)
| Streamed (frames : list ExecFrame)
| Unfinished.

(* @src internal/eikad/environment.go 51-61 sanitizedEnv *)
Definition sanitizedEnv (os_environ : list string) : list string := List.filter (fun kv => negb (has_prefix kv "EIKAD_TOKEN=")) os_environ.
(* @src internal/eikad/environment.go 43-49 Daemon.environ *)
Definition environ (os_environ added : list string) : list string := sanitizedEnv os_environ ++ added.

(** [context.WithTimeout] where there is one. *)
Definition deadline (timeout : Z) : option Z := if 0 <? timeout then Some timeout else None.
Definition milliseconds (d : Z) : Z := Z.quot d (10 ^ 6).
Definition process_deadline (ms : Z) : option Z := option_map (fun ms => wrap64 (ms * 10 ^ 6)) (deadline ms).

Section sandbox.
(** The response takes its first frames or not; the daemon's files, root, and
    environment; the processes of the system. *)
Context (taken : nat -> bool) (files : FS) (root : string) (os_environ added : list string) (file_text : FileError -> string).
Context (spawn : string -> list string -> string -> list string -> string -> option Z -> Process).

(* @src internal/eikad/exec.go 128-137 frameStream.send *)
Definition send (f : ExecFrame) (s : frameStream) : frameStream :=
  if fs_broken s || negb (taken (fs_tries s)) then mkFrameStream (fs_written s) (fs_cut s) (fs_sent s) true (S (fs_tries s))
  else mkFrameStream (fs_written s) (fs_cut s) (fs_sent s ++ [f]) false (S (fs_tries s)).

(** The part of it under the lock: the frame to send, if there is one. *)
(* @src internal/eikad/exec.go 139-155 frameStream.sendOutput *)
Definition count_output (fd : Fd) (data : list Z) (s : frameStream) : option ExecFrame * frameStream :=
  if maxExecOutput <=? fs_written s then (None, mkFrameStream (fs_written s) true (fs_sent s) (fs_broken s) (fs_tries s))
  else
    let room := maxExecOutput - fs_written s in
    let '(data, cut_) := if room <? len data then (cut room data, true) else (data, fs_cut s) in
    (Some (output_frame fd data), mkFrameStream (fs_written s + len data) cut_ (fs_sent s) (fs_broken s) (fs_tries s)).

(** A goroutine's next step: it sends what it counted, or counts the next
    piece. *)
(* @src internal/eikad/exec.go 175-179 streamWriter.Write *)
Definition copy_step (fd : Fd) (s : Copying) : option Copying :=
  match cp_flight s fd with
  | Some f => Some (mkCopying (send f (cp_frames s)) (cp_left s) (set_fd fd None (cp_flight s)))
  | None =>
      match cp_left s fd with
      | [] => None
      | data :: rest =>
          let '(f, fs) := count_output fd data (cp_frames s) in
          Some (mkCopying fs (set_fd fd rest (cp_left s)) (set_fd fd f (cp_flight s)))
      end
  end.
Fixpoint copy (moves : list Fd) (s : Copying) : Copying :=
  match moves with [] => s | fd :: moves' => copy moves' (default s (copy_step fd s)) end.
Definition copied (s : Copying) : bool :=
  forallb (fun fd => bool_decide (cp_left s fd = []) && negb (bool_decide (is_Some (cp_flight s fd)))) [Stdout; Stderr].

(** [moves] says whose turn it is. A process that does not start has no
    goroutines, and [Wait] comes back when both are done. *)
(* @src internal/eikad/exec.go 41-109 Daemon.handleExec *)
Definition handleExec (moves : list Fd) (req : ExecRequest) : answer :=
  if String.eqb (trim_space (xr_Command req)) EmptyString then Refused 400 "exec request has no command" else
  match resolve files root (xr_Dir req) with
  | inr e => Refused (statusFor e) (file_text e)
  | inl dir =>
      let due := process_deadline (xr_TimeoutMS req) in
      let '(name, args) := if xr_Shell req then ("sh"%string, ["-c"%string; xr_Command req]) else (xr_Command req, xr_Args req) in
      let p := spawn name args dir (environ os_environ added ++ xr_Env req) (xr_Stdin req) due in
      match pr_start p with
      | Some e => Streamed (fs_sent (send (error_frame ("start " +:+ name +:+ ": " +:+ e)) newFrameStream))
      | None =>
          let s := copy moves (mkCopying newFrameStream (pr_writes p) (fun _ => None)) in
          if negb (copied s) then Unfinished else
          let fs := cp_frames s in
          let timedOut := (0 <? xr_TimeoutMS req) && pr_expired p && negb (pr_gone p) in
          let exited code := fs_sent (send (mkExecFrame EmptyString [] (Some code) timedOut (fs_cut fs) EmptyString) fs) in
          Streamed match pr_end p with
                   | WaitOk => exited 0
                   | WaitExit code => exited code
                   | WaitOther e => fs_sent (send (error_frame ("run " +:+ name +:+ ": " +:+ e)) fs)
                   end
      end
  end.

(* @src internal/executor/sandbox/sandbox.go 30-32 truncationNotice *)
Definition truncationNotice : list Z := bytes_of (nl +:+ "[eika: output truncated]" +:+ nl).

(** The frames that come before the response ends, or breaks with an error. *)
(* @src internal/executor/sandbox/sandbox.go 165-196 readFrames *)
Fixpoint readFrames (broken : option string) (frames : list ExecFrame) : list (Fd * list Z) * (ExecResult + GoError) :=
  match frames with
  | [] => ([], inr match broken with None => ErrText "exec stream ended without a result" | Some e => ErrWrap "decode exec frame" (ErrText e) end)
  | f :: frames' =>
      if nonempty (fr_Error f) then ([], inr (ErrText ("exec: " +:+ fr_Error f)))
      else match fr_ExitCode f with
           | Some code => (if fr_Truncated f then [(Stderr, truncationNotice)] else [], inl (mkExecResult code (fr_TimedOut f)))
           | None =>
               let '(ws, r) := readFrames broken frames' in
               if String.eqb (fr_Stream f) "stdout" then ((Stdout, fr_Data f) :: ws, r)
               else if String.eqb (fr_Stream f) "stderr" then ((Stderr, fr_Data f) :: ws, r)
               else (ws, r)
           end
  end.

(** [croot] and [cdir] are the client's root and the directory it is narrowed
    to. *)
Context (croot cdir : string).
(* @src internal/executor/sandbox/sandbox.go 103-115 Client.daemonPath *)
Definition daemonPath (path : string) : string + GoError :=
  if String.eqb cdir EmptyString then inl path else
  match Resolve (Join [croot; cdir]) path with
  | inr e => inr e
  | inl abs => ExecutorRel croot abs
  end.

(* @src internal/executor/sandbox/sandbox.go 369-390 responseError *)
Definition responseError (method path : string) (status : Z) (msg : string) : GoError :=
  let text := method +:+ " " +:+ path +:+ ": " +:+ msg in
  if status =? 404 then ErrWrap text (ErrSentinel "file does not exist")
  else if status =? 403 then ErrWrap text (ErrSentinel "permission denied")
  else ErrText text.

(** The requests of this model reach the daemon; what breaks is a response. *)
(* @src internal/executor/sandbox/sandbox.go 130-163 Client.Exec *)
Definition sandbox_Exec (moves : list Fd) (broken : option string) (spec : ExecSpec) : option (list (Fd * list Z) * (ExecResult + GoError)) :=
  match daemonPath (es_Dir spec) with
  | inr e => Some ([], inr e)
  | inl dir =>
      match handleExec moves (mkExecRequest (es_Command spec) (es_Args spec) (es_Shell spec) dir (es_Env spec)
                                (milliseconds (es_Timeout spec)) (default EmptyString (es_Stdin spec))) with
      | Refused status e => Some ([], inr (responseError "POST" "/exec" status e))
      | Streamed frames => Some (readFrames broken frames)
      | Unfinished => None
      end
  end.
End sandbox.

(** ** On this machine *)

(** A process of the local executor: what it writes to the two streams, in
    order when they are one writer. *)
Record LocalProcess := mkLocalProcess { lp_writes : list (Fd * list Z); lp_end : wait_end; lp_expired : bool }.

(* @src internal/executor/local/local.go 53-109 Executor.Exec *)
Definition local_Exec (files : FS) (root : string) (os_environ : list string)
    (run : string -> list string -> string -> list string -> string -> option Z -> LocalProcess) (spec : ExecSpec)
    : list (Fd * list Z) * (ExecResult + GoError) :=
  let go dir :=
    let '(name, args) := if es_Shell spec then ("sh"%string, ["-c"%string; es_Command spec]) else (es_Command spec, es_Args spec) in
    let p := run name args dir (os_environ ++ es_Env spec) (default EmptyString (es_Stdin spec)) (deadline (es_Timeout spec)) in
    let timedOut := (0 <? es_Timeout spec) && lp_expired p in
    (lp_writes p,
     match lp_end p with
     | WaitOk => inl (mkExecResult 0 timedOut)
     | WaitExit code => inl (mkExecResult code timedOut)
     | WaitOther e => if timedOut then inl (mkExecResult (-1) timedOut) else inr (ErrWrap ("run " +:+ es_Command spec) (ErrText e))
     end) in
  if String.eqb (es_Dir spec) EmptyString then go root
  else match local_resolve files root (es_Dir spec) with
       | inr e => ([], inr (ErrWrap "exec" e))
       | inl dir => go dir
       end.

(** ** Tools that call others *)

Definition dec_boolean (s : string) : option bool := if String.eqb s "true" then Some true else if String.eqb s "false" then Some false else None.

(* @src internal/tool/builtin/agents.go 101-110 spawnAgentArgs *)
Record spawnAgentArgs := mkSpawnArgs { sp_Name : string; sp_Task : string; sp_BranchSuffix : string; sp_Model : string; sp_Wait : option bool }.
Definition dec_spawnAgentArgs (l : list (string * string)) : option spawnAgentArgs :=
  name ← field_of unquote EmptyString "name" l; task ← field_of unquote EmptyString "task" l;
  suffix ← field_of unquote EmptyString "branch_suffix" l; model ← field_of unquote EmptyString "model" l;
  if all_decode dec_boolean "wait" l
  then Some (mkSpawnArgs name task suffix model match pointer_of "wait" l with Some v => dec_boolean v | None => None end)
  else None.

(** What the agent tools reach children through, whatever implements it. *)
(* @src internal/tool/builtin/agents.go 16-31 Subagents *)
Record Subagents := mkSubagents {
  sa_Spawn : SpawnRequest -> AgentResult + GoError;
  sa_Start : SpawnRequest -> AgentResult + GoError;
  sa_Wait : string -> list string -> list AgentResult + GoError;
  sa_List : string -> list AgentResult + GoError;
}.

Definition failed_agent (r : AgentResult) : bool := String.eqb (ar_State r) "error" || String.eqb (ar_State r) "aborted".
(* @src internal/tool/builtin/agents.go 267-279 agentResult *)
Definition agentResult (r : AgentResult) : Result := mkResult (Report r) (failed_agent r) (encodeResult r).
(* @src internal/tool/builtin/agents.go 281-298 agentResults *)
Definition agentResults (rs : list AgentResult) : Result :=
  mkResult (join (map Report rs) nl) (existsb failed_agent rs) (arr (map encodeResult rs)).
Definition tool_failed {T} (name : string) (show_ : T -> Result) (r : T + GoError) : Result :=
  match r with inl v => show_ v | inr e => Errorf (name +:+ ": " +:+ error_text e) end.

(* @src internal/tool/builtin/agents.go 142-173 spawnAgentTool.Call *)
Definition spawn_agent_Call (json_error : string -> string) (agents : option Subagents) (sessionID raw : string) : Result :=
  match decodeArgs json_error (mkSpawnArgs EmptyString EmptyString EmptyString EmptyString None) dec_spawnAgentArgs raw with
  | inr e => Errorf e
  | inl args =>
      match agents with
      | None => Errorf "spawn_agent: this harness cannot spawn agents"
      | Some a =>
          if String.eqb (trim_space (sp_Task args)) EmptyString then Errorf "spawn_agent: task is required" else
          let req := mkSpawnRequest sessionID (trim_space (sp_Name args)) (sp_Task args) (trim_space (sp_BranchSuffix args)) (trim_space (sp_Model args)) in
          tool_failed "spawn_agent" agentResult match sp_Wait args with Some false => sa_Start a req | _ => sa_Spawn a req end
      end
  end.

(* @src internal/tool/builtin/agents.go 12-14 maxAgentWait *)
Definition maxAgentWait : Z := 16.
(* @src internal/tool/builtin/agents.go 209-229 waitAgentsTool.Call *)
Definition wait_agents_Call (json_error : string -> string) (agents : option Subagents) (sessionID raw : string) : Result :=
  match decodeArgs json_error [] (field_of dec_string_list [] "ids") raw with
  | inr e => Errorf e
  | inl ids =>
      match agents with
      | None => Errorf "wait_agents: this harness cannot spawn agents"
      | Some a =>
          if bool_decide (ids = []) then Errorf "wait_agents: ids is required"
          else if maxAgentWait <? Z.of_nat (length ids) then Errorf ("wait_agents: at most " +:+ itoa maxAgentWait +:+ " agents can be waited for at once")
          else tool_failed "wait_agents" agentResults (sa_Wait a sessionID ids)
      end
  end.

(* @src internal/tool/builtin/agents.go 249-265 listAgentsTool.Call *)
Definition list_agents_Call (json_error : string -> string) (agents : option Subagents) (sessionID raw : string) : Result :=
  match decodeArgs json_error tt (fun _ => Some tt) raw with
  | inr e => Errorf e
  | inl _ =>
      match agents with
      | None => Errorf "list_agents: this harness cannot spawn agents"
      | Some a => tool_failed "list_agents" (fun rs => if bool_decide (rs = []) then Text "this session has spawned no agents" else agentResults rs)
                    (sa_List a sessionID)
      end
  end.

(* @src internal/tool/builtin/web.go 41-46 webSearchArgs *)
Definition dec_webSearchArgs (l : list (string * string)) : option SearchRequest :=
  query ← field_of unquote EmptyString "query" l; source ← field_of unquote EmptyString "source" l; count ← field_of dec_integer 0 "count" l;
  Some (mkSearchRequest query source count).

(** [cancelled] is the context's error when the search comes back, and
    [encode] is [json.Marshal] of the details. *)
(* @src internal/tool/builtin/web.go 81-102 webSearchTool.Call *)
Definition web_search_Call (json_error : string -> string) (search : option (SearchRequest -> Outcome + GoError)) (cancelled : option GoError)
    (encode : Details -> string + GoError) (raw : string) : Result + GoError :=
  match decodeArgs json_error (mkSearchRequest EmptyString EmptyString 0) dec_webSearchArgs raw with
  | inr e => inl (Errorf e)
  | inl req =>
      match search with
      | None => inl (Errorf "web_search: this harness has no search configured")
      | Some run =>
          match run req with
          | inr err => match cancelled with Some c => inr (ErrWrap "web_search" c) | None => inl (Errorf ("web_search: " +:+ error_text err)) end
          | inl out =>
              match encode (oc_Details out) with
              | inl details => inl (mkResult (oc_Text out) (oc_IsError out) details)
              | inr err => inr (ErrWrap "encode web_search details" err)
              end
          end
      end
  end.

(* @src internal/tool/builtin/web.go 109-115 webFetchArgs *)
Record webFetchArgs := mkFetchArgs { wf_URL : string; wf_Section : string; wf_Filter : string; wf_Format : string }.
Definition dec_webFetchArgs (l : list (string * string)) : option webFetchArgs :=
  url ← field_of unquote EmptyString "url" l; section ← field_of unquote EmptyString "section" l;
  filter_ ← field_of unquote EmptyString "filter" l; format ← field_of unquote EmptyString "format" l;
  Some (mkFetchArgs url section filter_ format).

(** A filter's request and outcome are what [eikad filter] reads and writes:
    [decode] is [json.Unmarshal] of the outcome. *)
(* @src internal/tool/builtin/web.go 188-222 sandboxFilter *)
Definition sandboxFilter {O} (decode : string -> O + GoError) (exec : option Executor) (request : string) : O + GoError :=
  match exec with
  | None => inr (ErrText "no workspace to run it in")
  | Some run =>
      let '(writes, r) := run (mkExecSpec "/usr/local/bin/eikad" ["filter"%string] false EmptyString [] (12 * second) (Some request)) in
      let written fd := of_bytes (concat (map snd (List.filter (fun w => bool_decide (w.1 = fd)) writes))) in
      match r with
      | inr err => inr err
      | inl res =>
          if er_TimedOut res then inr (ErrText "the filter process timed out")
          else if negb (er_ExitCode res =? 0)
          then inr (ErrText ("eikad filter exited with " +:+ itoa (er_ExitCode res) +:+ ": " +:+ trim_space (written Stderr)))
          else match decode (written Stdout) with inl o => inl o | inr err => inr (ErrWrap "read filter outcome" err) end
      end
  end.

(** The reader is given what runs a filter. *)
(* @src internal/tool/builtin/web.go 159-186 webFetchTool.Call *)
Definition web_fetch_Call {O D} (json_error : string -> string) (pages : option (webFetchArgs -> (string -> O + GoError) -> (string * bool * D) + GoError))
    (decode : string -> O + GoError) (exec : option Executor) (cancelled : option GoError) (encode : D -> string + GoError) (raw : string)
    : Result + GoError :=
  match decodeArgs json_error (mkFetchArgs EmptyString EmptyString EmptyString EmptyString) dec_webFetchArgs raw with
  | inr e => inl (Errorf e)
  | inl args =>
      match pages with
      | None => inl (Errorf "web_fetch: this harness has no fetch configured")
      | Some read_ =>
          if nonempty (wf_Filter args) && negb (match exec with Some _ => true | None => false end)
          then inl (Errorf "web_fetch: a filter runs in a workspace sandbox, and this chat has none; fetch the page or one section of it instead")
          else match read_ args (sandboxFilter decode exec) with
               | inr err => match cancelled with Some c => inr (ErrWrap "web_fetch" c) | None => inl (Errorf ("web_fetch: " +:+ error_text err)) end
               | inl (text, isError, details) =>
                   match encode details with
                   | inl d => inl (mkResult text isError d)
                   | inr err => inr (ErrWrap "encode web_fetch details" err)
                   end
               end
      end
  end.

(** ** Output is the start and the end of what was written *)

(** What of all a command wrote the model is shown, and what is streamed. *)
Definition presented (l : list Z) : string :=
  if len l <=? maxOutputBytes then of_bytes l
  else of_bytes (cut outputHeadBytes l) +:+ dropped_note (len l - maxOutputBytes) outputHeadBytes outputTailBytes +:+
       of_bytes (skip (len l - outputTailBytes) l).
Definition streamed (l : list Z) : list Z := if len l <=? maxOutputBytes then l else cut maxOutputBytes l ++ continues.

Definition ending (n : Z) (l : list Z) : list Z := skip (len l - n) l.

Lemma len_nonneg l : 0 <= len l.
Proof. unfold len. lia. Qed.
Lemma len_app l k : len (l ++ k) = len l + len k.
Proof. unfold len. rewrite length_app. lia. Qed.
Lemma len_cut n l : len (cut n l) = Z.min (Z.max n 0) (len l).
Proof. unfold len, cut. rewrite length_take. lia. Qed.
Lemma len_skip n l : len (skip n l) = Z.max 0 (len l - Z.max n 0).
Proof. unfold len, skip. rewrite length_drop. lia. Qed.
Lemma cut_short n l : len l <= n -> cut n l = l.
Proof. intros H. unfold cut, len in *. apply take_ge. lia. Qed.
Lemma cut_app n l k : len l <= n -> cut n (l ++ k) = l ++ cut (n - len l) k.
Proof. intros H. unfold cut, len in *. rewrite take_app, take_ge by lia. f_equal. f_equal. lia. Qed.
Lemma cut_app_long n l k : n <= len l -> cut n (l ++ k) = cut n l.
Proof. intros H. unfold cut, len in *. rewrite take_app_le by lia. done. Qed.
Lemma skip_app n l k : len l <= n -> skip n (l ++ k) = skip (n - len l) k.
Proof. intros H. unfold skip, len in *. rewrite drop_app_ge by lia. f_equal. lia. Qed.
Lemma skip_app_long n l k : n <= len l -> skip n (l ++ k) = skip n l ++ k.
Proof. intros H. unfold skip, len in *. rewrite drop_app_le by lia. done. Qed.
Lemma skip_skip n m l : 0 <= n -> 0 <= m -> skip n (skip m l) = skip (m + n) l.
Proof. intros Hn Hm. unfold skip. rewrite drop_drop. f_equal. lia. Qed.
Lemma skip_none n l : n <= 0 -> skip n l = l.
Proof. intros H. unfold skip. by replace (Z.to_nat n) with O by lia. Qed.
Lemma skip_all n l : len l <= n -> skip n l = [].
Proof. intros H. unfold skip, len in *. apply drop_ge. lia. Qed.
Lemma cut_skip n l : cut n l ++ skip n l = l.
Proof. apply take_drop. Qed.

(** The end of what is longer by a piece is the end of the old end with it. *)
Lemma ending_app n l k : 0 <= n -> ending n (ending n l ++ k) = ending n (l ++ k).
Proof.
  intros Hn. unfold ending. pose proof (len_nonneg l). pose proof (len_nonneg k).
  destruct (Z.leb_spec (len l) n) as [Hl|Hl]; [by rewrite (skip_none (len l - n)) by lia|].
  rewrite <- (skip_app_long (len l - n) l k), skip_skip by (rewrite ?len_skip, ?len_app; lia). f_equal. rewrite len_skip, !len_app. lia.
Qed.

Record Captured (l : list Z) (o : output) : Prop := {
  cp_head : o_head o = cut outputHeadBytes l;
  cp_tail : o_tail o = ending outputTailBytes (skip outputHeadBytes l);
  cp_total : o_total o = len l;
  cp_streamed : o_streamed o = if len l <=? maxOutputBytes then len l else maxOutputBytes + 1;
  cp_chunks : concat (o_chunks o) = streamed l;
}.

(** What [Write] keeps of a piece, apart from what it forwards. *)
Lemma Write_eq p o :
  Write p o =
    let o := forward p (mkOutput (o_head o) (o_tail o) (o_total o + len p) (o_streamed o) (o_chunks o)) in
    let room := Z.max 0 (outputHeadBytes - len (o_head o)) in
    let tail := ending outputTailBytes (o_tail o ++ skip room p) in
    mkOutput (o_head o ++ cut room p) (if 0 <? len (skip room p) then tail else o_tail o) (o_total o) (o_streamed o) (o_chunks o).
Proof.
  unfold Write. set (o1 := forward _ _). cbv zeta. pose proof (len_nonneg p).
  destruct (Z.ltb_spec 0 (outputHeadBytes - len (o_head o1))) as [Hr|Hr].
  - rewrite Z.max_r by lia. set (room := outputHeadBytes - _) in *.
    assert (cut (Z.min room (len p)) p = cut room p /\ skip (Z.min room (len p)) p = skip room p) as [-> ->].
    { destruct (Z.min_spec room (len p)) as [[_ ->]|[Hl ->]]; [done|]. by rewrite !cut_short, !skip_all by lia. }
    destruct (0 <? len (skip room p)); [|done]. unfold ending. destruct (Z.ltb_spec outputTailBytes (len (o_tail o1 ++ skip room p))); [done|].
    by rewrite (skip_none (len _ - outputTailBytes)) by lia.
  - rewrite Z.max_l by lia. rewrite (skip_none 0) by lia. unfold cut at 1. cbn [Z.to_nat take]. rewrite app_nil_r.
    destruct (0 <? len p); [|done]. unfold ending. destruct (Z.ltb_spec outputTailBytes (len (o_tail o1 ++ p))); [done|].
    by rewrite (skip_none (len _ - outputTailBytes)) by lia.
Qed.

Lemma forward_same p o : o_head (forward p o) = o_head o /\ o_tail (forward p o) = o_tail o /\ o_total (forward p o) = o_total o.
Proof. unfold forward. destruct (_ <? _); [done|]. by destruct (_ <=? _). Qed.

Lemma forward_streams l p o :
  o_streamed o = (if len l <=? maxOutputBytes then len l else maxOutputBytes + 1) -> concat (o_chunks o) = streamed l ->
  o_streamed (forward p o) = (if len (l ++ p) <=? maxOutputBytes then len (l ++ p) else maxOutputBytes + 1) /\
  concat (o_chunks (forward p o)) = streamed (l ++ p).
Proof.
  intros Hs Hc. unfold forward, streamed in *. rewrite Hs, len_app. pose proof (len_nonneg p).
  destruct (Z.leb_spec (len l) maxOutputBytes) as [Hl|Hl].
  - destruct (Z.ltb_spec maxOutputBytes (len l)); [lia|].
    destruct (Z.leb_spec (len p) (maxOutputBytes - len l)); destruct (Z.leb_spec (len l + len p) maxOutputBytes); try lia; cbn.
    + split; [done|]. rewrite concat_app, Hc. cbn. by rewrite app_nil_r.
    + split; [done|]. rewrite concat_app, Hc, cut_app, <- app_assoc by lia. f_equal.
      destruct (Z.ltb_spec 0 (maxOutputBytes - len l)); cbn; rewrite app_nil_r; [done|].
      unfold cut. by replace (Z.to_nat (maxOutputBytes - len l)) with O by lia.
  - destruct (Z.ltb_spec maxOutputBytes (maxOutputBytes + 1)); [|lia]. destruct (Z.leb_spec (len l + len p) maxOutputBytes); [lia|].
    rewrite Hs. split; [done|]. by rewrite Hc, cut_app_long by lia.
Qed.

Lemma Captured_Write l o p : Captured l o -> Captured (l ++ p) (Write p o).
Proof.
  intros [H1 H2 H3 H4 H5]. rewrite Write_eq. cbv zeta. set (o0 := mkOutput (o_head o) (o_tail o) (o_total o + len p) _ _).
  destruct (forward_same p o0) as (F1 & F2 & F3). cbn in F1, F2, F3. rewrite F1, F2, F3. destruct (forward_streams l p o0 H4 H5) as [F4 F5].
  cbn [o_head o_tail o_total]. rewrite H1, H2, H3, len_cut. pose proof (len_nonneg l).
  rewrite (Z.max_l outputHeadBytes 0) by done.
  assert (Hhead : cut outputHeadBytes l ++ cut (Z.max 0 (outputHeadBytes - Z.min outputHeadBytes (len l))) p = cut outputHeadBytes (l ++ p)).
  { destruct (Z.leb_spec (len l) outputHeadBytes).
    - rewrite cut_app, (cut_short _ l) by done. f_equal. f_equal. lia.
    - rewrite cut_app_long by lia. unfold cut at 2. by rewrite Z.max_l, app_nil_r by lia. }
  assert (Hskip : skip outputHeadBytes l ++ skip (Z.max 0 (outputHeadBytes - Z.min outputHeadBytes (len l))) p = skip outputHeadBytes (l ++ p)).
  { destruct (Z.leb_spec (len l) outputHeadBytes).
    - rewrite skip_app, (skip_all _ l) by done. cbn. f_equal. lia.
    - rewrite skip_app_long by lia. f_equal. apply skip_none. lia. }
  split; cbn [o_head o_tail o_total o_streamed o_chunks]; [done| |by rewrite len_app|done|done].
  rewrite ending_app, Hskip by done. destruct (Z.ltb_spec 0 (len (skip (Z.max 0 (outputHeadBytes - Z.min outputHeadBytes (len l))) p))) as [|Hz]; [done|].
  rewrite <- Hskip. assert (Hnil : forall x, len x <= 0 -> x = []). { intros [|x x'] Hx; [done|]. unfold len in Hx. cbn in Hx. lia. }
  by rewrite (Hnil _ Hz), app_nil_r.
Qed.

Lemma capture_captures ws : Captured (concat (map snd ws)) (capture ws).
Proof.
  unfold capture. induction ws as [|w ws IH] using rev_ind; [by split|].
  rewrite foldl_app, map_app, concat_app. cbn. rewrite app_nil_r. by apply Captured_Write.
Qed.

Lemma output_String_presented l o : Captured l o -> output_String o = presented l.
Proof.
  intros [H1 H2 H3 _ _]. unfold output_String, presented, ending in *. rewrite H1, H2, H3, !len_skip, len_cut.
  change (Z.max outputHeadBytes 0) with outputHeadBytes. pose proof (len_nonneg l).
  assert (maxOutputBytes = outputHeadBytes + outputTailBytes /\ 0 < outputTailBytes /\ 0 < outputHeadBytes) as (Hm & Ht & Hh) by done.
  destruct (Z.leb_spec (len l) maxOutputBytes) as [Hl|Hl].
  - rewrite (skip_none (_ - outputTailBytes)), cut_skip by lia.
    destruct (Z.leb_spec (len l - Z.min outputHeadBytes (len l) - Z.max 0 (Z.max 0 (len l - outputHeadBytes) - Z.max (Z.max 0 (len l - outputHeadBytes) - outputTailBytes) 0)) 0); [by rewrite orb_true_r|lia].
  - rewrite skip_skip by lia.
    destruct (Z.eqb_spec (Z.max 0 (Z.max 0 (len l - outputHeadBytes) - Z.max (Z.max 0 (len l - outputHeadBytes) - outputTailBytes) 0)) 0); [lia|].
    destruct (Z.leb_spec (len l - Z.min outputHeadBytes (len l) - Z.max 0 (Z.max 0 (len l - outputHeadBytes) - Z.max (Z.max 0 (len l - outputHeadBytes) - outputTailBytes) 0)) 0); [lia|].
    cbn [orb]. f_equal. f_equal; [f_equal; lia|do 2 f_equal; lia].
Qed.

(** ** What is read of a command is what it wrote *)

Definition pieces (fd : Fd) (ws : list (Fd * list Z)) : list Z := concat (map snd (List.filter (fun w => bool_decide (w.1 = fd)) ws)).
Lemma pieces_app fd ws ws' : pieces fd (ws ++ ws') = pieces fd ws ++ pieces fd ws'.
Proof. unfold pieces. by rewrite List.filter_app, map_app, concat_app. Qed.
Lemma len_pieces ws : len (concat (map snd ws)) = len (pieces Stdout ws) + len (pieces Stderr ws).
Proof.
  induction ws as [|[fd d] ws IH]; [done|]. unfold pieces in *. cbn [map concat List.filter fst]. rewrite len_app. cbn [snd].
  destruct fd.
  - rewrite (bool_decide_true (Stdout = Stdout)), (bool_decide_false (Stdout = Stderr)) by done. cbn [map concat snd]. rewrite len_app. lia.
  - rewrite (bool_decide_false (Stderr = Stdout)), (bool_decide_true (Stderr = Stderr)) by done. cbn [map concat snd]. rewrite len_app. lia.
Qed.

Definition as_writes (l : list (Fd * list Z)) : list ExecFrame := map (fun w => output_frame w.1 w.2) l.

Section copying.
Context (taken : nat -> bool) (W : Fd -> list (list Z)).

Definition in_flight (fd : Fd) (s : Copying) : list Z := match cp_flight s fd with Some f => fr_Data f | None => [] end.

(** Of what each goroutine was given, what was counted is a first part, and is
    what was sent with what is about to be; nothing is missing until the
    limit is reached. *)
Record Copies (s : Copying) (acc off : Fd -> list Z) (ws : list (Fd * list Z)) : Prop := {
  cc_offered : forall fd, concat (W fd) = off fd ++ concat (cp_left s fd);
  cc_prefix : forall fd, acc fd `prefix_of` off fd;
  cc_written : fs_written (cp_frames s) = len (acc Stdout) + len (acc Stderr);
  cc_most : fs_written (cp_frames s) <= maxExecOutput;
  cc_whole : fs_cut (cp_frames s) = false -> forall fd, acc fd = off fd;
  cc_cut : fs_cut (cp_frames s) = true -> fs_written (cp_frames s) = maxExecOutput /\ maxExecOutput < len (off Stdout) + len (off Stderr);
  cc_flight : forall fd f, cp_flight s fd = Some f -> f = output_frame fd (fr_Data f);
  cc_sent : fs_broken (cp_frames s) = false -> fs_sent (cp_frames s) = as_writes ws /\ forall fd, pieces fd ws ++ in_flight fd s = acc fd;
}.

Lemma set_fd_eq {T} fd (v : T) f : set_fd fd v f fd = v.
Proof. unfold set_fd. by rewrite decide_True. Qed.
Lemma set_fd_ne {T} fd fd' (v : T) f : fd' <> fd -> set_fd fd v f fd' = f fd'.
Proof. intros H. unfold set_fd. by rewrite decide_False. Qed.
Lemma set_fd_len fd (v : list Z) f : len (set_fd fd v f Stdout) + len (set_fd fd v f Stderr) = len (f Stdout) + len (f Stderr) - len (f fd) + len v.
Proof. unfold set_fd. destruct fd; cbn; repeat case_decide; try done; lia. Qed.

Lemma Copies_start : Copies (mkCopying newFrameStream W (fun _ => None)) (fun _ => []) (fun _ => []) [].
Proof. split; try done. Qed.

(** The frame in flight is sent. *)
Lemma Copies_send s acc off ws fd f : Copies s acc off ws -> cp_flight s fd = Some f ->
  Copies (mkCopying (send taken f (cp_frames s)) (cp_left s) (set_fd fd None (cp_flight s))) acc off (ws ++ [(fd, fr_Data f)]).
Proof.
  intros [C1 C2 C3 C4 C5 C6 C7 C8] Hf. assert (Hs : fs_written (send taken f (cp_frames s)) = fs_written (cp_frames s) /\ fs_cut (send taken f (cp_frames s)) = fs_cut (cp_frames s)).
  { unfold send. by destruct (_ || _). }
  destruct Hs as [Hw Hc]. split; cbn [cp_frames cp_left cp_flight]; rewrite ?Hw, ?Hc; try done.
  - intros fd' f'. unfold set_fd. case_decide; [done|]. apply C7.
  - unfold send. destruct (fs_broken (cp_frames s)) eqn:Eb; [done|]. destruct (taken _); [|done]. cbn. intros _.
    destruct (C8 eq_refl) as [C8a C8b]. split; [rewrite C8a, (C7 fd f Hf); unfold as_writes; by rewrite map_app|].
    intros fd'. rewrite <- (C8b fd'), pieces_app, <- app_assoc. f_equal. unfold in_flight. cbn [cp_flight]. destruct (decide (fd' = fd)) as [->|Hne].
    + rewrite set_fd_eq, Hf. unfold pieces. cbn. rewrite bool_decide_true by done. cbn. by rewrite !app_nil_r.
    + rewrite set_fd_ne by done. unfold pieces. cbn. by rewrite bool_decide_false by congruence.
Qed.

Context (W_pieces : forall fd, Forall (fun d => 0 < len d) (W fd)).

(** A piece is counted. *)
Lemma Copies_count s acc off ws fd data rest : Copies s acc off ws -> cp_flight s fd = None -> cp_left s fd = data :: rest -> 0 < len data ->
  exists f fs acc', count_output fd data (cp_frames s) = (f, fs) /\
    Copies (mkCopying fs (set_fd fd rest (cp_left s)) (set_fd fd f (cp_flight s))) acc' (set_fd fd (off fd ++ data) off) ws.
Proof.
  intros [C1 C2 C3 C4 C5 C6 C7 C8] Hf Hl Hd. unfold count_output.
  assert (Hoff : forall fd', concat (W fd') = set_fd fd (off fd ++ data) off fd' ++ concat (set_fd fd rest (cp_left s) fd')).
  { intros fd'. rewrite C1. destruct (decide (fd' = fd)) as [->|Hne]; [rewrite !set_fd_eq, Hl; cbn; by rewrite app_assoc|by rewrite !set_fd_ne]. }
  assert (Hlen : len (off Stdout) + len (off Stderr) < len (set_fd fd (off fd ++ data) off Stdout) + len (set_fd fd (off fd ++ data) off Stderr)).
  { rewrite set_fd_len, len_app. lia. }
  assert (Hacc : len (acc Stdout) + len (acc Stderr) <= len (off Stdout) + len (off Stderr)).
  { pose proof (prefix_length _ _ (C2 Stdout)). pose proof (prefix_length _ _ (C2 Stderr)). unfold len. lia. }
  destruct (Z.leb_spec maxExecOutput (fs_written (cp_frames s))) as [Hm|Hm].
  { do 2 eexists. exists acc. split; [done|]. assert (Hnone : forall fd', set_fd fd None (cp_flight s) fd' = cp_flight s fd').
    { intros fd'. unfold set_fd. case_decide as He; [by subst|done]. }
    split; cbn [cp_frames cp_left cp_flight fs_written fs_cut fs_sent fs_broken]; try done.
    - intros fd'. destruct (decide (fd' = fd)) as [->|Hne]; [rewrite set_fd_eq; by apply prefix_app_r|by rewrite set_fd_ne].
    - intros _. split; lia.
    - intros fd' f'. rewrite Hnone. apply C7.
    - intros Hb. destruct (C8 Hb) as [C8a C8b]. split; [done|]. intros fd'. rewrite <- (C8b fd'). f_equal. unfold in_flight. cbn. by rewrite Hnone. }
  assert (Hcut : fs_cut (cp_frames s) = false) by (destruct (fs_cut (cp_frames s)) eqn:Ec; [destruct (C6 eq_refl); lia|done]).
  specialize (C5 Hcut). set (room := maxExecOutput - fs_written (cp_frames s)).
  assert (Hd' : exists d c, (if room <? len data then (cut room data, true) else (data, fs_cut (cp_frames s))) = (d, c) /\
    d `prefix_of` data /\ len d <= room /\ (c = false -> d = data) /\ (c = true -> len d = room /\ room < len data)).
  { destruct (Z.ltb_spec room (len data)) as [Hr|Hr]; do 2 eexists; (split; [done|]).
    - split; [apply prefix_take|]. rewrite len_cut. split; [lia|]. split; [done|]. lia.
    - split; [done|]. split; [done|]. rewrite Hcut. done. }
  destruct Hd' as (d & c & -> & Hp & Hle & Hf1 & Ht1). do 2 eexists. exists (set_fd fd (acc fd ++ d) acc). split; [done|].
  assert (Hw : fs_written (cp_frames s) + len d = len (set_fd fd (acc fd ++ d) acc Stdout) + len (set_fd fd (acc fd ++ d) acc Stderr)).
  { rewrite set_fd_len, len_app. lia. }
  split; cbn [cp_frames cp_left cp_flight fs_written fs_cut fs_sent fs_broken]; try done.
  - intros fd'. destruct (decide (fd' = fd)) as [->|Hne]; [|rewrite !set_fd_ne by done; apply C2]. rewrite !set_fd_eq, C5. destruct Hp as [k ->]. exists k. by rewrite app_assoc.
  - lia.
  - intros Hc fd'. destruct (decide (fd' = fd)) as [->|Hne]; [|rewrite !set_fd_ne by done; apply C5]. by rewrite !set_fd_eq, C5, (Hf1 Hc).
  - intros Hc. destruct (Ht1 Hc). split; [lia|]. rewrite set_fd_len, len_app. rewrite C3, !C5 in *. lia.
  - intros fd' f'. unfold set_fd. case_decide as He; [intros [= <-]; by subst|apply C7].
  - intros Hb. destruct (C8 Hb) as [C8a C8b]. split; [done|]. intros fd'. unfold in_flight in *. cbn [cp_flight]. destruct (decide (fd' = fd)) as [->|Hne].
    + rewrite !set_fd_eq, <- (C8b fd), Hf, app_nil_r. done.
    + by rewrite !set_fd_ne, <- (C8b fd').
Qed.

Lemma Copies_step s acc off ws fd s' : Copies s acc off ws -> (forall fd, Forall (fun d => 0 < len d) (cp_left s fd)) ->
  copy_step taken fd s = Some s' -> exists acc' off' ws', Copies s' acc' off' ws' /\ forall fd, Forall (fun d => 0 < len d) (cp_left s' fd).
Proof.
  intros HC Hl Hs. unfold copy_step in Hs. destruct (cp_flight s fd) as [f|] eqn:Ef.
  - injection Hs as <-. exists acc, off, (ws ++ [(fd, fr_Data f)]). split; [by apply Copies_send|done].
  - destruct (cp_left s fd) as [|data rest] eqn:El; [done|]. assert (Hd := Hl fd). rewrite El in Hd. apply Forall_cons in Hd as [Hd Hr].
    destruct (Copies_count s acc off ws fd data rest HC Ef El Hd) as (f & fs & acc' & E1 & E2). rewrite E1 in Hs. injection Hs as <-.
    do 3 eexists. split; [exact E2|]. intros fd'. cbn. destruct (decide (fd' = fd)) as [->|Hne]; [by rewrite set_fd_eq|by rewrite set_fd_ne].
Qed.

Lemma Copies_copy moves : exists acc off ws, Copies (copy taken moves (mkCopying newFrameStream W (fun _ => None))) acc off ws.
Proof using W_pieces.
  assert (H : forall s acc off ws, Copies s acc off ws -> (forall fd, Forall (fun d => 0 < len d) (cp_left s fd)) ->
    exists acc off ws, Copies (copy taken moves s) acc off ws).
  { induction moves as [|fd moves IH]; intros s acc off ws HC Hl; [by exists acc, off, ws|]. cbn.
    destruct (copy_step taken fd s) as [s'|] eqn:Es; cbn; [|by eapply IH]. destruct (Copies_step _ _ _ _ _ _ HC Hl Es) as (acc' & off' & ws' & H1 & H2).
    by eapply IH. }
  eapply H; [apply Copies_start|exact W_pieces].
Qed.

(** *** Both goroutines come to their end *)

Definition todo (fd : Fd) (s : Copying) : nat := 2 * length (cp_left s fd) + match cp_flight s fd with Some _ => 1 | None => 0 end.

Lemma copy_step_todo fd s s' : copy_step taken fd s = Some s' -> (S (todo fd s') <= todo fd s)%nat /\ forall fd', fd' <> fd -> todo fd' s' = todo fd' s.
Proof.
  unfold copy_step. destruct (cp_flight s fd) as [f|] eqn:Ef.
  - intros [= <-]. unfold todo. cbn [cp_left cp_flight]. rewrite set_fd_eq, Ef. split; [lia|]. intros fd' Hne. by rewrite set_fd_ne.
  - destruct (cp_left s fd) as [|data rest] eqn:El; [done|]. destruct (count_output fd data (cp_frames s)) as [f fs]. intros [= <-].
    unfold todo. cbn [cp_left cp_flight]. rewrite !set_fd_eq, Ef, El. cbn [length]. split; [destruct f; lia|]. intros fd' Hne. by rewrite !set_fd_ne.
Qed.
Lemma copy_step_stops fd s : copy_step taken fd s = None -> todo fd s = O.
Proof.
  unfold copy_step, todo. destruct (cp_flight s fd); [done|]. destruct (cp_left s fd) as [|data rest]; [done|]. by destruct (count_output fd data (cp_frames s)).
Qed.

Definition turns_of (fd : Fd) (moves : list Fd) : nat := length (List.filter (fun x => bool_decide (x = fd)) moves).
Lemma copy_todo moves s fd : (todo fd (copy taken moves s) <= todo fd s - turns_of fd moves)%nat.
Proof.
  revert s. induction moves as [|m moves IH]; intros s; [unfold turns_of; cbn [copy List.filter length]; lia|]. cbn [copy]. unfold turns_of in *. cbn [List.filter].
  specialize (IH (default s (copy_step taken m s))). destruct (copy_step taken m s) as [s'|] eqn:Es; cbn [default from_option id] in *.
  - destruct (copy_step_todo _ _ _ Es) as [H1 H2]. destruct (decide (m = fd)) as [->|Hne].
    + rewrite bool_decide_true by done. cbn [length]. lia.
    + rewrite bool_decide_false by done. rewrite (H2 fd) in IH by done. lia.
  - destruct (decide (m = fd)) as [->|Hne]; [rewrite bool_decide_true by done; rewrite (copy_step_stops _ _ Es) in *; cbn [length]; lia|].
    by rewrite bool_decide_false.
Qed.

Lemma copy_copied moves : (forall fd, 2 * length (W fd) <= turns_of fd moves)%nat ->
  copied (copy taken moves (mkCopying newFrameStream W (fun _ => None))) = true.
Proof.
  intros Ht. set (s := copy _ _ _). assert (H : forall fd, todo fd s = O).
  { intros fd. pose proof (copy_todo moves (mkCopying newFrameStream W (fun _ => None)) fd) as H. fold s in H. specialize (Ht fd).
    assert (H0 : todo fd (mkCopying newFrameStream W (fun _ => None)) = (2 * length (W fd))%nat) by (unfold todo; cbn; lia). lia. }
  assert (Hfd : forall fd, cp_left s fd = [] /\ cp_flight s fd = None).
  { intros fd. specialize (H fd). unfold todo in H. destruct (cp_flight s fd); [lia|]. split; [|done]. apply length_zero_iff_nil. lia. }
  unfold copied. cbn. destruct (Hfd Stdout) as [-> ->], (Hfd Stderr) as [-> ->]. done.
Qed.

Lemma send_taken f fs : (forall n, taken n = true) -> fs_broken fs = false -> fs_sent (send taken f fs) = fs_sent fs ++ [f] /\ fs_broken (send taken f fs) = false.
Proof. intros Ht Hb. unfold send. by rewrite Hb, Ht. Qed.
Lemma copy_unbroken moves s : (forall n, taken n = true) -> fs_broken (cp_frames s) = false -> fs_broken (cp_frames (copy taken moves s)) = false.
Proof.
  intros Ht. revert s. induction moves as [|m moves IH]; intros s Hb; [done|]. cbn. apply IH. unfold copy_step.
  destruct (cp_flight s m); cbn; [by apply send_taken|]. destruct (cp_left s m); [done|]. unfold count_output.
  destruct (_ <=? _); cbn; [done|]. by destruct (_ <? _).
Qed.
(** What is sent when both are done, of a response that is taken whole. *)
Lemma copies_all moves : (forall n, taken n = true) -> (forall fd, 2 * length (W fd) <= turns_of fd moves)%nat ->
  let s := copy taken moves (mkCopying newFrameStream W (fun _ => None)) in
  let all := len (concat (W Stdout)) + len (concat (W Stderr)) in
  copied s = true /\ fs_broken (cp_frames s) = false /\ fs_cut (cp_frames s) = (maxExecOutput <? all) /\
  exists ws, fs_sent (cp_frames s) = as_writes ws /\ (forall fd, pieces fd ws `prefix_of` concat (W fd)) /\
    len (concat (map snd ws)) = Z.min all maxExecOutput.
Proof using W_pieces.
  intros Ht Hm s all. destruct (Copies_copy moves) as (acc & off & ws & [C1 C2 C3 C4 C5 C6 C7 C8]). fold s in C1, C3, C4, C5, C6, C7, C8.
  assert (Hdone : copied s = true) by by apply copy_copied. assert (Hb : fs_broken (cp_frames s) = false) by by apply copy_unbroken.
  destruct (C8 Hb) as [Hsent Hws].
  assert (Hend : forall fd, cp_left s fd = [] /\ cp_flight s fd = None).
  { unfold copied in Hdone. cbn in Hdone. rewrite !andb_true_iff, !negb_true_iff, !bool_decide_eq_true, !bool_decide_eq_false in Hdone.
    destruct Hdone as [[H1 H2] [[H3 H4] _]]. intros []; (split; [done|]); by apply eq_None_not_Some. }
  assert (Hoff : forall fd, concat (W fd) = off fd) by (intros fd; rewrite (C1 fd), (proj1 (Hend fd)); cbn; by rewrite app_nil_r).
  assert (Hacc : forall fd, pieces fd ws = acc fd) by (intros fd; rewrite <- (Hws fd); unfold in_flight; rewrite (proj2 (Hend fd)); by rewrite app_nil_r).
  assert (Hlen : len (concat (map snd ws)) = Z.min all maxExecOutput /\ fs_cut (cp_frames s) = (maxExecOutput <? all)).
  { rewrite len_pieces, !Hacc, <- C3. unfold all. rewrite !Hoff. destruct (fs_cut (cp_frames s)) eqn:Ec.
    - destruct (C6 eq_refl). split; [lia|]. symmetry. by apply Z.ltb_lt.
    - rewrite C3, !(C5 eq_refl) in *. split; [lia|]. symmetry. by apply Z.ltb_ge. }
  destruct Hlen as [Hlen Hcut]. split; [done|]. split; [done|]. split; [done|]. exists ws. split; [done|]. split; [|done].
  intros fd. rewrite Hacc, Hoff. apply C2.
Qed.
End copying.

(** The frames of output before the one that ends the response. *)
Lemma readFrames_cons broken fd d frames :
  readFrames broken (output_frame fd d :: frames) = (let '(ws, r) := readFrames broken frames in ((fd, d) :: ws, r)).
Proof. by destruct fd. Qed.
Lemma readFrames_ends broken ws code timedOut truncated :
  readFrames broken (as_writes ws ++ [mkExecFrame EmptyString [] (Some code) timedOut truncated EmptyString]) =
    (ws ++ (if truncated then [(Stderr, truncationNotice)] else []), inl (mkExecResult code timedOut)).
Proof. induction ws as [|[fd d] ws IH]; [done|]. unfold as_writes in *. cbn [map app]. by rewrite readFrames_cons, IH. Qed.

(** *** The whole of a command *)

Definition exit_code (e : wait_end) : option Z := match e with WaitOk => Some 0 | WaitExit code => Some code | WaitOther _ => None end.
Definition all_written (p : Process) : Z := len (concat (pr_writes p Stdout)) + len (concat (pr_writes p Stderr)).


(** *** How long a command may take *)

Lemma whole_seconds k : 0 < k <= 9223372036 ->
  process_deadline (milliseconds (k * second)) = Some (k * second) /\ deadline (k * second) = Some (k * second).
Proof.
  intros Hk. assert (Hm : milliseconds (k * second) = k * 1000).
  { unfold milliseconds, second. replace (k * 10 ^ 9) with (k * 1000 * 10 ^ 6) by lia. by rewrite Z.quot_mul. }
  unfold process_deadline, deadline. rewrite Hm. destruct (Z.ltb_spec 0 (k * 1000)); [|lia]. destruct (Z.ltb_spec 0 (k * second)); [|unfold second in *; lia].
  cbn [option_map]. rewrite wrap64_small by lia. split; [|done]. f_equal. unfold second. lia.
Qed.


Definition asked_for (t : Z) : string := obj [member "command" (quote "sleep 1"); member "timeout" (itoa t)].

(** A command that writes to both streams and fails. *)
Definition make_process : Process :=
  mkProcess None (fun fd => match fd with Stdout => [bytes_of "cc a.c"; bytes_of nl] | Stderr => [bytes_of "a.c:1: error"] end) (WaitExit 2) false false.
Definition make_files : FS := {[ ["workspace"%string] := NDir ]}.
Definition make_moves : list Fd := [Stdout; Stderr; Stdout; Stderr; Stdout; Stdout].
Definition make_call : string := obj [member "command" (quote "make")].

Lemma make_pieces fd : Forall (fun d => 0 < len d) (pr_writes make_process fd).
Proof. destruct fd; repeat constructor. Qed.
Lemma make_turns fd : (2 * length (pr_writes make_process fd) <= turns_of fd make_moves)%nat.
Proof. destruct fd; vm_compute; lia. Qed.

