(* ===== verification/Asking.v ===== *)
(** Asking the user (internal/tool/builtin questions.go, ask.go;
    internal/mcp/elicit.go; internal/server questions.go): the questions runs
    wait on and the input MCP servers ask for, each kept by a broker until an
    answer it accepts arrives or its run ends. The two brokers are one, over
    what is asked and what answers it; asking, answering, listing, and ending a
    run are threads. *)
From stdpp Require Import sorting.
From S2P Require Import Prelude GoStr Json Failure Session Threads Api McpMessage McpClient Tool World Builtin.
From stdpp Require Import options.
Open Scope Z_scope.

(** ** What is asked *)

(** A kind of question: a draft becomes one with an identifier and a time; it
    belongs to a run, and takes some answers. *)
Class Askable (D Q A : Type) := {
  asked_as : D -> string -> Z -> Q;
  ask_id : Q -> string;
  ask_at : Q -> Z;
  ask_run : Q -> string;
  ask_session : Q -> string;
  accepts : Q -> A -> option GoError;
  id_prefix : string;
  nobody_waits : string -> GoError;
  ask_id_as : forall d id at_, ask_id (asked_as d id at_) = id;
}.

(** *** Questions of the agent *)

(* @src internal/tool/builtin/questions.go 34-44 Question *)
Record Question := mkQuestion {
  qn_ID : string; qn_SessionID : string; qn_RunID : string; qn_CallID : string; qn_Text : string;
  qn_Options : list string; qn_AllowFreeText : bool; qn_AskedAt : Z;
}.
(* @src internal/tool/builtin/questions.go 13-15 ErrNoQuestion *)
Definition ErrNoQuestion : GoError := ErrSentinel "question not found".
Definition ErrBadAnswer : GoError := ErrSentinel "invalid answer".

(* @src internal/tool/builtin/questions.go 105-119 question.accepts *)
Definition question_accepts (q : Question) (answer : string) : option GoError :=
  let wrong text := Some (ErrWrap ("answer question " +:+ qn_ID q) (ErrSuffix ErrBadAnswer text)) in
  if String.eqb answer EmptyString then wrong "the answer is empty"
  else if bool_decide (qn_Options q = []) || qn_AllowFreeText q then None
  else if existsb (fun o => String.eqb o answer) (qn_Options q) then None
  else wrong (go_quote answer +:+ " is not one of the options").

#[export] Program Instance Question_askable : Askable Question Question string := {
  asked_as q id at_ := mkQuestion id (qn_SessionID q) (qn_RunID q) (qn_CallID q) (qn_Text q) (qn_Options q) (qn_AllowFreeText q) at_;
  ask_id := qn_ID; ask_at := qn_AskedAt; ask_run := qn_RunID; ask_session := qn_SessionID; accepts := question_accepts;
  id_prefix := "q-"; nobody_waits id := ErrWrap ("answer question " +:+ id) ErrNoQuestion;
}.
Next Obligation. done. Qed.

(** *** Input a server asks for *)

(* @src internal/mcp/elicit.go 44-57 Elicitation *)
Record Elicitation := mkElicitation {
  ec_ID : string; ec_SessionID : string; ec_RunID : string; ec_CallID : string; ec_Server : string; ec_Mode : string;
  ec_Message : string; ec_RequestedSchema : option string; ec_URL : string; ec_AskedAt : Z;
}.
(* @src internal/mcp/elicit.go 18-20 ErrNoElicitation *)
Definition ErrNoElicitation : GoError := ErrSentinel "elicitation not found".
Definition ErrBadElicitationAnswer : GoError := ErrSentinel "invalid elicitation answer".

(** A field that is a slice or a map takes null, and starts over. *)
Definition slice_of {T} (dec : string -> option (list T)) (k : string) (l : list (string * string)) : option (list T) :=
  if all_decode dec k l then Some match raw_of k l with Some v => if not_null v then default [] (dec v) else [] | None => [] end else None.
(** A map is filled by every value there is, from the last null on. *)
Definition map_of (k : string) (l : list (string * string)) : option (gmap string string) :=
  foldl (fun m v => m ← m; if not_null v then ps ← object_pairs v; Some (foldl (fun m p => <[p.1 := p.2]> m) m ps) else Some ∅)
    (Some ∅) (values_of k l).
(** So is a struct behind a pointer. *)
Definition pointed_of (k : string) (l : list (string * string)) : option (option (list (string * string))) :=
  foldl (fun m v => m ← m; if not_null v then ps ← object_pairs v; Some (Some (default [] m ++ ps)) else Some None)
    (Some None) (values_of k l).

(* @src internal/mcp/elicit.go 169-174 formSchema *)
Record formSchema := mkFormSchema { fm_Type : string; fm_Properties : gmap string string; fm_Required : list string }.
Definition dec_formSchema (raw : string) : option formSchema :=
  l ← members_of raw;
  kind ← field_of unquote EmptyString "type" l; props ← map_of "properties" l; required ← slice_of dec_string_list "required" l;
  Some (mkFormSchema kind props required).
(* @src internal/mcp/elicit.go 176-182 formField *)
Record formField := mkFormField { ff_Type : string; ff_Items : option string }.
Definition dec_formField (raw : string) : option formField :=
  l ← members_of raw;
  kind ← field_of unquote EmptyString "type" l; items ← pointed_of "items" l;
  match items with
  | None => Some (mkFormField kind None)
  | Some ps => item ← field_of unquote EmptyString "type" ps; Some (mkFormField kind (Some item))
  end.

Definition scalar_kinds : list string := ["string"; "number"; "integer"; "boolean"]%string.
Definition flat_field (prop : string) : bool :=
  match dec_formField prop with
  | Some f =>
      existsb (String.eqb (ff_Type f)) scalar_kinds ||
      (String.eqb (ff_Type f) "array" && match ff_Items f with Some t => String.eqb t "string" || String.eqb t EmptyString | None => false end)
  | None => false
  end.
(* @src internal/mcp/elicit.go 184-208 flatSchema *)
Definition flatSchema (raw : option string) : bool :=
  match dec_formSchema (default EmptyString raw) with
  | Some s => String.eqb (fm_Type s) "object" && forallb (fun p => flat_field p.2) (map_to_list (fm_Properties s))
  | None => false
  end.

Section forms.
(** Whether a number is one [json.Unmarshal] takes, everywhere in a value, and
    whether the [float64] it becomes is that of an [int64]. *)
Context (numbers_fit : string -> bool) (integral : string -> bool).

Definition kind_of (raw : string) : Z := match bytes_of raw with b :: _ => b | [] => 0 end.
Definition is_text (raw : string) : bool := kind_of raw =? 34.
(** The value is of the type the field's schema says. *)
Definition value_fits (f : formField) (raw : string) : bool :=
  if is_text raw then String.eqb (ff_Type f) "string"
  else if (kind_of raw =? 116) || (kind_of raw =? 102) then String.eqb (ff_Type f) "boolean"
  else if kind_of raw =? 91 then String.eqb (ff_Type f) "array" && match array_items raw with Some items => forallb is_text items | None => false end
  else if (kind_of raw =? 123) || (kind_of raw =? 110) then false
  else String.eqb (ff_Type f) "number" || (String.eqb (ff_Type f) "integer" && integral raw).

Definition wrong_value (s : formSchema) (name raw : string) : option GoError :=
  match fm_Properties s !! name with
  | None => Some (ErrText ("the form has no field " +:+ name))
  | Some prop =>
      let f := default (mkFormField EmptyString None) (dec_formField prop) in
      if negb (numbers_fit raw) then Some (ErrText (name +:+ " is not a JSON value"))
      else if value_fits f raw then None else Some (ErrText (name +:+ " must be a " +:+ ff_Type f))
  end.
Definition first_wrong {T} (wrong : T -> option GoError) (l : list T) : option GoError :=
  foldr (fun x e => match wrong x with Some e' => Some e' | None => e end) None l.

(** The values are looked at in some order. *)
(* @src internal/mcp/elicit.go 210-258 checkFormContent *)
Definition checkFormContent (schema content : option string) : option GoError :=
  match dec_formSchema (default EmptyString schema) with
  | None => Some (ErrText "the form's schema is unreadable")
  | Some s =>
      match compact (default EmptyString content) ≫= object_pairs with
      | None => Some (ErrText "an accepted form carries its content as an object")
      | Some ps =>
          let values := foldl (fun m p => <[p.1 := p.2]> m) (∅ : gmap string string) ps in
          match first_wrong (fun name => match values !! name with None => Some (ErrText (name +:+ " is required")) | Some _ => None end) (fm_Required s) with
          | Some e => Some e
          | None => first_wrong (fun p => wrong_value s p.1 p.2) (map_to_list values)
          end
      end
  end.

Definition has_content (res : ElicitResult) : bool := match el_Content res with Some c => nonempty c && not_null c | None => false end.
(* @src internal/mcp/elicit.go 147-167 pendingElicitation.accepts *)
Definition elicitation_accepts (p : Elicitation) (res : ElicitResult) : option GoError :=
  if String.eqb (el_Action res) ElicitDecline || String.eqb (el_Action res) ElicitCancel
  then (if has_content res then Some (ErrText "only an accepted answer carries content") else None)
  else if negb (String.eqb (el_Action res) ElicitAccept)
  then Some (ErrText ("the action must be " +:+ ElicitAccept +:+ ", " +:+ ElicitDecline +:+ ", or " +:+ ElicitCancel))
  else if String.eqb (ec_Mode p) "url"
  then (if has_content res then Some (ErrText "a URL elicitation is accepted without content") else None)
  else checkFormContent (ec_RequestedSchema p) (el_Content res).

#[export] Program Instance Elicitation_askable : Askable Elicitation Elicitation ElicitResult := {
  asked_as e id at_ := mkElicitation id (ec_SessionID e) (ec_RunID e) (ec_CallID e) (ec_Server e) (ec_Mode e) (ec_Message e) (ec_RequestedSchema e) (ec_URL e) at_;
  ask_id := ec_ID; ask_at := ec_AskedAt; ask_run := ec_RunID; ask_session := ec_SessionID;
  accepts p res := match elicitation_accepts p res with
                   | Some e => Some (ErrWrap ("answer elicitation " +:+ ec_ID p) (ErrSuffix ErrBadElicitationAnswer (error_text e)))
                   | None => None
                   end;
  id_prefix := "el-"; nobody_waits id := ErrWrap ("answer elicitation " +:+ id) ErrNoElicitation;
}.
Next Obligation. done. Qed.
End forms.

(** ** The broker *)

(** An object is a question and the slot its answer arrives in; [bk_pending]
    holds objects by identifier, and [bk_over] are the runs whose context has
    ended. The rest is for stating what happens: who waits and who is about to
    leave, what was delivered, and what was taken out. *)
(* @src internal/tool/builtin/questions.go 21-27 Questions *)
(* @src internal/mcp/elicit.go 25-33 Elicitations *)
Record Broker (Q A : Type) := mkBroker {
  bk_tick : nat; bk_pending : gmap string nat; bk_objects : list (Q * option A); bk_over : gset string;
  bk_waiting : gset nat; bk_leaving : gset nat; bk_delivered : list (nat * A); bk_taken : list (nat * A);
}.
Arguments mkBroker {Q A}. Arguments bk_tick {Q A}. Arguments bk_pending {Q A}. Arguments bk_objects {Q A}. Arguments bk_over {Q A}.
Arguments bk_waiting {Q A}. Arguments bk_leaving {Q A}. Arguments bk_delivered {Q A}. Arguments bk_taken {Q A}.

(** Random bytes, the clock, whether the event of a question cannot be made,
    and which of two ready channels a select takes. *)
Record AskEnv := mkAskEnv {
  ak_random : nat -> option (list Z); ak_now : nat -> Z; ak_event : nat -> option GoError; ak_pick : nat -> bool;
}.

Section broker.
Context {D Q A : Type} {K : Askable D Q A} (E : AskEnv).
Abbreviation B := (Broker Q A).
Abbreviation P := (prog B).

Definition tick (s : B) : B :=
  mkBroker (S (bk_tick s)) (bk_pending s) (bk_objects s) (bk_over s) (bk_waiting s) (bk_leaving s) (bk_delivered s) (bk_taken s).
Definition step {R} (f : B -> R * B) : P R := act (fun s => f (tick s)).
Definition look {R} (f : B -> R) : P R := step (fun s => (f s, s)).

(* @src internal/tool/builtin/questions.go 121-128 newQuestionID *)
(* @src internal/mcp/elicit.go 260-267 newElicitationID *)
Definition newID (t : nat) : string :=
  id_prefix +:+ match ak_random E t with Some b => hex_string b | None => itoa (ak_now E t) end.

(** The identifier, the time, and the registration. *)
(* @src internal/tool/builtin/questions.go 87-95 Questions.ask *)
Definition register (d : D) : P nat :=
  step (fun s =>
    let q := asked_as d (newID (bk_tick s)) (ak_now E (bk_tick s)) in
    let n := length (bk_objects s) in
    (n, mkBroker (bk_tick s) (<[ask_id q := n]> (bk_pending s)) (bk_objects s ++ [(q, None)]) (bk_over s)
          ({[n]} ∪ bk_waiting s) (bk_leaving s) (bk_delivered s) (bk_taken s))).

(** What a select on the slot and the run's context comes back with. *)
(* @src internal/tool/builtin/ask.go 66-119 askUserTool.Call *)
(* @src internal/mcp/elicit.go 64-117 Elicitations.ask *)
Definition take_out (n : nat) (s : B) : option (option A * B) :=
  match bk_objects s !! n with
  | Some (q, slot) =>
      let over := bool_decide (ask_run q ∈ bk_over s) in
      let leave slot taken r :=
        Some (r, mkBroker (bk_tick s) (bk_pending s) (<[n := (q, slot)]> (bk_objects s)) (bk_over s)
                   (bk_waiting s ∖ {[n]}) ({[n]} ∪ bk_leaving s) (bk_delivered s) taken) in
      match slot with
      | Some a => if over && negb (ak_pick E (bk_tick s)) then leave slot (bk_taken s) None else leave None (bk_taken s ++ [(n, a)]) (Some a)
      | None => if over then leave None (bk_taken s) None else None
      end
  | None => None
  end.
Definition wait (n : nat) : P (option A) := await (fun s => take_out n (tick s)).

(* @src internal/tool/builtin/questions.go 97-103 Questions.forget *)
Definition forget (n : nat) : P unit :=
  step (fun s =>
    match bk_objects s !! n with
    | Some (q, _) => (tt, mkBroker (bk_tick s) (base.delete (ask_id q) (bk_pending s)) (bk_objects s) (bk_over s)
                            (bk_waiting s ∖ {[n]}) (bk_leaving s ∖ {[n]}) (bk_delivered s) (bk_taken s))
    | None => (tt, s)
    end).

(** The event of a question that cannot be made ends the call when [strict]. *)
Definition ask (strict : bool) (d : D) : P (A + GoError) :=
  n ← register d;
  e ← look (fun s => ak_event E (bk_tick s));
  match (if strict then e else None) with
  | Some err => _ ← forget n; mret (inr err)
  | None => a ← wait n; _ ← forget n; mret match a with Some a => inl a | None => inr (ErrContext "context canceled") end
  end.

(** An answer is put into its slot under the lock, which a full slot would
    keep held. *)
(* @src internal/tool/builtin/questions.go 52-73 Questions.Answer *)
(* @src internal/mcp/elicit.go 119-133 Elicitations.Answer *)
Definition answer_now (id : string) (a : A) (s : B) : option (option GoError * B) :=
  match bk_pending s !! id with
  | None => Some (Some (nobody_waits id), s)
  | Some n =>
      match bk_objects s !! n with
      | Some (q, slot) =>
          match accepts q a, slot with
          | Some e, _ => Some (Some e, s)
          | None, Some _ => None
          | None, None => Some (None, mkBroker (bk_tick s) (base.delete id (bk_pending s)) (<[n := (q, Some a)]> (bk_objects s)) (bk_over s)
                                        (bk_waiting s) (bk_leaving s) (bk_delivered s ++ [(n, a)]) (bk_taken s))
          end
      | None => Some (Some (nobody_waits id), s)
      end
  end.
Definition Answer (id : string) (a : A) : P (option GoError) := await (fun s => answer_now id a (tick s)).

Definition earlier (a b : Q) : Prop := ask_at a <= ask_at b.
#[export] Instance earlier_dec : RelDecision earlier.
Proof. intros a b. unfold earlier. apply _. Defined.
(* @src internal/tool/builtin/questions.go 75-85 Questions.Pending *)
(* @src internal/mcp/elicit.go 135-145 Elicitations.Pending *)
Definition Pending_now (s : B) : list Q := merge_sort earlier (omap (fun p => fst <$> bk_objects s !! p.2) (map_to_list (bk_pending s))).
Definition Pending : P (list Q) := look Pending_now.

(** The context of a run ends. *)
Definition end_run (run : string) : P unit :=
  step (fun s => (tt, mkBroker (bk_tick s) (bk_pending s) (bk_objects s) ({[run]} ∪ bk_over s) (bk_waiting s) (bk_leaving s) (bk_delivered s) (bk_taken s))).

(** What goes on at a broker. *)
Inductive asking : Type :=
| AAsk (strict : bool) (d : D)
| AAnswer (id : string) (a : A)
| APending (session : string)
| AEnd (run : string).
(* @src internal/server/runs.go 98-159 Server.handleSessionRun *)
Definition pending_of (session : string) (qs : list Q) : list Q := List.filter (fun q => String.eqb (ask_session q) session) qs.
Definition asking_thread (r : asking) : P unit :=
  match r with
  | AAsk strict d => _ ← ask strict d; mret tt
  | AAnswer id a => _ ← Answer id a; mret tt
  | APending session => _ ← (qs ← Pending; mret (pending_of session qs)); mret tt
  | AEnd run => end_run run
  end.
Definition newBroker : B := mkBroker 0 ∅ [] ∅ ∅ ∅ [] [].
Definition asking_after (rs : list asking) (turns : list nat) : B := c_state (schedule turns (mkConfig newBroker (map asking_thread rs))).
End broker.
Arguments asking : clear implicits.

(** ** The tool, the servers, and the answers *)

(* @src internal/tool/builtin/ask.go 14-16 maxQuestionOptions *)
Definition maxQuestionOptions : Z := 10.
(* @src internal/tool/builtin/ask.go 24-29 askUserArgs *)
Record askUserArgs := mkAskArgs { aa_Question : string; aa_Options : list string; aa_AllowFreeText : bool }.
Definition dec_askUserArgs (l : list (string * string)) : option askUserArgs :=
  question ← field_of unquote EmptyString "question" l; options ← slice_of dec_string_list "options" l;
  free ← field_of dec_boolean false "allow_free_text" l;
  Some (mkAskArgs question options free).

(** What the tool answers before it asks, or what it asks. *)
Definition asked_question (json_error : string -> string) (listening : bool) (c : CallContext) (raw : string) : Question + Result :=
  match decodeArgs json_error (mkAskArgs EmptyString [] false) dec_askUserArgs raw with
  | inr e => inr (Errorf e)
  | inl args =>
      let text := trim_space (aa_Question args) in
      if String.eqb text EmptyString then inr (Errorf "ask_user: question is required")
      else if maxQuestionOptions <? Z.of_nat (length (aa_Options args))
      then inr (Errorf ("ask_user: at most " +:+ itoa maxQuestionOptions +:+ " options are allowed"))
      else if negb listening then inr (Errorf "ask_user: nobody is listening for questions in this session")
      else inl (mkQuestion EmptyString (CC_SessionID c) (CC_RunID c) (CC_CallID c) text (aa_Options args)
                  (aa_AllowFreeText args || bool_decide (aa_Options args = [])) 0)
  end.
(* @src internal/tool/builtin/ask.go 66-119 askUserTool.Call *)
Definition ask_user_Call (E : AskEnv) (json_error : string -> string) (listening : bool) (c : CallContext) (raw : string)
    : prog (Broker Question string) (Result + GoError) :=
  match asked_question json_error listening c raw with
  | inr r => mret (inl r)
  | inl q => r ← ask E true q; mret match r with inl a => inl (Text a) | inr e => inr (ErrWrap "ask user" e) end
  end.

(** [url_of] is [url.Parse]: the scheme, the host, and how it prints. *)
Definition asked_input (url_of : string -> option (string * string * string)) (asked : Elicitation) (req : ElicitRequest) : option Elicitation :=
  let mode := if String.eqb (er_Mode req) EmptyString then "form"%string else er_Mode req in
  let asks schema url := Some (mkElicitation EmptyString (ec_SessionID asked) (ec_RunID asked) (ec_CallID asked) (ec_Server asked) mode (er_Message req) schema url 0) in
  if String.eqb mode "form" then (if flatSchema (er_Schema req) then asks (er_Schema req) (ec_URL asked) else None)
  else if String.eqb mode "url" then
    match url_of (er_URL req) with
    | Some (scheme, host, printed) =>
        if (String.eqb scheme "https" || String.eqb scheme "http") && nonempty host then asks (ec_RequestedSchema asked) printed else None
    | None => None
    end
  else None.
(* @src internal/mcp/elicit.go 64-117 Elicitations.ask *)
Definition elicit (numbers_fit integral : string -> bool) (url_of : string -> option (string * string * string)) (E : AskEnv)
    (asked : Elicitation) (req : ElicitRequest) : prog (Broker Elicitation ElicitResult) (ElicitResult + GoError) :=
  match asked_input url_of asked req with
  | None => mret (inl (mkElicitResult ElicitDecline None))
  | Some e => ask (K := Elicitation_askable numbers_fit integral) E false e
  end.
(** Nobody is asked for a call outside a session. *)
(* @src internal/mcp/tools.go 360-368 Pool.elicitor *)
Definition elicitor (c : CallContext) (server : string) : option Elicitation :=
  if String.eqb (CC_SessionID c) EmptyString then None
  else Some (mkElicitation EmptyString (CC_SessionID c) (CC_RunID c) (CC_CallID c) server EmptyString EmptyString None EmptyString 0).

(* @src internal/server/questions.go 13-33 Server.handleAnswerQuestion *)
Definition handleAnswerQuestion (listening : bool) (id text : string) : prog (Broker Question string) (Api.answer unit) :=
  if negb listening then mret (inr (notFoundf "no run is waiting for an answer")) else
  e ← Answer id (trim_space text);
  mret match e with Some err => inr (Plain err) | None => inl (204, tt) end.
(* @src internal/server/mcp.go 262-277 Server.handleAnswerElicitation *)
Definition handleAnswerElicitation (numbers_fit integral : string -> bool) (id : string) (res : ElicitResult)
    : prog (Broker Elicitation ElicitResult) (Api.answer unit) :=
  e ← Answer (K := Elicitation_askable numbers_fit integral) id res;
  mret match e with Some err => inr (Plain err) | None => inl (204, tt) end.

(** ** Who is asked is answered once, and what waits can be answered *)

Section claims.
Context {D Q A : Type} {K : Askable D Q A} (E : AskEnv) (rs : list (asking D A)).
Abbreviation B := (Broker Q A).

Record BInv (s : B) : Prop := {
  v_ids : forall n q slot, bk_objects s !! n = Some (q, slot) -> exists m, (m <= bk_tick s)%nat /\ ask_id q = newID E m;
  v_unique : forall n n' q q' slot slot', bk_objects s !! n = Some (q, slot) -> bk_objects s !! n' = Some (q', slot') -> ask_id q = ask_id q' -> n = n';
  v_drafts : forall n q slot, bk_objects s !! n = Some (q, slot) -> exists strict d id t, AAsk strict d ∈ rs /\ q = asked_as d id t;
  v_pending : forall k n, bk_pending s !! k = Some n -> exists q, bk_objects s !! n = Some (q, None) /\ ask_id q = k /\ n ∈ bk_waiting s ∪ bk_leaving s /\ n ∉ (bk_delivered s).*1;
  v_waiting : forall n, n ∈ bk_waiting s -> exists q slot, bk_objects s !! n = Some (q, slot) /\ (slot = None -> bk_pending s !! ask_id q = Some n) /\ n ∉ (bk_taken s).*1;
  v_leaving : forall n, n ∈ bk_leaving s -> n ∉ bk_waiting s /\ is_Some (bk_objects s !! n);
  v_delivered : forall n a, (n, a) ∈ bk_delivered s -> exists q slot, bk_objects s !! n = Some (q, slot) /\ accepts q a = None /\ AAnswer (ask_id q) a ∈ rs;
  v_once : NoDup (bk_delivered s).*1;
  v_slot : forall n q a, bk_objects s !! n = Some (q, Some a) -> (n, a) ∈ bk_delivered s;
  v_taken : forall n a, (n, a) ∈ bk_taken s -> (n, a) ∈ bk_delivered s;
  v_taken_once : NoDup (bk_taken s).*1;
}.
Record BGuard (s s' : B) : Prop := {
  g_tick : (bk_tick s <= bk_tick s')%nat;
  g_objects : forall n q slot, bk_objects s !! n = Some (q, slot) -> exists slot', bk_objects s' !! n = Some (q, slot');
  g_over : bk_over s ⊆ bk_over s';
  g_taken : bk_taken s ⊆ bk_taken s';
}.
Definition b_view (n : nat) (s : B) : option bool :=
  if decide (n ∈ bk_waiting s) then Some true else if decide (n ∈ bk_leaving s) then Some false else None.
(** Where an ask may have to wait: for an answer that can still be given. *)
Definition unanswered (s : B) : Prop :=
  exists n q, bk_objects s !! n = Some (q, None) /\ n ∈ bk_waiting s /\ bk_pending s !! ask_id q = Some n /\ ask_run q ∉ bk_over s.

Abbreviation ok := (Threads.ok BInv BGuard b_view unanswered).
Abbreviation guar := (Threads.guar BInv BGuard b_view).
Abbreviation stable := (Threads.stable BInv BGuard b_view).

Lemma BGuard_refl s : BGuard s s.
Proof. split; [done|by intros n q slot H; exists slot|done|done]. Qed.
Lemma BInv_tick s : BInv s -> BInv (tick s).
Proof.
  intros [I1 I2 I3 I4 I5 I6 I7 I8 I9 I10 I11]. split; try done. intros n q slot Hn. destruct (I1 n q slot Hn) as (m & Hm & He).
  exists m. split; [cbn; lia|done].
Qed.

Lemma b_await {R} (f : B -> option (R * B)) o (X : B -> Prop) (Y : R -> option nat -> B -> Prop) :
  (forall s, X s -> X (tick s)) ->
  (forall s, BInv s -> X s -> f s = None -> unanswered s) ->
  (forall s0, BInv s0 -> let s := tick s0 in BInv s -> X s -> forall r s', f s = Some (r, s') -> exists o', guar o o' s s' /\ stable o' (Y r o') /\ Y r o' s') ->
  ok (await (fun s => f (tick s))) o X Y.
Proof.
  intros HX Hw Hf. apply ok_await.
  - intros s Hi Hx Hn. destruct (Hw (tick s) (BInv_tick s Hi) (HX s Hx) Hn) as (n & q & H). by exists n, q.
  - intros s r s' Hi Hx Hs. destruct (Hf s Hi (BInv_tick s Hi) (HX s Hx) r s' Hs) as (o' & (H1 & [G1 G2 G3 G4] & H3 & H4) & Hst & Hy).
    exists o'. split; [|done]. split; [done|]. split; [split; [cbn in G1; lia|done|done|done]|]. by split.
Qed.

(** A step that changes nothing but its own result. *)
Lemma guar_same o s : BInv s -> (forall p, o = Some p -> is_Some (b_view p s)) -> guar o o s s.
Proof. intros Hi Ho. split; [done|]. split; [apply BGuard_refl|]. split; [by left|]. destruct o; [|done]. split; [by apply Ho|by left]. Qed.

(** *** Registering *)

Definition waits (n : nat) (s : B) : Prop := n ∈ bk_waiting s.
Definition leaves (n : nat) (s : B) : Prop := n ∈ bk_leaving s.

Lemma asking_view n s v : b_view n s = Some v <-> (if v then n ∈ bk_waiting s else n ∉ bk_waiting s /\ n ∈ bk_leaving s).
Proof. unfold b_view. repeat case_decide; destruct v; split; naive_solver. Qed.
Lemma stable_view n v : stable (Some n) (fun s => b_view n s = Some v).
Proof. intros s s' _ (_ & _ & Hv) H. rewrite <- H. by apply Hv. Qed.

Lemma fresh_view s : BInv s -> b_view (length (bk_objects s)) s = None.
Proof.
  intros Hi. assert (Hn : bk_objects s !! length (bk_objects s) = None) by by apply lookup_ge_None.
  unfold b_view. rewrite decide_False, decide_False; [done| |].
  - intros H. destruct (v_leaving s Hi _ H) as [_ [x Hx]]. congruence.
  - intros H. destruct (v_waiting s Hi _ H) as (q & slot & Hq & _). congruence.
Qed.

Lemma b_step {R} (f : B -> R * B) o (X : B -> Prop) (Y : R -> option nat -> B -> Prop) :
  (forall s, X s -> X (tick s)) ->
  (forall s0, BInv s0 -> let s := tick s0 in BInv s -> X s -> exists o', guar o o' s (f s).2 /\ stable o' (Y (f s).1 o') /\ Y (f s).1 o' (f s).2) ->
  ok (step f) o X Y.
Proof.
  intros HX Hf. apply (b_await (fun s => Some (f s))); [done|done|]. intros s0 Hi0 s Hi Hx r s' [= Hs]. specialize (Hf s0 Hi0 Hi Hx).
  fold s in Hf. by rewrite Hs in Hf.
Qed.

Lemma lookup_snoc_Some {T} (l : list T) x n y : (l ++ [x]) !! n = Some y <-> l !! n = Some y \/ n = length l /\ y = x.
Proof.
  rewrite lookup_app_Some. split.
  - intros [H|[Hl H]]; [by left|right]. apply list_lookup_singleton_Some in H as [H ->]. split; [lia|done].
  - intros [H|[-> ->]]; [by left|right]. by rewrite Nat.sub_diag.
Qed.

Lemma ok_register strict d : (forall n m, newID (K := K) E n = newID E m -> n = m) -> AAsk strict d ∈ rs ->
  ok (register E d) None (fun _ => True) (fun n o s => o = Some n /\ b_view n s = Some true).
Proof.
  intros Hid Hd. apply b_step; [done|]. intros s0 Hi0 s Hi _. cbn [fst snd].
  set (q := asked_as d _ _). set (n := length (bk_objects s)). set (s' := mkBroker _ _ _ _ _ _ _ _). exists (Some n).
  assert (Hq : ask_id q = newID E (bk_tick s)) by apply ask_id_as. pose proof Hi as [I1 I2 I3 I4 I5 I6 I7 I8 I9 I10 I11].
  assert (Hn : bk_objects s !! n = None) by by apply lookup_ge_None.
  assert (Hfresh : forall n' q' slot', bk_objects s !! n' = Some (q', slot') -> ask_id q' <> ask_id q).
  { intros n' q' slot' H He. destruct (v_ids s0 Hi0 n' q' slot' H) as (m & Hm & Hm'). rewrite Hm', Hq in He. apply Hid in He. cbn in He. lia. }
  assert (Hobj : forall n' p, bk_objects s' !! n' = Some p <-> bk_objects s !! n' = Some p \/ n' = n /\ p = (q, None)) by (intros; apply lookup_snoc_Some).
  assert (Hold : forall n' p, bk_objects s !! n' = Some p -> n' <> n) by (intros n' p H ->; congruence).
  assert (Hinv : BInv s').
  { split.
    - intros n' q' slot' [H|[-> [= -> ->]]]%Hobj; [by eapply I1|by exists (bk_tick s)].
    - intros n1 n2 q1 q2 s1 s2 [H1|[-> [= -> ->]]]%Hobj [H2|[-> [= -> ->]]]%Hobj He; [by eapply I2| | |done]; exfalso.
      + by apply (Hfresh _ _ _ H1).
      + by apply (Hfresh _ _ _ H2).
    - intros n' q' slot' [H|[-> [= -> ->]]]%Hobj; [by eapply I3|]. by do 4 eexists.
    - intros k n' Hk. cbn in Hk. apply lookup_insert_Some in Hk as [[<- <-]|[Hne Hk]].
      + exists q. split; [apply Hobj; by right|]. split; [done|]. split; [cbn; set_solver|]. cbn. intros Hin.
        apply list_elem_of_fmap in Hin as ([n' a] & Hn' & Hin). cbn in Hn'. destruct (I7 _ _ Hin) as (q' & slot & H & _). by apply (Hold _ _ H).
      + destruct (I4 k n' Hk) as (q' & H1 & H2 & H3 & H4). exists q'. split; [apply Hobj; by left|]. split; [done|]. split; [cbn; set_solver|done].
    - intros n' Hw. apply (elem_of_union {[n]} (bk_waiting s)) in Hw as [->%elem_of_singleton|Hw].
      + exists q, None. split; [apply Hobj; by right|]. split; [intros _; apply lookup_insert_eq|]. cbn. intros Hin.
        apply list_elem_of_fmap in Hin as ([n' a] & Hn' & Hin). cbn in Hn'. destruct (I7 _ _ (I10 _ _ Hin)) as (q' & slot & H & _). by apply (Hold _ _ H).
      + destruct (I5 n' Hw) as (q' & slot & H1 & H2 & H3). exists q', slot. split; [apply Hobj; by left|]. split; [|done]. intros Hs. cbn.
        rewrite lookup_insert_ne by (intros He; by apply (Hfresh _ _ _ H1)). by apply H2.
    - intros n' Hl. destruct (I6 n' Hl) as [H1 [p H2]]. split; [|exists p; apply Hobj; by left]. cbn. intros [->%elem_of_singleton|H]%elem_of_union; [|done].
      by apply (Hold _ _ H2).
    - intros n' a Hin. destruct (I7 n' a Hin) as (q' & slot & H1 & H2 & H3). exists q', slot. split; [apply Hobj; by left|done].
    - done.
    - intros n' q' a [H|[-> [= ]]]%Hobj. by eapply I9.
    - done.
    - done. }
  assert (Hv : b_view n s' = Some true) by (apply asking_view; cbn; set_solver). split; [|split; [|done]].
  - split; [done|]. split; [split; [done| |done|done]; intros n' q' slot' H; exists slot'; apply Hobj; by left|]. split.
    + intros p _ Hp. left. assert (p <> n) by congruence. unfold b_view. cbn. repeat case_decide; set_solver.
    + split; [by rewrite Hv|right]. by apply fresh_view.
  - intros t t' _ (_ & _ & Ht) [_ H]. split; [done|]. rewrite <- H. by apply Ht.
Qed.

(** *** Waiting, leaving, and answering *)

(** What a slot holds changes, and nothing else of the objects. *)
Lemma slot_lookup {X Y : Type} (l : list (X * Y)) n q slot slot' n' p :
  l !! n = Some (q, slot) -> <[n := (q, slot')]> l !! n' = Some p <-> (n' = n /\ p = (q, slot')) \/ (n' <> n /\ l !! n' = Some p).
Proof.
  intros Hn. destruct (decide (n' = n)) as [->|Hne].
  - rewrite list_lookup_insert_eq by by eapply lookup_lt_Some. naive_solver.
  - rewrite list_lookup_insert_ne by done. naive_solver.
Qed.
Lemma delivered_out s n a q slot : BInv s -> bk_objects s !! n = Some (q, slot) -> (n, a) ∈ bk_delivered s -> forall k, bk_pending s !! k <> Some n.
Proof.
  intros Hi Hn Hd k Hk. destruct (v_pending s Hi k n Hk) as (q' & _ & _ & _ & H). apply H, list_elem_of_fmap. by exists (n, a).
Qed.

(** Taking out what came, or leaving because the run ended. *)
Lemma BInv_take s n q slot slot' taken :
  BInv s -> bk_objects s !! n = Some (q, slot) -> n ∈ bk_waiting s ->
  (slot' = slot /\ taken = bk_taken s \/ slot' = None /\ exists a, slot = Some a /\ taken = bk_taken s ++ [(n, a)]) ->
  BInv (mkBroker (bk_tick s) (bk_pending s) (<[n := (q, slot')]> (bk_objects s)) (bk_over s) (bk_waiting s ∖ {[n]}) ({[n]} ∪ bk_leaving s) (bk_delivered s) taken).
Proof.
  intros Hi Hn Hw Ht. pose proof Hi as [I1 I2 I3 I4 I5 I6 I7 I8 I9 I10 I11].
  assert (Hobj : forall n' q' s', <[n := (q, slot')]> (bk_objects s) !! n' = Some (q', s') -> exists s'', bk_objects s !! n' = Some (q', s'')).
  { intros n' q' s' [[-> [= -> ->]]|[_ H]]%(slot_lookup _ _ _ _ _ _ _ Hn); [by exists slot|by exists s']. }
  assert (Hback : forall n' q' s', bk_objects s !! n' = Some (q', s') -> exists s'', <[n := (q, slot')]> (bk_objects s) !! n' = Some (q', s'') /\ (n' <> n -> s'' = s')).
  { intros n' q' s' H. destruct (decide (n' = n)) as [->|Hne]; [exists slot'|exists s']; (split; [|done]); apply (slot_lookup _ _ _ _ _ _ _ Hn); [left|by right].
    split; [done|]. congruence. }
  split; cbn.
  - intros n' q' s' H. destruct (Hobj _ _ _ H) as [s'' H']. by eapply I1.
  - intros n1 n2 q1 q2 s1 s2 H1 H2. destruct (Hobj _ _ _ H1), (Hobj _ _ _ H2). by eapply I2.
  - intros n' q' s' H. destruct (Hobj _ _ _ H) as [s'' H']. by eapply I3.
  - intros k n' Hk. destruct (I4 k n' Hk) as (q' & H1 & H2 & H3 & H4). exists q'. split; [|split; [done|split; [|done]]].
    + apply (slot_lookup _ _ _ _ _ _ _ Hn). destruct (decide (n' = n)) as [->|Hne]; [left|by right]. split; [done|].
      rewrite Hn in H1. injection H1 as -> ->. by destruct Ht as [[-> _]|[-> _]].
    + destruct (decide (n' = n)); set_solver.
  - intros n' [H Hne]%elem_of_difference. destruct (I5 n' H) as (q' & s' & H1 & H2 & H3). exists q', s'.
    split; [apply (slot_lookup _ _ _ _ _ _ _ Hn); right; split; [set_solver|done]|]. split; [done|].
    destruct Ht as [[_ ->]|(_ & a & _ & ->)]; [done|]. rewrite fmap_app. set_solver.
  - intros n' [->%elem_of_singleton|H]%elem_of_union.
    + split; [set_solver|]. destruct (Hback _ _ _ Hn) as (s'' & H & _). by exists (q, s'').
    + destruct (I6 n' H) as [H1 [[q' s'] H2]]. split; [set_solver|]. destruct (Hback _ _ _ H2) as (s'' & H' & _). by exists (q', s'').
  - intros n' a H. destruct (I7 n' a H) as (q' & s' & H1 & H2). destruct (Hback _ _ _ H1) as (s'' & H' & _). by exists q', s''.
  - done.
  - intros n' q' a [[-> [= -> Ha]]|[_ H]]%(slot_lookup _ _ _ _ _ _ _ Hn); [|by eapply I9].
    destruct Ht as [[He _]|[He _]]; rewrite He in Ha; [|done]. rewrite <- Ha in Hn. by eapply I9.
  - intros n' a H. destruct Ht as [[_ ->]|(_ & b & -> & ->)]; [by apply I10|]. apply elem_of_app in H as [H|H]; [by apply I10|].
    apply list_elem_of_singleton in H. injection H as -> ->. by eapply I9.
  - destruct Ht as [[_ ->]|(_ & b & _ & ->)]; [done|]. rewrite fmap_app. apply NoDup_app. split; [done|]. split; [|apply NoDup_singleton].
    destruct (I5 n Hw) as (_ & _ & _ & _ & H). intros x Hx ->%list_elem_of_singleton. done.
Qed.

Lemma ok_wait n :
  ok (wait E n) (Some n) (fun s => b_view n s = Some true)
     (fun r o s => o = Some n /\ b_view n s = Some false /\ forall a, r = Some a -> (n, a) ∈ bk_taken s).
Proof.
  apply (b_await (take_out E n)); [done| |].
  - intros s Hi Hw%asking_view Hn. unfold take_out in Hn. destruct (v_waiting s Hi n Hw) as (q & slot & Hq & Hp & _). rewrite Hq in Hn.
    destruct slot as [a|]; [by destruct (_ && _)|]. case_bool_decide; [done|]. exists n, q. split; [done|]. split; [done|]. split; [by apply Hp|done].
  - intros s0 Hi0 s Hi Hw%asking_view r s' Hs. unfold take_out in Hs. destruct (v_waiting s Hi n Hw) as (q & slot & Hq & Hp & _). rewrite Hq in Hs.
    assert (H : exists slot' taken, s' = mkBroker (bk_tick s) (bk_pending s) (<[n := (q, slot')]> (bk_objects s)) (bk_over s) (bk_waiting s ∖ {[n]}) ({[n]} ∪ bk_leaving s) (bk_delivered s) taken /\
      (slot' = slot /\ taken = bk_taken s \/ slot' = None /\ exists a, slot = Some a /\ taken = bk_taken s ++ [(n, a)]) /\ forall a, r = Some a -> (n, a) ∈ taken).
    { destruct slot as [a|]; [destruct (_ && _)|case_bool_decide]; try done; injection Hs as <- <-; do 2 eexists; (split; [done|]).
      - split; [by left|done].
      - split; [right; split; [done|by exists a]|]. intros b [= ->]. apply elem_of_app. right. by apply list_elem_of_singleton.
      - split; [by left|done]. }
    destruct H as (slot' & taken & -> & Ht & Hr). exists (Some n). assert (Hinv := BInv_take s n q slot slot' taken Hi Hq Hw Ht).
    set (s' := mkBroker (bk_tick s) (bk_pending s) (<[n := (q, slot')]> (bk_objects s)) _ _ _ _ taken) in *.
    assert (Hv : b_view n s' = Some false) by (apply asking_view; cbn; set_solver). split; [|split].
    + split; [done|]. split; [|split; [|split; [by rewrite Hv|by left]]].
      * split; [done| |done|cbn; destruct Ht as [[_ ->]|(_ & b & _ & ->)]; set_solver]. intros n' q' s1 H. destruct (decide (n' = n)) as [->|Hne].
        -- exists slot'. apply (slot_lookup _ _ _ _ _ _ _ Hq). left. split; [done|]. congruence.
        -- exists s1. apply (slot_lookup _ _ _ _ _ _ _ Hq). by right.
      * intros p _ Hpn. left. assert (p <> n) by congruence. unfold b_view. cbn. repeat case_decide; set_solver.
    + intros t t' Ht0 (Ht' & Hg & Hv') (_ & Hvt & Htk). split; [done|]. split; [rewrite <- Hvt; by apply Hv'|].
      intros a Ha. by apply (g_taken _ _ Hg), Htk.
    + done.
Qed.

Lemma view_object s n v : BInv s -> b_view n s = Some v -> exists q slot, bk_objects s !! n = Some (q, slot).
Proof.
  intros Hi Hv%asking_view. destruct v.
  - destruct (v_waiting s Hi n Hv) as (q & slot & H & _). by exists q, slot.
  - destruct (v_leaving s Hi n (proj2 Hv)) as [_ [[q slot] H]]. by exists q, slot.
Qed.

Lemma ok_forget n v : ok (forget n) (Some n) (fun s => b_view n s = Some v) (fun _ o _ => o = None).
Proof.
  apply b_step; [done|]. intros s0 Hi0 s Hi Hv. cbn [fst snd]. destruct (view_object s n v Hi Hv) as (q & slot & Hq). rewrite Hq. cbn [fst snd].
  exists None. split; [|by split]. pose proof Hi as [I1 I2 I3 I4 I5 I6 I7 I8 I9 I10 I11].
  set (s' := mkBroker (bk_tick s) (base.delete (ask_id q) (bk_pending s)) _ _ _ _ _ _).
  assert (Hkept : forall n', n' <> n -> b_view n' s' = b_view n' s) by (intros n' Hne; unfold b_view; cbn; repeat case_decide; set_solver).
  split; [|split; [split; [done| |done|done]; intros n' q' slot' H; by exists slot'|split; [|done]]].
  - split; try done; cbn.
    + intros k n' [Hne Hk]%lookup_delete_Some. destruct (I4 k n' Hk) as (q' & H1 & H2 & H3 & H4). exists q'. split; [done|]. split; [done|].
      split; [|done]. assert (n' <> n) by (intros ->; congruence). set_solver.
    + intros n' [H Hne]%elem_of_difference. destruct (I5 n' H) as (q' & slot' & H1 & H2 & H3). exists q', slot'. split; [done|]. split; [|done].
      intros Hs. rewrite lookup_delete_ne; [by apply H2|]. intros He. apply Hne, elem_of_singleton. symmetry. by eapply I2.
    + intros n' [H Hne]%elem_of_difference. destruct (I6 n' H) as [H1 H2]. split; [set_solver|done].
  - intros p Hp _. left. apply Hkept. congruence.
Qed.

(** What changes neither who waits nor who leaves is nothing to a thread that
    owns nothing. *)
Lemma guar_none s s' : BInv s' -> BGuard s s' -> bk_waiting s' = bk_waiting s -> bk_leaving s' = bk_leaving s -> guar None None s s'.
Proof. intros Hi Hg Hw Hl. split; [done|]. split; [done|]. split; [|done]. intros p _ _. left. unfold b_view. by rewrite Hw, Hl. Qed.

Lemma ok_look {R} (f : B -> R) o : ok (look f) o (fun s => forall n, o = Some n -> b_view n s = Some true)
  (fun _ o' s => o' = o /\ forall n, o = Some n -> b_view n s = Some true).
Proof.
  apply b_step; [done|]. intros s0 _ s Hi Hv. cbn [fst snd]. exists o. split; [|split; [|done]].
  - apply guar_same; [done|]. intros p Hp. by rewrite (Hv p Hp).
  - intros t t' _ (_ & _ & Ht) [_ H]. split; [done|]. intros n Hn. rewrite <- (H n Hn). by apply Ht.
Qed.

Lemma ok_end_run run : ok (end_run run) None (fun _ => True) (fun _ o _ => o = None).
Proof.
  apply b_step; [done|]. intros s0 Hi0 s Hi _. cbn [fst snd]. exists None. split; [|by split]. apply guar_none; try done.
  - pose proof Hi as [I1 I2 I3 I4 I5 I6 I7 I8 I9 I10 I11]. by split.
  - split; [done| |cbn; set_solver|done]. intros n q slot H. by exists slot.
Qed.

Lemma ok_Answer id a : AAnswer id a ∈ rs -> ok (Answer id a) None (fun _ => True) (fun _ o _ => o = None).
Proof.
  intros Ha. apply (b_await (answer_now id a)); [done| |].
  - intros s Hi _ Hn. exfalso. unfold answer_now in Hn. destruct (bk_pending s !! id) as [n|] eqn:Ep; [|done].
    destruct (v_pending s Hi id n Ep) as (q & Hq & _). rewrite Hq in Hn. by destruct (accepts q a).
  - intros s0 Hi0 s Hi _ r s' Hs. exists None. split; [|by split]. unfold answer_now in Hs.
    assert (Hsame : guar None None s s) by by apply guar_same.
    destruct (bk_pending s !! id) as [n|] eqn:Ep; [|by injection Hs as _ <-].
    destruct (v_pending s Hi id n Ep) as (q & Hq & Hid & Hw & Hnd). rewrite Hq in Hs. destruct (accepts q a) as [e|] eqn:Ea; [by injection Hs as _ <-|].
    injection Hs as _ <-. pose proof Hi as [I1 I2 I3 I4 I5 I6 I7 I8 I9 I10 I11].
    assert (Hobj : forall n' p, <[n := (q, Some a)]> (bk_objects s) !! n' = Some p <-> (n' = n /\ p = (q, Some a)) \/ (n' <> n /\ bk_objects s !! n' = Some p)) by (intros; by eapply slot_lookup).
    assert (Hold : forall n' q' s1, <[n := (q, Some a)]> (bk_objects s) !! n' = Some (q', s1) -> exists s2, bk_objects s !! n' = Some (q', s2)).
    { intros n' q' s1 [[-> [= -> ->]]|[_ H]]%Hobj; [by exists None|by exists s1]. }
    assert (Hback : forall n' q' s1, bk_objects s !! n' = Some (q', s1) -> exists s2, <[n := (q, Some a)]> (bk_objects s) !! n' = Some (q', s2)).
    { intros n' q' s1 H. destruct (decide (n' = n)) as [->|Hne]; [exists (Some a)|exists s1]; apply Hobj; [left|by right]. split; [done|congruence]. }
    apply guar_none; [|by split|done|done]. split; cbn.
    + intros n' q' s1 H. destruct (Hold _ _ _ H) as [s2 H']. by eapply I1.
    + intros n1 n2 q1 q2 s1 s2 H1 H2. destruct (Hold _ _ _ H1), (Hold _ _ _ H2). by eapply I2.
    + intros n' q' s1 H. destruct (Hold _ _ _ H) as [s2 H']. by eapply I3.
    + intros k n' [Hne Hk]%lookup_delete_Some. destruct (I4 k n' Hk) as (q' & H1 & H2 & H3 & H4). assert (n' <> n) by (intros ->; congruence).
      exists q'. split; [apply Hobj; by right|]. split; [done|]. split; [done|]. rewrite fmap_app. cbn. set_solver.
    + intros n' H. destruct (I5 n' H) as (q' & s1 & H1 & H2 & H3). destruct (decide (n' = n)) as [->|Hne].
      * exists q', (Some a). split; [apply Hobj; left; split; [done|congruence]|]. by split.
      * exists q', s1. split; [apply Hobj; by right|]. split; [|done]. intros Hs. rewrite lookup_delete_ne; [by apply H2|].
        intros He. apply Hne. apply (I2 n' n q' q s1 None); [done|done|by rewrite Hid].
    + intros n' H. destruct (I6 n' H) as [H1 [[q' s1] H2]]. split; [done|]. destruct (Hback _ _ _ H2) as [s2 H']. by exists (q', s2).
    + intros n' b H. apply elem_of_app in H as [H|H].
      * destruct (I7 n' b H) as (q' & s1 & H1 & H2). destruct (Hback _ _ _ H1) as [s2 H']. by exists q', s2.
      * apply list_elem_of_singleton in H. injection H as -> ->. exists q, (Some a). split; [apply Hobj; by left|]. split; [done|]. by rewrite Hid.
    + rewrite fmap_app. apply NoDup_app. split; [done|]. split; [|apply NoDup_singleton]. intros x Hx ->%list_elem_of_singleton. done.
    + intros n' q' b [[-> [= -> ->]]|[_ H]]%Hobj; apply elem_of_app; [right; by apply list_elem_of_singleton|left; by eapply I9].
    + intros n' b H. apply elem_of_app. left. by apply I10.
    + done.
Qed.

(** *** Threads *)

Lemma ok_ask strict d : (forall n m, newID (K := K) E n = newID E m -> n = m) -> AAsk strict d ∈ rs ->
  ok (ask E strict d) None (fun _ => True) (fun _ o _ => o = None).
Proof.
  intros Hid Hd. unfold ask. eapply ok_bind; [by apply (ok_register strict d)|]. intros n o. apply ok_pure. intros ->.
  eapply ok_bind; [eapply ok_pre; [|apply (ok_look _ (Some n))]; intros s _ Hv m [= <-]; exact Hv|].
  intros e o. apply ok_pure. intros ->.
  destruct (if strict then e else None).
  - eapply ok_bind; [eapply ok_pre; [|apply (ok_forget n true)]; intros s _ Hv; by apply Hv|]. intros u o. by apply ok_ret.
  - eapply ok_bind; [eapply ok_pre; [|apply ok_wait]; intros s _ Hv; by apply Hv|]. intros a o. apply ok_pure. intros ->.
    eapply ok_bind; [eapply ok_pre; [|apply (ok_forget n false)]; by intros s _ [Hv _]|]. intros u o. by apply ok_ret.
Qed.

Lemma ok_asking_thread r : (forall n m, newID (K := K) E n = newID E m -> n = m) -> r ∈ rs ->
  ok (asking_thread E r) None (fun _ => True) (fun _ _ _ => True).
Proof.
  intros Hid Hr. destruct r; cbn [asking_thread].
  - eapply ok_bind; [by apply ok_ask|]. intros a o. by apply ok_ret.
  - eapply ok_bind; [by apply ok_Answer|]. intros a' o. by apply ok_ret.
  - eapply ok_bind with (R := fun _ _ _ => True); [|intros a o; by apply ok_ret].
    eapply ok_bind; [eapply ok_pre; [|apply (ok_look _ None)]; done|]. intros a o. by apply ok_ret.
  - eapply ok_post; [|apply ok_end_run]. done.
Qed.

Lemma BInv_new : BInv newBroker.
Proof. split; cbn; try done; try set_solver; try constructor. Qed.

Lemma asking_sound turns : (forall n m, newID (K := K) E n = newID E m -> n = m) ->
  sound BInv BGuard b_view unanswered (map (fun _ _ => True) rs) (schedule turns (mkConfig newBroker (map (asking_thread E) rs))).
Proof.
  intros Hid. apply schedule_sound, sound_start; [apply BInv_new|]. apply Forall2_fmap_2, Forall_Forall2_diag, Forall_forall. intros r Hr.
  eapply safe_post; [|apply ok_asking_thread; [done|exact Hr|by exists newBroker; split; [apply BInv_new|]]]. done.
Qed.
End claims.

Lemma elem_of_Pending {D Q A} {K : Askable D Q A} (s : Broker Q A) q :
  q ∈ Pending_now s <-> exists k n slot, bk_pending s !! k = Some n /\ bk_objects s !! n = Some (q, slot).
Proof.
  unfold Pending_now. rewrite merge_sort_Permutation, list_elem_of_omap. split.
  - intros ([k n] & Hk & Hq). apply elem_of_map_to_list in Hk. cbn in Hq. destruct (bk_objects s !! n) as [[q' slot]|] eqn:E; [|done].
    injection Hq as ->. by exists k, n, slot.
  - intros (k & n & slot & Hk & Hq). exists (k, n). split; [by apply elem_of_map_to_list|]. cbn. by rewrite Hq.
Qed.


(** Once the runs of all who ask have ended, every call ends in every run
    of the harness in which its turn comes again and again. *)
Theorem ended_runs_stop_asking {D Q A} {K : Askable D Q A} E (rs : list (asking D A)) turns sigma i :
  (forall n m, newID (K := K) E n = newID E m -> n = m) -> (i < length rs)%nat -> fair sigma i ->
  (forall strict d id t, AAsk strict d ∈ rs -> ask_run (asked_as d id t) ∈ bk_over (asking_after E rs turns)) ->
  exists n u, c_threads (schedule (first sigma n) (schedule turns (mkConfig newBroker (map (asking_thread E) rs)))) !! i = Some (Ret u).
Proof.
  intros Hid Hl Hf Hover. set (c := schedule turns _). assert (Hs := asking_sound E rs turns Hid). fold c in Hs.
  assert (Hm : is_Some (c_threads c !! i)) by (apply threads_stay, lookup_lt_is_Some; cbn; by rewrite length_map).
  destruct Hm as [m Hm]. eapply fair_ends; [exact Hs|exact Hf|exact Hm|]. intros turns' (n & q & Hq & _ & _ & Hr).
  destruct (schedule_sound _ _ _ _ _ turns' _ Hs) as [Hi _]. destruct (v_drafts E rs _ Hi n q None Hq) as (strict & d & id & t & Hd & ->).
  apply Hr. apply (schedule_guards _ _ _ _ (fun s => ask_run (asked_as d id t) ∈ bk_over s) _ turns' c) in Hs; [done| |by eapply Hover].
  intros s s' [_ _ Ho _] H. by apply Ho.
Qed.

(** *** A question that is answered, and one whose run ends *)

Definition asking_env : AskEnv := mkAskEnv (fun _ => None) Z.of_nat (fun _ => None) (fun _ => true).
Definition which_branch : Question := mkQuestion EmptyString "session" "run" "call" "Which branch?" ["main"; "next"]%string false 0.
Definition asking_requests : list (asking Question string) := [AAsk true which_branch; AAnswer "q-1" "main"; AEnd "run"].

Lemma asking_ids n m : newID (K := Question_askable) asking_env n = newID (K := Question_askable) asking_env m -> n = m.
Proof.
  intros H. unfold newID in H. change ("q-" +:+ itoa (Z.of_nat n) = "q-" +:+ itoa (Z.of_nat m)) in H. apply (inj (String.app "q-")) in H.
  unfold itoa in H. apply (inj pretty) in H. lia.
Qed.


Lemma ended_runs_stop_asking_witness :
  exists n u, c_threads (schedule (first (fun _ => O) n) (schedule [0; 2]%nat (mkConfig newBroker (map (asking_thread asking_env) asking_requests)))) !! O = Some (Ret u).
Proof.
  apply (ended_runs_stop_asking asking_env asking_requests [0; 2]%nat (fun _ => O) O).
  - exact asking_ids.
  - cbn. lia.
  - intros n. by exists n.
  - intros strict d id t Hd. assert (Hq : d = which_branch).
    { unfold asking_requests in Hd. apply elem_of_cons in Hd as [Hd|Hd]; [by injection Hd|]. exfalso. apply elem_of_cons in Hd as [Hd|Hd]; [done|].
      apply elem_of_cons in Hd as [Hd|Hd]; [done|]. by apply elem_of_nil in Hd. }
    rewrite Hq. by vm_compute.
Defined.
